(* ===== verification/_CoqProject ===== *)
-Q . S2P
Prelude.v
Abi.v
Monad.v
Riscv.v
Mem.v
Spinlock.v
Kalloc.v
Vm.v
VmMap.v
VmCopy.v
VmSpace.v
VmFree.v
Block.v
Sleeplock.v
Bio.v
BioLru.v
BioInv.v
Log.v
LogDisk.v
LogCrash.v
LogTxn.v
Pipe.v
Proc.v
ProcSpec.v
ProcSpace.v
ProcLife.v
ProcAlloc.v
ProcWait.v
SleepWake.v
Wp.v
Store.v
Fs.v
LogStore.v
FsAlloc.v
FsFile.v
FsRw.v
FsInode.v
FsIo.v
ProcMem.v
FsTrunc.v
FsTable.v
FsDir.v
FsPath.v
FsProps.v
FsCrash.v
FsBoot.v
FsDemo.v
Mkfs.v
MkfsSpec.v
MkfsImage.v
MkfsRun.v
MkfsProps.v
MkfsBoot.v
Printf.v
Console.v
ConsoleSpec.v
File.v
Kernel.v
ProcFork.v
Exec.v
Sysfile.v
Syscall.v
Virtio.v
VirtioSpec.v
Trap.v
Asm.v
User.v
Grep.v
Ulib.v
Progs.v
Tests.v
Umalloc.v
UmallocSpec.v
Sh.v
ShSpec.v
ShRun.v
