(* ===== verification/Prelude.v ===== *)
(** * A verification of xv6 for RISC-V

    xv6 is a small Unix: a kernel (kernel/), the program that makes its disk
    image (mkfs/) and user programs (user/).  This library translates that code
    into functions, operation by operation, and proves what makes it correct.

    ** The program and the files

    The parts, from the machine up; each file names the source it translates.
    A file [X.v] has the definitions, [XSpec.v], [XInv.v] and the like the lemmas.

    - The machine.  [Riscv] has the constants and macros of riscv.h, memlayout.h and
      param.h and the registers of a hart, [Mem] byte-addressed memory with
      string.c, [Abi] the constants shared with user programs.
    - Kernel threads.  [Monad] is the monad of kernel code: a state, the spin
      locks held, wakeups issued, and the outcomes [Ok], [Panic], [Sleeping] (the
      thread has called sleep, with the rest of its run as a function of the
      state it wakes up in) and [NoFuel].  [Wp] is a total program logic for
      it: [runs h m s Q] says that [m], run alone from [s] with the locks [h],
      returns, does not panic, gives the locks back, and ends in [Q].
    - Locks.  [Spinlock] has spinlock.c as steps that any number of CPUs
      interleave; [Sleeplock] has sleeplock.c; [SleepWake] has
      sleeplock.c again with sleep, wakeup, kill and the scheduler of proc.c,
      as actions that the processes interleave.
    - Memory.  [Kalloc] is kalloc.c, with the free list in the pages themselves;
      [Vm] is vm.c, with the page tables in memory; [VmMap] relates page tables
      to maps, [VmCopy] has the copies to and from user memory, [VmSpace] the
      address spaces that uvmalloc, uvmdealloc and uvmcopy make and [VmFree] how
      uvmfree takes one apart.
    - The disk.  [Virtio] is virtio_disk.c, with the device as the environment
      of a run; [Block] has blocks and their fields; [Bio] is bio.c ([BioLru] its
      list, [BioInv] its invariant); [Log] is log.c ([LogDisk], [LogCrash] and
      [LogTxn] have what it writes, crashes, and transactions).
    - The file system.  [Store] is the interface that fs.c uses: the class
      [BlockStore] of operations with its laws, [BlockStoreLaws], and the class
      [Memory] for the copies; [LogStore] and [ProcMem] are the instances, by
      the log and by processes.  [Fs] is fs.c; its lemmas are proved against
      the interface: [FsAlloc], [FsFile], [FsRw], [FsInode], [FsIo], [FsTrunc],
      [FsTable], [FsDir], [FsPath].  [FsProps] has what it promises, [FsCrash] a
      write and a crash, [FsBoot] booting from a disk, [FsDemo] the witnesses.
    - mkfs.  [Mkfs] is mkfs.c; [MkfsSpec], [MkfsImage], [MkfsRun], [MkfsProps] show
      that the image is a file system, [MkfsBoot] that the kernel reads it.
    - Processes and calls.  [Proc] is proc.c over the process table ([ProcSpec]
      has the scans of wait and kill, [ProcSpace] the address space of a process, [ProcLife]
      and [ProcAlloc] the invariant of the table, its pages and the free list,
      [ProcWait] wait and kill on that memory),
      [Pipe] is pipe.c, [File] is file.c, [Kernel] puts the components into one
      state and has fork, exit and userinit ([ProcFork] shows what fork does),
      [Exec] is exec.c, [Sysfile] and [Syscall] have all system calls and their
      table.
    - Devices and traps.  [Printf], [Console] (console.c, uart.c), [Trap] (trap.c,
      plic.c, start.c, main.c), and [Asm], where trampoline.S, swtch.S and
      kernelvec.S are lists of instructions of a register machine.
    - User programs.  [User] has programs as trees of system calls; [Ulib] is
      ulib.c, [Umalloc] umalloc.c, [Sh] sh.c, [Grep] grep.c, [Progs] the small
      programs, [Tests] forktest.c, stressfs.c and grind.c.

    ** How the code is translated

    Integers are [Z], with the wrap-around of their C type written out where the
    code computes.  Pointers are addresses, or indices into the array they point
    into.  Memory is a map from addresses to bytes; a block is a list of bytes.
    A function that changes state is a function of the monad over the record of
    the state it works on, and lenses put a component's state into a larger one.
    A buffer or an inode is an index into its table, so that what the code
    shares is shared.  [panic] is an outcome.  Spin locks make the code between
    [acquire] and [release] atomic; [Spinlock] justifies this with
    interleaved steps.  Other threads run where a thread sleeps; [SleepWake]
    looks at the interleavings of sleep and wakeup themselves.

    ** What the theorems show

    - Crash safety: [writei_crash_atomic], [commit_crash_atomic] record the disk
      writes in order; whatever prefix of them has happened at a crash,
      binit and initlog give all of the transaction or nothing.
    - Files: [writei_splices], [readi_reads], [balloc_fresh], [iput_frees],
      [iget_unique], [dirlink_adds], [namei_walks] say what files, directories and
      the inode table are after each operation, and that nothing else changes.
    - From mkfs to the kernel: [mkfs_boots].
    - Log and cache: [log_write_update], [end_op_commits],
      [log_reservation_too_big], [bread_coherent], [bcache_lru].
    - Disk driver: [virtio_disk_rw_serves], [virtio_disk_intr_completes].
    - Memory: [kinit_frees_all], [mappages_maps], [copyout_writes],
      [copyout_copyin].
    - Memory of processes: [process_pages] is the invariant that every page is
      free or has one owner, in all states that allocproc, growproc and freeproc
      reach; [growproc_resizes], [freeproc_frees] and [fork_copies] say what the
      calls do to the memory a process sees, that the others see no change,
      and what happens when memory runs out.  They ask for what holds of the
      kernel's image: it ends ([kend]) above KERNBASE, and the trampoline has an
      address of at most 55 bits.
    - Concurrency: [acquire_mutual_exclusion] for spin locks;
      [sleeplock_excludes], [no_lost_wakeup] and [sleep_completes] for sleep
      locks over sleep and wakeup, in every interleaving.
    - Processes and devices: [wait_reaps], [kill_zero_marks_free_slot],
      [pipewrite_fifo], [piperead_fifo], [trap_roundtrip], [consoleintr_edits].
    - User programs: [shell_runs], [parse_print], [umalloc_safe],
      [match_iff_accepts], [grep_prints_matching].

    A theorem with hypotheses has a witness, named [<theorem>_witness], that
    applies it to a concrete state.

    ** Bounds and fuel

    A loop that is not structural has fuel, computed from the data it works on,
    and the theorems about it are total: readi and writei have one turn for each
    byte at most, a directory one for each entry, namex one for each character
    of the path, freerange one for each page, iappend one for each byte, the
    shell's parser [4 * length + 4].  The loops that wait have as many turns as the
    [naps] of the run, the number of times other threads let it go on.  User
    programs that read until the end of their input take fuel as an argument,
    and the theorems ask for more of it than there are bytes; those that never
    end (init, sh, grind) take the number of turns.

    ** Not modelled

    - The hardware: instructions outside the assembly files, caches and memory
      ordering beyond the atomic swap of a lock, the device side of virtio, and
      the timing of interrupts.
    - Interleavings of kernel threads inside operations that hold no spin lock,
      apart from those of [SleepWake]: a run is one thread, and other threads
      act when it sleeps.
    - kernel/ramdisk.c, which is not built and does not fit struct buf;
      kernel/entry.S (it sets the stack pointer); kernel/kernel.ld, user/usys.pl,
      user/initcode.S and the Makefile.
    - user/usertests.c: tests of the running system that call what is modelled.
    - The text of mkfs's messages, and the allocation of the shell's command
      nodes. *)

From Stdlib Require Export ZArith Lia Bool.
From stdpp Require Export base functions gmap list_numbers strings numbers.
From stdpp Require Export list.

#[export] Set Default Goal Selector "!".
#[global] Open Scope Z_scope.

(** ** Machine integers

    A C integer of width [w] is a [Z]; the wrap-around of the unsigned types
    and the two's-complement reading of the signed ones are written out at
    each place the source computes at that width. *)

Definition u8 (x : Z) : Z := x mod 2 ^ 8.

Definition u16 (x : Z) : Z := x mod 2 ^ 16.

Definition u32 (x : Z) : Z := x mod 2 ^ 32.

Definition u64 (x : Z) : Z := x mod 2 ^ 64.

Definition signed (w x : Z) : Z :=
  let y := x mod 2 ^ w in
  if y <? 2 ^ (w - 1) then y else y - 2 ^ w.

Definition i16 (x : Z) : Z := signed 16 x.

Definition i32 (x : Z) : Z := signed 32 x.

(** C truth values. *)
Definition b2z (b : bool) : Z := if b then 1 else 0.

(** ** Tactics *)

(** [lia] with the characteristic equations of [/] and [mod]. *)
Ltac dlia := Z.div_mod_to_equations; lia.

(** Turn the boolean comparisons of the code into propositions. *)
Ltac bdestruct_one :=
  match goal with
  | |- context [?x =? ?y] => destruct (Z.eqb_spec x y)
  | |- context [?x <? ?y] => destruct (Z.ltb_spec x y)
  | |- context [?x <=? ?y] => destruct (Z.leb_spec x y)
  | H : context [?x =? ?y] |- _ => destruct (Z.eqb_spec x y)
  | H : context [?x <? ?y] |- _ => destruct (Z.ltb_spec x y)
  | H : context [?x <=? ?y] |- _ => destruct (Z.leb_spec x y)
  end.

Ltac bdestruct := repeat (bdestruct_one; simpl in *; try discriminate; try lia); try reflexivity.

Create HintDb xv6 discriminated.

(** ** Facts about the machine integers *)

Section machine_integers.
Implicit Types x y w : Z.

Lemma u64_range x : 0 <= u64 x < 2 ^ 64.
Proof. apply Z.mod_pos_bound. lia. Qed.

Lemma u32_range x : 0 <= u32 x < 2 ^ 32.
Proof. apply Z.mod_pos_bound. lia. Qed.

Lemma u8_range x : 0 <= u8 x < 2 ^ 8.
Proof. apply Z.mod_pos_bound. lia. Qed.

Lemma u64_small x : 0 <= x < 2 ^ 64 → u64 x = x.
Proof. apply Z.mod_small. Qed.

Lemma u32_small x : 0 <= x < 2 ^ 32 → u32 x = x.
Proof. apply Z.mod_small. Qed.

Lemma u8_small x : 0 <= x < 2 ^ 8 → u8 x = x.
Proof. apply Z.mod_small. Qed.

Lemma signed_small w x :
  0 < w → - 2 ^ (w - 1) <= x < 2 ^ (w - 1) → signed w x = x.
Proof.
  intros Hw Hx. unfold signed.
  assert (2 ^ w = 2 * 2 ^ (w - 1)) as E.
  { rewrite <- Z.pow_succ_r by lia. f_equal. lia. }
  destruct (Z.le_gt_cases 0 x).
  - rewrite (Z.mod_small x) by lia. bdestruct.
  - replace (x mod 2 ^ w) with (x + 2 ^ w).
    + bdestruct.
    + apply (Z.mod_unique _ _ (-1)); lia.
Qed.

Lemma signed_range w x :
  0 < w → - 2 ^ (w - 1) <= signed w x < 2 ^ (w - 1).
Proof.
  intros Hw. unfold signed.
  assert (2 ^ w = 2 * 2 ^ (w - 1)) as E.
  { rewrite <- Z.pow_succ_r by lia. f_equal. lia. }
  pose proof (Z.mod_pos_bound x (2 ^ w)).
  assert (0 < 2 ^ (w - 1)) by (apply Z.pow_pos_nonneg; lia).
  bdestruct.
Qed.

(** Bit fields: [a] above bit [n] and [b] below it. *)
Lemma land_high_low a b n :
  0 <= n → 0 <= b < 2 ^ n → Z.land (a * 2 ^ n) b = 0.
Proof.
  intros Hn Hb. apply Z.bits_inj'. intros i Hi.
  rewrite Z.land_spec, Z.bits_0. destruct (Z.lt_ge_cases i n).
  - by rewrite Z.mul_pow2_bits_low.
  - assert (Z.testbit b i = false) as ->; [| apply andb_false_r].
    rewrite <- (Z.mod_small b (2 ^ n)) by done. by apply Z.mod_pow2_bits_high.
Qed.

Lemma lor_high_low a b n :
  0 <= n → 0 <= b < 2 ^ n → Z.lor (a * 2 ^ n) b = a * 2 ^ n + b.
Proof.
  intros. symmetry. apply Z.add_nocarry_lor. by apply land_high_low.
Qed.

Lemma testbit_above a n i :
  0 <= n <= i → 0 <= a < 2 ^ n → Z.testbit a i = false.
Proof.
  intros Hn Ha. rewrite <- (Z.mod_small a (2 ^ n)) by done.
  by apply Z.mod_pow2_bits_high.
Qed.

Lemma lor_range a b n :
  0 <= n → 0 <= a < 2 ^ n → 0 <= b < 2 ^ n → 0 <= Z.lor a b < 2 ^ n.
Proof.
  intros Hn Ha Hb.
  assert (Z.lor a b = Z.lor a b mod 2 ^ n) as ->.
  { apply Z.bits_inj'. intros i Hi. destruct (Z.lt_ge_cases i n).
    - by rewrite Z.mod_pow2_bits_low.
    - by rewrite Z.mod_pow2_bits_high, Z.lor_spec, !(testbit_above _ n) by lia. }
  apply Z.mod_pos_bound. lia.
Qed.

Lemma land_low_ones a n : 0 <= n → 0 <= Z.land a (Z.ones n) < 2 ^ n.
Proof. intros. rewrite Z.land_ones by done. apply Z.mod_pos_bound. lia. Qed.

End machine_integers.

(** ** Lists indexed by [Z]

    Array accesses of the code.  An index out of range reads [None]. *)

Section lists.
Context {A : Type}.
Implicit Types (l : list A) (x : A).

Definition zget l (i : Z) : option A :=
  if i <? 0 then None else l !! Z.to_nat i.

Definition zset l (i : Z) x : list A :=
  if i <? 0 then l else <[Z.to_nat i := x]> l.

Lemma zget_Some_range l i x : zget l i = Some x → 0 <= i < Z.of_nat (length l).
Proof.
  unfold zget. intros H. bdestruct.
  apply lookup_lt_Some in H. lia.
Qed.

Lemma zget_is_Some l i : 0 <= i < Z.of_nat (length l) → is_Some (zget l i).
Proof.
  intros H. unfold zget. bdestruct. apply lookup_lt_is_Some. lia.
Qed.

Lemma zget_nat l (i : nat) : zget l (Z.of_nat i) = l !! i.
Proof. unfold zget. bdestruct. by rewrite Nat2Z.id. Qed.

Lemma zget_zset l i j x :
  0 <= i < Z.of_nat (length l) →
  zget (zset l i x) j = if i =? j then Some x else zget l j.
Proof.
  intros Hi. unfold zget, zset.
  destruct (Z.ltb_spec i 0); [lia |].
  destruct (Z.eqb_spec i j) as [<- | Hne].
  - destruct (Z.ltb_spec i 0); [lia |]. apply list_lookup_insert_eq. lia.
  - destruct (Z.ltb_spec j 0); [done |]. apply list_lookup_insert_ne. lia.
Qed.

Lemma zget_zset_eq l i x :
  0 <= i < Z.of_nat (length l) → zget (zset l i x) i = Some x.
Proof. intros. rewrite zget_zset by done. by rewrite Z.eqb_refl. Qed.

Lemma zget_zset_ne l i j x : i ≠ j → zget (zset l i x) j = zget l j.
Proof.
  intros Hne. unfold zget, zset.
  destruct (Z.ltb_spec i 0); [done |].
  destruct (Z.ltb_spec j 0); [done |]. apply list_lookup_insert_ne. lia.
Qed.

Lemma length_zset l i x : length (zset l i x) = length l.
Proof. unfold zset. destruct (i <? 0); [done |]. apply length_insert. Qed.

Lemma zset_id l i x : zget l i = Some x → zset l i x = l.
Proof.
  unfold zget, zset. destruct (i <? 0); [done |]. apply list_insert_id.
Qed.

(** Replacing [l'] at offset [n] of [l] (a store of a byte range). *)
Definition splice l (n : nat) l' : list A :=
  take n l ++ l' ++ drop (n + length l') l.

Lemma length_splice l n l' :
  (n + length l' <= length l)%nat → length (splice l n l') = length l.
Proof.
  intros. unfold splice. rewrite !length_app, length_take, length_drop. lia.
Qed.

Lemma splice_lookup_new l n l' i :
  (n + length l' <= length l)%nat → (n <= i < n + length l')%nat →
  splice l n l' !! i = l' !! (i - n)%nat.
Proof.
  intros. unfold splice.
  rewrite lookup_app_r; rewrite length_take; [| lia].
  rewrite lookup_app_l by lia. f_equal. lia.
Qed.

Lemma splice_lookup_old l n l' i :
  (n + length l' <= length l)%nat → ¬ (n <= i < n + length l')%nat →
  splice l n l' !! i = l !! i.
Proof.
  intros. unfold splice. destruct (decide (i < n)%nat).
  - rewrite lookup_app_l by (rewrite length_take; lia).
    by rewrite lookup_take_lt by lia.
  - rewrite lookup_app_r; rewrite length_take; [| lia].
    rewrite lookup_app_r by lia. rewrite lookup_drop. f_equal. lia.
Qed.

Lemma splice_read l n l' :
  (n + length l' <= length l)%nat →
  take (length l') (drop n (splice l n l')) = l'.
Proof.
  intros H. unfold splice.
  rewrite drop_app_length' by (rewrite length_take; lia).
  apply take_app_length.
Qed.

End lists.

Create Rewrite HintDb len.
#[export] Hint Rewrite @length_zset : len.
#[export] Hint Resolve u64_range u32_range u8_range : xv6.
