(* ===== verification/Abi.v ===== *)
(** * What the kernel and the user programs share (kernel/fcntl.h,
    kernel/stat.h, and the constants of kernel/fs.h and kernel/file.h the user
    programs see) *)

From S2P Require Import Prelude.

Definition O_RDONLY : Z := 0x000.
Definition O_WRONLY : Z := 0x001.
Definition O_RDWR : Z := 0x002.
Definition O_CREATE : Z := 0x200.
Definition O_TRUNC : Z := 0x400.

Definition T_DIR : Z := 1.
Definition T_FILE : Z := 2.
Definition T_DEVICE : Z := 3.

(** [struct dirent]: a [ushort] and [DIRSIZ] characters. *)
Definition DIRSIZ : Z := 14.
Definition DIRENT : Z := 16.

(** The console's major device number *)
Definition CONSOLE : Z := 1.

(** The character that separates the elements of a path *)
Definition SLASH : Z := 47.
