(* ===== verification/Monad.v ===== *)
(** * The kernel thread monad

    Kernel C code runs as a thread of some component state [S].  A run ends
    in one of the ways a run of the C code ends: it returns ([Ok]), it calls
    [panic] ([Panic]), or it gives up the CPU in [sleep] ([Sleeping]) and will
    go on with the state it finds when it has been woken up and has
    re-acquired its lock.  [NoFuel] is the model's own: a run that slept more
    often than the bound it was given.

    Next to [S] a run carries what this thread owes the rest of the kernel:
    the spin locks its CPU holds, and the channels it called [wakeup] on. *)

From S2P Require Import Prelude.

(** The sleep locks: one per buffer and one per in-memory inode. *)
Inductive sleepid :=
  | SL_buf (i : Z)
  | SL_inode (i : Z).

(** The spin locks of the kernel. *)
Inductive lockid :=
  | L_kmem | L_pid | L_wait | L_proc (i : Z) | L_bcache | L_log | L_itable
  | L_ftable | L_pipe (pi : Z) | L_ticks | L_cons | L_uart | L_pr | L_vdisk
  | L_sleep (k : sleepid).

(** What the kernel sleeps on: the addresses passed to [sleep] and [wakeup].
    [C_cpu] is none of them: a run that called [sched] outside of [sleep] waits
    for the scheduler only. *)
Inductive chan :=
  | C_sleep (k : sleepid) | C_log | C_nread (pi : Z) | C_nwrite (pi : Z)
  | C_ticks | C_cons | C_uart | C_vdisk | C_buf (i : Z) | C_proc (i : Z)
  | C_cpu.

#[export] Instance sleepid_eq_dec : EqDecision sleepid.
Proof. solve_decision. Defined.

#[export] Instance lockid_eq_dec : EqDecision lockid.
Proof. solve_decision. Defined.

#[export] Instance chan_eq_dec : EqDecision chan.
Proof. solve_decision. Defined.

(** What the thread carries: the locks held (the last acquired first), the
    wakeups issued (in order), and how many times it may still sleep. *)
Record ctx := Ctx {
  held : list lockid;
  woken : list chan;
  naps : nat }.

Definition set_held (h : list lockid) (x : ctx) : ctx :=
  Ctx h (woken x) (naps x).

(** The context after a [wakeup]. *)
Definition wake (c : chan) (x : ctx) : ctx :=
  Ctx (held x) (woken x ++ [c]) (naps x).

Definition set_naps (n : nat) (x : ctx) : ctx := Ctx (held x) (woken x) n.

Inductive outcome (S A : Type) : Type :=
  | Ok (a : A) (s : S) (x : ctx)
  | Panic (msg : string)
  | Sleeping (c : chan) (s : S) (x : ctx) (k : S → ctx → outcome S A)
  | NoFuel.

Arguments Ok {S A} _ _ _.
Arguments Panic {S A} _.
Arguments Sleeping {S A} _ _ _ _.
Arguments NoFuel {S A}.

Definition K (S A : Type) : Type := S → ctx → outcome S A.

Section combinators.
Context {S : Type}.

Definition ret {A} (a : A) : K S A := λ s x, Ok a s x.

Fixpoint obind {A B} (o : outcome S A) (f : A → K S B) : outcome S B :=
  match o with
  | Ok a s x => f a s x
  | Panic e => Panic e
  | Sleeping c s x k => Sleeping c s x (λ s' x', obind (k s' x') f)
  | NoFuel => NoFuel
  end.

Definition bind {A B} (m : K S A) (f : A → K S B) : K S B :=
  λ s x, obind (m s x) f.

Definition panic {A} (msg : string) : K S A := λ _ _, Panic msg.

Definition gets {A} (f : S → A) : K S A := λ s x, Ok (f s) s x.

Definition modify (f : S → S) : K S unit := λ s x, Ok tt (f s) x.

Definition when (b : bool) (m : K S unit) : K S unit :=
  if b then m else ret tt.

(** [acquire] and [release] as the acquiring thread sees them: [holding(lk)]
    is membership in the locks this CPU holds.  Spinlock.v models the lock
    word, the CPU's interrupt state and the other CPUs. *)
Definition acquire (l : lockid) : K S unit := λ s x,
  if decide (l ∈ held x) then Panic "acquire"
  else Ok tt s (set_held (l :: held x) x).

Definition release (l : lockid) : K S unit := λ s x,
  if decide (l ∈ held x) then
    Ok tt s (set_held (filter (λ l', l' ≠ l) (held x)) x)
  else Panic "release".

Definition wakeup (c : chan) : K S unit := λ s x, Ok tt s (wake c x).

(** [sleep] as the sleeping thread sees it: it takes its own process lock,
    gives up [l], and [sched] demands that no other lock is held; once woken
    it goes on, in the state of that moment, by re-acquiring [l]. *)
Definition sleep (c : chan) (l : lockid) : K S unit := λ s x,
  if decide (l ∈ held x) then
    if decide (filter (λ l', l' ≠ l) (held x) = []) then
      match naps x with
      | O => NoFuel
      | Datatypes.S n =>
          Sleeping c s (Ctx [] (woken x) n) (λ s' x', acquire l s' x')
      end
    else Panic "sched locks"
  else Panic "release".

(** The switch to the scheduler, which takes over the lock of the process and
    hands it back when it runs the process again. *)
Definition swtch (l : lockid) : K S unit := λ s x,
  match naps x with
  | O => NoFuel
  | Datatypes.S n => Sleeping C_cpu s (Ctx [] (woken x) n) (λ s' x', Ok tt s' (set_held [l] x'))
  end.

(** [while(cond) sleep(c, l);] *)
Fixpoint wait_loop (n : nat) (cond : S → bool) (c : chan) (l : lockid) : K S unit :=
  bind (gets cond) (λ b,
    if b then
      bind (sleep c l) (λ _,
        match n with
        | O => λ _ _, NoFuel
        | Datatypes.S n' => wait_loop n' cond c l
        end)
    else ret tt).

Definition wait_while (cond : S → bool) (c : chan) (l : lockid) : K S unit :=
  λ s x, wait_loop (naps x) cond c l s x.

(** A [for] loop over the elements of [l] with no early exit. *)
Fixpoint for_each {X} (l : list X) (f : X → K S unit) : K S unit :=
  match l with
  | [] => ret tt
  | a :: l' => bind (f a) (λ _, for_each l' f)
  end.

(** A [for] loop that is left with a value as soon as the body gives one. *)
Fixpoint for_find {X B} (l : list X) (f : X → K S (option B)) : K S (option B) :=
  match l with
  | [] => ret None
  | a :: l' =>
      bind (f a) (λ r, match r with Some b => ret (Some b) | None => for_find l' f end)
  end.

End combinators.

Declare Scope kernel_scope.
Delimit Scope kernel_scope with K.
Notation "x <- m ;; k" := (bind m (λ x, k))
  (at level 100, m at next level, right associativity) : kernel_scope.
Notation "m ;; k" := (bind m (λ _, k))
  (at level 100, right associativity) : kernel_scope.
#[global] Open Scope kernel_scope.

(** ** Running the code of a component inside a larger state *)

Record lens (S T : Type) := Lens {
  lget : S → T;
  lput : T → S → S }.

Arguments Lens {S T} _ _.
Arguments lget {S T} _ _.
Arguments lput {S T} _ _ _.

Fixpoint olift {S T A} (L : lens S T) (s : S) (o : outcome T A) : outcome S A :=
  match o with
  | Ok a t x => Ok a (lput L t s) x
  | Panic e => Panic e
  | Sleeping c t x k =>
      Sleeping c (lput L t s) x (λ s' x', olift L s' (k (lget L s') x'))
  | NoFuel => NoFuel
  end.

Definition lift {S T A} (L : lens S T) (m : K T A) : K S A :=
  λ s x, olift L s (m (lget L s) x).

(** ** Resuming a sleeper

    [resume ws o] lets a run that went to sleep go on, finding the states of
    [ws] one after the other each time it wakes up. *)
Fixpoint resume {S A} (ws : list S) (o : outcome S A) : outcome S A :=
  match ws, o with
  | w :: ws', Sleeping c s x k => resume ws' (k w x)
  | _, _ => o
  end.

(** ** Equations *)

Section equations.
Context {S A B : Type}.
Implicit Types (m : K S A) (f : A → K S B) (s : S) (x : ctx).

Lemma bind_ok m f s x a s' x' :
  m s x = Ok a s' x' → bind m f s x = f a s' x'.
Proof. intros H. unfold bind. by rewrite H. Qed.

Lemma bind_panic m f s x e : m s x = Panic e → bind m f s x = Panic e.
Proof. intros H. unfold bind. by rewrite H. Qed.

Lemma bind_Ok_inv m f s x b s' x' :
  bind m f s x = Ok b s' x' →
  ∃ a s1 x1, m s x = Ok a s1 x1 ∧ f a s1 x1 = Ok b s' x'.
Proof. unfold bind. destruct (m s x); simpl; naive_solver. Qed.

Lemma set_held_id x : set_held (held x) x = x.
Proof. by destruct x. Qed.

Lemma set_held_set_held h h' x : set_held h (set_held h' x) = set_held h x.
Proof. done. Qed.

Lemma acquire_ok l s x :
  l ∉ held x → acquire l s x = Ok tt s (set_held (l :: held x) x).
Proof. intros. unfold acquire. by rewrite decide_False. Qed.

Lemma filter_not_in (l : lockid) (h : list lockid) : l ∉ h → filter (λ l', l' ≠ l) h = h.
Proof.
  induction h as [| a h IH]; [done |]. intros Hn.
  rewrite filter_cons, decide_True by set_solver. f_equal. apply IH. set_solver.
Qed.

Lemma release_ok l h w n s :
  l ∉ h → release l s (Ctx (l :: h) w n) = Ok tt s (Ctx h w n).
Proof.
  intros Hn. unfold release. rewrite decide_True by (simpl; set_solver).
  unfold set_held. simpl. rewrite filter_cons, decide_False by naive_solver.
  by rewrite filter_not_in.
Qed.

End equations.

Lemma lift_ok {S T A} (L : lens S T) (m : K T A) s x a t x' :
  m (lget L s) x = Ok a t x' → lift L m s x = Ok a (lput L t s) x'.
Proof. intros H. unfold lift. by rewrite H. Qed.

(** A critical section run with the lock free for this CPU. *)
Lemma locked_ok {S A} (l : lockid) (m : K S A) s h w n a s' w' n' :
  l ∉ h →
  m s (Ctx (l :: h) w n) = Ok a s' (Ctx (l :: h) w' n') →
  (acquire l ;; r <- m ;; release l ;; ret r) s (Ctx h w n) = Ok a s' (Ctx h w' n').
Proof.
  intros Hl Hm.
  rewrite (bind_ok _ _ _ _ _ _ _ (acquire_ok l s (Ctx h w n) Hl)).
  unfold set_held; simpl. rewrite (bind_ok _ _ _ _ _ _ _ Hm).
  by rewrite (bind_ok _ _ _ _ _ _ _ (release_ok l h w' n' s' Hl)).
Qed.

Lemma for_find_app {S X B} (l1 l2 : list X) (f : X → K S (option B)) s x s1 x1 :
  for_find l1 f s x = Ok None s1 x1 →
  for_find (l1 ++ l2) f s x = for_find l2 f s1 x1.
Proof.
  revert s x. induction l1 as [| a l1 IH]; simpl; intros s x H.
  { by injection H as <- <-. }
  apply bind_Ok_inv in H as (r & s2 & x2 & H1 & H2).
  rewrite (bind_ok _ _ _ _ _ _ _ H1). destruct r; [done |]. by apply IH.
Qed.

Lemma wait_while_false {S} (cond : S → bool) c l s x :
  cond s = false → wait_while cond c l s x = Ok tt s x.
Proof.
  intros H. unfold wait_while. destruct (naps x); simpl;
    unfold bind, gets; simpl; by rewrite H.
Qed.

(** ** Symbolic execution

    [kstep] runs the first operation of a sequence by computation; [kstep H]
    runs it by the equation [H] of the callee; [kacq]/[krel] run the lock
    operations, leaving that the lock is (not) held to [set_solver]. *)

Ltac ksimpl :=
  unfold set_held, wake, set_naps; cbn [held woken naps lget lput].

Tactic Notation "kstep" := unfold bind at 1; cbn [obind ret gets modify wakeup when]; ksimpl.
Tactic Notation "kstep" constr(H) := rewrite (bind_ok _ _ _ _ _ _ _ H); ksimpl.

(** A lock is not among those held: from the hypotheses, or by cases on an
    explicit list of locks. *)
Ltac not_held :=
  first [ assumption
        | apply not_elem_of_nil
        | solve [repeat (apply not_elem_of_cons; split; [congruence |]);
                 first [assumption | apply not_elem_of_nil]]
        | solve [set_solver] ].

Ltac kacq :=
  erewrite bind_ok; [| apply acquire_ok; ksimpl; not_held]; ksimpl.
Ltac krel :=
  first [ erewrite bind_ok; [| apply release_ok; not_held]
        | rewrite release_ok by not_held ]; ksimpl.
