(* ===== verification/Riscv.v ===== *)
(** * The machine: riscv.h, memlayout.h and param.h

    The constants and address macros of the kernel, and the control and
    status registers of one hart with the accessors of riscv.h. *)

From S2P Require Import Prelude.

(** ** param.h *)

Definition NPROC : Z := 64.

Definition NCPU : Z := 8.

Definition NOFILE : Z := 16.

Definition NFILE : Z := 100.

Definition NINODE : Z := 50.

Definition NDEV : Z := 10.

Definition ROOTDEV : Z := 1.

Definition MAXARG : Z := 32.

Definition MAXOPBLOCKS : Z := 10.

Definition LOGSIZE : Z := MAXOPBLOCKS * 3.

Definition NBUF : Z := MAXOPBLOCKS * 3.

Definition FSSIZE : Z := 1000.

Definition MAXPATH : Z := 128.

(** ** Pages, page-table entries and the fields of a virtual address *)

Definition PGSIZE : Z := 4096.

Definition PGSHIFT : Z := 12.

Definition PGROUNDUP (sz : Z) : Z := Z.land (u64 (sz + PGSIZE - 1)) (Z.lnot (PGSIZE - 1)).

Definition PGROUNDDOWN (a : Z) : Z := Z.land a (Z.lnot (PGSIZE - 1)).

Definition PTE_V : Z := Z.shiftl 1 0.

Definition PTE_R : Z := Z.shiftl 1 1.

Definition PTE_W : Z := Z.shiftl 1 2.

Definition PTE_X : Z := Z.shiftl 1 3.

Definition PTE_U : Z := Z.shiftl 1 4.

Definition PA2PTE (pa : Z) : Z := u64 (Z.shiftl (Z.shiftr pa 12) 10).

Definition PTE2PA (pte : Z) : Z := u64 (Z.shiftl (Z.shiftr pte 10) 12).

Definition PTE_FLAGS (pte : Z) : Z := Z.land pte 0x3FF.

Definition PXMASK : Z := 0x1FF.

Definition PXSHIFT (level : Z) : Z := PGSHIFT + 9 * level.

Definition PX (level va : Z) : Z := Z.land (Z.shiftr va (PXSHIFT level)) PXMASK.

Definition MAXVA : Z := Z.shiftl 1 (9 + 9 + 9 + 12 - 1).

Definition SATP_SV39 : Z := u64 (Z.shiftl 8 60).

Definition MAKE_SATP (pagetable : Z) : Z := Z.lor SATP_SV39 (Z.shiftr pagetable 12).

(** ** memlayout.h *)

Definition UART0 : Z := 0x10000000.

Definition UART0_IRQ : Z := 10.

Definition VIRTIO0 : Z := 0x10001000.

Definition VIRTIO0_IRQ : Z := 1.

Definition CLINT : Z := 0x2000000.

Definition CLINT_MTIMECMP (hartid : Z) : Z := CLINT + 0x4000 + 8 * hartid.

Definition CLINT_MTIME : Z := CLINT + 0xBFF8.

Definition PLIC : Z := 0x0c000000.

Definition PLIC_SENABLE (hart : Z) : Z := PLIC + 0x2080 + hart * 0x100.

Definition PLIC_SPRIORITY (hart : Z) : Z := PLIC + 0x201000 + hart * 0x2000.

Definition PLIC_SCLAIM (hart : Z) : Z := PLIC + 0x201004 + hart * 0x2000.

Definition KERNBASE : Z := 0x80000000.

Definition PHYSTOP : Z := KERNBASE + 128 * 1024 * 1024.

Definition TRAMPOLINE : Z := MAXVA - PGSIZE.

Definition KSTACK (p : Z) : Z := TRAMPOLINE - (p + 1) * 2 * PGSIZE.

Definition TRAPFRAME : Z := TRAMPOLINE - PGSIZE.

(** ** Facts about pages *)

Lemma land_lnot_ones (a n : Z) :
  0 <= n → Z.land a (Z.lnot (Z.ones n)) = 2 ^ n * (a / 2 ^ n).
Proof.
  intros Hn. rewrite <- Z.ldiff_land, Z.ldiff_ones_r by lia.
  rewrite Z.shiftl_mul_pow2, Z.shiftr_div_pow2 by lia. lia.
Qed.

Lemma PGROUNDDOWN_eq a : PGROUNDDOWN a = PGSIZE * (a / PGSIZE).
Proof. exact (land_lnot_ones a 12 ltac:(lia)). Qed.

Lemma PGROUNDUP_eq sz :
  0 <= sz < 2 ^ 64 - PGSIZE → PGROUNDUP sz = PGSIZE * ((sz + PGSIZE - 1) / PGSIZE).
Proof.
  intros H. unfold PGROUNDUP. rewrite u64_small by (unfold PGSIZE in *; lia).
  exact (land_lnot_ones _ 12 ltac:(lia)).
Qed.

(** [PGROUNDUP] gives the least page boundary not below its argument. *)
Lemma PGROUNDUP_bounds sz :
  0 <= sz < 2 ^ 64 - PGSIZE →
  sz <= PGROUNDUP sz < sz + PGSIZE ∧ PGROUNDUP sz mod PGSIZE = 0.
Proof.
  intros H. rewrite PGROUNDUP_eq by done. split.
  - unfold PGSIZE in *. dlia.
  - rewrite Z.mul_comm. apply Z_mod_mult.
Qed.

Lemma PGROUNDDOWN_bounds a :
  PGROUNDDOWN a <= a < PGROUNDDOWN a + PGSIZE ∧ PGROUNDDOWN a mod PGSIZE = 0.
Proof.
  rewrite PGROUNDDOWN_eq. split.
  - unfold PGSIZE. dlia.
  - rewrite Z.mul_comm. apply Z_mod_mult.
Qed.

Lemma PGROUNDUP_aligned a :
  0 <= a < 2 ^ 64 - PGSIZE → a mod PGSIZE = 0 → PGROUNDUP a = a.
Proof.
  intros Ha Hal. destruct (PGROUNDUP_bounds a Ha) as [? ?].
  unfold PGSIZE in *. dlia.
Qed.

Lemma PX_eq level va :
  0 <= level → PX level va = va / 2 ^ PXSHIFT level mod 512.
Proof.
  intros. unfold PX, PXMASK. rewrite (Z.land_ones _ 9) by lia.
  rewrite Z.shiftr_div_pow2; [done |]. unfold PXSHIFT, PGSHIFT. lia.
Qed.

Lemma PX_range level va : 0 <= level → 0 <= PX level va < 512.
Proof. intros. rewrite PX_eq by done. apply Z.mod_pos_bound. lia. Qed.

(** The three indices of a 39-bit virtual address determine its page. *)
Lemma PX_page va :
  0 <= va < 2 ^ 39 →
  va / PGSIZE = PX 2 va * 2 ^ 18 + PX 1 va * 2 ^ 9 + PX 0 va.
Proof.
  intros H. rewrite !PX_eq by lia. unfold PXSHIFT, PGSHIFT, PGSIZE in *.
  change (2 ^ 39) with (4096 * 2 ^ 27) in H.
  change (2 ^ (12 + 9 * 2)) with (4096 * 2 ^ 18).
  change (2 ^ (12 + 9 * 1)) with (4096 * 2 ^ 9).
  change (2 ^ (12 + 9 * 0)) with 4096.
  rewrite <- !Z.div_div by lia.
  assert (0 <= va / 4096 < 2 ^ 27) by dlia. dlia.
Qed.

(** ** Facts about page-table entries *)

Lemma PTE2PA_eq pte : 0 <= pte < 2 ^ 54 → PTE2PA pte = pte / 2 ^ 10 * 2 ^ 12.
Proof.
  intros H. unfold PTE2PA. rewrite Z.shiftl_mul_pow2, Z.shiftr_div_pow2 by lia.
  apply u64_small. dlia.
Qed.

Lemma PA2PTE_eq pa : 0 <= pa < 2 ^ 56 → PA2PTE pa = pa / 2 ^ 12 * 2 ^ 10.
Proof.
  intros H. unfold PA2PTE. rewrite Z.shiftl_mul_pow2, Z.shiftr_div_pow2 by lia.
  apply u64_small. dlia.
Qed.

(** An entry built from a page address and flag bits is their sum. *)
Lemma PA2PTE_lor pa fl :
  0 <= pa < 2 ^ 56 → 0 <= fl < 2 ^ 10 →
  Z.lor (PA2PTE pa) fl = pa / 2 ^ 12 * 2 ^ 10 + fl.
Proof.
  intros Hp Hf. rewrite PA2PTE_eq by done. apply lor_high_low; lia.
Qed.

(** Reading back the page address and the flags of an entry. *)
Lemma PTE2PA_PA2PTE pa fl :
  0 <= pa < 2 ^ 56 → pa mod PGSIZE = 0 → 0 <= fl < 2 ^ 10 →
  PTE2PA (Z.lor (PA2PTE pa) fl) = pa.
Proof.
  intros Hp Hal Hf. rewrite PA2PTE_lor by done. unfold PGSIZE in Hal.
  rewrite PTE2PA_eq by dlia. dlia.
Qed.

Lemma PTE_FLAGS_PA2PTE pa fl :
  0 <= pa < 2 ^ 56 → 0 <= fl < 2 ^ 10 →
  PTE_FLAGS (Z.lor (PA2PTE pa) fl) = fl.
Proof.
  intros Hp Hf. rewrite PA2PTE_lor by done. unfold PTE_FLAGS.
  rewrite (Z.land_ones _ 10) by lia. rewrite Z.add_comm, Z_mod_plus_full.
  apply Z.mod_small. lia.
Qed.

(** A low flag bit of an entry is that bit of the flags. *)
Lemma PTE_flag_bit pa fl b :
  0 <= pa < 2 ^ 56 → 0 <= fl < 2 ^ 10 → 0 <= b < 2 ^ 10 →
  Z.land (Z.lor (PA2PTE pa) fl) b = Z.land fl b.
Proof.
  intros Hp Hf Hb. rewrite Z.land_lor_distr_l, PA2PTE_eq by done.
  rewrite (land_high_low _ b 10) by lia. apply Z.lor_0_l.
Qed.

Lemma PTE_entry_range pa fl :
  0 <= pa < 2 ^ 56 → 0 <= fl < 2 ^ 10 → 0 <= Z.lor (PA2PTE pa) fl < 2 ^ 54.
Proof. intros. rewrite PA2PTE_lor by done. dlia. Qed.

(** ** The control and status registers *)

(** mstatus, sstatus, sip, sie and mie bits. *)
Definition MSTATUS_MPP_MASK : Z := Z.shiftl 3 11.

Definition MSTATUS_MPP_S : Z := Z.shiftl 1 11.

Definition MSTATUS_MIE : Z := Z.shiftl 1 3.

Definition SSTATUS_SPP : Z := Z.shiftl 1 8.

Definition SSTATUS_SPIE : Z := Z.shiftl 1 5.

Definition SSTATUS_SIE : Z := Z.shiftl 1 1.

Definition SIE_SEIE : Z := Z.shiftl 1 9.

Definition SIE_STIE : Z := Z.shiftl 1 5.

Definition SIE_SSIE : Z := Z.shiftl 1 1.

Definition MIE_MTIE : Z := Z.shiftl 1 7.

(** The registers of one hart that the kernel reads or writes. *)
Record hart := Hart {
  mhartid : Z; mstatus : Z; mepc : Z; sstatus : Z; sip : Z; sie : Z; mie : Z;
  sepc : Z; medeleg : Z; mideleg : Z; stvec : Z; mtvec : Z; pmpcfg0 : Z;
  pmpaddr0 : Z; satp : Z; mscratch : Z; scause : Z; stval : Z; tp : Z }.

Definition r_mhartid (h : hart) : Z := mhartid h.

Definition r_mstatus (h : hart) : Z := mstatus h.

Definition w_mstatus (x : Z) (h : hart) : hart :=
  Hart (mhartid h) x (mepc h) (sstatus h) (sip h) (sie h) (mie h) (sepc h)
       (medeleg h) (mideleg h) (stvec h) (mtvec h) (pmpcfg0 h) (pmpaddr0 h)
       (satp h) (mscratch h) (scause h) (stval h) (tp h).

Definition w_mepc (x : Z) (h : hart) : hart :=
  Hart (mhartid h) (mstatus h) x (sstatus h) (sip h) (sie h) (mie h) (sepc h)
       (medeleg h) (mideleg h) (stvec h) (mtvec h) (pmpcfg0 h) (pmpaddr0 h)
       (satp h) (mscratch h) (scause h) (stval h) (tp h).

Definition r_sstatus (h : hart) : Z := sstatus h.

Definition w_sstatus (x : Z) (h : hart) : hart :=
  Hart (mhartid h) (mstatus h) (mepc h) x (sip h) (sie h) (mie h) (sepc h)
       (medeleg h) (mideleg h) (stvec h) (mtvec h) (pmpcfg0 h) (pmpaddr0 h)
       (satp h) (mscratch h) (scause h) (stval h) (tp h).

Definition r_sip (h : hart) : Z := sip h.

Definition w_sip (x : Z) (h : hart) : hart :=
  Hart (mhartid h) (mstatus h) (mepc h) (sstatus h) x (sie h) (mie h) (sepc h)
       (medeleg h) (mideleg h) (stvec h) (mtvec h) (pmpcfg0 h) (pmpaddr0 h)
       (satp h) (mscratch h) (scause h) (stval h) (tp h).

Definition r_sie (h : hart) : Z := sie h.

Definition w_sie (x : Z) (h : hart) : hart :=
  Hart (mhartid h) (mstatus h) (mepc h) (sstatus h) (sip h) x (mie h) (sepc h)
       (medeleg h) (mideleg h) (stvec h) (mtvec h) (pmpcfg0 h) (pmpaddr0 h)
       (satp h) (mscratch h) (scause h) (stval h) (tp h).

Definition r_mie (h : hart) : Z := mie h.

Definition w_mie (x : Z) (h : hart) : hart :=
  Hart (mhartid h) (mstatus h) (mepc h) (sstatus h) (sip h) (sie h) x (sepc h)
       (medeleg h) (mideleg h) (stvec h) (mtvec h) (pmpcfg0 h) (pmpaddr0 h)
       (satp h) (mscratch h) (scause h) (stval h) (tp h).

Definition r_sepc (h : hart) : Z := sepc h.

Definition w_sepc (x : Z) (h : hart) : hart :=
  Hart (mhartid h) (mstatus h) (mepc h) (sstatus h) (sip h) (sie h) (mie h) x
       (medeleg h) (mideleg h) (stvec h) (mtvec h) (pmpcfg0 h) (pmpaddr0 h)
       (satp h) (mscratch h) (scause h) (stval h) (tp h).

Definition w_medeleg (x : Z) (h : hart) : hart :=
  Hart (mhartid h) (mstatus h) (mepc h) (sstatus h) (sip h) (sie h) (mie h) (sepc h)
       x (mideleg h) (stvec h) (mtvec h) (pmpcfg0 h) (pmpaddr0 h)
       (satp h) (mscratch h) (scause h) (stval h) (tp h).

Definition w_mideleg (x : Z) (h : hart) : hart :=
  Hart (mhartid h) (mstatus h) (mepc h) (sstatus h) (sip h) (sie h) (mie h) (sepc h)
       (medeleg h) x (stvec h) (mtvec h) (pmpcfg0 h) (pmpaddr0 h)
       (satp h) (mscratch h) (scause h) (stval h) (tp h).

Definition w_stvec (x : Z) (h : hart) : hart :=
  Hart (mhartid h) (mstatus h) (mepc h) (sstatus h) (sip h) (sie h) (mie h) (sepc h)
       (medeleg h) (mideleg h) x (mtvec h) (pmpcfg0 h) (pmpaddr0 h)
       (satp h) (mscratch h) (scause h) (stval h) (tp h).

Definition w_mtvec (x : Z) (h : hart) : hart :=
  Hart (mhartid h) (mstatus h) (mepc h) (sstatus h) (sip h) (sie h) (mie h) (sepc h)
       (medeleg h) (mideleg h) (stvec h) x (pmpcfg0 h) (pmpaddr0 h)
       (satp h) (mscratch h) (scause h) (stval h) (tp h).

Definition w_pmpcfg0 (x : Z) (h : hart) : hart :=
  Hart (mhartid h) (mstatus h) (mepc h) (sstatus h) (sip h) (sie h) (mie h) (sepc h)
       (medeleg h) (mideleg h) (stvec h) (mtvec h) x (pmpaddr0 h)
       (satp h) (mscratch h) (scause h) (stval h) (tp h).

Definition w_pmpaddr0 (x : Z) (h : hart) : hart :=
  Hart (mhartid h) (mstatus h) (mepc h) (sstatus h) (sip h) (sie h) (mie h) (sepc h)
       (medeleg h) (mideleg h) (stvec h) (mtvec h) (pmpcfg0 h) x
       (satp h) (mscratch h) (scause h) (stval h) (tp h).

Definition w_satp (x : Z) (h : hart) : hart :=
  Hart (mhartid h) (mstatus h) (mepc h) (sstatus h) (sip h) (sie h) (mie h) (sepc h)
       (medeleg h) (mideleg h) (stvec h) (mtvec h) (pmpcfg0 h) (pmpaddr0 h)
       x (mscratch h) (scause h) (stval h) (tp h).

Definition r_satp (h : hart) : Z := satp h.

Definition w_mscratch (x : Z) (h : hart) : hart :=
  Hart (mhartid h) (mstatus h) (mepc h) (sstatus h) (sip h) (sie h) (mie h) (sepc h)
       (medeleg h) (mideleg h) (stvec h) (mtvec h) (pmpcfg0 h) (pmpaddr0 h)
       (satp h) x (scause h) (stval h) (tp h).

Definition r_scause (h : hart) : Z := scause h.

Definition r_stval (h : hart) : Z := stval h.

Definition r_tp (h : hart) : Z := tp h.

Definition w_tp (x : Z) (h : hart) : hart :=
  Hart (mhartid h) (mstatus h) (mepc h) (sstatus h) (sip h) (sie h) (mie h) (sepc h)
       (medeleg h) (mideleg h) (stvec h) (mtvec h) (pmpcfg0 h) (pmpaddr0 h)
       (satp h) (mscratch h) (scause h) (stval h) x.

Definition intr_on (h : hart) : hart := w_sstatus (Z.lor (r_sstatus h) SSTATUS_SIE) h.

Definition intr_off (h : hart) : hart :=
  w_sstatus (Z.land (r_sstatus h) (Z.lnot SSTATUS_SIE)) h.

Definition intr_get (h : hart) : bool := negb (Z.land (r_sstatus h) SSTATUS_SIE =? 0).

(** [SSTATUS_SIE] is bit 1 of sstatus. *)
Lemma intr_get_bit h : intr_get h = Z.testbit (sstatus h) 1.
Proof.
  unfold intr_get, r_sstatus, SSTATUS_SIE. change (Z.shiftl 1 1) with (2 ^ 1).
  destruct (Z.testbit (sstatus h) 1) eqn:E.
  - apply negb_true_iff, Z.eqb_neq. intros H.
    apply (f_equal (λ z, Z.testbit z 1)) in H.
    rewrite Z.land_spec, E, Z.pow2_bits_true in H by lia. done.
  - apply negb_false_iff, Z.eqb_eq. apply Z.bits_inj'. intros i Hi.
    rewrite Z.land_spec, Z.bits_0, Z.pow2_bits_eqb by lia.
    destruct (Z.eqb_spec 1 i) as [<- |]; [by rewrite E | apply andb_false_r].
Qed.

Lemma intr_get_on h : intr_get (intr_on h) = true.
Proof.
  rewrite intr_get_bit. unfold intr_on, w_sstatus, r_sstatus; cbn [sstatus].
  rewrite Z.lor_spec. apply orb_true_r.
Qed.

Lemma intr_get_off h : intr_get (intr_off h) = false.
Proof.
  rewrite intr_get_bit. unfold intr_off, w_sstatus, r_sstatus; cbn [sstatus].
  rewrite Z.land_spec. apply andb_false_r.
Qed.
