(* ===== verification/Mem.v ===== *)
(** * Byte-addressed memory and the string functions of kernel/string.c

    Physical memory is a finite map from addresses to bytes.  The loops of
    string.c run over it byte by byte, so that overlapping arguments behave
    as they do in C. *)

From S2P Require Import Prelude.

Abbreviation mem := (gmap Z Z).

Definition mget (m : mem) (a : Z) : Z := u8 (default 0 (m !! a)).

Definition mset (m : mem) (a v : Z) : mem := <[a := u8 v]> m.

(** The bytes from [a] on, and a store of consecutive bytes. *)
Fixpoint read_bytes (m : mem) (a : Z) (n : nat) : list Z :=
  match n with
  | O => []
  | S n' => mget m a :: read_bytes m (a + 1) n'
  end.

Fixpoint write_bytes (m : mem) (a : Z) (bs : list Z) : mem :=
  match bs with
  | [] => m
  | b :: bs' => write_bytes (mset m a b) (a + 1) bs'
  end.

(** 64-bit loads and stores (the machine is little-endian). *)
Definition load64 (m : mem) (a : Z) : Z := little_endian_to_Z 8 (read_bytes m a 8).

Definition store64 (m : mem) (a v : Z) : mem := write_bytes m a (Z_to_little_endian 8 8 v).

Definition load32 (m : mem) (a : Z) : Z := little_endian_to_Z 8 (read_bytes m a 4).

Definition store32 (m : mem) (a v : Z) : mem := write_bytes m a (Z_to_little_endian 4 8 v).

(** ** string.c *)

Fixpoint memset (m : mem) (cdst c : Z) (n : nat) : mem :=
  match n with
  | O => m
  | S n' => memset (mset m cdst c) (cdst + 1) c n'
  end.

Fixpoint memcmp (m : mem) (s1 s2 : Z) (n : nat) : Z :=
  match n with
  | O => 0
  | S n' =>
      if negb (mget m s1 =? mget m s2) then mget m s1 - mget m s2
      else memcmp m (s1 + 1) (s2 + 1) n'
  end.

(** [while(n-- > 0) *--d = *--s;] *)
Fixpoint move_backward (m : mem) (d s : Z) (n : nat) : mem :=
  match n with
  | O => m
  | S n' => move_backward (mset m (d - 1) (mget m (s - 1))) (d - 1) (s - 1) n'
  end.

(** [while(n-- > 0) *d++ = *s++;] *)
Fixpoint move_forward (m : mem) (d s : Z) (n : nat) : mem :=
  match n with
  | O => m
  | S n' => move_forward (mset m d (mget m s)) (d + 1) (s + 1) n'
  end.

Definition memmove (m : mem) (d s : Z) (n : nat) : mem :=
  if (n =? 0)%nat then m
  else if (s <? d) && (d <? s + Z.of_nat n) then
    move_backward m (d + Z.of_nat n) (s + Z.of_nat n) n
  else move_forward m d s n.

Definition memcpy (m : mem) (dst src : Z) (n : nat) : mem := memmove m dst src n.

Fixpoint strncmp (m : mem) (p q : Z) (n : nat) : Z :=
  match n with
  | O => 0
  | S n' =>
      if negb (mget m p =? 0) && (mget m p =? mget m q) then strncmp m (p + 1) (q + 1) n'
      else mget m p - mget m q
  end.

(** [while(n-- > 0) *s++ = 0;] *)
Fixpoint strncpy_pad (m : mem) (s : Z) (n : nat) : mem :=
  match n with
  | O => m
  | S n' => strncpy_pad (mset m s 0) (s + 1) n'
  end.

Fixpoint strncpy_copy (m : mem) (s t : Z) (n : nat) : mem :=
  match n with
  | O => m
  | S n' =>
      let ch := mget m t in
      let m' := mset m s ch in
      if ch =? 0 then strncpy_pad m' (s + 1) n'
      else strncpy_copy m' (s + 1) (t + 1) n'
  end.

Definition strncpy (m : mem) (s t n : Z) : mem := strncpy_copy m s t (Z.to_nat n).

(** [while(--n > 0 && ( *s++ = *t++ ) != 0); *s = 0;] with [k] what is left of
    [--n]. *)
Fixpoint safestrcpy_copy (m : mem) (s t : Z) (k : nat) : mem :=
  match k with
  | O => mset m s 0
  | S k' =>
      let ch := mget m t in
      let m' := mset m s ch in
      if ch =? 0 then mset m' (s + 1) 0
      else safestrcpy_copy m' (s + 1) (t + 1) k'
  end.

Definition safestrcpy (m : mem) (s t n : Z) : mem :=
  if n <=? 0 then m else safestrcpy_copy m s t (Z.to_nat (n - 1)).

(** [strlen] reads up to the first NUL; [fuel] bounds the scan. *)
Fixpoint strlen (fuel : nat) (m : mem) (s : Z) : option Z :=
  match fuel with
  | O => None
  | S f => if mget m s =? 0 then Some 0 else (λ n, n + 1) <$> strlen f m (s + 1)
  end.

(** The bytes [l] followed by a NUL stand at [a]. *)
Definition cstr_at (m : mem) (a : Z) (l : list Z) : Prop :=
  (∀ i b, l !! i = Some b → mget m (a + Z.of_nat i) = b ∧ b ≠ 0) ∧
  mget m (a + Z.of_nat (length l)) = 0.

(** ** Facts about single bytes and byte ranges *)

Lemma u8_u8 b : u8 (u8 b) = u8 b.
Proof. apply u8_small, u8_range. Qed.

Lemma mget_range m a : 0 <= mget m a < 2 ^ 8.
Proof. apply u8_range. Qed.

Lemma mget_mset m a v x : mget (mset m a v) x = if a =? x then u8 v else mget m x.
Proof.
  unfold mget, mset. rewrite lookup_insert.
  destruct (Z.eqb_spec a x); [rewrite decide_True by done | by rewrite decide_False].
  apply u8_u8.
Qed.

Lemma mget_mset_mget m a y x :
  mget (mset m a (mget m y)) x = if a =? x then mget m y else mget m x.
Proof. rewrite mget_mset. unfold mget at 1. by rewrite u8_u8. Qed.

Lemma length_read_bytes m a n : length (read_bytes m a n) = n.
Proof. revert a. induction n; simpl; auto. Qed.

Lemma read_bytes_lookup m a n i :
  (i < n)%nat → read_bytes m a n !! i = Some (mget m (a + Z.of_nat i)).
Proof.
  revert a i. induction n as [| n IH]; intros a i Hi; [lia |].
  destruct i as [| i]; simpl; [by rewrite Z.add_0_r |].
  rewrite IH by lia. do 2 f_equal. lia.
Qed.

Lemma read_bytes_ext m m' a a' n :
  (∀ i, 0 <= i < Z.of_nat n → mget m (a + i) = mget m' (a' + i)) →
  read_bytes m a n = read_bytes m' a' n.
Proof.
  revert a a'. induction n as [| n IH]; intros a a' H; [done |]. simpl. f_equal.
  - specialize (H 0). rewrite !Z.add_0_r in H. apply H. lia.
  - apply IH. intros i Hi. replace (a + 1 + i) with (a + (i + 1)) by lia.
    rewrite H by lia. f_equal. lia.
Qed.

Lemma read_bytes_app m a n1 n2 :
  read_bytes m a (n1 + n2) = read_bytes m a n1 ++ read_bytes m (a + Z.of_nat n1) n2.
Proof.
  revert a. induction n1 as [| n1 IH]; intros a; simpl; [by rewrite Z.add_0_r |].
  rewrite IH. do 3 f_equal. lia.
Qed.

Lemma read_bytes_bytes m a n : Forall (λ b, 0 <= b < 2 ^ 8) (read_bytes m a n).
Proof. revert a. induction n; simpl; constructor; auto using mget_range. Qed.

Lemma write_bytes_out m a bs x :
  ¬ (a <= x < a + Z.of_nat (length bs)) → mget (write_bytes m a bs) x = mget m x.
Proof.
  revert m a. induction bs as [| b bs IH]; intros m a H; [done |].
  simpl in *. rewrite IH by lia. rewrite mget_mset. bdestruct.
Qed.

Lemma write_bytes_in m a bs i b :
  bs !! i = Some b → mget (write_bytes m a bs) (a + Z.of_nat i) = u8 b.
Proof.
  revert m a i. induction bs as [| b' bs IH]; intros m a i H; [done |]. simpl.
  destruct i as [| i]; simpl in H.
  - injection H as ->. rewrite write_bytes_out by lia.
    rewrite mget_mset. bdestruct.
  - replace (a + Z.of_nat (S i)) with (a + 1 + Z.of_nat i) by lia. by apply IH.
Qed.

Lemma read_write_bytes m a bs :
  Forall (λ b, 0 <= b < 2 ^ 8) bs → read_bytes (write_bytes m a bs) a (length bs) = bs.
Proof.
  intros Hb. apply list_eq. intros i.
  destruct (decide (i < length bs)%nat).
  - rewrite read_bytes_lookup by done.
    destruct (lookup_lt_is_Some_2 bs i) as [b E]; [done |].
    rewrite (write_bytes_in m a bs i b), E by done.
    rewrite u8_small; [done |]. rewrite Forall_lookup in Hb. by apply Hb in E.
  - rewrite !lookup_ge_None_2; rewrite ?length_read_bytes; auto; lia.
Qed.

(** ** 64-bit words *)

Lemma length_le8 v : length (Z_to_little_endian 8 8 v) = 8%nat.
Proof. pose proof (length_Z_to_little_endian 8 8 v). lia. Qed.

Lemma load64_range m a : 0 <= load64 m a < 2 ^ 64.
Proof.
  pose proof (little_endian_to_Z_bound 8 (read_bytes m a 8) ltac:(lia) (read_bytes_bytes m a 8)).
  rewrite length_read_bytes in H. exact H.
Qed.

Lemma load64_store64_eq m a v : load64 (store64 m a v) a = u64 v.
Proof.
  unfold load64, store64.
  pose proof (read_write_bytes m a (Z_to_little_endian 8 8 v)) as H.
  rewrite length_le8 in H. rewrite H.
  - rewrite little_endian_to_Z_to_little_endian by lia. done.
  - apply Z_to_little_endian_bound; lia.
Qed.

Lemma load64_ext m m' a :
  (∀ i, 0 <= i < 8 → mget m' (a + i) = mget m (a + i)) → load64 m' a = load64 m a.
Proof. intros H. unfold load64. f_equal. apply read_bytes_ext. intros. apply H. lia. Qed.

Lemma mget_store64_out m a v x : ¬ (a <= x < a + 8) → mget (store64 m a v) x = mget m x.
Proof.
  intros H. unfold store64. apply write_bytes_out. rewrite length_le8. lia.
Qed.

Lemma mget_store64_zero m a j : 0 <= j < 8 → mget (store64 m a 0) (a + j) = 0.
Proof.
  intros H. unfold store64. replace j with (Z.of_nat (Z.to_nat j)) by lia. change (Z_to_little_endian 8 8 0) with (replicate 8 0).
  rewrite (write_bytes_in _ _ _ _ 0); [done |]. apply lookup_replicate_2. lia.
Qed.

Lemma load64_store64_ne m a v x :
  (x + 8 <= a ∨ a + 8 <= x) → load64 (store64 m a v) x = load64 m x.
Proof. intros H. apply load64_ext. intros. apply mget_store64_out. lia. Qed.

(** ** The loops of string.c compute the obvious functions *)

Lemma memset_spec m d c n x :
  mget (memset m d c n) x = if (d <=? x) && (x <? d + Z.of_nat n) then u8 c else mget m x.
Proof.
  revert m d. induction n as [| n IH]; intros m d; cbn [memset].
  - bdestruct.
  - rewrite IH, mget_mset. bdestruct.
Qed.

Lemma move_forward_spec m d s n x :
  (d <= s ∨ s + Z.of_nat n <= d) →
  mget (move_forward m d s n) x =
  if (d <=? x) && (x <? d + Z.of_nat n) then mget m (s + (x - d)) else mget m x.
Proof.
  revert m d s. induction n as [| n IH]; intros m d s H; cbn [move_forward].
  - bdestruct.
  - rewrite IH by lia. rewrite !mget_mset_mget.
    destruct (Z.eqb_spec d x) as [<- |].
    + destruct (Z.leb_spec (d + 1) d); [lia |]. cbn [andb]. bdestruct. f_equal. lia.
    + replace (d + 1 <=? x) with (d <=? x) by bdestruct.
      replace (d + 1 + Z.of_nat n) with (d + Z.of_nat (S n)) by lia.
      destruct (Z.leb_spec d x); [| done].
      destruct (Z.ltb_spec x (d + Z.of_nat (S n))); [| done]. cbn [andb].
      destruct (Z.eqb_spec d (s + 1 + (x - (d + 1)))); [lia |]. f_equal. lia.
Qed.

Lemma move_backward_spec m d s n x :
  s <= d →
  mget (move_backward m (d + Z.of_nat n) (s + Z.of_nat n) n) x =
  if (d <=? x) && (x <? d + Z.of_nat n) then mget m (s + (x - d)) else mget m x.
Proof.
  revert m. induction n as [| n IH]; intros m H; cbn [move_backward].
  - bdestruct.
  - replace (d + Z.of_nat (S n) - 1) with (d + Z.of_nat n) by lia.
    replace (s + Z.of_nat (S n) - 1) with (s + Z.of_nat n) by lia.
    rewrite IH by lia. rewrite !mget_mset_mget.
    destruct (Z.leb_spec d x); cbn [andb].
    + destruct (Z.ltb_spec x (d + Z.of_nat n)), (Z.ltb_spec x (d + Z.of_nat (S n)));
        try lia.
      * destruct (Z.eqb_spec (d + Z.of_nat n) (s + (x - d))); [lia | done].
      * destruct (Z.eqb_spec (d + Z.of_nat n) x); [f_equal; lia | lia].
      * destruct (Z.eqb_spec (d + Z.of_nat n) x); [lia | done].
    + destruct (Z.eqb_spec (d + Z.of_nat n) x); [lia | done].
Qed.

(** [memmove] copies the source as it was before the call, whatever the
    overlap of the two ranges. *)
Lemma memmove_bytes m d s n x :
  mget (memmove m d s n) x =
  if (d <=? x) && (x <? d + Z.of_nat n) then mget m (s + (x - d)) else mget m x.
Proof.
  unfold memmove. destruct (Nat.eqb_spec n 0) as [-> |]; [bdestruct |].
  destruct (Z.ltb_spec s d), (Z.ltb_spec d (s + Z.of_nat n)); cbn [andb].
  - apply move_backward_spec. lia.
  - apply move_forward_spec. lia.
  - apply move_forward_spec. lia.
  - apply move_forward_spec. lia.
Qed.

Lemma memmove_read m d s n : read_bytes (memmove m d s n) d n = read_bytes m s n.
Proof.
  apply read_bytes_ext. intros i Hi. rewrite memmove_bytes. bdestruct. f_equal. lia.
Qed.

Create Rewrite HintDb mem.
#[export] Hint Rewrite mget_mset memset_spec memmove_bytes : mem.

(** ** NUL-terminated strings *)

Lemma cstr_at_nil m a : cstr_at m a [] ↔ mget m a = 0.
Proof.
  unfold cstr_at. cbn [length]. rewrite Z.add_0_r. split; [tauto |].
  intros H. by split.
Qed.

Lemma cstr_at_cons m a b l :
  cstr_at m a (b :: l) ↔ mget m a = b ∧ b ≠ 0 ∧ cstr_at m (a + 1) l.
Proof.
  unfold cstr_at. cbn [length]. split.
  - intros [H H0]. destruct (H O b) as [Hb Hb0]; [done |].
    rewrite Z.add_0_r in Hb. split; [done |]. split; [done |]. split.
    + intros i c Hi. destruct (H (S i) c) as [Hc Hc0]; [done |].
      split; [| done]. rewrite <- Hc. f_equal. lia.
    + rewrite <- H0. f_equal. lia.
  - intros (Hb & Hb0 & H & H0). split.
    + intros [| i] c Hi; simpl in Hi.
      * injection Hi as ->. by rewrite Z.add_0_r.
      * destruct (H i c Hi) as [Hc Hc0]. split; [| done]. rewrite <- Hc. f_equal. lia.
    + rewrite <- H0. f_equal. lia.
Qed.

Lemma cstr_at_ext m m' a l :
  (∀ x, a <= x <= a + Z.of_nat (length l) → mget m' x = mget m x) →
  cstr_at m a l → cstr_at m' a l.
Proof.
  intros E [H H0]. split.
  - intros i b Hi. pose proof (lookup_lt_Some _ _ _ Hi).
    rewrite E by lia. by apply H.
  - rewrite E by lia. done.
Qed.

(** [strlen] returns the number of bytes before the NUL. *)
Lemma strlen_cstr fuel m s l :
  (length l < fuel)%nat → cstr_at m s l → strlen fuel m s = Some (Z.of_nat (length l)).
Proof.
  revert fuel s. induction l as [| b l IH]; intros fuel s Hf H.
  - apply cstr_at_nil in H. destruct fuel; [simpl in Hf; lia |]. simpl. by rewrite H.
  - apply cstr_at_cons in H as (Hb & Hb0 & H). destruct fuel; [simpl in Hf; lia |].
    simpl in *. rewrite Hb. destruct (Z.eqb_spec b 0); [done |].
    rewrite (IH fuel) by (auto; lia). simpl. f_equal. lia.
Qed.

Lemma strncpy_pad_spec m s n x :
  mget (strncpy_pad m s n) x = if (s <=? x) && (x <? s + Z.of_nat n) then 0 else mget m x.
Proof.
  revert m s. induction n as [| n IH]; intros m s; cbn [strncpy_pad].
  - bdestruct.
  - rewrite IH, mget_mset. change (u8 0) with 0. bdestruct.
Qed.

Lemma mset_out m a v x : a ≠ x → mget (mset m a v) x = mget m x.
Proof. intros. rewrite mget_mset. bdestruct. Qed.

Lemma strncpy_copy_out m s t n x :
  ¬ (s <= x < s + Z.of_nat n) → mget (strncpy_copy m s t n) x = mget m x.
Proof.
  revert m s t. induction n as [| n IH]; intros m s t H; cbn [strncpy_copy]; [done |].
  destruct (mget m t =? 0).
  - rewrite strncpy_pad_spec, mset_out by lia. bdestruct.
  - rewrite IH, mset_out by lia. done.
Qed.

Lemma mget_mset_eq m a v : 0 <= v < 2 ^ 8 → mget (mset m a v) a = v.
Proof. intros. rewrite mget_mset, Z.eqb_refl. by apply u8_small. Qed.

(** [strncpy] fills the [n] destination bytes: the string, cut at [n], and
    then NULs. *)
Lemma strncpy_copy_read m s t n l :
  cstr_at m t l → (t + Z.of_nat (length l) < s ∨ s + Z.of_nat n <= t) →
  read_bytes (strncpy_copy m s t n) s n = take n l ++ replicate (n - length l) 0.
Proof.
  revert m s t l. induction n as [| n IH]; intros m s t l H Hd; [done |].
  cbn [strncpy_copy read_bytes]. destruct l as [| b l].
  - apply cstr_at_nil in H. rewrite H. change (0 =? 0) with true. cbn iota.
    change (take (S n) [] ++ replicate (S n - length (@nil Z)) 0)
      with (0 :: replicate n 0). f_equal.
    + rewrite strncpy_pad_spec. replace (s + 1 <=? s) with false by bdestruct.
      by rewrite mget_mset_eq by lia.
    + apply list_eq. intros i. destruct (decide (i < n)%nat).
      * rewrite read_bytes_lookup, lookup_replicate_2, strncpy_pad_spec by done. bdestruct.
      * rewrite !lookup_ge_None_2; rewrite ?length_read_bytes, ?length_replicate; auto; lia.
  - apply cstr_at_cons in H as (Hb & Hb0 & H). rewrite Hb.
    destruct (Z.eqb_spec b 0); [done |]. simpl in Hd. cbn [take length Nat.sub app]. f_equal.
    + rewrite strncpy_copy_out by lia. rewrite <- Hb. rewrite mget_mset_mget. by rewrite Z.eqb_refl.
    + apply IH; [| lia]. eapply cstr_at_ext; [| done].
      intros x Hx. apply mset_out. lia.
Qed.

Lemma strncpy_read m s t n l :
  0 <= n → cstr_at m t l → (t + Z.of_nat (length l) < s ∨ s + n <= t) →
  read_bytes (strncpy m s t n) s (Z.to_nat n) =
  take (Z.to_nat n) l ++ replicate (Z.to_nat n - length l) 0.
Proof. intros. apply strncpy_copy_read; [done |]. lia. Qed.

Lemma safestrcpy_copy_out m s t k x :
  ¬ (s <= x <= s + Z.of_nat k) → mget (safestrcpy_copy m s t k) x = mget m x.
Proof.
  revert m s t. induction k as [| k IH]; intros m s t H; cbn [safestrcpy_copy].
  - apply mset_out. lia.
  - destruct (mget m t =? 0); [by rewrite !mset_out by lia |].
    rewrite IH, mset_out by lia. done.
Qed.

Lemma safestrcpy_copy_cstr m s t k l :
  cstr_at m t l → (t + Z.of_nat (length l) < s ∨ s + Z.of_nat k < t) →
  cstr_at (safestrcpy_copy m s t k) s (take k l).
Proof.
  revert m s t l. induction k as [| k IH]; intros m s t l H Hd; cbn [safestrcpy_copy].
  - rewrite take_0. apply cstr_at_nil. by apply mget_mset_eq.
  - destruct l as [| b l].
    + apply cstr_at_nil in H. rewrite H. apply cstr_at_nil.
      change (0 =? 0) with true. cbn iota. rewrite mset_out by lia. by apply mget_mset_eq.
    + apply cstr_at_cons in H as (Hb & Hb0 & H). rewrite Hb.
      destruct (Z.eqb_spec b 0); [done |]. cbn [take]. simpl in Hd.
      apply cstr_at_cons. split; [| split; [done |]].
      * rewrite safestrcpy_copy_out by lia. rewrite <- Hb, mget_mset_mget. by rewrite Z.eqb_refl.
      * apply IH; [| lia]. eapply cstr_at_ext; [| done]. intros x Hx. apply mset_out. lia.
Qed.

(** [strncmp] of two strings is 0 exactly when they agree on the first [n]
    bytes. *)
Lemma strncmp_zero m p q n l1 l2 :
  cstr_at m p l1 → cstr_at m q l2 →
  strncmp m p q n = 0 ↔ take n l1 = take n l2.
Proof.
  revert p q l1 l2. induction n as [| n IH]; intros p q l1 l2 H1 H2; [done |].
  cbn [strncmp]. destruct l1 as [| b1 l1], l2 as [| b2 l2].
  - apply cstr_at_nil in H1, H2. by rewrite H1, H2.
  - apply cstr_at_nil in H1. apply cstr_at_cons in H2 as (H2 & ? & ?).
    rewrite H1, H2. simpl. split; [lia | done].
  - apply cstr_at_cons in H1 as (H1 & ? & ?). apply cstr_at_nil in H2.
    rewrite H1, H2. destruct (Z.eqb_spec b1 0); [done |]. simpl. split; [lia | done].
  - apply cstr_at_cons in H1 as (H1 & ? & ?). apply cstr_at_cons in H2 as (H2 & ? & ?).
    rewrite H1, H2. destruct (Z.eqb_spec b1 0); [done |].
    destruct (Z.eqb_spec b1 b2) as [<- |]; cbn [negb andb take].
    + rewrite (IH _ _ l1 l2) by done. split; [by intros -> | by intros [= ?]].
    + split; [lia | by intros [= ?]].
Qed.

(** From here on the loops are used through their specifications. *)
#[global] Opaque memset memmove load64 store64 load32 store32.

(** ** Properties *)

(** [memmove] and [memcpy] give the destination range the bytes the source
    range had before the call, whatever the overlap, and change nothing else. *)
Theorem memmove_spec m dst src n :
  read_bytes (memmove m dst src n) dst n = read_bytes m src n ∧
  read_bytes (memcpy m dst src n) dst n = read_bytes m src n ∧
  ∀ x, ¬ (dst <= x < dst + Z.of_nat n) → mget (memmove m dst src n) x = mget m x.
Proof.
  unfold memcpy. split; [apply memmove_read |]. split; [apply memmove_read |].
  intros x Hx. rewrite memmove_bytes. bdestruct.
Qed.

(** [safestrcpy] into a buffer of [n > 0] bytes leaves there a
    NUL-terminated string, the first [n - 1] bytes of the source string, and
    writes no byte outside the buffer. *)
Theorem safestrcpy_spec m s t n l :
  0 < n → cstr_at m t l → (t + Z.of_nat (length l) < s ∨ s + n <= t) →
  cstr_at (safestrcpy m s t n) s (take (Z.to_nat (n - 1)) l) ∧
  ∀ x, ¬ (s <= x < s + n) → mget (safestrcpy m s t n) x = mget m x.
Proof.
  intros Hn Hc Hd. unfold safestrcpy. destruct (Z.leb_spec n 0); [lia |]. split.
  - apply safestrcpy_copy_cstr; [done | lia].
  - intros x Hx. apply safestrcpy_copy_out. lia.
Qed.

(** "ab" stands at 100 and is copied into a 2-byte buffer at 10. *)
Definition ab_mem : mem := write_bytes ∅ 100 [97; 98; 0].

Lemma safestrcpy_spec_witness :
  cstr_at (safestrcpy ab_mem 10 100 2) 10 [97].
Proof.
  apply (safestrcpy_spec ab_mem 10 100 2 [97; 98]); [lia | | simpl; lia].
  do 2 (apply cstr_at_cons; split; [vm_compute; reflexivity | split; [lia |]]).
  apply cstr_at_nil. vm_compute. reflexivity.
Defined.
