(* ===== verification/Spinlock.v ===== *)
(** * Spin locks (kernel/spinlock.c)

    The lock word, the CPU's interrupt-disable nesting, and the CPUs running
    [acquire] and [release] in parallel, in steps that any CPU can take in turn.
    A step has at most one access to the lock that writes it: the swap of
    [acquire], the record of the CPU, the erasing of it, and the store that
    releases the lock.  The reads of [holding] are one step with what goes
    before or after them on the same CPU: with [push_off], which changes only
    that CPU, and with the erasing in [release]. *)

From stdpp Require Import functions.
From S2P Require Import Prelude Monad Riscv.

Module Spinlock.

(** [struct spinlock]: the lock word, its name, and the CPU holding it. *)
Record spinlock := Lock {
  locked : Z;
  name : string;
  lk_cpu : option Z }.

(** The fields of [struct cpu] that spinlock.c uses. *)
Record cpu := Cpu {
  noff : Z;
  intena : bool }.

Definition initlock (nm : string) : spinlock := Lock 0 nm None.

Definition push_off (h : hart) (c : cpu) : hart * cpu :=
  let old := intr_get h in
  let h := intr_off h in
  let c := if noff c =? 0 then Cpu (noff c) old else c in
  (h, Cpu (noff c + 1) (intena c)).

Definition pop_off (h : hart) (c : cpu) : string + hart * cpu :=
  if intr_get h then inl "pop_off - interruptible"%string
  else if noff c <? 1 then inl "pop_off"%string
  else
    let c := Cpu (noff c - 1) (intena c) in
    if (noff c =? 0) && intena c then inr (intr_on h, c) else inr (h, c).

(** ** The CPUs *)

(** Where a CPU is inside [acquire] or [release]. *)
Inductive pc :=
  | Run                   (* outside both *)
  | Spin (l : lockid)     (* at the atomic swap of [acquire] *)
  | Own (l : lockid)      (* swap succeeded, before [lk->cpu = mycpu()] *)
  | Unlock (l : lockid)   (* [lk->cpu] cleared, before the word is released *)
  | Pop.                  (* before [pop_off()] at the end of [release] *)

(** One CPU: its registers, its [struct cpu], its position, and (for the
    statements only) the locks it has acquired and not yet released. *)
Record core := Core {
  hw : hart;
  cp : cpu;
  at_ : pc;
  crit : list lockid }.

Record smp := Smp {
  cores : Z → core;
  locks : lockid → spinlock }.

Definition holding (s : smp) (i : Z) (l : lockid) : bool :=
  negb (locked (locks s l) =? 0) && bool_decide (lk_cpu (locks s l) = Some i).

(** [acquire], up to the swap loop. *)
Definition acquire_enter (i : Z) (l : lockid) (s : smp) : string + smp :=
  let c := cores s i in
  let '(h, p) := push_off (hw c) (cp c) in
  if holding s i l then inl "acquire"%string
  else inr (Smp (<[i := Core h p (Spin l) (crit c)]> (cores s)) (locks s)).

(** One [__sync_lock_test_and_set(&lk->locked, 1)]: the loop is left when the
    word was 0. *)
Definition acquire_swap (i : Z) (l : lockid) (s : smp) : smp :=
  let c := cores s i in
  let k := locks s l in
  let next := if locked k =? 0 then Own l else Spin l in
  Smp (<[i := Core (hw c) (cp c) next (crit c)]> (cores s))
      (<[l := Lock 1 (name k) (lk_cpu k)]> (locks s)).

(** [lk->cpu = mycpu();] and return. *)
Definition acquire_record (i : Z) (l : lockid) (s : smp) : smp :=
  let c := cores s i in
  let k := locks s l in
  Smp (<[i := Core (hw c) (cp c) Run (l :: crit c)]> (cores s))
      (<[l := Lock (locked k) (name k) (Some i)]> (locks s)).

(** [release], up to clearing [lk->cpu]. *)
Definition release_enter (i : Z) (l : lockid) (s : smp) : string + smp :=
  let c := cores s i in
  let k := locks s l in
  if negb (holding s i l) then inl "release"%string
  else inr (Smp (<[i := Core (hw c) (cp c) (Unlock l) (filter (λ l', l' ≠ l) (crit c))]> (cores s))
                (<[l := Lock (locked k) (name k) None]> (locks s))).

(** [__sync_lock_release(&lk->locked);] *)
Definition release_word (i : Z) (l : lockid) (s : smp) : smp :=
  let c := cores s i in
  let k := locks s l in
  Smp (<[i := Core (hw c) (cp c) Pop (crit c)]> (cores s))
      (<[l := Lock 0 (name k) (lk_cpu k)]> (locks s)).

(** [pop_off();] and return from [release]. *)
Definition release_pop (i : Z) (s : smp) : string + smp :=
  let c := cores s i in
  match pop_off (hw c) (cp c) with
  | inl e => inl e
  | inr (h, p) => inr (Smp (<[i := Core h p Run (crit c)]> (cores s)) (locks s))
  end.

(** A CPU holding no lock may switch its interrupts on or off ([intr_on] in
    [scheduler], traps). *)
Definition set_intr (i : Z) (on : bool) (s : smp) : smp :=
  let c := cores s i in
  let h := if on then intr_on (hw c) else intr_off (hw c) in
  Smp (<[i := Core h (cp c) (at_ c) (crit c)]> (cores s)) (locks s).

(** The kernel code on CPU [i] calls [acquire] or [release] at will; every
    step that does not panic is possible in any order across CPUs. *)
Inductive step : smp → smp → Prop :=
  | step_acquire i l s s' :
      at_ (cores s i) = Run → acquire_enter i l s = inr s' → step s s'
  | step_swap i l s :
      at_ (cores s i) = Spin l → step s (acquire_swap i l s)
  | step_record i l s :
      at_ (cores s i) = Own l → step s (acquire_record i l s)
  | step_release i l s s' :
      at_ (cores s i) = Run → release_enter i l s = inr s' → step s s'
  | step_word i l s :
      at_ (cores s i) = Unlock l → step s (release_word i l s)
  | step_pop i s s' :
      at_ (cores s i) = Pop → release_pop i s = inr s' → step s s'
  | step_intr i on s :
      at_ (cores s i) = Run → noff (cp (cores s i)) = 0 → step s (set_intr i on s).

(** Boot: no lock taken, no CPU inside a critical section. *)
Definition initial (s : smp) : Prop :=
  (∀ i, at_ (cores s i) = Run ∧ crit (cores s i) = [] ∧ noff (cp (cores s i)) = 0) ∧
  (∀ l, locked (locks s l) = 0 ∧ lk_cpu (locks s l) = None).

Definition reachable (s : smp) : Prop := ∃ s0, initial s0 ∧ rtc step s0 s.

(** ** The invariant *)

(** CPU [i] is past a successful swap of [l] and before releasing the word. *)
Definition owns (s : smp) (i : Z) (l : lockid) : Prop :=
  l ∈ crit (cores s i) ∨ at_ (cores s i) = Own l ∨ at_ (cores s i) = Unlock l.

Definition pending (p : pc) : Z := match p with Run => 0 | _ => 1 end.

Record inv (s : smp) : Prop := Inv {
  inv_locked : ∀ i l, owns s i l → locked (locks s l) ≠ 0;
  inv_owner : ∀ l, locked (locks s l) ≠ 0 → ∃ i, owns s i l;
  inv_unique : ∀ i j l, owns s i l → owns s j l → i = j;
  inv_cpu : ∀ i l, lk_cpu (locks s l) = Some i ↔ l ∈ crit (cores s i);
  inv_pc : ∀ i l, at_ (cores s i) = Own l ∨ at_ (cores s i) = Unlock l → l ∉ crit (cores s i);
  inv_nodup : ∀ i, NoDup (crit (cores s i));
  inv_noff : ∀ i, noff (cp (cores s i)) =
                  Z.of_nat (length (crit (cores s i))) + pending (at_ (cores s i));
  inv_intr : ∀ i, 0 < noff (cp (cores s i)) → intr_get (hw (cores s i)) = false }.

Lemma push_off_spec h c h' c' :
  push_off h c = (h', c') → noff c' = noff c + 1 ∧ intr_get h' = false.
Proof.
  unfold push_off. intros [= <- <-]. split; [by destruct (noff c =? 0) |].
  apply intr_get_off.
Qed.

Lemma pop_off_spec h c h' c' :
  pop_off h c = inr (h', c') →
  noff c' = noff c - 1 ∧ 1 <= noff c ∧ (noff c' ≠ 0 → intr_get h' = false).
Proof.
  unfold pop_off. destruct (intr_get h) eqn:E; [done |].
  destruct (Z.ltb_spec (noff c) 1); [done |]. cbn [noff intena].
  destruct (Z.eqb_spec (noff c - 1) 0), (intena c); cbn [andb];
    intros [= <- <-]; cbn [noff]; split; try lia; split; auto; lia.
Qed.

(** Case split on which core a statement is about. *)
Ltac core_cases i :=
  repeat match goal with
  | H : context [<[i := ?x]> ?f ?j] |- _ =>
      destruct (decide (i = j)) as [<- | ?];
      [rewrite fn_lookup_insert in H | rewrite fn_lookup_insert_ne in H by done]
  | |- context [<[i := ?x]> ?f ?j] =>
      destruct (decide (i = j)) as [<- | ?];
      [rewrite fn_lookup_insert | rewrite fn_lookup_insert_ne by done]
  end.

Lemma initial_inv s : initial s → inv s.
Proof.
  intros [Hc Hl]. split; intros i.
  - intros l H. destruct (Hc i) as (E1 & E2 & _). unfold owns in H.
    rewrite E1, E2 in H. set_solver.
  - destruct (Hl i). congruence.
  - intros j l H. destruct (Hc i) as (E1 & E2 & _). unfold owns in H.
    rewrite E1, E2 in H. set_solver.
  - intros l. destruct (Hc i) as (E1 & E2 & _), (Hl l) as (_ & ->). rewrite E2. set_solver.
  - intros l. destruct (Hc i) as (-> & _ & _). naive_solver.
  - destruct (Hc i) as (_ & -> & _). constructor.
  - destruct (Hc i) as (-> & -> & ->). done.
  - destruct (Hc i) as (_ & _ & ->). lia.
Qed.

(** Steps that change neither a lock nor who owns it. *)
Lemma inv_frame s i c' :
  inv s →
  crit c' = crit (cores s i) →
  (∀ l, at_ c' = Own l ∨ at_ c' = Unlock l ↔
        at_ (cores s i) = Own l ∨ at_ (cores s i) = Unlock l) →
  noff (cp c') = Z.of_nat (length (crit c')) + pending (at_ c') →
  (0 < noff (cp c') → intr_get (hw c') = false) →
  inv (Smp (<[i := c']> (cores s)) (locks s)).
Proof.
  intros [] Hcrit Hat Hnoff Hintr.
  assert (∀ j l, owns (Smp (<[i := c']> (cores s)) (locks s)) j l ↔ owns s j l) as Hown.
  { intros j l. unfold owns. simpl. core_cases i; [| done]. rewrite Hcrit.
    specialize (Hat l). tauto. }
  split; simpl.
  - intros j l. rewrite Hown. apply inv_locked0.
  - intros l H. destruct (inv_owner0 l H) as [j Hj]. exists j. by apply Hown.
  - intros j k l. rewrite !Hown. apply inv_unique0.
  - intros j l. core_cases i; [rewrite Hcrit |]; apply inv_cpu0.
  - intros j l. core_cases i; [rewrite Hcrit, Hat |]; apply inv_pc0.
  - intros j. core_cases i; [rewrite Hcrit |]; apply inv_nodup0.
  - intros j. core_cases i; auto.
  - intros j. core_cases i; auto.
Qed.

Lemma acquire_enter_inv s i l s' :
  inv s → at_ (cores s i) = Run → acquire_enter i l s = inr s' → inv s'.
Proof.
  intros Hinv Hat. unfold acquire_enter.
  destruct (push_off (hw (cores s i)) (cp (cores s i))) as [h p] eqn:E.
  apply push_off_spec in E as [E1 E2].
  destruct (holding s i l); [done |]. intros [= <-].
  apply inv_frame; simpl; auto.
  - intros l'. rewrite Hat. naive_solver.
  - rewrite E1, (inv_noff s Hinv), Hat. simpl. lia.
Qed.

Lemma release_pop_inv s i s' :
  inv s → at_ (cores s i) = Pop → release_pop i s = inr s' → inv s'.
Proof.
  intros Hinv Hat. unfold release_pop.
  destruct (pop_off (hw (cores s i)) (cp (cores s i))) as [| [h p]] eqn:E; [done |].
  apply pop_off_spec in E as (E1 & E2 & E3). intros [= <-].
  apply inv_frame; simpl; auto.
  - intros l'. rewrite Hat. naive_solver.
  - rewrite E1, (inv_noff s Hinv), Hat. simpl. lia.
  - intros. apply E3. lia.
Qed.

Lemma set_intr_inv s i on :
  inv s → at_ (cores s i) = Run → noff (cp (cores s i)) = 0 → inv (set_intr i on s).
Proof.
  intros Hinv Hat H0. unfold set_intr. apply inv_frame; simpl; auto.
  - by rewrite (inv_noff s Hinv).
  - lia.
Qed.

(** The swap: with the word at 1 nothing changes; with the word at 0 this
    CPU becomes the owner, and there was none. *)
Lemma acquire_swap_inv s i l :
  inv s → at_ (cores s i) = Spin l → inv (acquire_swap i l s).
Proof.
  intros Hinv Hat. pose proof Hinv as []. unfold acquire_swap.
  set (c' := Core _ _ _ _).
  assert (∀ j, crit (<[i := c']> (cores s) j) = crit (cores s j)) as Hcrit.
  { intros j. core_cases i; done. }
  assert (∀ l', locked (locks s l') = 0 → ∀ j, ¬ owns s j l') as Hfree.
  { intros l' H0 j Hj. by apply inv_locked0 in Hj. }
  assert (∀ j l', owns (Smp (<[i := c']> (cores s))
                            (<[l := Lock 1 (name (locks s l)) (lk_cpu (locks s l))]> (locks s))) j l'
          ↔ owns s j l' ∨ (j = i ∧ l' = l ∧ locked (locks s l) = 0)) as Hown.
  { intros j l'. unfold owns. simpl. rewrite Hcrit. core_cases i; simpl.
    - rewrite Hat. destruct (Z.eqb_spec (locked (locks s l)) 0); naive_solver.
    - naive_solver. }
  split; simpl.
  - intros j l' H. rewrite Hown in H. destruct (decide (l = l')) as [<- |].
    + by rewrite fn_lookup_insert.
    + rewrite fn_lookup_insert_ne by done. naive_solver.
  - intros l' H. destruct (decide (l = l')) as [<- |].
    + destruct (decide (locked (locks s l) = 0)).
      * exists i. apply Hown. naive_solver.
      * destruct (inv_owner0 l) as [j Hj]; [done |]. exists j. apply Hown. by left.
    + rewrite fn_lookup_insert_ne in H by done.
      destruct (inv_owner0 l' H) as [j Hj]. exists j. apply Hown. by left.
  - intros j k l' H1 H2. rewrite Hown in H1, H2. naive_solver.
  - intros j l'. rewrite Hcrit. rewrite <- inv_cpu0.
    destruct (decide (l = l')) as [<- |]; [by rewrite fn_lookup_insert |].
    by rewrite fn_lookup_insert_ne.
  - intros j l'. rewrite Hcrit. core_cases i; [| apply inv_pc0]. simpl.
    destruct (Z.eqb_spec (locked (locks s l)) 0); [| naive_solver].
    intros [[= <-] | [=]] Hin. apply (Hfree l e i). by left.
  - intros j. rewrite Hcrit. apply inv_nodup0.
  - intros j. rewrite Hcrit. core_cases i; [| apply inv_noff0]. simpl.
    rewrite inv_noff0, Hat. by destruct (locked (locks s l) =? 0).
  - intros j. core_cases i; apply inv_intr0.
Qed.

Lemma acquire_record_inv s i l :
  inv s → at_ (cores s i) = Own l → inv (acquire_record i l s).
Proof.
  intros Hinv Hat. pose proof Hinv as []. unfold acquire_record.
  set (c' := Core _ _ _ _). set (s' := Smp _ _).
  assert (∀ j l', owns s' j l' ↔ owns s j l') as Hown.
  { intros j l'. unfold owns, s'. simpl. core_cases i; [| done]. simpl. rewrite Hat.
    rewrite elem_of_cons. naive_solver. }
  assert (∀ l', locked (locks s' l') = locked (locks s l')) as Hlk.
  { intros l'. simpl. destruct (decide (l = l')) as [<- |];
      [by rewrite fn_lookup_insert | by rewrite fn_lookup_insert_ne]. }
  split.
  - intros j l'. rewrite Hown, Hlk. apply inv_locked0.
  - intros l'. rewrite Hlk. intros H. destruct (inv_owner0 l' H) as [j Hj].
    exists j. by apply Hown.
  - intros j k l'. rewrite !Hown. apply inv_unique0.
  - intros j l'. simpl. destruct (decide (l = l')) as [<- |].
    + rewrite fn_lookup_insert. simpl. core_cases i; simpl; [rewrite elem_of_cons; tauto |].
      split; [naive_solver |]. intros Hin. exfalso.
      assert (i = j); [| done]. apply (inv_unique0 i j l); [unfold owns; auto | by left].
    + rewrite fn_lookup_insert_ne by done. core_cases i; [| apply inv_cpu0].
      simpl. rewrite elem_of_cons, <- inv_cpu0. naive_solver.
  - intros j l'. simpl. core_cases i; [simpl; naive_solver | apply inv_pc0].
  - intros j. simpl. core_cases i; [| apply inv_nodup0]. simpl.
    apply NoDup_cons; split; [apply inv_pc0; auto | apply inv_nodup0].
  - intros j. simpl. core_cases i; [| apply inv_noff0]. simpl.
    rewrite inv_noff0, Hat. simpl. lia.
  - intros j. simpl. core_cases i; apply inv_intr0.
Qed.

Lemma holding_crit s i l : inv s → holding s i l = true ↔ l ∈ crit (cores s i).
Proof.
  intros Hinv. unfold holding. rewrite andb_true_iff, bool_decide_eq_true, (inv_cpu s Hinv).
  split; [tauto |]. intros Hin. split; [| done].
  apply negb_true_iff, Z.eqb_neq. apply (inv_locked s Hinv i). by left.
Qed.

Lemma length_filter_ne (l : lockid) (h : list lockid) :
  NoDup h → l ∈ h → length h = S (length (filter (λ l', l' ≠ l) h)).
Proof.
  induction h as [| a h IH]; intros Hnd Hin; [set_solver |].
  apply NoDup_cons in Hnd as [Ha Hnd]. rewrite filter_cons.
  destruct (decide (a = l)) as [-> |].
  - rewrite decide_False by naive_solver. rewrite filter_not_in by done. done.
  - rewrite decide_True by done. simpl. f_equal. apply IH; [done | set_solver].
Qed.

Lemma release_enter_inv s i l s' :
  inv s → at_ (cores s i) = Run → release_enter i l s = inr s' → inv s'.
Proof.
  intros Hinv Hat. unfold release_enter.
  destruct (holding s i l) eqn:Hh; [| done]. apply holding_crit in Hh; [| done].
  intros [= <-]. pose proof Hinv as []. set (c' := Core _ _ _ _). set (s' := Smp _ _).
  assert (∀ j l', owns s' j l' ↔ owns s j l') as Hown.
  { intros j l'. unfold owns, s'. simpl. core_cases i; [| done]. simpl. rewrite Hat.
    rewrite list_elem_of_filter. destruct (decide (l = l')) as [<- |]; naive_solver. }
  assert (∀ l', locked (locks s' l') = locked (locks s l')) as Hlk.
  { intros l'. simpl. destruct (decide (l = l')) as [<- |];
      [by rewrite fn_lookup_insert | by rewrite fn_lookup_insert_ne]. }
  split.
  - intros j l'. rewrite Hown, Hlk. apply inv_locked0.
  - intros l'. rewrite Hlk. intros H. destruct (inv_owner0 l' H) as [j Hj].
    exists j. by apply Hown.
  - intros j k l'. rewrite !Hown. apply inv_unique0.
  - intros j l'. simpl. destruct (decide (l = l')) as [<- |].
    + rewrite fn_lookup_insert. simpl. core_cases i; simpl.
      { rewrite list_elem_of_filter. clear. naive_solver. }
      split; [done |]. intros Hin. exfalso.
      assert (i = j); [| done]. apply (inv_unique0 i j l); by left.
    + rewrite fn_lookup_insert_ne by done. core_cases i; [| apply inv_cpu0].
      simpl. rewrite list_elem_of_filter, inv_cpu0. naive_solver.
  - intros j l'. simpl. core_cases i; [| apply inv_pc0]. simpl.
    intros [[=] | [= <-]]. rewrite list_elem_of_filter. naive_solver.
  - intros j. simpl. core_cases i; [| apply inv_nodup0]. simpl. apply NoDup_filter, inv_nodup0.
  - intros j. simpl. core_cases i; [| apply inv_noff0]. simpl.
    rewrite inv_noff0, Hat, (length_filter_ne l) by auto. simpl. lia.
  - intros j. simpl. core_cases i; apply inv_intr0.
Qed.

Lemma release_word_inv s i l :
  inv s → at_ (cores s i) = Unlock l → inv (release_word i l s).
Proof.
  intros Hinv Hat. pose proof Hinv as []. unfold release_word.
  set (c' := Core _ _ _ _). set (s' := Smp _ _).
  assert (l ∉ crit (cores s i)) as Hnot by (apply inv_pc0; auto).
  assert (∀ j l', owns s' j l' ↔ owns s j l' ∧ l' ≠ l) as Hown.
  { intros j l'. unfold owns, s'. simpl. core_cases i; simpl.
    - rewrite Hat. destruct (decide (l' = l)) as [-> |]; naive_solver.
    - split; [| tauto]. intros H. split; [done |]. intros ->.
      assert (i = j); [| done]. apply (inv_unique0 i j l); unfold owns; auto. }
  split.
  - intros j l'. rewrite Hown. intros [H Hne]. simpl.
    rewrite fn_lookup_insert_ne by done. by apply (inv_locked0 j).
  - intros l'. simpl. destruct (decide (l = l')) as [<- |];
      [by rewrite fn_lookup_insert |]. rewrite fn_lookup_insert_ne by done.
    intros H. destruct (inv_owner0 l' H) as [j Hj]. exists j. apply Hown. auto.
  - intros j k l'. rewrite !Hown. intros [] []. by apply (inv_unique0 j k l').
  - intros j l'. simpl.
    assert (lk_cpu (<[l := Lock 0 (name (locks s l)) (lk_cpu (locks s l))]> (locks s) l')
            = lk_cpu (locks s l')) as ->.
    { destruct (decide (l = l')) as [<- |];
        [by rewrite fn_lookup_insert | by rewrite fn_lookup_insert_ne]. }
    core_cases i; apply inv_cpu0.
  - intros j l'. simpl. core_cases i; [simpl; naive_solver | apply inv_pc0].
  - intros j. simpl. core_cases i; apply inv_nodup0.
  - intros j. simpl. core_cases i; [| apply inv_noff0]. simpl. by rewrite inv_noff0, Hat.
  - intros j. simpl. core_cases i; apply inv_intr0.
Qed.

Lemma step_inv s s' : inv s → step s s' → inv s'.
Proof.
  intros Hinv Hstep. destruct Hstep.
  - by eapply acquire_enter_inv.
  - by apply acquire_swap_inv.
  - by apply acquire_record_inv.
  - by eapply release_enter_inv.
  - by apply release_word_inv.
  - by eapply release_pop_inv.
  - by apply set_intr_inv.
Qed.

Lemma reachable_inv s : reachable s → inv s.
Proof.
  intros (s0 & H0 & Hr). apply initial_inv in H0.
  induction Hr; eauto using step_inv.
Qed.

(** ** Nesting of [push_off] and [pop_off] *)

Fixpoint push_n (n : nat) (h : hart) (c : cpu) : hart * cpu :=
  match n with
  | O => (h, c)
  | S n' => let '(h', c') := push_off h c in push_n n' h' c'
  end.

Fixpoint pop_n (n : nat) (h : hart) (c : cpu) : string + hart * cpu :=
  match n with
  | O => inr (h, c)
  | S n' =>
      match pop_off h c with
      | inl e => inl e
      | inr (h', c') => pop_n n' h' c'
      end
  end.

Lemma push_n_spec n h c h' c' :
  0 < noff c → push_n n h c = (h', c') →
  noff c' = noff c + Z.of_nat n ∧ intena c' = intena c ∧
  (intr_get h = false → intr_get h' = false).
Proof.
  revert h c. induction n as [| n IH]; intros h c Hc H; simpl in H.
  - injection H as <- <-. split; [lia | done].
  - destruct (push_off h c) as [h1 c1] eqn:E.
    pose proof (push_off_spec _ _ _ _ E) as [E1 E2].
    unfold push_off in E. destruct (Z.eqb_spec (noff c) 0); [lia |].
    injection E as <- <-. apply IH in H as (H1 & H2 & H3); simpl in *; [| lia].
    split; [lia |]. split; [done |]. auto.
Qed.

Lemma pop_n_spec n h c :
  intr_get h = false → Z.of_nat n <= noff c →
  ∃ h' c', pop_n n h c = inr (h', c') ∧ noff c' = noff c - Z.of_nat n ∧
    intr_get h' = bool_decide (0 < n)%nat && bool_decide (noff c' = 0) && intena c ∧
    intena c' = intena c.
Proof.
  revert h c. induction n as [| n IH]; intros h c Hh Hn.
  - exists h, c. split; [done |]. split; [lia |]. by rewrite Hh.
  - cbn [pop_n]. unfold pop_off. rewrite Hh.
    destruct (Z.ltb_spec (noff c) 1); [lia |]. cbn [noff intena].
    destruct (Z.eqb_spec (noff c - 1) 0) as [E0 |].
    + assert (n = O) as -> by lia. rewrite E0. cbn [andb].
      destruct (intena c) eqn:Ei; cbn [pop_n]; eexists _, _; (split; [reflexivity |]);
        cbn [noff intena]; (split; [lia |]); rewrite ?intr_get_on, ?Hh; done.
    + cbn [andb]. destruct (IH h (Cpu (noff c - 1) (intena c))) as (h' & c' & -> & H1 & H2 & H3);
        [done | simpl; lia |]. simpl in *.
      exists h', c'. split; [done |]. split; [lia |]. split; [| done]. rewrite H2.
      destruct n; [| done]. rewrite (bool_decide_eq_false_2 (0 < 0)%nat) by lia.
      rewrite (bool_decide_eq_false_2 (noff c' = 0)) by lia. by rewrite andb_false_r.
Qed.

(** ** Properties *)

(** C30: mutual exclusion. In every reachable state of any number of CPUs
    calling [acquire] and [release] in any interleaving, at most one CPU is
    between a completed [acquire] and its [release] of a given lock. *)
Theorem acquire_mutual_exclusion s i j l :
  reachable s → l ∈ crit (cores s i) → l ∈ crit (cores s j) → i = j.
Proof.
  intros Hr Hi Hj. apply reachable_inv in Hr. apply (inv_unique s Hr i j l); by left.
Qed.

(** [holding], although it reads the lock without synchronisation,
    answers exactly whether this CPU holds the lock; so [acquire] panics
    exactly on re-acquisition and [release] exactly on a lock not held. *)
Theorem holding_exact s i l :
  reachable s →
  (holding s i l = true ↔ l ∈ crit (cores s i)) ∧
  (acquire_enter i l s = inl "acquire"%string ↔ l ∈ crit (cores s i)) ∧
  (release_enter i l s = inl "release"%string ↔ l ∉ crit (cores s i)).
Proof.
  intros Hr. apply reachable_inv in Hr. pose proof (holding_crit s i l Hr) as H.
  split; [done |]. unfold acquire_enter, release_enter. rewrite <- H.
  destruct (push_off _ _), (holding s i l); simpl; naive_solver.
Qed.

(** A CPU that holds any spin lock, or is inside [acquire] or [release],
    runs with its interrupts off, and its [noff] counts those nestings. *)
Theorem locks_disable_interrupts s i :
  reachable s →
  noff (cp (cores s i)) = Z.of_nat (length (crit (cores s i))) + pending (at_ (cores s i)) ∧
  (crit (cores s i) ≠ [] ∨ at_ (cores s i) ≠ Run → intr_get (hw (cores s i)) = false).
Proof.
  intros Hr. apply reachable_inv in Hr. split; [apply (inv_noff s Hr) |].
  intros H. apply (inv_intr s Hr). rewrite (inv_noff s Hr).
  destruct (crit (cores s i)), (at_ (cores s i)); simpl in *; naive_solver lia.
Qed.

(** [push_off] and [pop_off] are matched: [n] of the one followed by [k]
    of the other leave the nesting depth at [n - k], keep interrupts off
    until the depth is back at 0, and then restore the interrupt state from
    before the first [push_off]. *)
Theorem push_pop_matched h c n k h1 c1 :
  noff c = 0 → (0 < k <= n)%nat → push_n n h c = (h1, c1) →
  ∃ h2 c2, pop_n k h1 c1 = inr (h2, c2) ∧
    noff c2 = Z.of_nat n - Z.of_nat k ∧
    intr_get h2 = if (k =? n)%nat then intr_get h else false.
Proof.
  intros Hc Hk H. destruct n as [| n]; [lia |]. cbn [push_n] in H.
  destruct (push_off h c) as [h0 c0] eqn:E.
  pose proof (push_off_spec _ _ _ _ E) as [E1 E2]. unfold push_off in E. rewrite Hc in E.
  injection E as _ Ec. apply push_n_spec in H as (H1 & H2 & H3); [| lia].
  destruct (pop_n_spec k h1 c1) as (h2 & c2 & Hp & Hn & Hi & _); [auto | lia |].
  exists h2, c2. split; [done |]. split; [lia |]. rewrite Hi, H2, <- Ec. simpl.
  rewrite bool_decide_eq_true_2 by lia. cbn [andb].
  destruct (Nat.eqb_spec k (S n)).
  - rewrite bool_decide_eq_true_2 by lia. done.
  - rewrite bool_decide_eq_false_2 by lia. done.
Qed.

(** *** Witnesses *)

Definition hart0 : hart := Hart 0 0 0 2 0 0 0 0 0 0 0 0 0 0 0 0 0 0 0.

Definition idle : core := Core hart0 (Cpu 0 false) Run [].

Definition boot : smp := Smp (λ _, idle) (λ _, initlock "lock").

Lemma boot_initial : initial boot.
Proof. split; intros; repeat split. Qed.

(** CPU 0 has acquired [L_kmem] and CPU 1 spins on it. *)
Definition after_acquire : smp :=
  match acquire_enter 0 L_kmem boot with
  | inr s1 =>
      match acquire_enter 1 L_kmem (acquire_record 0 L_kmem (acquire_swap 0 L_kmem s1)) with
      | inr s2 => acquire_swap 1 L_kmem s2
      | inl _ => boot
      end
  | inl _ => boot
  end.

Lemma after_acquire_reachable : reachable after_acquire.
Proof.
  exists boot. split; [apply boot_initial |]. unfold after_acquire.
  destruct (acquire_enter 0 L_kmem boot) as [| s1] eqn:E1; [done |].
  injection E1 as <-. eapply rtc_l; [by apply (step_acquire 0 L_kmem) |].
  eapply rtc_l; [by apply (step_swap 0 L_kmem) |].
  eapply rtc_l; [by apply (step_record 0 L_kmem) |].
  destruct (acquire_enter 1 L_kmem _) as [| s2] eqn:E2; [done |].
  injection E2 as <-. eapply rtc_l; [by apply (step_acquire 1 L_kmem) |].
  apply rtc_once. by apply (step_swap 1 L_kmem).
Qed.

Lemma acquire_mutual_exclusion_witness :
  L_kmem ∈ crit (cores after_acquire 0) ∧
  ∀ j, L_kmem ∈ crit (cores after_acquire j) → 0 = j.
Proof.
  assert (L_kmem ∈ crit (cores after_acquire 0)) as H by (vm_compute; left).
  split; [exact H |]. intros j Hj.
  exact (acquire_mutual_exclusion after_acquire 0 j L_kmem after_acquire_reachable H Hj).
Defined.

Lemma holding_exact_witness :
  holding after_acquire 0 L_kmem = true ∧ holding after_acquire 1 L_kmem = false.
Proof.
  pose proof (holding_exact after_acquire 0 L_kmem after_acquire_reachable) as (H & _).
  split; [apply H; vm_compute; left | reflexivity].
Defined.

Lemma locks_disable_interrupts_witness :
  intr_get (hw (cores after_acquire 0)) = false ∧ intr_get hart0 = true.
Proof.
  pose proof (locks_disable_interrupts after_acquire 0 after_acquire_reachable) as (_ & H).
  split; [apply H; left; vm_compute; discriminate | reflexivity].
Defined.

Lemma push_pop_matched_witness :
  ∃ h2 c2, pop_n 2 (fst (push_n 2 hart0 (Cpu 0 false))) (snd (push_n 2 hart0 (Cpu 0 false)))
           = inr (h2, c2) ∧ noff c2 = 0 ∧ intr_get h2 = true.
Proof.
  exact (push_pop_matched hart0 (Cpu 0 false) 2 2 _ _ eq_refl ltac:(lia) eq_refl).
Defined.

End Spinlock.
