(* ===== verification/Kalloc.v ===== *)
(** * The physical page allocator (kernel/kalloc.c)

    The free list is threaded through the free pages themselves: the first
    eight bytes of a free page hold the address of the next one.  The model
    keeps it there, in the byte memory of Mem.v. *)

From S2P Require Import Prelude Monad Riscv Mem.

(** Physical memory with the allocator's list head ([kmem.freelist]). *)
Record pmem := PMem {
  ram : mem;
  freelist : Z }.

Section kalloc.

(** [end], the first address after the kernel, is set by the linker. *)
Context (kend : Z).

Definition set_ram (m : mem) (s : pmem) : pmem := PMem m (freelist s).

Definition kfree (pa : Z) : K pmem unit :=
  if negb (pa mod PGSIZE =? 0) || (pa <? kend) || (PHYSTOP <=? pa) then panic "kfree"
  else
    (* Fill with junk to catch dangling refs. *)
    modify (λ s, set_ram (memset (ram s) pa 1 (Z.to_nat PGSIZE)) s) ;;
    acquire L_kmem ;;
    modify (λ s, PMem (store64 (ram s) pa (freelist s)) pa) ;;
    release L_kmem.

Definition kalloc : K pmem Z :=
  acquire L_kmem ;;
  r <- gets freelist ;;
  when (negb (r =? 0)) (modify (λ s, PMem (ram s) (load64 (ram s) r))) ;;
  release L_kmem ;;
  when (negb (r =? 0)) (modify (λ s, set_ram (memset (ram s) r 5 (Z.to_nat PGSIZE)) s)) ;;
  ret r.

Fixpoint freerange_loop (fuel : nat) (p pa_end : Z) : K pmem unit :=
  match fuel with
  | O => λ _ _, NoFuel
  | S f =>
      if p + PGSIZE <=? pa_end then kfree p ;; freerange_loop f (p + PGSIZE) pa_end
      else ret tt
  end.

Definition freerange (pa_start pa_end : Z) : K pmem unit :=
  let p := PGROUNDUP pa_start in
  freerange_loop (S (Z.to_nat ((pa_end - p) / PGSIZE))) p pa_end.

(** [kinit] also initialises [kmem.lock]; a lock is free when no thread holds
    it, so there is nothing to set. *)
Definition kinit : K pmem unit := freerange kend PHYSTOP.

(** ** The free list in memory *)

Definition page (a : Z) : Prop := a mod PGSIZE = 0 ∧ kend <= a < PHYSTOP.

Fixpoint chain (m : mem) (p : Z) (l : list Z) : Prop :=
  match l with
  | [] => p = 0
  | a :: l' => p = a ∧ a ≠ 0 ∧ chain m (load64 m a) l'
  end.

(** [l] is the list of free pages, in the order they will be handed out. *)
Definition free_pages (s : pmem) (l : list Z) : Prop :=
  chain (ram s) (freelist s) l ∧ NoDup l ∧ Forall page l.

Lemma page_disjoint a b x :
  page a → page b → a ≠ b → 0 <= x < PGSIZE → ¬ (b <= a + x < b + PGSIZE).
Proof. intros [Ha _] [Hb _] Hne Hx. unfold PGSIZE in *. dlia. Qed.

Lemma chain_ext m m' p l :
  (∀ a x, a ∈ l → 0 <= x < 8 → mget m' (a + x) = mget m (a + x)) →
  chain m p l → chain m' p l.
Proof.
  revert p. induction l as [| a l IH]; intros p E H; [done |].
  destruct H as (-> & Ha & H). split; [done |]. split; [done |].
  rewrite (load64_ext m m') by (intros; apply E; [left | done]).
  apply IH; [| done]. intros b x Hb. apply E. by right.
Qed.

(** Memory outside page [a] is as before. *)
Definition same_outside (a : Z) (m m' : mem) : Prop :=
  ∀ x, ¬ (a <= x < a + PGSIZE) → mget m' x = mget m x.

Lemma chain_outside m m' a p l :
  same_outside a m m' → page a → Forall page l → a ∉ l → chain m p l → chain m' p l.
Proof.
  intros E Ha Hl Hn. apply chain_ext. intros b x Hb Hx. apply E.
  rewrite Forall_forall in Hl. apply page_disjoint; auto.
  - intros ->. done.
  - unfold PGSIZE. lia.
Qed.

Lemma memset_page_out m a c x :
  ¬ (a <= x < a + PGSIZE) → mget (memset m a c (Z.to_nat PGSIZE)) x = mget m x.
Proof.
  intros H. rewrite memset_spec, Z2Nat.id by (unfold PGSIZE; lia).
  destruct (Z.leb_spec a x), (Z.ltb_spec x (a + PGSIZE)); try done. lia.
Qed.

Lemma memset_page_in m a c x :
  0 <= x < PGSIZE → mget (memset m a c (Z.to_nat PGSIZE)) (a + x) = u8 c.
Proof.
  intros H. rewrite memset_spec, Z2Nat.id by (unfold PGSIZE; lia).
  destruct (Z.leb_spec a (a + x)), (Z.ltb_spec (a + x) (a + PGSIZE)); try done; lia.
Qed.

Lemma kfree_ok pa s h w n l :
  page pa → free_pages s l → pa ∉ l → L_kmem ∉ h → 0 < kend →
  let m := store64 (memset (ram s) pa 1 (Z.to_nat PGSIZE)) pa (freelist s) in
  kfree pa s (Ctx h w n) = Ok tt (PMem m pa) (Ctx h w n) ∧
  free_pages (PMem m pa) (pa :: l) ∧ same_outside pa (ram s) m.
Proof.
  intros Hp (Hc & Hnd & Hl) Hn Hh Hend m.
  assert (same_outside pa (ram s) m) as Hout.
  { intros x Hx. unfold m. rewrite mget_store64_out by (unfold PGSIZE in Hx; lia).
    by apply memset_page_out. }
  assert (0 <= freelist s < 2 ^ 64) as Hfl.
  { destruct l as [| a l]; simpl in Hc; [lia |].
    destruct Hc as (-> & _ & _). inversion Hl as [| ?? Ha _]; subst.
    destruct Ha as [_ [Ha1 Ha2]]. unfold PHYSTOP, KERNBASE in Ha2. lia. }
  split; [| split; [split; [| split] |]]; auto.
  - unfold kfree. destruct Hp as [Hal Hr]. rewrite Hal.
    destruct (Z.ltb_spec pa kend), (Z.leb_spec PHYSTOP pa); try lia. cbn [negb orb Z.eqb].
    kstep. kacq. kstep. krel. done.
  - cbn [chain freelist ram]. split; [done |]. split; [destruct Hp; lia |].
    unfold m. rewrite load64_store64_eq, u64_small by done.
    apply (chain_outside (ram s) _ pa); auto.
  - by apply NoDup_cons.
Qed.

Lemma kalloc_empty s h w n :
  free_pages s [] → L_kmem ∉ h → kalloc s (Ctx h w n) = Ok 0 s (Ctx h w n).
Proof.
  intros (Hc & _ & _) Hh. simpl in Hc. unfold kalloc. kacq. kstep. rewrite Hc.
  cbn [Z.eqb negb]. kstep. krel. kstep. done.
Qed.

Lemma kalloc_ok s h w n a l :
  free_pages s (a :: l) → L_kmem ∉ h →
  let s' := PMem (memset (ram s) a 5 (Z.to_nat PGSIZE)) (load64 (ram s) a) in
  kalloc s (Ctx h w n) = Ok a s' (Ctx h w n) ∧
  free_pages s' l ∧ page a ∧ a ∉ l ∧ a ≠ 0 ∧ same_outside a (ram s) (ram s') ∧
  ∀ x, 0 <= x < PGSIZE → mget (ram s') (a + x) = 5.
Proof.
  intros (Hc & Hnd & Hl) Hh s'. destruct Hc as (Hf & Ha & Hc).
  apply NoDup_cons in Hnd as [Hn Hnd]. apply Forall_cons in Hl as [Hp Hl].
  assert (same_outside a (ram s) (ram s')) as Hout.
  { intros x Hx. by apply memset_page_out. }
  split; [| split; [split; [| split] |]]; auto.
  - unfold kalloc. kacq. kstep. rewrite Hf. destruct (Z.eqb_spec a 0); [done |].
    cbn [negb]. kstep. krel. kstep. done.
  - cbn [freelist ram s']. by apply (chain_outside (ram s) _ a).
  - split; [done |]. split; [done |]. split; [done |]. split; [done |].
    intros x Hx. by apply memset_page_in.
Qed.

(** The pages [freerange] frees, last first. *)
Fixpoint pages_from (n : nat) (p : Z) : list Z :=
  match n with
  | O => []
  | S n' => pages_from n' (p + PGSIZE) ++ [p]
  end.

Lemma pages_from_range n p a :
  a ∈ pages_from n p → p <= a < p + Z.of_nat n * PGSIZE ∧ (a - p) mod PGSIZE = 0.
Proof.
  revert p. induction n as [| n IH]; intros p H; simpl in H; [set_solver |].
  apply elem_of_app in H as [H | H].
  - apply IH in H as [H1 H2]. unfold PGSIZE in *. split; [lia | dlia].
  - apply list_elem_of_singleton in H as ->. unfold PGSIZE.
    rewrite Z.sub_diag. split; [lia | done].
Qed.

Lemma pages_from_in n p a :
  p mod PGSIZE = 0 → a mod PGSIZE = 0 → p <= a < p + Z.of_nat n * PGSIZE →
  a ∈ pages_from n p.
Proof.
  revert p. induction n as [| n IH]; intros p Hp Ha Hr; [lia |].
  cbn [pages_from]. rewrite elem_of_app, list_elem_of_singleton.
  destruct (Z.eq_dec a p) as [-> |]; [by right |]. left.
  apply IH; unfold PGSIZE in *; dlia.
Qed.

Lemma freerange_loop_ok fuel n p pa_end s h w k l :
  p mod PGSIZE = 0 → kend <= p → pa_end <= PHYSTOP → 0 < kend →
  p + Z.of_nat n * PGSIZE <= pa_end < p + Z.of_nat (S n) * PGSIZE →
  (n < fuel)%nat → L_kmem ∉ h → free_pages s l → (∀ a, a ∈ l → a < p) →
  ∃ s', freerange_loop fuel p pa_end s (Ctx h w k) = Ok tt s' (Ctx h w k) ∧
        free_pages s' (pages_from n p ++ l).
Proof.
  revert fuel p s l. induction n as [| n IH]; intros fuel p s l Hp Hk Hpe Hend Hr Hf Hh Hl Hlt;
    (destruct fuel as [| fuel]; [lia |]); cbn [freerange_loop].
  - exists s. destruct (Z.leb_spec (p + PGSIZE) pa_end); [unfold PGSIZE in *; lia |]. done.
  - destruct (Z.leb_spec (p + PGSIZE) pa_end); [| unfold PGSIZE in *; lia].
    destruct (kfree_ok p s h w k l) as (E & Hl' & _); auto.
    + split; [done |]. unfold PGSIZE in *. lia.
    + intros Hin. apply Hlt in Hin. lia.
    + rewrite (bind_ok _ _ _ _ _ _ _ E).
      edestruct (IH fuel (p + PGSIZE)) as (s' & E' & Hs'); try exact Hl'; auto;
        try (unfold PGSIZE in *; lia).
      * unfold PGSIZE in *. dlia.
      * intros a Ha. apply elem_of_cons in Ha as [-> | Ha]; unfold PGSIZE; [lia |].
        apply Hlt in Ha. lia.
      * exists s'. split; [done |]. cbn [pages_from]. by rewrite <- app_assoc.
Qed.


(** ** The allocator as a set of pages

    The abstract allocator: a pool of free pages and the set of pages handed
    out.  [alloc] moves some page from the one to the other, or fails when
    the pool is empty; [free] moves a page back. *)

Inductive call :=
  | Alloc
  | Free (pa : Z).

(** Run a caller's sequence of calls; [out] are the pages it has been given
    and has not freed, and it only frees those. *)
Inductive runs : pmem → list Z → list call → pmem → list Z → Prop :=
  | runs_nil s out : runs s out [] s out
  | runs_alloc s out s1 a x cs s2 out2 :
      kalloc s x = Ok a s1 x → a ≠ 0 →
      runs s1 (a :: out) cs s2 out2 → runs s out (Alloc :: cs) s2 out2
  | runs_alloc_fail s out s1 x cs s2 out2 :
      kalloc s x = Ok 0 s1 x →
      runs s1 out cs s2 out2 → runs s out (Alloc :: cs) s2 out2
  | runs_free s pa out1 out2 s1 x cs s2 out3 :
      kfree pa s x = Ok tt s1 x →
      runs s1 (out1 ++ out2) cs s2 out3 →
      runs s (out1 ++ pa :: out2) (Free pa :: cs) s2 out3.

Lemma kalloc_Ok_held s x a s' :
  kalloc s x = Ok a s' x → L_kmem ∉ held x.
Proof.
  unfold kalloc. intros H Hin. apply bind_Ok_inv in H as (? & ? & ? & H & _).
  unfold acquire in H. by rewrite decide_True in H.
Qed.

Lemma kfree_Ok_held pa s x s' :
  kfree pa s x = Ok tt s' x → L_kmem ∉ held x.
Proof.
  unfold kfree. destruct (_ || _); [done |]. intros H Hin.
  apply bind_Ok_inv in H as ([] & ? & ? & [= _ <-] & H).
  apply bind_Ok_inv in H as ([] & ? & ? & H & _).
  unfold acquire in H. by rewrite decide_True in H.
Qed.

Definition conserves (all : list Z) (s : pmem) (out : list Z) : Prop :=
  ∃ free, free_pages s free ∧ free ++ out ≡ₚ all.

Lemma kalloc_conserves all s out a x s' :
  NoDup all → conserves all s out → kalloc s x = Ok a s' x →
  (a = 0 ∧ conserves all s' out ∧ free_pages s []) ∨
  (a ≠ 0 ∧ conserves all s' (a :: out) ∧ a ∉ out ∧ a ∈ all).
Proof.
  intros Hnd (free & Hf & Hp) H. pose proof (kalloc_Ok_held _ _ _ _ H) as Hh.
  destruct x as [h w n]. simpl in Hh. destruct free as [| b free].
  - rewrite (kalloc_empty s h w n Hf Hh) in H. injection H as <- <-. left.
    split; [done |]. split; [by exists [] | done].
  - destruct (kalloc_ok s h w n b free Hf Hh) as (E & Hf' & Hpg & Hn & Hb & _).
    rewrite E in H. injection H as <- <-. right. split; [done |].
    assert (NoDup ((b :: free) ++ out)) as Hnd' by (by rewrite Hp).
    split; [| split].
    + exists free. split; [done |]. rewrite <- Hp. simpl. by rewrite Permutation_middle.
    + simpl in Hnd'. apply NoDup_cons in Hnd' as [Hnd' _]. rewrite elem_of_app in Hnd'. tauto.
    + rewrite <- Hp. left.
Qed.

Lemma kfree_conserves all s pa out1 out2 x s' :
  NoDup all → Forall page all → 0 < kend →
  conserves all s (out1 ++ pa :: out2) → kfree pa s x = Ok tt s' x →
  conserves all s' (out1 ++ out2).
Proof.
  intros Hnd Hpg Hend (free & Hf & Hp) H. pose proof (kfree_Ok_held _ _ _ _ H) as Hh.
  destruct x as [h w n]. simpl in Hh.
  assert (page pa) as Hpa.
  { rewrite Forall_forall in Hpg. apply Hpg. rewrite <- Hp. set_solver. }
  assert (pa ∉ free) as Hn.
  { intros Hin. rewrite <- Hp in Hnd. apply NoDup_app in Hnd as (_ & Hd & _).
    apply (Hd pa Hin). set_solver. }
  destruct (kfree_ok pa s h w n free Hpa Hf Hn Hh Hend) as (E & Hf' & _).
  rewrite E in H. injection H as <-. exists (pa :: free). split; [done |].
  rewrite <- Hp. rewrite <- Permutation_middle. simpl. by rewrite <- Permutation_middle.
Qed.

(** ** Properties *)

(** C31: [kinit] puts every whole page between [end] and [PHYSTOP] on the free
    list, each once, and returns (it neither panics nor runs forever). *)
Theorem kinit_frees_all s h w n :
  freelist s = 0 → 0 < kend <= PHYSTOP - PGSIZE → L_kmem ∉ h →
  ∃ s' l, kinit s (Ctx h w n) = Ok tt s' (Ctx h w n) ∧ free_pages s' l ∧
    ∀ a, a ∈ l ↔ page a ∧ PGROUNDUP kend <= a.
Proof.
  intros Hf Hend Hh. unfold kinit, freerange.
  destruct (PGROUNDUP_bounds kend) as [Hb Ha].
  { unfold PHYSTOP, KERNBASE, PGSIZE in *. lia. }
  set (p := PGROUNDUP kend) in *.
  set (k := Z.to_nat ((PHYSTOP - p) / PGSIZE)).
  assert (PHYSTOP mod PGSIZE = 0) as Hal by reflexivity.
  assert (Z.of_nat k * PGSIZE = PHYSTOP - p) as Hk.
  { unfold k, PHYSTOP, KERNBASE, PGSIZE in *. rewrite Z2Nat.id; dlia. }
  destruct (freerange_loop_ok (S k) k p PHYSTOP s h w n []) as (s' & E & Hs'); auto;
    try (unfold PGSIZE in *; lia).
  - split; [done |]. split; [constructor | constructor].
  - set_solver.
  - rewrite app_nil_r in Hs'. exists s', (pages_from k p). split; [done |]. split; [done |].
    intros a. split.
    + intros Hin. destruct Hs' as (_ & _ & Hpg). rewrite Forall_forall in Hpg.
      split; [auto |]. apply pages_from_range in Hin. lia.
    + intros [[Ha1 Ha2] Hge]. apply pages_from_in; [done | done | lia].
Qed.

(** pages are conserved. Through any sequence of [kalloc] and [kfree]
    calls that frees only pages it was given, the free list and the pages
    handed out together remain exactly the initial pages, each once: no page
    is handed out twice, none is lost, and the list never goes wrong. *)
Theorem kalloc_kfree_conserve all s out cs s' out' :
  NoDup all → Forall page all → 0 < kend →
  conserves all s out → runs s out cs s' out' →
  conserves all s' out' ∧ NoDup out'.
Proof.
  intros Hnd Hpg Hend Hc Hr. revert Hc.
  induction Hr as [s out | s out s1 a x cs s2 out2 H Ha Hr IH
                  | s out s1 x cs s2 out2 H Hr IH
                  | s pa out1 out2 s1 x cs s2 out3 H Hr IH]; intros Hc.
  - split; [done |]. destruct Hc as (free & _ & Hp). rewrite <- Hp in Hnd.
    by apply NoDup_app in Hnd as (_ & _ & ?).
  - apply IH. destruct (kalloc_conserves all s out a x s1) as [(? & _) | (_ & ? & _)]; auto. done.
  - apply IH. destruct (kalloc_conserves all s out 0 x s1) as [(_ & ? & _) | (? & _)]; auto. done.
  - apply IH. by apply (kfree_conserves all s pa out1 out2 x s1).
Qed.

(** [kalloc] fails exactly when no page is free. *)
Theorem kalloc_fails_iff_empty s h w n l :
  free_pages s l → L_kmem ∉ h →
  ∃ a s', kalloc s (Ctx h w n) = Ok a s' (Ctx h w n) ∧ (a = 0 ↔ l = []).
Proof.
  intros Hl Hh. destruct l as [| b l].
  - exists 0, s. split; [by apply kalloc_empty | done].
  - destruct (kalloc_ok s h w n b l Hl Hh) as (E & _ & _ & _ & Hb & _).
    eexists b, _. split; [exact E |]. naive_solver.
Qed.

End kalloc.

(** *** Witnesses: three pages below [PHYSTOP] *)

Definition kend3 : Z := PHYSTOP - 3 * PGSIZE + 1.

Definition ram0 : pmem := PMem ∅ 0.

Definition after_kinit : pmem :=
  match kinit kend3 ram0 (Ctx [] [] 0) with
  | Ok _ s _ => s
  | _ => ram0
  end.

Lemma after_kinit_pages : free_pages kend3 after_kinit [PHYSTOP - PGSIZE; PHYSTOP - 2 * PGSIZE].
Proof.
  split; [vm_compute; repeat split; discriminate |].
  split; [apply (bool_decide_unpack _); vm_compute; exact I |].
  repeat constructor; vm_compute; intuition congruence.
Qed.

Lemma kinit_frees_all_witness :
  ∃ s' l, kinit kend3 ram0 (Ctx [] [] 0) = Ok tt s' (Ctx [] [] 0) ∧ free_pages kend3 s' l ∧
    ∀ a, a ∈ l ↔ page kend3 a ∧ PGROUNDUP kend3 <= a.
Proof.
  apply (kinit_frees_all kend3 ram0 [] [] 0); [reflexivity | vm_compute; intuition congruence |].
  apply not_elem_of_nil.
Defined.

Lemma no_kmem : L_kmem ∉ @nil lockid.
Proof. apply not_elem_of_nil. Qed.

Lemma kalloc_kfree_conserve_witness :
  ∃ s' out', runs kend3 after_kinit [] [Alloc; Free (PHYSTOP - PGSIZE); Alloc] s' out' ∧
    conserves kend3 [PHYSTOP - PGSIZE; PHYSTOP - 2 * PGSIZE] s' out' ∧ NoDup out'.
Proof.
  destruct (kalloc_ok kend3 after_kinit [] [] 0 _ _ after_kinit_pages no_kmem)
    as (E1 & F1 & P1 & N1 & Z1 & _).
  destruct (kfree_ok kend3 _ _ [] [] 0 _ P1 F1 N1 no_kmem eq_refl) as (E2 & F2 & _).
  destruct (kalloc_ok kend3 _ [] [] 0 _ _ F2 no_kmem) as (E3 & _ & _ & _ & Z3 & _).
  eexists _, _.
  match goal with |- ?R ∧ _ => assert R as Hr end.
  { eapply (runs_alloc _ _ _ _ _ _ _ _ _ E1 Z1).
    eapply (runs_free _ _ _ [] [] _ _ _ _ _ E2).
    eapply (runs_alloc _ _ _ _ _ _ _ _ _ E3 Z3). apply runs_nil. }
  split; [exact Hr |].
  refine (kalloc_kfree_conserve kend3 _ _ _ _ _ _ _ _ _ _ Hr).
  - apply (bool_decide_unpack _). vm_compute. exact I.
  - repeat constructor; vm_compute; intuition congruence.
  - reflexivity.
  - exists [PHYSTOP - PGSIZE; PHYSTOP - 2 * PGSIZE].
    split; [apply after_kinit_pages | by rewrite app_nil_r].
Defined.

Lemma kalloc_fails_iff_empty_witness :
  ∃ a s', kalloc after_kinit (Ctx [] [] 0) = Ok a s' (Ctx [] [] 0) ∧
    (a = 0 ↔ [PHYSTOP - PGSIZE; PHYSTOP - 2 * PGSIZE] = []).
Proof.
  apply (kalloc_fails_iff_empty kend3); [apply after_kinit_pages | apply not_elem_of_nil].
Defined.
