(* ===== verification/Vm.v ===== *)
(** * Page tables (kernel/vm.c)

    Sv39 page tables in the byte memory of Mem.v, built and torn down by the
    functions of vm.c on top of the page allocator.  A [pagetable_t] and a
    [pte_t *] are physical addresses; the kernel's own buffers, which the copy
    functions read and write, are lists of bytes. *)

From S2P Require Import Prelude Monad Riscv Mem Kalloc.

Section vm.

(** Symbols of the linker script: [end], [etext], and the trampoline page. *)
Context (kend etext trampoline : Z).

Definition kfree' : Z → K pmem unit := kfree kend.

Definition rd64 (a : Z) : K pmem Z := gets (λ s, load64 (ram s) a).

Definition wr64 (a v : Z) : K pmem unit := modify (λ s, set_ram (store64 (ram s) a v) s).

(** [memset(p, c, PGSIZE)] *)
Definition memset_page (p c : Z) : K pmem unit :=
  modify (λ s, set_ram (memset (ram s) p c (Z.to_nat PGSIZE)) s).

(** [flag(pte, f)] is the C condition [pte & f]. *)
Definition flag (pte f : Z) : bool := negb (Z.land pte f =? 0).

(** The loop of [walk], from [level] down; the address of the PTE, or 0. *)
Fixpoint walk_loop (level : nat) (pagetable va : Z) (alloc : bool) : K pmem Z :=
  match level with
  | O => ret (pagetable + 8 * PX 0 va)
  | S level' =>
      let pte := pagetable + 8 * PX (Z.of_nat level) va in
      v <- rd64 pte ;;
      if flag v PTE_V then walk_loop level' (PTE2PA v) va alloc
      else if negb alloc then ret 0
      else
        p <- kalloc ;;
        if p =? 0 then ret 0
        else
          memset_page p 0 ;;
          wr64 pte (Z.lor (PA2PTE p) PTE_V) ;;
          walk_loop level' p va alloc
  end.

Definition walk (pagetable va : Z) (alloc : bool) : K pmem Z :=
  if MAXVA <=? va then panic "walk" else walk_loop 2 pagetable va alloc.

Definition walkaddr (pagetable va : Z) : K pmem Z :=
  if MAXVA <=? va then ret 0
  else
    pte <- walk pagetable va false ;;
    if pte =? 0 then ret 0
    else
      v <- rd64 pte ;;
      if negb (flag v PTE_V) then ret 0
      else if negb (flag v PTE_U) then ret 0
      else ret (PTE2PA v).

(** The loop of [mappages].  It ends at [last], or panics in [walk] once [a]
    has reached [MAXVA]; [mappages_fuel] covers both. *)
Fixpoint mappages_loop (fuel : nat) (pagetable a last pa perm : Z) : K pmem Z :=
  match fuel with
  | O => λ _ _, NoFuel
  | S f =>
      pte <- walk pagetable a true ;;
      if pte =? 0 then ret (-1)
      else
        v <- rd64 pte ;;
        if flag v PTE_V then panic "mappages: remap"
        else
          wr64 pte (Z.lor (Z.lor (PA2PTE pa) perm) PTE_V) ;;
          if a =? last then ret 0
          else mappages_loop f pagetable (u64 (a + PGSIZE)) last (u64 (pa + PGSIZE)) perm
  end.

Definition mappages_fuel (a last : Z) : nat :=
  S (Z.to_nat ((if a <=? last then last - a else MAXVA - a) / PGSIZE)).

Definition mappages (pagetable va size pa perm : Z) : K pmem Z :=
  if size =? 0 then panic "mappages: size"
  else
    let a := PGROUNDDOWN va in
    let last := PGROUNDDOWN (u64 (va + size - 1)) in
    mappages_loop (mappages_fuel a last) pagetable a last pa perm.

Definition kvmmap (kpgtbl va pa sz perm : Z) : K pmem unit :=
  r <- mappages kpgtbl va sz pa perm ;;
  when (negb (r =? 0)) (panic "kvmmap").

Fixpoint uvmunmap_loop (fuel : nat) (pagetable a bound : Z) (do_free : bool) : K pmem unit :=
  match fuel with
  | O => λ _ _, NoFuel
  | S f =>
      if a <? bound then
        pte <- walk pagetable a false ;;
        if pte =? 0 then panic "uvmunmap: walk"
        else
          v <- rd64 pte ;;
          if negb (flag v PTE_V) then panic "uvmunmap: not mapped"
          else if PTE_FLAGS v =? PTE_V then panic "uvmunmap: not a leaf"
          else
            when do_free (kfree' (PTE2PA v)) ;;
            wr64 pte 0 ;;
            uvmunmap_loop f pagetable (u64 (a + PGSIZE)) bound do_free
      else ret tt
  end.

Definition uvmunmap (pagetable va npages : Z) (do_free : bool) : K pmem unit :=
  if negb (va mod PGSIZE =? 0) then panic "uvmunmap: not aligned"
  else
    let bound := u64 (va + npages * PGSIZE) in
    uvmunmap_loop (S (Z.to_nat ((bound - va) / PGSIZE))) pagetable va bound do_free.

Definition uvmcreate : K pmem Z :=
  pagetable <- kalloc ;;
  if pagetable =? 0 then ret 0
  else memset_page pagetable 0 ;; ret pagetable.

(** [src] holds the [sz] bytes of the first program. *)
Definition uvminit (pagetable : Z) (src : list Z) : K pmem unit :=
  if PGSIZE <=? Z.of_nat (length src) then panic "inituvm: more than a page"
  else
    p <- kalloc ;;
    memset_page p 0 ;;
    _ <- mappages pagetable 0 PGSIZE p (Z.lor (Z.lor (Z.lor PTE_W PTE_R) PTE_X) PTE_U) ;;
    modify (λ s, set_ram (write_bytes (ram s) p src) s).

Definition uvmdealloc (pagetable oldsz newsz : Z) : K pmem Z :=
  if oldsz <=? newsz then ret oldsz
  else
    (if PGROUNDUP newsz <? PGROUNDUP oldsz then
       let npages := i32 ((PGROUNDUP oldsz - PGROUNDUP newsz) / PGSIZE) in
       uvmunmap pagetable (PGROUNDUP newsz) (u64 npages) true
     else ret tt) ;;
    ret newsz.

Definition UVM_PERM : Z := Z.lor (Z.lor (Z.lor PTE_W PTE_X) PTE_R) PTE_U.

(** The loop of [uvmalloc]: [true] when every page was mapped. *)
Fixpoint uvmalloc_loop (fuel : nat) (pagetable a oldsz newsz : Z) : K pmem bool :=
  match fuel with
  | O => λ _ _, NoFuel
  | S f =>
      if a <? newsz then
        p <- kalloc ;;
        if p =? 0 then
          _ <- uvmdealloc pagetable a oldsz ;; ret false
        else
          memset_page p 0 ;;
          r <- mappages pagetable a PGSIZE p UVM_PERM ;;
          if negb (r =? 0) then
            kfree' p ;; _ <- uvmdealloc pagetable a oldsz ;; ret false
          else uvmalloc_loop f pagetable (u64 (a + PGSIZE)) oldsz newsz
      else ret true
  end.

Definition uvmalloc (pagetable oldsz newsz : Z) : K pmem Z :=
  if newsz <? oldsz then ret oldsz
  else
    let oldsz := PGROUNDUP oldsz in
    ok <- uvmalloc_loop (S (Z.to_nat ((newsz - oldsz) / PGSIZE + 1))) pagetable oldsz oldsz newsz ;;
    ret (if (ok : bool) then newsz else 0).

(** [depth] is the number of levels of page tables below and including this
    one; three suffice for Sv39. *)
Fixpoint freewalk (depth : nat) (pagetable : Z) : K pmem unit :=
  match depth with
  | O => λ _ _, NoFuel
  | S d =>
      for_each (seqZ 0 512) (λ i,
        pte <- rd64 (pagetable + 8 * i) ;;
        if flag pte PTE_V && (Z.land pte (Z.lor (Z.lor PTE_R PTE_W) PTE_X) =? 0) then
          (* this PTE points to a lower-level page table. *)
          freewalk d (PTE2PA pte) ;;
          wr64 (pagetable + 8 * i) 0
        else if flag pte PTE_V then panic "freewalk: leaf"
        else ret tt) ;;
      kfree' pagetable
  end.

Definition uvmfree (pagetable sz : Z) : K pmem unit :=
  when (0 <? sz) (uvmunmap pagetable 0 (PGROUNDUP sz / PGSIZE) true) ;;
  freewalk 3 pagetable.

(** The loop of [uvmcopy] and its error path. *)
Fixpoint uvmcopy_loop (fuel : nat) (old new i sz : Z) : K pmem Z :=
  match fuel with
  | O => λ _ _, NoFuel
  | S f =>
      if i <? sz then
        pte <- walk old i false ;;
        if pte =? 0 then panic "uvmcopy: pte should exist"
        else
          v <- rd64 pte ;;
          if negb (flag v PTE_V) then panic "uvmcopy: page not present"
          else
            let pa := PTE2PA v in
            let flags := PTE_FLAGS v in
            p <- kalloc ;;
            if p =? 0 then uvmunmap new 0 (i / PGSIZE) true ;; ret (-1)
            else
              modify (λ s, set_ram (memmove (ram s) p pa (Z.to_nat PGSIZE)) s) ;;
              r <- mappages new i PGSIZE p flags ;;
              if negb (r =? 0) then
                kfree' p ;; uvmunmap new 0 (i / PGSIZE) true ;; ret (-1)
              else uvmcopy_loop f old new (u64 (i + PGSIZE)) sz
      else ret 0
  end.

Definition uvmcopy (old new sz : Z) : K pmem Z :=
  uvmcopy_loop (S (Z.to_nat (sz / PGSIZE + 1))) old new 0 sz.

Definition uvmclear (pagetable va : Z) : K pmem unit :=
  pte <- walk pagetable va false ;;
  if pte =? 0 then panic "uvmclear"
  else v <- rd64 pte ;; wr64 pte (Z.land v (u64 (Z.lnot PTE_U))).

(** ** Copying between kernel and user memory *)

(** The bytes of [src] that are left are the [len] of the code. *)
Fixpoint copyout_loop (fuel : nat) (pagetable dstva : Z) (src : list Z) : K pmem Z :=
  match src with
  | [] => ret 0
  | _ =>
      match fuel with
      | O => λ _ _, NoFuel
      | S f =>
          let va0 := PGROUNDDOWN dstva in
          pa0 <- walkaddr pagetable va0 ;;
          if pa0 =? 0 then ret (-1)
          else
            let n := Z.to_nat (PGSIZE - (dstva - va0)) in
            modify (λ s, set_ram (write_bytes (ram s) (pa0 + (dstva - va0)) (take n src)) s) ;;
            copyout_loop f pagetable (u64 (va0 + PGSIZE)) (drop n src)
      end
  end.

Definition copyout (pagetable dstva : Z) (src : list Z) : K pmem Z :=
  copyout_loop (length src) pagetable dstva src.

(** Result and the bytes stored at [dst]. *)
Fixpoint copyin_loop (fuel : nat) (pagetable srcva : Z) (len : nat) : K pmem (Z * list Z) :=
  match len with
  | O => ret (0, [])
  | _ =>
      match fuel with
      | O => λ _ _, NoFuel
      | S f =>
          let va0 := PGROUNDDOWN srcva in
          pa0 <- walkaddr pagetable va0 ;;
          if pa0 =? 0 then ret (-1, [])
          else
            let n := Nat.min (Z.to_nat (PGSIZE - (srcva - va0))) len in
            bs <- gets (λ s, read_bytes (ram s) (pa0 + (srcva - va0)) n) ;;
            r <- copyin_loop f pagetable (u64 (va0 + PGSIZE)) (len - n) ;;
            ret (r.1, bs ++ r.2)
      end
  end.

Definition copyin (pagetable srcva : Z) (len : nat) : K pmem (Z * list Z) :=
  copyin_loop len pagetable srcva len.

(** The inner loop of [copyinstr]: the bytes stored and whether a NUL was
    among them, from at most [n] bytes at [p]. *)
Fixpoint copyinstr_page (m : mem) (p : Z) (n : nat) : list Z * bool :=
  match n with
  | O => ([], false)
  | S n' =>
      if mget m p =? 0 then ([0], true)
      else let '(bs, got) := copyinstr_page m (p + 1) n' in (mget m p :: bs, got)
  end.

Fixpoint copyinstr_loop (fuel : nat) (pagetable srcva : Z) (max : nat) : K pmem (Z * list Z) :=
  match max with
  | O => ret (-1, [])
  | _ =>
      match fuel with
      | O => λ _ _, NoFuel
      | S f =>
          let va0 := PGROUNDDOWN srcva in
          pa0 <- walkaddr pagetable va0 ;;
          if pa0 =? 0 then ret (-1, [])
          else
            let n := Nat.min (Z.to_nat (PGSIZE - (srcva - va0))) max in
            b <- gets (λ s, copyinstr_page (ram s) (pa0 + (srcva - va0)) n) ;;
            if (b.2 : bool) then ret (0, b.1)
            else
              r <- copyinstr_loop f pagetable (u64 (va0 + PGSIZE)) (max - n) ;;
              ret (r.1, b.1 ++ r.2)
      end
  end.

Definition copyinstr (pagetable srcva : Z) (max : nat) : K pmem (Z * list Z) :=
  copyinstr_loop max pagetable srcva max.

(** ** The kernel's own page table *)

(** [proc_mapstacks] of proc.c: a mapped page for each kernel stack. *)
Definition proc_mapstacks (kpgtbl : Z) : K pmem unit :=
  for_each (seqZ 0 NPROC) (λ p,
    pa <- kalloc ;;
    if pa =? 0 then panic "kalloc"
    else kvmmap kpgtbl (KSTACK p) pa PGSIZE (Z.lor PTE_R PTE_W)).

Definition kvmmake : K pmem Z :=
  kpgtbl <- kalloc ;;
  memset_page kpgtbl 0 ;;
  (* uart registers *)
  kvmmap kpgtbl UART0 UART0 PGSIZE (Z.lor PTE_R PTE_W) ;;
  (* virtio mmio disk interface *)
  kvmmap kpgtbl VIRTIO0 VIRTIO0 PGSIZE (Z.lor PTE_R PTE_W) ;;
  (* PLIC *)
  kvmmap kpgtbl PLIC PLIC 0x400000 (Z.lor PTE_R PTE_W) ;;
  (* map kernel text executable and read-only. *)
  kvmmap kpgtbl KERNBASE KERNBASE (etext - KERNBASE) (Z.lor PTE_R PTE_X) ;;
  (* map kernel data and the physical RAM we'll make use of. *)
  kvmmap kpgtbl etext etext (PHYSTOP - etext) (Z.lor PTE_R PTE_W) ;;
  (* map the trampoline for trap entry/exit. *)
  kvmmap kpgtbl TRAMPOLINE trampoline PGSIZE (Z.lor PTE_R PTE_X) ;;
  (* map kernel stacks *)
  proc_mapstacks kpgtbl ;;
  ret kpgtbl.

(** [kvminit] stores the result in [kernel_pagetable]; [kvminithart] loads it
    into satp. *)
Definition kvminit : K pmem Z := kvmmake.

Definition kvminithart (kernel_pagetable : Z) (h : hart) : hart :=
  w_satp (MAKE_SATP kernel_pagetable) h.

End vm.

(** [kstep] through the memory operations above. *)
Ltac mstep := unfold rd64, wr64, memset_page; kstep.
