(* ===== verification/VmMap.v ===== *)
(** * Page tables as maps

    What a page table means, read off memory: which page-table pages it has,
    and for each virtual page its leaf entry.  The theorems say what [walk] and
    [mappages] do to that map, and that nothing else changes. *)

From S2P Require Import Prelude Monad Riscv Mem Kalloc Vm.

(** ** The table pages *)

Definition entry (m : mem) (t i : Z) : Z := load64 m (t + 8 * i).

(** The table reached from [root] by the indices of [p], highest level first. *)
Fixpoint table_at (m : mem) (root : Z) (p : list Z) : option Z :=
  match p with
  | [] => Some root
  | i :: p' =>
      if flag (entry m root i) PTE_V then table_at m (PTE2PA (entry m root i)) p' else None
  end.

Definition idx (i : Z) : Prop := 0 <= i < 512.

(** Paths to table pages: at most two indices. *)
Definition tpath (p : list Z) : Prop := (length p <= 2)%nat ∧ Forall idx p.

Definition tables (m : mem) (root t : Z) : Prop :=
  ∃ p, tpath p ∧ table_at m root p = Some t.

(** The valid leaf entry of [va], if there is one. *)
Definition vleaf (m : mem) (root va : Z) : option Z :=
  match table_at m root [PX 2 va; PX 1 va] with
  | Some t => if flag (entry m t (PX 0 va)) PTE_V then Some (entry m t (PX 0 va)) else None
  | None => None
  end.

(** The virtual addresses that the three indices tell apart *)
Definition VASIZE : Z := 2 ^ 39.

Lemma below_MAXVA va : 0 <= va < MAXVA → 0 <= va < VASIZE.
Proof. assert (MAXVA < VASIZE) by done. lia. Qed.

(** Two addresses on the same page. *)
Definition same_page (va va' : Z) : bool := va / PGSIZE =? va' / PGSIZE.

Lemma table_at_app m root p q :
  table_at m root (p ++ q) =
  match table_at m root p with Some t => table_at m t q | None => None end.
Proof.
  revert root. induction p as [| i p IH]; intros root; simpl; [done |].
  destruct (flag _ _); [apply IH | done].
Qed.

(** Reaching a table depends only on the entries along the path. *)
Lemma table_at_ext m m' root p :
  (∀ q j r t, p = q ++ j :: r → table_at m root q = Some t → entry m' t j = entry m t j) →
  table_at m' root p = table_at m root p.
Proof.
  revert root. induction p as [| i p IH]; intros root H; [done |]. simpl.
  rewrite (H [] i p root) by done. destruct (flag (entry m root i) PTE_V) eqn:E; [| done].
  apply IH. intros q j r t -> Hq. apply (H (i :: q) j r); [done |]. simpl. by rewrite E.
Qed.

Lemma tpath_prefix q j r : tpath (q ++ j :: r) → tpath q ∧ (length q <= 1)%nat ∧ idx j.
Proof.
  intros [Hl Hf]. rewrite length_app in Hl. simpl in Hl.
  apply Forall_app in Hf as [Hq Hj]. apply Forall_cons in Hj as [Hj _].
  split; [split; [lia | done] | split; [lia | done]].
Qed.

Lemma tpath_va va : tpath [PX 2 va; PX 1 va].
Proof.
  split; [simpl; lia |]. repeat constructor; unfold idx; by apply PX_range.
Qed.

Lemma entry_ext m m' t i :
  idx i → (∀ x, 0 <= x < PGSIZE → mget m' (t + x) = mget m (t + x)) → entry m' t i = entry m t i.
Proof.
  intros Hi H. apply load64_ext. intros x Hx. rewrite <- Z.add_assoc. apply H.
  unfold idx, PGSIZE in *. lia.
Qed.

Lemma entry_zero m t i :
  idx i → (∀ x, 0 <= x < PGSIZE → mget m (t + x) = 0) → entry m t i = 0.
Proof.
  intros Hi H. unfold entry. rewrite (load64_ext ∅ m).
  - vm_compute. done.
  - intros x Hx. rewrite <- Z.add_assoc, H by (unfold idx, PGSIZE in *; lia). done.
Qed.

Lemma flag_lor_V e : flag (Z.lor e PTE_V) PTE_V = true.
Proof.
  unfold flag. change PTE_V with 1. destruct (Z.eqb_spec (Z.land (Z.lor e 1) 1) 0) as [H |]; [| done].
  apply (f_equal (λ z, Z.testbit z 0)) in H. rewrite Z.land_spec, Z.lor_spec in H.
  rewrite orb_true_r in H. done.
Qed.

Lemma same_page_px va va' :
  0 <= va < VASIZE → 0 <= va' < VASIZE →
  (PX 2 va = PX 2 va' ∧ PX 1 va = PX 1 va' ∧ PX 0 va = PX 0 va') ↔ same_page va va' = true.
Proof.
  intros H H'. unfold same_page. rewrite Z.eqb_eq, (PX_page va), (PX_page va') by done.
  pose proof (PX_range 0 va). pose proof (PX_range 1 va). pose proof (PX_range 2 va).
  pose proof (PX_range 0 va'). pose proof (PX_range 1 va'). pose proof (PX_range 2 va').
  split; [intros (-> & -> & ->); done |]. intros E. lia.
Qed.

Section vmmap.
Context (kend : Z) (Hkend : 0 < kend).
Notation page := (page kend).
Notation free_pages := (free_pages kend).

(** An entry that may be followed: it is no leaf. *)
Definition inner (e : Z) : Prop := Z.land e (Z.lor (Z.lor PTE_R PTE_W) PTE_X) = 0.

(** A table is well formed when its table pages are pages of RAM, each reached
    by one path only, and the valid entries above the last level are no leaves. *)
Record wf (m : mem) (root : Z) : Prop := {
  wf_page : ∀ t, tables m root t → page t;
  wf_inj : ∀ p q t, tpath p → tpath q →
             table_at m root p = Some t → table_at m root q = Some t → p = q;
  wf_inner : ∀ q t i, tpath q → (length q <= 1)%nat → table_at m root q = Some t → idx i →
               flag (entry m t i) PTE_V = true → inner (entry m t i) }.

(** With the allocator: no table page is free. *)
Record vm_ok (s : pmem) (l : list Z) (root : Z) : Prop := {
  ok_free : free_pages s l;
  ok_wf : wf (ram s) root;
  ok_used : ∀ t, tables (ram s) root t → t ∉ l }.

Lemma page_range t : page t → 0 < t < 2 ^ 56.
Proof. intros [_ H]. unfold PHYSTOP, KERNBASE in H. lia. Qed.

Lemma pages_apart t t' x y :
  page t → page t' → t ≠ t' → 0 <= x < PGSIZE → 0 <= y < PGSIZE → t + x ≠ t' + y.
Proof. intros [Ht _] [Ht' _]. unfold PGSIZE in *. dlia. Qed.

Lemma entry_store m t t' i j v :
  page t → page t' → idx i → idx j →
  entry (store64 m (t + 8 * i) v) t' j =
  if (t =? t') && (i =? j) then u64 v else entry m t' j.
Proof.
  intros Ht Ht' Hi Hj. unfold entry, idx in *.
  destruct (Z.eqb_spec t t') as [-> | Hne]; cbn [andb].
  - destruct (Z.eqb_spec i j) as [-> |]; [by rewrite load64_store64_eq |].
    apply load64_store64_ne. lia.
  - destruct Ht as [Ht _], Ht' as [Ht' _]. apply load64_store64_ne.
    unfold PGSIZE in *. dlia.
Qed.

Lemma root_page m root : wf m root → page root.
Proof. intros H. apply (wf_page _ _ H). by exists []; repeat split; simpl; [lia | constructor]. Qed.

(** *** Changes outside the tables *)

Section agree.
Context (m m' : mem) (root : Z) (Hwf : wf m root).
Context (Hsame : ∀ t x, tables m root t → 0 <= x < PGSIZE → mget m' (t + x) = mget m (t + x)).

Lemma agree_entry t j : tables m root t → idx j → entry m' t j = entry m t j.
Proof. intros Ht Hj. apply entry_ext; [done |]. intros x Hx. by apply Hsame. Qed.

Lemma agree_table_at p : tpath p → table_at m' root p = table_at m root p.
Proof.
  intros Hp. apply table_at_ext. intros q j r t -> Ht.
  apply tpath_prefix in Hp as (Hq & _ & Hj). apply agree_entry; [by exists q | done].
Qed.

Lemma agree_tables t : tables m' root t ↔ tables m root t.
Proof.
  unfold tables. split; intros (p & Hp & E); exists p; (split; [done |]);
    [by rewrite agree_table_at in E | by rewrite agree_table_at].
Qed.

Lemma agree_vleaf va : vleaf m' root va = vleaf m root va.
Proof.
  unfold vleaf. rewrite agree_table_at by apply tpath_va.
  destruct (table_at m root [PX 2 va; PX 1 va]) as [t |] eqn:E; [| done].
  rewrite agree_entry; [done | | unfold idx; by apply PX_range].
  eexists. split; [apply tpath_va | done].
Qed.

Lemma agree_wf : wf m' root.
Proof.
  constructor.
  - intros t H. apply agree_tables in H. by apply (wf_page _ _ Hwf).
  - intros p q t Hp Hq E1 E2. rewrite agree_table_at in E1, E2 by done. by apply (wf_inj _ _ Hwf p q t).
  - intros q t i Hq Hl E Hi. rewrite agree_table_at in E by done. rewrite agree_entry; [| by exists q | done].
    by apply (wf_inner _ _ Hwf q).
Qed.
End agree.

(** *** Changing a leaf entry *)

Lemma table_at_leaf_store m root p t i v q :
  wf m root → tpath p → length p = 2%nat → table_at m root p = Some t → idx i → tpath q →
  table_at (store64 m (t + 8 * i) v) root q = table_at m root q.
Proof.
  intros Hwf Hp Hl Ht Hi Hq. apply table_at_ext. intros q1 j r t' -> Ht'.
  apply tpath_prefix in Hq as (Hq1 & Hl1 & Hj).
  rewrite entry_store; try done.
  - destruct (Z.eqb_spec t t') as [-> |]; [| done].
    rewrite (wf_inj _ _ Hwf p q1 t') in Hl by done. lia.
  - apply (wf_page _ _ Hwf). by exists p.
  - apply (wf_page _ _ Hwf). by exists q1.
Qed.

Lemma tables_leaf_store m root p t i v t' :
  wf m root → tpath p → length p = 2%nat → table_at m root p = Some t → idx i →
  tables (store64 m (t + 8 * i) v) root t' ↔ tables m root t'.
Proof.
  intros Hwf Hp Hl Ht Hi. unfold tables.
  split; intros (q & Hq & E); exists q; (split; [done |]).
  - by rewrite (table_at_leaf_store m root p t i v q) in E.
  - by rewrite (table_at_leaf_store m root p t i v q).
Qed.

Lemma wf_leaf_store m root p t i v :
  wf m root → tpath p → length p = 2%nat → table_at m root p = Some t → idx i →
  wf (store64 m (t + 8 * i) v) root.
Proof.
  intros Hwf Hp Hl Ht Hi. constructor.
  - intros t' H. apply (tables_leaf_store m root p t i v) in H; [| done ..].
    by apply (wf_page _ _ Hwf).
  - intros q1 q2 t' H1 H2 E1 E2.
    rewrite (table_at_leaf_store m root p t i v) in E1, E2 by done.
    by apply (wf_inj _ _ Hwf q1 q2 t').
  - intros q t' j Hq Hql Eq Hj. rewrite (table_at_leaf_store m root p t i v) in Eq by done.
    rewrite entry_store; [| apply (wf_page _ _ Hwf); by exists p | apply (wf_page _ _ Hwf); by exists q | done | done].
    destruct (Z.eqb_spec t t') as [-> |]; [rewrite (wf_inj _ _ Hwf p q t') in Hl by done; lia |].
    by apply (wf_inner _ _ Hwf q).
Qed.

Lemma vleaf_leaf_store m root va va' t v :
  wf m root → table_at m root [PX 2 va; PX 1 va] = Some t →
  0 <= va < VASIZE → 0 <= va' < VASIZE → 0 <= v < 2 ^ 64 →
  vleaf (store64 m (t + 8 * PX 0 va) v) root va' =
  if same_page va va' then (if flag v PTE_V then Some v else None) else vleaf m root va'.
Proof.
  intros Hwf Ht Hva Hva' Hv. unfold vleaf.
  rewrite (table_at_leaf_store m root [PX 2 va; PX 1 va] t (PX 0 va) v _ Hwf (tpath_va va) eq_refl Ht)
    by (first [apply tpath_va | unfold idx; by apply PX_range]).
  pose proof (same_page_px va va' Hva Hva') as Hsp.
  destruct (table_at m root [PX 2 va'; PX 1 va']) as [t' |] eqn:E'.
  - rewrite entry_store;
      [ | apply (wf_page _ _ Hwf); eexists; split; [apply tpath_va | done] ..
        | unfold idx; by apply PX_range | unfold idx; by apply PX_range ].
    destruct (Z.eqb_spec t t') as [<- | Hne]; cbn [andb].
    + pose proof (wf_inj _ _ Hwf _ _ t (tpath_va va) (tpath_va va') Ht E') as Hpp.
      injection Hpp as Hp2 Hp1.
      destruct (Z.eqb_spec (PX 0 va) (PX 0 va')) as [Hp0 | Hp0].
      * rewrite (proj1 Hsp) by done. rewrite u64_small by done. done.
      * destruct (same_page va va'); [| done]. destruct Hp0. by apply Hsp.
    + destruct (same_page va va'); [| done]. destruct Hsp as [_ Hsp].
      destruct (Hsp eq_refl) as (H2 & H1 & _). rewrite <- H2, <- H1 in E'. congruence.
  - destruct (same_page va va'); [| done]. destruct Hsp as [_ Hsp].
    destruct (Hsp eq_refl) as (H2 & H1 & _). rewrite <- H2, <- H1 in E'. congruence.
Qed.

(** *** Adding a table page *)

Lemma inner_PTE_V n : page n → inner (Z.lor (PA2PTE n) PTE_V).
Proof.
  intros Hn. pose proof (page_range n Hn). unfold inner. by rewrite PTE_flag_bit by (change PTE_V with 1; lia || done).
Qed.

Section new_table.
Context (m m' : mem) (root : Z) (q : list Z) (t i n : Z).
Context (Hwf : wf m root) (Hq : tpath q) (Hql : (length q <= 1)%nat) (Hi : idx i).
Context (Ht : table_at m root q = Some t) (Hinv : flag (entry m t i) PTE_V = false).
Context (Hn : page n) (Hfresh : ¬ tables m root n).
Context (Hold : ∀ t' j, tables m root t' → idx j → (t', j) ≠ (t, i) → entry m' t' j = entry m t' j).
Context (Hnew : entry m' t i = Z.lor (PA2PTE n) PTE_V).
Context (Hzero : ∀ j, idx j → entry m' n j = 0).

Lemma new_table_other p :
  tpath p → ¬ (∃ r, p = q ++ i :: r) → table_at m' root p = table_at m root p.
Proof.
  intros Hp Hno. apply table_at_ext. intros q' j r t' -> Ht'.
  apply tpath_prefix in Hp as (Hq' & _ & Hj). apply Hold; [by exists q' | done |].
  intros [= -> ->]. destruct Hno. exists r. by rewrite (wf_inj _ _ Hwf q q' t).
Qed.

Lemma new_table_child r :
  Forall idx r → table_at m' root (q ++ i :: r) = match r with [] => Some n | _ => None end.
Proof.
  intros Hr. rewrite table_at_app, new_table_other, Ht.
  - cbn [table_at]. rewrite Hnew, flag_lor_V, PTE2PA_PA2PTE.
    + destruct r as [| j r]; [done |]. apply Forall_cons in Hr as [Hj _].
      cbn [table_at]. by rewrite Hzero.
    + pose proof (page_range n Hn). lia.
    + by destruct Hn.
    + done.
  - done.
  - intros (r' & E). apply (f_equal length) in E. rewrite length_app in E. simpl in E. lia.
Qed.

Lemma new_table_old_child r : table_at m root (q ++ i :: r) = None.
Proof. rewrite table_at_app, Ht. cbn [table_at]. by rewrite Hinv. Qed.

(** Every path: the new one, one below it, or as before. *)
Lemma new_table_cases p :
  tpath p →
  (p = q ++ [i] ∧ table_at m' root p = Some n ∧ table_at m root p = None) ∨
  (∃ j r, p = q ++ i :: j :: r ∧ table_at m' root p = None ∧ table_at m root p = None) ∨
  (p ≠ q ++ [i] ∧ table_at m' root p = table_at m root p).
Proof.
  intros Hp. destruct (decide (take (S (length q)) p = q ++ [i])) as [E | E].
  - pose proof (take_drop (S (length q)) p) as Hp'. rewrite E in Hp'.
    rewrite <- app_assoc in Hp'. simpl in Hp'. set (r := drop (S (length q)) p) in *.
    assert (Forall idx r) as Hr.
    { destruct Hp as [_ Hp]. rewrite <- Hp' in Hp. apply Forall_app in Hp as [_ Hp].
      by apply Forall_cons in Hp as [_ ?]. }
    rewrite <- Hp'. rewrite new_table_child, new_table_old_child by done.
    destruct r as [| j r]; [by left | right; left]. by exists j, r.
  - right; right. split.
    + intros ->. destruct E. apply take_ge. rewrite length_app. simpl. lia.
    + apply new_table_other; [done |]. intros (r & ->). destruct E.
      replace (q ++ i :: r) with ((q ++ [i]) ++ r) by (by rewrite <- app_assoc).
      apply take_app_length'. rewrite length_app. simpl. lia.
Qed.

Lemma new_table_tables t' : tables m' root t' ↔ tables m root t' ∨ t' = n.
Proof.
  split.
  - intros (p & Hp & E). destruct (new_table_cases p Hp) as [(_ & E' & _) | [(? & ? & _ & E' & _) | [_ E']]].
    + right. congruence.
    + congruence.
    + left. exists p. split; [done | congruence].
  - intros [(p & Hp & E) | ->].
    + exists p. split; [done |].
      destruct (new_table_cases p Hp) as [(_ & _ & E') | [(? & ? & _ & _ & E') | [_ E']]]; congruence.
    + exists (q ++ [i]). split.
      * destruct Hq as [_ Hf]. split; [rewrite length_app; simpl; lia |].
        apply Forall_app. split; [done |]. by constructor.
      * by rewrite (new_table_child []).
Qed.

Lemma new_table_wf : wf m' root.
Proof.
  constructor.
  - intros t' H. apply new_table_tables in H as [H | ->]; [by apply (wf_page _ _ Hwf) | done].
  - intros p1 p2 t' H1 H2 E1 E2.
    destruct (new_table_cases p1 H1) as [(-> & F1 & _) | [(? & ? & _ & F1 & _) | [N1 F1]]]; [| congruence |];
    destruct (new_table_cases p2 H2) as [(-> & F2 & _) | [(? & ? & _ & F2 & _) | [N2 F2]]];
      try congruence.
    + destruct Hfresh. exists p2. split; [done |]. congruence.
    + destruct Hfresh. exists p1. split; [done |]. congruence.
    + apply (wf_inj _ _ Hwf p1 p2 t'); congruence.
  - intros p t' j Hp Hl E Hj. destruct (decide ((t', j) = (t, i))) as [[= -> ->] | Hne]; [intros _; rewrite Hnew; by apply inner_PTE_V |].
    destruct (new_table_cases p Hp) as [(-> & F & _) | [(? & ? & _ & F & _) | [_ F]]]; [| congruence |]; rewrite F in E.
    + injection E as <-. by rewrite Hzero.
    + rewrite Hold; [by apply (wf_inner _ _ Hwf p) | by exists p | done | done].
Qed.

(** No leaf entry appears or disappears. *)
Lemma new_table_vleaf va : vleaf m' root va = vleaf m root va.
Proof.
  unfold vleaf. destruct (new_table_cases _ (tpath_va va)) as [(Ep & -> & ->) | [(? & ? & _ & -> & ->) | [Np E]]].
  - rewrite Hzero by (unfold idx; by apply PX_range). done.
  - done.
  - rewrite E. destruct (table_at m root [PX 2 va; PX 1 va]) as [t' |] eqn:E'; [| done].
    rewrite Hold; [done | | unfold idx; by apply PX_range |].
    + exists [PX 2 va; PX 1 va]. split; [apply tpath_va | done].
    + intros [= -> _]. rewrite (wf_inj _ _ Hwf q _ t Hq (tpath_va va) Ht E') in Hql.
      simpl in Hql. lia.
Qed.

End new_table.

(** ** What an operation that adds table pages may touch

    [l] and [l'] are the free pages before and after: the new table pages come
    from the front of the free list, and memory that was neither a table page
    nor free is unchanged. *)
Record vm_ext (root : Z) (s : pmem) (l : list Z) (s' : pmem) (l' : list Z) : Prop := {
  ext_used : ∃ used, l = used ++ l' ∧ ∀ t, tables (ram s') root t ↔ tables (ram s) root t ∨ t ∈ used;
  ext_frame : ∀ x, (∀ t, tables (ram s) root t ∨ t ∈ l → ¬ (t <= x < t + PGSIZE)) →
                mget (ram s') x = mget (ram s) x }.

Lemma vm_ext_refl root s l : vm_ext root s l s l.
Proof. constructor; [| done]. exists []. split; [done |]. intros t. split; [by left | by intros [? | []%not_elem_of_nil]]. Qed.

Lemma vm_ext_trans root s1 l1 s2 l2 s3 l3 :
  vm_ext root s1 l1 s2 l2 → vm_ext root s2 l2 s3 l3 → vm_ext root s1 l1 s3 l3.
Proof.
  intros [(u1 & -> & T1) F1] [(u2 & -> & T2) F2]. constructor.
  - exists (u1 ++ u2). split; [by rewrite app_assoc |]. intros t. rewrite T2, T1, elem_of_app. tauto.
  - intros x H. rewrite F2, F1; [done | done |]. intros t Ht. apply H. rewrite T1 in Ht. rewrite !elem_of_app in *. tauto.
Qed.

Lemma wr64_ok a v s x : wr64 a v s x = Ok tt (set_ram (store64 (ram s) a v) s) x.
Proof. done. Qed.

(** A store into a table page keeps the free list. *)
Lemma free_pages_store s l t i v :
  page t → t ∉ l → idx i → free_pages s l → free_pages (set_ram (store64 (ram s) (t + 8 * i) v) s) l.
Proof.
  intros Ht Hn Hi (Hc & Hnd & Hl). split; [| done].
  apply (chain_outside kend (ram s) _ t); try done.
  intros x Hx. apply mget_store64_out. unfold idx, PGSIZE in *. lia.
Qed.

Lemma vm_ok_leaf_store s l root p t i v :
  vm_ok s l root → tpath p → length p = 2%nat → table_at (ram s) root p = Some t → idx i →
  let s' := set_ram (store64 (ram s) (t + 8 * i) v) s in
  vm_ok s' l root ∧ vm_ext root s l s' l.
Proof.
  intros [Hf Hwf Hu] Hp Hl Ht Hi s'.
  assert (tables (ram s) root t) as Htt by (by exists p).
  split; constructor.
  - apply free_pages_store; [by apply (wf_page _ _ Hwf) | by apply Hu | done | done].
  - by apply (wf_leaf_store _ _ p).
  - intros t' H. apply Hu. by apply (tables_leaf_store (ram s) root p t i v) in H.
  - exists []. split; [done |]. intros t'. unfold s'. cbn [ram set_ram].
    rewrite (tables_leaf_store (ram s) root p t i v t') by done. split; [by left | by intros [? | []%not_elem_of_nil]].
  - intros x H. apply mget_store64_out. specialize (H t (or_introl Htt)).
    unfold idx, PGSIZE in *. lia.
Qed.

(** One step of [walk] that has to allocate: the page [n] from the free list,
    zeroed and entered at index [i] of table [t]. *)
Definition alloc_step (s s1 : pmem) (t i n : Z) : pmem :=
  let m := memset (ram s1) n 0 (Z.to_nat PGSIZE) in
  set_ram (store64 m (t + 8 * i) (Z.lor (PA2PTE n) PTE_V)) s1.

Lemma PTE_V_entry n : page n → u64 (Z.lor (PA2PTE n) PTE_V) = Z.lor (PA2PTE n) PTE_V.
Proof.
  intros Hn. pose proof (page_range n Hn). apply u64_small.
  pose proof (PTE_entry_range n 1 ltac:(lia) ltac:(lia)). change PTE_V with 1. lia.
Qed.

(** The entries of the tables after the step. *)
Lemma alloc_step_entries s s1 root t i n :
  (∀ t', tables (ram s) root t' → page t') → page n → ¬ tables (ram s) root n →
  tables (ram s) root t → idx i → same_outside n (ram s) (ram s1) →
  let m' := ram (alloc_step s s1 t i n) in
  (∀ t' j, tables (ram s) root t' → idx j → (t', j) ≠ (t, i) → entry m' t' j = entry (ram s) t' j) ∧
  entry m' t i = Z.lor (PA2PTE n) PTE_V ∧
  (∀ j, idx j → entry m' n j = 0).
Proof.
  intros Hpg Hn Hfresh Ht Hi Hout m'. unfold m'. cbn [ram set_ram alloc_step].
  split; [| split].
  - intros t' j Ht' Hj Hne. rewrite entry_store by auto.
    destruct (Z.eqb_spec t t'), (Z.eqb_spec i j); cbn [andb]; try congruence;
      (apply entry_ext; [done |]; intros x Hx; rewrite memset_page_out;
       [apply Hout | ]; apply (page_disjoint kend); auto; by intros ->).
  - rewrite entry_store, !Z.eqb_refl by auto. cbn [andb]. by apply PTE_V_entry.
  - intros j Hj. rewrite entry_store by auto.
    destruct (Z.eqb_spec t n) as [-> |]; [done |]. cbn [andb]. apply entry_zero; [done |].
    intros x Hx. by apply memset_page_in.
Qed.

Lemma alloc_step_ok s s1 l root q t i n :
  vm_ok s (n :: l) root → tpath q → (length q <= 1)%nat → idx i →
  table_at (ram s) root q = Some t → flag (entry (ram s) t i) PTE_V = false →
  free_pages s1 l → same_outside n (ram s) (ram s1) →
  let s' := alloc_step s s1 t i n in
  vm_ok s' l root ∧ vm_ext root s (n :: l) s' l ∧
  table_at (ram s') root (q ++ [i]) = Some n ∧
  ∀ va, vleaf (ram s') root va = vleaf (ram s) root va.
Proof.
  intros [Hf Hwf Hu] Hq Hql Hi Ht Hinv Hf1 Hout s'.
  destruct Hf as (_ & Hnd & Hpg). apply NoDup_cons in Hnd as [Hnl _].
  apply Forall_cons in Hpg as [Hn Hpl].
  assert (tables (ram s) root t) as Htt by (by exists q).
  assert (¬ tables (ram s) root n) as Hfresh by (intros H; apply (Hu n H); left).
  destruct (alloc_step_entries s s1 root t i n (wf_page _ _ Hwf) Hn Hfresh Htt Hi Hout)
    as (Hold & Hnew & Hzero). fold s' in Hold, Hnew, Hzero.
  pose proof (new_table_tables (ram s) (ram s') root q t i n Hwf Hq Hql Hi Ht Hinv Hn Hold Hnew Hzero) as Htab.
  split; [constructor | split; [constructor | split]].
  - apply (free_pages_store (set_ram _ s1)); [by apply (wf_page _ _ Hwf) | | done |].
    + intros Hin. apply (Hu t Htt). by right.
    + destruct Hf1 as (Hc1 & Hr1). split; [| done]. cbn [ram set_ram freelist].
      apply (chain_outside kend (ram s1) _ n); [| exact Hn | exact Hpl | exact Hnl | exact Hc1].
      intros x Hx. by apply memset_page_out.
  - by apply (new_table_wf (ram s) (ram s') root q t i n).
  - intros t' H. apply Htab in H as [H | ->]; [| done]. intros Hin. apply (Hu t' H). by right.
  - exists [n]. split; [done |]. intros t'. rewrite Htab. by rewrite list_elem_of_singleton.
  - intros x H. cbn [ram set_ram s' alloc_step].
    assert (n ∈ n :: l) as Hnin by left.
    pose proof (H t (or_introl Htt)). pose proof (H n (or_intror Hnin)).
    rewrite mget_store64_out by (unfold idx, PGSIZE in *; lia).
    rewrite memset_page_out by done. by apply Hout.
  - by apply (new_table_child (ram s) (ram s') root q t i n Hwf Hq Hql Ht Hn Hold Hnew Hzero []).
  - by apply (new_table_vleaf (ram s) (ram s') root q t i n).
Qed.

(** ** walk *)

(** The indices [walk] follows from [level] down. *)
Fixpoint px_path (level : nat) (va : Z) : list Z :=
  match level with
  | O => []
  | S l => PX (Z.of_nat level) va :: px_path l va
  end.

Lemma walk_loop_false level t va s x :
  walk_loop level t va false s x =
  Ok (match table_at (ram s) t (px_path level va) with
      | Some t' => t' + 8 * PX 0 va | None => 0 end) s x.
Proof.
  revert t. induction level as [| level IH]; intros t; [done |].
  cbn [walk_loop px_path table_at]. mstep. unfold entry.
  destruct (flag _ PTE_V); [apply IH | done].
Qed.

Lemma walk_false root va s x :
  0 <= va < MAXVA →
  walk root va false s x =
  Ok (match table_at (ram s) root [PX 2 va; PX 1 va] with
      | Some t => t + 8 * PX 0 va | None => 0 end) s x.
Proof.
  intros H. unfold walk. destruct (Z.leb_spec MAXVA va); [lia |]. apply walk_loop_false.
Qed.

(** What [walk] with [alloc] returns: the address of the leaf entry, or 0 when
    the free list ran out. *)
Definition walked (root va pte : Z) (s' : pmem) (l' : list Z) : Prop :=
  (pte = 0 ∧ l' = []) ∨
  ∃ t, table_at (ram s') root [PX 2 va; PX 1 va] = Some t ∧ pte = t + 8 * PX 0 va ∧ pte ≠ 0.

Lemma table_entry_nonzero m root p t i :
  wf m root → tpath p → table_at m root p = Some t → idx i → t + 8 * i ≠ 0.
Proof.
  intros Hwf Hp Ht Hi.
  assert (page t) as Hpg by (apply (wf_page _ _ Hwf); by exists p).
  pose proof (page_range t Hpg). unfold idx in Hi. lia.
Qed.

Lemma walk_loop_true level q t va root s l h w n :
  vm_ok s l root → table_at (ram s) root q = Some t →
  q ++ px_path level va = [PX 2 va; PX 1 va] → L_kmem ∉ h →
  ∃ pte s' l',
    walk_loop level t va true s (Ctx h w n) = Ok pte s' (Ctx h w n) ∧
    vm_ok s' l' root ∧ vm_ext root s l s' l' ∧ walked root va pte s' l' ∧ (length l <= length l' + level)%nat ∧
    ∀ va', vleaf (ram s') root va' = vleaf (ram s) root va'.
Proof.
  revert q t s l. induction level as [| level IH]; intros q t s l Hok Ht Hq Hh.
  { simpl in Hq. rewrite app_nil_r in Hq. subst q.
    exists (t + 8 * PX 0 va), s, l. split; [done |]. split; [done |].
    split; [apply vm_ext_refl |]. split; [| split; [lia | done]]. right. exists t. split; [done |].
    split; [done |]. apply (table_entry_nonzero (ram s) root [PX 2 va; PX 1 va]);
      [apply Hok | apply tpath_va | done | unfold idx; by apply PX_range]. }
  cbn [walk_loop px_path] in *. set (i := PX (Z.of_nat (S level)) va) in *.
  assert (tpath q ∧ (length q <= 1)%nat ∧ idx i) as (Htq & Hql & Hi).
  { apply (tpath_prefix q i (px_path level va)). rewrite Hq. apply tpath_va. }
  mstep. fold (entry (ram s) t i). destruct (flag (entry (ram s) t i) PTE_V) eqn:E.
  - destruct (IH (q ++ [i]) (PTE2PA (entry (ram s) t i)) s l) as (pte & s' & l' & Er & Hok2 & Hext2 & Hw & Hlen & Hv2); [done | | by rewrite <- app_assoc | done |].
    + rewrite table_at_app, Ht. cbn [table_at]. by rewrite E.
    + exists pte, s', l'. do 4 (split; [done |]). split; [lia | done].
  - cbn [negb]. destruct l as [| a l].
    + kstep (kalloc_empty kend s h w n (ok_free _ _ _ Hok) Hh). cbn [Z.eqb].
      exists 0, s, []. split; [done |]. split; [done |]. split; [apply vm_ext_refl |].
      split; [by left |]. split; [simpl; lia | done].
    + destruct (kalloc_ok kend s h w n a l (ok_free _ _ _ Hok) Hh) as (Ek & Hf1 & _ & _ & Ha & Hout & _).
      kstep Ek. destruct (Z.eqb_spec a 0); [done |].
      destruct (alloc_step_ok s _ l root q t i a Hok Htq Hql Hi Ht E Hf1 Hout) as (Hok' & Hext & Ht' & Hv).
      unfold alloc_step in Hok', Hext, Ht', Hv. mstep. mstep.
      edestruct (IH (q ++ [i]) a) as (pte & s' & l' & Er & Hok2 & Hext2 & Hw & Hlen & Hv2);
        [exact Hok' | exact Ht' | by rewrite <- app_assoc | done |].
      exists pte, s', l'. split; [refine Er |]. split; [done |].
      split; [by eapply vm_ext_trans |]. split; [done |]. split; [simpl; lia |]. intros va'. by rewrite Hv2, Hv.
Qed.

Lemma walk_true root va s l h w n :
  vm_ok s l root → 0 <= va < MAXVA → L_kmem ∉ h →
  ∃ pte s' l',
    walk root va true s (Ctx h w n) = Ok pte s' (Ctx h w n) ∧
    vm_ok s' l' root ∧ vm_ext root s l s' l' ∧ walked root va pte s' l' ∧ (length l <= length l' + 2)%nat ∧
    ∀ va', vleaf (ram s') root va' = vleaf (ram s) root va'.
Proof.
  intros Hok Hva Hh. unfold walk. destruct (Z.leb_spec MAXVA va); [lia |].
  by apply (walk_loop_true 2 []).
Qed.

(** ** mappages *)

(** The leaf entry [mappages] writes. *)
Definition leaf_pte (pa perm : Z) : Z := Z.lor (Z.lor (PA2PTE pa) perm) PTE_V.

(** A map of leaf entries with [j] pages mapped from [a] to [pa] on. *)
Definition map_run (f : Z → option Z) (a : Z) (j : nat) (pa perm va : Z) : option Z :=
  if (a <=? va) && (va <? a + Z.of_nat j * PGSIZE)
  then Some (leaf_pte (pa + (PGROUNDDOWN va - a)) perm) else f va.

Lemma leaf_pte_lor pa perm : leaf_pte pa perm = Z.lor (PA2PTE pa) (Z.lor perm PTE_V).
Proof. unfold leaf_pte. by rewrite Z.lor_assoc. Qed.

Lemma perm_V_range perm : 0 <= perm < 2 ^ 10 → 0 <= Z.lor perm PTE_V < 2 ^ 10.
Proof. intros H. apply lor_range; [lia | done |]. change PTE_V with 1. lia. Qed.

Lemma leaf_pte_range pa perm : 0 <= pa < 2 ^ 56 → 0 <= perm < 2 ^ 10 → 0 <= leaf_pte pa perm < 2 ^ 54.
Proof. intros. rewrite leaf_pte_lor. apply PTE_entry_range; [done |]. by apply perm_V_range. Qed.

Lemma leaf_pte_valid pa perm : flag (leaf_pte pa perm) PTE_V = true.
Proof. apply flag_lor_V. Qed.

Lemma leaf_pte_pa pa perm :
  0 <= pa < 2 ^ 56 → pa mod PGSIZE = 0 → 0 <= perm < 2 ^ 10 → PTE2PA (leaf_pte pa perm) = pa.
Proof. intros. rewrite leaf_pte_lor. apply PTE2PA_PA2PTE; [done | done |]. by apply perm_V_range. Qed.

(** One page, then [j] more. *)
Lemma map_run_S f g a j pa perm va :
  a mod PGSIZE = 0 → (∀ va', g va' = if same_page a va' then Some (leaf_pte pa perm) else f va') →
  map_run g (a + PGSIZE) j (pa + PGSIZE) perm va = map_run f a (S j) pa perm va.
Proof.
  intros Ha Hg. unfold map_run. rewrite Hg. unfold same_page. rewrite PGROUNDDOWN_eq.
  destruct (Z.leb_spec (a + PGSIZE) va), (Z.ltb_spec va (a + PGSIZE + Z.of_nat j * PGSIZE)),
    (Z.leb_spec a va), (Z.ltb_spec va (a + Z.of_nat (S j) * PGSIZE)),
    (Z.eqb_spec (a / PGSIZE) (va / PGSIZE)); cbn [andb]; unfold PGSIZE in *;
    try done; try (exfalso; dlia); do 2 f_equal; dlia.
Qed.

Lemma map_run_0 f a pa perm va : map_run f a 0 pa perm va = f va.
Proof. unfold map_run. destruct (Z.leb_spec a va), (Z.ltb_spec va (a + Z.of_nat 0 * PGSIZE)); try done. lia. Qed.

(** How a run of [mappages] over [k] pages may end: all of them mapped, or
    some of them and the free list exhausted. *)
Definition mapped (root : Z) (s s' : pmem) (l' : list Z) (a : Z) (k : nat) (pa perm r : Z) : Prop :=
  ∃ j, (∀ va, 0 <= va < VASIZE →
          vleaf (ram s') root va = map_run (vleaf (ram s) root) a j pa perm va) ∧
       ((r = 0 ∧ j = k) ∨ (r = -1 ∧ (j < k)%nat ∧ l' = [])).

(** The store of one leaf entry. *)
Lemma map_one_ok s l root va t v :
  vm_ok s l root → table_at (ram s) root [PX 2 va; PX 1 va] = Some t →
  0 <= va < VASIZE → 0 <= v < 2 ^ 64 →
  let s' := set_ram (store64 (ram s) (t + 8 * PX 0 va) v) s in
  vm_ok s' l root ∧ vm_ext root s l s' l ∧
  ∀ va', 0 <= va' < VASIZE →
    vleaf (ram s') root va' =
    if same_page va va' then (if flag v PTE_V then Some v else None) else vleaf (ram s) root va'.
Proof.
  intros Hok Ht Hva Hv s'.
  destruct (vm_ok_leaf_store s l root [PX 2 va; PX 1 va] t (PX 0 va) v) as [H1 H2];
    [done | apply tpath_va | done | done | unfold idx; by apply PX_range |].
  split; [done |]. split; [done |]. intros va' Hva'.
  apply vleaf_leaf_store; try done. apply Hok.
Qed.

Lemma vleaf_entry m root va t :
  table_at m root [PX 2 va; PX 1 va] = Some t →
  vleaf m root va = if flag (load64 m (t + 8 * PX 0 va)) PTE_V
                    then Some (load64 m (t + 8 * PX 0 va)) else None.
Proof. intros H. unfold vleaf. by rewrite H. Qed.

(** One turn of the loop, with [k] what follows the store. *)
Lemma map_turn root a pa perm s l h w n (k : K pmem Z) :
  vm_ok s l root → 0 <= a < MAXVA → 0 <= pa < 2 ^ 56 → 0 <= perm < 2 ^ 10 →
  vleaf (ram s) root a = None → L_kmem ∉ h →
  let turn :=
    pte <- walk root a true ;;
    if pte =? 0 then ret (-1)
    else
      v <- rd64 pte ;;
      if flag v PTE_V then panic "mappages: remap" else wr64 pte (leaf_pte pa perm) ;; k in
  (∃ s1, turn s (Ctx h w n) = Ok (-1) s1 (Ctx h w n) ∧ vm_ok s1 [] root ∧ vm_ext root s l s1 [] ∧ (length l <= 2)%nat ∧
         ∀ va, vleaf (ram s1) root va = vleaf (ram s) root va) ∨
  (∃ s2 l2, turn s (Ctx h w n) = k s2 (Ctx h w n) ∧ vm_ok s2 l2 root ∧ vm_ext root s l s2 l2 ∧ (length l <= length l2 + 2)%nat ∧
         ∀ va, 0 <= va < VASIZE → vleaf (ram s2) root va =
           if same_page a va then Some (leaf_pte pa perm) else vleaf (ram s) root va).
Proof.
  intros Hok Ha Hpa Hperm Hun Hh turn. unfold turn.
  destruct (walk_true root a s l h w n Hok Ha Hh) as (pte & s1 & l1 & E1 & Hok1 & Hext1 & Hw & Hlen & Hv1).
  kstep E1. destruct Hw as [[-> ->] | (t & Ht & -> & Hne)].
  { left. exists s1. cbn [Z.eqb]. done. }
  right. destruct (Z.eqb_spec (t + 8 * PX 0 a) 0); [done |]. mstep.
  pose proof (vleaf_entry (ram s1) root a t Ht) as Hle. rewrite Hv1, Hun in Hle.
  destruct (flag (load64 (ram s1) (t + 8 * PX 0 a)) PTE_V); [done |]. mstep.
  destruct (map_one_ok s1 l1 root a t (leaf_pte pa perm)) as (Hok2 & Hext2 & Hv2); [done | done | by apply below_MAXVA | |].
  { pose proof (leaf_pte_range pa perm Hpa Hperm). lia. }
  eexists _, l1. split; [reflexivity |]. split; [done |]. split; [by eapply vm_ext_trans |].
  split; [done |]. intros va Hva. by rewrite Hv2, leaf_pte_valid, Hv1.
Qed.

Lemma mapped_S root s s2 s' l' a k pa perm r :
  a mod PGSIZE = 0 →
  (∀ va, 0 <= va < VASIZE → vleaf (ram s2) root va =
     if same_page a va then Some (leaf_pte pa perm) else vleaf (ram s) root va) →
  mapped root s2 s' l' (a + PGSIZE) k (pa + PGSIZE) perm r →
  mapped root s s' l' a (S k) pa perm r.
Proof.
  intros Hal Hv (j & Hj & Hr). exists (S j). split.
  - intros va Hva. rewrite Hj by done. rewrite <- (map_run_S _ (λ va', if same_page a va'
      then Some (leaf_pte pa perm) else vleaf (ram s) root va')) by done.
    unfold map_run. destruct (_ && _); [done |]. by apply Hv.
  - destruct Hr as [[-> ->] | (-> & ? & ->)]; [by left | right]. split; [done |]. split; [lia | done].
Qed.

Lemma mappages_loop_ok k fuel root a pa perm s l h w n :
  vm_ok s l root → a mod PGSIZE = 0 → 0 <= a → a + Z.of_nat k * PGSIZE < MAXVA →
  0 <= pa → pa + Z.of_nat (S k) * PGSIZE <= 2 ^ 56 → 0 <= perm < 2 ^ 10 →
  (∀ va, a <= va < a + Z.of_nat (S k) * PGSIZE → vleaf (ram s) root va = None) →
  (k < fuel)%nat → L_kmem ∉ h →
  ∃ r s' l',
    mappages_loop fuel root a (a + Z.of_nat k * PGSIZE) pa perm s (Ctx h w n) = Ok r s' (Ctx h w n) ∧
    vm_ok s' l' root ∧ vm_ext root s l s' l' ∧ (length l <= length l' + 2 * S k)%nat ∧ mapped root s s' l' a (S k) pa perm r.
Proof.
  revert fuel a pa s l. induction k as [| k IH];
    intros fuel a pa s l Hok Hal Ha Hmax Hpa Hpm Hperm Hun Hf Hh;
    (destruct fuel as [| fuel]; [lia |]); cbn [mappages_loop]; fold (leaf_pte pa perm);
    set (last := a + Z.of_nat _ * PGSIZE) in *;
    (edestruct (map_turn root a pa perm s l h w n) as [(s1 & E & Hok1 & Hext & Hlen & Hv) | (s2 & l2 & E & Hok2 & Hext & Hlen & Hv)];
      [exact Hok | unfold PGSIZE in *; lia | unfold PGSIZE in *; lia | exact Hperm
      | apply Hun; unfold PGSIZE in *; lia | exact Hh | rewrite E | rewrite E]).
  - exists (-1), s1, []. do 3 (split; [done |]). split; [simpl; lia |]. exists 0%nat.
    split; [| right; split; [done | split; [lia | done]]]. intros va _. by rewrite map_run_0, Hv.
  - unfold last. rewrite Z.mul_0_l, Z.add_0_r, Z.eqb_refl. exists 0, s2, l2. do 3 (split; [done |]). split; [lia |].
    apply (mapped_S _ s s2); [done | done |]. exists 0%nat. split; [| by left].
    intros va _. by rewrite map_run_0.
  - exists (-1), s1, []. do 3 (split; [done |]). split; [simpl; lia |]. exists 0%nat.
    split; [| right; split; [done | split; [lia | done]]]. intros va _. by rewrite map_run_0, Hv.
  - assert (MAXVA = 2 ^ 38 ∧ VASIZE = 2 ^ 39) as [HM HV] by done.
    assert (last + PGSIZE <= MAXVA) as HL by (unfold last, PGSIZE in *; dlia).
    destruct (Z.eqb_spec a last); [unfold last, PGSIZE in *; lia |].
    rewrite !u64_small by (unfold last, PGSIZE in *; lia).
    replace last with ((a + PGSIZE) + Z.of_nat k * PGSIZE) by (unfold last; lia).
    destruct (IH fuel (a + PGSIZE) (pa + PGSIZE) s2 l2) as (r & s' & l' & E' & Hok' & Hext' & Hlen' & Hm);
      try done; try (unfold last, PGSIZE in *; first [lia | dlia]).
    + intros va Hva. rewrite Hv, Hun by (unfold last, PGSIZE in *; lia).
      unfold same_page. destruct (Z.eqb_spec (a / PGSIZE) (va / PGSIZE)); [| done].
      unfold PGSIZE in *. dlia.
    + exists r, s', l'. split; [done |]. split; [done |]. split; [by eapply vm_ext_trans |]. split; [lia |].
      by apply (mapped_S _ s s2).
Qed.

(** ** The empty table *)

Lemma empty_table_at m root p t :
  (∀ x, 0 <= x < PGSIZE → mget m (root + x) = 0) → tpath p →
  table_at m root p = Some t → p = [] ∧ t = root.
Proof.
  intros Hz [_ Hp] E. destruct p as [| i p]; [by injection E as <- |].
  apply Forall_cons in Hp as [Hi _]. cbn [table_at] in E. by rewrite entry_zero in E.
Qed.

Lemma empty_wf m root :
  page root → (∀ x, 0 <= x < PGSIZE → mget m (root + x) = 0) → wf m root.
Proof.
  intros Hp Hz. constructor.
  - intros t (p & Htp & E). by apply empty_table_at in E as [_ ->].
  - intros p q t Hp1 Hq E1 E2.
    apply empty_table_at in E1 as [-> _]; [| done | done]. by apply empty_table_at in E2 as [-> _].
  - intros q t i Hq _ E Hi. apply empty_table_at in E as [_ ->]; [| done | done]. by rewrite entry_zero.
Qed.

Lemma empty_vleaf m root va :
  (∀ x, 0 <= x < PGSIZE → mget m (root + x) = 0) → vleaf m root va = None.
Proof.
  intros Hz. unfold vleaf. destruct (table_at m root [PX 2 va; PX 1 va]) as [t |] eqn:E; [| done].
  apply empty_table_at in E as [? _]; [done | done | apply tpath_va].
Qed.

(** [uvmcreate] gives a table that maps nothing. *)
Lemma uvmcreate_ok s l a h w n :
  free_pages s (a :: l) → L_kmem ∉ h →
  ∃ s', uvmcreate s (Ctx h w n) = Ok a s' (Ctx h w n) ∧ vm_ok s' l a ∧
        (∀ va, vleaf (ram s') a va = None) ∧ (∀ t, tables (ram s') a t ↔ t = a) ∧ same_outside a (ram s) (ram s').
Proof.
  intros Hf Hh. destruct (kalloc_ok kend s h w n a l Hf Hh) as (E & Hf1 & Hp & Hn & Ha & Hout & _).
  unfold uvmcreate. kstep E. destruct (Z.eqb_spec a 0); [done |]. mstep.
  match goal with |- ∃ s', ret _ ?t _ = _ ∧ _ => set (s1 := t) end.
  assert (∀ x, 0 <= x < PGSIZE → mget (ram s1) (a + x) = 0) as Hz.
  { intros x Hx. by apply memset_page_in. }
  exists s1. split; [reflexivity |]. split; [constructor |].
  - destruct Hf1 as (Hc & Hr). split; [| done].
    destruct Hr as [_ Hr]. refine (chain_outside kend _ _ a _ l _ Hp Hr Hn Hc).
    intros x Hx. by apply memset_page_out.
  - by apply empty_wf.
  - intros t (p & Htp & E'). by apply empty_table_at in E' as [_ ->].
  - split; [intros va; by apply empty_vleaf |].
    split; [intros t; split; [intros (p & Htp & E'); by apply empty_table_at in E' as [_ ->] | intros ->; exists []; split; [split; [simpl; lia | constructor] | done]] |].
    intros x Hx. cbn [ram s1 set_ram]. rewrite memset_page_out by done. by apply Hout.
Qed.

(** ** Properties *)

(** C21: [mappages] maps exactly the pages from [PGROUNDDOWN(va)] to that of
    [va + size - 1], to consecutive frames with the given permissions, and
    leaves the entry of every other virtual page alone; or it returns -1, and
    then the free list is exhausted and only a prefix was mapped.  It takes at
    most two pages for each page mapped.  In both cases the table stays well formed (a tree of distinct, non-free pages), it
    returns, and memory that is neither table nor free is unchanged. *)
Theorem mappages_maps root va size pa perm s l h w n :
  let a := PGROUNDDOWN va in
  let last := PGROUNDDOWN (va + size - 1) in
  vm_ok s l root → 0 <= va → 0 < size → va + size <= MAXVA →
  0 <= pa → pa + (last - a) + PGSIZE <= 2 ^ 56 → 0 <= perm < 2 ^ 10 →
  (∀ va', a <= va' < last + PGSIZE → vleaf (ram s) root va' = None) → L_kmem ∉ h →
  ∃ r s' l',
    mappages root va size pa perm s (Ctx h w n) = Ok r s' (Ctx h w n) ∧
    vm_ok s' l' root ∧ vm_ext root s l s' l' ∧ (length l <= length l' + 2 * S (Z.to_nat ((last - a) / PGSIZE)))%nat ∧
    mapped root s s' l' a (S (Z.to_nat ((last - a) / PGSIZE))) pa perm r.
Proof.
  intros a last Hok Hva Hsz Hmax Hpa Hpm Hperm Hun Hh.
  assert (MAXVA = 2 ^ 38) as HM by done.
  pose proof (PGROUNDDOWN_eq va) as Ea. pose proof (PGROUNDDOWN_eq (va + size - 1)) as El.
  fold a in Ea. fold last in El. set (k := Z.to_nat ((last - a) / PGSIZE)).
  assert (last = a + Z.of_nat k * PGSIZE) as Hlast.
  { unfold k. rewrite Z2Nat.id; unfold PGSIZE in *; dlia. }
  unfold mappages. destruct (Z.eqb_spec size 0); [lia |].
  rewrite u64_small by lia. fold a. fold last.
  unfold PGSIZE in Ea, El.
  pose proof (mappages_loop_ok k (mappages_fuel a last) root a pa perm s l h w n) as H.
  rewrite <- Hlast in H. apply H; try done; unfold PGSIZE in *; try dlia.
  - intros va' Hva'. apply Hun. lia.
  - unfold mappages_fuel. destruct (Z.leb_spec a last); [| lia]. fold k. unfold PGSIZE. lia.
Qed.
End vmmap.

(** *** Witness: an empty table and four free pages *)

Definition kend5 : Z := PHYSTOP - 5 * PGSIZE.

Definition frame5 (i : Z) : Z := kend5 + i * PGSIZE.

Definition demo_vm : pmem :=
  PMem (store64 (store64 (store64 (store64 ∅ (frame5 1) (frame5 2)) (frame5 2) (frame5 3))
          (frame5 3) (frame5 4)) (frame5 4) 0) (frame5 1).

Lemma demo_root_zero x : 0 <= x < PGSIZE → mget (ram demo_vm) (kend5 + x) = 0.
Proof.
  intros H. unfold demo_vm, frame5. cbn [ram].
  rewrite !mget_store64_out by (unfold PGSIZE in *; lia). done.
Qed.

Lemma demo_vm_ok : vm_ok kend5 demo_vm [frame5 1; frame5 2; frame5 3; frame5 4] kend5.
Proof.
  assert (page kend5 kend5) as Hp by (vm_compute; intuition congruence).
  constructor.
  - split; [vm_compute; repeat split; discriminate |].
    split; [apply (bool_decide_unpack _); vm_compute; exact I |].
    repeat constructor; vm_compute; intuition congruence.
  - apply empty_wf; [done | apply demo_root_zero].
  - intros t (p & Htp & E). apply empty_table_at in E as [_ ->]; [| apply demo_root_zero | done].
    apply (bool_decide_unpack _). vm_compute. exact I.
Qed.

(** Two pages at 4096 and 8192 are mapped to two frames. *)
Lemma mappages_maps_witness :
  ∃ r s' l',
    mappages kend5 5000 5000 (frame5 4) UVM_PERM demo_vm (Ctx [] [] 0) = Ok r s' (Ctx [] [] 0) ∧
    vm_ok kend5 s' l' kend5 ∧ vm_ext kend5 demo_vm [frame5 1; frame5 2; frame5 3; frame5 4] s' l' ∧ (4 <= length l' + 4)%nat ∧
    mapped kend5 demo_vm s' l' 4096 2 (frame5 4) UVM_PERM r.
Proof.
  apply (mappages_maps kend5 eq_refl kend5 5000 5000 (frame5 4) UVM_PERM demo_vm);
    [apply demo_vm_ok | lia | lia | vm_compute; discriminate | vm_compute; discriminate
    | vm_compute; discriminate | vm_compute; split; [discriminate | reflexivity] | | apply not_elem_of_nil].
  intros va' _. apply empty_vleaf, demo_root_zero.
Defined.
