(* ===== verification/VmCopy.v ===== *)
(** * Copying to and from user memory

    The user memory of a page table is the partial map from virtual addresses
    to bytes that [walkaddr] gives.  [copyout], [copyin] and [copyinstr] are
    reads and writes of that map. *)

From S2P Require Import Prelude Monad Riscv Mem Kalloc Vm VmMap.

(** The frame of the user page of [va]. *)
Definition upage (m : mem) (root va : Z) : option Z :=
  if (0 <=? va) && (va <? MAXVA) then
    match vleaf m root va with
    | Some e => if flag e PTE_U then Some (PTE2PA e) else None
    | None => None
    end
  else None.

(** The byte a user program reads at [va]. *)
Definition ubyte (m : mem) (root va : Z) : option Z :=
  match upage m root va with
  | Some pa => Some (mget m (pa + va mod PGSIZE))
  | None => None
  end.

Section vmcopy.
Context (kend : Z) (Hkend : 0 < kend).
Notation page := (page kend).
Notation wf := (wf kend).

(** A user address space: a well-formed table whose user frames are pages of
    RAM, none of them a table page, and no two virtual pages share one. *)
Record user_ok (m : mem) (root : Z) : Prop := {
  u_wf : wf m root;
  u_page : ∀ va pa, upage m root va = Some pa → page pa ∧ ¬ tables m root pa;
  u_inj : ∀ va va' pa, upage m root va = Some pa → upage m root va' = Some pa →
            same_page va va' = true }.

Lemma vleaf_same_page m root va va' :
  0 <= va < VASIZE → 0 <= va' < VASIZE → same_page va va' = true →
  vleaf m root va = vleaf m root va'.
Proof.
  intros H H' E. apply same_page_px in E as (E2 & E1 & E0); [| done | done].
  unfold vleaf. by rewrite E2, E1, E0.
Qed.

Lemma upage_range m root va pa : upage m root va = Some pa → 0 <= va < MAXVA.
Proof.
  unfold upage. destruct (Z.leb_spec 0 va), (Z.ltb_spec va MAXVA); done.
Qed.

Lemma upage_same_page m root va va' :
  0 <= va → 0 <= va' → same_page va va' = true → upage m root va = upage m root va'.
Proof.
  intros H H' E. unfold upage. pose proof E as Ep. unfold same_page in Ep. apply Z.eqb_eq in Ep.
  assert (MAXVA = PGSIZE * 2 ^ 26) as HM by done.
  assert (va < MAXVA ↔ va' < MAXVA) as Hiff by (unfold PGSIZE in *; dlia).
  destruct (Z.leb_spec 0 va), (Z.leb_spec 0 va'); try lia.
  destruct (Z.ltb_spec va MAXVA), (Z.ltb_spec va' MAXVA); cbn [andb]; try lia; [| done].
  by rewrite (vleaf_same_page m root va va') by (done || by apply below_MAXVA).
Qed.

Lemma upage_down m root va : 0 <= va → upage m root (PGROUNDDOWN va) = upage m root va.
Proof.
  intros H. rewrite PGROUNDDOWN_eq. apply upage_same_page; [unfold PGSIZE; dlia | done |].
  unfold same_page. apply Z.eqb_eq. unfold PGSIZE. dlia.
Qed.

Lemma walkaddr_ok root va s x :
  wf (ram s) root → 0 <= va →
  walkaddr root va s x = Ok (default 0 (upage (ram s) root va)) s x.
Proof.
  intros Hwf Hva. unfold walkaddr, upage.
  destruct (Z.leb_spec MAXVA va), (Z.ltb_spec va MAXVA), (Z.leb_spec 0 va); try lia; cbn [andb]; [done |].
  kstep (walk_false root va s x ltac:(lia)). unfold vleaf.
  destruct (table_at (ram s) root [PX 2 va; PX 1 va]) as [t |] eqn:E; [| done].
  pose proof (table_entry_nonzero kend Hkend (ram s) root _ t (PX 0 va) Hwf (tpath_va va) E
                (PX_range 0 va ltac:(lia))).
  destruct (Z.eqb_spec (t + 8 * PX 0 va) 0); [done |]. mstep. fold (entry (ram s) t (PX 0 va)).
  destruct (flag (entry (ram s) t (PX 0 va)) PTE_V); cbn [negb]; [| done].
  destruct (flag (entry (ram s) t (PX 0 va)) PTE_U); done.
Qed.

(** With the invariant, [walkaddr] fails exactly when there is no user page. *)
Lemma upage_nonzero m root va pa : user_ok m root → upage m root va = Some pa → pa ≠ 0.
Proof. intros H E. apply (u_page _ _ H) in E as [Hp _]. apply page_range in Hp; [lia | done]. Qed.

(** ** Writing into one user page *)

Section write.
Context (m : mem) (root va0 pa off : Z) (bs : list Z).
Context (Hu : user_ok m root) (Hpa : upage m root va0 = Some pa) (Hva0 : va0 mod PGSIZE = 0).
Context (Hoff : 0 <= off) (Hlen : off + Z.of_nat (length bs) <= PGSIZE).
Let m' := write_bytes m (pa + off) bs.

Lemma write_outside_page x : ¬ (pa <= x < pa + PGSIZE) → mget m' x = mget m x.
Proof. intros H. unfold m'. apply write_bytes_out. lia. Qed.

Lemma write_same t x : tables m root t → 0 <= x < PGSIZE → mget m' (t + x) = mget m (t + x).
Proof.
  intros Ht Hx. apply write_outside_page. destruct (u_page _ _ Hu va0 pa Hpa) as [Hp Hnt].
  apply (page_disjoint kend); [by apply (wf_page _ _ _ (u_wf _ _ Hu)) | done | by intros -> | done].
Qed.

Lemma write_vleaf va : vleaf m' root va = vleaf m root va.
Proof. apply agree_vleaf, write_same. Qed.

Lemma write_upage va : upage m' root va = upage m root va.
Proof. unfold upage. by rewrite write_vleaf. Qed.

Lemma write_user_ok : user_ok m' root.
Proof.
  constructor.
  - apply (agree_wf kend m m' root (u_wf _ _ Hu)), write_same.
  - intros va pa' E. rewrite write_upage in E. rewrite (agree_tables m m' root) by apply write_same. by apply (u_page _ _ Hu va).
  - intros va va' pa' E1 E2. rewrite write_upage in E1, E2. by apply (u_inj _ _ Hu va va' pa').
Qed.

Lemma write_ubyte va :
  ubyte m' root va =
  if (va0 + off <=? va) && (va <? va0 + off + Z.of_nat (length bs))
  then Some (u8 (default 0 (bs !! Z.to_nat (va - (va0 + off)))))
  else ubyte m root va.
Proof.
  pose proof (upage_range _ _ _ _ Hpa) as Hr0.
  unfold ubyte. rewrite write_upage.
  destruct (Z.leb_spec (va0 + off) va), (Z.ltb_spec va (va0 + off + Z.of_nat (length bs))); cbn [andb].
  { rewrite (upage_same_page m root va va0), Hpa; [| lia | lia |].
    2: { unfold same_page. apply Z.eqb_eq. unfold PGSIZE in *. dlia. }
    destruct (lookup_lt_is_Some_2 bs (Z.to_nat (va - (va0 + off)))) as [b Hb]; [lia |].
    rewrite Hb. f_equal. unfold m'.
    replace (pa + va mod PGSIZE) with (pa + off + Z.of_nat (Z.to_nat (va - (va0 + off))))
      by (unfold PGSIZE in *; dlia).
    by apply write_bytes_in. }
  all: destruct (upage m root va) as [pa' |] eqn:E; [| done]; f_equal; unfold m'; apply write_bytes_out.
  all: pose proof (upage_range _ _ _ _ E) as Hr; destruct (Z.eq_dec pa pa') as [<- | Hne].
  all: try (pose proof (u_inj _ _ Hu _ _ _ Hpa E) as Hsp; unfold same_page in Hsp;
            apply Z.eqb_eq in Hsp; unfold PGSIZE in *; dlia).
  all: destruct (u_page _ _ Hu _ _ Hpa) as [[Hp1 _] _], (u_page _ _ Hu _ _ E) as [[Hp2 _] _];
    unfold PGSIZE in *; dlia.
Qed.

End write.

(** ** copyout *)

(** User memory [f] with the bytes [bs] stored from [va] on. *)
Definition uwrite (f : Z → option Z) (va : Z) (bs : list Z) (x : Z) : option Z :=
  if (va <=? x) && (x <? va + Z.of_nat (length bs))
  then Some (u8 (default 0 (bs !! Z.to_nat (x - va)))) else f x.

Lemma uwrite_app f va bs1 bs2 x :
  uwrite (uwrite f va bs1) (va + Z.of_nat (length bs1)) bs2 x = uwrite f va (bs1 ++ bs2) x.
Proof.
  unfold uwrite. rewrite length_app.
  destruct (Z.leb_spec (va + Z.of_nat (length bs1)) x),
    (Z.ltb_spec x (va + Z.of_nat (length bs1) + Z.of_nat (length bs2))),
    (Z.leb_spec va x), (Z.ltb_spec x (va + Z.of_nat (length bs1))),
    (Z.ltb_spec x (va + Z.of_nat (length bs1 + length bs2))); cbn [andb]; try lia; try done.
  - rewrite lookup_app_r by lia. do 3 f_equal. f_equal. lia.
  - rewrite lookup_app_l by lia. done.
Qed.

(** [copyout] wrote the bytes [bs] at [va] and touched nothing else: not the
    table, not any other user byte, not memory outside the user pages. *)
Record wrote (root va : Z) (bs : list Z) (m m' : mem) : Prop := {
  w_ok : user_ok m' root;
  w_upage : ∀ va', upage m' root va' = upage m root va';
  w_ubyte : ∀ va', ubyte m' root va' = uwrite (ubyte m root) va bs va';
  w_frame : ∀ x, (∀ va' pa, upage m root va' = Some pa → ¬ (pa <= x < pa + PGSIZE)) →
              mget m' x = mget m x }.

Lemma wrote_nil root va m : user_ok m root → wrote root va [] m m.
Proof.
  intros H. constructor; [done | done | | done]. intros va'. unfold uwrite. cbn [length].
  destruct (Z.leb_spec va va'), (Z.ltb_spec va' (va + Z.of_nat 0)); try done. lia.
Qed.

Lemma wrote_app root va bs1 bs2 m1 m2 m3 :
  wrote root va bs1 m1 m2 → wrote root (va + Z.of_nat (length bs1)) bs2 m2 m3 →
  wrote root va (bs1 ++ bs2) m1 m3.
Proof.
  intros [O1 P1 B1 F1] [O2 P2 B2 F2]. constructor; [done | | |].
  - intros va'. by rewrite P2.
  - intros va'. rewrite B2, <- uwrite_app. unfold uwrite at 1 3. by rewrite B1.
  - intros x H. rewrite F2, F1; [done | done |]. intros va' pa E. rewrite P1 in E. by apply (H va').
Qed.

Lemma down_offset va : 0 <= va - PGROUNDDOWN va < PGSIZE ∧ PGROUNDDOWN va mod PGSIZE = 0.
Proof. rewrite PGROUNDDOWN_eq. unfold PGSIZE. dlia. Qed.

(** One turn of the loop. *)
Lemma copyout_page_ok root dstva pa bs m :
  user_ok m root → upage m root (PGROUNDDOWN dstva) = Some pa →
  dstva - PGROUNDDOWN dstva + Z.of_nat (length bs) <= PGSIZE →
  wrote root dstva bs m (write_bytes m (pa + (dstva - PGROUNDDOWN dstva)) bs).
Proof.
  intros Hu Epa Hlen. destruct (down_offset dstva) as [Hoff Hal].
  constructor.
  - apply (write_user_ok _ _ (PGROUNDDOWN dstva)); try done. lia.
  - intros va'. apply (write_upage _ _ (PGROUNDDOWN dstva)); try done. lia.
  - intros va'. rewrite (write_ubyte _ _ (PGROUNDDOWN dstva) pa _ _ Hu Epa) by (done || lia).
    replace (PGROUNDDOWN dstva + (dstva - PGROUNDDOWN dstva)) with dstva by lia. done.
  - intros y Hy. apply write_bytes_out. specialize (Hy _ pa Epa). lia.
Qed.

Lemma wrote_nil_at root va va' m m' : wrote root va [] m m' → wrote root va' [] m m'.
Proof.
  intros [O P B F]. constructor; try done. intros x. rewrite B. unfold uwrite. cbn [length].
  destruct (Z.leb_spec va x), (Z.ltb_spec x (va + Z.of_nat 0)),
    (Z.leb_spec va' x), (Z.ltb_spec x (va' + Z.of_nat 0)); try done; lia.
Qed.

Lemma copyout_loop_ok fuel root dstva src s x :
  user_ok (ram s) root → 0 <= dstva < 2 ^ 64 → (length src <= fuel)%nat →
  ∃ r s' k, copyout_loop fuel root dstva src s x = Ok r s' x ∧ freelist s' = freelist s ∧
    wrote root dstva (take k src) (ram s) (ram s') ∧
    ((r = 0 ∧ (length src <= k)%nat) ∨
     (r = -1 ∧ (k < length src)%nat ∧ upage (ram s) root (dstva + Z.of_nat k) = None)).
Proof.
  revert dstva src s. induction fuel as [| fuel IH]; intros dstva src s Hu Hva Hf.
  { destruct src; [| simpl in Hf; lia]. exists 0, s, 0%nat. split; [done |]. split; [done |].
    split; [by apply wrote_nil | by left]. }
  destruct src as [| b src'].
  { exists 0, s, 0%nat. split; [done |]. split; [done |]. split; [by apply wrote_nil | by left]. }
  cbn [copyout_loop]. set (src := b :: src') in *. set (va0 := PGROUNDDOWN dstva).
  destruct (down_offset dstva) as [Hoff Hal]. fold va0 in Hoff, Hal.
  assert (0 <= va0) as Hva0 by (unfold va0; rewrite PGROUNDDOWN_eq; unfold PGSIZE; dlia).
  kstep (walkaddr_ok root va0 s x (u_wf _ _ Hu) Hva0).
  destruct (upage (ram s) root va0) as [pa |] eqn:Epa; cbn [default from_option id].
  2: { exists (-1), s, 0%nat. split; [done |]. split; [done |]. split; [by apply wrote_nil |]. right.
       split; [done |]. split; [simpl; lia |]. rewrite Z.add_0_r, <- upage_down by lia. done. }
  destruct (Z.eqb_spec pa 0) as [E0 | _]; [by destruct (upage_nonzero _ _ _ _ Hu Epa) |].
  set (n := Z.to_nat (PGSIZE - (dstva - va0))). kstep.
  pose proof (upage_range _ _ _ _ Epa) as Hr.
  set (m' := write_bytes (ram s) (pa + (dstva - va0)) (take n src)).
  assert (dstva - va0 + Z.of_nat (length (take n src)) <= PGSIZE) as Hlen
    by (rewrite length_take; unfold n, PGSIZE in *; lia).
  assert (wrote root dstva (take n src) (ram s) m') as Hw by (by apply copyout_page_ok).
  assert (MAXVA = 2 ^ 38) as HM by done.
  rewrite u64_small by (unfold PGSIZE in *; lia).
  destruct (IH (va0 + PGSIZE) (drop n src) (set_ram m' s)) as (r & s' & k & E & Hfl & Hw' & Hk).
  { apply Hw. } { unfold PGSIZE in *. lia. }
  { rewrite length_drop. unfold n, PGSIZE in *. simpl in *. lia. }
  cbn [ram set_ram] in *. exists r, s'.
  destruct (decide (length src <= n)%nat) as [Hle | Hgt].
  - exists n. split; [done |]. split; [done |].
    rewrite (drop_ge src n Hle) in *. rewrite take_nil in Hw'.
    split; [| destruct Hk as [[-> _] | (_ & Hk & _)]; [by left | simpl in Hk; lia]].
    rewrite <- (app_nil_r (take n src)). apply (wrote_app _ _ _ _ _ m'); [done |].
    by apply (wrote_nil_at _ (va0 + PGSIZE)).
  - exists (n + k)%nat. split; [done |]. split; [done |].
    assert (dstva + Z.of_nat (length (take n src)) = va0 + PGSIZE) as Hnx
      by (rewrite length_take; unfold n in *; lia).
    split.
    + replace (take (n + k) src) with (take n src ++ take k (drop n src)).
      * apply (wrote_app _ _ _ _ _ m'); [done |]. by rewrite Hnx.
      * apply take_take_drop.
    + rewrite length_drop in Hk. destruct Hk as [[-> Hk] | (-> & Hk & Hn)]; [left; split; [done | lia] |].
      right. split; [done |]. split; [lia |]. rewrite (w_upage _ _ _ _ _ Hw) in Hn.
      rewrite <- Hn. f_equal. rewrite length_take in Hnx. lia.
Qed.

(** ** copyin and copyinstr *)

(** The bytes [bs] are what the user has from [va] on. *)
Definition ureads (m : mem) (root va : Z) (bs : list Z) : Prop :=
  ∀ i b, bs !! i = Some b → ubyte m root (va + Z.of_nat i) = Some b.

Lemma ureads_nil m root va : ureads m root va [].
Proof. intros i b H. by rewrite lookup_nil in H. Qed.

Lemma ureads_app m root va bs1 bs2 :
  ureads m root va bs1 → ureads m root (va + Z.of_nat (length bs1)) bs2 →
  ureads m root va (bs1 ++ bs2).
Proof.
  intros H1 H2 i b H. apply lookup_app_Some in H as [H | [Hi H]]; [by apply H1 |].
  apply H2 in H. rewrite <- H. f_equal. lia.
Qed.

Lemma ureads_page m root va pa n :
  0 <= va → upage m root (PGROUNDDOWN va) = Some pa →
  va - PGROUNDDOWN va + Z.of_nat n <= PGSIZE →
  ureads m root va (read_bytes m (pa + (va - PGROUNDDOWN va)) n).
Proof.
  intros Hva Epa Hn i b H. destruct (down_offset va) as [Hoff Hal].
  assert (i < n)%nat as Hi by (apply lookup_lt_Some in H; by rewrite length_read_bytes in H).
  rewrite read_bytes_lookup in H by done. injection H as <-.
  unfold ubyte. rewrite upage_down in Epa by done.
  rewrite (upage_same_page m root _ va), Epa; [| lia | lia |].
  - do 2 f_equal. rewrite PGROUNDDOWN_eq in *. unfold PGSIZE in *. dlia.
  - unfold same_page. apply Z.eqb_eq. rewrite PGROUNDDOWN_eq in *. unfold PGSIZE in *. dlia.
Qed.

(** What the loops share: the page of [va], or the end of the copy. *)
Lemma copy_turn {A} root va s x (k : Z → K pmem A) (stop : K pmem A) :
  user_ok (ram s) root → 0 <= va →
  (pa0 <- walkaddr root (PGROUNDDOWN va) ;; if pa0 =? 0 then stop else k pa0) s x =
  match upage (ram s) root (PGROUNDDOWN va) with Some pa => k pa s x | None => stop s x end.
Proof.
  intros Hu Hva.
  assert (0 <= PGROUNDDOWN va) as Hva0 by (rewrite PGROUNDDOWN_eq; unfold PGSIZE; dlia).
  kstep (walkaddr_ok root (PGROUNDDOWN va) s x (u_wf _ _ Hu) Hva0).
  destruct (upage (ram s) root (PGROUNDDOWN va)) as [pa |] eqn:Epa; cbn [default from_option id]; [| done].
  destruct (Z.eqb_spec pa 0) as [E0 | _]; [by destruct (upage_nonzero _ _ _ _ Hu Epa) | done].
Qed.

Lemma next_page_range m root va pa :
  upage m root (PGROUNDDOWN va) = Some pa → u64 (PGROUNDDOWN va + PGSIZE) = PGROUNDDOWN va + PGSIZE ∧
  0 <= PGROUNDDOWN va + PGSIZE < 2 ^ 64.
Proof.
  intros E. apply upage_range in E. assert (MAXVA = 2 ^ 38) as HM by done.
  split; [apply u64_small |]; unfold PGSIZE; lia.
Qed.

Lemma copyin_loop_ok fuel root srcva len s x :
  user_ok (ram s) root → 0 <= srcva < 2 ^ 64 → (len <= fuel)%nat →
  ∃ r bs, copyin_loop fuel root srcva len s x = Ok (r, bs) s x ∧
    ureads (ram s) root srcva bs ∧
    ((r = 0 ∧ length bs = len) ∨
     (r = -1 ∧ (length bs < len)%nat ∧ upage (ram s) root (srcva + Z.of_nat (length bs)) = None)).
Proof.
  revert srcva len. induction fuel as [| fuel IH]; intros srcva len Hu Hva Hf.
  { destruct len; [| lia]. exists 0, []. split; [done |]. split; [apply ureads_nil | by left]. }
  destruct len as [| len'].
  { exists 0, []. split; [done |]. split; [apply ureads_nil | by left]. }
  cbn [copyin_loop]. set (len := S len') in *. rewrite copy_turn by (done || lia).
  destruct (upage (ram s) root (PGROUNDDOWN srcva)) as [pa |] eqn:Epa.
  2: { exists (-1), []. split; [done |]. split; [apply ureads_nil |]. right. split; [done |].
       split; [simpl; lia |]. simpl. rewrite Z.add_0_r, <- upage_down by lia. done. }
  destruct (down_offset srcva) as [Hoff Hal].
  set (n := Nat.min (Z.to_nat (PGSIZE - (srcva - PGROUNDDOWN srcva))) len).
  destruct (next_page_range _ _ _ _ Epa) as [-> Hnx].
  kstep. edestruct (IH (PGROUNDDOWN srcva + PGSIZE) (len - n)%nat) as (r & bs & E & Hrd & Hr); [done | done | |].
  { unfold n, len, PGSIZE in *. lia. }
  kstep E. set (bs1 := read_bytes _ _ n).
  assert (ureads (ram s) root srcva bs1) as Hrd1 by (apply ureads_page; unfold n; (done || lia)).
  assert (length bs1 = n) as Hl1 by apply length_read_bytes.
  assert (bs = [] ∧ len = n ∨ srcva + Z.of_nat n = PGROUNDDOWN srcva + PGSIZE) as Hcase.
  { destruct (decide (len = n)) as [En |]; [left | right; unfold n in *; lia].
    split; [| done]. apply length_zero_iff_nil. destruct Hr as [[_ Hr] | (_ & Hr & _)]; lia. }
  exists r, (bs1 ++ bs). split; [done |]. split.
  - apply ureads_app; [done |]. rewrite Hl1.
    destruct Hcase as [[-> _] | ->]; [apply ureads_nil | done].
  - rewrite length_app, Hl1. destruct Hr as [[-> Hr] | (-> & Hr & Hn)].
    + left. split; [done |]. unfold n in *. lia.
    + right. split; [done |]. split; [lia |]. rewrite <- Hn. f_equal.
      destruct Hcase as [[-> E'] | E']; [simpl in Hr |]; lia.
Qed.

(** A C string with its terminator, or bytes without one. *)
Definition cstring (bs : list Z) : Prop := ∃ str, bs = str ++ [0] ∧ Forall (λ b, b ≠ 0) str.

Lemma copyinstr_page_ok m p n bs got :
  copyinstr_page m p n = (bs, got) →
  bs = read_bytes m p (length bs) ∧ (length bs <= n)%nat ∧
  if got then cstring bs else length bs = n ∧ Forall (λ b, b ≠ 0) bs.
Proof.
  revert p bs got. induction n as [| n IH]; intros p bs got E; cbn [copyinstr_page] in E.
  { injection E as <- <-. done. }
  destruct (Z.eqb_spec (mget m p) 0) as [Hz | Hnz].
  { injection E as <- <-. simpl. rewrite Hz. split; [done |]. split; [lia |]. by exists []. }
  destruct (copyinstr_page m (p + 1) n) as [bs' got'] eqn:E'. injection E as <- <-.
  destruct (IH _ _ _ E') as (Hrd & Hle & Hg). cbn [length read_bytes]. rewrite <- Hrd.
  split; [done |]. split; [lia |]. destruct got'.
  - destruct Hg as (str & -> & Hf). exists (mget m p :: str). split; [done |]. by constructor.
  - destruct Hg as [<- Hf]. split; [done |]. by constructor.
Qed.

Lemma copyinstr_loop_ok fuel root srcva max s x :
  user_ok (ram s) root → 0 <= srcva < 2 ^ 64 → (max <= fuel)%nat →
  ∃ r bs, copyinstr_loop fuel root srcva max s x = Ok (r, bs) s x ∧
    ureads (ram s) root srcva bs ∧ (length bs <= max)%nat ∧
    ((r = 0 ∧ cstring bs) ∨
     (r = -1 ∧ Forall (λ b, b ≠ 0) bs ∧
      (length bs = max ∨ upage (ram s) root (srcva + Z.of_nat (length bs)) = None))).
Proof.
  revert srcva max. induction fuel as [| fuel IH]; intros srcva max Hu Hva Hf.
  { destruct max; [| lia]. exists (-1), []. split; [done |]. split; [apply ureads_nil |].
    split; [done |]. right. by split; [| split; [| left]]. }
  destruct max as [| max'].
  { exists (-1), []. split; [done |]. split; [apply ureads_nil |].
    split; [done |]. right. by split; [| split; [| left]]. }
  cbn [copyinstr_loop]. set (max := S max') in *. rewrite copy_turn by (done || lia).
  destruct (upage (ram s) root (PGROUNDDOWN srcva)) as [pa |] eqn:Epa.
  2: { exists (-1), []. split; [done |]. split; [apply ureads_nil |]. split; [simpl; lia |].
       right. split; [done |]. split; [constructor |]. right. simpl.
       rewrite Z.add_0_r, <- upage_down by lia. done. }
  destruct (down_offset srcva) as [Hoff Hal].
  set (n := Nat.min (Z.to_nat (PGSIZE - (srcva - PGROUNDDOWN srcva))) max).
  destruct (next_page_range _ _ _ _ Epa) as [-> Hnx]. kstep.
  destruct (copyinstr_page (ram s) (pa + (srcva - PGROUNDDOWN srcva)) n) as [bs1 got] eqn:Ep.
  cbn [fst snd]. destruct (copyinstr_page_ok _ _ _ _ _ Ep) as (Hrd1 & Hle1 & Hg).
  assert (ureads (ram s) root srcva bs1) as Hu1
    by (rewrite Hrd1; apply ureads_page; unfold n in *; (done || lia)).
  destruct got.
  { exists 0, bs1. split; [done |]. split; [done |]. split; [unfold n in *; lia | by left]. }
  destruct Hg as [Hl1 Hnz1].
  destruct (IH (PGROUNDDOWN srcva + PGSIZE) (max - n)%nat) as (r & bs & E & Hrd & Hle & Hr); [done | done | |].
  { unfold n, max, PGSIZE in *. lia. }
  kstep E. exists r, (bs1 ++ bs). split; [done |].
  assert (bs = [] ∧ max = n ∨ srcva + Z.of_nat n = PGROUNDDOWN srcva + PGSIZE) as Hcase.
  { destruct (decide (max = n)); [left | right; unfold n in *; lia].
    split; [| done]. apply length_zero_iff_nil. lia. }
  rewrite length_app, Hl1. split; [| split; [unfold n in *; lia |]].
  - apply ureads_app; [done |]. rewrite Hl1.
    destruct Hcase as [[-> _] | ->]; [apply ureads_nil | done].
  - destruct Hr as [[-> (str & -> & Hs)] | (-> & Hnz & Hend)].
    + left. split; [done |]. exists (bs1 ++ str). split; [by rewrite app_assoc |].
      by apply Forall_app.
    + right. split; [done |]. split; [by apply Forall_app |].
      destruct Hcase as [[-> E'] | E']; [left; simpl; lia |].
      destruct Hend as [Hend | Hend]; [left; unfold n in *; lia | right].
      rewrite <- Hend. f_equal. lia.
Qed.

(** ** Properties *)

(** C22: [copyout] is a write of user memory.  It returns, with 0 after writing
    all the bytes at [dstva], or with -1 at the first address that has no
    user page, having written the bytes before it; every other byte of the
    address space, the page table itself, and all memory outside the user's
    pages are as before. *)
Theorem copyout_writes root dstva src s x :
  user_ok (ram s) root → 0 <= dstva < 2 ^ 64 →
  ∃ r s' k, copyout root dstva src s x = Ok r s' x ∧ freelist s' = freelist s ∧
    wrote root dstva (take k src) (ram s) (ram s') ∧
    ((r = 0 ∧ (length src <= k)%nat) ∨
     (r = -1 ∧ (k < length src)%nat ∧ upage (ram s) root (dstva + Z.of_nat k) = None)).
Proof. intros. by apply copyout_loop_ok. Qed.

(** C23: what [copyout] stored, [copyin] reads back: a successful [copyout] of
    [src] followed by a [copyin] of that range succeeds with the bytes of
    [src]. *)
Theorem copyout_copyin root va src s x s' :
  user_ok (ram s) root → 0 <= va < 2 ^ 64 → Forall (λ b, 0 <= b < 2 ^ 8) src →
  copyout root va src s x = Ok 0 s' x →
  copyin root va (length src) s' x = Ok (0, src) s' x.
Proof.
  intros Hu Hva Hby E.
  destruct (copyout_loop_ok (length src) root va src s x Hu Hva) as (r & s1 & k & E1 & _ & Hw & Hk); [done |].
  unfold copyout in E. rewrite E1 in E. injection E as -> ->.
  destruct Hk as [[_ Hk] | [? _]]; [| done]. rewrite take_ge in Hw by done.
  destruct (copyin_loop_ok (length src) root va (length src) s' x (w_ok _ _ _ _ _ Hw) Hva)
    as (r & bs & E2 & Hrd & Hr); [done |].
  assert (∀ i, (i < length src)%nat → ubyte (ram s') root (va + Z.of_nat i) = src !! i) as Hby'.
  { intros i Hi. rewrite (w_ubyte _ _ _ _ _ Hw). unfold uwrite.
    destruct (Z.leb_spec va (va + Z.of_nat i)), (Z.ltb_spec (va + Z.of_nat i) (va + Z.of_nat (length src))); try lia.
    cbn [andb]. replace (Z.to_nat (va + Z.of_nat i - va)) with i by lia.
    destruct (lookup_lt_is_Some_2 src i Hi) as [b Hb]. rewrite Hb. cbn. f_equal.
    rewrite Forall_lookup in Hby. apply u8_small. by apply (Hby i). }
  assert (length bs = length src) as Hl.
  { destruct Hr as [[_ Hr] | (_ & Hr & Hn)]; [done |]. specialize (Hby' _ Hr).
    destruct (lookup_lt_is_Some_2 src _ Hr) as [b Hb]. unfold ubyte in Hby'. by rewrite Hn, Hb in Hby'. }
  unfold copyin. rewrite E2. destruct Hr as [[-> _] | (_ & Hr & _)]; [| lia].
  do 2 f_equal. apply list_eq_same_length with (n := length src); [done | done |].
  intros i b1 b2 Hi H1 H2. apply Hrd in H1. rewrite Hby', H2 in H1 by done. congruence.
Qed.

(** [copyinstr] reads a string of at most [max] bytes, terminator included:
    on 0 the bytes stored are the user's, up to and including the first NUL; on
    -1 there is no NUL among the first [max] bytes or an unmapped page comes
    before one.  It returns for every address. *)
Theorem copyinstr_reads root srcva max s x :
  user_ok (ram s) root → 0 <= srcva < 2 ^ 64 →
  ∃ r bs, copyinstr root srcva max s x = Ok (r, bs) s x ∧
    ureads (ram s) root srcva bs ∧ (length bs <= max)%nat ∧
    ((r = 0 ∧ cstring bs) ∨
     (r = -1 ∧ Forall (λ b, b ≠ 0) bs ∧
      (length bs = max ∨ upage (ram s) root (srcva + Z.of_nat (length bs)) = None))).
Proof. intros. by apply copyinstr_loop_ok. Qed.
End vmcopy.

(** *** Witnesses: two user pages at 0 and 4096 *)

Definition demo_leaf (i : Z) : Z := leaf_pte (frame5 i) UVM_PERM.

Definition demo_table (i : Z) : Z := Z.lor (PA2PTE (frame5 i)) PTE_V.

Definition demo_user : pmem :=
  PMem (store64 (store64 (store64 (store64 ∅
          (frame5 0 + 8 * 0) (demo_table 1)) (frame5 1 + 8 * 0) (demo_table 2))
          (frame5 2 + 8 * 0) (demo_leaf 3)) (frame5 2 + 8 * 1) (demo_leaf 4)) 0.

Lemma frame5_page i : 0 <= i < 5 → page kend5 (frame5 i).
Proof.
  intros H. unfold frame5, page, kend5. split; [| unfold PGSIZE; lia].
  assert (PHYSTOP mod PGSIZE = 0) as Hm by done. unfold PGSIZE in *. dlia.
Qed.

Lemma demo_entry t j :
  page kend5 t → idx j →
  entry (ram demo_user) t j =
  if (frame5 2 =? t) && (1 =? j) then demo_leaf 4
  else if (frame5 2 =? t) && (0 =? j) then demo_leaf 3
  else if (frame5 1 =? t) && (0 =? j) then demo_table 2
  else if (frame5 0 =? t) && (0 =? j) then demo_table 1 else 0.
Proof.
  intros Ht Hj. unfold demo_user. cbn [ram].
  assert (∀ i, 0 <= i < 5 → page kend5 (frame5 i)) as Hp by apply frame5_page.
  rewrite !(entry_store kend5) by (first [done | apply Hp; lia | unfold idx; lia]).
  rewrite (entry_zero ∅) by done. done.
Qed.

Lemma demo_table_at p t :
  tpath p → table_at (ram demo_user) (frame5 0) p = Some t →
  (p = [] ∧ t = frame5 0) ∨ (p = [0] ∧ t = frame5 1) ∨ (p = [0; 0] ∧ t = frame5 2).
Proof.
  intros [Hl Hp] E. destruct p as [| i p]; [left; by injection E as <- |].
  apply Forall_cons in Hp as [Hi Hp]. cbn [table_at] in E.
  rewrite demo_entry in E by (first [done | apply frame5_page; lia]).
  change (frame5 2 =? frame5 0) with false in E. change (frame5 1 =? frame5 0) with false in E.
  rewrite Z.eqb_refl in E. cbn [andb] in E. destruct (Z.eqb_spec 0 i) as [<- |]; [| done].
  change (flag (demo_table 1) PTE_V) with true in E. change (PTE2PA (demo_table 1)) with (frame5 1) in E.
  destruct p as [| j p]; [right; left; by injection E as <- |].
  apply Forall_cons in Hp as [Hj Hp]. cbn [table_at] in E.
  rewrite demo_entry in E by (first [done | apply frame5_page; lia]).
  change (frame5 2 =? frame5 1) with false in E. rewrite Z.eqb_refl in E. cbn [andb] in E.
  destruct (Z.eqb_spec 0 j) as [<- |].
  - change (flag (demo_table 2) PTE_V) with true in E. change (PTE2PA (demo_table 2)) with (frame5 2) in E.
    destruct p; [| simpl in Hl; lia]. right; right. by injection E as <-.
  - by change (frame5 0 =? frame5 1) with false in E.
Qed.

Lemma demo_upage va pa :
  upage (ram demo_user) (frame5 0) va = Some pa →
  (pa = frame5 3 ∧ va / PGSIZE = 0) ∨ (pa = frame5 4 ∧ va / PGSIZE = 1).
Proof.
  intros E. pose proof (upage_range _ _ _ _ E) as Hr. unfold upage in E.
  destruct (_ && _); [| done]. rewrite PX_page by (by apply below_MAXVA). unfold vleaf in E.
  destruct (table_at _ _ _) as [t |] eqn:Et; [| done].
  apply demo_table_at in Et; [| apply tpath_va].
  destruct Et as [[? _] | [[? _] | [Ep ->]]]; [done | done |]. injection Ep as -> ->.
  rewrite demo_entry in E by (first [apply frame5_page; lia | unfold idx; by apply PX_range]).
  rewrite Z.eqb_refl in E. cbn [andb] in E.
  destruct (Z.eqb_spec 1 (PX 0 va)) as [<- |]; [right | left].
  - change (flag (demo_leaf 4) PTE_V) with true in E. cbn iota in E.
    change (flag (demo_leaf 4) PTE_U) with true in E. cbn iota in E. by injection E as <-.
  - destruct (Z.eqb_spec 0 (PX 0 va)) as [<- |].
    + change (flag (demo_leaf 3) PTE_V) with true in E. cbn iota in E.
      change (flag (demo_leaf 3) PTE_U) with true in E. cbn iota in E. by injection E as <-.
    + change (frame5 1 =? frame5 2) with false in E. by change (frame5 0 =? frame5 2) with false in E.
Qed.

Lemma demo_user_ok : user_ok kend5 (ram demo_user) (frame5 0).
Proof.
  assert (∀ t, tables (ram demo_user) (frame5 0) t → t = frame5 0 ∨ t = frame5 1 ∨ t = frame5 2) as Ht.
  { intros t (p & Hp & E). apply demo_table_at in E; naive_solver. }
  constructor.
  - constructor.
    + intros t H. destruct (Ht t H) as [-> | [-> | ->]]; apply frame5_page; lia.
    + intros p q t Hp Hq E1 E2. apply demo_table_at in E1, E2; [| done ..].
      destruct E1 as [[-> ->] | [[-> ->] | [-> ->]]], E2 as [[-> ?] | [[-> ?] | [-> ?]]]; done.
    + intros q t i Hq Hl E Hi. apply demo_table_at in E; [| done].
      destruct E as [[-> ->] | [[-> ->] | [-> ->]]]; [| | simpl in Hl; lia]; rewrite demo_entry by (done || (apply frame5_page; lia));
        repeat match goal with |- context [?a =? ?b] => destruct (Z.eqb_spec a b); cbn [andb] end; done.
  - intros va pa E. destruct (demo_upage va pa E) as [[-> _] | [-> _]];
      (split; [apply frame5_page; lia |]); intros H; apply Ht in H; by destruct H as [? | [? | ?]].
  - intros va va' pa E1 E2. apply demo_upage in E1, E2. unfold same_page. apply Z.eqb_eq.
    destruct E1 as [[-> ?] | [-> ?]], E2 as [[? ?] | [? ?]]; congruence || done.
Qed.

(** Six bytes across the page boundary. *)
Lemma copyout_writes_witness :
  ∃ r s' k, copyout (frame5 0) 4093 [1; 2; 3; 4; 5; 6] demo_user (Ctx [] [] 0) = Ok r s' (Ctx [] [] 0) ∧
    freelist s' = freelist demo_user ∧
    wrote kend5 (frame5 0) 4093 (take k [1; 2; 3; 4; 5; 6]) (ram demo_user) (ram s') ∧
    ((r = 0 ∧ (6 <= k)%nat) ∨
     (r = -1 ∧ (k < 6)%nat ∧ upage (ram demo_user) (frame5 0) (4093 + Z.of_nat k) = None)).
Proof.
  apply (copyout_writes kend5 eq_refl (frame5 0) 4093 [1; 2; 3; 4; 5; 6] demo_user (Ctx [] [] 0));
    [apply demo_user_ok | lia].
Defined.

Definition demo_written : pmem :=
  match copyout (frame5 0) 4093 [1; 2; 3; 4; 5; 6] demo_user (Ctx [] [] 0) with
  | Ok _ s _ => s | _ => demo_user end.

Lemma copyout_copyin_witness :
  copyin (frame5 0) 4093 6 demo_written (Ctx [] [] 0) = Ok (0, [1; 2; 3; 4; 5; 6]) demo_written (Ctx [] [] 0).
Proof.
  apply (copyout_copyin kend5 eq_refl (frame5 0) 4093 [1; 2; 3; 4; 5; 6] demo_user (Ctx [] [] 0));
    [apply demo_user_ok | lia | repeat constructor; lia | vm_compute; reflexivity].
Defined.

Lemma copyinstr_reads_witness :
  ∃ r bs, copyinstr (frame5 0) 4095 128 demo_user (Ctx [] [] 0) = Ok (r, bs) demo_user (Ctx [] [] 0) ∧
    ureads (ram demo_user) (frame5 0) 4095 bs ∧ (length bs <= 128)%nat ∧
    ((r = 0 ∧ cstring bs) ∨
     (r = -1 ∧ Forall (λ b, b ≠ 0) bs ∧
      (length bs = 128%nat ∨ upage (ram demo_user) (frame5 0) (4095 + Z.of_nat (length bs)) = None))).
Proof.
  apply (copyinstr_reads kend5 eq_refl (frame5 0) 4095 128 demo_user (Ctx [] [] 0));
    [apply demo_user_ok | lia].
Defined.
