(* ===== verification/VmSpace.v ===== *)
(** * User address spaces

    An address space is a page table with the pages that are mapped below the
    trap frame.  [uvmalloc], [uvmdealloc], [uvmcopy] and [uvmfree] as operations on
    it: what a program sees, which pages it owns, and that no page is lost. *)

From S2P Require Import Prelude Monad Riscv Mem Kalloc Vm VmMap VmCopy.

(** What a page table shows at [va]: the flags of the page and the byte. *)
Definition shows (m : mem) (root va : Z) : option (Z * Z) :=
  match vleaf m root va with
  | Some e => Some (PTE_FLAGS e, mget m (PTE2PA e + va mod PGSIZE))
  | None => None
  end.

(** An entry that is a leaf *)
Definition user_leaf (e : Z) : Prop := 0 <= e < 2 ^ 54 ∧ PTE_FLAGS e ≠ PTE_V.

(** The frames mapped below the trap frame, and all pages of the space *)
Definition frames (m : mem) (root x : Z) : Prop := ∃ va e, 0 <= va < TRAPFRAME ∧ vleaf m root va = Some e ∧ PTE2PA e = x.
Definition owns (m : mem) (root x : Z) : Prop := tables m root x ∨ frames m root x.

Section space.
Context (kend : Z) (Hkend : 0 < kend).
Notation page := (page kend).
Notation wf := (wf kend).
Notation vm_ok := (vm_ok kend).
Notation free_pages := (free_pages kend).

Record as_ok (s : pmem) (l : list Z) (root : Z) : Prop := {
  as_vm : vm_ok s l root;
  as_leaf : ∀ va e, 0 <= va < TRAPFRAME → vleaf (ram s) root va = Some e →
    user_leaf e ∧ page (PTE2PA e) ∧ ¬ tables (ram s) root (PTE2PA e) ∧ PTE2PA e ∉ l;
  as_inj : ∀ va va' e e', 0 <= va < TRAPFRAME → 0 <= va' < TRAPFRAME →
    vleaf (ram s) root va = Some e → vleaf (ram s) root va' = Some e' → PTE2PA e = PTE2PA e' → same_page va va' = true }.

Lemma owns_page s l root x : as_ok s l root → owns (ram s) root x → page x ∧ x ∉ l.
Proof.
  intros H [Ht | (va & e & Hva & E & <-)].
  - split; [by apply (wf_page _ _ _ (ok_wf _ _ _ _ (as_vm _ _ _ H))) | by apply (ok_used _ _ _ _ (as_vm _ _ _ H))].
  - destruct (as_leaf _ _ _ H va e Hva E) as (_ & Hp & _ & Hl). done.
Qed.

(** ** Changes elsewhere in memory *)

Lemma as_agree s l root s' l' :
  as_ok s l root → (∀ t x, owns (ram s) root t → 0 <= x < PGSIZE → mget (ram s') (t + x) = mget (ram s) (t + x)) →
  free_pages s' l' → (∀ x, owns (ram s) root x → x ∉ l') →
  as_ok s' l' root ∧ (∀ x, owns (ram s') root x ↔ owns (ram s) root x) ∧
  (∀ va, vleaf (ram s') root va = vleaf (ram s) root va) ∧
  ∀ va, 0 <= va < TRAPFRAME → shows (ram s') root va = shows (ram s) root va.
Proof.
  intros H Hsame Hf Hl. pose proof (ok_wf _ _ _ _ (as_vm _ _ _ H)) as Hwf.
  assert (∀ t x, tables (ram s) root t → 0 <= x < PGSIZE → mget (ram s') (t + x) = mget (ram s) (t + x)) as Hst by (intros t x Ht; apply Hsame; by left).
  pose proof (agree_vleaf _ _ _ Hst) as Hv. pose proof (agree_tables _ _ _ Hst) as Ht.
  assert (∀ x, owns (ram s') root x ↔ owns (ram s) root x) as Ho.
  { intros x. unfold owns, frames. rewrite Ht. by setoid_rewrite Hv. }
  split; [constructor; [constructor |..] | split; [done | split; [done |]]].
  - done.
  - by apply (agree_wf kend (ram s)).
  - intros t Htt. apply Hl. left. by apply Ht.
  - intros va e Hva E. rewrite Hv in E. destruct (as_leaf _ _ _ H va e Hva E) as (H1 & H2 & H3 & H4).
    rewrite Ht. split; [done |]. split; [done |]. split; [done |]. apply Hl. right. by exists va, e.
  - intros va va' e e' Hva Hva'. rewrite !Hv. by apply (as_inj _ _ _ H).
  - intros va Hva. unfold shows. rewrite Hv. destruct (vleaf (ram s) root va) as [e |] eqn:E; [| done].
    rewrite Hsame; [done | right; by exists va, e | unfold PGSIZE; dlia].
Qed.

(** ** Steps

    A step of the space: pages move between it and the free list, and memory that
    belongs to neither is as before, as are the entries above. *)
Record as_step (root : Z) (s : pmem) (l : list Z) (s' : pmem) (l' : list Z) : Prop := {
  st_ok : as_ok s' l' root;
  st_conserve : ∀ x, x ∈ l' ∨ owns (ram s') root x ↔ x ∈ l ∨ owns (ram s) root x;
  st_above : ∀ va, TRAPFRAME <= va < VASIZE → vleaf (ram s') root va = vleaf (ram s) root va;
  st_frame : ∀ x, (∀ t, t ∈ l ∨ owns (ram s) root t → ¬ (t <= x < t + PGSIZE)) → mget (ram s') x = mget (ram s) x }.

Lemma as_step_refl root s l : as_ok s l root → as_step root s l s l.
Proof. intros H. by constructor. Qed.

Lemma as_step_trans root s1 l1 s2 l2 s3 l3 : as_step root s1 l1 s2 l2 → as_step root s2 l2 s3 l3 → as_step root s1 l1 s3 l3.
Proof.
  intros [A1 A2 A3 A4] [B1 B2 B3 B4]. constructor; [done | | |].
  - intros x. by rewrite B2, A2.
  - intros va Hva. by rewrite B3, A3.
  - intros x H. rewrite B4, A4; [done | done |]. intros t Ht. apply H. by apply A2.
Qed.

(** Another space, whose pages are its own, does not notice. *)
Definition apart (m : mem) (root root' : Z) : Prop := ∀ x, owns m root x → owns m root' x → False.

Lemma as_step_other root root' s l s' l' :
  as_step root s l s' l' → as_ok s l root' → as_ok s l root → apart (ram s) root root' →
  as_ok s' l' root' ∧ apart (ram s') root root' ∧ (∀ x, owns (ram s') root' x ↔ owns (ram s) root' x) ∧
  (∀ va, vleaf (ram s') root' va = vleaf (ram s) root' va) ∧
  ∀ va, 0 <= va < TRAPFRAME → shows (ram s') root' va = shows (ram s) root' va.
Proof.
  intros [A1 A2 A3 A4] H' H Hap. pose proof (ok_free _ _ _ _ (as_vm _ _ _ H)) as (_ & _ & Hfp). rewrite Forall_forall in Hfp.
  assert (∀ x, owns (ram s) root' x → ¬ (x ∈ l ∨ owns (ram s) root x)) as Hout.
  { intros x Hx [Hl | Hr]; [by apply (owns_page s l root' x H' Hx) | by apply (Hap x)]. }
  destruct (as_agree s l root' s' l' H') as (B1 & B2 & B3 & B4).
  - intros t x Ht Hx. apply A4. intros t' Ht'. apply (page_disjoint kend); [by apply (owns_page s l root') | | | done].
    + destruct Ht' as [? | ?]; [by apply Hfp | by apply (owns_page s l root)].
    + intros ->. by apply (Hout t' Ht).
  - apply A1.
  - intros x Hx Hl'. apply (Hout x Hx), A2. by left.
  - split; [done |]. split; [| done]. intros x H1 H2. apply (Hout x); [by apply B2 | apply A2; by right].
Qed.

(** ** Mapping one page *)

Lemma mappages_one root va pa perm s l h w n :
  vm_ok s l root → va mod PGSIZE = 0 → 0 <= va < MAXVA → 0 <= pa < 2 ^ 55 → 0 <= perm < 2 ^ 10 →
  vleaf (ram s) root va = None → L_kmem ∉ h →
  ∃ r s' l', mappages root va PGSIZE pa perm s (Ctx h w n) = Ok r s' (Ctx h w n) ∧ vm_ok s' l' root ∧ vm_ext root s l s' l' ∧ (length l <= length l' + 2)%nat ∧
    ((r = 0 ∧ ∀ x, 0 <= x < VASIZE → vleaf (ram s') root x = if same_page va x then Some (leaf_pte pa perm) else vleaf (ram s) root x) ∨
     (r = -1 ∧ l' = [] ∧ ∀ x, 0 <= x < VASIZE → vleaf (ram s') root x = vleaf (ram s) root x)).
Proof.
  intros Hok Hal Hva Hpa Hperm Hun Hh. assert (MAXVA = 2 ^ 38 ∧ VASIZE = 2 ^ 39 ∧ TRAPFRAME = 2 ^ 38 - 8192) as (EM & EV & ET) by done.
  assert (PGROUNDDOWN va = va ∧ PGROUNDDOWN (u64 (va + PGSIZE - 1)) = va) as [E1 E2].
  { rewrite u64_small by (unfold PGSIZE; lia). rewrite !PGROUNDDOWN_eq. unfold PGSIZE in *. split; dlia. }
  destruct (mappages_loop_ok kend Hkend 0 (mappages_fuel va va) root va pa perm s l h w n) as (r & s' & l' & E & Hok' & Hext & Hlen & j & Hj & Hr);
    try done; try (unfold PGSIZE; lia).
  - intros x Hx. rewrite (vleaf_same_page (ram s) root x va); [done | unfold PGSIZE in *; lia | lia |]. unfold same_page. apply Z.eqb_eq. unfold PGSIZE in *. dlia.
  - unfold mappages_fuel. lia.
  - exists r, s', l'. split; [| split; [done | split; [done | split; [lia |]]]].
    + unfold mappages. change (PGSIZE =? 0) with false. cbv iota. rewrite E1, E2. rewrite Z.mul_0_l, Z.add_0_r in E. exact E.
    + destruct Hr as [[-> ->] | (-> & Hlt & ->)]; [left | right]; (split; [done |]); [| split; [done |]].
      * intros x Hx. rewrite Hj by done. unfold map_run, same_page. rewrite PGROUNDDOWN_eq.
        destruct (Z.leb_spec va x), (Z.ltb_spec x (va + Z.of_nat 1 * PGSIZE)), (Z.eqb_spec (va / PGSIZE) (x / PGSIZE)); cbn [andb]; unfold PGSIZE in *; try done; try (exfalso; dlia).
        do 2 f_equal. dlia.
      * intros x Hx. rewrite Hj by done. assert (j = 0%nat) as -> by lia. apply map_run_0.
Qed.

Lemma ext_tables_in root s l s' l' t : vm_ext root s l s' l' → tables (ram s') root t → tables (ram s) root t ∨ t ∈ l.
Proof. intros [(used & -> & T) _] H. apply T in H as [? | ?]; [by left | right]. apply elem_of_app. by left. Qed.

(** Memory of a page that is neither a table nor free *)
Lemma ext_page root s l s' l' pa x :
  vm_ok s l root → vm_ext root s l s' l' → page pa → ¬ tables (ram s) root pa → pa ∉ l → 0 <= x < PGSIZE →
  mget (ram s') (pa + x) = mget (ram s) (pa + x).
Proof.
  intros Hok Hext Hp Ht Hl Hx. apply (ext_frame _ _ _ _ _ Hext). intros t [Htt | Hin].
  - apply (page_disjoint kend); [done | by apply (wf_page _ _ _ (ok_wf _ _ _ _ Hok)) | by intros -> | done].
  - destruct (ok_free _ _ _ _ Hok) as (_ & _ & Hfp). rewrite Forall_forall in Hfp. apply (page_disjoint kend); [done | by apply Hfp | by intros -> | done].
Qed.

(** The space is the same below the trap frame; it may have more tables. *)
Record as_same (root : Z) (s : pmem) (l : list Z) (s' : pmem) (l' : list Z) : Prop := {
  sm_ok : as_ok s' l' root;
  sm_conserve : ∀ x, x ∈ l' ∨ owns (ram s') root x ↔ x ∈ l ∨ owns (ram s) root x;
  sm_frame : ∀ x, (∀ t, t ∈ l ∨ owns (ram s) root t → ¬ (t <= x < t + PGSIZE)) → mget (ram s') x = mget (ram s) x;
  sm_shows : ∀ va, 0 <= va < TRAPFRAME → shows (ram s') root va = shows (ram s) root va }.

Lemma as_same_trans root s1 l1 s2 l2 s3 l3 : as_same root s1 l1 s2 l2 → as_same root s2 l2 s3 l3 → as_same root s1 l1 s3 l3.
Proof.
  intros [A1 A2 A3 A4] [B1 B2 B3 B4]. constructor; [done | | |].
  - intros x. by rewrite B2, A2.
  - intros x H. rewrite B3, A3; [done | done |]. intros t Ht. apply H. by apply A2.
  - intros va Hva. by rewrite B4, A4.
Qed.

Lemma as_ext_low root s l s' l' :
  as_ok s l root → vm_ok s' l' root → vm_ext root s l s' l' → (∀ x, 0 <= x < TRAPFRAME → vleaf (ram s') root x = vleaf (ram s) root x) →
  as_same root s l s' l'.
Proof.
  intros H Hok Hext Hv. pose proof (ext_used _ _ _ _ _ Hext) as (used & El & Tu).
  assert (∀ x, frames (ram s') root x ↔ frames (ram s) root x) as Hf.
  { intros x. unfold frames. split; intros (va & e & Hva & E & <-); exists va, e; [rewrite Hv in E by done | rewrite <- Hv in E by done]; done. }
  constructor; [constructor | | |].
  - done.
  - intros va e Hva E. rewrite Hv in E by done. destruct (as_leaf _ _ _ H va e Hva E) as (H1 & H2 & H3 & H4). rewrite El, elem_of_app in H4.
    split; [done |]. split; [done |]. split; [rewrite Tu; tauto | tauto].
  - intros va va' e e' Hva Hva'. rewrite !Hv by done. by apply (as_inj _ _ _ H).
  - intros x. unfold owns. rewrite Tu, Hf, El, elem_of_app. tauto.
  - intros x Hx. apply (ext_frame _ _ _ _ _ Hext). intros t [Ht | Ht]; apply Hx; [right; by left | by left].
  - intros va Hva. unfold shows. rewrite Hv by done. destruct (vleaf (ram s) root va) as [e |] eqn:E; [| done].
    destruct (as_leaf _ _ _ H va e Hva E) as (_ & H2 & H3 & H4). rewrite (ext_page root s l s' l'); try done; [apply H | unfold PGSIZE; dlia].
Qed.

Lemma as_ext root s l s' l' :
  as_ok s l root → vm_ok s' l' root → vm_ext root s l s' l' → (∀ x, 0 <= x < VASIZE → vleaf (ram s') root x = vleaf (ram s) root x) →
  as_step root s l s' l' ∧ ∀ va, 0 <= va < TRAPFRAME → shows (ram s') root va = shows (ram s) root va.
Proof.
  intros H Hok Hext Hv. assert (0 <= TRAPFRAME < VASIZE) as HT by done.
  destruct (as_ext_low root s l s' l' H Hok Hext) as [H1 H2 H3 H4]; [intros x Hx; apply Hv; lia |].
  split; [constructor; [done | done | intros va Hva; apply Hv; lia | done] | done].
Qed.

Lemma leaf_pte_flags pa perm : page pa → 0 <= perm < 2 ^ 10 → PTE_FLAGS (leaf_pte pa perm) = Z.lor perm PTE_V ∧ PTE2PA (leaf_pte pa perm) = pa.
Proof.
  intros Hp Hperm. pose proof (page_range kend Hkend pa Hp). rewrite leaf_pte_pa by (lia || by destruct Hp).
  rewrite leaf_pte_lor, PTE_FLAGS_PA2PTE; [done | lia | by apply perm_V_range].
Qed.

(** A page that is nobody's is mapped. *)
Lemma as_mapped root va pa perm s l s' l' :
  as_ok s l root → vm_ok s' l' root → vm_ext root s l s' l' → 0 <= va < TRAPFRAME → page pa → pa ∉ l → ¬ owns (ram s) root pa →
  0 <= perm < 2 ^ 10 → Z.lor perm PTE_V ≠ PTE_V → vleaf (ram s) root va = None →
  (∀ x, 0 <= x < VASIZE → vleaf (ram s') root x = if same_page va x then Some (leaf_pte pa perm) else vleaf (ram s) root x) →
  as_ok s' l' root ∧ (∀ x, x ∈ l' ∨ owns (ram s') root x ↔ x = pa ∨ x ∈ l ∨ owns (ram s) root x) ∧
  (∀ x, 0 <= x < TRAPFRAME → shows (ram s') root x =
     if same_page va x then Some (Z.lor perm PTE_V, mget (ram s) (pa + x mod PGSIZE)) else shows (ram s) root x).
Proof.
  intros H Hok Hext Hva Hpa Hl Hno Hperm Hfl Hun Hv. assert (TRAPFRAME < MAXVA < VASIZE) as HT by done.
  destruct (leaf_pte_flags pa perm Hpa Hperm) as [Efl Epa]. pose proof (page_range kend Hkend pa Hpa) as Hpr.
  pose proof (ext_used _ _ _ _ _ Hext) as (used & El & Tu). rewrite El, elem_of_app in Hl.
  assert (∀ x e, 0 <= x < TRAPFRAME → vleaf (ram s') root x = Some e →
    (same_page va x = true ∧ e = leaf_pte pa perm) ∨ (same_page va x = false ∧ vleaf (ram s) root x = Some e)) as Hcase.
  { intros x e Hx. rewrite Hv by lia. destruct (same_page va x); [intros [= <-]; by left | by right]. }
  assert (∀ x e, 0 <= x < TRAPFRAME → vleaf (ram s) root x = Some e → PTE2PA e ≠ pa) as Hne.
  { intros x e Hx E Epe. apply Hno. right. by exists x, e. }
  assert (∀ x, frames (ram s') root x ↔ x = pa ∨ frames (ram s) root x) as Hf.
  { intros x. split.
    - intros (y & e & Hy & E & <-). destruct (Hcase y e Hy E) as [[_ ->] | [_ E']]; [by left |]. right. by exists y, e.
    - intros [-> | (y & e & Hy & E & <-)].
      + exists va, (leaf_pte pa perm). rewrite Hv by lia. unfold same_page. by rewrite Z.eqb_refl.
      + exists y, e. split; [done |]. split; [| done]. rewrite Hv by lia. destruct (same_page va y) eqn:Es; [| done].
        rewrite (vleaf_same_page (ram s) root va y) in Hun by (done || lia). congruence. }
  split; [constructor; [done |..] | split].
  - intros x e Hx E. destruct (Hcase x e Hx E) as [[_ ->] | [_ E']].
    + rewrite Epa. split; [split; [by apply leaf_pte_range; lia | by rewrite Efl] |]. split; [done |]. split; [| tauto].
      rewrite Tu. intros [Ht | Ht]; [apply Hno; by left | tauto].
    + destruct (as_leaf _ _ _ H x e Hx E') as (H1 & H2 & H3 & H4). rewrite El, elem_of_app in H4. split; [done |]. split; [done |]. rewrite Tu. tauto.
  - intros x x' e e' Hx Hx' E E' Ep. destruct (Hcase x e Hx E) as [[S1 ->] | [S1 E1]], (Hcase x' e' Hx' E') as [[S2 ->] | [S2 E2]].
    + unfold same_page in *. apply Z.eqb_eq in S1, S2. apply Z.eqb_eq. congruence.
    + rewrite Epa in Ep. by destruct (Hne x' e' Hx' E2).
    + rewrite Epa in Ep. by destruct (Hne x e Hx E1).
    + by apply (as_inj _ _ _ H x x' e e').
  - intros x. unfold owns. rewrite Tu, Hf, El, elem_of_app. tauto.
  - intros x Hx. unfold shows. rewrite Hv by lia. destruct (same_page va x).
    + rewrite Efl, Epa. do 2 f_equal. apply (ext_page root s l s' l'); [apply H | done | done | | | unfold PGSIZE; dlia].
      * intros Ht. apply Hno. by left.
      * rewrite El, elem_of_app. tauto.
    + destruct (vleaf (ram s) root x) as [e |] eqn:E; [| done]. destruct (as_leaf _ _ _ H x e Hx E) as (_ & H2 & H3 & H4).
      rewrite (ext_page root s l s' l'); try done; [apply H | unfold PGSIZE; dlia].
Qed.

(** A page that is nobody's is changed or freed. *)
Lemma as_page_changed root s l s' l' a :
  as_ok s l root → page a → ¬ owns (ram s) root a → same_outside a (ram s) (ram s') → free_pages s' l' → (∀ x, x ∈ l' → x ∈ l ∨ x = a) →
  as_ok s' l' root ∧ (∀ x, owns (ram s') root x ↔ owns (ram s) root x) ∧ (∀ va, vleaf (ram s') root va = vleaf (ram s) root va) ∧
  ∀ va, 0 <= va < TRAPFRAME → shows (ram s') root va = shows (ram s) root va.
Proof.
  intros H Ha Hno Hout Hf Hl. apply (as_agree s l); [done | | done |].
  - intros t x Ht Hx. apply Hout. apply (page_disjoint kend); [by apply (owns_page s l root) | done | by intros -> | done].
  - intros x Hx Hin. destruct (Hl x Hin) as [? | ->]; [by apply (owns_page s l root x H Hx) | done].
Qed.

(** [kalloc], filling the page, and [mappages]; the page is freed again if the
    table cannot be extended. *)
Lemma fresh_page root va perm (fill : mem → mem) s a l h w n :
  as_ok s (a :: l) root → va mod PGSIZE = 0 → 0 <= va < TRAPFRAME → vleaf (ram s) root va = None →
  0 <= perm < 2 ^ 10 → Z.lor perm PTE_V ≠ PTE_V → (∀ m, same_outside a m (fill m)) → L_kmem ∉ h →
  ∃ s1, kalloc s (Ctx h w n) = Ok a s1 (Ctx h w n) ∧ a ≠ 0 ∧ same_outside a (ram s) (ram s1) ∧
  let m := fill (ram s1) in
  ∃ r s3, mappages root va PGSIZE a perm (set_ram m s1) (Ctx h w n) = Ok r s3 (Ctx h w n) ∧
    ((r = 0 ∧ ∃ l3, as_step root s (a :: l) s3 l3 ∧ (length l <= length l3 + 2)%nat ∧ ∀ x, 0 <= x < TRAPFRAME → shows (ram s3) root x =
        if same_page va x then Some (Z.lor perm PTE_V, mget m (a + x mod PGSIZE)) else shows (ram s) root x) ∨
     (r = -1 ∧ ∃ s4, kfree kend a s3 (Ctx h w n) = Ok tt s4 (Ctx h w n) ∧ as_step root s (a :: l) s4 [a] ∧ (length l <= 2)%nat ∧
        ∀ x, 0 <= x < TRAPFRAME → shows (ram s4) root x = shows (ram s) root x)).
Proof.
  intros H Hal Hva Hun Hperm Hfl Hfill Hh. destruct (kalloc_ok kend s h w n a l (ok_free _ _ _ _ (as_vm _ _ _ H)) Hh) as (Ek & Hf1 & Ha & Hal' & Ha0 & Hout & _).
  set (s1 := PMem _ _) in Ek, Hf1, Hout. exists s1. split; [done |]. split; [done |]. split; [done |]. intros m. set (s2 := set_ram m s1).
  assert (¬ owns (ram s) root a) as Hno by (intros Ho; apply (owns_page s (a :: l) root a H Ho); left).
  assert (same_outside a (ram s) (ram s2)) as Hout2 by (intros x Hx; unfold s2, m; cbn [ram set_ram]; rewrite Hfill by done; by apply Hout).
  assert (free_pages s2 l) as Hf2.
  { destruct Hf1 as (Hc & Hnd & Hp). split; [| done]. apply (chain_outside kend (ram s1) _ a); try done. }
  destruct (as_page_changed root s (a :: l) s2 l a H Ha Hno Hout2 Hf2) as (H2 & Ho2 & Hv2 & Hs2); [intros x Hx; left; by right |].
  assert (TRAPFRAME < MAXVA ∧ PHYSTOP < 2 ^ 55) as [HT HP] by done. pose proof Ha as [_ Hae]. pose proof (page_range kend Hkend a Ha) as Har.
  destruct (mappages_one root va a perm s2 l h w n (as_vm _ _ _ H2)) as (r & s3 & l3 & E & Hok3 & Hext & Hlen & Hr); rewrite ?Hv2; try done; try lia.
  assert (∀ x, (∀ t, t ∈ a :: l ∨ owns (ram s) root t → ¬ (t <= x < t + PGSIZE)) → mget (ram s3) x = mget (ram s) x) as Hframe.
  { intros x Hx. rewrite (ext_frame _ _ _ _ _ Hext).
    - apply Hout2. apply Hx. left. left.
    - intros t [Ht | Ht]; apply Hx; [right; apply Ho2; by left | left; by right]. }
  exists r, s3. split; [done |]. destruct Hr as [[-> Hv3] | (-> & -> & Hv3)].
  - left. split; [done |]. exists l3.
    destruct (as_mapped root va a perm s2 l s3 l3) as (H3 & Hc3 & Hs3); try done; [by rewrite Ho2 | by rewrite Hv2 |].
    split; [constructor; [done | | |] | split; [done |]].
    + intros x. rewrite Hc3, Ho2, elem_of_cons. tauto.
    + intros x Hx. rewrite Hv3, Hv2 by (assert (0 <= TRAPFRAME) by done; lia). destruct (same_page va x) eqn:Es; [| done]. unfold same_page in Es. apply Z.eqb_eq in Es.
      assert (TRAPFRAME mod PGSIZE = 0) as Hm by done. unfold PGSIZE in *. exfalso. dlia.
    + done.
    + intros x Hx. rewrite Hs3, Hs2 by done. done.
  - right. split; [done |]. destruct (as_ext root s2 l s3 [] H2 Hok3 Hext Hv3) as [Hst3 Hs3].
    assert (¬ owns (ram s3) root a) as Hno3.
    { intros Ho. destruct (proj1 (st_conserve _ _ _ _ _ Hst3 a)) as [? | Ho']; [by right | done | by apply Hno, Ho2]. }
    destruct (kfree_ok kend a s3 h w n [] Ha (ok_free _ _ _ _ Hok3)) as (Ef & Hf4 & Hout4); [apply not_elem_of_nil | done | done |].
    set (s4 := PMem _ a) in *. exists s4. split; [done |].
    destruct (as_page_changed root s3 [] s4 [a] a (st_ok _ _ _ _ _ Hst3) Ha Hno3 Hout4 Hf4) as (H4 & Ho4 & Hv4 & Hs4); [intros x; rewrite list_elem_of_singleton; by right |].
    split; [constructor; [done | | |] | split; [done |]].
    + intros x. rewrite Ho4, list_elem_of_singleton, elem_of_cons. pose proof (st_conserve _ _ _ _ _ Hst3 x) as Hc. rewrite Ho2, elem_of_nil in Hc. tauto.
    + intros x Hx. by rewrite Hv4, (st_above _ _ _ _ _ Hst3), Hv2.
    + intros x Hx. rewrite Hout4 by (apply Hx; left; left). by apply Hframe.
    + intros x Hx. by rewrite Hs4, Hs3, Hs2.
Qed.

(** ** Unmapping *)

Lemma shows_None m root va : shows m root va = None ↔ vleaf m root va = None.
Proof. unfold shows. by destruct (vleaf m root va). Qed.

Lemma shows_same_page m root va va' : 0 <= va < VASIZE → 0 <= va' < VASIZE → same_page va va' = true → shows m root va = None ↔ shows m root va' = None.
Proof. intros H H' E. by rewrite !shows_None, (vleaf_same_page m root va va'). Qed.

(** The entry of a page that is mapped is cleared, and its frame freed. *)
Lemma as_unmapped root va e t s l s1 :
  as_ok s l root → 0 <= va < TRAPFRAME → vleaf (ram s) root va = Some e → table_at (ram s) root [PX 2 va; PX 1 va] = Some t →
  let pa := PTE2PA e in same_outside pa (ram s) (ram s1) → free_pages s1 (pa :: l) →
  let s2 := set_ram (store64 (ram s1) (t + 8 * PX 0 va) 0) s1 in
  as_step root s l s2 (pa :: l) ∧ ∀ x, 0 <= x < TRAPFRAME → shows (ram s2) root x = if same_page va x then None else shows (ram s) root x.
Proof.
  intros H Hva E Et pa Hout Hf s2. assert (TRAPFRAME < MAXVA < VASIZE) as HT by done. destruct (as_leaf _ _ _ H va e Hva E) as (_ & Hp & Hnt & Hl). fold pa in Hp, Hnt, Hl.
  pose proof (as_vm _ _ _ H) as [_ Hwf Hu].
  assert (∀ t x, tables (ram s) root t → 0 <= x < PGSIZE → mget (ram s1) (t + x) = mget (ram s) (t + x)) as Hst.
  { intros t' x Ht Hx. apply Hout. apply (page_disjoint kend); [by apply (wf_page _ _ _ Hwf) | done | by intros -> | done]. }
  pose proof (agree_vleaf _ _ _ Hst) as Hv1. pose proof (agree_tables _ _ _ Hst) as Ht1.
  assert (vm_ok s1 (pa :: l) root) as Hok1.
  { constructor; [done | by apply (agree_wf kend (ram s)) |]. intros t' Ht'. apply Ht1 in Ht'. rewrite not_elem_of_cons. split; [by intros -> | by apply Hu]. }
  assert (table_at (ram s1) root [PX 2 va; PX 1 va] = Some t) as Et1 by (by rewrite (agree_table_at _ _ _ Hst) by apply tpath_va).
  destruct (map_one_ok kend s1 (pa :: l) root va t 0 Hok1 Et1 ltac:(lia) ltac:(lia)) as (Hok2 & Hext & Hv2). fold s2 in Hok2, Hext, Hv2.
  change (flag 0 PTE_V) with false in Hv2. cbv iota in Hv2.
  assert (∀ x, tables (ram s2) root x ↔ tables (ram s) root x) as Ht2.
  { intros x. rewrite <- Ht1. apply (tables_leaf_store kend (ram s1) root [PX 2 va; PX 1 va] t); [apply Hok1 | apply tpath_va | done | done | by apply PX_range]. }
  assert (∀ x, 0 <= x < VASIZE → vleaf (ram s2) root x = if same_page va x then None else vleaf (ram s) root x) as Hv.
  { intros x Hx. by rewrite Hv2, Hv1 by done. }
  assert (∀ x ex, 0 <= x < TRAPFRAME → vleaf (ram s2) root x = Some ex → same_page va x = false ∧ vleaf (ram s) root x = Some ex ∧ PTE2PA ex ≠ pa) as Hcase.
  { intros x ex Hx. rewrite Hv by lia. destruct (same_page va x) eqn:Es; [done |]. intros Ex. split; [done |]. split; [done |]. intros Epa.
    rewrite (as_inj _ _ _ H va x e ex) in Es by done. done. }
  assert (∀ x, frames (ram s) root x ↔ x = pa ∨ frames (ram s2) root x) as Hfr.
  { intros x. split.
    - intros (y & ey & Hy & Ey & <-). destruct (same_page va y) eqn:Es.
      + left. rewrite (vleaf_same_page (ram s) root va y) in E by (done || lia). unfold pa. congruence.
      + right. exists y, ey. split; [done |]. rewrite Hv, Es by lia. done.
    - intros [-> | (y & ey & Hy & Ey & <-)]; [by exists va, e |]. destruct (Hcase y ey Hy Ey) as (_ & Ey' & _). by exists y, ey. }
  assert (∀ x, ¬ (t <= x < t + PGSIZE) → mget (ram s2) x = mget (ram s1) x) as Hst2.
  { intros x Hx. apply mget_store64_out. pose proof (PX_range 0 va ltac:(lia)). unfold PGSIZE in Hx. lia. }
  assert (tables (ram s) root t) as Htt by (eexists; split; [apply tpath_va | exact Et]).
  split; [constructor; [constructor; [done |..] |..] |].
  - intros x ex Hx Ex. destruct (Hcase x ex Hx Ex) as (_ & Ex' & Hne). destruct (as_leaf _ _ _ H x ex Hx Ex') as (H1 & H2 & H3 & H4).
    rewrite Ht2, not_elem_of_cons. tauto.
  - intros x x' ex ex' Hx Hx' Ex Ex'. destruct (Hcase x ex Hx Ex) as (_ & F & _), (Hcase x' ex' Hx' Ex') as (_ & F' & _). by apply (as_inj _ _ _ H).
  - intros x. unfold owns. rewrite Ht2, Hfr, elem_of_cons. tauto.
  - intros x Hx. rewrite Hv by (assert (0 <= TRAPFRAME) by done; lia). destruct (same_page va x) eqn:Es; [| done]. unfold same_page in Es. apply Z.eqb_eq in Es.
    assert (TRAPFRAME mod PGSIZE = 0) as Hm by done. unfold PGSIZE in *. exfalso. dlia.
  - intros x Hx. rewrite Hst2 by (apply Hx; right; by left). apply Hout. apply Hx. right. right. by exists va, e.
  - intros x Hx. unfold shows. rewrite Hv by lia. destruct (same_page va x) eqn:Es; [done |]. destruct (vleaf (ram s) root x) as [ex |] eqn:Ex; [| done].
    destruct (Hcase x ex Hx) as (_ & _ & Hne); [by rewrite Hv, Es by lia |]. destruct (as_leaf _ _ _ H x ex Hx Ex) as (_ & H2 & H3 & H4).
    assert (0 <= x mod PGSIZE < PGSIZE) as Hm by (unfold PGSIZE; dlia).
    do 2 f_equal. rewrite Hst2, Hout; [done | by apply (page_disjoint kend) |]. apply (page_disjoint kend); [done | by apply (wf_page _ _ _ Hwf) | intros Eq; apply H3; by rewrite Eq | done].
Qed.

(** The entry of a page that is mapped *)
Lemma walk_leaf root va e s l x :
  vm_ok s l root → 0 <= va < MAXVA → vleaf (ram s) root va = Some e →
  ∃ t, let pte := t + 8 * PX 0 va in
    table_at (ram s) root [PX 2 va; PX 1 va] = Some t ∧ walk root va false s x = Ok pte s x ∧ pte ≠ 0 ∧ load64 (ram s) pte = e ∧ flag e PTE_V = true.
Proof.
  intros H Hva E. unfold vleaf in E. destruct (table_at (ram s) root [PX 2 va; PX 1 va]) as [t |] eqn:Et; [| done].
  unfold entry in E. destruct (flag (load64 (ram s) (t + 8 * PX 0 va)) PTE_V) eqn:Ev; [| done]. injection E as Ee.
  assert (0 < t) as Ht0. { apply (page_range kend Hkend). apply (wf_page _ _ _ (ok_wf _ _ _ _ H)). eexists; split; [apply tpath_va | exact Et]. }
  pose proof (PX_range 0 va ltac:(lia)) as Hpx. exists t. cbv zeta. rewrite walk_false, Et by lia. rewrite Ee in Ev. repeat split; try done. lia.
Qed.

Lemma walk_mapped root va s l x :
  as_ok s l root → 0 <= va < TRAPFRAME → shows (ram s) root va ≠ None →
  ∃ e t, let pte := t + 8 * PX 0 va in
    vleaf (ram s) root va = Some e ∧ table_at (ram s) root [PX 2 va; PX 1 va] = Some t ∧
    walk root va false s x = Ok pte s x ∧ pte ≠ 0 ∧ load64 (ram s) pte = e ∧ flag e PTE_V = true.
Proof.
  intros H Hva Hm. assert (TRAPFRAME < MAXVA) as HT by done. rewrite shows_None in Hm. destruct (vleaf (ram s) root va) as [e |] eqn:E; [| done].
  destruct (walk_leaf root va e s l x (as_vm _ _ _ H) ltac:(lia) E) as (t & Ht). by exists e, t.
Qed.

(** One turn of the loop of [uvmunmap], with [k] what follows the store *)
Lemma unmap_turn root va s l h w n (k : K pmem unit) :
  as_ok s l root → 0 <= va < TRAPFRAME → shows (ram s) root va ≠ None → L_kmem ∉ h →
  let turn :=
    pte <- walk root va false ;;
    if pte =? 0 then panic "uvmunmap: walk"
    else
      v <- rd64 pte ;;
      if negb (flag v PTE_V) then panic "uvmunmap: not mapped"
      else if PTE_FLAGS v =? PTE_V then panic "uvmunmap: not a leaf"
      else when true (kfree' kend (PTE2PA v)) ;; wr64 pte 0 ;; k in
  ∃ s' l', turn s (Ctx h w n) = k s' (Ctx h w n) ∧ as_step root s l s' l' ∧
    ∀ x, 0 <= x < TRAPFRAME → shows (ram s') root x = if same_page va x then None else shows (ram s) root x.
Proof.
  intros H Hva Hm Hh turn. destruct (walk_mapped root va s l (Ctx h w n) H Hva Hm) as (e & t & E & Et & Ew & Hne & Ee & Ev).
  destruct (as_leaf _ _ _ H va e Hva E) as ([_ Hfl] & Hp & Hnt & Hl).
  destruct (kfree_ok kend (PTE2PA e) s h w n l Hp (ok_free _ _ _ _ (as_vm _ _ _ H)) Hl Hh Hkend) as (Ef & Hf1 & Hout). set (s1 := PMem _ _) in Ef, Hf1, Hout.
  destruct (as_unmapped root va e t s l s1 H Hva E Et Hout Hf1) as [Hst Hs].
  eexists _, _. split; [| split; [exact Hst | exact Hs]].
  unfold turn. kstep Ew. destruct (Z.eqb_spec (t + 8 * PX 0 va) 0); [done |]. mstep. rewrite Ee, Ev. cbn [negb].
  destruct (Z.eqb_spec (PTE_FLAGS e) PTE_V); [done |]. cbn [when]. unfold kfree'. kstep Ef. kstep (wr64_ok (t + 8 * PX 0 va) 0 s1 (Ctx h w n)). done.
Qed.

Definition cleared (root lo hi : Z) (s s' : pmem) : Prop :=
  ∀ x, 0 <= x < TRAPFRAME → shows (ram s') root x = if (lo <=? x) && (x <? hi) then None else shows (ram s) root x.

Lemma uvmunmap_loop_ok k fuel root a s l h w n :
  as_ok s l root → a mod PGSIZE = 0 → 0 <= a → a + Z.of_nat k * PGSIZE <= TRAPFRAME →
  (∀ x, a <= x < a + Z.of_nat k * PGSIZE → shows (ram s) root x ≠ None) → L_kmem ∉ h → (k < fuel)%nat →
  ∃ s' l', uvmunmap_loop kend fuel root a (a + Z.of_nat k * PGSIZE) true s (Ctx h w n) = Ok tt s' (Ctx h w n) ∧ as_step root s l s' l' ∧
    cleared root a (a + Z.of_nat k * PGSIZE) s s'.
Proof.
  revert k root a s l. induction fuel as [| f IH]; intros k root a s l H Hal Ha Hb Hm Hh Hk; [lia |]. assert (TRAPFRAME = 2 ^ 38 - 8192) as ET by done.
  cbn [uvmunmap_loop]. destruct k as [| k].
  { rewrite Z.mul_0_l, Z.add_0_r. rewrite Z.ltb_irrefl. exists s, l. split; [done |]. split; [by apply as_step_refl |].
    intros x Hx. destruct (Z.leb_spec a x), (Z.ltb_spec x a); (done || lia). }
  destruct (Z.ltb_spec a (a + Z.of_nat (S k) * PGSIZE)); [| unfold PGSIZE in *; lia].
  edestruct (unmap_turn root a s l h w n) as (s1 & l1 & E & Hst & Hs); [done | unfold PGSIZE in *; lia | apply Hm; unfold PGSIZE; lia | done |].
  rewrite E. rewrite u64_small by (unfold PGSIZE in *; lia). replace (a + Z.of_nat (S k) * PGSIZE) with (a + PGSIZE + Z.of_nat k * PGSIZE) in * by lia.
  assert (∀ x, 0 <= x → same_page a x = (a <=? x) && (x <? a + PGSIZE)) as Hsp.
  { intros x Hx. unfold same_page. destruct (Z.leb_spec a x), (Z.ltb_spec x (a + PGSIZE)), (Z.eqb_spec (a / PGSIZE) (x / PGSIZE)); cbn [andb]; unfold PGSIZE in *; try done; exfalso; dlia. }
  destruct (IH k root (a + PGSIZE) s1 l1) as (s2 & l2 & E2 & Hst2 & Hs2); [apply Hst | unfold PGSIZE in *; dlia | unfold PGSIZE in *; lia | done | | done | lia |].
  { intros x Hx. rewrite Hs, Hsp by (unfold PGSIZE in *; lia). destruct (Z.ltb_spec x (a + PGSIZE)); [lia |]. rewrite andb_false_r. apply Hm. unfold PGSIZE in *. lia. }
  exists s2, l2. split; [done |]. split; [by eapply as_step_trans |].
  intros x Hx. rewrite Hs2, Hs, Hsp by lia.
  destruct (Z.leb_spec (a + PGSIZE) x), (Z.leb_spec a x), (Z.ltb_spec x (a + PGSIZE)), (Z.ltb_spec x (a + PGSIZE + Z.of_nat k * PGSIZE)); cbn [andb]; unfold PGSIZE in *; (done || lia).
Qed.

Lemma uvmunmap_ok root va npages s l h w n :
  as_ok s l root → va mod PGSIZE = 0 → 0 <= va → 0 <= npages → va + npages * PGSIZE <= TRAPFRAME →
  (∀ x, va <= x < va + npages * PGSIZE → shows (ram s) root x ≠ None) → L_kmem ∉ h →
  ∃ s' l', uvmunmap kend root va npages true s (Ctx h w n) = Ok tt s' (Ctx h w n) ∧ as_step root s l s' l' ∧ cleared root va (va + npages * PGSIZE) s s'.
Proof.
  intros H Hal Hva Hn Hb Hm Hh. assert (TRAPFRAME = 2 ^ 38 - 8192) as ET by done. unfold uvmunmap. rewrite Hal. cbn [Z.eqb negb].
  rewrite u64_small by (unfold PGSIZE in *; lia). destruct (Z_of_nat_complete npages Hn) as [k ->].
  apply uvmunmap_loop_ok; try done. replace (_ / PGSIZE) with (Z.of_nat k) by (unfold PGSIZE; dlia). lia.
Qed.

Lemma uvmdealloc_ok root oldsz newsz s l h w n :
  as_ok s l root → 0 <= newsz <= oldsz → oldsz <= TRAPFRAME →
  (∀ x, PGROUNDUP newsz <= x < PGROUNDUP oldsz → shows (ram s) root x ≠ None) → L_kmem ∉ h →
  ∃ s' l', uvmdealloc kend root oldsz newsz s (Ctx h w n) = Ok newsz s' (Ctx h w n) ∧ as_step root s l s' l' ∧
    cleared root (PGROUNDUP newsz) (PGROUNDUP oldsz) s s'.
Proof.
  intros H Hsz Hold Hm Hh. assert (TRAPFRAME = 2 ^ 38 - 8192) as ET by done. assert (TRAPFRAME mod PGSIZE = 0) as Hal by done.
  destruct (PGROUNDUP_bounds newsz) as [H1 H2]; [unfold PGSIZE in *; lia |]. destruct (PGROUNDUP_bounds oldsz) as [H3 H4]; [unfold PGSIZE in *; lia |].
  assert (PGROUNDUP oldsz <= TRAPFRAME) as H5 by (unfold PGSIZE in *; dlia).
  unfold uvmdealloc. destruct (Z.leb_spec oldsz newsz).
  { assert (oldsz = newsz) as -> by lia. exists s, l. split; [done |]. split; [by apply as_step_refl |]. intros x Hx.
    destruct (Z.leb_spec (PGROUNDUP newsz) x), (Z.ltb_spec x (PGROUNDUP newsz)); (done || lia). }
  destruct (Z.ltb_spec (PGROUNDUP newsz) (PGROUNDUP oldsz)) as [Hlt | Hge].
  - set (np := (PGROUNDUP oldsz - PGROUNDUP newsz) / PGSIZE). assert (0 <= np < 2 ^ 27 ∧ PGROUNDUP newsz + np * PGSIZE = PGROUNDUP oldsz) as [Hnp E] by (unfold np, PGSIZE in *; dlia).
    unfold i32. rewrite signed_small, u64_small by lia.
    destruct (uvmunmap_ok root (PGROUNDUP newsz) np s l h w n) as (s' & l' & Er & Hst & Hs); rewrite ?E; try done; try lia.
    exists s', l'. kstep Er. rewrite E in Hs. done.
  - exists s, l. split; [done |]. split; [by apply as_step_refl |]. intros x Hx.
    destruct (Z.leb_spec (PGROUNDUP newsz) x), (Z.ltb_spec x (PGROUNDUP oldsz)); (done || lia).
Qed.

(** ** Growing *)

(** A turn of the loops of [uvmalloc] and [uvmcopy]: a page is allocated, filled
    with [bs] and mapped, or else [fail] cleans up. *)
Lemma page_turn {B} root va perm fill (bs : Z → Z) s l h w n (fail k : K pmem B) :
  as_ok s l root → va mod PGSIZE = 0 → 0 <= va < TRAPFRAME → shows (ram s) root va = None →
  0 <= perm < 2 ^ 10 → Z.lor perm PTE_V ≠ PTE_V → L_kmem ∉ h → (∀ a m, same_outside a m (fill a m)) →
  (∀ a m x, a ∈ l → same_outside a (ram s) m → 0 <= x < PGSIZE → mget (fill a m) (a + x) = bs x) →
  let turn :=
    p <- kalloc ;;
    if p =? 0 then fail
    else
      modify (λ s, set_ram (fill p (ram s)) s) ;;
      r <- mappages root va PGSIZE p perm ;;
      if negb (r =? 0) then kfree' kend p ;; fail else k in
  ∃ (b : bool) s' l', turn s (Ctx h w n) = (if b then k else fail) s' (Ctx h w n) ∧ as_step root s l s' l' ∧ (length l <= (if b then length l' else 0) + 3)%nat ∧
    ∀ x, 0 <= x < TRAPFRAME → shows (ram s') root x = if b && same_page va x then Some (Z.lor perm PTE_V, bs (x mod PGSIZE)) else shows (ram s) root x.
Proof.
  intros H Hal Hva Hun Hperm Hfl Hh Hfill Hbs turn. unfold turn. destruct l as [| a l].
  { exists false, s, []. split; [| split; [by apply as_step_refl | split; [simpl; lia | done]]].
    kstep (kalloc_empty kend s h w n (ok_free _ _ _ _ (as_vm _ _ _ H)) Hh). done. }
  apply shows_None in Hun.
  destruct (fresh_page root va perm (fill a) s a l h w n H Hal Hva Hun Hperm Hfl (Hfill a) Hh) as (s1 & Ek & Ha0 & Hout & r & s3 & Em & Hr).
  kstep Ek. destruct (Z.eqb_spec a 0); [done |]. kstep. kstep Em. destruct Hr as [(-> & l3 & Hst & Hlen & Hs) | (-> & s4 & Ef & Hst & Hlen & Hs)].
  - exists true, s3, l3. cbn [Z.eqb negb]. split; [done |]. split; [done |]. split; [simpl; lia |]. intros x Hx. rewrite Hs by done. cbn [andb].
    rewrite Hbs; [done | left | done | unfold PGSIZE; dlia].
  - exists false, s4, [a]. split; [| split; [done | split; [simpl; lia | done]]]. cbn [Z.eqb negb]. unfold kfree'. kstep Ef. done.
Qed.

Lemma same_page_aligned a x : a mod PGSIZE = 0 → same_page a x = (a <=? x) && (x <? a + PGSIZE).
Proof.
  intros H. unfold same_page.
  destruct (Z.leb_spec a x), (Z.ltb_spec x (a + PGSIZE)), (Z.eqb_spec (a / PGSIZE) (x / PGSIZE)); cbn [andb]; unfold PGSIZE in *; try done; exfalso; dlia.
Qed.

(** [uvmalloc] from [base], when the pages up to [a] have been added *)
Lemma uvmalloc_loop_ok k fuel root base a newsz s l h w n :
  as_ok s l root → a mod PGSIZE = 0 → base mod PGSIZE = 0 → 0 <= base <= a → 0 <= newsz <= TRAPFRAME → PGROUNDUP newsz = a + Z.of_nat k * PGSIZE →
  (∀ x, base <= x < a → shows (ram s) root x ≠ None) → (∀ x, a <= x < PGROUNDUP newsz → shows (ram s) root x = None) → L_kmem ∉ h → (k < fuel)%nat →
  ∃ b s' l', uvmalloc_loop kend fuel root a base newsz s (Ctx h w n) = Ok b s' (Ctx h w n) ∧ as_step root s l s' l' ∧ (length l <= (if b : bool then length l' else 0) + 3 * k)%nat ∧
    ∀ x, 0 <= x < TRAPFRAME → shows (ram s') root x =
      if b : bool then if (a <=? x) && (x <? PGROUNDUP newsz) then Some (Z.lor UVM_PERM PTE_V, 0) else shows (ram s) root x
      else if (base <=? x) && (x <? PGROUNDUP newsz) then None else shows (ram s) root x.
Proof.
  revert k a s l. induction fuel as [| f IH]; intros k a s l H Hal Hbl Hb Hn Ek Hm Hun Hh Hk; [lia |]. assert (TRAPFRAME = 2 ^ 38 - 8192) as ET by done.
  destruct (PGROUNDUP_bounds newsz) as [B1 B2]; [unfold PGSIZE in *; lia |]. assert (TRAPFRAME mod PGSIZE = 0) as HTm by done.
  assert (PGROUNDUP newsz <= TRAPFRAME) as B3 by (unfold PGSIZE in *; dlia).
  cbn [uvmalloc_loop]. destruct k as [| k].
  { destruct (Z.ltb_spec a newsz); [lia |]. exists true, s, l. split; [done |]. split; [by apply as_step_refl |]. split; [lia |]. intros x Hx.
    destruct (Z.leb_spec a x), (Z.ltb_spec x (PGROUNDUP newsz)); (done || lia). }
  destruct (Z.ltb_spec a newsz); [| unfold PGSIZE in *; lia].
  edestruct (@page_turn bool root a UVM_PERM (λ p m, memset m p 0 (Z.to_nat PGSIZE)) (λ _, 0) s l h w n) as (b & s1 & l1 & E & Hst & Hlen & Hs);
    [done | done | lia | apply Hun; unfold PGSIZE in *; lia | done | done | done | intros p m x; apply memset_page_out | intros p m x _ _; apply memset_page_in |].
  unfold memset_page. rewrite E. clear E. destruct b.
  - rewrite u64_small by (unfold PGSIZE in *; lia).
    assert (∀ x, 0 <= x < TRAPFRAME → shows (ram s1) root x = if (a <=? x) && (x <? a + PGSIZE) then Some (Z.lor UVM_PERM PTE_V, 0) else shows (ram s) root x) as Hs'.
    { intros x Hx. by rewrite Hs, same_page_aligned by done. }
    destruct (IH k (a + PGSIZE) s1 l1) as (b & s2 & l2 & E2 & Hst2 & Hlen2 & Hs2); try done; try (unfold PGSIZE in *; lia); [apply Hst | unfold PGSIZE in *; dlia | | |].
    + intros x Hx. rewrite Hs' by (unfold PGSIZE in *; lia). destruct (Z.leb_spec a x), (Z.ltb_spec x (a + PGSIZE)); cbn [andb]; unfold PGSIZE in *; try done; try lia. apply Hm. lia.
    + intros x Hx. rewrite Hs' by (unfold PGSIZE in *; lia). destruct (Z.leb_spec a x), (Z.ltb_spec x (a + PGSIZE)); cbn [andb]; unfold PGSIZE in *; try lia; apply Hun; lia.
    + exists b, s2, l2. split; [done |]. split; [by eapply as_step_trans |]. split; [lia |]. intros x Hx. rewrite Hs2, Hs' by done.
      destruct b, (Z.leb_spec base x), (Z.leb_spec a x), (Z.leb_spec (a + PGSIZE) x), (Z.ltb_spec x (a + PGSIZE)), (Z.ltb_spec x (PGROUNDUP newsz)); cbn [andb]; unfold PGSIZE in *; (done || lia).
  - assert (PGROUNDUP a = a ∧ PGROUNDUP base = base) as [Ea Eb] by (split; apply PGROUNDUP_aligned; (done || unfold PGSIZE; lia)).
    destruct (uvmdealloc_ok root a base s1 l1 h w n) as (s2 & l2 & E2 & Hst2 & Hs2); rewrite ?Ea, ?Eb; try done; try lia; [apply Hst | |].
    { intros x Hx. rewrite Hs by lia. by apply Hm. }
    exists false, s2, l2. kstep E2. split; [done |]. split; [by eapply as_step_trans |]. split; [simpl in Hlen; lia |]. intros x Hx. rewrite Hs2, Hs, Ea, Eb by done. cbn [andb].
    destruct (Z.leb_spec base x), (Z.ltb_spec x a), (Z.ltb_spec x (PGROUNDUP newsz)); cbn [andb]; try done; try lia. apply Hun. lia.
Qed.

(** ** Copying a space *)

Lemma PTE_FLAGS_valid e : 0 <= e → flag e PTE_V = true → 0 <= PTE_FLAGS e < 2 ^ 10 ∧ Z.lor (PTE_FLAGS e) PTE_V = PTE_FLAGS e.
Proof.
  intros He Hf. unfold PTE_FLAGS. change 1023 with (Z.ones 10). rewrite Z.land_ones by lia. split; [apply Z.mod_pos_bound; lia |]. unfold flag in Hf.
  apply Z.bits_inj'. intros i Hi. rewrite Z.lor_spec. change PTE_V with (2 ^ 0). rewrite Z.pow2_bits_eqb by lia.
  destruct (Z.eqb_spec 0 i) as [<- |]; [| by rewrite orb_false_r]. rewrite orb_true_r, Z.mod_pow2_bits_low by lia.
  rewrite Z.bit0_odd. apply negb_true_iff, Z.eqb_neq in Hf. change PTE_V with (Z.ones 1) in Hf. rewrite Z.land_ones in Hf by lia.
  rewrite Zodd_mod. symmetry. apply Z.eqb_eq. change (2 ^ 1) with 2 in Hf. dlia.
Qed.

(** A turn of the loop of [uvmcopy] reads the entry in the old table. *)
Lemma copy_page_turn {B} old new i s l h w n (fail k : K pmem B) :
  as_ok s l old → as_ok s l new → apart (ram s) new old → i mod PGSIZE = 0 → 0 <= i < TRAPFRAME →
  shows (ram s) old i ≠ None → shows (ram s) new i = None → L_kmem ∉ h →
  let turn :=
    pte <- walk old i false ;;
    if pte =? 0 then panic "uvmcopy: pte should exist"
    else
      v <- rd64 pte ;;
      if negb (flag v PTE_V) then panic "uvmcopy: page not present"
      else
        p <- kalloc ;;
        if p =? 0 then fail
        else
          modify (λ s, set_ram (memmove (ram s) p (PTE2PA v) (Z.to_nat PGSIZE)) s) ;;
          r <- mappages new i PGSIZE p (PTE_FLAGS v) ;;
          if negb (r =? 0) then kfree' kend p ;; fail else k in
  ∃ (b : bool) s' l', turn s (Ctx h w n) = (if b then k else fail) s' (Ctx h w n) ∧ as_step new s l s' l' ∧ (length l <= (if b then length l' else 0) + 3)%nat ∧
    ∀ x, 0 <= x < TRAPFRAME → shows (ram s') new x = if b && same_page i x then shows (ram s) old x else shows (ram s) new x.
Proof.
  intros Ho Hn Hap Hal Hi Hm Hun Hh turn. assert (TRAPFRAME < MAXVA < VASIZE) as HT by done.
  destruct (walk_mapped old i s l (Ctx h w n) Ho Hi Hm) as (e & t & E & Et & Ew & Hne & Ee & Ev).
  destruct (as_leaf _ _ _ Ho i e Hi E) as ([He Hfl] & Hp & Hnt & Hl). destruct (PTE_FLAGS_valid e ltac:(lia) Ev) as [Hfr Hfv].
  destruct (ok_free _ _ _ _ (as_vm _ _ _ Ho)) as (_ & _ & Hfp). rewrite Forall_forall in Hfp.
  destruct (page_turn new i (PTE_FLAGS e) (λ p m, memmove m p (PTE2PA e) (Z.to_nat PGSIZE)) (λ x, mget (ram s) (PTE2PA e + x)) s l h w n fail k)
    as (b & s' & l' & Er & Hst & Hlen & Hs); try done; [by rewrite Hfv | | |].
  { intros p m x Hx. rewrite memmove_bytes, Z2Nat.id by done. destruct (Z.leb_spec p x), (Z.ltb_spec x (p + PGSIZE)); (done || lia). }
  { intros p m x Hin Hout Hx. rewrite memmove_bytes, Z2Nat.id by done. destruct (Z.leb_spec p (p + x)), (Z.ltb_spec (p + x) (p + PGSIZE)); try lia. cbn [andb].
    replace (p + x - p) with x by lia. apply Hout. apply (page_disjoint kend); [done | by apply Hfp | by intros <- | done]. }
  exists b, s', l'. split; [| split; [done | split; [done |]]].
  - unfold turn. kstep Ew. destruct (Z.eqb_spec (t + 8 * PX 0 i) 0); [done |]. mstep. rewrite Ee, Ev. cbn [negb]. exact Er.
  - intros x Hx. rewrite Hs, Hfv by done. destruct b; [| done]. cbn [andb]. destruct (same_page i x) eqn:Es; [| done].
    unfold shows. by rewrite <- (vleaf_same_page (ram s) old i x), E by (done || lia).
Qed.

(** [uvmcopy] when the pages below [i] have been copied *)
Lemma uvmcopy_loop_ok k fuel old new i sz s l h w n :
  as_ok s l old → as_ok s l new → apart (ram s) new old → i mod PGSIZE = 0 → 0 <= i → 0 <= sz <= TRAPFRAME → PGROUNDUP sz = i + Z.of_nat k * PGSIZE →
  (∀ x, 0 <= x < i → shows (ram s) new x ≠ None) → (∀ x, i <= x < PGROUNDUP sz → shows (ram s) old x ≠ None ∧ shows (ram s) new x = None) →
  L_kmem ∉ h → (k < fuel)%nat →
  ∃ r s' l', uvmcopy_loop kend fuel old new i sz s (Ctx h w n) = Ok r s' (Ctx h w n) ∧ as_step new s l s' l' ∧
    ((r = 0 ∧ ∀ x, 0 <= x < TRAPFRAME → shows (ram s') new x = if (i <=? x) && (x <? PGROUNDUP sz) then shows (ram s) old x else shows (ram s) new x) ∨
     (r = -1 ∧ (length l <= 3 * k)%nat ∧ ∀ x, 0 <= x < TRAPFRAME → shows (ram s') new x = if x <? PGROUNDUP sz then None else shows (ram s) new x)).
Proof.
  revert k i s l. induction fuel as [| f IH]; intros k i s l Ho Hn Hap Hal Hi Hsz Ek Hm Hun Hh Hk; [lia |]. assert (TRAPFRAME = 2 ^ 38 - 8192) as ET by done.
  destruct (PGROUNDUP_bounds sz) as [B1 B2]; [unfold PGSIZE in *; lia |]. assert (TRAPFRAME mod PGSIZE = 0) as HTm by done.
  assert (PGROUNDUP sz <= TRAPFRAME) as B3 by (unfold PGSIZE in *; dlia).
  cbn [uvmcopy_loop]. destruct k as [| k].
  { destruct (Z.ltb_spec i sz); [lia |]. exists 0, s, l. split; [done |]. split; [by apply as_step_refl |]. left. split; [done |]. intros x Hx.
    destruct (Z.leb_spec i x), (Z.ltb_spec x (PGROUNDUP sz)); (done || lia). }
  destruct (Z.ltb_spec i sz); [| unfold PGSIZE in *; lia]. destruct (Hun i) as [Hoi Hni]; [unfold PGSIZE in *; lia |].
  edestruct (@copy_page_turn Z old new i s l h w n) as (b & s1 & l1 & E & Hst & Hlen & Hs); [done | done | done | done | lia | done | done | done |].
  cbv zeta. rewrite E. clear E. destruct b.
  - rewrite u64_small by (unfold PGSIZE in *; lia). destruct (as_step_other new old s l s1 l1 Hst Ho Hn Hap) as (Ho1 & Hap1 & _ & _ & Hso).
    assert (∀ x, 0 <= x < TRAPFRAME → shows (ram s1) new x = if (i <=? x) && (x <? i + PGSIZE) then shows (ram s) old x else shows (ram s) new x) as Hs'.
    { intros x Hx. by rewrite Hs, same_page_aligned by done. }
    destruct (IH k (i + PGSIZE) s1 l1) as (r & s2 & l2 & E2 & Hst2 & Hr); try done; try (unfold PGSIZE in *; lia); [apply Hst | unfold PGSIZE in *; dlia | | |].
    + intros x Hx. rewrite Hs' by (unfold PGSIZE in *; lia). destruct (Z.leb_spec i x), (Z.ltb_spec x (i + PGSIZE)); cbn [andb]; try lia; [apply Hun; unfold PGSIZE in *; lia | apply Hm; lia].
    + intros x Hx. rewrite Hso, Hs' by (unfold PGSIZE in *; lia). destruct (Z.leb_spec i x), (Z.ltb_spec x (i + PGSIZE)); cbn [andb]; try lia; apply Hun; unfold PGSIZE in *; lia.
    + exists r, s2, l2. split; [done |]. split; [by eapply as_step_trans |]. destruct Hr as [[-> Hr] | (-> & Hl2 & Hr)].
      * left. split; [done |]. intros x Hx. rewrite Hr, Hso, Hs' by done.
        destruct (Z.leb_spec i x), (Z.leb_spec (i + PGSIZE) x), (Z.ltb_spec x (i + PGSIZE)), (Z.ltb_spec x (PGROUNDUP sz)); cbn [andb]; unfold PGSIZE in *; (done || lia).
      * right. split; [done |]. split; [simpl in Hlen; lia |]. intros x Hx. rewrite Hr, Hs' by done.
        destruct (Z.leb_spec i x), (Z.ltb_spec x (i + PGSIZE)), (Z.ltb_spec x (PGROUNDUP sz)); cbn [andb]; unfold PGSIZE in *; (done || lia).
  - assert (i / PGSIZE * PGSIZE = i) as Ei by (unfold PGSIZE in *; dlia).
    destruct (uvmunmap_ok new 0 (i / PGSIZE) s1 l1 h w n) as (s2 & l2 & E2 & Hst2 & Hs2); rewrite ?Ei; try done; try lia; [apply Hst | unfold PGSIZE; dlia | |].
    { intros x Hx. rewrite Hs by lia. by apply Hm. }
    exists (-1), s2, l2. kstep E2. split; [done |]. split; [by eapply as_step_trans |]. right. split; [done |]. split; [simpl in Hlen; lia |].
    intros x Hx. rewrite Hs2, Hs, Ei by done. cbn [andb].
    destruct (Z.leb_spec 0 x), (Z.ltb_spec x (0 + i)), (Z.ltb_spec x (PGROUNDUP sz)); cbn [andb]; try done; try lia. apply Hun. lia.
Qed.

(** A table that maps nothing *)
Lemma empty_as_ok s l root : vm_ok s l root → (∀ va, vleaf (ram s) root va = None) → as_ok s l root.
Proof. intros H Hv. constructor; [done | intros va e _ E; by rewrite Hv in E | intros va va' e e' _ _ E; by rewrite Hv in E]. Qed.

(** ** [uvmalloc] and [uvmcopy] *)

(** [uvmalloc] returns, and either gives the new size, and then the process
    sees what it saw before and zeroes in every page from the old size to the new
    one, readable, writable, executable and for the user; or it gives 0, and then
    the process sees exactly what it saw, because fewer than three free pages per
    new page were left.  No page is lost: what the free list loses are pages of the
    space.  The mappings from the trap frame on and the memory that is neither free
    nor of this space stay as they are. *)
Lemma uvmalloc_ok root oldsz newsz s l h w n :
  as_ok s l root → 0 <= oldsz <= newsz → newsz <= TRAPFRAME →
  (∀ x, PGROUNDUP oldsz <= x < PGROUNDUP newsz → shows (ram s) root x = None) → L_kmem ∉ h →
  ∃ r s' l', uvmalloc kend root oldsz newsz s (Ctx h w n) = Ok r s' (Ctx h w n) ∧ as_step root s l s' l' ∧
    ((r = newsz ∧ ∀ x, 0 <= x < TRAPFRAME → shows (ram s') root x =
        if (PGROUNDUP oldsz <=? x) && (x <? PGROUNDUP newsz) then Some (Z.lor UVM_PERM PTE_V, 0) else shows (ram s) root x) ∨
     (r = 0 ∧ Z.of_nat (length l) <= 3 * ((PGROUNDUP newsz - PGROUNDUP oldsz) / PGSIZE) ∧
      ∀ x, 0 <= x < TRAPFRAME → shows (ram s') root x = shows (ram s) root x)).
Proof.
  intros H Hsz Hn Hun Hh. assert (TRAPFRAME = 2 ^ 38 - 8192) as ET by done.
  destruct (PGROUNDUP_bounds oldsz) as [A1 A2]; [unfold PGSIZE in *; lia |]. destruct (PGROUNDUP_bounds newsz) as [B1 B2]; [unfold PGSIZE in *; lia |].
  set (np := (PGROUNDUP newsz - PGROUNDUP oldsz) / PGSIZE).
  assert (0 <= np ∧ PGROUNDUP newsz = PGROUNDUP oldsz + np * PGSIZE ∧ np <= (newsz - PGROUNDUP oldsz) / PGSIZE + 1) as (Hnp & Ek & Hf) by (unfold np, PGSIZE in *; dlia).
  unfold uvmalloc. destruct (Z.ltb_spec newsz oldsz); [lia |].
  destruct (uvmalloc_loop_ok (Z.to_nat np) (S (Z.to_nat ((newsz - PGROUNDUP oldsz) / PGSIZE + 1))) root (PGROUNDUP oldsz) (PGROUNDUP oldsz) newsz s l h w n)
    as (b & s' & l' & E & Hst & Hl & Hs); try done; try lia; [by rewrite Z2Nat.id |].
  exists (if b then newsz else 0), s', l'. kstep E. split; [done |]. split; [done |]. destruct b; [by left | right]. split; [done |].
  split; [lia |]. intros x Hx. rewrite Hs by done. destruct (Z.leb_spec (PGROUNDUP oldsz) x), (Z.ltb_spec x (PGROUNDUP newsz)); cbn [andb]; try done.
  symmetry. by apply Hun.
Qed.

(** [uvmcopy] returns, and either gives 0, and then the new space shows below
    the given size, byte for byte and with the same permissions, what the old one
    shows; or -1, and then the new space shows what it showed before, because fewer
    than three free pages per page to copy were left.  The old space shows what it
    did, the two share no page, and no page is lost. *)
Lemma uvmcopy_ok old new sz s l h w n :
  as_ok s l old → as_ok s l new → apart (ram s) new old → 0 <= sz <= TRAPFRAME →
  (∀ x, 0 <= x < PGROUNDUP sz → shows (ram s) old x ≠ None ∧ shows (ram s) new x = None) → L_kmem ∉ h →
  ∃ r s' l', uvmcopy kend old new sz s (Ctx h w n) = Ok r s' (Ctx h w n) ∧ as_step new s l s' l' ∧
    as_ok s' l' old ∧ apart (ram s') new old ∧ (∀ x, 0 <= x < TRAPFRAME → shows (ram s') old x = shows (ram s) old x) ∧
    ((r = 0 ∧ ∀ x, 0 <= x < TRAPFRAME → shows (ram s') new x = if x <? PGROUNDUP sz then shows (ram s') old x else shows (ram s) new x) ∨
     (r = -1 ∧ Z.of_nat (length l) <= 3 * (PGROUNDUP sz / PGSIZE) ∧ ∀ x, 0 <= x < TRAPFRAME → shows (ram s') new x = shows (ram s) new x)).
Proof.
  intros Ho Hn Hap Hsz Hun Hh. assert (TRAPFRAME = 2 ^ 38 - 8192) as ET by done.
  destruct (PGROUNDUP_bounds sz) as [B1 B2]; [unfold PGSIZE in *; lia |]. set (np := PGROUNDUP sz / PGSIZE).
  assert (0 <= np ∧ PGROUNDUP sz = 0 + np * PGSIZE ∧ np <= sz / PGSIZE + 1) as (Hnp & Ek & Hf) by (unfold np, PGSIZE in *; dlia).
  destruct (uvmcopy_loop_ok (Z.to_nat np) (S (Z.to_nat (sz / PGSIZE + 1))) old new 0 sz s l h w n) as (r & s' & l' & E & Hst & Hr); try done; try lia; [by rewrite Z2Nat.id |].
  destruct (as_step_other new old s l s' l' Hst Ho Hn Hap) as (Ho' & Hap' & _ & _ & Hso).
  exists r, s', l'. do 5 (split; [done |]). destruct Hr as [[-> Hr] | (-> & Hl & Hr)]; [left | right]; (split; [done |]).
  - intros x Hx. rewrite Hr, Hso by done. destruct (Z.leb_spec 0 x); [done | lia].
  - split; [lia |]. intros x Hx. rewrite Hr by done. destruct (Z.ltb_spec x (PGROUNDUP sz)); [| done]. symmetry. apply Hun. lia.
Qed.
End space.
