(* ===== verification/VmFree.v ===== *)
(** * Freeing page tables

    [freewalk] gives every table page of a tree without leaves back to the
    allocator; [uvmfree] and [proc_freepagetable] with it give back the whole
    address space. *)

From S2P Require Import Prelude Monad Riscv Mem Kalloc Vm VmMap VmCopy VmSpace.

(** ** The tables below a table *)

(** In the order in which [freewalk] frees them. *)
Fixpoint subtree (d : nat) (m : mem) (t : Z) : list Z :=
  match d with
  | O => []
  | S d' => (seqZ 0 512 ≫= λ i, if flag (entry m t i) PTE_V then subtree d' m (PTE2PA (entry m t i)) else []) ++ [t]
  end.

(** The entry at [i] leads to the tables [below]. *)
Definition below (d : nat) (m : mem) (t i : Z) : list Z :=
  if flag (entry m t i) PTE_V then subtree d m (PTE2PA (entry m t i)) else [].

(** No entry is a leaf. *)
Fixpoint no_leaf (d : nat) (m : mem) (t : Z) : Prop :=
  match d with
  | O => False
  | S d' => ∀ i, idx i → flag (entry m t i) PTE_V = true → inner (entry m t i) ∧ no_leaf d' m (PTE2PA (entry m t i))
  end.

Lemma elem_of_subtree d m t y :
  y ∈ subtree d m t ↔ ∃ p, (length p < d)%nat ∧ Forall idx p ∧ table_at m t p = Some y.
Proof.
  revert t. induction d as [| d IH]; intros t; cbn [subtree].
  { split; [by intros ?%not_elem_of_nil | intros (p & Hp & _); lia]. }
  rewrite elem_of_app, list_elem_of_singleton, list_elem_of_bind. split.
  - intros [(i & Hy & Hi) | ->]; [| exists []; split; [simpl; lia | by split]].
    apply elem_of_seqZ in Hi. destruct (flag (entry m t i) PTE_V) eqn:E; [| by apply not_elem_of_nil in Hy].
    apply IH in Hy as (p & Hp & Hf & Ht). exists (i :: p). split; [simpl; lia |]. split; [constructor; [unfold idx; lia | done] |]. simpl. by rewrite E.
  - intros ([| i p] & Hp & Hf & Ht); [right; by injection Ht | left]. apply Forall_cons in Hf as [Hi Hf]. simpl in Ht, Hp.
    exists i. split; [| apply elem_of_seqZ; unfold idx in Hi; lia]. destruct (flag (entry m t i) PTE_V); [| done]. apply IH. exists p. split; [lia | done].
Qed.

Lemma subtree_tables m root x : x ∈ subtree 3 m root ↔ tables m root x.
Proof. rewrite elem_of_subtree. unfold tables, tpath. split; intros (p & H); exists p; [| destruct H as [[? ?] ?]]; repeat split; try apply H; try lia; done. Qed.

(** [subtree] looks only at its own tables. *)
Lemma subtree_ext d m m' t :
  (∀ y i, y ∈ subtree d m t → idx i → entry m' y i = entry m y i) → subtree d m' t = subtree d m t ∧ (no_leaf d m t → no_leaf d m' t).
Proof.
  revert t. induction d as [| d IH]; intros t H; [done |]. cbn [subtree] in *.
  assert (∀ i, idx i → entry m' t i = entry m t i) as Ht by (intros i Hi; apply H; [apply elem_of_app; right; by left | done]).
  assert (∀ i, idx i → flag (entry m t i) PTE_V = true → subtree d m' (PTE2PA (entry m t i)) = subtree d m (PTE2PA (entry m t i)) ∧
    (no_leaf d m (PTE2PA (entry m t i)) → no_leaf d m' (PTE2PA (entry m t i)))) as Hc.
  { intros i Hi E. apply IH. intros y j Hy Hj. apply H; [| done]. apply elem_of_app. left. apply list_elem_of_bind. exists i. rewrite E.
    split; [done | apply elem_of_seqZ; unfold idx in Hi; lia]. }
  split.
  - f_equal. apply Forall_bind_ext, Forall_forall. intros i Hi%elem_of_seqZ. rewrite Ht by (unfold idx; lia).
    destruct (flag (entry m t i) PTE_V) eqn:E; [| done]. apply Hc; [unfold idx; lia | done].
  - cbn [no_leaf]. intros Hn i Hi. rewrite Ht by done. intros E. destruct (Hn i Hi E). split; [done |]. by apply Hc.
Qed.

Section free.
Context (kend : Z) (Hkend : 0 < kend).
Notation page := (page kend).
Notation vm_ok := (vm_ok kend).
Notation free_pages := (free_pages kend).
Notation as_ok := (as_ok kend).

(** Pages that are distinct and not free *)
Definition taken (ps l : list Z) : Prop := NoDup ps ∧ Forall page ps ∧ ∀ y, y ∈ ps → y ∉ l.

Lemma taken_app ps qs l : taken (ps ++ qs) l → taken ps l ∧ taken qs l ∧ (∀ y, y ∈ ps → y ∉ qs) ∧ taken qs (reverse ps ++ l).
Proof.
  intros (Hnd & Hp & Hl). apply NoDup_app in Hnd as (N1 & N2 & N3). apply Forall_app in Hp as [P1 P2]. setoid_rewrite elem_of_app in Hl.
  repeat split; try done; try (intros y Hy; apply Hl; tauto).
  intros y Hy. rewrite elem_of_app, elem_of_reverse. intros [H | H]; [by apply (N2 y) | apply (Hl y); tauto].
Qed.

(** Memory changes only within the pages [ps]. *)
Definition within (ps : list Z) (m m' : mem) : Prop := ∀ x, (∀ y, y ∈ ps → ¬ (y <= x < y + PGSIZE)) → mget m' x = mget m x.

Lemma within_entry ps m m' y i : within ps m m' → Forall page ps → page y → y ∉ ps → idx i → entry m' y i = entry m y i.
Proof.
  intros H Hps Hy Hn Hi. rewrite Forall_forall in Hps. apply entry_ext; [done |]. intros x Hx. apply H. intros z Hz. apply (page_disjoint kend); [done | by apply Hps | by intros -> | done].
Qed.

Definition frees (d : nat) : Prop := ∀ t s l h w n,
  free_pages s l → taken (subtree d (ram s) t) l → no_leaf d (ram s) t → L_kmem ∉ h →
  ∃ s', freewalk kend d t s (Ctx h w n) = Ok tt s' (Ctx h w n) ∧ free_pages s' (reverse (subtree d (ram s) t) ++ l) ∧ within (subtree d (ram s) t) (ram s) (ram s').

(** What follows the visit of an entry finds the other entries as they were. *)
Lemma below_ext d m m' t i ps :
  within ps m m' → Forall page ps → page t → idx i → entry m' t i = entry m t i → Forall page (below d m t i) → (∀ y, y ∈ below d m t i → y ∉ ps) →
  below d m' t i = below d m t i ∧ ((flag (entry m t i) PTE_V = true → no_leaf d m (PTE2PA (entry m t i))) → flag (entry m t i) PTE_V = true → no_leaf d m' (PTE2PA (entry m t i))).
Proof.
  intros Hw Hps Ht Hi E Hpg Hn. unfold below in *. rewrite E. destruct (flag (entry m t i) PTE_V); [| done].
  destruct (subtree_ext d m m' (PTE2PA (entry m t i))) as [H1 H2]; [| split; [done | tauto]].
  intros y j Hy Hj. rewrite Forall_forall in Hpg. by apply (within_entry ps); try apply Hpg; try apply Hn.
Qed.

(** The entry [i] of [t] has been visited, and its tables [ps] freed. *)
Lemma visited_ext d L t i s s1 ps :
  page t → Forall page ps → t ∉ ps → within ps (ram s) (ram s1) → idx i → i ∉ L → Forall idx L →
  Forall page (L ≫= below d (ram s) t) → (∀ y, y ∈ (L ≫= below d (ram s) t) → y ∉ t :: ps) →
  (∀ j, j ∈ L → flag (entry (ram s) t j) PTE_V = true → inner (entry (ram s) t j) ∧ no_leaf d (ram s) (PTE2PA (entry (ram s) t j))) →
  let s2 := set_ram (store64 (ram s1) (t + 8 * i) 0) s1 in
  within (t :: ps) (ram s) (ram s2) ∧ (L ≫= below d (ram s2) t) = (L ≫= below d (ram s) t) ∧
  ∀ j, j ∈ L → flag (entry (ram s2) t j) PTE_V = true → inner (entry (ram s2) t j) ∧ no_leaf d (ram s2) (PTE2PA (entry (ram s2) t j)).
Proof.
  intros Ht Hps Htn Hw Hi Hni Hix Hpg Hdis Hin s2. rewrite Forall_forall in Hix. rewrite Forall_forall in Hpg.
  assert (within (t :: ps) (ram s) (ram s2)) as Hw2.
  { intros x Hx. unfold s2. cbn [ram set_ram]. rewrite mget_store64_out; [apply Hw; intros y Hy; apply Hx; by right |].
    assert (¬ (t <= x < t + PGSIZE)) as Hxt by (apply Hx; left). unfold idx, PGSIZE in *. lia. }
  assert (∀ j, j ∈ L → entry (ram s2) t j = entry (ram s) t j) as He.
  { intros j Hj. unfold s2. cbn [ram set_ram]. rewrite (entry_store kend) by (done || by apply Hix). rewrite (proj2 (Z.eqb_neq i j)), andb_false_r by (by intros ->).
    apply (within_entry ps); try done. by apply Hix. }
  assert (∀ j, j ∈ L → below d (ram s2) t j = below d (ram s) t j ∧ ((flag (entry (ram s) t j) PTE_V = true → no_leaf d (ram s) (PTE2PA (entry (ram s) t j))) →
    flag (entry (ram s) t j) PTE_V = true → no_leaf d (ram s2) (PTE2PA (entry (ram s) t j)))) as Hb.
  { intros j Hj. apply (below_ext d (ram s) (ram s2) t j (t :: ps)); [done | by constructor | done | by apply Hix | by apply He | |].
    - apply Forall_forall. intros y Hy. apply Hpg, list_elem_of_bind. by exists j.
    - intros y Hy. apply Hdis, list_elem_of_bind. by exists j. }
  split; [done |]. split; [apply Forall_bind_ext, Forall_forall; intros j Hj; by apply Hb |].
  intros j Hj. rewrite He by done. intros E. destruct (Hin j Hj E). split; [done |]. by apply Hb.
Qed.

Lemma freewalk_entries d t L s l h w n :
  frees d → page t → t ∉ l → free_pages s l → NoDup L → Forall idx L → taken (L ≫= below d (ram s) t) l → t ∉ (L ≫= below d (ram s) t) →
  (∀ i, i ∈ L → flag (entry (ram s) t i) PTE_V = true → inner (entry (ram s) t i) ∧ no_leaf d (ram s) (PTE2PA (entry (ram s) t i))) → L_kmem ∉ h →
  ∃ s', for_each L (λ i,
      pte <- rd64 (t + 8 * i) ;;
      if flag pte PTE_V && (Z.land pte (Z.lor (Z.lor PTE_R PTE_W) PTE_X) =? 0) then
        freewalk kend d (PTE2PA pte) ;; wr64 (t + 8 * i) 0
      else if flag pte PTE_V then panic "freewalk: leaf"
      else ret tt) s (Ctx h w n) = Ok tt s' (Ctx h w n) ∧
    free_pages s' (reverse (L ≫= below d (ram s) t) ++ l) ∧ within (t :: (L ≫= below d (ram s) t)) (ram s) (ram s').
Proof.
  intros Hd Hpt. revert s l. induction L as [| i L IH]; intros s l Htl Hf Hnd Hix Htk Htn Hin Hh.
  { exists s. split; [done |]. split; [done |]. done. }
  apply NoDup_cons in Hnd as [Hni Hnd]. apply Forall_cons in Hix as [Hi Hix]. rewrite bind_cons in *. cbn [for_each].
  apply taken_app in Htk as (Hk1 & Hk2 & Hdis & Hk3). rewrite not_elem_of_app in Htn. destruct Htn as [Hn1 Hn2]. rewrite reverse_app, <- app_assoc.
  destruct (flag (entry (ram s) t i) PTE_V) eqn:Ev.
  - destruct (Hin i (list_elem_of_here _ _) Ev) as [Hinner Hnl]. 
    assert (below d (ram s) t i = subtree d (ram s) (PTE2PA (entry (ram s) t i))) as Eb by (unfold below; by rewrite Ev). rewrite Eb in *.
    destruct (Hd _ s l h w n Hf Hk1 Hnl Hh) as (s1 & E1 & Hf1 & Hw1). set (B := subtree d _ _) in *.
    destruct (visited_ext d L t i s s1 B) as (Hw2 & EL & Hin2); try done; [apply Hk1 | apply Hk2 | | intros j Hj; apply Hin; by right |].
    { intros y Hy. rewrite not_elem_of_cons. split; [by intros -> | intros HyB; by apply (Hdis y)]. }
    set (s2 := set_ram _ s1) in *. rewrite <- EL in Hk2, Hk3, Hn2 |- *.
    destruct (IH s2 (reverse B ++ l)) as (s' & E & Hf' & Hw'); try done.
    + rewrite not_elem_of_app, elem_of_reverse. done.
    + apply (free_pages_store kend); try done. rewrite not_elem_of_app, elem_of_reverse. done.
    + exists s'. split; [| split; [done |]].
      * erewrite bind_ok; [exact E |]. mstep. fold (entry (ram s) t i). rewrite Ev, (proj2 (Z.eqb_eq _ _) Hinner). cbn [andb]. kstep E1. apply wr64_ok.
      * intros x Hx. rewrite Hw', Hw2; [done | |]; intros y Hy; apply Hx; rewrite elem_of_cons, elem_of_app in *; tauto.
  - assert (below d (ram s) t i = []) as Eb by (unfold below; by rewrite Ev). rewrite Eb in *. cbn [reverse app].
    destruct (IH s l) as (s' & E & Hf' & Hw'); try done; [intros j Hj; apply Hin; by right |]. exists s'. split; [| done].
    erewrite bind_ok; [exact E |]. mstep. fold (entry (ram s) t i). by rewrite Ev.
Qed.

Lemma freewalk_frees d : frees d.
Proof.
  induction d as [| d IH]; intros t s l h w n Hf Htk Hnl Hh; [done |]. cbn [freewalk subtree] in *.
  assert ((seqZ 0 512 ≫= λ i, if flag (entry (ram s) t i) PTE_V then subtree d (ram s) (PTE2PA (entry (ram s) t i)) else []) = seqZ 0 512 ≫= below d (ram s) t) as E by done.
  rewrite E in *. clear E. apply taken_app in Htk as (Hk1 & Hk2 & Hdis & Hk3). destruct Hk2 as (_ & Hpt & Htl), Hk3 as (_ & _ & Htr). apply Forall_cons in Hpt as [Hpt _].
  assert (t ∉ (seqZ 0 512 ≫= below d (ram s) t)) as Htn by (intros Ht; apply (Hdis t Ht); left).
  destruct (freewalk_entries d t (seqZ 0 512) s l h w n) as (s1 & E1 & Hf1 & Hw1); try done; [apply Htl; left | apply NoDup_seqZ | | |].
  { apply Forall_forall. intros i Hi%elem_of_seqZ. unfold idx. lia. }
  { intros i Hi%elem_of_seqZ Ev. apply Hnl; [unfold idx; lia | done]. }
  destruct (kfree_ok kend t s1 h w n _ Hpt Hf1) as (E2 & Hf2 & Hout); [apply Htr; left | done | done |].
  eexists. split; [kstep E1; unfold kfree'; exact E2 |]. split; [by rewrite reverse_app |].
  intros x Hx. rewrite Hout; [apply Hw1; intros y Hy | ]; apply Hx; apply elem_of_app; [apply elem_of_cons in Hy as [-> | ?]; [right; left | by left] | right; left].
Qed.

(** ** A tree without mappings *)

(** The address with the given indices *)
Definition va_of (i2 i1 i0 : Z) : Z := ((i2 * 512 + i1) * 512 + i0) * PGSIZE.

Lemma va_of_PX i2 i1 i0 : idx i2 → idx i1 → idx i0 →
  0 <= va_of i2 i1 i0 < VASIZE ∧ PX 2 (va_of i2 i1 i0) = i2 ∧ PX 1 (va_of i2 i1 i0) = i1 ∧ PX 0 (va_of i2 i1 i0) = i0.
Proof.
  unfold idx, va_of, VASIZE. intros H2 H1 H0. rewrite !PX_eq by (unfold PGSIZE; lia). unfold PXSHIFT, PGSHIFT, PGSIZE.
  change (2 ^ (12 + 9 * 2)) with (4096 * 512 * 512). change (2 ^ (12 + 9 * 1)) with (4096 * 512). change (2 ^ (12 + 9 * 0)) with 4096.
  rewrite <- !Z.div_div, !Z.div_mul by lia. repeat split; dlia.
Qed.

Lemma unmapped_no_leaf m root :
  wf kend m root → (∀ va, 0 <= va < VASIZE → vleaf m root va = None) → no_leaf 3 m root.
Proof.
  intros Hwf Hv. assert (∀ d q t, (length q + d = 2)%nat → Forall idx q → table_at m root q = Some t → no_leaf (S d) m t) as H; [| by apply (H 2%nat [])].
  induction d as [| d IH]; intros q t Hl Hq Et i Hi Ev.
  - destruct q as [| i2 [| i1 [|]]]; try (simpl in Hl; lia). apply Forall_cons in Hq as [H2 Hq]. apply Forall_cons in Hq as [H1 _].
    destruct (va_of_PX i2 i1 i H2 H1 Hi) as (Hr & E2 & E1 & E0). specialize (Hv _ Hr). unfold vleaf in Hv. rewrite E2, E1, E0, Et, Ev in Hv. done.
  - split; [apply (wf_inner _ _ _ Hwf q t i); try done; [split; [lia | done] | lia] |].
    apply (IH (q ++ [i])); [rewrite length_app; simpl; lia | apply Forall_app; split; [done |]; by apply Forall_singleton |]. rewrite table_at_app, Et. simpl. by rewrite Ev.
Qed.

Lemma subtree_taken s l root : vm_ok s l root → taken (subtree 3 (ram s) root) l.
Proof.
  intros [Hf Hwf Hu]. split; [| split].
  - assert (∀ d q t, (length q + d = 3)%nat → Forall idx q → table_at (ram s) root q = Some t → NoDup (subtree d (ram s) t)) as H; [| by apply (H 3%nat [])].
    assert (∀ p q y, (length p <= 2)%nat → (length q <= 2)%nat → Forall idx p → Forall idx q → table_at (ram s) root p = Some y → table_at (ram s) root q = Some y → p = q) as Hinj.
    { intros p q y Hp Hq Fp Fq Ep Eq. by apply (wf_inj _ _ _ Hwf p q y). }
    induction d as [| d IH]; intros q t Hl Hq Et; [constructor |]. cbn [subtree].
    assert (∀ i y, i ∈ seqZ 0 512 → y ∈ below d (ram s) t i → ∃ p, (length (q ++ i :: p) <= 2)%nat ∧ Forall idx (q ++ i :: p) ∧ table_at (ram s) root (q ++ i :: p) = Some y) as Hb.
    { intros i y Hi%elem_of_seqZ Hy. unfold below in Hy. destruct (flag (entry (ram s) t i) PTE_V) eqn:Ev; [| by apply not_elem_of_nil in Hy].
      apply elem_of_subtree in Hy as (p & Hp & Fp & Ep). exists p. rewrite length_app. simpl. split; [lia |]. split.
      - apply Forall_app. split; [done |]. constructor; [unfold idx; lia | done].
      - rewrite table_at_app, Et. simpl. by rewrite Ev. }
    apply NoDup_app. split; [| split; [| apply NoDup_singleton]].
    + apply NoDup_bind; [| | apply NoDup_seqZ].
      * intros i j y Hi Hj Hyi Hyj. destruct (Hb i y Hi Hyi) as (p & Lp & Fp & Ep), (Hb j y Hj Hyj) as (p' & Lp' & Fp' & Ep').
        assert (q ++ i :: p = q ++ j :: p') as Epp by (by apply (Hinj _ _ y)). apply app_inv_head in Epp. congruence.
      * intros i Hi%elem_of_seqZ. destruct (flag (entry (ram s) t i) PTE_V) eqn:Ev; [| constructor].
        apply (IH (q ++ [i])); [rewrite length_app; simpl; lia | apply Forall_app; split; [done |]; apply Forall_singleton; unfold idx; lia |].
        rewrite table_at_app, Et. simpl. by rewrite Ev.
    + intros y (i & Hy & Hi)%list_elem_of_bind ->%list_elem_of_singleton. destruct (Hb i t Hi Hy) as (p & Lp & Fp & Ep).
      assert (q ++ i :: p = q) as Epp by (apply (Hinj _ _ t); try done; lia). apply (f_equal length) in Epp. rewrite length_app in Epp. simpl in Epp. lia.
  - apply Forall_forall. intros y Hy%subtree_tables. by apply (wf_page _ _ _ Hwf).
  - intros y Hy%subtree_tables. by apply Hu.
Qed.

(** [freewalk] on a table that maps nothing *)
Lemma freewalk_ok root s l h w n :
  vm_ok s l root → (∀ va, 0 <= va < VASIZE → vleaf (ram s) root va = None) → L_kmem ∉ h →
  ∃ s' l', freewalk kend 3 root s (Ctx h w n) = Ok tt s' (Ctx h w n) ∧ free_pages s' l' ∧ (∀ x, x ∈ l' ↔ x ∈ l ∨ tables (ram s) root x) ∧
    ∀ x, (∀ t, tables (ram s) root t → ¬ (t <= x < t + PGSIZE)) → mget (ram s') x = mget (ram s) x.
Proof.
  intros H Hv Hh. destruct (freewalk_frees 3 root s l h w n) as (s' & E & Hf & Hw); [apply H | by apply subtree_taken | by apply unmapped_no_leaf; [apply H |] | done |].
  exists s', (reverse (subtree 3 (ram s) root) ++ l). split; [done |]. split; [done |]. split.
  - intros x. rewrite elem_of_app, elem_of_reverse, subtree_tables. tauto.
  - intros x Hx. apply Hw. intros y Hy%subtree_tables. by apply Hx.
Qed.

(** ** [uvmfree] *)

(** The pages mapped below the trap frame are those of a process of size [sz]. *)
Definition fills (m : mem) (root sz : Z) : Prop := ∀ x, 0 <= x < TRAPFRAME → (shows m root x ≠ None ↔ x < PGROUNDUP sz).

Lemma uvmfree_ok root sz s l h w n :
  as_ok s l root → 0 <= sz <= TRAPFRAME → fills (ram s) root sz → (∀ va, TRAPFRAME <= va < VASIZE → vleaf (ram s) root va = None) → L_kmem ∉ h →
  ∃ s' l', uvmfree kend root sz s (Ctx h w n) = Ok tt s' (Ctx h w n) ∧ free_pages s' l' ∧ (∀ x, x ∈ l' ↔ x ∈ l ∨ owns (ram s) root x) ∧
    ∀ x, (∀ t, t ∈ l ∨ owns (ram s) root t → ¬ (t <= x < t + PGSIZE)) → mget (ram s') x = mget (ram s) x.
Proof.
  intros H Hsz Hfl Hab Hh. assert (TRAPFRAME = 2 ^ 38 - 8192 ∧ TRAPFRAME mod PGSIZE = 0) as [ET Hal] by done.
  destruct (PGROUNDUP_bounds sz) as [B1 B2]; [unfold PGSIZE in *; lia |]. assert (PGROUNDUP sz <= TRAPFRAME) as B3 by (unfold PGSIZE in *; dlia).
  assert (PGROUNDUP sz / PGSIZE * PGSIZE = PGROUNDUP sz) as Enp by (unfold PGSIZE in *; dlia).
  assert (∃ s1 l1, when (0 <? sz) (uvmunmap kend root 0 (PGROUNDUP sz / PGSIZE) true) s (Ctx h w n) = Ok tt s1 (Ctx h w n) ∧ as_step kend root s l s1 l1 ∧
    ∀ va, 0 <= va < VASIZE → vleaf (ram s1) root va = None) as (s1 & l1 & E1 & Hst & Hv).
  { destruct (Z.ltb_spec 0 sz) as [Hpos | Hneg]; cbn [when].
    - destruct (uvmunmap_ok kend Hkend root 0 (PGROUNDUP sz / PGSIZE) s l h w n) as (s1 & l1 & E1 & Hst & Hc); rewrite ?Enp; try done; [unfold PGSIZE; dlia | |].
      { intros x Hx. apply Hfl; lia. }
      exists s1, l1. split; [done |]. split; [done |]. intros va Hva. destruct (Z.lt_ge_cases va TRAPFRAME); [| rewrite (st_above _ _ _ _ _ _ Hst) by lia; apply Hab; lia].
      apply shows_None. rewrite Hc by lia. rewrite Enp, Z.add_0_l. destruct (Z.leb_spec 0 va), (Z.ltb_spec va (PGROUNDUP sz)); cbn [andb]; try done; try lia.
      destruct (shows (ram s) root va) eqn:Es; [| done]. assert (va < PGROUNDUP sz) by (apply Hfl; [lia | by rewrite Es]). lia.
    - exists s, l. split; [done |]. split; [by apply as_step_refl |]. intros va Hva. destruct (Z.lt_ge_cases va TRAPFRAME); [| apply Hab; lia].
      assert (sz = 0) as -> by lia. change (PGROUNDUP 0) with 0 in *. apply shows_None. destruct (shows (ram s) root va) eqn:Es; [| done].
      assert (va < 0) by (apply Hfl; [lia | by rewrite Es]). lia. }
  pose proof (st_ok _ _ _ _ _ _ Hst) as H1. destruct (freewalk_ok root s1 l1 h w n (as_vm _ _ _ _ H1) Hv Hh) as (s2 & l2 & E2 & Hf2 & Hl2 & Hw2).
  exists s2, l2. split; [unfold uvmfree; by kstep E1 |]. split; [done |].
  assert (∀ x, owns (ram s1) root x ↔ tables (ram s1) root x) as Ho.
  { intros x. unfold owns, frames. split; [intros [? | (va & e & Hva & Ev & _)]; [done |] | by left]. rewrite Hv in Ev; [done |]. assert (TRAPFRAME < VASIZE) by done. lia. }
  split; intros x.
  - rewrite Hl2, <- Ho. apply (st_conserve _ _ _ _ _ _ Hst).
  - intros Hx. rewrite Hw2, (st_frame _ _ _ _ _ _ Hst); try done. intros t Ht. apply Hx, (st_conserve _ _ _ _ _ _ Hst). right. by apply Ho.
Qed.
End free.
