(* ===== verification/Block.v ===== *)
(** * Disk blocks (kernel/fs.h)

    A block is the list of its bytes.  The structures the file system lays
    over blocks (superblock, log header, inodes, indirect blocks, directory
    entries) are read and written as little-endian fields at byte offsets. *)

From S2P Require Import Prelude Riscv.

Definition BSIZE : Z := 1024.

Abbreviation block := (list Z).

Definition zero_block : block := replicate (Z.to_nat BSIZE) 0.

(** The [k] bytes at offset [off]. *)
Definition slice (l : block) (off : Z) (k : nat) : block := take k (drop (Z.to_nat off) l).

Definition get_le (k : nat) (l : block) (off : Z) : Z := little_endian_to_Z 8 (slice l off k).

Definition put_le (k : nat) (l : block) (off v : Z) : block :=
  splice l (Z.to_nat off) (Z_to_little_endian (Z.of_nat k) 8 v).

Definition get16 := get_le 2.
Definition get32 := get_le 4.
Definition put16 := put_le 2.
Definition put32 := put_le 4.

(** Bytes are bytes. *)
Definition bytes (l : list Z) : Prop := Forall (λ b, 0 <= b < 2 ^ 8) l.

(** A whole block of bytes. *)
Definition is_block (l : block) : Prop := length l = Z.to_nat BSIZE ∧ bytes l.

(** ** Facts *)

Lemma length_slice l off k :
  0 <= off → off + Z.of_nat k <= Z.of_nat (length l) → length (slice l off k) = k.
Proof. intros. unfold slice. rewrite length_take, length_drop. lia. Qed.

Lemma slice_splice_eq l n l' :
  (n + length l' <= length l)%nat → slice (splice l n l') (Z.of_nat n) (length l') = l'.
Proof. intros H. unfold slice. rewrite Nat2Z.id. by apply splice_read. Qed.

Lemma slice_splice_ne l n l' off k :
  (n + length l' <= length l)%nat → 0 <= off →
  (off + Z.of_nat k <= Z.of_nat n ∨ Z.of_nat n + Z.of_nat (length l') <= off) →
  slice (splice l n l') off k = slice l off k.
Proof.
  intros H Hoff Hd. unfold slice. apply list_eq. intros i.
  destruct (decide (i < k)%nat).
  - rewrite !lookup_take_lt, !lookup_drop by done. apply splice_lookup_old; lia.
  - rewrite !lookup_take_ge by lia. done.
Qed.

Lemma length_le (k : nat) v : length (Z_to_little_endian (Z.of_nat k) 8 v) = k.
Proof. pose proof (length_Z_to_little_endian (Z.of_nat k) 8 v). lia. Qed.

Lemma length_put_le k l off v :
  0 <= off → off + Z.of_nat k <= Z.of_nat (length l) → length (put_le k l off v) = length l.
Proof. intros. unfold put_le. apply length_splice. rewrite length_le. lia. Qed.

Lemma get_put_eq k l off v :
  0 <= off → off + Z.of_nat k <= Z.of_nat (length l) →
  get_le k (put_le k l off v) off = v mod 2 ^ (8 * Z.of_nat k).
Proof.
  intros H1 H2. unfold get_le, put_le.
  pose proof (slice_splice_eq l (Z.to_nat off) (Z_to_little_endian (Z.of_nat k) 8 v)) as E.
  rewrite length_le, Z2Nat.id in E by lia. rewrite E by lia.
  rewrite little_endian_to_Z_to_little_endian by lia. f_equal. f_equal. lia.
Qed.

Lemma get_put_ne k k' l off off' v :
  0 <= off → off + Z.of_nat k <= Z.of_nat (length l) → 0 <= off' →
  (off' + Z.of_nat k' <= off ∨ off + Z.of_nat k <= off') →
  get_le k' (put_le k l off v) off' = get_le k' l off'.
Proof.
  intros. unfold get_le, put_le. rewrite slice_splice_ne; [done | | done |];
    rewrite length_le; lia.
Qed.

Lemma bytes_le (k : nat) v : bytes (Z_to_little_endian (Z.of_nat k) 8 v).
Proof. apply (Z_to_little_endian_bound (Z.of_nat k) 8 v); lia. Qed.

Lemma bytes_splice l n l' : bytes l → bytes l' → bytes (splice l n l').
Proof.
  intros H H'. unfold splice, bytes. apply Forall_app. split; [by apply Forall_take |].
  apply Forall_app. split; [done | by apply Forall_drop].
Qed.

Lemma is_block_put k l off v :
  is_block l → 0 <= off → off + Z.of_nat k <= BSIZE → is_block (put_le k l off v).
Proof.
  intros [Hl Hb] H1 H2. split.
  - rewrite length_put_le; [done | done |]. rewrite Hl. unfold BSIZE in *. lia.
  - apply bytes_splice; [done | apply bytes_le].
Qed.

Lemma is_block_zero : is_block zero_block.
Proof.
  split; [apply length_replicate |]. apply Forall_replicate. lia.
Qed.

Lemma get_le_range k l off : bytes l → 0 <= get_le k l off < 2 ^ (8 * Z.of_nat k).
Proof.
  intros Hb. unfold get_le.
  assert (bytes (slice l off k)) as Hs by (apply Forall_take, Forall_drop, Hb).
  pose proof (little_endian_to_Z_bound 8 (slice l off k) ltac:(lia) Hs) as [H1 H2].
  split; [done |]. eapply Z.lt_le_trans; [exact H2 |]. apply Z.pow_le_mono_r; [lia |].
  unfold slice. rewrite length_take. lia.
Qed.

Lemma get_le_zero k off : get_le k zero_block off = 0.
Proof.
  unfold get_le, slice, zero_block. rewrite drop_replicate, take_replicate.
  generalize (k `min` (Z.to_nat BSIZE - Z.to_nat off))%nat as j.
  induction j as [| j IH]; [done |]. simpl. by rewrite IH.
Qed.

(** A field of a block. *)
Lemma put_block k v x y :
  is_block v → 0 <= x → x + Z.of_nat k <= BSIZE →
  is_block (put_le k v x y) ∧ get_le k (put_le k v x y) x = y mod 2 ^ (8 * Z.of_nat k) ∧
  ∀ k' x', 0 <= x' → x' + Z.of_nat k' <= x ∨ x + Z.of_nat k <= x' → get_le k' (put_le k v x y) x' = get_le k' v x'.
Proof.
  intros Hb Hx Hk. assert (x + Z.of_nat k <= Z.of_nat (length v)) by (destruct Hb as [-> _]; unfold BSIZE in *; lia).
  split; [by apply is_block_put |]. split; [by apply get_put_eq |]. intros. by apply get_put_ne.
Qed.

(** An array of [n] 32-bit words stored at [o]. *)
Definition put32s (v : block) (o n : Z) (f : Z → Z) : block :=
  foldl (λ v k, put32 v (o + 4 * k) (f k)) v (seqZ 0 n).

Lemma put32s_S v o n f : 0 <= n → put32s v o (n + 1) f = put32 (put32s v o n f) (o + 4 * n) (f n).
Proof. intros Hn. unfold put32s. rewrite (seqZ_app 0 n 1) by lia. by rewrite foldl_app, Z.add_0_l. Qed.

Lemma put32s_ok v o n f :
  0 <= o → 0 <= n → o + 4 * n <= Z.of_nat (length v) →
  length (put32s v o n f) = length v ∧
  (∀ j, 0 <= j < n → get32 (put32s v o n f) (o + 4 * j) = f j mod 2 ^ 32) ∧
  (∀ k x, 0 <= x → x + Z.of_nat k <= o ∨ o + 4 * n <= x → get_le k (put32s v o n f) x = get_le k v x) ∧
  (bytes v → bytes (put32s v o n f)).
Proof.
  intros Ho Hn. revert n Hn. apply (natlike_ind (λ n, o + 4 * n <= Z.of_nat (length v) → _)).
  - intros _. split; [done |]. split; [lia | done].
  - intros n Hn IH Hl. destruct IH as (I1 & I2 & I3 & I4); [lia |].
    replace (Z.succ n) with (n + 1) by lia. rewrite put32s_S by done. unfold put32. split; [| split; [| split]].
    + rewrite length_put_le by (rewrite ?I1; lia). done.
    + intros j Hj. unfold get32. destruct (Z.eq_dec j n) as [-> |].
      * rewrite get_put_eq by (rewrite ?I1; lia). done.
      * rewrite get_put_ne by (rewrite ?I1; lia). apply I2. lia.
    + intros k x Hx Hd. rewrite get_put_ne by (rewrite ?I1; lia). apply I3; lia.
    + intros Hb. apply bytes_splice; [auto | apply bytes_le].
Qed.

#[global] Opaque zero_block.
