(* ===== verification/Sleeplock.v ===== *)
(** * Sleep locks (kernel/sleeplock.c)

    The state of one sleep lock; [k] names it among the kernel's sleep locks
    (its address), and [mypid] is [myproc()->pid]. *)

From S2P Require Import Prelude Monad.

(** [lk->lk] is the spin lock [L_sleep k]; the name is for debugging only. *)
Record sleeplock := SleepLock {
  sl_locked : bool;
  sl_pid : Z }.

Definition initsleeplock : sleeplock := SleepLock false 0.

Section sleeplock.
Context (mypid : Z) (k : sleepid).

Definition acquiresleep : K sleeplock unit :=
  acquire (L_sleep k) ;;
  wait_while sl_locked (C_sleep k) (L_sleep k) ;;
  modify (λ _, SleepLock true mypid) ;;
  release (L_sleep k).

Definition releasesleep : K sleeplock unit :=
  acquire (L_sleep k) ;;
  modify (λ _, SleepLock false 0) ;;
  wakeup (C_sleep k) ;;
  release (L_sleep k).

Definition holdingsleep : K sleeplock bool :=
  acquire (L_sleep k) ;;
  r <- gets (λ s, sl_locked s && (sl_pid s =? mypid)) ;;
  release (L_sleep k) ;;
  ret r.

Lemma acquiresleep_free s h w n :
  sl_locked s = false → L_sleep k ∉ h →
  acquiresleep s (Ctx h w n) = Ok tt (SleepLock true mypid) (Ctx h w n).
Proof.
  intros Hl Hh. unfold acquiresleep. kacq.
  kstep (wait_while_false sl_locked (C_sleep k) (L_sleep k) s (Ctx (L_sleep k :: h) w n) Hl).
  kstep. krel. done.
Qed.

Lemma releasesleep_ok s h w n :
  L_sleep k ∉ h →
  releasesleep s (Ctx h w n) = Ok tt initsleeplock (Ctx h (w ++ [C_sleep k]) n).
Proof. intros Hh. unfold releasesleep. kacq. kstep. kstep. krel. done. Qed.

Lemma holdingsleep_ok s h w n :
  L_sleep k ∉ h →
  holdingsleep s (Ctx h w n) = Ok (sl_locked s && (sl_pid s =? mypid)) s (Ctx h w n).
Proof. intros Hh. unfold holdingsleep. kacq. kstep. krel. done. Qed.

End sleeplock.
