(* ===== verification/Bio.v ===== *)
(** * The buffer cache (kernel/bio.c)

    The buffers, with the explicit [prev]/[next] pointers of the LRU list, over
    the disk.  A [struct buf *] is an index: 0 .. NBUF-1 in [bcache.buf], and
    [HEAD] for [bcache.head]. *)

From S2P Require Import Prelude Monad Riscv Block Sleeplock.

(** ** The disk

    Its blocks, and the block writes made so far, in order: a crash keeps a
    prefix of them.  [virtio_disk_rw] completes one request. *)
Record disk := Disk {
  blocks : gmap Z block;
  writes : list (Z * block) }.

Definition dread (d : disk) (b : Z) : block := default zero_block (blocks d !! b).

Definition dwrite (d : disk) (b : Z) (v : block) : disk :=
  Disk (<[b := v]> (blocks d)) (writes d ++ [(b, v)]).

(** ** struct buf *)

Record buf := Buf {
  valid : bool;
  dev : Z;
  blockno : Z;
  lock : sleeplock;
  refcnt : Z;
  prev : Z;
  next : Z;
  data : block }.

Definition set_lock (v : sleeplock) (b : buf) : buf :=
  Buf (valid b) (dev b) (blockno b) v (refcnt b) (prev b) (next b) (data b).
Definition set_refcnt (v : Z) (b : buf) : buf :=
  Buf (valid b) (dev b) (blockno b) (lock b) v (prev b) (next b) (data b).
Definition set_prev (v : Z) (b : buf) : buf :=
  Buf (valid b) (dev b) (blockno b) (lock b) (refcnt b) v (next b) (data b).
Definition set_next (v : Z) (b : buf) : buf :=
  Buf (valid b) (dev b) (blockno b) (lock b) (refcnt b) (prev b) v (data b).
Definition set_data (v : block) (b : buf) : buf :=
  Buf (valid b) (dev b) (blockno b) (lock b) (refcnt b) (prev b) (next b) v.
Definition set_valid (v : bool) (b : buf) : buf :=
  Buf v (dev b) (blockno b) (lock b) (refcnt b) (prev b) (next b) (data b).

(** A zeroed [struct buf]. *)
Definition buf0 : buf := Buf false 0 0 initsleeplock 0 0 0 zero_block.

Definition HEAD : Z := NBUF.

Record bcache := BCache {
  bufs : list buf;
  dsk : disk }.

Definition getb (s : bcache) (i : Z) : buf := default buf0 (zget (bufs s) i).

Definition setb (i : Z) (b : buf) (s : bcache) : bcache :=
  BCache (zset (bufs s) i b) (dsk s).

(** [b->field = ...] *)
Definition updb (i : Z) (f : buf → buf) : K bcache unit := modify (λ s, setb i (f (getb s i)) s).

(** The static [bcache], all zero, over a disk. *)
Definition bcache0 (d : disk) : bcache := BCache (replicate (Z.to_nat (NBUF + 1)) buf0) d.

(** ** binit *)

(** [b->next = head.next; b->prev = head; head.next->prev = b; head.next = b] *)
Definition link_front (b : Z) : K bcache unit :=
  h <- gets (λ s, next (getb s HEAD)) ;;
  updb b (set_next h) ;;
  updb b (set_prev HEAD) ;;
  h <- gets (λ s, next (getb s HEAD)) ;;
  updb h (set_prev b) ;;
  updb HEAD (set_next b).

Definition binit : K bcache unit :=
  updb HEAD (set_prev HEAD) ;;
  updb HEAD (set_next HEAD) ;;
  for_each (seqZ 0 NBUF) (λ b,
    h <- gets (λ s, next (getb s HEAD)) ;;
    updb b (set_next h) ;;
    updb b (set_prev HEAD) ;;
    updb b (set_lock initsleeplock) ;;
    h <- gets (λ s, next (getb s HEAD)) ;;
    updb h (set_prev b) ;;
    updb HEAD (set_next b)).

(** ** The operations, by the process [mypid] *)

(** [for(b = ...; b != &bcache.head; b = b->dir) if(test) ...]: [None] when the
    list does not come back to the head within [fuel] steps. *)
Fixpoint scan (s : bcache) (dir : buf → Z) (test : buf → bool) (fuel : nat) (b : Z)
  : option (option Z) :=
  match fuel with
  | O => None
  | S f =>
      if b =? HEAD then Some None
      else if test (getb s b) then Some (Some b)
      else scan s dir test f (dir (getb s b))
  end.

Definition SCAN_FUEL : nat := Z.to_nat (NBUF + 1).

(** The sleep lock of buffer [i] as a part of the cache. *)
Definition buf_lock (i : Z) : lens bcache sleeplock :=
  Lens (λ s, lock (getb s i)) (λ l s, setb i (set_lock l (getb s i)) s).

Section bio.
Context (mypid : Z).

Definition bget (d b : Z) : K bcache Z :=
  acquire L_bcache ;;
  (* Is the block already cached? *)
  r <- gets (λ s, scan s next (λ x, (dev x =? d) && (blockno x =? b)) SCAN_FUEL (next (getb s HEAD))) ;;
  match r with
  | None => λ _ _, NoFuel
  | Some (Some i) =>
      updb i (λ x, set_refcnt (u32 (refcnt x + 1)) x) ;;
      release L_bcache ;;
      lift (buf_lock i) (acquiresleep mypid (SL_buf i)) ;;
      ret i
  | Some None =>
      (* Recycle the least recently used (LRU) unused buffer. *)
      r <- gets (λ s, scan s prev (λ x, refcnt x =? 0) SCAN_FUEL (prev (getb s HEAD))) ;;
      match r with
      | None => λ _ _, NoFuel
      | Some (Some i) =>
          updb i (λ x, Buf false d b (lock x) 1 (prev x) (next x) (data x)) ;;
          release L_bcache ;;
          lift (buf_lock i) (acquiresleep mypid (SL_buf i)) ;;
          ret i
      | Some None => panic "bget: no buffers"
      end
  end.

(** The driver's contract: [virtio_disk_rw(b, write)] moves the block between
    the buffer and the disk. *)
Definition virtio_rw (i : Z) (write : bool) : K bcache unit :=
  modify (λ s,
    let b := getb s i in
    if write then BCache (bufs s) (dwrite (dsk s) (blockno b) (data b))
    else setb i (set_data (dread (dsk s) (blockno b)) b) s).

Definition bread (d b : Z) : K bcache Z :=
  i <- bget d b ;;
  v <- gets (λ s, valid (getb s i)) ;;
  when (negb v) (virtio_rw i false ;; updb i (set_valid true)) ;;
  ret i.

Definition bwrite (i : Z) : K bcache unit :=
  r <- lift (buf_lock i) (holdingsleep mypid (SL_buf i)) ;;
  if negb r then panic "bwrite" else virtio_rw i true.

Definition brelse (i : Z) : K bcache unit :=
  r <- lift (buf_lock i) (holdingsleep mypid (SL_buf i)) ;;
  if negb r then panic "brelse"
  else
    lift (buf_lock i) (releasesleep (SL_buf i)) ;;
    acquire L_bcache ;;
    updb i (λ x, set_refcnt (u32 (refcnt x - 1)) x) ;;
    c <- gets (λ s, refcnt (getb s i)) ;;
    when (c =? 0)
      ((* no one is waiting for it. *)
       b <- gets (λ s, getb s i) ;;
       updb (next b) (set_prev (prev b)) ;;
       b <- gets (λ s, getb s i) ;;
       updb (prev b) (set_next (next b)) ;;
       link_front i) ;;
    release L_bcache.

Definition bpin (i : Z) : K bcache unit :=
  acquire L_bcache ;;
  updb i (λ x, set_refcnt (u32 (refcnt x + 1)) x) ;;
  release L_bcache.

Definition bunpin (i : Z) : K bcache unit :=
  acquire L_bcache ;;
  updb i (λ x, set_refcnt (u32 (refcnt x - 1)) x) ;;
  release L_bcache.

(** [b->data] read and written by the holder of the buffer. *)
Definition bdata (i : Z) : K bcache block := gets (λ s, data (getb s i)).

Definition bstore (i : Z) (v : block) : K bcache unit := updb i (set_data v).

End bio.
