(* ===== verification/BioLru.v ===== *)
(** * The LRU list of the buffer cache

    The [prev]/[next] pointers form a ring through [bcache.head]; reading it
    off gives the list of buffers from the most to the least recently used.
    The pointer manipulations of bio.c are list operations on it. *)

From S2P Require Import Prelude Monad Riscv Block Sleeplock Bio.

(** The pointers agree with the list [a :: l]. *)
Fixpoint seg (nx pv : Z → Z) (a : Z) (l : list Z) : Prop :=
  match l with
  | [] => True
  | b :: l' => nx a = b ∧ pv b = a ∧ seg nx pv b l'
  end.

Lemma seg_app nx pv a l b l' :
  seg nx pv a (l ++ b :: l') ↔ seg nx pv a (l ++ [b]) ∧ seg nx pv b l'.
Proof.
  revert a. induction l as [| c l IH]; intros a; simpl; [tauto |]. rewrite IH. tauto.
Qed.

(** [nx] matters at all nodes but the last, [pv] at all but the first. *)
Lemma seg_ext nx pv nx' pv' a l b :
  (∀ c, c = a ∨ c ∈ l → nx' c = nx c) → (∀ c, c = b ∨ c ∈ l → pv' c = pv c) →
  seg nx pv a (l ++ [b]) → seg nx' pv' a (l ++ [b]).
Proof.
  revert a. induction l as [| c l IH]; intros a Hn Hp; simpl.
  - intros (H1 & H2 & _). split; [| split; [| done]].
    + rewrite Hn; [done | by left].
    + rewrite Hp; [done | by left].
  - intros (H1 & H2 & H3). split; [| split].
    + rewrite Hn; [done | by left].
    + rewrite Hp; [done | right; left].
    + apply IH; [| | done].
      * intros d [-> | Hd]; apply Hn; right; [left | by right].
      * intros d [-> | Hd]; apply Hp; [by left | right; by right].
Qed.

Lemma seg_prev_in nx pv a l b l' : seg nx pv a (l ++ b :: l') → pv b ∈ a :: l.
Proof.
  revert a. induction l as [| c l IH]; intros a; simpl; [intros (_ & -> & _); left |].
  intros (_ & _ & H). apply IH in H. by right.
Qed.

Lemma seg_next_in nx pv a l b l' : seg nx pv a (l ++ b :: l') → l' ≠ [] → nx b ∈ l'.
Proof.
  intros H Hl. apply seg_app in H as [_ H]. destruct l'; [done |]. destruct H as [-> _]. left.
Qed.

(** Taking [b] out from between its neighbours. *)
Lemma seg_unlink nx pv nx' pv' a l1 b l2 e :
  NoDup (a :: l1 ++ b :: l2) → e ∉ l1 ++ b :: l2 →
  seg nx pv a (l1 ++ b :: l2 ++ [e]) →
  (∀ c, c ≠ b → nx' c = if c =? pv b then nx b else nx c) →
  (∀ c, c ≠ b → pv' c = if c =? nx b then pv b else pv c) →
  seg nx' pv' a (l1 ++ l2 ++ [e]).
Proof.
  intros Hnd He Hs Hn Hp. revert a Hnd Hs. induction l1 as [| d l1 IH]; intros a Hnd Hs.
  - simpl in *. apply NoDup_cons in Hnd as [Ha Hnd]. apply NoDup_cons in Hnd as [Hb Hnd].
    apply not_elem_of_cons in Ha as [Hab Ha]. apply not_elem_of_cons in He as [Heb He].
    destruct Hs as (Hnb & Hpb & Hs). rewrite Hpb in *.
    assert (nx' a = nx b) as Hna by (rewrite Hn, Z.eqb_refl; done).
    destruct l2 as [| c l2]; simpl in *; destruct Hs as (Hnc & Hpc & Hs); rewrite Hnc in *.
    + split; [done |]. split; [| done]. by rewrite Hp, Z.eqb_refl.
    + apply NoDup_cons in Hnd as [Hc Hnd]. apply not_elem_of_cons in Hb as [Hbc Hb].
      apply not_elem_of_cons in Ha as [Hac Ha]. apply not_elem_of_cons in He as [Hec He].
      split; [done |]. split; [by rewrite Hp, Z.eqb_refl by done |].
      apply (seg_ext nx pv); [| | done].
      * intros x Hx. rewrite Hn; [destruct (Z.eqb_spec x a) as [-> |]; [| done] |];
          destruct Hx as [-> | Hx]; congruence.
      * intros x Hx. rewrite Hp; [destruct (Z.eqb_spec x c) as [-> |]; [| done] |];
          destruct Hx as [-> | Hx]; congruence.
  - simpl in Hs. destruct Hs as (Hna & Hpd & Hs). simpl in Hnd, He.
    apply NoDup_cons in Hnd as [Ha Hnd]. apply not_elem_of_cons in He as [Hed He].
    pose proof (seg_prev_in _ _ _ _ _ _ Hs) as Hpin.
    assert (nx b ∈ l2 ++ [e]) as Hqin.
    { eapply seg_next_in; [exact Hs |]. by destruct l2. }
    pose proof Hnd as Hnd'. apply NoDup_cons in Hnd' as [Hd _].
    rewrite elem_of_app in Hd. rewrite not_elem_of_cons in Ha.
    assert (d ≠ b) as Hdb. { intros ->. apply Hd. right. left. }
    assert (a ≠ b) as Hab. { intros ->. destruct Ha as [_ Ha]. apply Ha. apply elem_of_app. right. left. }
    simpl. split; [| split; [| by apply IH]].
    + rewrite Hn by done. destruct (Z.eqb_spec a (pv b)) as [E |]; [| done]. exfalso.
      destruct Ha as [Had Ha]. rewrite <- E in Hpin. apply elem_of_cons in Hpin as [? | Hpin]; [done |].
      apply Ha, elem_of_app. by left.
    + rewrite Hp by done. destruct (Z.eqb_spec d (nx b)) as [E |]; [| done]. exfalso.
      rewrite <- E in Hqin. apply elem_of_app in Hqin as [Hqin | Hqin].
      * apply Hd. right. by right.
      * apply list_elem_of_singleton in Hqin. done.
Qed.

(** Putting [b] first. *)
Lemma seg_push nx pv nx' pv' h b l :
  b ∉ l → b ≠ h → h ∉ l → seg nx pv h (l ++ [h]) →
  nx' h = b → nx' b = nx h → pv' b = h → pv' (nx h) = b →
  (∀ c, c ≠ h → c ≠ b → nx' c = nx c) → (∀ c, c ≠ nx h → c ≠ b → pv' c = pv c) →
  NoDup l → seg nx' pv' h (b :: l ++ [h]).
Proof.
  intros Hbl Hbh Hhl Hs H1 H2 H3 H4 Hn Hp Hnd. cbn [seg]. split; [done |]. split; [done |].
  destruct l as [| c l]; simpl in *; destruct Hs as (Hh & Hc & Hs); rewrite Hh in *.
  - done.
  - apply NoDup_cons in Hnd as [Hcl Hnd]. apply not_elem_of_cons in Hbl as [Hbc Hbl].
    apply not_elem_of_cons in Hhl as [Hhc Hhl]. split; [done |]. split; [done |].
    apply (seg_ext nx pv); [| | done].
    + intros x Hx. apply Hn; destruct Hx as [-> | Hx]; congruence.
    + intros x Hx. apply Hp; destruct Hx as [-> | Hx]; congruence.
Qed.

(** ** The list and the scans *)

Definition nxt (s : bcache) (i : Z) : Z := next (getb s i).
Definition prv (s : bcache) (i : Z) : Z := prev (getb s i).

(** [order] lists the buffers from most to least recently used. *)
Definition lru (s : bcache) (order : list Z) : Prop :=
  seg (nxt s) (prv s) HEAD (order ++ [HEAD]) ∧ order ≡ₚ seqZ 0 NBUF.

Lemma in_order s order i : lru s order → i ∈ order ↔ 0 <= i < NBUF.
Proof. intros [_ ->]. rewrite elem_of_seqZ. lia. Qed.

Lemma order_NoDup s order : lru s order → NoDup order.
Proof. intros [_ ->]. apply NoDup_seqZ. Qed.

Lemma order_head s order : lru s order → HEAD ∉ order.
Proof. intros H. rewrite (in_order _ _ _ H). unfold HEAD. lia. Qed.

Lemma order_length s order : lru s order → length order = 30%nat.
Proof. intros [_ ->]. done. Qed.

Lemma scan_next s test fuel a l :
  seg (nxt s) (prv s) a (l ++ [HEAD]) → HEAD ∉ l → (length l < fuel)%nat →
  scan s next test fuel (nxt s a) = Some (List.find (λ i, test (getb s i)) l).
Proof.
  revert fuel a. induction l as [| b l IH]; intros fuel a Hs Hh Hf;
    (destruct fuel as [| fuel]; [simpl in Hf; lia |]); simpl in *; destruct Hs as (-> & _ & Hs).
  - by rewrite Z.eqb_refl.
  - apply not_elem_of_cons in Hh as [Hb Hh]. destruct (Z.eqb_spec b HEAD); [done |].
    destruct (test (getb s b)); [done |]. apply IH; [done | done | lia].
Qed.

Lemma scan_prev s test fuel l e :
  seg (nxt s) (prv s) HEAD (l ++ [e]) → HEAD ∉ l → (length l < fuel)%nat →
  scan s prev test fuel (prv s e) = Some (List.find (λ i, test (getb s i)) (rev l)).
Proof.
  revert fuel e. induction l as [| b l IH] using rev_ind; intros fuel e Hs Hh Hf;
    (destruct fuel as [| fuel]; [lia |]).
  - destruct Hs as (_ & -> & _). done.
  - rewrite <- app_assoc in Hs. simpl in Hs. apply seg_app in Hs as [Hs (_ & He & _)].
    rewrite He, rev_app_distr. simpl. rewrite length_app in Hf. simpl in Hf.
    rewrite elem_of_app, list_elem_of_singleton in Hh.
    destruct (Z.eqb_spec b HEAD) as [-> |]; [tauto |].
    destruct (test (getb s b)); [done |]. apply IH; [done | tauto | lia].
Qed.

Lemma find_first_in {A} (f : A → bool) l x : List.find f l = Some x → x ∈ l ∧ f x = true.
Proof.
  intros H. apply List.find_some in H as [H1 H2]. split; [by apply list_elem_of_In | done].
Qed.

Lemma find_first_none {A} (f : A → bool) l x : List.find f l = None → x ∈ l → f x = false.
Proof. intros H Hx. apply (List.find_none f l H). by apply list_elem_of_In. Qed.

(** Buffers read and written by index. *)
Lemma getb_setb s i j b :
  length (bufs s) = 31%nat → 0 <= i <= HEAD →
  getb (setb i b s) j = if i =? j then b else getb s j.
Proof.
  intros Hl Hi. unfold getb, setb. cbn [bufs]. rewrite zget_zset.
  - by destruct (i =? j).
  - rewrite Hl. unfold HEAD, NBUF, MAXOPBLOCKS in Hi. lia.
Qed.

(** [binit] links all buffers, the last one first. *)
Lemma binit_lru d h w n :
  ∃ s, binit (bcache0 d) (Ctx h w n) = Ok tt s (Ctx h w n) ∧ lru s (rev (seqZ 0 NBUF)) ∧
    length (bufs s) = 31%nat ∧ dsk s = d ∧
    ∀ i, 0 <= i < NBUF → ∃ p q, getb s i = Buf false 0 0 initsleeplock 0 p q zero_block.
Proof.
  eexists. split; [vm_compute; reflexivity |]. split; [split |].
  - vm_compute. repeat split.
  - by rewrite <- Permutation_rev.
  - split; [done |]. split; [done |]. intros i Hi.
    assert (i ∈ seqZ 0 NBUF) as Hin by (apply elem_of_seqZ; lia).
    apply list_elem_of_In in Hin. vm_compute in Hin.
    repeat (destruct Hin as [<- | Hin]; [eexists _, _; vm_compute; reflexivity |]). done.
Qed.
