(* ===== verification/BioInv.v ===== *)
(** * What the buffer cache promises

    The invariant of the cache, and each operation of bio.c as seen by the
    process that calls it: the cached contents of a block ([view]), the disk,
    and who holds which buffer. *)

From S2P Require Import Prelude Monad Riscv Block Sleeplock Bio BioLru.

(** Buffer [i] caches block [b] of the file system's disk. *)
Definition caches (s : bcache) (i b : Z) : Prop :=
  0 <= i < NBUF ∧ dev (getb s i) = ROOTDEV ∧ blockno (getb s i) = b.

(** [order] is the LRU list. A block is cached at most once; a buffer nobody
    uses is clean, so that recycling it loses nothing. *)
Record bc_ok (s : bcache) (order : list Z) : Prop := {
  bc_len : length (bufs s) = 31%nat;
  bc_lru : lru s order;
  bc_uniq : ∀ i j b, caches s i b → caches s j b → i = j;
  bc_ref : ∀ i, 0 <= i < NBUF → 0 <= refcnt (getb s i) < 2 ^ 31;
  bc_locked : ∀ i, 0 <= i < NBUF → sl_locked (lock (getb s i)) = true → 0 < refcnt (getb s i);
  bc_dev : ∀ i, 0 <= i < NBUF → valid (getb s i) = true → dev (getb s i) = ROOTDEV;
  bc_block : ∀ i, 0 <= i < NBUF → valid (getb s i) = true → is_block (data (getb s i));
  bc_clean : ∀ i, 0 <= i < NBUF → refcnt (getb s i) = 0 → valid (getb s i) = true →
               data (getb s i) = dread (dsk s) (blockno (getb s i));
  bc_disk : ∀ b, is_block (dread (dsk s) b) }.

(** The contents of block [b]: the cached copy, or the disk's. *)
Definition view (s : bcache) (b : Z) : block :=
  match List.find (λ i, valid (getb s i) && (dev (getb s i) =? ROOTDEV) && (blockno (getb s i) =? b))
          (seqZ 0 NBUF) with
  | Some i => data (getb s i)
  | None => dread (dsk s) b
  end.

Lemma view_cached s order i b :
  bc_ok s order → caches s i b → valid (getb s i) = true → view s b = data (getb s i).
Proof.
  intros Hok Hc Hv. unfold view. destruct (List.find _ _) as [j |] eqn:E.
  - apply find_first_in in E as [Hj E]. apply elem_of_seqZ in Hj.
    apply andb_true_iff in E as [E Eb]. apply andb_true_iff in E as [_ Ed].
    apply Z.eqb_eq in Eb, Ed. rewrite (bc_uniq _ _ Hok i j b); [done | done |].
    split; [lia | done].
  - destruct Hc as (Hi & Hd & Hb). apply (find_first_none _ _ i) in E.
    + cbv beta in E. by rewrite Hv, Hd, Hb, !Z.eqb_refl in E.
    + apply elem_of_seqZ. lia.
Qed.

Lemma view_uncached s b :
  (∀ i, caches s i b → valid (getb s i) = false) → view s b = dread (dsk s) b.
Proof.
  intros H. unfold view. destruct (List.find _ _) as [j |] eqn:E; [| done].
  apply find_first_in in E as [Hj E]. apply elem_of_seqZ in Hj.
  apply andb_true_iff in E as [E Eb]. apply andb_true_iff in E as [Ev Ed].
  apply Z.eqb_eq in Eb, Ed. rewrite (H j) in Ev; [done |]. split; [lia | done].
Qed.

Lemma view_cases s c :
  (∃ j, caches s j c ∧ valid (getb s j) = true ∧ view s c = data (getb s j)) ∨
  ((∀ j, caches s j c → valid (getb s j) = false) ∧ view s c = dread (dsk s) c).
Proof.
  unfold view. destruct (List.find _ _) as [j |] eqn:E; [left | right].
  - apply find_first_in in E as [Hj E]. apply elem_of_seqZ in Hj.
    apply andb_true_iff in E as [E Eb]. apply andb_true_iff in E as [Ev Ed].
    apply Z.eqb_eq in Eb, Ed. exists j. split; [split; [lia | done] | done].
  - split; [| done]. intros j (Hj & Hd & Hb). apply (find_first_none _ _ j) in E.
    + cbv beta in E. rewrite Hd, Hb, !Z.eqb_refl, !andb_true_r in E. done.
    + apply elem_of_seqZ. lia.
Qed.

(** Two states with the same cached copies of [b] and the same disk block. *)
Lemma view_ext s s' b :
  (∀ i, 0 <= i < NBUF →
     valid (getb s' i) = valid (getb s i) ∧ dev (getb s' i) = dev (getb s i) ∧
     blockno (getb s' i) = blockno (getb s i) ∧ data (getb s' i) = data (getb s i)) →
  dread (dsk s') b = dread (dsk s) b → view s' b = view s b.
Proof.
  intros H Hd. unfold view.
  assert (∀ l, Forall (λ i, 0 <= i < NBUF) l →
    List.find (λ i, valid (getb s' i) && (dev (getb s' i) =? ROOTDEV) && (blockno (getb s' i) =? b)) l =
    List.find (λ i, valid (getb s i) && (dev (getb s i) =? ROOTDEV) && (blockno (getb s i) =? b)) l) as Hf.
  { induction l as [| i l IH]; intros Hl; [done |]. apply Forall_cons in Hl as [Hi Hl]. simpl.
    destruct (H i Hi) as (-> & -> & -> & _). by rewrite IH. }
  rewrite Hf by (apply Forall_seqZ; lia).
  destruct (List.find _ _) as [j |] eqn:E; [| done].
  apply find_first_in in E as [Hj _]. apply elem_of_seqZ in Hj. by apply H.
Qed.

(** ** Changing one buffer *)

(** The list and the other buffers do not notice a change that keeps the
    pointers. *)
Lemma lru_setb s order i b :
  length (bufs s) = 31%nat → lru s order → 0 <= i < NBUF →
  prev b = prev (getb s i) → next b = next (getb s i) → lru (setb i b s) order.
Proof.
  intros Hl [Hs Hp] Hi Epv Enx. split; [| done].
  assert (0 <= i <= HEAD) as Hi' by (unfold HEAD; lia).
  apply (seg_ext (nxt s) (prv s)); [| | done]; intros c _; unfold nxt, prv;
    rewrite getb_setb by done; by destruct (Z.eqb_spec i c) as [<- |].
Qed.

Record buf_ok (s : bcache) (b : buf) : Prop := {
  b_ref : 0 <= refcnt b < 2 ^ 31;
  b_locked : sl_locked (lock b) = true → 0 < refcnt b;
  b_dev : valid b = true → dev b = ROOTDEV;
  b_block : valid b = true → is_block (data b);
  b_clean : refcnt b = 0 → valid b = true → data b = dread (dsk s) (blockno b) }.

Lemma bc_buf_ok s order i : bc_ok s order → 0 <= i < NBUF → buf_ok s (getb s i).
Proof. intros [] Hi. constructor; auto. Qed.

Lemma bc_ok_setb s order i b :
  bc_ok s order → 0 <= i < NBUF → buf_ok s b →
  prev b = prev (getb s i) → next b = next (getb s i) →
  (dev b = ROOTDEV → ∀ j, caches s j (blockno b) → j = i) →
  bc_ok (setb i b s) order.
Proof.
  intros Hok Hi [B1 B2 B3 B4 B5] Epv Enx Hu.
  pose proof (bc_len _ _ Hok) as Hl. assert (0 <= i <= HEAD) as Hi' by (unfold HEAD; lia).
  assert (∀ j, getb (setb i b s) j = if i =? j then b else getb s j) as G
    by (intros; by apply getb_setb).
  constructor.
  - cbn [bufs setb]. by rewrite length_zset.
  - apply lru_setb; try done. apply Hok.
  - intros j k c (Hj & Dj & Cj) (Hk & Dk & Ck). rewrite G in Dj, Cj, Dk, Ck.
    destruct (Z.eqb_spec i j) as [<- |], (Z.eqb_spec i k) as [<- |]; [done | | |].
    + symmetry. apply Hu; [done |]. by rewrite Cj.
    + apply Hu; [done |]. by rewrite Ck.
    + apply (bc_uniq _ _ Hok j k c); done.
  - intros j Hj. rewrite G. destruct (i =? j); [done | by apply Hok].
  - intros j Hj. rewrite G. destruct (i =? j); [done | by apply Hok].
  - intros j Hj. rewrite G. destruct (i =? j); [done | by apply Hok].
  - intros j Hj. rewrite G. destruct (i =? j); [done | by apply Hok].
  - intros j Hj. rewrite G. destruct (i =? j); [done | by apply Hok].
  - apply Hok.
Qed.

(** A change that keeps what the buffer caches. *)
Lemma bc_ok_keep s order i b :
  bc_ok s order → 0 <= i < NBUF → buf_ok s b →
  prev b = prev (getb s i) → next b = next (getb s i) →
  dev b = dev (getb s i) → blockno b = blockno (getb s i) →
  bc_ok (setb i b s) order.
Proof.
  intros Hok Hi Hb Epv Enx Ed Eb. apply bc_ok_setb; try done.
  intros Hd j Hj. apply (bc_uniq _ _ Hok j i (blockno b)); [done |].
  split; [done |]. split; congruence.
Qed.

Lemma view_setb_same s order i b c :
  bc_ok s order → 0 <= i < NBUF →
  valid b = valid (getb s i) → dev b = dev (getb s i) → blockno b = blockno (getb s i) →
  data b = data (getb s i) → view (setb i b s) c = view s c.
Proof.
  intros Hok Hi Ev Ed Eb Edt. apply view_ext; [| done]. intros j Hj.
  rewrite getb_setb by (first [apply Hok | unfold HEAD; lia]).
  destruct (Z.eqb_spec i j) as [<- |]; [done | done].
Qed.

(** ** The operations, as the process [mypid] sees them *)

Section ops.
Context (mypid : Z).

(** The locks [bio.c] takes are free for this CPU. *)
Definition bio_free (h : list lockid) : Prop := L_bcache ∉ h ∧ ∀ i, L_sleep (SL_buf i) ∉ h.

Definition mine : sleeplock := SleepLock true mypid.

Lemma lock_buf_ok s i h w n :
  bio_free h → sl_locked (lock (getb s i)) = false →
  lift (buf_lock i) (acquiresleep mypid (SL_buf i)) s (Ctx h w n) =
  Ok tt (setb i (set_lock mine (getb s i)) s) (Ctx h w n).
Proof.
  intros [_ Hh] Hl. apply (lift_ok (buf_lock i)).
  by apply (acquiresleep_free mypid (SL_buf i) (lock (getb s i))).
Qed.

(** The block [b] is not in use by another holder, and there is a buffer for
    it: its own, or one nobody uses. *)
Definition can_open (s : bcache) (b : Z) : Prop :=
  (∀ i, caches s i b → sl_locked (lock (getb s i)) = false ∧ refcnt (getb s i) < 2 ^ 31 - 1) ∧
  ((∃ i, caches s i b) ∨ ∃ i, 0 <= i < NBUF ∧ refcnt (getb s i) = 0).

(** Buffer [i] has been opened for block [b]. *)
Record opens (s s' : bcache) (i b : Z) : Prop := {
  op_caches : caches s' i b;
  op_valid : valid (getb s' i) = true;
  op_lock : lock (getb s' i) = mine;
  op_data : data (getb s' i) = view s b;
  op_refcnt : refcnt (getb s' i) = refcnt (getb s i) + 1;
  op_free : sl_locked (lock (getb s i)) = false;
  op_other : ∀ j, j ≠ i → getb s' j = getb s j;
  op_evict : caches s i b ∨ (refcnt (getb s i) = 0 ∧ ∀ j, ¬ caches s j b);
  op_dsk : dsk s' = dsk s;
  op_view : ∀ c, view s' c = view s c }.

Lemma find_cached s order b :
  bc_ok s order →
  List.find (λ i, (dev (getb s i) =? ROOTDEV) && (blockno (getb s i) =? b)) order =
    None → ∀ i, ¬ caches s i b.
Proof.
  intros Hok H i (Hi & Hd & Hb). apply (find_first_none _ _ i) in H.
  - cbv beta in H. by rewrite Hd, Hb, !Z.eqb_refl in H.
  - by apply (in_order s order i (bc_lru _ _ Hok)).
Qed.

(** The buffer after [bget]. *)
Definition got (s : bcache) (i b : Z) (hit : bool) : buf :=
  let x := getb s i in
  if hit then Buf (valid x) (dev x) (blockno x) mine (refcnt x + 1) (prev x) (next x) (data x)
  else Buf false ROOTDEV b mine 1 (prev x) (next x) (data x).

Lemma setb_setb s i b b' : setb i b' (setb i b s) = setb i b' s.
Proof. unfold setb. cbn [bufs dsk]. f_equal. unfold zset. destruct (i <? 0); [done |]. apply list_insert_insert_eq. Qed.

Lemma scan_hit s order b :
  bc_ok s order →
  scan s next (λ x, (dev x =? ROOTDEV) && (blockno x =? b)) SCAN_FUEL (next (getb s HEAD)) =
  Some (List.find (λ i, (dev (getb s i) =? ROOTDEV) && (blockno (getb s i) =? b)) order).
Proof.
  intros Hok. destruct (bc_lru _ _ Hok) as [Hs Hp].
  apply (scan_next s (λ x, (dev x =? ROOTDEV) && (blockno x =? b)) SCAN_FUEL HEAD); [done | |].
  - by apply (order_head s), Hok.
  - rewrite (order_length s) by apply Hok. vm_compute. lia.
Qed.

Lemma scan_lru s order :
  bc_ok s order →
  scan s prev (λ x, refcnt x =? 0) SCAN_FUEL (prev (getb s HEAD)) =
  Some (List.find (λ i, refcnt (getb s i) =? 0) (rev order)).
Proof.
  intros Hok. destruct (bc_lru _ _ Hok) as [Hs Hp].
  apply (scan_prev s (λ x, refcnt x =? 0) SCAN_FUEL order HEAD); [done | |].
  - by apply (order_head s), Hok.
  - rewrite (order_length s) by apply Hok. vm_compute. lia.
Qed.

(** [i] is the least recently used of the buffers nobody uses. *)
Definition lru_victim (s : bcache) (order : list Z) (i : Z) : Prop :=
  ∃ l1 l2, order = l1 ++ i :: l2 ∧ refcnt (getb s i) = 0 ∧ Forall (λ j, refcnt (getb s j) ≠ 0) l2.

Lemma find_rev_split (f : Z → bool) l x :
  List.find f (rev l) = Some x → ∃ l1 l2, l = l1 ++ x :: l2 ∧ f x = true ∧ Forall (λ j, f j = false) l2.
Proof.
  induction l as [| a l IH] using rev_ind; [done |]. rewrite rev_app_distr. simpl.
  destruct (f a) eqn:E.
  - intros [= ->]. by exists l, [].
  - intros H. destruct (IH H) as (l1 & l2 & -> & Hx & Hf). exists l1, (l2 ++ [a]).
    rewrite <- app_assoc. split; [done |]. split; [done |]. apply Forall_app. by repeat constructor.
Qed.

Lemma bget_ok s order b h w n :
  bc_ok s order → can_open s b → bio_free h →
  ∃ i hit, 0 <= i < NBUF ∧ sl_locked (lock (getb s i)) = false ∧
    (if hit : bool then caches s i b else refcnt (getb s i) = 0 ∧ ∀ j, ¬ caches s j b) ∧
    (hit = false → lru_victim s order i) ∧
    bget mypid ROOTDEV b s (Ctx h w n) = Ok i (setb i (got s i b hit) s) (Ctx h w n).
Proof.
  intros Hok [Hfree Hroom] Hh. pose proof Hh as [Hbc _].
  pose proof (bc_len _ _ Hok) as Hlen. pose proof (bc_lru _ _ Hok) as Hlru.
  unfold bget. kacq. kstep. rewrite (scan_hit s order b Hok).
  destruct (List.find _ order) as [i |] eqn:E.
  - apply find_first_in in E as [Hi E]. apply (in_order s order i Hlru) in Hi.
    apply andb_true_iff in E as [Ed Eb]. apply Z.eqb_eq in Ed, Eb.
    assert (caches s i b) as Hc by (split; [done | done]).
    destruct (Hfree i Hc) as [Hl Hr]. exists i, true. do 4 (split; [done |]).
    assert (0 <= i <= HEAD) as Hi' by (unfold HEAD; lia). unfold updb. kstep. krel.
    erewrite bind_ok; [| apply lock_buf_ok; [done |]; rewrite getb_setb, Z.eqb_refl by done; done].
    rewrite setb_setb, getb_setb, Z.eqb_refl by done.
    rewrite u32_small by (pose proof (bc_ref _ _ Hok i Hi); lia). done.
  - pose proof (find_cached s order b Hok E) as Hno. kstep. rewrite (scan_lru s order Hok).
    destruct (List.find _ (rev order)) as [i |] eqn:E'.
    + assert (lru_victim s order i) as Hvic.
      { apply find_rev_split in E' as (l1 & l2 & -> & Hr & Hl). exists l1, l2. split; [done |].
        split; [by apply Z.eqb_eq |]. eapply Forall_impl; [exact Hl |]. intros j. by rewrite Z.eqb_neq. }
      apply find_first_in in E' as [Hi E']. apply Z.eqb_eq in E'.
      assert (0 <= i < NBUF) as Hr by (apply (in_order s order i Hlru); by rewrite (Permutation_rev order)).
      assert (sl_locked (lock (getb s i)) = false) as Hl.
      { destruct (sl_locked (lock (getb s i))) eqn:El; [| done].
        pose proof (bc_locked _ _ Hok i Hr El). lia. }
      exists i, false. do 4 (split; [done |]).
      assert (0 <= i <= HEAD) as Hi' by (unfold HEAD; lia). unfold updb. kstep. krel.
      erewrite bind_ok; [| apply lock_buf_ok; [done |]; rewrite getb_setb, Z.eqb_refl by done; done].
      by rewrite setb_setb, getb_setb, Z.eqb_refl by done.
    + exfalso. destruct Hroom as [[i Hi] | (i & Hi & Hr)]; [by apply (Hno i) |].
      apply (find_first_none _ _ i) in E'; [cbv beta in E'; by rewrite Hr in E' |].
      rewrite <- (Permutation_rev order). by apply (in_order s order i Hlru).
Qed.

(** The buffer after [bread]. *)
Definition filled (s : bcache) (i b : Z) (hit : bool) : buf :=
  let x := got s i b hit in
  if valid x then x else set_valid true (set_data (dread (dsk s) (blockno x)) x).

Lemma filled_fields s i b (hit : bool) :
  (if hit then caches s i b else refcnt (getb s i) = 0 ∧ ∀ j, ¬ caches s j b) →
  let x := filled s i b hit in
  valid x = true ∧ dev x = ROOTDEV ∧ blockno x = b ∧ lock x = mine ∧
  refcnt x = refcnt (getb s i) + 1 ∧ prev x = prev (getb s i) ∧ next x = next (getb s i).
Proof.
  intros Hh. unfold filled, got. destruct hit; cbn [valid].
  - destruct Hh as (_ & Hd & Hb). destruct (valid (getb s i)) eqn:Ev; cbn; by rewrite ?Ev.
  - destruct Hh as [-> _]. done.
Qed.

Lemma filled_data s order i b (hit : bool) :
  bc_ok s order → (if hit then caches s i b else refcnt (getb s i) = 0 ∧ ∀ j, ¬ caches s j b) →
  data (filled s i b hit) = view s b.
Proof.
  intros Hok Hh. unfold filled, got. destruct hit; cbn [valid].
  - destruct (valid (getb s i)) eqn:Ev; cbn.
    + symmetry. by apply (view_cached s order).
    + destruct Hh as (Hi & Hd & Hb). rewrite Hb. symmetry. apply view_uncached.
      intros j Hj. by rewrite (bc_uniq _ _ Hok j i b).
  - cbn. symmetry. apply view_uncached. intros j Hj. by destruct (proj2 Hh j).
Qed.

Lemma view_filled s order i b (hit : bool) c :
  bc_ok s order → 0 <= i < NBUF →
  (if hit then caches s i b else refcnt (getb s i) = 0 ∧ ∀ j, ¬ caches s j b) →
  bc_ok (setb i (filled s i b hit) s) order →
  view (setb i (filled s i b hit) s) c = view s c.
Proof.
  intros Hok Hi Hh Hok'. set (s' := setb _ _ _) in *.
  destruct (filled_fields s i b hit Hh) as (Fv & Fd & Fb & _).
  assert (∀ j, getb s' j = if i =? j then filled s i b hit else getb s j) as G.
  { intros j. apply getb_setb; [apply Hok | unfold HEAD; lia]. }
  assert (caches s' i b) as Hci by (rewrite <- Fb; split; [done |]; by rewrite G, Z.eqb_refl).
  destruct (Z.eq_dec c b) as [-> | Hne].
  { rewrite (view_cached s' order i b Hok' Hci); rewrite G, Z.eqb_refl; [| done].
    by apply (filled_data s order). }
  assert (∀ j, j ≠ i → caches s' j c ↔ caches s j c) as Hiff.
  { intros j Hj. unfold caches. rewrite G. by destruct (Z.eqb_spec i j). }
  assert (¬ caches s' i c) as Hnc by (intros (_ & _ & Hc); rewrite G, Z.eqb_refl in Hc; congruence).
  destruct (view_cases s' c) as [(j & Hj & Hv & ->) | [Hno ->]].
  - assert (j ≠ i) as Hji by (by intros ->). rewrite G in Hv |- *.
    destruct (Z.eqb_spec i j); [done |]. symmetry. apply (view_cached s order); [done | | done].
    by apply Hiff.
  - destruct (view_cases s c) as [(j & Hj & Hv & ->) | [_ ->]]; [| done].
    destruct (Z.eq_dec j i) as [-> | Hji].
    + destruct hit; [destruct Hj as (_ & _ & Hj), Hh as (_ & _ & Hh); congruence |].
      destruct Hh as [Hr _]. rewrite (bc_clean _ _ Hok i Hi Hr Hv). by destruct Hj as (_ & _ & ->).
    + apply Hiff in Hj; [| done]. specialize (Hno j Hj). rewrite G in Hno.
      destruct (Z.eqb_spec i j); congruence.
Qed.

Lemma bread_ok s order b h w n :
  bc_ok s order → can_open s b → bio_free h →
  ∃ i s', bread mypid ROOTDEV b s (Ctx h w n) = Ok i s' (Ctx h w n) ∧
    bc_ok s' order ∧ opens s s' i b.
Proof.
  intros Hok Hcan Hh.
  destruct (bget_ok s order b h w n Hok Hcan Hh) as (i & hit & Hi & Hl & Hhit & _ & E).
  exists i, (setb i (filled s i b hit) s).
  destruct (filled_fields s i b hit Hhit) as (Fv & Fd & Fb & Fl & Fr & Fp & Fn).
  pose proof (filled_data s order i b hit Hok Hhit) as Fdt.
  assert (∀ j x, getb (setb i x s) j = if i =? j then x else getb s j) as G.
  { intros j x. apply getb_setb; [apply Hok | unfold HEAD; lia]. }
  assert (is_block (view s b)) as Hblk.
  { destruct (view_cases s b) as [(j & (Hj & _) & Hv & ->) | [_ ->]];
      [by apply (bc_block _ _ Hok) | apply Hok]. }
  assert (refcnt (getb s i) < 2 ^ 31 - 1) as Hr.
  { destruct hit; [by apply Hcan | destruct Hhit; lia]. }
  assert (bc_ok (setb i (filled s i b hit) s) order) as Hok'.
  { pose proof (bc_ref _ _ Hok i Hi). apply bc_ok_setb; try done.
    - constructor; rewrite ?Fr, ?Fl, ?Fdt; try done; lia.
    - intros _ j Hj. rewrite Fb in Hj. destruct hit.
      + by apply (bc_uniq _ _ Hok j i b).
      + by destruct (proj2 Hhit j). }
  split; [| split; [done |]].
  - unfold bread. kstep E. kstep. rewrite G, Z.eqb_refl. unfold filled.
    destruct (valid (got s i b hit)) eqn:Ev; cbn [negb when]; [done |].
    unfold virtio_rw, updb, bind. cbn [obind modify ret]. rewrite G, Z.eqb_refl.
    rewrite !setb_setb, G, Z.eqb_refl. done.
  - constructor; rewrite ?G, ?Z.eqb_refl; try done.
    + split; [done |]. by rewrite G, Z.eqb_refl.
    + intros j Hj. rewrite G. by destruct (Z.eqb_spec i j).
    + destruct hit; [by left | by right].
    + intros c. by apply (view_filled s order).
Qed.

(** ** The holder of a buffer *)

(** This process has buffer [i] open on block [b]. *)
Definition holds (s : bcache) (i b : Z) : Prop :=
  caches s i b ∧ valid (getb s i) = true ∧ lock (getb s i) = mine.

Lemma opens_holds s s' i b : opens s s' i b → holds s' i b.
Proof. intros []. done. Qed.

Lemma holds_refcnt s order i b : bc_ok s order → holds s i b → 0 < refcnt (getb s i).
Proof. intros Hok ((Hi & _) & _ & Hl). apply (bc_locked _ _ Hok i Hi). by rewrite Hl. Qed.

Lemma holds_view s order i b : bc_ok s order → holds s i b → view s b = data (getb s i).
Proof. intros Hok (Hc & Hv & _). by apply (view_cached s order). Qed.

Lemma bstore_ok s order i b v x :
  bc_ok s order → holds s i b → is_block v →
  let s' := setb i (set_data v (getb s i)) s in
  bstore i v s x = Ok tt s' x ∧ bc_ok s' order ∧ ∀ c, view s' c = if c =? b then v else view s c.
Proof.
  intros Hok Hh Hv s'. pose proof (holds_refcnt _ _ _ _ Hok Hh) as Hr.
  destruct Hh as ((Hi & Hd & Hb) & Hva & Hl).
  assert (∀ j, getb s' j = if i =? j then set_data v (getb s i) else getb s j) as G.
  { intros j. apply getb_setb; [apply Hok | unfold HEAD; lia]. }
  assert (bc_ok s' order) as Hok'.
  { apply bc_ok_keep; try done. destruct (bc_buf_ok s order i Hok Hi). constructor; cbn; try done. lia. }
  split; [done |]. split; [done |]. intros c. destruct (Z.eqb_spec c b) as [-> | Hne].
  - rewrite (view_cached s' order i b Hok'); rewrite ?G, ?Z.eqb_refl; [done | | done].
    split; [done |]. by rewrite G, Z.eqb_refl.
  - assert (∀ j, caches s' j c ↔ caches s j c) as Hiff.
    { intros j. unfold caches. rewrite G. by destruct (Z.eqb_spec i j) as [<- |]. }
    destruct (view_cases s' c) as [(j & Hj & Hvj & ->) | [Hno ->]].
    + pose proof Hj as (_ & _ & Hcj). rewrite G in Hvj, Hcj |- *.
      destruct (Z.eqb_spec i j) as [<- |]; [cbn in Hcj; congruence |].
      symmetry. apply (view_cached s order); [done | by apply Hiff | done].
    + change (dsk s') with (dsk s). symmetry. apply view_uncached. intros j Hj. apply Hiff in Hj. pose proof (Hno j Hj) as Hvj.
      rewrite G in Hvj. destruct (Z.eqb_spec i j) as [<- |]; [| done]. cbn in Hvj. congruence.
Qed.

Lemma holding_ok s i b h w n :
  holds s i b → bio_free h →
  lift (buf_lock i) (holdingsleep mypid (SL_buf i)) s (Ctx h w n) = Ok true s (Ctx h w n).
Proof.
  intros ((Hi & _) & _ & Hl) [_ Hh].
  erewrite lift_ok; [| apply holdingsleep_ok; apply Hh]. cbn [lget lput buf_lock]. rewrite Hl.
  cbn [sl_locked sl_pid mine andb]. rewrite Z.eqb_refl. f_equal.
  unfold setb, set_lock. rewrite <- Hl. destruct s as [bs d]. cbn [bufs dsk]. f_equal.
  unfold getb. cbn [bufs]. destruct (zget bs i) as [x |] eqn:E; cbn [default from_option].
  - destruct x. by apply zset_id.
  - unfold zset. destruct (Z.ltb_spec i 0); [done |]. apply list_insert_ge.
    unfold zget in E. destruct (Z.ltb_spec i 0); [lia |]. by apply lookup_ge_None in E.
Qed.

Lemma dread_dwrite d b v c : dread (dwrite d b v) c = if c =? b then v else dread d c.
Proof.
  unfold dread, dwrite. cbn [blocks]. destruct (Z.eqb_spec c b) as [-> |].
  - by rewrite lookup_insert_eq.
  - by rewrite lookup_insert_ne.
Qed.

Lemma bwrite_ok s order i b h w n :
  bc_ok s order → holds s i b → bio_free h →
  let s' := BCache (bufs s) (dwrite (dsk s) b (data (getb s i))) in
  bwrite mypid i s (Ctx h w n) = Ok tt s' (Ctx h w n) ∧ bc_ok s' order ∧
  ∀ c, view s' c = view s c.
Proof.
  intros Hok Hh Hf s'. destruct Hh as ((Hi & Hd & Hb) & Hva & Hl) eqn:Eh. clear Eh.
  assert (holds s i b) as Hh' by done.
  split.
  { unfold bwrite. kstep (holding_ok s i b h w n Hh' Hf). cbn [negb]. unfold virtio_rw, modify.
    by rewrite Hb. }
  assert (bc_ok s' order) as Hok'.
  { destruct Hok as [O1 O2 O3 O4 O5 O6 O7 O8 O9]. constructor; try done.
    - intros j Hj Hr Hv. cbn [dsk s']. rewrite dread_dwrite.
      change (getb s' j) with (getb s j) in *.
      destruct (Z.eqb_spec (blockno (getb s j)) b) as [E |]; [| by apply O8].
      rewrite (O3 j i b); [done | |]; split; try done. split; [by apply O6 | done].
    - intros c. cbn [dsk s']. rewrite dread_dwrite. destruct (c =? b); [by apply O7 | done]. }
  split; [done |]. intros c. destruct (view_cases s c) as [(j & Hj & Hv & ->) | [Hno ->]].
  - by rewrite (view_cached s' order j c Hok' Hj Hv).
  - rewrite view_uncached by done. cbn [dsk s']. rewrite dread_dwrite.
    destruct (Z.eqb_spec c b) as [-> |]; [| done]. rewrite (Hno i) in Hva; [done |]. done.
Qed.

(** *** Releasing *)

(** All of a buffer but its place in the list. *)
Definition core (b : buf) : bool * Z * Z * sleeplock * Z * block :=
  (valid b, dev b, blockno b, lock b, refcnt b, data b).

Lemma core_inj b b' :
  core b = core b' →
  valid b = valid b' ∧ dev b = dev b' ∧ blockno b = blockno b' ∧ lock b = lock b' ∧
  refcnt b = refcnt b' ∧ data b = data b'.
Proof. unfold core. intros [= -> -> -> -> -> ->]. done. Qed.

(** Only pointers changed. *)
Lemma bc_ok_relink s s' order order' :
  bc_ok s order → length (bufs s') = 31%nat → dsk s' = dsk s →
  (∀ j, core (getb s' j) = core (getb s j)) → lru s' order' → bc_ok s' order'.
Proof.
  intros [O1 O2 O3 O4 O5 O6 O7 O8 O9] Hl Hd Hc Hlru.
  assert (∀ j, valid (getb s' j) = valid (getb s j) ∧ dev (getb s' j) = dev (getb s j) ∧
    blockno (getb s' j) = blockno (getb s j) ∧ lock (getb s' j) = lock (getb s j) ∧
    refcnt (getb s' j) = refcnt (getb s j) ∧ data (getb s' j) = data (getb s j)) as F.
  { intros j. apply core_inj, Hc. }
  constructor; try done; try rewrite Hd; try done.
  - intros i j b (Hi & Di & Bi) (Hj & Dj & Bj).
    destruct (F i) as (_ & Ei & Ei' & _), (F j) as (_ & Ej & Ej' & _).
    apply (O3 i j b); (split; [done | split; congruence]).
  - intros i Hi. destruct (F i) as (_ & _ & _ & _ & -> & _). by apply O4.
  - intros i Hi. destruct (F i) as (_ & _ & _ & -> & -> & _). by apply O5.
  - intros i Hi. destruct (F i) as (-> & -> & _). by apply O6.
  - intros i Hi. destruct (F i) as (-> & _ & _ & _ & _ & ->). by apply O7.
  - intros i Hi. destruct (F i) as (-> & _ & -> & _ & -> & ->). by apply O8.
Qed.

(** The two unlinking statements of [brelse]. *)
Definition unlinked (s : bcache) (i : Z) : bcache :=
  let p := prv s i in let q := nxt s i in
  let s1 := setb q (set_prev p (getb s q)) s in
  setb p (set_next q (getb s1 p)) s1.

Definition pushed (s : bcache) (i : Z) : bcache :=
  let q := nxt s HEAD in
  let s1 := setb i (set_prev HEAD (set_next q (getb s i))) s in
  let s2 := setb q (set_prev i (getb s1 q)) s1 in
  setb HEAD (set_next i (getb s2 HEAD)) s2.

Lemma unlinked_ptrs s i c :
  length (bufs s) = 31%nat → 0 <= prv s i <= HEAD → 0 <= nxt s i <= HEAD →
  core (getb (unlinked s i) c) = core (getb s c) ∧
  nxt (unlinked s i) c = (if c =? prv s i then nxt s i else nxt s c) ∧
  prv (unlinked s i) c = (if c =? nxt s i then prv s i else prv s c).
Proof.
  intros Hl Hp Hq. unfold unlinked. set (p := prv s i) in *. set (q := nxt s i) in *.
  unfold nxt, prv. rewrite !getb_setb by (first [done | cbn [setb bufs]; by rewrite length_zset]).
  rewrite (Z.eqb_sym c p), (Z.eqb_sym c q).
  destruct (Z.eqb_spec p c) as [<- |], (Z.eqb_spec q p) as [<- |]; try destruct (Z.eqb_spec q c) as [<- |]; done.
Qed.

Lemma pushed_ptrs s i c :
  length (bufs s) = 31%nat → 0 <= i < NBUF → 0 <= nxt s HEAD <= HEAD → nxt s HEAD ≠ i →
  core (getb (pushed s i) c) = core (getb s c) ∧
  nxt (pushed s i) c = (if c =? HEAD then i else if c =? i then nxt s HEAD else nxt s c) ∧
  prv (pushed s i) c = (if c =? nxt s HEAD then i else if c =? i then HEAD else prv s c).
Proof.
  intros Hl Hi Hq Hne. unfold pushed. set (q := nxt s HEAD) in *.
  assert (0 <= i <= HEAD) as Hi' by (unfold HEAD; lia).
  assert (i ≠ HEAD) as HiH by (unfold HEAD; lia).
  assert (0 <= HEAD <= HEAD) as HH by (unfold HEAD, NBUF, MAXOPBLOCKS; lia).
  unfold nxt, prv.
  rewrite !getb_setb by (first [done | cbn [setb bufs]; by rewrite ?length_zset]).
  fold (nxt s HEAD) (prv s c) (nxt s c). fold q. clearbody q.
  split; [| split];
    repeat (match goal with |- context [?x =? ?y] => destruct (Z.eqb_spec x y) end;
            subst; try done; try congruence).
Qed.

Definition move_front (i : Z) (order : list Z) : list Z := i :: filter (λ j, j ≠ i) order.

Lemma filter_ne_split (i : Z) l1 l2 :
  NoDup (l1 ++ i :: l2) → filter (λ j, j ≠ i) (l1 ++ i :: l2) = l1 ++ l2.
Proof.
  intros H. assert (i ∉ l1 ++ l2) as Hi.
  { rewrite <- Permutation_middle in H. by apply NoDup_cons in H as [? _]. }
  assert (∀ l : list Z, i ∉ l → filter (λ j, j ≠ i) l = l) as Hf.
  { induction l as [| a l IH]; intros Hn; [done |]. apply not_elem_of_cons in Hn as [Ha Hn].
    rewrite filter_cons, decide_True by done. by rewrite IH. }
  rewrite elem_of_app in Hi. rewrite filter_app, filter_cons, decide_False by tauto.
  rewrite !Hf by tauto. done.
Qed.

Lemma move_front_perm i order : NoDup order → i ∈ order → move_front i order ≡ₚ order.
Proof.
  intros Hnd Hi. apply list_elem_of_split in Hi as (l1 & l2 & ->).
  unfold move_front. rewrite filter_ne_split by done. by rewrite Permutation_middle.
Qed.

(** The neighbours of a buffer in the ring. *)
Lemma ring_range s order c : lru s order → c ∈ order ∨ c = HEAD → 0 <= c <= HEAD.
Proof.
  intros Hlru [Hc | ->].
  - apply (in_order s order c Hlru) in Hc. unfold HEAD. lia.
  - unfold HEAD, NBUF, MAXOPBLOCKS. lia.
Qed.

Lemma ring_neighbours s l1 i l2 :
  lru s (l1 ++ i :: l2) → 0 <= prv s i <= HEAD ∧ 0 <= nxt s i <= HEAD.
Proof.
  intros Hlru. pose proof (λ c, ring_range _ _ c Hlru) as Hrng. destruct Hlru as [Hs _].
  rewrite <- app_assoc in Hs. simpl in Hs. split; apply Hrng.
  - pose proof (seg_prev_in _ _ _ _ _ _ Hs) as H. apply elem_of_cons in H as [-> | H]; [by right |].
    left. apply elem_of_app. by left.
  - pose proof (seg_next_in _ _ _ _ _ _ Hs) as H.
    apply elem_of_app in H as [H | H]; [| | by destruct l2].
    + left. apply elem_of_app. right. by right.
    + right. by apply list_elem_of_singleton in H.
Qed.

Lemma relink_ok s order i :
  length (bufs s) = 31%nat → lru s order → 0 <= i < NBUF →
  let s' := pushed (unlinked s i) i in
  lru s' (move_front i order) ∧ length (bufs s') = 31%nat ∧ dsk s' = dsk s ∧
  ∀ c, core (getb s' c) = core (getb s c).
Proof.
  intros Hl Hlru Hi s'. subst s'. cbv zeta. pose proof (order_NoDup _ _ Hlru) as Hnd. pose proof (order_head _ _ Hlru) as Hh.
  pose proof (in_order _ _ i Hlru) as Hin. pose proof (proj2 Hin Hi) as Hio.
  pose proof (λ c, ring_range _ _ c Hlru) as Hrng.
  assert (move_front i order ≡ₚ seqZ 0 NBUF) as Hperm.
  { rewrite move_front_perm by done. apply Hlru. }
  apply list_elem_of_split in Hio as (l1 & l2 & ->).
  destruct (ring_neighbours s l1 i l2 Hlru) as [Hpr Hnr]. destruct Hlru as [Hs Hp].
  unfold move_front in *. rewrite filter_ne_split in * by done.
  rewrite <- app_assoc in Hs. simpl in Hs.
  pose proof (λ c, unlinked_ptrs s i c Hl Hpr Hnr) as HU. set (u := unlinked s i) in *.
  assert (seg (nxt u) (prv u) HEAD (l1 ++ l2 ++ [HEAD])) as HsU.
  { apply (seg_unlink (nxt s) (prv s) _ _ HEAD l1 i l2 HEAD); [by apply NoDup_cons | done | done | |];
      intros c _; by destruct (HU c) as (_ & ? & ?). }
  rewrite app_assoc in HsU.
  assert (nxt u HEAD ∈ (l1 ++ l2) ++ [HEAD]) as HnU.
  { destruct (l1 ++ l2) as [| c l]; simpl in HsU |- *; destruct HsU as (-> & _); left. }
  assert (i ∉ l1 ++ l2 ∧ NoDup (l1 ++ l2)) as [Hil Hnd'].
  { rewrite <- Permutation_middle in Hnd. by apply NoDup_cons in Hnd. }
  assert (HEAD ∉ l1 ++ l2) as HhU.
  { rewrite elem_of_app in Hh |- *. rewrite elem_of_cons in Hh. tauto. }
  assert (i ≠ HEAD) as HiH by (unfold HEAD; lia).
  assert (0 <= nxt u HEAD <= HEAD ∧ nxt u HEAD ≠ i) as [HUr HUi].
  { apply elem_of_app in HnU as [H | H].
    - split; [| intros E; by rewrite E in H]. apply Hrng. left. rewrite <- Permutation_middle. by right.
    - apply list_elem_of_singleton in H as ->. split; [apply Hrng; by right | done]. }
  assert (length (bufs u) = 31%nat) as HlU by (cbn [u unlinked setb bufs]; by rewrite !length_zset).
  pose proof (λ c, pushed_ptrs u i c HlU Hi HUr HUi) as HP.
  split; [split; [| done] | split; [| split]].
  - apply (seg_push (nxt u) (prv u) _ _ HEAD i (l1 ++ l2)); try done.
    + destruct (HP HEAD) as (_ & -> & _). done.
    + destruct (HP i) as (_ & -> & _). rewrite Z.eqb_refl. by destruct (Z.eqb_spec i HEAD).
    + destruct (HP i) as (_ & _ & ->). rewrite Z.eqb_refl. by destruct (Z.eqb_spec i (nxt u HEAD)).
    + destruct (HP (nxt u HEAD)) as (_ & _ & ->). by rewrite Z.eqb_refl.
    + intros c H1 H2. destruct (HP c) as (_ & -> & _).
      destruct (Z.eqb_spec c HEAD), (Z.eqb_spec c i); done.
    + intros c H1 H2. destruct (HP c) as (_ & _ & ->).
      destruct (Z.eqb_spec c (nxt u HEAD)), (Z.eqb_spec c i); done.
  - cbn [pushed setb bufs]. by rewrite !length_zset.
  - done.
  - intros c. destruct (HP c) as (-> & _). by destruct (HU c) as (-> & _).
Qed.

(** Buffer [i] has been released: the process no longer holds it, its
    contents stay, and if that was the last reference it is now the most
    recently used one. *)
Record releases (s s' : bcache) (i : Z) : Prop := {
  rl_lock : lock (getb s' i) = initsleeplock;
  rl_refcnt : refcnt (getb s' i) = refcnt (getb s i) - 1;
  rl_other : ∀ j, j ≠ i → core (getb s' j) = core (getb s j);
  rl_keep : valid (getb s' i) = valid (getb s i) ∧ dev (getb s' i) = dev (getb s i) ∧
            blockno (getb s' i) = blockno (getb s i) ∧ data (getb s' i) = data (getb s i);
  rl_dsk : dsk s' = dsk s;
  rl_view : ∀ c, view s' c = view s c }.

Lemma next_not_self s order i : lru s order → 0 <= i < NBUF → nxt s i ≠ i ∧ 0 <= nxt s i <= HEAD ∧ 0 <= prv s i <= HEAD.
Proof.
  intros Hlru Hi. pose proof (proj2 (in_order _ _ i Hlru) Hi) as Hio.
  pose proof (order_NoDup _ _ Hlru) as Hnd.
  apply list_elem_of_split in Hio as (l1 & l2 & ->).
  destruct (ring_neighbours s l1 i l2 Hlru). split; [| done].
  destruct Hlru as [Hs _]. rewrite <- app_assoc in Hs. simpl in Hs.
  pose proof (seg_next_in _ _ _ _ _ _ Hs) as H'. intros E. rewrite E in H'.
  apply elem_of_app in H' as [H' | H']; [| | by destruct l2].
  - rewrite <- Permutation_middle in Hnd. apply NoDup_cons in Hnd as [Hn _]. apply Hn, elem_of_app. by right.
  - apply list_elem_of_singleton in H'. unfold HEAD in H'. lia.
Qed.

(** The pointer statements of [brelse]. *)
Lemma relink_run s order i x :
  length (bufs s) = 31%nat → lru s order → 0 <= i < NBUF →
  (b <- gets (λ s, getb s i) ;;
   updb (next b) (set_prev (prev b)) ;;
   b <- gets (λ s, getb s i) ;;
   updb (prev b) (set_next (next b)) ;;
   link_front i) s x = Ok tt (pushed (unlinked s i) i) x.
Proof.
  intros Hl Hlru Hi. destruct (next_not_self s order i Hlru Hi) as (Hne & Hnr & Hpr).
  assert (0 <= i <= HEAD) as Hi' by (unfold HEAD; lia).
  assert (HEAD ≠ i) as HiH by (unfold HEAD; lia).
  kstep. unfold updb at 1. kstep. kstep. fold (nxt s i) (prv s i).
  rewrite (getb_setb s (nxt s i) i) by done. destruct (Z.eqb_spec (nxt s i) i); [done |].
  fold (nxt s i) (prv s i). unfold updb at 1. kstep. fold (unlinked s i).
  assert (length (bufs (unlinked s i)) = 31%nat) as HlU by (cbn [unlinked setb bufs]; by rewrite !length_zset).
  unfold link_front, updb, bind. cbn [obind gets modify].
  rewrite !setb_setb. rewrite (getb_setb (unlinked s i) i i), Z.eqb_refl by done.
  fold (nxt (unlinked s i) HEAD). rewrite (getb_setb _ i HEAD) by done.
  by destruct (Z.eqb_spec i HEAD).
Qed.

Lemma unlock_buf_ok s i h w n :
  bio_free h →
  lift (buf_lock i) (releasesleep (SL_buf i)) s (Ctx h w n) =
  Ok tt (setb i (set_lock initsleeplock (getb s i)) s) (Ctx h (w ++ [C_sleep (SL_buf i)]) n).
Proof. intros [_ Hh]. apply (lift_ok (buf_lock i)). by apply releasesleep_ok. Qed.

(** The buffer once its reference is dropped. *)
Definition dropped (x : buf) : buf :=
  Buf (valid x) (dev x) (blockno x) initsleeplock (refcnt x - 1) (prev x) (next x) (data x).

Lemma dropped_ok s order i b :
  bc_ok s order → holds s i b → (refcnt (getb s i) = 1 → data (getb s i) = dread (dsk s) b) →
  bc_ok (setb i (dropped (getb s i)) s) order.
Proof.
  intros Hok Hh Hcl. pose proof (holds_refcnt _ _ _ _ Hok Hh) as Hr.
  destruct Hh as ((Hi & Hd & Hb) & Hv & Hl). destruct (bc_buf_ok s order i Hok Hi) as [B1 B2 B3 B4 B5].
  apply bc_ok_keep; try done. constructor; cbn; try done; try lia.
  intros H _. rewrite Hb. apply Hcl. lia.
Qed.

Lemma brelse_ok s order i b h w n :
  bc_ok s order → holds s i b → (refcnt (getb s i) = 1 → data (getb s i) = dread (dsk s) b) →
  bio_free h →
  ∃ s', brelse mypid i s (Ctx h w n) = Ok tt s' (Ctx h (w ++ [C_sleep (SL_buf i)]) n) ∧
    bc_ok s' (if refcnt (getb s i) =? 1 then move_front i order else order) ∧ releases s s' i.
Proof.
  intros Hok Hh Hcl Hf. pose proof (dropped_ok s order i b Hok Hh Hcl) as Hok2.
  pose proof (holds_refcnt _ _ _ _ Hok Hh) as Hr. pose proof (bc_len _ _ Hok) as Hlen.
  pose proof Hh as ((Hi & Hd & Hb) & Hv & Hl). pose proof (bc_ref _ _ Hok i Hi) as Hrr.
  assert (0 <= i <= HEAD) as Hi' by (unfold HEAD; lia).
  set (s2 := setb i (dropped (getb s i)) s) in *.
  assert (∀ j, getb s2 j = if i =? j then dropped (getb s i) else getb s j) as G2
    by (intros; by apply getb_setb).
  set (s' := if refcnt (getb s i) =? 1 then pushed (unlinked s2 i) i else s2).
  assert (bc_ok s' (if refcnt (getb s i) =? 1 then move_front i order else order) ∧
          dsk s' = dsk s ∧ ∀ j, core (getb s' j) = core (getb s2 j)) as (Hok' & Hdsk & Hcore).
  { unfold s'. destruct (refcnt (getb s i) =? 1); [| done].
    destruct (relink_ok s2 order i (bc_len _ _ Hok2) (bc_lru _ _ Hok2) Hi) as (R1 & R2 & R3 & R4).
    split; [by apply (bc_ok_relink s2 _ order) | done]. }
  exists s'. split; [| split; [done |]].
  - unfold brelse. kstep (holding_ok s i b h w n Hh Hf). cbn [negb].
    kstep (unlock_buf_ok s i h w n Hf). destruct Hf as [Hbc _]. kacq. unfold updb at 1. kstep.
    rewrite setb_setb, getb_setb, Z.eqb_refl by done. cbn [refcnt set_lock].
    rewrite u32_small by lia. fold (dropped (getb s i)).
    change (setb i (set_refcnt (refcnt (getb s i) - 1) (set_lock initsleeplock (getb s i))) s) with s2.
    kstep. rewrite G2, Z.eqb_refl. cbn [refcnt dropped]. unfold s'.
    destruct (Z.eqb_spec (refcnt (getb s i)) 1) as [E |], (Z.eqb_spec (refcnt (getb s i) - 1) 0); try lia;
      unfold when.
    + erewrite bind_ok; [| apply (relink_run s2 order i); [apply Hok2 | apply Hok2 | done]]. krel. done.
    + kstep. krel. done.
  - assert (∀ j, valid (getb s' j) = valid (getb s j) ∧ dev (getb s' j) = dev (getb s j) ∧
              blockno (getb s' j) = blockno (getb s j) ∧ data (getb s' j) = data (getb s j)) as F.
    { intros j. destruct (core_inj _ _ (Hcore j)) as (E1 & E2 & E3 & _ & _ & E6).
      rewrite E1, E2, E3, E6, G2. destruct (Z.eqb_spec i j) as [<- |]; done. }
    constructor.
    + destruct (core_inj _ _ (Hcore i)) as (_ & _ & _ & -> & _). by rewrite G2, Z.eqb_refl.
    + destruct (core_inj _ _ (Hcore i)) as (_ & _ & _ & _ & -> & _). by rewrite G2, Z.eqb_refl.
    + intros j Hj. rewrite Hcore, G2. by destruct (Z.eqb_spec i j).
    + apply F.
    + done.
    + intros c. apply view_ext; [intros j _; apply F | by rewrite Hdsk].
Qed.

Lemma bpin_ok s order i h w n :
  bc_ok s order → 0 <= i < NBUF → refcnt (getb s i) < 2 ^ 31 - 1 → bio_free h →
  let s' := setb i (set_refcnt (refcnt (getb s i) + 1) (getb s i)) s in
  bpin i s (Ctx h w n) = Ok tt s' (Ctx h w n) ∧ bc_ok s' order ∧ ∀ c, view s' c = view s c.
Proof.
  intros Hok Hi Hr [Hf _] s'. destruct (bc_buf_ok s order i Hok Hi) as [B1 B2 B3 B4 B5].
  split; [| split].
  - unfold bpin. kacq. unfold updb. kstep. krel. rewrite u32_small by lia. done.
  - apply bc_ok_keep; try done. constructor; cbn; try done; lia.
  - intros c. by apply (view_setb_same s order).
Qed.

Lemma bunpin_ok s order i h w n :
  bc_ok s order → 0 <= i < NBUF → 1 < refcnt (getb s i) → bio_free h →
  let s' := setb i (set_refcnt (refcnt (getb s i) - 1) (getb s i)) s in
  bunpin i s (Ctx h w n) = Ok tt s' (Ctx h w n) ∧ bc_ok s' order ∧ ∀ c, view s' c = view s c.
Proof.
  intros Hok Hi Hr [Hf _] s'. destruct (bc_buf_ok s order i Hok Hi) as [B1 B2 B3 B4 B5].
  split; [| split].
  - unfold bunpin. kacq. unfold updb. kstep. krel. rewrite u32_small by lia. done.
  - apply bc_ok_keep; try done. constructor; cbn; try done; lia.
  - intros c. by apply (view_setb_same s order).
Qed.

(** ** Properties *)

(** C19: [bread] returns a buffer, locked by the caller, with the current
    contents of the block: the cached copy if there is one and the disk's
    otherwise. The block is cached in that buffer only, no other buffer and
    nothing on disk changes, every block keeps its contents (recycling a buffer
    loses nothing), and the invariant of the cache is kept. *)
Theorem bread_coherent s order b h w n :
  bc_ok s order → can_open s b → bio_free h →
  ∃ i s', bread mypid ROOTDEV b s (Ctx h w n) = Ok i s' (Ctx h w n) ∧
    bc_ok s' order ∧ holds s' i b ∧ data (getb s' i) = view s b ∧
    (∀ j, caches s' j b → j = i) ∧ (∀ j, j ≠ i → getb s' j = getb s j) ∧
    dsk s' = dsk s ∧ ∀ c, view s' c = view s c.
Proof.
  intros Hok Hc Hf. destruct (bread_ok s order b h w n Hok Hc Hf) as (i & s' & E & Hok' & Ho).
  exists i, s'. split; [done |]. split; [done |]. pose proof (opens_holds _ _ _ _ Ho) as Hh.
  split; [done |]. destruct Ho. do 2 (split; [done || (intros j Hj; by apply (bc_uniq _ _ Hok' j i b)) |]).
  done.
Qed.

(** C20: the list bio.c keeps through its pointers is a least-recently-used
    order. When a block is not cached, [bget] recycles the buffer furthest back
    in that order that nobody uses; [brelse] of the last reference moves the
    buffer to the front by its six pointer assignments, and otherwise leaves the
    order alone. *)
Theorem bcache_lru s order b h w n :
  bc_ok s order → bio_free h →
  (can_open s b → (∀ i, ¬ caches s i b) →
     ∃ i s', bget mypid ROOTDEV b s (Ctx h w n) = Ok i s' (Ctx h w n) ∧ lru_victim s order i ∧
       caches s' i b ∧ lru s' order) ∧
  (∀ i, holds s i b → (refcnt (getb s i) = 1 → data (getb s i) = dread (dsk s) b) →
     ∃ s', brelse mypid i s (Ctx h w n) = Ok tt s' (Ctx h (w ++ [C_sleep (SL_buf i)]) n) ∧
       lru s' (if refcnt (getb s i) =? 1 then move_front i order else order)).
Proof.
  intros Hok Hf. split.
  - intros Hc Hno. destruct (bget_ok s order b h w n Hok Hc Hf) as (i & hit & Hi & Hl & Hhit & Hv & E).
    destruct hit; [by destruct (Hno i) |].
    eexists i, _. split; [exact E |]. split; [by apply Hv |]. pose proof (bc_len _ _ Hok).
    assert (0 <= i <= HEAD) by (unfold HEAD; lia). split.
    + split; [done |]. by rewrite getb_setb, Z.eqb_refl.
    + apply lru_setb; try done. apply Hok.
  - intros i Hh Hcl. destruct (brelse_ok s order i b h w n Hok Hh Hcl Hf) as (s' & E & Hok' & _).
    exists s'. split; [done |]. apply Hok'.
Qed.
End ops.

(** *** Witnesses: the cache just after [binit], over a disk with one block *)

Definition demo_disk : disk := Disk {[ 7 := zero_block ]} [].

Definition demo_cache : bcache :=
  match binit (bcache0 demo_disk) (Ctx [] [] 0) with Ok _ s _ => s | _ => bcache0 demo_disk end.

Lemma demo_cache_init :
  lru demo_cache (rev (seqZ 0 NBUF)) ∧ length (bufs demo_cache) = 31%nat ∧ dsk demo_cache = demo_disk ∧
  ∀ i, 0 <= i < NBUF → ∃ p q, getb demo_cache i = Buf false 0 0 initsleeplock 0 p q zero_block.
Proof.
  unfold demo_cache. destruct (binit_lru demo_disk [] [] 0) as (s & E & H). rewrite E. exact H.
Qed.

#[global] Opaque demo_cache.

Lemma demo_cache_ok : bc_ok demo_cache (rev (seqZ 0 NBUF)).
Proof.
  destruct demo_cache_init as (Hlru & Hl & Hd & Hb).
  assert (∀ i, 0 <= i < NBUF → valid (getb demo_cache i) = false ∧ dev (getb demo_cache i) = 0 ∧
            refcnt (getb demo_cache i) = 0 ∧ lock (getb demo_cache i) = initsleeplock) as F.
  { intros i Hi. destruct (Hb i Hi) as (p & q & ->). repeat split. }
  constructor; [exact Hl | exact Hlru | clear Hl Hlru Hb ..].
  - intros i j c (Hi & Di & _). destruct (F i Hi) as (_ & Hz & _). by rewrite Hz in Di.
  - intros i Hi. destruct (F i Hi) as (_ & _ & -> & _). lia.
  - intros i Hi. destruct (F i Hi) as (_ & _ & _ & ->). done.
  - intros i Hi. destruct (F i Hi) as (-> & _). done.
  - intros i Hi. destruct (F i Hi) as (-> & _). done.
  - intros i Hi _. destruct (F i Hi) as (-> & _). done.
  - intros b. rewrite Hd. unfold dread, demo_disk. cbn [blocks].
    destruct (Z.eq_dec 7 b) as [<- |]; [rewrite lookup_singleton_eq | rewrite lookup_singleton_ne by done];
      apply is_block_zero.
Qed.

Lemma demo_can_open b : can_open demo_cache b ∧ ∀ i, ¬ caches demo_cache i b.
Proof.
  destruct demo_cache_init as (_ & _ & _ & Hb).
  assert (∀ i, ¬ caches demo_cache i b) as Hno.
  { intros i (Hi & Hd & _). destruct (Hb i Hi) as (p & q & Hg). by rewrite Hg in Hd. }
  split; [| done]. split.
  - intros i Hi. by destruct (Hno i).
  - right. exists 0. split; [unfold NBUF, MAXOPBLOCKS; lia |].
    destruct (Hb 0) as (p & q & ->); [unfold NBUF, MAXOPBLOCKS; lia | done].
Qed.

Lemma bio_free_nil : bio_free [].
Proof. split; intros; apply not_elem_of_nil. Qed.

Lemma bread_coherent_witness :
  ∃ i s', bread 4 ROOTDEV 7 demo_cache (Ctx [] [] 0) = Ok i s' (Ctx [] [] 0) ∧
    bc_ok s' (rev (seqZ 0 NBUF)) ∧ holds 4 s' i 7 ∧ data (getb s' i) = view demo_cache 7 ∧
    (∀ j, caches s' j 7 → j = i) ∧ (∀ j, j ≠ i → getb s' j = getb demo_cache j) ∧
    dsk s' = dsk demo_cache ∧ ∀ c, view s' c = view demo_cache c.
Proof.
  apply (bread_coherent 4); [apply demo_cache_ok | apply demo_can_open | apply bio_free_nil].
Defined.

Lemma bcache_lru_witness :
  ∃ i s', bget 4 ROOTDEV 7 demo_cache (Ctx [] [] 0) = Ok i s' (Ctx [] [] 0) ∧
    lru_victim demo_cache (rev (seqZ 0 NBUF)) i ∧ caches s' i 7 ∧ lru s' (rev (seqZ 0 NBUF)).
Proof.
  apply (bcache_lru 4 demo_cache (rev (seqZ 0 NBUF)) 7 [] [] 0);
    [apply demo_cache_ok | apply bio_free_nil | apply demo_can_open | apply demo_can_open].
Defined.
