(* ===== verification/Log.v ===== *)
(** * The log (kernel/log.c)

    The in-memory [struct log] on top of the buffer cache. *)

From S2P Require Import Prelude Monad Riscv Block Sleeplock Bio.

(** [struct log]; [lh_n] and [lh_block] are the fields of [log.lh]. *)
Record log := Log {
  start : Z;
  size : Z;
  outstanding : Z;
  committing : bool;
  ldev : Z;
  lh_n : Z;
  lh_block : list Z }.

Definition set_outstanding (v : Z) (l : log) : log :=
  Log (start l) (size l) v (committing l) (ldev l) (lh_n l) (lh_block l).
Definition set_committing (v : bool) (l : log) : log :=
  Log (start l) (size l) (outstanding l) v (ldev l) (lh_n l) (lh_block l).
Definition set_lh_n (v : Z) (l : log) : log :=
  Log (start l) (size l) (outstanding l) (committing l) (ldev l) v (lh_block l).
Definition set_lh_block (v : list Z) (l : log) : log :=
  Log (start l) (size l) (outstanding l) (committing l) (ldev l) (lh_n l) v.

(** The static [log], all zero. *)
Definition log0 : log := Log 0 0 0 false 0 0 (replicate (Z.to_nat LOGSIZE) 0).

(** The log and the cache under it. *)
Record lstate := LState {
  lg : log;
  bc : bcache }.

Definition bcL : lens lstate bcache := Lens bc (λ b s, LState (lg s) b).

Definition updl (f : log → log) : K lstate unit := modify (λ s, LState (f (lg s)) (bc s)).

(** [log.lh.block[i]] *)
Definition lh_at (l : log) (i : Z) : Z := default 0 (zget (lh_block l) i).

(** The fields of a header block on disk: [n] at 0, [block[i]] at 4 + 4i. *)
Definition hdr_n (v : block) : Z := i32 (get32 v 0).

Definition hdr_block (v : block) (i : Z) : Z := i32 (get32 v (4 + 4 * i)).

(** [hb->n = n; for(i ...) hb->block[i] = ...] *)
Definition put_hdr (v : block) (n : Z) (l : list Z) : block :=
  foldl (λ v i, put32 v (4 + 4 * i) (default 0 (zget l i))) (put32 v 0 n) (seqZ 0 n).

(** [log.lh.block[i] = b].  Past the array the C program is undefined; the
    model stops. *)
Definition set_lh (i b : Z) : K lstate unit :=
  n <- gets (λ s, Z.of_nat (length (lh_block (lg s)))) ;;
  if (0 <=? i) && (i <? n) then updl (λ l, set_lh_block (zset (lh_block l) i b) l)
  else panic "array bounds".

Section log.
Context (mypid : Z).

Definition lbread (d b : Z) : K lstate Z := lift bcL (bread mypid d b).
Definition lbwrite (i : Z) : K lstate unit := lift bcL (bwrite mypid i).
Definition lbrelse (i : Z) : K lstate unit := lift bcL (brelse mypid i).

(** Copy committed blocks from log to their home location *)
Definition install_trans (recovering : bool) : K lstate unit :=
  n <- gets (λ s, lh_n (lg s)) ;;
  for_each (seqZ 0 n) (λ tail,
    l <- gets lg ;;
    lbuf <- lbread (ldev l) (start l + tail + 1) ;;
    dbuf <- lbread (ldev l) (lh_at l tail) ;;
    v <- lift bcL (bdata lbuf) ;;
    lift bcL (bstore dbuf v) ;;
    lbwrite dbuf ;;
    when (negb recovering) (lift bcL (bunpin dbuf)) ;;
    lbrelse lbuf ;;
    lbrelse dbuf).

(** Read the log header from disk into the in-memory log header *)
Definition read_head : K lstate unit :=
  l <- gets lg ;;
  b <- lbread (ldev l) (start l) ;;
  v <- lift bcL (bdata b) ;;
  updl (set_lh_n (hdr_n v)) ;;
  for_each (seqZ 0 (hdr_n v)) (λ i, set_lh i (hdr_block v i)) ;;
  lbrelse b.

(** Write in-memory log header to disk. *)
Definition write_head : K lstate unit :=
  l <- gets lg ;;
  b <- lbread (ldev l) (start l) ;;
  v <- lift bcL (bdata b) ;;
  lift bcL (bstore b (put_hdr v (lh_n l) (lh_block l))) ;;
  lbwrite b ;;
  lbrelse b.

Definition recover_from_log : K lstate unit :=
  read_head ;;
  install_trans true ;;
  updl (set_lh_n 0) ;;
  write_head.

(** [sizeof(struct logheader)] is 4 + 4 * LOGSIZE, less than BSIZE. *)
Definition initlog (d logstart nlog : Z) : K lstate unit :=
  if BSIZE <=? 4 + 4 * LOGSIZE then panic "initlog: too big logheader"
  else
    updl (λ l, Log logstart nlog (outstanding l) (committing l) d (lh_n l) (lh_block l)) ;;
    recover_from_log.

(** begin_op's wait: a commit is running, or this op might exhaust log space. *)
Definition must_wait (s : lstate) : bool :=
  committing (lg s) || (LOGSIZE <? lh_n (lg s) + (outstanding (lg s) + 1) * MAXOPBLOCKS).

Definition begin_op : K lstate unit :=
  acquire L_log ;;
  wait_while must_wait C_log L_log ;;
  updl (λ l, set_outstanding (outstanding l + 1) l) ;;
  release L_log.

(** Copy modified blocks from cache to log. *)
Definition write_log : K lstate unit :=
  n <- gets (λ s, lh_n (lg s)) ;;
  for_each (seqZ 0 n) (λ tail,
    l <- gets lg ;;
    to <- lbread (ldev l) (start l + tail + 1) ;;
    from <- lbread (ldev l) (lh_at l tail) ;;
    v <- lift bcL (bdata from) ;;
    lift bcL (bstore to v) ;;
    lbwrite to ;;
    lbrelse from ;;
    lbrelse to).

Definition commit : K lstate unit :=
  n <- gets (λ s, lh_n (lg s)) ;;
  when (0 <? n)
    (write_log ;;
     write_head ;;          (* the real commit *)
     install_trans false ;; (* Now install writes to home locations *)
     updl (set_lh_n 0) ;;
     write_head).           (* Erase the transaction from the log *)

Definition end_op : K lstate unit :=
  acquire L_log ;;
  updl (λ l, set_outstanding (outstanding l - 1) l) ;;
  c <- gets (λ s, committing (lg s)) ;;
  if (c : bool) then panic "log.committing"
  else
    o <- gets (λ s, outstanding (lg s)) ;;
    (if o =? 0 then updl (set_committing true) else wakeup C_log) ;;
    release L_log ;;
    when (o =? 0)
      (commit ;;
       acquire L_log ;;
       updl (set_committing false) ;;
       wakeup C_log ;;
       release L_log).

(** log absorption: the index of [b] among the first [n] logged blocks, or [n] *)
Definition log_index (l : log) (b : Z) : Z :=
  match List.find (λ i, u32 (lh_at l i) =? b) (seqZ 0 (lh_n l)) with
  | Some i => i
  | None => lh_n l
  end.

Definition log_write (i : Z) : K lstate unit :=
  acquire L_log ;;
  l <- gets lg ;;
  if (LOGSIZE <=? lh_n l) || (size l - 1 <=? lh_n l) then panic "too big a transaction"
  else if outstanding l <? 1 then panic "log_write outside of trans"
  else
    b <- gets (λ s, blockno (getb (bc s) i)) ;;
    let k := log_index l b in
    set_lh k (i32 b) ;;
    when (k =? lh_n l)
      (lift bcL (bpin i) ;;
       updl (λ l, set_lh_n (lh_n l + 1) l)) ;;
    release L_log.

End log.
