(* ===== verification/LogDisk.v ===== *)
(** * What the log does to the disk

    The turns of the loops of log.c, run on a cache no one else is using: each
    opens two blocks, copies one over the other, writes it to disk, and closes
    both. *)

From S2P Require Import Prelude Monad Riscv Block Sleeplock Bio BioLru BioInv Log.

(** No buffer is held, and none is referenced except by a pin of the log. *)
Record idle (s : bcache) : Prop := {
  id_ok : ∃ order, bc_ok s order;
  id_lock : ∀ i, 0 <= i < NBUF → sl_locked (lock (getb s i)) = false;
  id_ref : ∀ i, 0 <= i < NBUF → refcnt (getb s i) <= 1 }.

(** [k] buffers are unused. *)
Definition spare (s : bcache) (k : nat) : Prop :=
  ∃ l, NoDup l ∧ length l = k ∧ ∀ i, i ∈ l → 0 <= i < NBUF ∧ refcnt (getb s i) = 0.

(** The log holds a reference to the cached copy of [b]. *)
Definition pinned (s : bcache) (b : Z) : Prop :=
  ∃ i, caches s i b ∧ valid (getb s i) = true ∧ refcnt (getb s i) = 1.

Definition refs (s : bcache) (i : Z) : Z := refcnt (getb s i).

(** An idle state with the given references, in which the blocks of [P] are
    pinned. *)
Record idle_at (R : Z → Z) (P : Z → Prop) (s : bcache) : Prop := {
  at_idle : idle s;
  at_ref : ∀ i, 0 <= i < NBUF → refcnt (getb s i) = R i;
  at_pin : ∀ b, P b → pinned s b }.

(** From one idle state to the next: references and pinned blocks stay. *)
Definition stepped (s s' : bcache) : Prop := idle_at (refs s) (pinned s) s'.

Lemma stepped_trans s1 s2 s3 : stepped s1 s2 → stepped s2 s3 → stepped s1 s3.
Proof.
  intros [I1 R1 P1] [I2 R2 P2]. constructor; [done | |].
  - intros i Hi. unfold refs in *. by rewrite R2, R1.
  - intros b Hb. by apply P2, P1.
Qed.

Lemma stepped_refl s : idle s → stepped s s.
Proof. intros H. by constructor. Qed.

Lemma spare_stepped s s' k : stepped s s' → spare s k → spare s' k.
Proof.
  intros H (l & Hnd & Hl & Hs). exists l. split; [done |]. split; [done |].
  intros i Hi. destruct (Hs i Hi) as [Hr H0]. by rewrite (at_ref _ _ _ H).
Qed.

Section turns.
Context (mypid : Z).
Notation holds := (holds mypid).
Notation opens := (opens mypid).

Lemma lift_bc {A} (m : K bcache A) l s x a s' x' :
  m s x = Ok a s' x' → lift bcL m (LState l s) x = Ok a (LState l s') x'.
Proof. intros H. by apply (lift_ok bcL). Qed.

(** ** Opening two blocks *)

(** What holds between two [bread]s and the two [brelse]s, [R] and [P] being the
    references and pins without these two. *)
Record two_open (R : Z → Z) (P : Z → Prop) (s : bcache) (i a j b : Z) : Prop := {
  to_ok : ∃ order, bc_ok s order;
  to_i : holds s i a;
  to_j : holds s j b;
  to_ne : i ≠ j;
  to_lock : ∀ k, 0 <= k < NBUF → k ≠ i → k ≠ j → sl_locked (lock (getb s k)) = false;
  to_ref : ∀ k, 0 <= k < NBUF →
     refcnt (getb s k) = R k + (if decide (k = i ∨ k = j) then 1 else 0);
  to_range : ∀ k, 0 <= k < NBUF → R k <= 1;
  to_pin : ∀ c, P c → ∃ k, caches s k c ∧ valid (getb s k) = true ∧ R k = 1 }.

Lemma two_open_sym R P s i a j b : two_open R P s i a j b → two_open R P s j b i a.
Proof.
  intros [O1 O2 O3 O4 O5 O6 O7 O8]. constructor; try done.
  - intros k Hk H1 H2. by apply O5.
  - intros k Hk. rewrite O6 by done. do 2 case_decide; naive_solver.
Qed.

Lemma idle_can_open s b : idle s → (pinned s b ∨ spare s 1) → can_open s b.
Proof.
  intros [_ Hl Hr] H. split.
  - intros i (Hi & _). split; [by apply Hl |]. pose proof (Hr i Hi). lia.
  - destruct H as [(i & Hc & _) | (l & _ & Hlen & Hs)]; [left; by exists i | right].
    destruct l as [| i l]; [done |]. exists i. apply Hs. left.
Qed.

(** Pins survive the opening of a block. *)
Lemma opens_pin s s' i a c k :
  opens s s' i a → caches s k c → valid (getb s k) = true → refcnt (getb s k) = 1 →
  caches s' k c ∧ valid (getb s' k) = true.
Proof.
  intros Ho Hc Hv Hr. destruct (Z.eq_dec k i) as [-> | Hne].
  - destruct (op_evict _ _ _ _ _ Ho) as [Hi | [H0 _]]; [| lia].
    pose proof (op_caches _ _ _ _ _ Ho) as Hc'. destruct Hi as (_ & _ & <-), Hc as (_ & _ & <-).
    split; [done | apply Ho].
  - unfold caches. by rewrite (op_other _ _ _ _ _ Ho).
Qed.

Lemma opens_can_open s s1 i a b :
  idle s → opens s s1 i a → a ≠ b → (pinned s b ∨ spare s 2) → can_open s1 b.
Proof.
  intros Hid Ho Hab H. split.
  - intros k Hc. assert (k ≠ i) as Hki.
    { intros ->. destruct Hc as (_ & _ & E), (op_caches _ _ _ _ _ Ho) as (_ & _ & E'). congruence. }
    rewrite (op_other _ _ _ _ _ Ho) by done. destruct Hc as (Hk & _).
    split; [by apply Hid |]. pose proof (id_ref _ Hid k Hk). lia.
  - destruct H as [(k & Hc & Hv & Hr) | (l & Hnd & Hl & Hs)].
    + left. exists k. by destruct (opens_pin _ _ _ _ _ _ Ho Hc Hv Hr).
    + right. destruct l as [| x [| y [|]]]; try done. apply NoDup_cons in Hnd as [Hxy _].
      rewrite list_elem_of_singleton in Hxy.
      destruct (Z.eq_dec x i) as [-> | Hx]; [exists y | exists x];
        rewrite (op_other _ _ _ _ _ Ho) by congruence; apply Hs; [right |]; left.
Qed.

(** A block whose buffer has no reference is as on disk. *)
Lemma unref_clean s order i a :
  bc_ok s order → (caches s i a ∨ ∀ j, ¬ caches s j a) → refcnt (getb s i) = 0 →
  view s a = dread (dsk s) a.
Proof.
  intros Hok [Hc | Hno] Hr; [| apply view_uncached; intros j Hj; by destruct (Hno j)].
  destruct (valid (getb s i)) eqn:Hv.
  - rewrite (view_cached s order i a Hok Hc Hv). destruct Hc as (Hi & _ & <-). by apply (bc_clean _ _ Hok).
  - apply view_uncached. intros j Hj. by rewrite (bc_uniq _ _ Hok j i a).
Qed.

Lemma open_two s a b h w n :
  idle s → a ≠ b → spare s 1 → (pinned s b ∨ spare s 2) → bio_free h →
  ∃ i s1 j s2,
    bread mypid ROOTDEV a s (Ctx h w n) = Ok i s1 (Ctx h w n) ∧
    bread mypid ROOTDEV b s1 (Ctx h w n) = Ok j s2 (Ctx h w n) ∧
    two_open (refs s) (pinned s) s2 i a j b ∧
    data (getb s2 i) = view s a ∧ data (getb s2 j) = view s b ∧
    (refs s i = 0 → view s a = dread (dsk s) a) ∧ (refs s j = 0 → view s b = dread (dsk s) b) ∧
    dsk s2 = dsk s ∧ ∀ c, view s2 c = view s c.
Proof.
  intros Hid Hab Hsp Hb Hf. destruct (id_ok _ Hid) as [order Hok].
  destruct (bread_ok mypid s order a h w n Hok) as (i & s1 & E1 & Hok1 & Ho1);
    [by apply idle_can_open; [| right] | done |].
  destruct (bread_ok mypid s1 order b h w n Hok1) as (j & s2 & E2 & Hok2 & Ho2);
    [by apply (opens_can_open s _ i a) | done |].
  exists i, s1, j, s2. split; [done |]. split; [done |].
  assert (i ≠ j) as Hij.
  { intros <-. pose proof (op_free _ _ _ _ _ Ho2) as Hl. by rewrite (op_lock _ _ _ _ _ Ho1) in Hl. }
  assert (getb s2 i = getb s1 i) as Gi by (by apply (op_other _ _ _ _ _ Ho2)).
  assert (getb s1 j = getb s j) as Gj by (by apply (op_other _ _ _ _ _ Ho1)).
  split; [constructor |].
  - by exists order.
  - destruct (opens_holds _ _ _ _ _ Ho1) as (Hc & Hv & Hl). unfold BioInv.holds, caches. by rewrite Gi.
  - by apply (opens_holds mypid s1).
  - done.
  - intros k Hk H1 H2. rewrite (op_other _ _ _ _ _ Ho2), (op_other _ _ _ _ _ Ho1) by done. by apply Hid.
  - intros k Hk. destruct (Z.eq_dec k i) as [-> |]; [| destruct (Z.eq_dec k j) as [-> |]].
    + rewrite Gi, (op_refcnt _ _ _ _ _ Ho1). by rewrite decide_True by tauto.
    + unfold refs. rewrite (op_refcnt _ _ _ _ _ Ho2), Gj. by rewrite decide_True by tauto.
    + rewrite (op_other _ _ _ _ _ Ho2), (op_other _ _ _ _ _ Ho1) by done.
      rewrite decide_False by tauto. unfold refs. lia.
  - intros k Hk. by apply Hid.
  - intros c (k & Hc & Hv & Hr). exists k.
    destruct (opens_pin _ _ _ _ _ _ Ho1 Hc Hv Hr) as [Hc1 Hv1].
    destruct (Z.eq_dec k j) as [-> |].
    + destruct (op_evict _ _ _ _ _ Ho2) as [Hj | [H0 _]]; [| rewrite Gj in H0; lia].
      pose proof (op_caches _ _ _ _ _ Ho2) as Hc2. destruct Hj as (_ & _ & Hj), Hc1 as (_ & _ & Hc1).
      rewrite Hj in Hc1. subst c. split; [done |]. split; [apply Ho2 | done].
    + unfold caches. by rewrite (op_other _ _ _ _ _ Ho2).
  - rewrite Gi, (op_data _ _ _ _ _ Ho1), (op_data _ _ _ _ _ Ho2), (op_view _ _ _ _ _ Ho1).
    do 2 (split; [done |]).
    split; [intros H0; apply (unref_clean s order i a Hok); [| done];
      destruct (op_evict _ _ _ _ _ Ho1) as [? | [_ ?]]; [by left | by right] |].
    split; [| split].
    { intros H0. rewrite <- (op_view _ _ _ _ _ Ho1 b), <- (op_dsk _ _ _ _ _ Ho1).
      apply (unref_clean s1 order j b Hok1); [| by rewrite Gj].
      destruct (op_evict _ _ _ _ _ Ho2) as [? | [_ ?]]; [by left | by right]. }
    { by rewrite (op_dsk _ _ _ _ _ Ho2), (op_dsk _ _ _ _ _ Ho1). }
    intros c. by rewrite (op_view _ _ _ _ _ Ho2), (op_view _ _ _ _ _ Ho1).
Qed.

(** ** Writing the second block *)

(** [two_open] only looks at these fields. *)
Lemma two_open_ext R P s s' i a j b :
  two_open R P s i a j b → (∃ order, bc_ok s' order) →
  (∀ k, valid (getb s' k) = valid (getb s k) ∧ dev (getb s' k) = dev (getb s k) ∧
        blockno (getb s' k) = blockno (getb s k) ∧ lock (getb s' k) = lock (getb s k) ∧
        refcnt (getb s' k) = refcnt (getb s k)) →
  two_open R P s' i a j b.
Proof.
  intros [O1 O2 O3 O4 O5 O6 O7 O8] Hok F.
  assert (∀ k c, caches s k c → caches s' k c) as Hc.
  { intros k c (H1 & H2 & H3). destruct (F k) as (_ & E1 & E2 & _). unfold caches. by rewrite E1, E2. }
  assert (∀ k c, holds s k c → holds s' k c) as Hh.
  { intros k c (H1 & H2 & H3). destruct (F k) as (E1 & _ & _ & E2 & _).
    split; [by apply Hc | by rewrite E1, E2]. }
  constructor; auto.
  - intros k Hk H1 H2. destruct (F k) as (_ & _ & _ & -> & _). by apply O5.
  - intros k Hk. destruct (F k) as (_ & _ & _ & _ & ->). by apply O6.
  - intros c Hcp. destruct (O8 c Hcp) as (k & H1 & H2 & H3). exists k.
    destruct (F k) as (-> & _). split; [by apply Hc | done].
Qed.

(** [memmove(dst->data, v, BSIZE); bwrite(dst)] *)
Lemma write_second R P s i a j b v h w n :
  two_open R P s i a j b → is_block v → bio_free h →
  ∃ s1 s2, bstore j v s (Ctx h w n) = Ok tt s1 (Ctx h w n) ∧
    bwrite mypid j s1 (Ctx h w n) = Ok tt s2 (Ctx h w n) ∧
    two_open R P s2 i a j b ∧ data (getb s2 j) = v ∧ data (getb s2 i) = data (getb s i) ∧
    dsk s2 = dwrite (dsk s) b v ∧ ∀ c, view s2 c = if c =? b then v else view s c.
Proof.
  intros Ht Hv Hf. destruct (to_ok _ _ _ _ _ _ _ Ht) as [order Hok].
  pose proof (to_j _ _ _ _ _ _ _ Ht) as Hj. pose proof (to_ne _ _ _ _ _ _ _ Ht) as Hne.
  destruct (bstore_ok mypid s order j b v (Ctx h w n) Hok Hj Hv) as (E1 & Hok1 & V1).
  set (s1 := setb j (set_data v (getb s j)) s) in *.
  assert (∀ k, getb s1 k = if j =? k then set_data v (getb s j) else getb s k) as G.
  { intros k. apply getb_setb; [apply Hok |]. destruct Hj as ((Hr & _) & _). unfold HEAD. lia. }
  assert (two_open R P s1 i a j b) as Ht1.
  { apply (two_open_ext R P s); [done | by exists order |]. intros k. rewrite G.
    destruct (Z.eqb_spec j k) as [<- |]; done. }
  destruct (bwrite_ok mypid s1 order j b h w n Hok1 (to_j _ _ _ _ _ _ _ Ht1) Hf) as (E2 & Hok2 & V2).
  rewrite G, Z.eqb_refl in E2, Hok2, V2. cbn [data set_data] in E2, Hok2, V2.
  set (s2 := BCache (bufs s1) (dwrite (dsk s1) b v)) in *.
  exists s1, s2. split; [done |]. split; [done |].
  split; [apply (two_open_ext R P s1); [done | by exists order | done] |].
  change (getb s2) with (getb s1). rewrite !G, Z.eqb_refl. destruct (Z.eqb_spec j i); [congruence |].
  do 3 (split; [done |]). intros c. by rewrite V2, V1.
Qed.

(** [bunpin(dst)]: the log gives up its reference. *)
Lemma unpin_second R P s i a j b h w n :
  two_open R P s i a j b → R j = 1 → bio_free h →
  ∃ s1, bunpin j s (Ctx h w n) = Ok tt s1 (Ctx h w n) ∧
    two_open (λ k, if k =? j then 0 else R k) (λ c, P c ∧ c ≠ b) s1 i a j b ∧
    (∀ k, data (getb s1 k) = data (getb s k)) ∧
    dsk s1 = dsk s ∧ ∀ c, view s1 c = view s c.
Proof.
  intros Ht HR Hf. destruct (to_ok _ _ _ _ _ _ _ Ht) as [order Hok].
  pose proof (to_j _ _ _ _ _ _ _ Ht) as ((Hj & Hd & Hb) & Hv & Hl).
  assert (refcnt (getb s j) = 2) as Hr.
  { rewrite (to_ref _ _ _ _ _ _ _ Ht) by done. rewrite decide_True by tauto. lia. }
  destruct (bunpin_ok s order j h w n Hok Hj) as (E1 & Hok1 & V1); [lia | done |].
  rewrite Hr in E1, Hok1, V1. change (2 - 1) with 1 in E1, Hok1, V1.
  set (s1 := setb j (set_refcnt 1 (getb s j)) s) in *. exists s1.
  assert (∀ k, getb s1 k = if j =? k then set_refcnt 1 (getb s j) else getb s k) as G.
  { intros k. apply getb_setb; [apply Hok | unfold HEAD; lia]. }
  assert (∀ k c, caches s k c → caches s1 k c) as Hc.
  { intros k c (H1 & H2 & H3). split; [done |]. rewrite G. destruct (Z.eqb_spec j k) as [<- |]; done. }
  assert (∀ k c, holds s k c → holds s1 k c) as Hh.
  { intros k c (H1 & H2 & H3). split; [by apply Hc |]. rewrite G. destruct (Z.eqb_spec j k) as [<- |]; done. }
  split; [done |]. destruct Ht as [O1 O2 O3 O4 O5 O6 O7 O8].
  split; [constructor; auto |].
  - by exists order.
  - intros k Hk H1 H2. rewrite G. destruct (Z.eqb_spec j k); [congruence | by apply O5].
  - intros k Hk. rewrite G, (Z.eqb_sym k j). destruct (Z.eqb_spec j k) as [<- |]; [| by apply O6].
    rewrite decide_True by tauto. done.
  - intros k Hk. destruct (k =? j); [lia | by apply O7].
  - intros c [Hcp Hne]. destruct (O8 c Hcp) as (k & H1 & H2 & H3). exists k.
    destruct (Z.eqb_spec k j) as [-> | Hkj]; [destruct H1 as (_ & _ & H1); congruence |].
    split; [by apply Hc |]. rewrite G. destruct (Z.eqb_spec j k); [congruence | done].
  - split; [| done]. intros k. rewrite G. by destruct (Z.eqb_spec j k) as [<- |].
Qed.

(** ** Closing both *)

Lemma close_two R P s i a j b h w n :
  two_open R P s i a j b → bio_free h →
  (R i = 0 → data (getb s i) = dread (dsk s) a) → (R j = 0 → data (getb s j) = dread (dsk s) b) →
  ∃ s1 w1 s2 w2, brelse mypid i s (Ctx h w n) = Ok tt s1 (Ctx h w1 n) ∧
    brelse mypid j s1 (Ctx h w1 n) = Ok tt s2 (Ctx h w2 n) ∧
    idle_at R P s2 ∧ dsk s2 = dsk s ∧ ∀ c, view s2 c = view s c.
Proof.
  intros Ht Hf Hci Hcj. destruct (to_ok _ _ _ _ _ _ _ Ht) as [order Hok].
  destruct Ht as [_ Hi Hj Hne Hlk Hrf Hrg Hpn].
  assert (0 <= i < NBUF ∧ 0 <= j < NBUF) as [Hri Hrj] by (split; [apply Hi | apply Hj]).
  assert (refcnt (getb s i) = R i + 1 ∧ refcnt (getb s j) = R j + 1) as [Ri Rj]
    by (rewrite !Hrf, !decide_True by tauto; done).
  destruct (brelse_ok mypid s order i a h w n Hok Hi) as (s1 & E1 & Hok1 & L1); [| done |].
  { intros H. apply Hci. lia. }
  assert (core (getb s1 j) = core (getb s j)) as Cj by (apply L1; congruence).
  destruct (core_inj _ _ Cj) as (C1 & C2 & C3 & C4 & C5 & C6).
  assert (holds s1 j b) as Hj1.
  { destruct Hj as ((H1 & H2 & H3) & H4 & H5). repeat split; congruence || lia. }
  destruct (brelse_ok mypid s1 _ j b h (w ++ [C_sleep (SL_buf i)]) n Hok1 Hj1) as (s2 & E2 & Hok2 & L2); [| done |].
  { intros H. rewrite (rl_dsk _ _ _ L1), C6. apply Hcj. lia. }
  exists s1, (w ++ [C_sleep (SL_buf i)]), s2. eexists. split; [done |]. split; [done |].
  assert (∀ k, lock (getb s2 k) = (if decide (k = i ∨ k = j) then initsleeplock else lock (getb s k)) ∧
            refcnt (getb s2 k) = refcnt (getb s k) - (if decide (k = i ∨ k = j) then 1 else 0) ∧
            dev (getb s2 k) = dev (getb s k) ∧ blockno (getb s2 k) = blockno (getb s k) ∧
            valid (getb s2 k) = valid (getb s k)) as F.
  { intros k. destruct (Z.eq_dec k j) as [-> | Hkj]; [| destruct (Z.eq_dec k i) as [-> | Hki]].
    - rewrite !decide_True by tauto. destruct (rl_keep _ _ _ L2) as (-> & -> & -> & _).
      rewrite (rl_lock _ _ _ L2), (rl_refcnt _ _ _ L2), C5. done.
    - rewrite !decide_True by tauto.
      destruct (core_inj _ _ (rl_other _ _ _ L2 i Hne)) as (-> & -> & -> & -> & -> & _).
      destruct (rl_keep _ _ _ L1) as (-> & -> & -> & _).
      rewrite (rl_lock _ _ _ L1), (rl_refcnt _ _ _ L1). done.
    - rewrite !decide_False by tauto.
      destruct (core_inj _ _ (rl_other _ _ _ L2 k Hkj)) as (-> & -> & -> & -> & -> & _).
      destruct (core_inj _ _ (rl_other _ _ _ L1 k Hki)) as (-> & -> & -> & -> & -> & _).
      rewrite Z.sub_0_r. done. }
  assert (∀ k, 0 <= k < NBUF → refcnt (getb s2 k) = R k) as HR.
  { intros k Hk. destruct (F k) as (_ & -> & _). rewrite Hrf by done. case_decide; lia. }
  split; [constructor; [constructor | done |] | split].
  - eexists. exact Hok2.
  - intros k Hk. destruct (F k) as (-> & _). case_decide; [done |]. apply Hlk; tauto.
  - intros k Hk. rewrite HR by done. by apply Hrg.
  - intros c Hc. destruct (Hpn c Hc) as (k & (K1 & K2 & K3) & Hv & Hr). exists k.
    destruct (F k) as (_ & _ & E3 & E4 & ->). split; [split; [done |]; by rewrite E3, E4 |].
    split; [done |]. by rewrite HR.
  - by rewrite (rl_dsk _ _ _ L2), (rl_dsk _ _ _ L1).
  - intros c. by rewrite (rl_view _ _ _ L2), (rl_view _ _ _ L1).
Qed.

Lemma view_block s order c : bc_ok s order → is_block (view s c).
Proof.
  intros Hok. destruct (view_cases s c) as [(j & (Hj & _) & Hv & ->) | [_ ->]];
    [by apply (bc_block _ _ Hok) | apply Hok].
Qed.

(** ** The turns of the loops *)

Lemma write_log_turn l s dst src h w n :
  idle s → dst ≠ src → spare s 1 → pinned s src → bio_free h →
  ∃ s' w',
    (to <- lbread mypid ROOTDEV dst ;;
     from <- lbread mypid ROOTDEV src ;;
     v <- lift bcL (bdata from) ;;
     lift bcL (bstore to v) ;;
     lbwrite mypid to ;;
     lbrelse mypid from ;;
     lbrelse mypid to) (LState l s) (Ctx h w n) = Ok tt (LState l s') (Ctx h w' n) ∧
    stepped s s' ∧ dsk s' = dwrite (dsk s) dst (view s src) ∧
    ∀ c, view s' c = if c =? dst then view s src else view s c.
Proof.
  intros Hid Hne Hsp Hpin Hf. destruct (id_ok _ Hid) as [order Hok].
  destruct (open_two s dst src h w n Hid Hne Hsp (or_introl Hpin) Hf)
    as (i & s1 & j & s2 & E1 & E2 & Ht & D1 & D2 & Ci & Cj & Hd2 & V2).
  apply two_open_sym in Ht.
  destruct (write_second _ _ s2 j src i dst (view s src) h w n Ht (view_block s order src Hok) Hf)
    as (s3 & s4 & E3 & E4 & Ht4 & W1 & W2 & Hd4 & V4).
  destruct (close_two _ _ s4 j src i dst h w n Ht4 Hf) as (s5 & w5 & s6 & w6 & E5 & E6 & Hat & Hd6 & V6).
  { intros H0. rewrite W2, D2, Hd4, dread_dwrite, Hd2.
    destruct (Z.eqb_spec src dst); [congruence | by apply Cj]. }
  { intros _. by rewrite W1, Hd4, dread_dwrite, Z.eqb_refl. }
  exists s6, w6. split.
  - kstep (lift_bc _ l _ _ _ _ _ E1). kstep (lift_bc _ l _ _ _ _ _ E2).
    erewrite bind_ok; [| apply lift_bc; reflexivity]. rewrite D2.
    kstep (lift_bc _ l _ _ _ _ _ E3). kstep (lift_bc _ l _ _ _ _ _ E4).
    kstep (lift_bc _ l _ _ _ _ _ E5). exact (lift_bc _ l _ _ _ _ _ E6).
  - split; [done |]. split; [by rewrite Hd6, Hd4, Hd2 |].
    intros c. rewrite V6, V4, V2. done.
Qed.

(** While installing, [recovering] says whether the destination is pinned. *)
Lemma install_turn l s dst src (recovering : bool) h w n :
  idle s → src ≠ dst → spare s 1 → (if recovering then spare s 2 else pinned s dst) → bio_free h →
  ∃ s' w',
    (lbuf <- lbread mypid ROOTDEV src ;;
     dbuf <- lbread mypid ROOTDEV dst ;;
     v <- lift bcL (bdata lbuf) ;;
     lift bcL (bstore dbuf v) ;;
     lbwrite mypid dbuf ;;
     when (negb recovering) (lift bcL (bunpin dbuf)) ;;
     lbrelse mypid lbuf ;;
     lbrelse mypid dbuf) (LState l s) (Ctx h w n) = Ok tt (LState l s') (Ctx h w' n) ∧
    idle s' ∧ (∀ k, spare s k → spare s' k) ∧ (∀ c, pinned s c → recovering = true ∨ c ≠ dst → pinned s' c) ∧
    dsk s' = dwrite (dsk s) dst (view s src) ∧
    ∀ c, view s' c = if c =? dst then view s src else view s c.
Proof.
  intros Hid Hne Hsp Hdst Hf. destruct (id_ok _ Hid) as [order Hok].
  destruct (open_two s src dst h w n Hid Hne Hsp) as (i & s1 & j & s2 & E1 & E2 & Ht & D1 & D2 & Ci & Cj & Hd2 & V2).
  { destruct recovering; [by right | by left]. } { done. }
  destruct (write_second _ _ s2 i src j dst (view s src) h w n Ht (view_block s order src Hok) Hf)
    as (s3 & s4 & E3 & E4 & Ht4 & W1 & W2 & Hd4 & V4).
  assert (∃ R P s5, (when (negb recovering) (bunpin j)) s4 (Ctx h w n) = Ok tt s5 (Ctx h w n) ∧
            two_open R P s5 i src j dst ∧ (∀ k, data (getb s5 k) = data (getb s4 k)) ∧
            dsk s5 = dsk s4 ∧ (∀ c, view s5 c = view s4 c) ∧
            (∀ k, 0 <= k < NBUF → R k = refs s k ∨ R k = 0) ∧ R i = refs s i ∧
            (∀ c, pinned s c → recovering = true ∨ c ≠ dst → P c))
    as (R & P & s5 & E5 & Ht5 & D5 & Hd5 & V5 & HR & HRi & HP).
  { destruct recovering; cbn [negb when].
    - eexists _, _, s4. split; [done |]. split; [exact Ht4 |]. naive_solver.
    - destruct Hdst as (k & Hc & Hv & Hr).
      assert (refs s j = 1) as Hrj.
      { destruct (to_pin _ _ _ _ _ _ _ Ht4 dst) as (k' & Hc' & _ & Hr'); [by exists k |].
        rewrite <- Hr'. f_equal. destruct (to_ok _ _ _ _ _ _ _ Ht4) as [o Ho].
        apply (bc_uniq _ _ Ho j k' dst); [apply (to_j _ _ _ _ _ _ _ Ht4) | done]. }
      destruct (unpin_second _ _ s4 i src j dst h w n Ht4 Hrj Hf) as (s5 & E5 & Ht5 & D5 & Hd5 & V5).
      eexists _, _, s5. split; [exact E5 |]. split; [exact Ht5 |]. do 3 (split; [done |]).
      split; [intros k'; destruct (k' =? j); tauto |].
      pose proof (to_ne _ _ _ _ _ _ _ Ht). split; [destruct (Z.eqb_spec i j); done | naive_solver]. }
  destruct (close_two _ _ s5 i src j dst h w n Ht5 Hf) as (s6 & w6 & s7 & w7 & E6 & E7 & Hat & Hd7 & V7).
  { intros H0. rewrite D5, W2, D1, Hd5, Hd4, dread_dwrite, Hd2.
    destruct (Z.eqb_spec src dst); [congruence |]. apply Ci. congruence. }
  { intros _. by rewrite D5, W1, Hd5, Hd4, dread_dwrite, Z.eqb_refl. }
  exists s7, w7. split; [| split; [apply Hat | split; [| split; [| split]]]].
  - kstep (lift_bc _ l _ _ _ _ _ E1). kstep (lift_bc _ l _ _ _ _ _ E2).
    erewrite bind_ok; [| apply lift_bc; reflexivity]. rewrite D1.
    kstep (lift_bc _ l _ _ _ _ _ E3). kstep (lift_bc _ l _ _ _ _ _ E4).
    assert (when (negb recovering) (lift bcL (bunpin j)) (LState l s4) (Ctx h w n) =
            Ok tt (LState l s5) (Ctx h w n)) as E5'.
    { destruct recovering; cbn [negb when] in *; [by injection E5 as -> | by apply lift_bc]. }
    kstep E5'. kstep (lift_bc _ l _ _ _ _ _ E6). exact (lift_bc _ l _ _ _ _ _ E7).
  - intros k (ls & Hnd & Hl & Hs). exists ls. split; [done |]. split; [done |]. intros x Hx.
    destruct (Hs x Hx) as [Hr H0]. rewrite (at_ref _ _ _ Hat) by done. split; [done |].
    destruct (HR x Hr) as [-> | ->]; done.
  - intros c Hc Hor. by apply (at_pin _ _ _ Hat), HP.
  - by rewrite Hd7, Hd5, Hd4, Hd2.
  - intros c. rewrite V7, V5, V4, V2. done.
Qed.

(** ** One block: the header *)

(** After the last [brelse]: idle again if the buffer is clean or pinned. *)
Lemma close_one s s1 i a h w n :
  idle s → (∃ order, bc_ok s1 order) → holds s1 i a → bio_free h →
  (∀ k, 0 <= k < NBUF → k ≠ i → core (getb s1 k) = core (getb s k)) →
  refcnt (getb s1 i) = refcnt (getb s i) + 1 →
  (∀ c, pinned s c → ∃ k, caches s1 k c ∧ valid (getb s1 k) = true ∧ refcnt (getb s k) = 1) →
  (refs s i = 0 → data (getb s1 i) = dread (dsk s1) a) →
  ∃ s2 w2, brelse mypid i s1 (Ctx h w n) = Ok tt s2 (Ctx h w2 n) ∧ stepped s s2 ∧
    dsk s2 = dsk s1 ∧ ∀ c, view s2 c = view s1 c.
Proof.
  intros Hid [order Hok] Hi Hf Hcore Hr Hpin Hcl.
  destruct (brelse_ok mypid s1 order i a h w n Hok Hi) as (s2 & E & Hok2 & L); [| done |].
  { intros H. apply Hcl. unfold refs. lia. }
  exists s2. eexists. split; [done |].
  assert (∀ k, 0 <= k < NBUF → refcnt (getb s2 k) = refcnt (getb s k) ∧
            sl_locked (lock (getb s2 k)) = false) as F.
  { intros k Hk. destruct (Z.eq_dec k i) as [-> | Hne].
    - rewrite (rl_refcnt _ _ _ L), (rl_lock _ _ _ L), Hr. split; [lia | done].
    - destruct (core_inj _ _ (rl_other _ _ _ L k Hne)) as (_ & _ & _ & -> & -> & _).
      destruct (core_inj _ _ (Hcore k Hk Hne)) as (_ & _ & _ & -> & -> & _).
      split; [done | by apply Hid]. }
  split; [constructor; [constructor | | ] | split; [apply L | apply L]].
  - eexists. exact Hok2.
  - intros k Hk. by apply F.
  - intros k Hk. destruct (F k Hk) as [-> _]. by apply Hid.
  - intros k Hk. by apply F.
  - intros c Hc. destruct (Hpin c Hc) as (k & (K1 & K2 & K3) & Hv & Hk). exists k.
    destruct (F k K1) as [-> _].
    assert (valid (getb s2 k) = valid (getb s1 k) ∧ dev (getb s2 k) = dev (getb s1 k) ∧
            blockno (getb s2 k) = blockno (getb s1 k)) as (-> & E2 & E3).
    { destruct (Z.eq_dec k i) as [-> | Hne].
      - by destruct (rl_keep _ _ _ L) as (-> & -> & -> & _).
      - by destruct (core_inj _ _ (rl_other _ _ _ L k Hne)) as (-> & -> & -> & _). }
    split; [| done]. unfold caches. by rewrite E2, E3.
Qed.

(** [bread; read; brelse] *)
Lemma read_turn s a h w n :
  idle s → spare s 1 → bio_free h →
  ∃ i s1 s' w',
    bread mypid ROOTDEV a s (Ctx h w n) = Ok i s1 (Ctx h w n) ∧
    bdata i s1 (Ctx h w n) = Ok (view s a) s1 (Ctx h w n) ∧
    brelse mypid i s1 (Ctx h w n) = Ok tt s' (Ctx h w' n) ∧
    stepped s s' ∧ dsk s' = dsk s ∧ ∀ c, view s' c = view s c.
Proof.
  intros Hid Hsp Hf. destruct (id_ok _ Hid) as [order Hok].
  destruct (bread_ok mypid s order a h w n Hok) as (i & s1 & E1 & Hok1 & Ho);
    [by apply idle_can_open; [| right] | done |].
  destruct (close_one s s1 i a h w n Hid) as (s2 & w2 & E2 & Hst & Hd & V);
    [by exists order | by apply (opens_holds mypid s) | done | | apply Ho | | |].
  { intros k _ Hk. by rewrite (op_other _ _ _ _ _ Ho). }
  { intros c (k & Hc & Hv & Hr). exists k. by destruct (opens_pin _ _ _ _ _ _ Ho Hc Hv Hr). }
  { intros H0. rewrite (op_data _ _ _ _ _ Ho), (op_dsk _ _ _ _ _ Ho).
    apply (unref_clean s order i a Hok); [| done].
    destruct (op_evict _ _ _ _ _ Ho) as [? | [_ ?]]; [by left | by right]. }
  exists i, s1, s2, w2. split; [done |].
  split; [unfold bdata, gets; by rewrite (op_data _ _ _ _ _ Ho) |].
  split; [done |]. split; [done |]. split; [by rewrite Hd, (op_dsk _ _ _ _ _ Ho) |].
  intros c. by rewrite V, (op_view _ _ _ _ _ Ho).
Qed.

(** [bread; change; bwrite; brelse] *)
Lemma write_turn l s a (f : block → block) h w n :
  idle s → spare s 1 → bio_free h → is_block (f (view s a)) →
  ∃ s' w',
    (b <- lbread mypid ROOTDEV a ;;
     v <- lift bcL (bdata b) ;;
     lift bcL (bstore b (f v)) ;;
     lbwrite mypid b ;;
     lbrelse mypid b) (LState l s) (Ctx h w n) = Ok tt (LState l s') (Ctx h w' n) ∧
    stepped s s' ∧ dsk s' = dwrite (dsk s) a (f (view s a)) ∧
    ∀ c, view s' c = if c =? a then f (view s a) else view s c.
Proof.
  intros Hid Hsp Hf Hblk. destruct (id_ok _ Hid) as [order Hok].
  destruct (bread_ok mypid s order a h w n Hok) as (i & s1 & E1 & Hok1 & Ho);
    [by apply idle_can_open; [| right] | done |].
  pose proof (opens_holds _ _ _ _ _ Ho) as Hh1. set (v := f (view s a)) in *.
  destruct (bstore_ok mypid s1 order i a v (Ctx h w n) Hok1 Hh1 Hblk) as (E2 & Hok2 & V2).
  set (s2 := setb i (set_data v (getb s1 i)) s1) in *.
  assert (∀ k, getb s2 k = if i =? k then set_data v (getb s1 i) else getb s1 k) as G.
  { intros k. apply getb_setb; [apply Hok1 |]. destruct Hh1 as ((Hr & _) & _). unfold HEAD. lia. }
  assert (holds s2 i a) as Hh2.
  { destruct Hh1 as ((H1 & H2 & H3) & H4 & H5). split; [split; [done |] |]; by rewrite G, Z.eqb_refl. }
  destruct (bwrite_ok mypid s2 order i a h w n Hok2 Hh2 Hf) as (E3 & Hok3 & V3).
  rewrite G, Z.eqb_refl in E3, Hok3, V3. cbn [data set_data] in E3, Hok3, V3.
  set (s3 := BCache (bufs s2) (dwrite (dsk s2) a v)) in *.
  assert (∀ k, getb s3 k = getb s2 k) as G3 by done.
  destruct (close_one s s3 i a h w n Hid) as (s4 & w4 & E4 & Hst & Hd & V4);
    [by exists order | done | done | | | | |].
  { intros k _ Hk. rewrite G3, G. destruct (Z.eqb_spec i k); [congruence |].
    by rewrite (op_other _ _ _ _ _ Ho). }
  { rewrite G3, G, Z.eqb_refl. apply Ho. }
  { intros c (k & Hc & Hv & Hr). exists k. destruct (opens_pin _ _ _ _ _ _ Ho Hc Hv Hr) as [H1 H2].
    unfold caches. rewrite G3, G. destruct (Z.eqb_spec i k) as [<- |]; done. }
  { intros _. rewrite G3, G, Z.eqb_refl. cbn [dsk s3]. by rewrite dread_dwrite, Z.eqb_refl. }
  exists s4, w4. split; [| split; [done |]].
  - kstep (lift_bc _ l _ _ _ _ _ E1). erewrite bind_ok; [| apply lift_bc; reflexivity].
    rewrite (op_data _ _ _ _ _ Ho). fold v. kstep (lift_bc _ l _ _ _ _ _ E2).
    kstep (lift_bc _ l _ _ _ _ _ E3). exact (lift_bc _ l _ _ _ _ _ E4).
  - split; [rewrite Hd; cbn [dsk s3]; f_equal; apply Ho |].
    intros c. by rewrite V4, V3, V2, (op_view _ _ _ _ _ Ho).
Qed.
End turns.
