(* ===== verification/LogCrash.v ===== *)
(** * Crash safety of the log

    The disk writes of [commit], and what recovery makes of the disk when only
    a prefix of them was done: all of the transaction's blocks are updated, or
    none of them. *)

From S2P Require Import Prelude Monad Riscv Block Sleeplock Bio BioLru BioInv Log LogDisk.

(** ** Sequences of block writes *)

Definition dwrites (d : disk) (ws : list (Z * block)) : disk :=
  foldl (λ d w, dwrite d w.1 w.2) d ws.

(** The contents [V] after the writes [ws]. *)
Fixpoint overlay (V : Z → block) (ws : list (Z * block)) (c : Z) : block :=
  match ws with
  | [] => V c
  | w :: ws' => overlay (λ c', if c' =? w.1 then w.2 else V c') ws' c
  end.

Lemma overlay_ext V V' ws c : (∀ c, V c = V' c) → overlay V ws c = overlay V' ws c.
Proof.
  revert V V'. induction ws as [| w ws IH]; intros V V' H; simpl; [done |].
  apply IH. intros c'. by rewrite H.
Qed.

Lemma overlay_app V ws1 ws2 c : overlay V (ws1 ++ ws2) c = overlay (overlay V ws1) ws2 c.
Proof. revert V. induction ws1 as [| w ws1 IH]; intros V; [done |]. simpl. by rewrite IH. Qed.

Lemma overlay_out V ws c : c ∉ ws.*1 → overlay V ws c = V c.
Proof.
  revert V. induction ws as [| w ws IH]; intros V H; [done |]. simpl in *.
  apply not_elem_of_cons in H as [Hc H]. rewrite IH by done.
  by destruct (Z.eqb_spec c w.1).
Qed.

(** Writes of distinct blocks. *)
Lemma overlay_in V ws c v : NoDup ws.*1 → (c, v) ∈ ws → overlay V ws c = v.
Proof.
  revert V. induction ws as [| w ws IH]; intros V Hnd H; [by apply not_elem_of_nil in H |].
  simpl in *. apply NoDup_cons in Hnd as [Hw Hnd]. apply elem_of_cons in H as [<- | H].
  - rewrite overlay_out by done. by rewrite Z.eqb_refl.
  - by apply IH.
Qed.

Lemma dread_dwrites d ws c : dread (dwrites d ws) c = overlay (dread d) ws c.
Proof.
  unfold dwrites. revert d. induction ws as [| w ws IH]; intros d; [done |]. simpl.
  rewrite IH. apply overlay_ext. intros c'. apply dread_dwrite.
Qed.

Lemma writes_dwrites d ws : writes (dwrites d ws) = writes d ++ ws.
Proof.
  unfold dwrites. revert d. induction ws as [| w ws IH]; intros d; simpl; [by rewrite app_nil_r |].
  rewrite IH. simpl. rewrite <- app_assoc. simpl. by destruct w.
Qed.

Lemma dwrites_app d ws1 ws2 : dwrites d (ws1 ++ ws2) = dwrites (dwrites d ws1) ws2.
Proof. apply foldl_app. Qed.

(** ** The header block *)

Lemma put_hdr_fold v l ks :
  is_block v → Forall (λ i, 0 <= i < LOGSIZE) ks →
  let v' := foldl (λ v i, put32 v (4 + 4 * i) (default 0 (zget l i))) v ks in
  is_block v' ∧ get32 v' 0 = get32 v 0 ∧
  ∀ i, 0 <= i < LOGSIZE →
    get32 v' (4 + 4 * i) = if decide (i ∈ ks) then u32 (default 0 (zget l i)) else get32 v (4 + 4 * i).
Proof.
  revert v. induction ks as [| j ks IH]; intros v Hv Hf; cbn [foldl].
  { split; [done |]. split; [done |]. intros i Hi. by rewrite decide_False by apply not_elem_of_nil. }
  apply Forall_cons in Hf as [Hj Hf].
  assert (LOGSIZE = 30) as HL by done.
  assert (Z.of_nat (length v) = 1024) as Hlen by (destruct Hv as [-> _]; done).
  set (v1 := put32 v (4 + 4 * j) (default 0 (zget l j))).
  assert (is_block v1) as Hv1.
  { apply is_block_put; [done | lia |]. unfold BSIZE. lia. }
  destruct (IH v1 Hv1 Hf) as (H1 & H2 & H3). split; [done |]. split.
  - rewrite H2. unfold v1, get32, put32. apply get_put_ne; lia.
  - intros i Hi. rewrite H3 by done. destruct (decide (i ∈ ks)) as [Hin | Hin].
    + rewrite decide_True by (by right). done.
    + unfold v1, get32, put32. destruct (Z.eq_dec i j) as [-> | Hne].
      * rewrite decide_True by left. by rewrite get_put_eq by lia.
      * rewrite decide_False by (rewrite elem_of_cons; tauto). apply get_put_ne; lia.
Qed.

Lemma put_hdr_ok v n l :
  is_block v → 0 <= n <= LOGSIZE →
  is_block (put_hdr v n l) ∧ hdr_n (put_hdr v n l) = n ∧
  ∀ i, 0 <= i < n → hdr_block (put_hdr v n l) i = i32 (u32 (default 0 (zget l i))).
Proof.
  intros Hv Hn. unfold put_hdr, hdr_n, hdr_block. assert (LOGSIZE = 30) as HL by done.
  assert (Z.of_nat (length v) = 1024) as Hlen by (destruct Hv as [-> _]; done).
  destruct (put_hdr_fold (put32 v 0 n) l (seqZ 0 n)) as (H1 & H2 & H3).
  { apply is_block_put; [done | lia |]. unfold BSIZE. lia. }
  { apply Forall_seqZ. lia. }
  split; [done |]. split.
  - rewrite H2. unfold get32, put32. rewrite get_put_eq by lia.
    unfold i32. rewrite Z.mod_small by lia. apply signed_small; lia.
  - intros i Hi. rewrite H3 by lia. rewrite decide_True by (apply elem_of_seqZ; lia). done.
Qed.

Section crash.
Context (mypid : Z).

(** The state is idle and its disk and contents are those of [s] after [ws]. *)
Record after (s : bcache) (ws : list (Z * block)) (s' : bcache) : Prop := {
  af_idle : idle s';
  af_dsk : dsk s' = dwrites (dsk s) ws;
  af_view : ∀ c, view s' c = overlay (view s) ws c;
  af_spare : ∀ k, spare s k → spare s' k }.

Lemma after_app s ws s1 ws' s2 : after s ws s1 → after s1 ws' s2 → after s (ws ++ ws') s2.
Proof.
  intros [I1 D1 V1 P1] [I2 D2 V2 P2]. constructor; [done | | | auto].
  - by rewrite D2, D1, dwrites_app.
  - intros c. rewrite V2, overlay_app. apply overlay_ext, V1.
Qed.

Lemma after_one s s' c v :
  stepped s s' → dsk s' = dwrite (dsk s) c v →
  (∀ x, view s' x = if x =? c then v else view s x) → after s [(c, v)] s'.
Proof.
  intros Hst Hd V. constructor; [apply Hst | done | done |].
  intros k. by apply spare_stepped.
Qed.

Lemma after_nil s s' :
  stepped s s' → dsk s' = dsk s → (∀ x, view s' x = view s x) → after s [] s'.
Proof.
  intros Hst Hd V. constructor; [apply Hst | done | done |].
  intros k. by apply spare_stepped.
Qed.

(** ** write_log *)

Definition log_writes (l : log) (V : Z → block) (ts : list Z) : list (Z * block) :=
  map (λ t, (start l + t + 1, V (lh_at l t))) ts.

Lemma write_log_loop l ts s h w n :
  ldev l = ROOTDEV → idle s → spare s 1 → bio_free h →
  (∀ t, t ∈ ts → pinned s (lh_at l t)) →
  (∀ t t', t ∈ ts → t' ∈ ts → lh_at l t ≠ start l + t' + 1) →
  ∃ s' w',
    for_each ts (λ tail,
      l <- gets lg ;;
      to <- lbread mypid (ldev l) (start l + tail + 1) ;;
      from <- lbread mypid (ldev l) (lh_at l tail) ;;
      v <- lift bcL (bdata from) ;;
      lift bcL (bstore to v) ;;
      lbwrite mypid to ;;
      lbrelse mypid from ;;
      lbrelse mypid to) (LState l s) (Ctx h w n) = Ok tt (LState l s') (Ctx h w' n) ∧
    stepped s s' ∧ after s (log_writes l (view s) ts) s'.
Proof.
  intros Hdev. revert s w. induction ts as [| t ts IH]; intros s w Hid Hsp Hf Hpin Hsep.
  { exists s, w. split; [done |]. split; [by apply stepped_refl |]. apply after_nil; [by apply stepped_refl | done | done]. }
  cbn [for_each].
  destruct (write_log_turn mypid l s (start l + t + 1) (lh_at l t) h w n) as (s1 & w1 & E1 & Hst1 & D1 & V1);
    [done | | done | | done |].
  { intros E. apply (Hsep t t); [left | left |]. done. }
  { apply Hpin. left. }
  destruct (IH s1 w1) as (s2 & w2 & E2 & Hst2 & Ha2);
    [apply Hst1 | by apply (spare_stepped s) | done | | |].
  { intros t' Ht'. apply Hst1, Hpin. by right. }
  { intros t1 t2 H1 H2. apply Hsep; by right. }
  exists s2, w2. split; [| split; [by apply (stepped_trans s s1) |]].
  - erewrite bind_ok; [exact E2 |]. cbn [bind gets obind lg]. unfold bind at 1. cbn [gets obind].
    rewrite Hdev. exact E1.
  - change (log_writes l (view s) (t :: ts)) with ([(start l + t + 1, view s (lh_at l t))] ++ log_writes l (view s) ts).
    apply (after_app s _ s1); [by apply after_one |].
    replace (log_writes l (view s) ts) with (log_writes l (view s1) ts); [done |].
    apply map_ext_in. intros t' Ht'. rewrite V1. apply list_elem_of_In in Ht'.
    destruct (Z.eqb_spec (lh_at l t') (start l + t + 1)) as [E |]; [| done].
    by destruct (Hsep t' t (list_elem_of_further _ _ _ Ht') (list_elem_of_here _ _)).
Qed.

(** ** install_trans *)

Definition inst_writes (l : log) (V : Z → block) (ts : list Z) : list (Z * block) :=
  map (λ t, (lh_at l t, V (start l + t + 1))) ts.

Lemma install_loop l ts s (recovering : bool) h w n :
  ldev l = ROOTDEV → idle s → spare s 1 → bio_free h →
  (if recovering then spare s 2
   else (∀ t, t ∈ ts → pinned s (lh_at l t)) ∧ NoDup (map (lh_at l) ts)) →
  (∀ t t', t ∈ ts → t' ∈ ts → lh_at l t ≠ start l + t' + 1) →
  ∃ s' w',
    for_each ts (λ tail,
      l <- gets lg ;;
      lbuf <- lbread mypid (ldev l) (start l + tail + 1) ;;
      dbuf <- lbread mypid (ldev l) (lh_at l tail) ;;
      v <- lift bcL (bdata lbuf) ;;
      lift bcL (bstore dbuf v) ;;
      lbwrite mypid dbuf ;;
      when (negb recovering) (lift bcL (bunpin dbuf)) ;;
      lbrelse mypid lbuf ;;
      lbrelse mypid dbuf) (LState l s) (Ctx h w n) = Ok tt (LState l s') (Ctx h w' n) ∧
    after s (inst_writes l (view s) ts) s'.
Proof.
  intros Hdev. revert s w. induction ts as [| t ts IH]; intros s w Hid Hsp Hf Hmode Hsep.
  { exists s, w. split; [done |]. apply after_nil; [by apply stepped_refl | done | done]. }
  cbn [for_each].
  destruct (install_turn mypid l s (lh_at l t) (start l + t + 1) recovering h w n)
    as (s1 & w1 & E1 & Hid1 & Hsp1 & Hpin1 & D1 & V1); [done | | done | | done |].
  { intros E. apply (Hsep t t); [left | left |]. done. }
  { destruct recovering; [done |]. apply Hmode. left. }
  destruct (IH s1 w1) as (s2 & w2 & E2 & Ha2); [done | by apply Hsp1 | done | | |].
  { destruct recovering; [by apply Hsp1 |]. destruct Hmode as [Hp Hnd]. simpl in Hnd.
    apply NoDup_cons in Hnd as [Hn Hnd]. split; [| done]. intros t' Ht'. apply Hpin1; [apply Hp; by right |].
    right. intros E. apply Hn. rewrite <- E. apply list_elem_of_fmap. by exists t'. }
  { intros t1 t2 H1 H2. apply Hsep; by right. }
  exists s2, w2. split.
  - erewrite bind_ok; [exact E2 |]. unfold bind at 1. cbn [gets obind lg]. rewrite Hdev. exact E1.
  - change (inst_writes l (view s) (t :: ts)) with ([(lh_at l t, view s (start l + t + 1))] ++ inst_writes l (view s) ts).
    apply (after_app s _ s1); [by constructor |].
    replace (inst_writes l (view s) ts) with (inst_writes l (view s1) ts); [done |].
    apply map_ext_in. intros t' Ht'. rewrite V1. apply list_elem_of_In in Ht'.
    destruct (Z.eqb_spec (start l + t' + 1) (lh_at l t)) as [E |]; [| done].
    by destruct (Hsep t t' (list_elem_of_here _ _) (list_elem_of_further _ _ _ Ht')).
Qed.

(** ** The header *)

Lemma write_head_ok l s h w n :
  ldev l = ROOTDEV → idle s → spare s 1 → bio_free h → 0 <= lh_n l <= LOGSIZE →
  ∃ s' w', write_head mypid (LState l s) (Ctx h w n) = Ok tt (LState l s') (Ctx h w' n) ∧
    stepped s s' ∧ after s [(start l, put_hdr (view s (start l)) (lh_n l) (lh_block l))] s'.
Proof.
  intros Hdev Hid Hsp Hf Hn. destruct (id_ok _ Hid) as [order Hok].
  destruct (write_turn mypid l s (start l) (λ v, put_hdr v (lh_n l) (lh_block l)) h w n)
    as (s' & w' & E & Hst & D & V); [done | done | done | |].
  { apply put_hdr_ok; [by apply (view_block s order) | done]. }
  exists s', w'. split; [| split; [done | by apply after_one]].
  unfold write_head. kstep. cbn [lg]. rewrite Hdev. exact E.
Qed.

(** ** commit *)

(** A transaction ready to commit: its blocks are distinct, outside the log
    area, and pinned in the cache; and nothing else is pinned. *)
Record txn_ok (l : log) (s : bcache) : Prop := {
  tx_dev : ldev l = ROOTDEV;
  tx_n : 0 <= lh_n l <= LOGSIZE ∧ lh_n l < size l;
  tx_block : ∀ t, 0 <= t < lh_n l →
     0 <= lh_at l t < 2 ^ 31 ∧ ¬ (start l <= lh_at l t < start l + size l);
  tx_nodup : NoDup (map (lh_at l) (seqZ 0 (lh_n l)));
  tx_pin : ∀ t, 0 <= t < lh_n l → pinned s (lh_at l t);
  tx_only : ∀ i, 0 <= i < NBUF → refcnt (getb s i) ≠ 0 →
     ∃ t, 0 <= t < lh_n l ∧ caches s i (lh_at l t) }.

(** The block writes of [commit], in order, [V] being the cached contents. *)
Definition header1 (l : log) (V : Z → block) : block :=
  put_hdr (V (start l)) (lh_n l) (lh_block l).

Definition home_writes (l : log) (V : Z → block) : list (Z * block) :=
  map (λ t, (lh_at l t, V (lh_at l t))) (seqZ 0 (lh_n l)).

Definition commit_writes (l : log) (V : Z → block) : list (Z * block) :=
  log_writes l V (seqZ 0 (lh_n l)) ++ [(start l, header1 l V)] ++
  home_writes l V ++ [(start l, put_hdr (header1 l V) 0 (lh_block l))].

Lemma log_writes_keys l V ts : (log_writes l V ts).*1 = map (λ t, start l + t + 1) ts.
Proof. unfold log_writes. induction ts as [| t ts IH]; [done |]. simpl. f_equal. exact IH. Qed.

Lemma home_writes_keys l V : (home_writes l V).*1 = map (lh_at l) (seqZ 0 (lh_n l)).
Proof.
  unfold home_writes. induction (seqZ 0 (lh_n l)) as [| t ts IH]; [done |]. simpl. f_equal. exact IH.
Qed.

Lemma log_keys_NoDup l n : NoDup (map (λ t, start l + t + 1) (seqZ 0 n)).
Proof. apply NoDup_fmap_2; [intros x y; lia | apply NoDup_seqZ]. Qed.

Lemma log_key_range l n c : c ∈ map (λ t, start l + t + 1) (seqZ 0 n) → start l < c <= start l + n.
Proof. intros H. apply list_elem_of_fmap in H as (t & -> & Ht). apply elem_of_seqZ in Ht. lia. Qed.

(** The log blocks hold the transaction once they and the header are written. *)
Lemma log_overlay l V t :
  0 <= t < lh_n l →
  overlay (overlay V (log_writes l V (seqZ 0 (lh_n l)))) [(start l, header1 l V)] (start l + t + 1) =
  V (lh_at l t).
Proof.
  intros Ht. rewrite overlay_out.
  - apply overlay_in; [rewrite log_writes_keys; apply log_keys_NoDup |].
    apply list_elem_of_fmap. exists t. split; [done |]. apply elem_of_seqZ. lia.
  - simpl. rewrite list_elem_of_singleton. lia.
Qed.

Lemma tx_sep l s t t' :
  txn_ok l s → t ∈ seqZ 0 (lh_n l) → t' ∈ seqZ 0 (lh_n l) → lh_at l t ≠ start l + t' + 1.
Proof.
  intros H Ht Ht' E. apply elem_of_seqZ in Ht, Ht'.
  destruct (tx_block _ _ H t) as [_ Hn]; [lia |]. destruct (tx_n _ _ H) as [_ Hs]. lia.
Qed.

Lemma commit_ok l s h w n :
  txn_ok l s → 0 < lh_n l → idle s → spare s 1 → bio_free h →
  ∃ s' w', commit mypid (LState l s) (Ctx h w n) = Ok tt (LState (set_lh_n 0 l) s') (Ctx h w' n) ∧
    after s (commit_writes l (view s)) s'.
Proof.
  intros Htx Hn0 Hid Hsp Hf. pose proof (tx_dev _ _ Htx) as Hdev. pose proof (tx_n _ _ Htx) as [Hn Hsz].
  set (ts := seqZ 0 (lh_n l)).
  assert (∀ t t', t ∈ ts → t' ∈ ts → lh_at l t ≠ start l + t' + 1) as Hsep by (intros; by apply (tx_sep l s)).
  destruct (write_log_loop l ts s h w n) as (s1 & w1 & E1 & Hst1 & A1); try done.
  { intros t Ht. apply elem_of_seqZ in Ht. apply (tx_pin _ _ Htx). lia. }
  destruct (write_head_ok l s1 h w1 n) as (s2 & w2 & E2 & Hst2 & A2);
    [done | apply A1 | by apply A1 | done | done |].
  assert (view s1 (start l) = view s (start l)) as Hv1.
  { rewrite (af_view _ _ _ A1). apply overlay_out. rewrite log_writes_keys. intros H.
    apply log_key_range in H. lia. }
  rewrite Hv1 in A2. fold (header1 l (view s)) in A2.
  pose proof (after_app _ _ _ _ _ A1 A2) as A12.
  destruct (install_loop l ts s2 false h w2 n) as (s3 & w3 & E3 & A3);
    [done | apply A2 | by apply A12 | done | | done |].
  { split; [| apply (tx_nodup _ _ Htx)]. intros t Ht. apply elem_of_seqZ in Ht.
    apply (at_pin _ _ _ Hst2), (at_pin _ _ _ Hst1), (tx_pin _ _ Htx). lia. }
  assert (inst_writes l (view s2) ts = home_writes l (view s)) as Hw.
  { apply map_ext_in. intros t Ht. apply list_elem_of_In, elem_of_seqZ in Ht. f_equal.
    rewrite (af_view _ _ _ A12), overlay_app. apply log_overlay. lia. }
  rewrite Hw in A3. pose proof (after_app _ _ _ _ _ A12 A3) as A123.
  destruct (write_head_ok (set_lh_n 0 l) s3 h w3 n) as (s4 & w4 & E4 & Hst4 & A4);
    [done | apply A3 | by apply A123 | done | cbn; lia |].
  cbn [start set_lh_n lh_n lh_block] in A4.
  assert (view s3 (start l) = header1 l (view s)) as Hv3.
  { rewrite (af_view _ _ _ A3), overlay_out.
    - rewrite (af_view _ _ _ A2). simpl. by rewrite Z.eqb_refl.
    - rewrite home_writes_keys. intros H. apply list_elem_of_fmap in H as (t & Et & Ht).
      apply elem_of_seqZ in Ht. destruct (tx_block _ _ Htx t) as [_ Hb]; lia. }
  rewrite Hv3 in A4. exists s4, w4. split.
  - unfold commit. kstep. cbn [lg lh_n]. destruct (Z.ltb_spec 0 (lh_n l)); [| lia]. cbn [when].
    assert (write_log mypid (LState l s) (Ctx h w n) = Ok tt (LState l s1) (Ctx h w1 n)) as EW by exact E1.
    assert (install_trans mypid false (LState l s2) (Ctx h w2 n) = Ok tt (LState l s3) (Ctx h w3 n))
      as EI by exact E3.
    kstep EW. kstep E2. kstep EI. unfold updl. kstep. cbn [lg bc]. exact E4.
  - unfold commit_writes. pose proof (after_app _ _ _ _ _ A123 A4) as A. rewrite <- !app_assoc in A.
    exact A.
Qed.

(** ** Recovery *)

Lemma set_lh_loop (f : Z → Z) ks l b x :
  length (lh_block l) = 30%nat → Forall (λ i, 0 <= i < LOGSIZE) ks →
  ∃ bl, for_each ks (λ i, set_lh i (f i)) (LState l b) x = Ok tt (LState (set_lh_block bl l) b) x ∧
    length bl = 30%nat ∧
    ∀ i, 0 <= i < LOGSIZE → zget bl i = if decide (i ∈ ks) then Some (f i) else zget (lh_block l) i.
Proof.
  assert (LOGSIZE = 30) as HL by done.
  revert l. induction ks as [| j ks IH]; intros l Hl Hf.
  { exists (lh_block l). split; [by destruct l |]. split; [done |]. intros i _.
    by rewrite decide_False by apply not_elem_of_nil. }
  apply Forall_cons in Hf as [Hj Hf]. cbn [for_each].
  set (l1 := set_lh_block (zset (lh_block l) j (f j)) l).
  assert (set_lh j (f j) (LState l b) x = Ok tt (LState l1 b) x) as E1.
  { unfold set_lh. kstep. cbn [lg]. rewrite Hl.
    destruct (Z.leb_spec 0 j), (Z.ltb_spec j (Z.of_nat 30)); try lia. done. }
  destruct (IH l1) as (bl & E2 & Hbl & Hg); [cbn; by rewrite length_zset | done |].
  exists bl. split; [by rewrite (bind_ok _ _ _ _ _ _ _ E1) |]. split; [done |].
  intros i Hi. rewrite Hg by done. destruct (decide (i ∈ ks)).
  - by rewrite decide_True by (by right).
  - cbn [lh_block l1 set_lh_block]. rewrite zget_zset by (rewrite Hl; lia).
    destruct (Z.eqb_spec j i) as [-> |].
    + by rewrite decide_True by left.
    + by rewrite decide_False by (rewrite elem_of_cons; naive_solver).
Qed.

Lemma read_head_ok l s h w n :
  ldev l = ROOTDEV → length (lh_block l) = 30%nat → idle s → spare s 1 → bio_free h →
  let v := view s (start l) in
  0 <= hdr_n v <= LOGSIZE →
  ∃ s' bl w', read_head mypid (LState l s) (Ctx h w n) =
      Ok tt (LState (set_lh_block bl (set_lh_n (hdr_n v) l)) s') (Ctx h w' n) ∧
    length bl = 30%nat ∧ (∀ i, 0 <= i < hdr_n v → zget bl i = Some (hdr_block v i)) ∧ after s [] s'.
Proof.
  intros Hdev Hl Hid Hsp Hf v Hn.
  destruct (read_turn mypid s (start l) h w n Hid Hsp Hf) as (i & s1 & s' & w' & E1 & E2 & E3 & Hst & D & V).
  destruct (set_lh_loop (hdr_block v) (seqZ 0 (hdr_n v)) (set_lh_n (hdr_n v) l) s1 (Ctx h w n))
    as (bl & E4 & Hbl & Hg); [done | apply Forall_seqZ; lia |].
  exists s', bl, w'. split; [| split; [done | split]].
  - unfold read_head. kstep. cbn [lg]. rewrite Hdev.
    kstep (lift_bc _ l _ _ _ _ _ E1). kstep (lift_bc _ l _ _ _ _ _ E2). fold v.
    unfold updl. kstep. cbn [lg bc]. kstep E4. exact (lift_bc _ _ _ _ _ _ _ E3).
  - intros k Hk. rewrite Hg by lia. by rewrite decide_True by (apply elem_of_seqZ; lia).
  - by apply after_nil.
Qed.

(** The writes of recovery from the contents [V] with the log at [L]. *)
Definition recover_writes (L : Z) (V : Z → block) : list (Z * block) :=
  map (λ t, (hdr_block (V L) t, V (L + t + 1))) (seqZ 0 (hdr_n (V L))).

Lemma recover_ok l s h w n :
  ldev l = ROOTDEV → length (lh_block l) = 30%nat → idle s → spare s 1 → spare s 2 → bio_free h →
  let L := start l in let v := view s L in
  0 <= hdr_n v <= LOGSIZE →
  (∀ t, 0 <= t < hdr_n v → ¬ (L <= hdr_block v t <= L + hdr_n v)) →
  ∃ bl s' w', let h0 := put32 (overlay (view s) (recover_writes L (view s)) L) 0 0 in
    recover_from_log mypid (LState l s) (Ctx h w n) = Ok tt (LState (set_lh_block bl (set_lh_n 0 l)) s') (Ctx h w' n) ∧
    length bl = 30%nat ∧ after s (recover_writes L (view s) ++ [(L, h0)]) s' ∧ hdr_n h0 = 0.
Proof.
  intros Hdev Hl Hid Hsp Hsp2 Hf L v Hn Hsep.
  destruct (read_head_ok l s h w n Hdev Hl Hid Hsp Hf Hn) as (s1 & bl & w1 & E1 & Hbl & Hg & A1).
  fold L in E1, Hg. fold v in E1, Hg. set (l1 := set_lh_block bl (set_lh_n (hdr_n v) l)) in *.
  assert (∀ t, 0 <= t < hdr_n v → lh_at l1 t = hdr_block v t) as Hat.
  { intros t Ht. unfold lh_at, l1. cbn [lh_block set_lh_block]. by rewrite Hg. }
  destruct (install_loop l1 (seqZ 0 (hdr_n v)) s1 true h w1 n) as (s2 & w2 & E2 & A2);
    [done | apply A1 | by apply A1 | done | by apply A1 | |].
  { intros t t' Ht Ht'. apply elem_of_seqZ in Ht, Ht'. rewrite Hat by lia.
    specialize (Hsep t ltac:(lia)). cbn [start l1 set_lh_block set_lh_n]. fold L. lia. }
  assert (inst_writes l1 (view s1) (seqZ 0 (hdr_n v)) = recover_writes L (view s)) as Hw.
  { apply map_ext_in. intros t Ht. apply list_elem_of_In, elem_of_seqZ in Ht.
    fold v in Ht. rewrite Hat by lia. by rewrite (af_view _ _ _ A1). }
  rewrite Hw in A2. pose proof (after_app _ _ _ _ _ A1 A2) as A12. simpl in A12.
  destruct (write_head_ok (set_lh_n 0 l1) s2 h w2 n) as (s3 & w3 & E3 & _ & A3);
    [done | apply A2 | by apply A12 | done | cbn; lia |].
  assert (put_hdr (view s2 (start (set_lh_n 0 l1))) (lh_n (set_lh_n 0 l1)) (lh_block (set_lh_n 0 l1)) =
    put32 (overlay (view s) (recover_writes L (view s)) L) 0 0) as Eh by (unfold put_hdr; cbn; by rewrite (af_view _ _ _ A12)).
  exists bl, s3, w3. rewrite <- Eh. split; [| split; [done | split; [exact (after_app _ _ _ _ _ A12 A3) |]]].
  - unfold recover_from_log. kstep E1.
    assert (install_trans mypid true (LState l1 s1) (Ctx h w1 n) = Ok tt (LState l1 s2) (Ctx h w2 n))
      as EI by exact E2.
    kstep EI. unfold updl. kstep. cbn [lg bc]. exact E3.
  - destruct (id_ok _ (af_idle _ _ _ A2)) as [order Hok].
    apply put_hdr_ok; [by apply (view_block s2 order) | cbn; lia].
Qed.

(** ** A crash in the middle of a commit *)

Lemma prefix_app_split {A} (p a b : list A) :
  p `prefix_of` a ++ b → p `prefix_of` a ∨ ∃ q, p = a ++ q ∧ q `prefix_of` b.
Proof.
  revert p. induction a as [| x a IH]; intros p H; simpl in H; [right; by exists p |].
  destruct p as [| y p]; [left; apply prefix_nil |].
  pose proof (prefix_cons_inv_1 _ _ _ _ H) as ->. apply prefix_cons_inv_2 in H.
  destruct (IH p H) as [H' | (q & -> & Hq)]; [left; by apply prefix_cons | right; by exists q].
Qed.

Lemma prefix_keys (p ws : list (Z * block)) c : p `prefix_of` ws → c ∈ p.*1 → c ∈ ws.*1.
Proof. intros [k ->]. rewrite fmap_app, elem_of_app. tauto. Qed.

Section prefix.
Context (l : log) (s : bcache) (Htx : txn_ok l s).
Let V := view s.
Let D0 := dread (dsk s).
Let L := start l.
Context (Hhdr : hdr_n (D0 L) = 0) (HV : is_block (V L)).
Context (Hclean : ∀ c, c ∉ map (lh_at l) (seqZ 0 (lh_n l)) → V c = D0 c ∨ L <= c < L + size l).

(** What recovery leaves outside the log area, from the disk after [p]. *)
Definition recovered (p : list (Z * block)) (c : Z) : block :=
  overlay (overlay D0 p) (recover_writes L (overlay D0 p)) c.

Lemma home_key_outside c : c ∈ (home_writes l V).*1 → ¬ (L <= c < L + size l).
Proof.
  rewrite home_writes_keys. intros H. apply list_elem_of_fmap in H as (t & -> & Ht).
  apply elem_of_seqZ in Ht. apply (tx_block _ _ Htx). lia.
Qed.

Lemma log_key_inside c : c ∈ (log_writes l V (seqZ 0 (lh_n l))).*1 → L < c < L + size l.
Proof.
  rewrite log_writes_keys. intros H. apply log_key_range in H.
  destruct (tx_n _ _ Htx) as [_ Hs]. unfold L. lia.
Qed.

(** Writing the blocks of the transaction home gives the cached contents. *)
Lemma home_overlay X c :
  (∀ c, c ∉ (home_writes l V).*1 → ¬ (L <= c < L + size l) → X c = D0 c) → ¬ (L <= c < L + size l) →
  overlay X (home_writes l V) c = V c.
Proof.
  intros HX Hc. destruct (decide (c ∈ (home_writes l V).*1)) as [Hin | Hout].
  - apply overlay_in; [rewrite home_writes_keys; apply (tx_nodup _ _ Htx) |].
    rewrite home_writes_keys in Hin. apply list_elem_of_fmap in Hin as (t & -> & Ht).
    apply list_elem_of_fmap. by exists t.
  - rewrite overlay_out, HX by done. rewrite home_writes_keys in Hout.
    destruct (Hclean c Hout); [done | tauto].
Qed.

(** Before the header is written the transaction never happened. *)
Lemma recovered_before p c :
  p `prefix_of` log_writes l V (seqZ 0 (lh_n l)) → ¬ (L <= c < L + size l) →
  hdr_n (overlay D0 p L) = 0 ∧ recovered p c = D0 c.
Proof.
  intros Hp Hc. destruct (tx_n _ _ Htx) as [Hn Hs].
  assert (∀ x, ¬ (L < x < L + size l) → overlay D0 p x = D0 x) as Ho.
  { intros x Hx. apply overlay_out. intros H. by apply (prefix_keys _ _ _ Hp), log_key_inside in H. }
  assert (overlay D0 p L = D0 L) as HL by (apply Ho; lia).
  split; [by rewrite HL |]. unfold recovered, recover_writes. rewrite HL, Hhdr. simpl. apply Ho. lia.
Qed.

(** Once it is written, recovery completes the transaction. *)
Lemma recovered_after q c :
  let p := log_writes l V (seqZ 0 (lh_n l)) ++ [(L, header1 l V)] ++ q in
  q `prefix_of` home_writes l V → ¬ (L <= c < L + size l) →
  hdr_n (overlay D0 p L) = lh_n l ∧
  (∀ t, 0 <= t < lh_n l → hdr_block (overlay D0 p L) t = lh_at l t) ∧ recovered p c = V c.
Proof.
  intros p Hq Hc. destruct (tx_n _ _ Htx) as [Hn Hs].
  assert (∀ x, L <= x < L + size l → overlay D0 p x =
            overlay (overlay D0 (log_writes l V (seqZ 0 (lh_n l)))) [(L, header1 l V)] x) as Hin.
  { intros x Hx. unfold p. rewrite !overlay_app. apply overlay_out. intros H.
    by apply (prefix_keys _ _ _ Hq), home_key_outside in H. }
  assert (overlay D0 p L = header1 l V) as HL.
  { rewrite Hin by lia. simpl. by rewrite Z.eqb_refl. }
  destruct (put_hdr_ok (V L) (lh_n l) (lh_block l) HV Hn) as (_ & H1 & H2).
  assert (∀ t, 0 <= t < lh_n l → hdr_block (overlay D0 p L) t = lh_at l t) as Hblk.
  { intros t Ht. rewrite HL. unfold header1. fold L. rewrite H2 by done. unfold lh_at.
    destruct (tx_block _ _ Htx t Ht) as [Hr _]. unfold lh_at in Hr.
    unfold i32. rewrite u32_small, signed_small by lia. done. }
  assert (hdr_n (overlay D0 p L) = lh_n l) as Hnn by (by rewrite HL).
  split; [done |]. split; [done |]. unfold recovered.
  assert (recover_writes L (overlay D0 p) = home_writes l V) as ->.
  { unfold recover_writes, home_writes. rewrite Hnn.
    apply map_ext_in. intros t Ht. apply list_elem_of_In, elem_of_seqZ in Ht.
    rewrite Hblk by lia. f_equal. rewrite Hin by lia.
    transitivity (overlay (overlay V (log_writes l V (seqZ 0 (lh_n l)))) [(start l, header1 l V)] (start l + t + 1));
      [| apply log_overlay; lia].
    rewrite !(overlay_out _ [(L, header1 l V)]) by (simpl; rewrite list_elem_of_singleton; lia).
    rewrite !(overlay_in _ (log_writes l V (seqZ 0 (lh_n l))) _ (V (lh_at l t))); try done;
      try (rewrite log_writes_keys; apply log_keys_NoDup);
      (apply list_elem_of_fmap; exists t; split; [done |]; apply elem_of_seqZ; lia). }
  apply home_overlay; [| done]. intros x Hx Hxl. unfold p. rewrite !overlay_app.
  rewrite overlay_out by (intros H; by apply (prefix_keys _ _ _ Hq) in H).
  rewrite overlay_out by (simpl; rewrite list_elem_of_singleton; lia).
  apply overlay_out. intros H. apply log_key_inside in H. lia.
Qed.

(** And after the log is erased there is nothing left to do. *)
Lemma recovered_done c :
  ¬ (L <= c < L + size l) →
  hdr_n (overlay D0 (commit_writes l V) L) = 0 ∧ recovered (commit_writes l V) c = V c.
Proof.
  intros Hc. destruct (tx_n _ _ Htx) as [Hn Hs].
  destruct (put_hdr_ok (V L) (lh_n l) (lh_block l) HV Hn) as (Hb1 & _).
  destruct (put_hdr_ok (header1 l V) 0 (lh_block l) Hb1) as (_ & H0 & _); [unfold LOGSIZE, MAXOPBLOCKS; lia |].
  assert (overlay D0 (commit_writes l V) L = put_hdr (header1 l V) 0 (lh_block l)) as HL.
  { unfold commit_writes. rewrite !app_assoc, overlay_app. simpl. by rewrite Z.eqb_refl. }
  split; [by rewrite HL |]. unfold recovered, recover_writes. rewrite HL, H0. simpl.
  unfold commit_writes. rewrite !overlay_app.
  rewrite overlay_out by (simpl; rewrite list_elem_of_singleton; lia).
  apply home_overlay; [| done]. intros x Hx Hxl.
  rewrite overlay_out by (simpl; rewrite list_elem_of_singleton; lia).
  apply overlay_out. intros H. apply log_key_inside in H. lia.
Qed.
End prefix.

Lemma boot_ok d h w n :
  (∀ b, is_block (dread d b)) →
  ∃ s, binit (bcache0 d) (Ctx h w n) = Ok tt s (Ctx h w n) ∧
    idle s ∧ spare s 1 ∧ spare s 2 ∧ dsk s = d ∧ (∀ c, view s c = dread d c) ∧
    ∀ i, 0 <= i < NBUF → refcnt (getb s i) = 0.
Proof.
  intros Hd. destruct (binit_lru d h w n) as (s & E & Hlru & Hl & Hdsk & Hb). exists s. split; [done |].
  clear E. assert (∀ i, 0 <= i < NBUF → valid (getb s i) = false ∧ dev (getb s i) = 0 ∧
            refcnt (getb s i) = 0 ∧ lock (getb s i) = initsleeplock) as F.
  { intros i Hi. destruct (Hb i Hi) as (p & q & ->). repeat split. }
  assert (NBUF = 30) as HN by done.
  split; [constructor | split; [| split; [| split; [done | split]]]].
  - exists (rev (seqZ 0 NBUF)). constructor; [exact Hl | exact Hlru | clear Hl Hlru Hb ..].
    + intros i j c (Hi & Di & _). destruct (F i Hi) as (_ & Hz & _). by rewrite Hz in Di.
    + intros i Hi. destruct (F i Hi) as (_ & _ & -> & _). lia.
    + intros i Hi. destruct (F i Hi) as (_ & _ & _ & ->). done.
    + intros i Hi. destruct (F i Hi) as (-> & _). done.
    + intros i Hi. destruct (F i Hi) as (-> & _). done.
    + intros i Hi _. destruct (F i Hi) as (-> & _). done.
    + intros b. by rewrite Hdsk.
  - intros i Hi. destruct (F i Hi) as (_ & _ & _ & ->). done.
  - intros i Hi. destruct (F i Hi) as (_ & _ & -> & _). lia.
  - exists [0]. split; [apply NoDup_singleton |]. split; [done |]. intros i Hi.
    apply list_elem_of_singleton in Hi as ->. split; [lia |]. by destruct (F 0 ltac:(lia)) as (_ & _ & -> & _).
  - exists [0; 1]. split; [apply (bool_decide_unpack _); exact I |]. split; [done |]. intros i Hi.
    assert (0 <= i < NBUF) as Hr.
    { apply elem_of_cons in Hi as [-> | Hi]; [lia |]. apply list_elem_of_singleton in Hi as ->. lia. }
    split; [done |]. by destruct (F i Hr) as (_ & _ & -> & _).
  - intros c. rewrite view_uncached, Hdsk; [done |]. intros i (Hi & _). by destruct (F i Hi) as (-> & _).
  - intros i Hi. by destruct (F i Hi) as (_ & _ & -> & _).
Qed.

(** Outside the transaction the cache agrees with the disk. *)
Lemma txn_clean l s c :
  txn_ok l s → idle s → c ∉ map (lh_at l) (seqZ 0 (lh_n l)) → view s c = dread (dsk s) c.
Proof.
  intros Htx Hid Hc. destruct (id_ok _ Hid) as [order Hok].
  destruct (view_cases s c) as [(j & (Hj & Hd & Hb) & Hv & ->) | [_ ->]]; [| done].
  rewrite <- Hb. apply (bc_clean _ _ Hok); [done | | done].
  destruct (Z.eq_dec (refcnt (getb s j)) 0) as [| Hr]; [done |].
  destruct (tx_only _ _ Htx j Hj Hr) as (t & Ht & _ & _ & Et). destruct Hc.
  apply list_elem_of_fmap. exists t. split; [congruence |]. apply elem_of_seqZ. lia.
Qed.

(** Booting on the disk [d]: [binit] and [initlog]. *)
Lemma boot_recover d L sz h n :
  (∀ b, is_block (dread d b)) → bio_free h → 0 <= hdr_n (dread d L) <= LOGSIZE →
  (∀ t, 0 <= t < hdr_n (dread d L) → ¬ (L <= hdr_block (dread d L) t <= L + hdr_n (dread d L))) →
  ∃ s0 l1 s1 w1,
    binit (bcache0 d) (Ctx h [] n) = Ok tt s0 (Ctx h [] n) ∧
    initlog mypid ROOTDEV L sz (LState log0 s0) (Ctx h [] n) = Ok tt (LState l1 s1) (Ctx h w1 n) ∧
    hdr_n (dread (dsk s1) L) = 0 ∧
    ∀ c, c ≠ L → dread (dsk s1) c = overlay (dread d) (recover_writes L (dread d)) c.
Proof.
  intros Hd Hf Hn Hsep. destruct (boot_ok d h [] n Hd) as (s0 & E0 & Hid & Hs1 & Hs2 & Hdsk & V0 & _).
  set (boot := binit (bcache0 d) (Ctx h [] n)) in *. clearbody boot.
  set (l := Log L sz 0 false ROOTDEV 0 (replicate (Z.to_nat LOGSIZE) 0)).
  destruct (recover_ok l s0 h [] n) as (bl & s1 & w1 & E1 & _ & A1 & H0); try done.
  { cbn [start l]. by rewrite V0. }
  { cbn [start l]. by rewrite V0. }
  cbn [start l] in A1, H0. set (h0 := put32 _ 0 0) in *. eexists s0, _, s1, w1. split; [done |]. split; [| split].
  - unfold initlog. destruct (Z.leb_spec BSIZE (4 + 4 * LOGSIZE)) as [H | _];
      [unfold BSIZE, LOGSIZE, MAXOPBLOCKS in H; lia |]. unfold updl. kstep. exact E1.
  - rewrite (af_dsk _ _ _ A1), dread_dwrites, overlay_app. simpl. by rewrite Z.eqb_refl.
  - intros c Hc. rewrite (af_dsk _ _ _ A1), dread_dwrites, overlay_app.
    rewrite overlay_out by (simpl; by rewrite list_elem_of_singleton). rewrite Hdsk.
    f_equal. unfold recover_writes. rewrite V0. apply map_ext. intros t. by rewrite V0.
Qed.

Lemma overlay_blocks X ws c :
  (∀ c, is_block (X c)) → Forall (λ w, is_block w.2) ws → is_block (overlay X ws c).
Proof.
  revert X. induction ws as [| w ws IH]; intros X HX Hf; [apply HX |].
  apply Forall_cons in Hf as [Hw Hf]. simpl. apply IH; [| done]. intros c'. by destruct (c' =? w.1).
Qed.

Lemma commit_writes_blocks l V :
  (∀ c, is_block (V c)) → 0 <= lh_n l <= LOGSIZE → Forall (λ w, is_block w.2) (commit_writes l V).
Proof.
  intros HV Hn. destruct (put_hdr_ok (V (start l)) (lh_n l) (lh_block l) (HV _) Hn) as (Hb1 & _).
  destruct (put_hdr_ok (header1 l V) 0 (lh_block l) Hb1) as (Hb0 & _); [unfold LOGSIZE, MAXOPBLOCKS; lia |].
  unfold commit_writes, log_writes, home_writes.
  repeat (apply Forall_app; split); try (apply Forall_singleton; assumption);
    apply Forall_fmap, Forall_true; intros t; apply HV.
Qed.

(** A prefix of the commit's writes ends before the header, among the
    installs, or at the end. *)
Lemma commit_prefix_cases l V p :
  p `prefix_of` commit_writes l V →
  p `prefix_of` log_writes l V (seqZ 0 (lh_n l)) ∨
  (∃ q, p = log_writes l V (seqZ 0 (lh_n l)) ++ [(start l, header1 l V)] ++ q ∧ q `prefix_of` home_writes l V) ∨
  p = commit_writes l V.
Proof.
  unfold commit_writes. intros H. apply prefix_app_split in H as [H | (q & -> & H)]; [by left |].
  destruct q as [| x q]; [left; by rewrite app_nil_r |]. right.
  simpl in H. pose proof (prefix_cons_inv_1 _ _ _ _ H) as ->. apply prefix_cons_inv_2 in H.
  apply prefix_app_split in H as [H | (q' & -> & H)]; [left; by exists q |].
  destruct q' as [| y q']; [left; exists (home_writes l V); by rewrite app_nil_r |]. right.
  pose proof (prefix_cons_inv_1 _ _ _ _ H) as ->. apply prefix_cons_inv_2 in H.
  by apply prefix_nil_inv in H as ->.
Qed.

(** Rebooting on the disk left by [p]. *)
Lemma crash_boot l s p h n :
  txn_ok l s → idle s → bio_free h → p `prefix_of` commit_writes l (view s) →
  let v := overlay (dread (dsk s)) p (start l) in
  0 <= hdr_n v <= LOGSIZE → (∀ t, 0 <= t < hdr_n v → ¬ (start l <= hdr_block v t <= start l + hdr_n v)) →
  ∃ s0 l1 s1 w1,
    binit (bcache0 (dwrites (dsk s) p)) (Ctx h [] n) = Ok tt s0 (Ctx h [] n) ∧
    initlog mypid ROOTDEV (start l) (size l) (LState log0 s0) (Ctx h [] n) =
      Ok tt (LState l1 s1) (Ctx h w1 n) ∧
    hdr_n (dread (dsk s1) (start l)) = 0 ∧
    ∀ c, ¬ (start l <= c < start l + size l) → dread (dsk s1) c = recovered l s p c.
Proof.
  intros Htx Hid Hf Hp v Hn Hsep. destruct (id_ok _ Hid) as [order Hok]. destruct (tx_n _ _ Htx) as [Hn' Hs].
  set (D := dread (dwrites (dsk s) p)).
  assert (∀ c, D c = overlay (dread (dsk s)) p c) as HD by (intros; apply dread_dwrites).
  destruct (boot_recover (dwrites (dsk s) p) (start l) (size l) h n) as (s0 & l1 & s1 & w1 & E0 & E1 & H0 & Hc);
    [| done | by rewrite dread_dwrites | by rewrite dread_dwrites |].
  { intros c. rewrite dread_dwrites. apply overlay_blocks; [apply Hok |]. destruct Hp as [k Hk].
    pose proof (commit_writes_blocks l (view s) (λ c, view_block s order c Hok) Hn') as Hw.
    rewrite Hk in Hw. by apply Forall_app in Hw as [? _]. }
  exists s0, l1, s1, w1. split; [exact E0 |]. split; [exact E1 |]. split; [exact H0 |].
  intros c Hout. rewrite Hc by lia. fold D. unfold recovered, recover_writes. rewrite HD.
  erewrite map_ext; [by apply overlay_ext | intros t; by rewrite HD].
Qed.

(** Outside the log area. *)
Definition outside (l : log) (c : Z) : Prop := ¬ (start l <= c < start l + size l).

(** The block writes [ws] on disk [d] are atomic: after a crash that lets any
    prefix of them reach the disk, booting leaves outside the log area the
    blocks of [d], or those of [V], and an empty log. *)
Definition crash_atomic (l : log) (d : disk) (ws : list (Z * block)) (V : Z → block) (h : list lockid) (n : nat) : Prop :=
  ∀ p, p `prefix_of` ws → ∃ s0 l1 s1 w1,
    binit (bcache0 (dwrites d p)) (Ctx h [] n) = Ok tt s0 (Ctx h [] n) ∧
    initlog mypid ROOTDEV (start l) (size l) (LState log0 s0) (Ctx h [] n) =
      Ok tt (LState l1 s1) (Ctx h w1 n) ∧
    hdr_n (dread (dsk s1) (start l)) = 0 ∧
    ((∀ c, outside l c → dread (dsk s1) c = dread d c) ∨
     (∀ c, outside l c → dread (dsk s1) c = V c)).

Lemma commit_writes_atomic l s h n :
  txn_ok l s → idle s → bio_free h → hdr_n (dread (dsk s) (start l)) = 0 →
  crash_atomic l (dsk s) (commit_writes l (view s)) (view s) h n.
Proof.
  intros Htx Hid Hf Hhdr. destruct (tx_n _ _ Htx) as [Hn Hs].
  destruct (id_ok _ Hid) as [order Hok]. pose proof (view_block s order (start l) Hok) as HV.
  assert (∀ c, c ∉ map (lh_at l) (seqZ 0 (lh_n l)) →
            view s c = dread (dsk s) c ∨ start l <= c < start l + size l) as Hcl
    by (intros c Hc; left; by apply (txn_clean l)).
  intros p Hp. destruct (commit_prefix_cases _ _ _ Hp) as [Hc | [(q & Eq & Hq) | Eq]].
  - destruct (recovered_before l s Htx Hhdr p (start l + size l) Hc ltac:(lia)) as [H0 _].
    destruct (crash_boot l s p h n Htx Hid Hf Hp) as (s0 & l1 & s1 & w1 & B1 & B2 & B3 & B4);
      [rewrite H0; unfold LOGSIZE, MAXOPBLOCKS; lia | rewrite H0; lia |].
    exists s0, l1, s1, w1. do 3 (split; [assumption |]). left. intros c Hout. rewrite B4 by done.
    by apply (recovered_before l s Htx Hhdr p c).
  - pose proof (λ c H, recovered_after l s Htx HV Hcl q c Hq H) as Hra. rewrite <- Eq in Hra.
    destruct (Hra (start l + size l) ltac:(lia)) as (H1 & H2 & _).
    destruct (crash_boot l s p h n Htx Hid Hf Hp) as (s0 & l1 & s1 & w1 & B1 & B2 & B3 & B4);
      [rewrite H1; lia | |].
    { intros t Ht. rewrite H1 in *. rewrite H2 by done. destruct (tx_block _ _ Htx t Ht). lia. }
    exists s0, l1, s1, w1. do 3 (split; [assumption |]). right. intros c Hout. rewrite B4 by done.
    by apply Hra.
  - destruct (recovered_done l s Htx HV Hcl (start l + size l) ltac:(lia)) as [H0 _].
    rewrite <- Eq in H0.
    destruct (crash_boot l s p h n Htx Hid Hf Hp) as (s0 & l1 & s1 & w1 & B1 & B2 & B3 & B4);
      [rewrite H0; unfold LOGSIZE, MAXOPBLOCKS; lia | rewrite H0; lia |].
    exists s0, l1, s1, w1. do 3 (split; [assumption |]). right. intros c Hout. rewrite B4 by done.
    rewrite Eq. by apply (recovered_done l s Htx HV Hcl c).
Qed.

(** With nothing logged there is nothing to write. *)
Lemma no_writes_atomic l s h n :
  txn_ok l s → idle s → bio_free h → hdr_n (dread (dsk s) (start l)) = 0 → crash_atomic l (dsk s) [] (view s) h n.
Proof. intros Htx Hid Hf Hhdr p Hp. apply commit_writes_atomic; try done. apply prefix_nil_inv in Hp as ->. apply prefix_nil. Qed.

Lemma commit_disk l s s' c :
  txn_ok l s → idle s → after s (commit_writes l (view s)) s' → outside l c → dread (dsk s') c = view s c.
Proof.
  intros Htx Hid A Hc. destruct (id_ok _ Hid) as [order Hok]. pose proof (view_block s order (start l) Hok) as HV.
  rewrite (af_dsk _ _ _ A), dread_dwrites.
  destruct (recovered_done l s Htx HV (λ c H, or_introl (txn_clean l s c Htx Hid H)) c Hc) as [H1 H2].
  rewrite <- H2. unfold recovered, recover_writes. by rewrite H1.
Qed.

(** C15: the commit of a transaction is atomic and durable.  [commit] returns,
    and its block writes are such that after a crash that lets any prefix of
    them reach the disk, booting ([binit], then recovery in [initlog]) leaves
    outside the log area either the disk as it was before the commit or the
    disk with all of the transaction's blocks updated, and an empty log.  When
    [commit] has returned, the disk has the new contents. *)
Theorem commit_crash_atomic l s h w n :
  txn_ok l s → 0 < lh_n l → idle s → spare s 1 → bio_free h →
  hdr_n (dread (dsk s) (start l)) = 0 →
  ∃ s' w' ws,
    commit mypid (LState l s) (Ctx h w n) = Ok tt (LState (set_lh_n 0 l) s') (Ctx h w' n) ∧
    writes (dsk s') = writes (dsk s) ++ ws ∧
    (∀ c, outside l c → dread (dsk s') c = view s c) ∧ crash_atomic l (dsk s) ws (view s) h n.
Proof.
  intros Htx Hn0 Hid Hsp Hf Hhdr. destruct (commit_ok l s h w n Htx Hn0 Hid Hsp Hf) as (s' & w' & E & A).
  exists s', w', (commit_writes l (view s)). split; [done |].
  split; [rewrite (af_dsk _ _ _ A); apply writes_dwrites |]. split; [| by apply commit_writes_atomic].
  intros c. by apply (commit_disk l).
Qed.
End crash.
