(* ===== verification/LogTxn.v ===== *)
(** * Transactions

    What a file-system operation may do between [begin_op] and [end_op]: change
    blocks through [log_write].  Each change keeps the state ready for the
    crash-safe commit of LogCrash.v. *)

From S2P Require Import Prelude Monad Riscv Block Sleeplock Bio BioLru BioInv Log LogDisk LogCrash.

Section txn.
Context (mypid : Z).

(** The use of the log by the functions of fs.c: read a block, change it,
    [log_write] it, release it. *)
Definition update_block (c : Z) (f : block → block) : K lstate unit :=
  i <- lbread mypid ROOTDEV c ;;
  v <- lift bcL (bdata i) ;;
  lift bcL (bstore i (f v)) ;;
  log_write i ;;
  lbrelse mypid i.

(** The transaction open in the log: room for one more block, and what it has
    so far is as [commit] needs it. *)
Record txn_open (l : log) (s : bcache) : Prop := {
  to_txn : txn_ok l s;
  to_idle : idle s;
  to_len : length (lh_block l) = 30%nat;
  to_out : 1 <= outstanding l;
  to_room : lh_n l < LOGSIZE ∧ lh_n l < size l - 1 }.

Definition logged (l : log) (c : Z) : Prop := ∃ t, 0 <= t < lh_n l ∧ lh_at l t = c.

(** What the in-memory log has to be for that. *)
Record log_wf (l : log) : Prop := {
  lw_n : 0 <= lh_n l <= LOGSIZE;
  lw_block : ∀ t, 0 <= t < lh_n l → 0 <= lh_at l t < 2 ^ 31;
  lw_nodup : NoDup (map (lh_at l) (seqZ 0 (lh_n l)));
  lw_len : length (lh_block l) = 30%nat }.

Lemma txn_open_wf l s : txn_open l s → log_wf l.
Proof.
  intros [[_ [Hn _] Hb Hnd _ _] _ Hl _ _]. constructor; try done. intros t Ht. by apply Hb.
Qed.

Lemma log_index_hit l c :
  log_wf l → logged l c → 0 <= log_index l c < lh_n l ∧ lh_at l (log_index l c) = c.
Proof.
  intros Htx (t & Ht & Et). unfold log_index. destruct (List.find _ _) as [k |] eqn:E.
  - apply find_first_in in E as [Hk E]. apply elem_of_seqZ in Hk. apply Z.eqb_eq in E.
    pose proof (lw_block _ Htx k ltac:(lia)) as Hr. rewrite u32_small in E by lia. split; [lia | done].
  - apply (find_first_none _ _ t) in E; [| apply elem_of_seqZ; lia]. cbv beta in E.
    pose proof (lw_block _ Htx t Ht) as Hr. rewrite u32_small, Et, Z.eqb_refl in E by lia. done.
Qed.

Lemma log_index_miss l c : log_wf l → ¬ logged l c → log_index l c = lh_n l.
Proof.
  intros Htx Hn. unfold log_index. destruct (List.find _ _) as [k |] eqn:E; [| done].
  apply find_first_in in E as [Hk E]. apply elem_of_seqZ in Hk. apply Z.eqb_eq in E.
  pose proof (lw_block _ Htx k ltac:(lia)) as Hr. rewrite u32_small in E by lia.
  destruct Hn. exists k. split; [lia | done].
Qed.

(** The log after [log_write] of block [c]. *)
Definition logging (l : log) (c : Z) : log :=
  let l1 := set_lh_block (zset (lh_block l) (log_index l c) c) l in
  if log_index l c =? lh_n l then set_lh_n (lh_n l + 1) l1 else l1.

Lemma log_index_range l c : log_wf l → 0 <= log_index l c <= lh_n l.
Proof.
  intros H. pose proof (lw_n _ H). unfold log_index. destruct (List.find _ _) as [k |] eqn:E; [| lia].
  apply find_first_in in E as [Hk _]. apply elem_of_seqZ in Hk. lia.
Qed.

Lemma logging_at l c t :
  log_wf l → lh_n l < LOGSIZE → 0 <= t < lh_n (logging l c) →
  lh_at (logging l c) t = if t =? log_index l c then c else lh_at l t.
Proof.
  intros H Hr Ht. pose proof (lw_len _ H) as Hl. pose proof (log_index_range l c H) as Hi.
  assert (LOGSIZE = 30) as HL by done.
  assert (lh_block (logging l c) = zset (lh_block l) (log_index l c) c) as Hb
    by (unfold logging; destruct (_ =? _); done).
  unfold lh_at. rewrite Hb, zget_zset by (rewrite Hl; lia). rewrite (Z.eqb_sym t).
  by destruct (_ =? _).
Qed.

Lemma logging_n l c :
  log_wf l → (logged l c ∧ lh_n (logging l c) = lh_n l) ∨ (¬ logged l c ∧ lh_n (logging l c) = lh_n l + 1).
Proof.
  intros Htx. destruct (decide (log_index l c = lh_n l)) as [E | E].
  - right. split.
    + intros Hl. apply (log_index_hit l) in Hl; [lia | done].
    + unfold logging. by rewrite E, Z.eqb_refl.
  - left. split.
    + unfold log_index in E. destruct (List.find _ _) as [k |] eqn:Ef; [| done].
      apply find_first_in in Ef as [Hk Ef]. apply elem_of_seqZ in Hk. apply Z.eqb_eq in Ef.
      pose proof (lw_block _ Htx k ltac:(lia)) as Hr. rewrite u32_small in Ef by lia.
      exists k. split; [lia | done].
    + unfold logging. by destruct (Z.eqb_spec (log_index l c) (lh_n l)).
Qed.

(** The logged blocks are the old ones and [c]. *)
Lemma logging_logged l c x :
  log_wf l → lh_n l < LOGSIZE → logged (logging l c) x ↔ logged l x ∨ x = c.
Proof.
  intros Htx Hroom. pose proof (lw_n _ Htx) as Hn0.
  destruct (logging_n l c Htx) as [[Hl Hn] | [Hl Hn]].
  - destruct (log_index_hit l c Htx Hl) as [Hi Ei]. split.
    + intros (t & Ht & Et). rewrite (logging_at l) in Et by done. rewrite Hn in Ht.
      destruct (t =? log_index l c); [by right | left; by exists t].
    + intros Hx. assert (∃ t, 0 <= t < lh_n l ∧ lh_at l t = x) as (t & Ht & Et)
        by (destruct Hx as [? | ->]; done).
      exists t. rewrite Hn. split; [done |]. rewrite (logging_at l) by (rewrite ?Hn; done).
      destruct (Z.eqb_spec t (log_index l c)) as [-> |]; congruence.
  - pose proof (log_index_miss l c Htx Hl) as Ei. split.
    + intros (t & Ht & Et). rewrite (logging_at l) in Et by done. rewrite Hn in Ht. rewrite Ei in Et.
      destruct (Z.eqb_spec t (lh_n l)); [by right | left; exists t; split; [lia | done]].
    + intros [(t & Ht & Et) | ->].
      * exists t. rewrite Hn. split; [lia |]. rewrite (logging_at l) by (rewrite ?Hn; done || lia).
        rewrite Ei. destruct (Z.eqb_spec t (lh_n l)); [lia | done].
      * exists (lh_n l). rewrite Hn. split; [lia |].
        rewrite (logging_at l) by (rewrite ?Hn; done || lia). by rewrite Ei, Z.eqb_refl.
Qed.

Lemma NoDup_map_inj {A B} (f : A → B) (l : list A) x y :
  NoDup (map f l) → x ∈ l → y ∈ l → f x = f y → x = y.
Proof.
  induction l as [| a l IH]; intros Hnd Hx Hy E; [by apply not_elem_of_nil in Hx |].
  simpl in Hnd. apply NoDup_cons in Hnd as [Ha Hnd].
  apply elem_of_cons in Hx as [-> | Hx], Hy as [-> | Hy]; [done | | | by apply IH].
  - destruct Ha. rewrite E. by apply list_elem_of_fmap_2.
  - destruct Ha. rewrite <- E. by apply list_elem_of_fmap_2.
Qed.

Lemma logging_NoDup l c :
  log_wf l → lh_n l < LOGSIZE → NoDup (map (lh_at (logging l c)) (seqZ 0 (lh_n (logging l c)))).
Proof.
  intros Htx Hroom.
  assert (∀ t t', 0 <= t < lh_n l → 0 <= t' < lh_n l → lh_at l t = lh_at l t' → t = t') as Hinj.
  { intros t t' Ht Ht'. apply (NoDup_map_inj (lh_at l) _ t t' (lw_nodup _ Htx)); apply elem_of_seqZ; lia. }
  apply NoDup_fmap_2_strong; [| apply NoDup_seqZ]. intros t t' Ht Ht'. apply elem_of_seqZ in Ht, Ht'.
  rewrite !(logging_at l) by (done || lia).
  destruct (logging_n l c Htx) as [[Hl Hn] | [Hl Hn]]; rewrite Hn in *.
  - destruct (log_index_hit l c Htx Hl) as [Hi Ei].
    destruct (Z.eqb_spec t (log_index l c)) as [-> |], (Z.eqb_spec t' (log_index l c)) as [-> |];
      [done | | |]; intros E; apply Hinj; (lia || congruence).
  - rewrite (log_index_miss l c Htx Hl).
    destruct (Z.eqb_spec t (lh_n l)) as [-> |], (Z.eqb_spec t' (lh_n l)) as [-> |]; [done | | |]; intros E.
    + destruct Hl. exists t'. split; [lia | done].
    + destruct Hl. exists t. split; [lia | done].
    + apply Hinj; lia || done.
Qed.

(** The log stays well formed. *)
Lemma logging_wf l c :
  log_wf l → lh_n l < LOGSIZE → 0 <= c < 2 ^ 31 → log_wf (logging l c).
Proof.
  intros H Hr Hc. pose proof (lw_n _ H). constructor.
  - destruct (logging_n l c H) as [[_ ->] | [_ ->]]; lia.
  - intros t Ht. assert (logged (logging l c) (lh_at (logging l c) t)) as Hl by (by exists t).
    apply (logging_logged l) in Hl; [| done | done]. destruct Hl as [(t' & Ht' & <-) | ->]; [by apply H | done].
  - by apply logging_NoDup.
  - unfold logging. destruct (_ =? _); cbn [set_lh_n set_lh_block lh_block]; rewrite length_zset; apply H.
Qed.

Lemma log_write_run l s order i c h w n :
  log_wf l → lh_n l < LOGSIZE → lh_n l < size l - 1 → 1 <= outstanding l → 0 <= c < 2 ^ 31 →
  bc_ok s order → caches s i c → refcnt (getb s i) < 2 ^ 31 - 1 → bio_free h → L_log ∉ h →
  let s' := if log_index l c =? lh_n l then setb i (set_refcnt (refcnt (getb s i) + 1) (getb s i)) s else s in
  log_write i (LState l s) (Ctx h w n) = Ok tt (LState (logging l c) s') (Ctx h w n) ∧ bc_ok s' order ∧
  ∀ x, view s' x = view s x.
Proof.
  intros Hwf HR1 HR2 Hout Hc Hok (Hi & Hd & Hb) Hr Hf Hlog s'.
  pose proof (log_index_range l c Hwf) as Hk. assert (LOGSIZE = 30) as HL by done.
  assert (set_lh (log_index l c) (i32 c) (LState l s) (Ctx (L_log :: h) w n) =
    Ok tt (LState (set_lh_block (zset (lh_block l) (log_index l c) c) l) s) (Ctx (L_log :: h) w n)) as Eset.
  { unfold set_lh. kstep. cbn [lg]. rewrite (lw_len _ Hwf).
    destruct (Z.leb_spec 0 (log_index l c)), (Z.ltb_spec (log_index l c) (Z.of_nat 30)); try lia.
    cbn [andb]. unfold updl, modify, i32. cbn [lg bc]. by rewrite signed_small by lia. }
  assert (log_write i (LState l s) (Ctx h w n) =
    (when (log_index l c =? lh_n l)
      (lift bcL (bpin i) ;; updl (λ l, set_lh_n (lh_n l + 1) l)) ;; release L_log)
      (LState (set_lh_block (zset (lh_block l) (log_index l c) c) l) s) (Ctx (L_log :: h) w n)) as Erun.
  { unfold log_write. kacq. kstep. cbn [lg].
    destruct (Z.leb_spec LOGSIZE (lh_n l)), (Z.leb_spec (size l - 1) (lh_n l)); try lia. cbn [orb].
    destruct (Z.ltb_spec (outstanding l) 1); [lia |]. kstep. cbn [bc]. rewrite Hb. kstep Eset. done. }
  rewrite Erun. subst s'. unfold logging. destruct (Z.eqb_spec (log_index l c) (lh_n l)) as [E | E].
  - assert (bio_free (L_log :: h)) as Hf'.
    { destruct Hf as [H1 H2]. split; [by apply not_elem_of_cons |]. intros k. by apply not_elem_of_cons. }
    destruct (bpin_ok s order i (L_log :: h) w n Hok Hi Hr Hf') as (Ep & Hok3 & V3).
    split; [| done]. rewrite E. cbn [when].
    assert ((lift bcL (bpin i) ;; updl (λ l, set_lh_n (lh_n l + 1) l))
      (LState (set_lh_block (zset (lh_block l) (lh_n l) c) l) s) (Ctx (L_log :: h) w n) =
      Ok tt (LState (set_lh_n (lh_n l + 1) (set_lh_block (zset (lh_block l) (lh_n l) c) l))
               (setb i (set_refcnt (refcnt (getb s i) + 1) (getb s i)) s)) (Ctx (L_log :: h) w n)) as Eb.
    { kstep (lift_bc _ (set_lh_block (zset (lh_block l) (lh_n l) c) l) _ _ _ _ _ Ep). done. }
    kstep Eb. krel. done.
  - split; [| done]. cbn [when]. kstep. krel. done.
Qed.

(** Opening a block that the transaction may change: the buffer is the pinned
    one, or one without references. *)
Lemma open_ref l s s1 i c :
  txn_ok l s → idle s → opens mypid s s1 i c →
  (logged l c → refs s i = 1) ∧ (¬ logged l c → refs s i = 0).
Proof.
  intros Htx Hid Ho. destruct (id_ok _ Hid) as [order Hok].
  destruct (op_caches _ _ _ _ _ Ho) as (Hi & _). split.
  - intros (t & Ht & Et). destruct (tx_pin _ _ Htx t Ht) as (k & Hc & Hv & Hr). rewrite Et in Hc.
    destruct (op_evict _ _ _ _ _ Ho) as [Hci | [_ Hno]]; [| by destruct (Hno k)].
    unfold refs. by rewrite (bc_uniq _ _ Hok i k c).
  - intros Hn. destruct (op_evict _ _ _ _ _ Ho) as [(_ & _ & Hb) | [H0 _]]; [| done].
    destruct (Z.eq_dec (refs s i) 0) as [| Hr]; [done |].
    destruct (tx_only _ _ Htx i Hi Hr) as (t & Ht & _ & _ & Et). destruct Hn. exists t. split; [done | congruence].
Qed.

(** The buffer between [log_write] and [brelse]. *)
Definition modified (x : buf) (v : block) : buf :=
  Buf (valid x) (dev x) (blockno x) (lock x) 2 (prev x) (next x) v.

Lemma log_write_ok l s s1 i c v h w n order :
  txn_open l s → 0 <= c < 2 ^ 31 → opens mypid s s1 i c → bc_ok s1 order → is_block v →
  bio_free h → L_log ∉ h →
  let s2 := setb i (set_data v (getb s1 i)) s1 in
  let s3 := setb i (modified (getb s1 i) v) s1 in
  log_write i (LState l s2) (Ctx h w n) = Ok tt (LState (logging l c) s3) (Ctx h w n) ∧ bc_ok s3 order ∧
  ∀ x, view s3 x = view s2 x.
Proof.
  intros Hop Hc Ho Hok1 Hv Hf Hlog s2 s3. pose proof (to_txn _ _ Hop) as Htx.
  pose proof (txn_open_wf _ _ Hop) as Hwf.
  destruct (op_caches _ _ _ _ _ Ho) as (Hi & Hd & Hb).
  destruct (open_ref l s s1 i c Htx (to_idle _ _ Hop) Ho) as [Hhit Hmiss].
  pose proof (op_refcnt _ _ _ _ _ Ho) as Hr. fold (refs s i) in Hr.
  destruct (bstore_ok mypid s1 order i c v (Ctx h w n) Hok1 (opens_holds _ _ _ _ _ Ho) Hv) as (_ & Hok2 & _).
  fold s2 in Hok2. assert (0 <= i <= HEAD) as Hi' by (unfold HEAD; lia).
  assert (getb s2 i = set_data v (getb s1 i)) as G2
    by (unfold s2; rewrite getb_setb by (done || apply Hok1); by rewrite Z.eqb_refl).
  destruct (to_room _ _ Hop) as [HR1 HR2].
  assert (caches s2 i c) as Hc2 by (unfold caches; rewrite G2; done).
  assert (refs s i = 0 ∨ refs s i = 1) as Hr01.
  { destruct (logging_n l c Hwf) as [[Hl _] | [Hl _]]; auto. }
  destruct (log_write_run l s2 order i c h w n Hwf HR1 HR2 (to_out _ _ Hop) Hc Hok2 Hc2) as (E & Hok3 & V3);
    [rewrite G2; cbn [refcnt set_data]; lia | done | done |].
  assert ((if log_index l c =? lh_n l then setb i (set_refcnt (refcnt (getb s2 i) + 1) (getb s2 i)) s2 else s2) = s3)
    as E3; [| rewrite E3 in E, Hok3, V3; done].
  rewrite G2. unfold s3, s2. rewrite setb_setb. destruct (logging_n l c Hwf) as [[Hl _] | [Hl _]].
  - destruct (log_index_hit l c Hwf Hl) as [Hki _].
    destruct (Z.eqb_spec (log_index l c) (lh_n l)); [lia |].
    unfold modified, set_data. rewrite Hr, (Hhit Hl). done.
  - rewrite (log_index_miss l c Hwf Hl), Z.eqb_refl. cbn [refcnt set_data]. by rewrite Hr, (Hmiss Hl).
Qed.

(** Once the buffer is released the state is idle again, with one more pin. *)
Lemma modified_release l s s1 i c v h w n order :
  txn_open l s → opens mypid s s1 i c → bc_ok (setb i (modified (getb s1 i) v) s1) order →
  bc_ok s1 order → bio_free h →
  let s3 := setb i (modified (getb s1 i) v) s1 in
  ∃ s4 w4, brelse mypid i s3 (Ctx h w n) = Ok tt s4 (Ctx h w4 n) ∧ idle s4 ∧
    dsk s4 = dsk s ∧ (∀ x, view s4 x = view s3 x) ∧
    (∀ k, 0 <= k < NBUF → k ≠ i → core (getb s4 k) = core (getb s k)) ∧
    caches s4 i c ∧ valid (getb s4 i) = true ∧ refcnt (getb s4 i) = 1.
Proof.
  intros Hop Ho Hok3 Hok1 Hf s3. destruct (op_caches _ _ _ _ _ Ho) as (Hi & Hd & Hb).
  assert (0 <= i <= HEAD) as Hi' by (unfold HEAD; lia).
  assert (∀ k, getb s3 k = if i =? k then modified (getb s1 i) v else getb s1 k) as G3
    by (intros k; unfold s3; rewrite getb_setb by (done || apply Hok1); done).
  assert (holds mypid s3 i c) as Hh3.
  { split; [split; [done |] |]; rewrite G3, Z.eqb_refl; cbn; [done |].
    split; [apply Ho | apply Ho]. }
  destruct (brelse_ok mypid s3 order i c h w n Hok3 Hh3) as (s4 & E & Hok4 & L);
    [rewrite G3, Z.eqb_refl; cbn; lia | done |].
  exists s4. eexists. split; [exact E |].
  assert (∀ k, 0 <= k < NBUF → k ≠ i → core (getb s4 k) = core (getb s k)) as Hcore.
  { intros k _ Hk. rewrite (rl_other _ _ _ L k Hk), G3. destruct (Z.eqb_spec i k); [congruence |].
    by rewrite (op_other _ _ _ _ _ Ho). }
  assert (refcnt (getb s4 i) = 1) as Hr4.
  { rewrite (rl_refcnt _ _ _ L), G3, Z.eqb_refl. done. }
  destruct (rl_keep _ _ _ L) as (K1 & K2 & K3 & _). rewrite G3, Z.eqb_refl in K1, K2, K3. cbn in K1, K2, K3.
  split; [constructor | split; [| split; [apply L | split; [done |]]]].
  - eexists. exact Hok4.
  - intros k Hk. destruct (Z.eq_dec k i) as [-> | Hne]; [by rewrite (rl_lock _ _ _ L) |].
    destruct (core_inj _ _ (Hcore k Hk Hne)) as (_ & _ & _ & -> & _). by apply (to_idle _ _ Hop).
  - intros k Hk. destruct (Z.eq_dec k i) as [-> | Hne]; [by rewrite Hr4 |].
    destruct (core_inj _ _ (Hcore k Hk Hne)) as (_ & _ & _ & _ & -> & _). by apply (to_idle _ _ Hop).
  - rewrite (rl_dsk _ _ _ L). apply Ho.
  - split; [| split; [| done]].
    + split; [done |]. by rewrite K2, K3.
    + rewrite K1. apply Ho.
Qed.

Lemma update_block_ok l s c f h w n :
  txn_open l s → 0 <= c < 2 ^ 31 → ¬ (start l <= c < start l + size l) → spare s 1 →
  is_block (f (view s c)) → bio_free h → L_log ∉ h →
  ∃ s' w', update_block c f (LState l s) (Ctx h w n) = Ok tt (LState (logging l c) s') (Ctx h w' n) ∧
    txn_ok (logging l c) s' ∧ idle s' ∧ dsk s' = dsk s ∧
    (∀ x, view s' x = if x =? c then f (view s c) else view s x) ∧
    (spare s 2 → spare s' 1).
Proof.
  intros Hop Hc Hout Hsp Hv Hf Hlog. pose proof (to_txn _ _ Hop) as Htx. pose proof (to_idle _ _ Hop) as Hid.
  destruct (id_ok _ Hid) as [order Hok].
  destruct (bread_ok mypid s order c h w n Hok) as (i & s1 & E1 & Hok1 & Ho);
    [by apply idle_can_open; [| right] | done |].
  set (v := f (view s c)) in *.
  destruct (bstore_ok mypid s1 order i c v (Ctx h w n) Hok1 (opens_holds _ _ _ _ _ Ho) Hv) as (E2 & Hok2 & V2).
  destruct (log_write_ok l s s1 i c v h w n order Hop Hc Ho Hok1 Hv Hf Hlog) as (E3 & Hok3 & V3).
  destruct (modified_release l s s1 i c v h w n order Hop Ho Hok3 Hok1 Hf)
    as (s4 & w4 & E4 & Hid4 & D4 & V4 & Hcore & Hci & Hvi & Hri).
  exists s4, w4. split.
  { unfold update_block. kstep (lift_bc _ l _ _ _ _ _ E1). erewrite bind_ok; [| apply lift_bc; reflexivity].
    rewrite (op_data _ _ _ _ _ Ho). fold v. kstep (lift_bc _ l _ _ _ _ _ E2). kstep E3.
    exact (lift_bc _ _ _ _ _ _ _ E4). }
  assert (start (logging l c) = start l ∧ size (logging l c) = size l ∧ ldev (logging l c) = ldev l) as (Es & Ez & Ed)
    by (unfold logging; by destruct (_ =? _)).
  destruct (to_room _ _ Hop) as [HR1 HR2]. pose proof (txn_open_wf _ _ Hop) as Hwf.
  pose proof (λ x, logging_logged l c x Hwf HR1) as Hlg. destruct (tx_n _ _ Htx) as [Hn0 Hn1].
  split; [constructor | split; [done | split; [done | split]]].
  - rewrite Ed. apply Htx.
  - rewrite Ez. destruct (logging_n l c Hwf) as [[_ ->] | [_ ->]]; lia.
  - intros t Ht. rewrite Es, Ez. assert (logged (logging l c) (lh_at (logging l c) t)) as Hl by (by exists t).
    apply Hlg in Hl. destruct Hl as [(t' & Ht' & <-) | ->]; [by apply Htx | done].
  - by apply logging_NoDup.
  - intros t Ht. assert (logged (logging l c) (lh_at (logging l c) t)) as Hl by (by exists t).
    apply Hlg in Hl. destruct (Z.eq_dec (lh_at (logging l c) t) c) as [-> | Hne]; [by exists i |].
    destruct Hl as [(t' & Ht' & E') | ?]; [| done]. rewrite <- E' in *.
    destruct (tx_pin _ _ Htx t' Ht') as (k & Hck & Hvk & Hrk). pose proof Hck as (Hk & Hdk & Hbk).
    assert (k ≠ i) as Hki.
    { intros ->. destruct (op_evict _ _ _ _ _ Ho) as [(_ & _ & Hb') | [H0 _]]; [congruence | lia]. }
    exists k. destruct (core_inj _ _ (Hcore k Hk Hki)) as (C1 & C2 & C3 & _ & C5 & _).
    unfold caches. by rewrite C1, C2, C3, C5.
  - intros k Hk Hr.
    assert (∃ x, caches s4 k x ∧ logged (logging l c) x) as (x & Hx & t & Ht & <-); [| by exists t].
    destruct (Z.eq_dec k i) as [-> | Hki]; [exists c; split; [done | apply Hlg; by right] |].
    destruct (core_inj _ _ (Hcore k Hk Hki)) as (_ & C2 & C3 & _ & C5 & _). rewrite C5 in Hr.
    destruct (tx_only _ _ Htx k Hk Hr) as (t & Ht & Hct). exists (lh_at l t). unfold caches. rewrite C2, C3.
    split; [done |]. apply Hlg. left. by exists t.
  - intros x. by rewrite V4, V3, V2, (op_view _ _ _ _ _ Ho).
  - intros (ls & Hnd & Hl & Hs). destruct ls as [| x [| y [|]]]; try done. apply NoDup_cons in Hnd as [Hxy _].
    rewrite list_elem_of_singleton in Hxy.
    assert (∃ z, z ≠ i ∧ 0 <= z < NBUF ∧ refcnt (getb s z) = 0) as (z & Hz & Hzr & Hz0).
    { destruct (Z.eq_dec x i) as [-> |]; [exists y | exists x]; (split; [congruence |]); apply Hs; [right; left | left]. }
    exists [z]. split; [apply NoDup_singleton |]. split; [done |]. intros k Hk.
    apply list_elem_of_singleton in Hk as ->. split; [done |].
    by destruct (core_inj _ _ (Hcore z Hzr Hz)) as (_ & _ & _ & _ & -> & _).
Qed.

(** ** Properties *)

(** C16: changing a block through the log ([bread], change, [log_write],
    [brelse]) inside a transaction with room changes that block for every later
    reader and no other, writes nothing to disk, and keeps the transaction ready
    to commit: the block is among the logged ones, each once, and pinned. *)
Theorem log_write_update l s c f h w n :
  txn_open l s → 0 <= c < 2 ^ 31 → ¬ (start l <= c < start l + size l) → spare s 1 →
  is_block (f (view s c)) → bio_free h → L_log ∉ h →
  ∃ s' w', update_block c f (LState l s) (Ctx h w n) = Ok tt (LState (logging l c) s') (Ctx h w' n) ∧
    txn_ok (logging l c) s' ∧ idle s' ∧ dsk s' = dsk s ∧
    (∀ x, view s' x = if x =? c then f (view s c) else view s x) ∧
    (∀ x, logged (logging l c) x ↔ logged l x ∨ x = c).
Proof.
  intros Hop Hc Hout Hsp Hv Hf Hlog.
  destruct (update_block_ok l s c f h w n Hop Hc Hout Hsp Hv Hf Hlog) as (s' & w' & E & H1 & H2 & H3 & H4 & _).
  exists s', w'. do 5 (split; [done |]). intros x. apply logging_logged; [by apply (txn_open_wf l s) | apply Hop].
Qed.

(** [txn_ok] does not look at [outstanding] and [committing]. *)
Lemma txn_ok_flags l s o b : txn_ok l s → txn_ok (set_committing b (set_outstanding o l)) s.
Proof. intros [H1 H2 H3 H4 H5 H6]. by constructor. Qed.

Lemma commit_maybe l s h w n :
  txn_ok l s → idle s → spare s 1 → bio_free h → 
  ∃ s' w' ws, commit mypid (LState l s) (Ctx h w n) = Ok tt (LState (set_lh_n 0 l) s') (Ctx h w' n) ∧
    idle s' ∧ (∀ c, outside l c → dread (dsk s') c = view s c) ∧ writes (dsk s') = writes (dsk s) ++ ws ∧
    (hdr_n (dread (dsk s) (start l)) = 0 → crash_atomic mypid l (dsk s) ws (view s) h n).
Proof.
  intros Htx Hid Hsp Hf. destruct (tx_n _ _ Htx) as [Hn Hs]. destruct (Z.eq_dec (lh_n l) 0) as [E0 | Hne].
  - exists s, w, []. split; [| split; [done |]; split; [| split; [by rewrite app_nil_r | by apply no_writes_atomic]]].
    + unfold commit. kstep. cbn [lg]. rewrite E0. cbn. destruct l; cbn in *. by subst.
    + intros c _. symmetry. apply (txn_clean l); [done | done |]. rewrite E0. apply not_elem_of_nil.
  - destruct (commit_ok mypid l s h w n Htx) as (s' & w' & E & A); [lia | done | done | done |].
    exists s', w', (commit_writes l (view s)). split; [done |]. split; [apply A |].
    split; [intros c; by apply (commit_disk l) |].
    split; [rewrite (af_dsk _ _ _ A); apply writes_dwrites | by apply commit_writes_atomic].
Qed.

(** The last [end_op] commits, atomically. *)
Lemma end_op_last l s h w n :
  txn_ok l s → idle s → spare s 1 → bio_free h → L_log ∉ h → committing l = false → outstanding l = 1 →
  ∃ s' w' ws, end_op mypid (LState l s) (Ctx h w n) =
      Ok tt (LState (set_lh_n 0 (set_outstanding 0 l)) s') (Ctx h (w' ++ [C_log]) n) ∧
    idle s' ∧ (∀ c, outside l c → dread (dsk s') c = view s c) ∧ writes (dsk s') = writes (dsk s) ++ ws ∧
    (hdr_n (dread (dsk s) (start l)) = 0 → crash_atomic mypid l (dsk s) ws (view s) h n).
Proof.
  intros Htx Hid Hsp Hf Hlog Hcom Ho.
  destruct (commit_maybe (set_committing true (set_outstanding 0 l)) s h w n) as (s' & w' & ws & E & Hrest);
    [by apply txn_ok_flags | done | done | done |].
  exists s', w', ws. split; [| done]. unfold end_op. kacq. unfold updl at 1. kstep. cbn [lg bc].
  kstep. cbn [lg committing set_outstanding]. rewrite Hcom. kstep. cbn [lg outstanding set_outstanding].
  rewrite Ho. change (1 - 1) with 0. cbn [Z.eqb]. unfold updl at 1. kstep. krel. cbn [when lg bc].
  kstep E. kacq. unfold updl. kstep. cbn [lg bc]. kstep. krel. destruct l; cbn in *. by subst.
Qed.

(** C17: [end_op] of the last outstanding operation commits: it returns with an
    empty log, no commit in progress, sleepers on the log woken, and every block
    outside the log area on disk as it was in the cache.  An [end_op] with other
    operations outstanding only gives up its reservation and wakes sleepers. *)
Theorem end_op_commits l s h w n :
  txn_ok l s → idle s → spare s 1 → bio_free h → L_log ∉ h → committing l = false →
  (outstanding l = 1 →
     ∃ s' w', end_op mypid (LState l s) (Ctx h w n) =
         Ok tt (LState (set_lh_n 0 (set_outstanding 0 l)) s') (Ctx h (w' ++ [C_log]) n) ∧
       idle s' ∧ ∀ c, outside l c → dread (dsk s') c = view s c) ∧
  (1 < outstanding l →
     end_op mypid (LState l s) (Ctx h w n) =
       Ok tt (LState (set_outstanding (outstanding l - 1) l) s) (Ctx h (w ++ [C_log]) n)).
Proof.
  intros Htx Hid Hsp Hf Hlog Hcom. split; intros Ho.
  - destruct (end_op_last l s h w n) as (s' & w' & ws & E & Hid' & Hd & _); try done. by exists s', w'.
  - unfold end_op. kacq. unfold updl at 1. kstep. cbn [lg bc].
    kstep. cbn [lg committing set_outstanding]. rewrite Hcom. kstep. cbn [lg outstanding set_outstanding].
    destruct (Z.eqb_spec (outstanding l - 1) 0); [lia |]. kstep. krel. done.
Qed.

Lemma begin_op_ok l s h w n :
  L_log ∉ h → committing l = false → lh_n l + (outstanding l + 1) * MAXOPBLOCKS <= LOGSIZE →
  begin_op (LState l s) (Ctx h w n) = Ok tt (LState (set_outstanding (outstanding l + 1) l) s) (Ctx h w n).
Proof.
  intros Hlog Hc Hr. unfold begin_op. kacq.
  erewrite bind_ok; [| apply wait_while_false; unfold must_wait; cbn [lg]; rewrite Hc;
    destruct (Z.ltb_spec LOGSIZE (lh_n l + (outstanding l + 1) * MAXOPBLOCKS)); [lia | done]].
  unfold updl. kstep. krel. done.
Qed.

(** [begin_op] admits an operation at once exactly when no commit is
    running and the log has room for [MAXOPBLOCKS] blocks of it and of every
    other outstanding operation; otherwise it sleeps on the log. *)
Theorem begin_op_reserves l s h w n :
  L_log ∉ h →
  (committing l = false ∧ lh_n l + (outstanding l + 1) * MAXOPBLOCKS <= LOGSIZE →
     begin_op (LState l s) (Ctx h w n) =
       Ok tt (LState (set_outstanding (outstanding l + 1) l) s) (Ctx h w n)) ∧
  (h = [] → committing l = true ∨ LOGSIZE < lh_n l + (outstanding l + 1) * MAXOPBLOCKS →
     ∃ k, begin_op (LState l s) (Ctx h w (S n)) = Sleeping C_log (LState l s) (Ctx [] w n) k).
Proof.
  intros Hlog. split.
  - intros [Hc Hr]. by apply begin_op_ok.
  - intros -> Hw. eexists. unfold begin_op. kacq. unfold bind at 1, wait_while. cbn [naps wait_loop].
    unfold bind at 1. cbn [gets obind]. unfold must_wait. cbn [lg].
    replace (committing l || _) with true; [reflexivity |].
    destruct Hw as [-> | Hw]; [done |].
    destruct (Z.ltb_spec LOGSIZE (lh_n l + (outstanding l + 1) * MAXOPBLOCKS)); [by rewrite orb_true_r | lia].
Qed.

(** Every buffer in use caches a logged block, so that a log that is shorter
    than the cache leaves a buffer unused. *)
Lemma txn_spare l s : txn_ok l s → idle s → lh_n l < NBUF → spare s 1.
Proof.
  intros Htx Hid Hn. destruct (id_ok _ Hid) as [order Hok].
  destruct (decide (Exists (λ i, refcnt (getb s i) = 0) (seqZ 0 NBUF))) as [He | Hne].
  { apply Exists_exists in He as (i & Hi%elem_of_seqZ & He). exists [i].
    split; [apply NoDup_singleton |]. split; [done |]. intros k ->%list_elem_of_singleton. split; [lia | done]. }
  exfalso. assert (∀ k, k ∈ seqZ 0 NBUF → ∃ t, 0 <= t < lh_n l ∧ caches s k (lh_at l t)) as Hall.
  { intros k Hk. apply (tx_only _ _ Htx); [apply elem_of_seqZ in Hk; lia |].
    intros E. apply Hne, Exists_exists. by exists k. }
  assert (NoDup (map (λ k, blockno (getb s k)) (seqZ 0 NBUF))) as Hnd.
  { apply NoDup_fmap_2_strong; [| apply NoDup_seqZ]. intros k k' Hk Hk' E. cbv beta in E.
    destruct (Hall k Hk) as (t & _ & Hc), (Hall k' Hk') as (t' & _ & Hc').
    apply (bc_uniq _ _ Hok k k' (lh_at l t)); [done |]. destruct Hc as (_ & _ & Hb), Hc' as (? & ? & ?).
    split; [done |]. split; [done | congruence]. }
  assert (map (λ k, blockno (getb s k)) (seqZ 0 NBUF) ⊆ map (lh_at l) (seqZ 0 (lh_n l))) as Hsub.
  { intros b (k & -> & Hk)%list_elem_of_fmap. destruct (Hall k Hk) as (t & Ht & _ & _ & ->).
    apply list_elem_of_fmap. exists t. split; [done |]. apply elem_of_seqZ. lia. }
  apply NoDup_submseteq, submseteq_length in Hsub; [| done].
  rewrite !length_map, !length_seqZ in Hsub. destruct (tx_n _ _ Htx). unfold NBUF in *. lia.
Qed.

(** The blocks that an operation changes, in turn. *)
Fixpoint update_blocks (cs : list Z) (f : Z → block → block) : K lstate unit :=
  match cs with
  | [] => ret tt
  | c :: cs => update_block c (f c) ;; update_blocks cs f
  end.

(** A block that can be logged. *)
Definition home (l : log) (c : Z) : Prop := 0 <= c < 2 ^ 31 ∧ ¬ (start l <= c < start l + size l).

Lemma update_blocks_ok cs f l s h w n :
  txn_ok l s → idle s → length (lh_block l) = 30%nat → 1 <= outstanding l → size l <= LOGSIZE →
  (∀ c v, is_block v → is_block (f c v)) →
  NoDup cs → Forall (home l) cs → Forall (λ c, ¬ logged l c) cs →
  lh_n l + Z.of_nat (length cs) <= size l - 1 → bio_free h → L_log ∉ h →
  ∃ l' s' w', update_blocks cs f (LState l s) (Ctx h w n) = Ok tt (LState l' s') (Ctx h w' n) ∧
    txn_ok l' s' ∧ idle s' ∧ lh_n l' = lh_n l + Z.of_nat (length cs) ∧ size l' = size l.
Proof.
  intros Htx Hid Hlen Hout Hsz Hf. revert l s w Htx Hid Hlen Hout Hsz.
  induction cs as [| c cs IH]; intros l s w Htx Hid Hlen Hout Hsz Hnd Hh Hnl Hr Hfree Hlog; cbn [update_blocks].
  { exists l, s, w. split; [done |]. cbn [length]. split_and!; try done. lia. }
  apply NoDup_cons in Hnd as [Hc Hnd]. apply Forall_cons in Hh as [[Hc1 Hc2] Hh].
  apply Forall_cons in Hnl as [Hlc Hnl]. cbn [length] in Hr. assert (NBUF = LOGSIZE) as EN by done.
  destruct (tx_n _ _ Htx) as [Hn _]. assert (txn_open l s) as Hop by (constructor; try done; lia).
  destruct (update_block_ok l s c (f c) h w n Hop) as (s1 & w1 & E & Htx1 & Hid1 & _); try done.
  { apply (txn_spare l); [done | done | lia]. }
  { destruct (id_ok _ Hid) as [order Hok]. by apply Hf, (view_block s order). }
  destruct (logging_n l c (txn_open_wf _ _ Hop)) as [[? _] | [_ En]]; [done |].
  assert (size (logging l c) = size l ∧ start (logging l c) = start l ∧ outstanding (logging l c) = outstanding l
          ∧ length (lh_block (logging l c)) = length (lh_block l)) as (Ez & Es & Eo & El).
  { unfold logging. destruct (_ =? _); cbn; by rewrite length_zset. }
  destruct (IH (logging l c) s1 w1) as (l' & s' & w' & E' & Htx' & Hid' & Hn' & Hz'); try done; try lia.
  - eapply Forall_impl; [exact Hh |]. intros x. unfold home. by rewrite Es, Ez.
  - apply Forall_forall. intros x Hx Hl. apply logging_logged in Hl; [| by apply (txn_open_wf l s) | lia].
    destruct Hl as [Hl | ->]; [| done]. by apply (proj1 (Forall_forall _ _) Hnl x Hx).
  - exists l', s', w'. split; [kstep E; exact E' |]. split_and!; try done; cbn [length]; lia.
Qed.

Lemma update_block_full l s c f h w n :
  txn_ok l s → idle s → size l - 1 <= lh_n l → lh_n l < NBUF → (∀ v, is_block v → is_block (f v)) →
  bio_free h → L_log ∉ h →
  update_block c f (LState l s) (Ctx h w n) = Panic "too big a transaction".
Proof.
  intros Htx Hid Hfull Hn Hf Hfree Hlog. destruct (id_ok _ Hid) as [order Hok].
  destruct (bread_ok mypid s order c h w n Hok) as (i & s1 & E1 & Hok1 & Ho); [| done |].
  { apply idle_can_open; [done |]. right. by apply (txn_spare l). }
  destruct (bstore_ok mypid s1 order i c (f (view s c)) (Ctx h w n) Hok1 (opens_holds _ _ _ _ _ Ho)) as (E2 & _ & _).
  { by apply Hf, (view_block s order). }
  unfold update_block. kstep (lift_bc _ l _ _ _ _ _ E1). erewrite bind_ok; [| apply lift_bc; reflexivity].
  rewrite (op_data _ _ _ _ _ Ho). kstep (lift_bc _ l _ _ _ _ _ E2). apply bind_panic.
  unfold log_write. kacq. kstep. cbn [lg].
  destruct (Z.leb_spec (size l - 1) (lh_n l)); [| lia]. by rewrite orb_true_r.
Qed.

Lemma update_blocks_app cs cs' f x y x' y' :
  update_blocks cs f x y = Ok tt x' y' → update_blocks (cs ++ cs') f x y = update_blocks cs' f x' y'.
Proof.
  revert x y. induction cs as [| c cs IH]; intros x y; cbn [update_blocks app].
  - by intros [= <- <-].
  - intros ([] & x1 & y1 & E & E')%bind_Ok_inv. erewrite bind_ok; [| exact E]. by apply IH.
Qed.

(** C18: a log of [nlog = LOGSIZE] blocks, as mkfs makes it, is one block too
    small for what [begin_op] admits.  On an empty log three operations pass
    [begin_op], which reserves for each the [MAXOPBLOCKS] blocks that an operation
    may write.  Then 29 distinct blocks are changed and logged; but when the
    operations change all [3 * MAXOPBLOCKS] blocks they reserved, [log_write] of
    the last one panics, because the header block leaves room for [size - 1]
    blocks only. *)
Theorem log_reservation_too_big l s cs f w n :
  txn_ok l s → idle s → length (lh_block l) = 30%nat →
  size l = LOGSIZE → lh_n l = 0 → outstanding l = 0 → committing l = false →
  (∀ c v, is_block v → is_block (f c v)) →
  NoDup cs → Forall (home l) cs → Z.of_nat (length cs) = 3 * MAXOPBLOCKS →
  let admitted := begin_op ;; begin_op ;; begin_op in
  (∃ l' s' w', (admitted ;; update_blocks (removelast cs) f) (LState l s) (Ctx [] w n) =
     Ok tt (LState l' s') (Ctx [] w' n) ∧ lh_n l' = 3 * MAXOPBLOCKS - 1) ∧
  (admitted ;; update_blocks cs f) (LState l s) (Ctx [] w n) = Panic "too big a transaction".
Proof.
  intros Htx Hid Hlen Hsz H0 Ho Hcom Hf Hnd Hh Hl admitted.
  assert (LOGSIZE = 30 ∧ MAXOPBLOCKS = 10 ∧ NBUF = 30) as (EL & EM & EN) by done.
  assert (L_log ∉ ([] : list lockid)) as Hnil by apply not_elem_of_nil.
  set (l3 := set_outstanding 3 l).
  assert (admitted (LState l s) (Ctx [] w n) = Ok tt (LState l3 s) (Ctx [] w n)) as Ea.
  { unfold admitted. kstep (begin_op_ok l s [] w n Hnil Hcom ltac:(lia)).
    kstep (begin_op_ok (set_outstanding (outstanding l + 1) l) s [] w n Hnil Hcom ltac:(cbn; lia)).
    rewrite (begin_op_ok _ s [] w n Hnil) by (done || cbn; lia). cbn. by rewrite Ho. }
  assert (txn_ok l3 s) as Htx3 by by apply (txn_ok_flags l s 3 (committing l)) in Htx.
  assert (cs ≠ []) as Hne by (intros ->; cbn in Hl; lia).
  pose proof (exists_last Hne) as (cs0 & c & ->). rewrite removelast_last.
  rewrite length_app in Hl. cbn [length] in Hl.
  apply NoDup_app in Hnd as (Hnd & _ & _). apply Forall_app in Hh as [Hh _].
  destruct (update_blocks_ok cs0 f l3 s [] w n) as (l' & s' & w' & E & Htx' & Hid' & Hn' & Hz');
    [done | done | done | cbn; lia | cbn; lia | done | done | done | | cbn; lia | apply bio_free_nil | done |].
  { apply Forall_forall. intros x _ (t & Ht & _). cbn in Ht. lia. }
  cbn in Hn', Hz'. split.
  - exists l', s', w'. split; [kstep Ea; exact E | lia].
  - kstep Ea. rewrite (update_blocks_app _ _ _ _ _ _ _ E). cbn [update_blocks]. apply bind_panic.
    apply update_block_full; [done | done | lia | lia | by apply Hf | apply bio_free_nil | done].
Qed.
End txn.

(** *** Witnesses: a freshly booted machine with an empty disk *)

Definition empty_disk : disk := Disk ∅ [].

Definition demo_log : log := Log 2 30 1 false ROOTDEV 0 (replicate 30 0).

Definition ones : block := replicate (Z.to_nat BSIZE) 1.

Lemma ones_block : is_block ones.
Proof. split; [apply length_replicate |]. apply Forall_replicate. lia. Qed.

Lemma empty_disk_blocks b : is_block (dread empty_disk b).
Proof. unfold dread, empty_disk. cbn [blocks]. rewrite lookup_empty. apply is_block_zero. Qed.

(** The machine has booted and one operation has begun. *)
Lemma demo_txn_open :
  ∃ s, txn_open demo_log s ∧ spare s 1 ∧ spare s 2 ∧ dsk s = empty_disk.
Proof.
  destruct (boot_ok empty_disk [] [] 0 empty_disk_blocks) as (s & E & Hid & H1 & H2 & Hd & _ & H0).
  clear E. exists s. split; [| done].
  assert (∀ t, 0 <= t < lh_n demo_log → False) as Hno by (cbn; lia).
  constructor; [constructor | done | done | cbn; lia | split; vm_compute; reflexivity].
  - done.
  - split; [split |]; vm_compute; done || discriminate.
  - intros t Ht. by destruct (Hno t Ht).
  - vm_compute. constructor.
  - intros t Ht. by destruct (Hno t Ht).
  - intros i Hi Hr. by rewrite H0 in Hr.
Qed.

(** It has changed block 100. *)
Lemma demo_txn :
  ∃ s, txn_ok (logging demo_log 100) s ∧ idle s ∧ spare s 1 ∧ dsk s = empty_disk.
Proof.
  destruct demo_txn_open as (s & Hop & H1 & H2 & Hd).
  destruct (update_block_ok 4 demo_log s 100 (λ _, ones) [] [] 0 Hop) as (s' & w' & _ & Htx & Hid & Hd' & _ & Hsp);
    [lia | cbn; lia | done | apply ones_block | apply bio_free_nil | apply not_elem_of_nil |].
  exists s'. split; [done |]. split; [done |]. split; [by apply Hsp | by rewrite Hd'].
Qed.

Lemma log_write_update_witness :
  ∃ s s' w', update_block 4 100 (λ _, ones) (LState demo_log s) (Ctx [] [] 0) =
      Ok tt (LState (logging demo_log 100) s') (Ctx [] w' 0) ∧
    txn_ok (logging demo_log 100) s' ∧ idle s' ∧ dsk s' = dsk s ∧
    (∀ x, view s' x = if x =? 100 then ones else view s x) ∧
    (∀ x, logged (logging demo_log 100) x ↔ logged demo_log x ∨ x = 100).
Proof.
  destruct demo_txn_open as (s & Hop & H1 & H2 & Hd). exists s.
  apply (log_write_update 4 demo_log s 100 (λ _, ones) [] [] 0 Hop);
    [lia | cbn; lia | done | apply ones_block | apply bio_free_nil | apply not_elem_of_nil].
Defined.

Lemma commit_crash_atomic_witness :
  ∃ s s' w' ws,
    commit 4 (LState (logging demo_log 100) s) (Ctx [] [] 0) =
      Ok tt (LState (set_lh_n 0 (logging demo_log 100)) s') (Ctx [] w' 0) ∧
    writes (dsk s') = writes (dsk s) ++ ws ∧
    (∀ c, ¬ (2 <= c < 32) → dread (dsk s') c = view s c) ∧
    ∀ p, p `prefix_of` ws → ∃ s0 l1 s1 w1,
      binit (bcache0 (dwrites (dsk s) p)) (Ctx [] [] 0) = Ok tt s0 (Ctx [] [] 0) ∧
      initlog 4 ROOTDEV 2 30 (LState log0 s0) (Ctx [] [] 0) = Ok tt (LState l1 s1) (Ctx [] w1 0) ∧
      hdr_n (dread (dsk s1) 2) = 0 ∧
      ((∀ c, ¬ (2 <= c < 32) → dread (dsk s1) c = dread (dsk s) c) ∨
       (∀ c, ¬ (2 <= c < 32) → dread (dsk s1) c = view s c)).
Proof.
  destruct demo_txn as (s & Htx & Hid & Hsp & Hd). exists s.
  apply (commit_crash_atomic 4 (logging demo_log 100) s [] [] 0 Htx);
    [vm_compute; reflexivity | done | done | apply bio_free_nil |].
  rewrite Hd. vm_compute. reflexivity.
Defined.

Lemma end_op_commits_witness :
  ∃ s s' w', end_op 4 (LState (logging demo_log 100) s) (Ctx [] [] 0) =
      Ok tt (LState (set_lh_n 0 (set_outstanding 0 (logging demo_log 100))) s') (Ctx [] (w' ++ [C_log]) 0) ∧
    idle s' ∧ ∀ c, ¬ (2 <= c < 32) → dread (dsk s') c = view s c.
Proof.
  destruct demo_txn as (s & Htx & Hid & Hsp & Hd). exists s.
  apply (end_op_commits 4 (logging demo_log 100) s [] [] 0 Htx Hid Hsp);
    [apply bio_free_nil | apply not_elem_of_nil | vm_compute; reflexivity | vm_compute; reflexivity].
Defined.

Lemma begin_op_reserves_witness :
  begin_op (LState (set_outstanding 2 demo_log) (bcache0 empty_disk)) (Ctx [] [] 0) =
    Ok tt (LState (set_outstanding 3 demo_log) (bcache0 empty_disk)) (Ctx [] [] 0).
Proof.
  apply (begin_op_reserves (set_outstanding 2 demo_log) (bcache0 empty_disk) [] [] 0);
    [apply not_elem_of_nil | split; vm_compute; [reflexivity | discriminate]].
Defined.

(** Booted, and no operation has begun. *)
Lemma log_reservation_too_big_witness :
  ∃ s, (begin_op ;; begin_op ;; begin_op ;; update_blocks 4 (seqZ 100 30) (λ _ _, ones))
         (LState (set_outstanding 0 demo_log) s) (Ctx [] [] 0) = Panic "too big a transaction".
Proof.
  destruct demo_txn_open as (s & Hop & _). exists s.
  apply (log_reservation_too_big 4 (set_outstanding 0 demo_log) s (seqZ 100 30) (λ _ _, ones) [] 0);
    try reflexivity.
  - apply (txn_ok_flags demo_log s 0 false), Hop.
  - apply Hop.
  - intros _ _ _. apply ones_block.
  - apply NoDup_seqZ.
  - apply Forall_forall. intros c Hc%elem_of_seqZ. split; cbn; lia.
Defined.
