(* ===== verification/Pipe.v ===== *)
(** * Pipes (kernel/pipe.c)

    One pipe, with the user memory of the process that reads or writes it.
    [pipealloc] is with the file table, in File.v. *)

From S2P Require Import Prelude Monad Riscv Mem Kalloc Vm VmMap VmCopy.

Definition PIPESIZE : Z := 512.

Record pipe := Pipe {
  pdata : list Z;
  nread : Z;
  nwrite : Z;
  readopen : bool;
  writeopen : bool }.

(** The pipe, physical memory, and [myproc()->killed]. *)
Record pstate := PState {
  pp : pipe;
  pm : pmem;
  pkilled : bool }.

Definition pmL : lens pstate pmem := Lens pm (λ m s, PState (pp s) m (pkilled s)).

Definition updp (f : pipe → pipe) : K pstate unit :=
  modify (λ s, PState (f (pp s)) (pm s) (pkilled s)).

(** [pi->data[pi->nwrite++ % PIPESIZE] = ch] *)
Definition push (ch : Z) (p : pipe) : pipe :=
  Pipe (zset (pdata p) (nwrite p mod PIPESIZE) ch) (nread p) (u32 (nwrite p + 1)) (readopen p) (writeopen p).

(** [pi->data[pi->nread % PIPESIZE]] and [pi->nread++] *)
Definition front (p : pipe) : Z := default 0 (zget (pdata p) (nread p mod PIPESIZE)).

Definition pop (p : pipe) : pipe :=
  Pipe (pdata p) (u32 (nread p + 1)) (nwrite p) (readopen p) (writeopen p).

(** A new pipe in the page [pi]. *)
Definition pipe0 : pipe := Pipe (replicate (Z.to_nat PIPESIZE) 0) 0 0 true true.

Section pipe.
Context (kend : Z) (pi : Z) (pagetable : Z).

Definition pipeclose (writable : bool) : K pstate unit :=
  acquire (L_pipe pi) ;;
  (if writable then
     updp (λ p, Pipe (pdata p) (nread p) (nwrite p) (readopen p) false) ;;
     wakeup (C_nread pi)
   else
     updp (λ p, Pipe (pdata p) (nread p) (nwrite p) false (writeopen p)) ;;
     wakeup (C_nwrite pi)) ;;
  p <- gets pp ;;
  if negb (readopen p) && negb (writeopen p) then
    release (L_pipe pi) ;;
    lift pmL (kfree kend pi)
  else release (L_pipe pi).

(** The loop of [pipewrite]: [None] when it has returned -1. *)
Fixpoint pipewrite_loop (fuel : nat) (addr n i : Z) : K pstate (option Z) :=
  match fuel with
  | O => λ _ _, NoFuel
  | S f =>
      if i <? n then
        p <- gets pp ;;
        killed <- gets pkilled ;;
        if negb (readopen p) || killed then
          release (L_pipe pi) ;;
          ret None
        else if nwrite p =? u32 (nread p + PIPESIZE) then
          wakeup (C_nread pi) ;;
          sleep (C_nwrite pi) (L_pipe pi) ;;
          pipewrite_loop f addr n i
        else
          r <- lift pmL (copyin pagetable (u64 (addr + i)) 1) ;;
          if r.1 =? -1 then ret (Some i)
          else
            updp (push (default 0 (head r.2))) ;;
            pipewrite_loop f addr n (i + 1)
      else ret (Some i)
  end.

Definition pipewrite (addr n : Z) : K pstate Z :=
  acquire (L_pipe pi) ;;
  r <- (λ s x, pipewrite_loop (S (Z.to_nat n + naps x)) addr n 0 s x) ;;
  match r with
  | None => ret (-1)
  | Some i =>
      wakeup (C_nread pi) ;;
      release (L_pipe pi) ;;
      ret i
  end.

(** The first loop of [piperead]: [false] when it has returned -1. *)
Fixpoint piperead_wait (fuel : nat) : K pstate bool :=
  match fuel with
  | O => λ _ _, NoFuel
  | S f =>
      p <- gets pp ;;
      if (nread p =? nwrite p) && writeopen p then
        killed <- gets pkilled ;;
        if (killed : bool) then
          release (L_pipe pi) ;;
          ret false
        else
          sleep (C_nread pi) (L_pipe pi) ;;
          piperead_wait f
      else ret true
  end.

(** The second loop, from [i] on with [k] turns left. *)
Fixpoint piperead_copy (k : nat) (addr i : Z) : K pstate Z :=
  match k with
  | O => ret i
  | S k' =>
      p <- gets pp ;;
      if nread p =? nwrite p then ret i
      else
        updp pop ;;
        r <- lift pmL (copyout pagetable (u64 (addr + i)) [front p]) ;;
        if r =? -1 then ret i else piperead_copy k' addr (i + 1)
  end.

Definition piperead (addr n : Z) : K pstate Z :=
  acquire (L_pipe pi) ;;
  ok <- (λ s x, piperead_wait (S (naps x)) s x) ;;
  if (ok : bool) then
    i <- piperead_copy (Z.to_nat n) addr 0 ;;
    wakeup (C_nwrite pi) ;;
    release (L_pipe pi) ;;
    ret i
  else ret (-1).

(** ** The pipe as a queue of bytes *)

Definition qlen (p : pipe) : nat := Z.to_nat (u32 (nwrite p - nread p)).

Definition content (p : pipe) : list Z :=
  map (λ k, default 0 (zget (pdata p) ((nread p + Z.of_nat k) mod PIPESIZE))) (seq 0 (qlen p)).

Record pipe_ok (p : pipe) : Prop := {
  po_len : length (pdata p) = Z.to_nat PIPESIZE;
  po_nread : 0 <= nread p < 2 ^ 32;
  po_nwrite : 0 <= nwrite p < 2 ^ 32;
  po_fill : u32 (nwrite p - nread p) <= PIPESIZE }.

Lemma length_content p : length (content p) = qlen p.
Proof. unfold content. by rewrite length_map, length_seq. Qed.

Lemma pipe_full p : pipe_ok p → (nwrite p =? u32 (nread p + PIPESIZE)) = (qlen p =? Z.to_nat PIPESIZE)%nat.
Proof.
  intros [H1 H2 H3 H4]. unfold qlen, u32, PIPESIZE in *.
  destruct (Z.eqb_spec (nwrite p) ((nread p + 512) mod 2 ^ 32)), (Nat.eqb_spec (Z.to_nat ((nwrite p - nread p) mod 2 ^ 32)) (Z.to_nat 512));
    try done; exfalso; dlia.
Qed.

Lemma pipe_empty p : pipe_ok p → (nread p =? nwrite p) = (qlen p =? 0)%nat.
Proof.
  intros [H1 H2 H3 H4]. unfold qlen, u32, PIPESIZE in *.
  destruct (Z.eqb_spec (nread p) (nwrite p)), (Nat.eqb_spec (Z.to_nat ((nwrite p - nread p) mod 2 ^ 32)) 0);
    try done; exfalso; dlia.
Qed.

(** The counters wrap at 2^32, a multiple of the size of the ring. *)
Lemma wrap_mod k : u32 k mod PIPESIZE = k mod PIPESIZE.
Proof. unfold u32, PIPESIZE. dlia. Qed.

Lemma push_ok p ch :
  pipe_ok p → (qlen p < Z.to_nat PIPESIZE)%nat →
  pipe_ok (push ch p) ∧ content (push ch p) = content p ++ [ch].
Proof.
  intros Hok Hroom. pose proof Hok as [H1 H2 H3 H4].
  assert (qlen (push ch p) = S (qlen p)) as Hq.
  { unfold qlen, push, u32, PIPESIZE in *. cbn [nwrite nread]. dlia. }
  split.
  - constructor; cbn [push pdata nread nwrite].
    + by rewrite length_zset.
    + done.
    + apply u32_range.
    + unfold qlen, u32, PIPESIZE in *. dlia.
  - unfold content. rewrite Hq, seq_S, map_app. simpl. f_equal.
    + apply map_ext_in. intros k Hk. apply in_seq in Hk. f_equal. cbn [push pdata nread].
      apply zget_zset_ne. unfold qlen, u32, PIPESIZE in *. dlia.
    + f_equal. cbn [push pdata nread].
      replace ((nread p + Z.of_nat (qlen p)) mod PIPESIZE) with (nwrite p mod PIPESIZE)
        by (unfold qlen, u32, PIPESIZE in *; dlia).
      rewrite zget_zset_eq; [done |]. rewrite H1. unfold PIPESIZE. dlia.
Qed.

Lemma pop_ok p :
  pipe_ok p → (0 < qlen p)%nat → pipe_ok (pop p) ∧ content p = front p :: content (pop p).
Proof.
  intros Hok Hne. pose proof Hok as [H1 H2 H3 H4].
  assert (qlen p = S (qlen (pop p))) as Hq.
  { unfold qlen, pop, u32, PIPESIZE in *. cbn [nwrite nread]. dlia. }
  split.
  - constructor; cbn [pop pdata nread nwrite]; try done.
    + apply u32_range.
    + unfold qlen, u32, PIPESIZE in *. dlia.
  - unfold content. rewrite Hq. cbn [seq map]. f_equal.
    + unfold front. by rewrite Z.add_0_r.
    + rewrite <- seq_shift, map_map. apply map_ext. intros k. cbn [pop pdata nread]. do 2 f_equal.
      unfold u32, PIPESIZE. dlia.
Qed.

(** ** Copying single bytes *)

Section fifo.
Context (Hkend : 0 < kend).

Lemma copyin_one va b m x :
  user_ok kend (ram m) pagetable → 0 <= va < 2 ^ 64 → ubyte (ram m) pagetable va = Some b →
  copyin pagetable va 1 m x = Ok (0, [b]) m x.
Proof.
  intros Hu Hva Hb. unfold copyin.
  destruct (copyin_loop_ok kend Hkend 1 pagetable va 1 m x Hu Hva) as (r & bs & E & Hrd & Hr); [done |].
  rewrite E. destruct Hr as [[-> Hl] | (_ & Hl & Hn)].
  - destruct bs as [| c [| ]]; [done | | done]. specialize (Hrd 0%nat c eq_refl).
    rewrite Z.add_0_r in Hrd. congruence.
  - destruct bs; [| simpl in Hl; lia]. simpl in Hn. rewrite Z.add_0_r in Hn.
    unfold ubyte in Hb. by rewrite Hn in Hb.
Qed.

Lemma copyout_one va b m x :
  user_ok kend (ram m) pagetable → 0 <= va < 2 ^ 64 → is_Some (upage (ram m) pagetable va) →
  ∃ m', copyout pagetable va [b] m x = Ok 0 m' x ∧ wrote kend pagetable va [b] (ram m) (ram m') ∧
        freelist m' = freelist m.
Proof.
  intros Hu Hva [pa Hpa]. unfold copyout.
  destruct (copyout_loop_ok kend Hkend 1 pagetable va [b] m x Hu Hva) as (r & m' & k & E & Hfl & Hw & Hr); [done |].
  exists m'. cbn [length]. rewrite E. destruct Hr as [[-> Hk] | (_ & Hk & Hn)].
  - simpl in Hk. by rewrite take_ge in Hw by (simpl; lia).
  - simpl in Hk. replace k with 0%nat in Hn by lia. rewrite Z.add_0_r in Hn. congruence.
Qed.

(** ** pipewrite *)

(** The user's bytes from [va] on. *)
Definition ubytes (m : pmem) (va : Z) (bs : list Z) : Prop :=
  0 <= va ∧ va + Z.of_nat (length bs) < 2 ^ 64 ∧ ureads (ram m) pagetable va bs.

Lemma ubytes_cons m va b bs :
  ubytes m va (b :: bs) → ubyte (ram m) pagetable va = Some b ∧ ubytes m (va + 1) bs.
Proof.
  intros (H1 & H2 & H3). cbn [length] in H2. split.
  - specialize (H3 0%nat b eq_refl). by rewrite Z.add_0_r in H3.
  - split; [lia |]. split; [lia |]. intros i c Hc. rewrite <- (H3 (S i) c Hc). f_equal. lia.
Qed.

(** One turn that stores a byte. *)
Lemma pipewrite_turn f addr n i b bs p m x :
  user_ok kend (ram m) pagetable → ubytes m (addr + i) (b :: bs) → 0 <= addr → 0 <= i < n →
  pipe_ok p → readopen p = true → (qlen p < Z.to_nat PIPESIZE)%nat →
  pipewrite_loop (S f) addr n i (PState p m false) x =
  pipewrite_loop f addr n (i + 1) (PState (push b p) m false) x.
Proof.
  intros Hu Hb Ha Hi Hok Hro Hq. cbn [pipewrite_loop]. destruct (Z.ltb_spec i n); [| lia].
  kstep. kstep. cbn [pp pkilled]. rewrite Hro, (pipe_full p Hok). cbn [negb orb].
  destruct (Nat.eqb_spec (qlen p) (Z.to_nat PIPESIZE)); [lia |].
  pose proof Hb as (Hb1 & Hb2 & _). simpl in Hb2.
  destruct (ubytes_cons _ _ _ _ Hb) as [Hbyte _]. rewrite u64_small by lia.
  erewrite bind_ok; [| apply (lift_ok pmL); apply copyin_one; [done | lia | exact Hbyte]].
  cbn [fst snd Z.eqb head default from_option id]. unfold updp. kstep. done.
Qed.

Lemma pipewrite_fits bs : ∀ f addr i p m x,
  user_ok kend (ram m) pagetable → ubytes m (addr + i) bs → 0 <= addr → 0 <= i →
  pipe_ok p → readopen p = true → (qlen p + length bs <= Z.to_nat PIPESIZE)%nat → (length bs < f)%nat →
  ∃ p', pipewrite_loop f addr (i + Z.of_nat (length bs)) i (PState p m false) x =
      Ok (Some (i + Z.of_nat (length bs))) (PState p' m false) x ∧
    pipe_ok p' ∧ content p' = content p ++ bs ∧ readopen p' = true.
Proof.
  induction bs as [| b bs IH]; intros f addr i p m x Hu Hb Ha Hi Hok Hro Hq Hf;
    (destruct f as [| f]; [simpl in Hf; lia |]).
  - exists p. cbn [length pipewrite_loop]. rewrite Z.add_0_r. rewrite Z.ltb_irrefl, app_nil_r. done.
  - cbn [length] in *. rewrite (pipewrite_turn f addr _ i b bs); try done; try lia.
    destruct (push_ok p b Hok ltac:(lia)) as [Hok' Hc]. destruct (ubytes_cons _ _ _ _ Hb) as [_ Hb'].
    destruct (IH f addr (i + 1) (push b p) m x) as (p' & E & H1 & H2 & H3); try done; try lia.
    + by rewrite Z.add_assoc.
    + rewrite <- length_content, Hc, length_app, length_content. simpl. lia.
    + exists p'. replace (i + Z.of_nat (S (length bs))) with (i + 1 + Z.of_nat (length bs)) by lia.
      split; [done |]. split; [done |]. split; [| done]. by rewrite H2, Hc, <- app_assoc.
Qed.

(** A write that does not fit stops in [sleep] with the ring full, at the
    first byte that did not fit. *)
Lemma pipewrite_blocks bs : ∀ f addr i p m w k,
  user_ok kend (ram m) pagetable → ubytes m (addr + i) bs → 0 <= addr → 0 <= i →
  pipe_ok p → readopen p = true → (Z.to_nat PIPESIZE < qlen p + length bs)%nat → (length bs < f)%nat →
  let room := (Z.to_nat PIPESIZE - qlen p)%nat in
  ∃ p', pipewrite_loop f addr (i + Z.of_nat (length bs)) i (PState p m false) (Ctx [L_pipe pi] w (S k)) =
      Sleeping (C_nwrite pi) (PState p' m false) (Ctx [] (w ++ [C_nread pi]) k) (λ s' x',
        obind (acquire (L_pipe pi) s' x') (λ _,
          pipewrite_loop (f - S room) addr (i + Z.of_nat (length bs)) (i + Z.of_nat room))) ∧
    pipe_ok p' ∧ content p' = content p ++ take room bs ∧ readopen p' = true.
Proof.
  induction bs as [| b bs IH]; intros f addr i p m w k Hu Hb Ha Hi Hok Hro Hq Hf room.
  - exfalso. destruct Hok as [_ _ _ Hfill]. simpl in Hq. unfold qlen in Hq. lia.
  - destruct f as [| f]; [simpl in Hf; lia |].
    destruct (decide (qlen p = Z.to_nat PIPESIZE)) as [Hfull | Hnf].
    + exists p. cbn [pipewrite_loop length]. destruct (Z.ltb_spec i (i + Z.of_nat (S (length bs)))); [| lia].
      kstep. kstep. cbn [pp pkilled]. rewrite Hro, (pipe_full p Hok), Hfull, Nat.eqb_refl. cbn [negb orb].
      replace room with 0%nat by (unfold room; lia). rewrite take_0, app_nil_r, Z.add_0_r.
      split; [| done]. kstep. unfold bind at 1, sleep. ksimpl.
      rewrite decide_True by apply list_elem_of_here. rewrite decide_True.
      * cbn [obind naps]. by rewrite Nat.sub_1_r.
      * by rewrite filter_cons, decide_False by naive_solver.
    + assert (qlen p < Z.to_nat PIPESIZE)%nat as Hlt.
      { destruct Hok as [_ _ _ Hfill]. unfold qlen in *. lia. }
      cbn [length] in *. rewrite (pipewrite_turn f addr _ i b bs); try done; try lia.
      destruct (push_ok p b Hok Hlt) as [Hok' Hc]. destruct (ubytes_cons _ _ _ _ Hb) as [_ Hb'].
      assert (qlen (push b p) = S (qlen p)) as Hql.
      { rewrite <- !length_content, Hc, length_app. simpl. lia. }
      destruct (IH f addr (i + 1) (push b p) m w k) as (p' & E & H1 & H2 & H3); try done; try lia.
      { by rewrite Z.add_assoc. }
      rewrite Hql in E, H2. replace room with (S (Z.to_nat PIPESIZE - S (qlen p))) by (unfold room; lia).
      set (r' := (Z.to_nat PIPESIZE - S (qlen p))%nat) in *. exists p'.
      replace (i + Z.of_nat (S (length bs))) with (i + 1 + Z.of_nat (length bs)) by lia.
      replace (i + Z.of_nat (S r')) with (i + 1 + Z.of_nat r') by lia.
      split; [exact E |]. split; [done |]. split; [| done]. by rewrite H2, Hc, <- app_assoc.
Qed.

(** ** piperead *)

(** The user can be written from [va] on. *)
Definition uspace (m : pmem) (va : Z) (len : nat) : Prop :=
  0 <= va ∧ va + Z.of_nat len < 2 ^ 64 ∧
  ∀ j, (j < len)%nat → is_Some (upage (ram m) pagetable (va + Z.of_nat j)).

Lemma piperead_copy_ok k : ∀ addr i p m kd x,
  user_ok kend (ram m) pagetable → uspace m (addr + i) (Nat.min k (length (content p))) →
  0 <= addr → 0 <= i → pipe_ok p →
  let r := Nat.min k (length (content p)) in
  ∃ p' m', piperead_copy k addr i (PState p m kd) x = Ok (i + Z.of_nat r) (PState p' m' kd) x ∧
    pipe_ok p' ∧ content p' = drop r (content p) ∧
    wrote kend pagetable (addr + i) (take r (content p)) (ram m) (ram m').
Proof.
  induction k as [| k IH]; intros addr i p m kd x Hu Hsp Ha Hi Hok r.
  { exists p, m. cbn [piperead_copy]. unfold r. rewrite Nat.min_0_l. cbn [Z.of_nat take drop].
    rewrite Z.add_0_r. split; [done |]. split; [done |]. split; [done |]. by apply wrote_nil. }
  cbn [piperead_copy]. kstep. cbn [pp]. rewrite (pipe_empty p Hok).
  destruct (Nat.eqb_spec (qlen p) 0) as [H0 | Hne].
  { exists p, m. assert (length (content p) = 0%nat) as Hl by (by rewrite length_content).
    unfold r. rewrite Hl, Nat.min_0_r. cbn [Z.of_nat take drop].
    rewrite Z.add_0_r. split; [done |]. split; [done |]. split; [done |]. by apply wrote_nil. }
  destruct (pop_ok p Hok ltac:(lia)) as [Hok' Hc]. unfold updp. kstep. cbn [pp pm pkilled].
  unfold r in *. rewrite Hc in *. cbn [length] in *.
  destruct Hsp as (S1 & S2 & S3).
  destruct (copyout_one (addr + i) (front p) m x) as (m1 & E1 & Hw1 & _); [done | lia | |].
  { specialize (S3 0%nat ltac:(lia)). by rewrite Z.add_0_r in S3. }
  rewrite u64_small by lia.
  erewrite bind_ok; [| apply (lift_ok pmL); exact E1]. cbn [lput pmL pp pkilled Z.eqb].
  destruct (IH addr (i + 1) (pop p) m1 kd x) as (p' & m' & E & H1 & H2 & H3); try done; try lia.
  { apply Hw1. }
  { split; [lia |]. split; [lia |]. intros j Hj. rewrite (w_upage _ _ _ _ _ _ Hw1).
    specialize (S3 (S j) ltac:(lia)). by replace (addr + (i + 1) + Z.of_nat j) with (addr + i + Z.of_nat (S j)) by lia. }
  exists p', m'. cbn [Nat.min take drop].
  replace (i + Z.of_nat (S (Nat.min k (length (content (pop p)))))) with (i + 1 + Z.of_nat (Nat.min k (length (content (pop p))))) by lia.
  split; [done |]. split; [done |]. split; [done |].
  apply (wrote_app kend pagetable (addr + i) [front p] _ (ram m) (ram m1)); [done |].
  cbn [length]. by replace (addr + i + Z.of_nat 1) with (addr + (i + 1)) by lia.
Qed.

(** ** Properties *)

(** C24: [pipewrite] appends to the queue.  If the bytes fit it returns their
    number at once and wakes the readers.  If they do not, it fills the ring,
    wakes the readers and sleeps; woken up with room for the rest it goes on
    where it stopped, so that no byte is lost, repeated or reordered.  The byte
    counters may wrap around at any point. *)
Theorem pipewrite_fifo bs addr p m w k :
  user_ok kend (ram m) pagetable → ubytes m addr bs → pipe_ok p → readopen p = true →
  let n := Z.of_nat (length bs) in
  let room := (Z.to_nat PIPESIZE - length (content p))%nat in
  ((length bs <= room)%nat →
     ∃ p', pipewrite addr n (PState p m false) (Ctx [] w k) =
         Ok n (PState p' m false) (Ctx [] (w ++ [C_nread pi]) k) ∧
       pipe_ok p' ∧ content p' = content p ++ bs) ∧
  ((room < length bs)%nat →
     ∃ p' kont, pipewrite addr n (PState p m false) (Ctx [] w (S k)) =
         Sleeping (C_nwrite pi) (PState p' m false) (Ctx [] (w ++ [C_nread pi]) k) kont ∧
       pipe_ok p' ∧ content p' = content p ++ take room bs ∧
       ∀ p2 w2 k2, pipe_ok p2 → readopen p2 = true →
         (length (content p2) + length (drop room bs) <= Z.to_nat PIPESIZE)%nat →
         ∃ p3, kont (PState p2 m false) (Ctx [] w2 k2) =
             Ok n (PState p3 m false) (Ctx [] (w2 ++ [C_nread pi]) k2) ∧
           content p3 = content p2 ++ drop room bs).
Proof.
  intros Hu Hb Hok Hro n room. pose proof Hb as (Ha & Hb1 & _). pose proof (po_fill _ Hok) as Hfill.
  assert (length (content p) <= Z.to_nat PIPESIZE)%nat as Hle.
  { rewrite length_content. unfold qlen. lia. }
  split; intros Hr.
  - destruct (pipewrite_fits bs (S (Z.to_nat n + k)) addr 0 p m (Ctx [L_pipe pi] w k)) as (p' & E & H1 & H2 & _);
      try done; try lia; [by rewrite Z.add_0_r | rewrite <- length_content; lia |].
    exists p'. split; [| done]. unfold pipewrite. kacq.
    erewrite bind_ok; [| cbn [naps]; exact E]. kstep. krel. done.
  - destruct (pipewrite_blocks bs (S (Z.to_nat n + S k)) addr 0 p m w k) as (p' & E & H1 & H2 & _);
      try done; try lia; [by rewrite Z.add_0_r | rewrite <- length_content; lia |].
    rewrite <- length_content in E, H2. fold room in E, H2.
    change (0 + Z.of_nat (length bs)) with n in E. change (0 + Z.of_nat room) with (Z.of_nat room) in E.
    exists p'. eexists. split; [unfold pipewrite; kacq; unfold bind at 1; cbn [naps]; rewrite E; reflexivity |].
    split; [done |]. split; [done |]. intros p2 w2 k2 Hok2 Hro2 Hl2.
    destruct (pipewrite_fits (drop room bs) (S (Z.to_nat n + S k) - S room) addr (Z.of_nat room) p2 m
                (Ctx [L_pipe pi] w2 k2)) as (p3 & E3 & _ & H5 & _); try done; try lia.
    + destruct Hb as (_ & _ & Hrd). split; [lia |]. rewrite length_drop. split; [lia |].
      intros i c Hc. rewrite lookup_drop in Hc. rewrite <- (Hrd _ _ Hc). f_equal. lia.
    + rewrite <- length_content. lia.
    + rewrite length_drop. lia.
    + exists p3. split; [| done]. rewrite acquire_ok by (cbn; apply not_elem_of_nil). cbn [obind]. ksimpl.
      replace (Z.of_nat room + Z.of_nat (length (drop room bs))) with n in E3
        by (unfold n; rewrite length_drop; lia).
      rewrite E3. cbn [obind]. kstep. krel. done.
Qed.

(** C25: [piperead] takes from the front of the queue.  It sleeps while the pipe
    is empty and a writer is left; otherwise it returns the first bytes of the
    queue, as many as are there and asked for, in the user's memory, removes
    them, and wakes the writers.  At the end of the data it returns 0. *)
Theorem piperead_fifo addr n p m kd w k :
  user_ok kend (ram m) pagetable → pipe_ok p → 0 <= n →
  let r := Nat.min (Z.to_nat n) (length (content p)) in
  uspace m addr r →
  (content p = [] → writeopen p = true → kd = false →
     ∃ kont, piperead addr n (PState p m kd) (Ctx [] w (S k)) =
       Sleeping (C_nread pi) (PState p m kd) (Ctx [] w k) kont) ∧
  (content p ≠ [] ∨ writeopen p = false →
     ∃ p' m', piperead addr n (PState p m kd) (Ctx [] w k) =
         Ok (Z.of_nat r) (PState p' m' kd) (Ctx [] (w ++ [C_nwrite pi]) k) ∧
       pipe_ok p' ∧ content p' = drop r (content p) ∧
       wrote kend pagetable addr (take r (content p)) (ram m) (ram m')).
Proof.
  intros Hu Hok Hn r Hsp.
  assert (content p = [] ↔ qlen p = 0%nat) as Hnil.
  { rewrite <- length_content. split; [by intros -> | apply length_zero_iff_nil]. }
  split.
  - intros Hc Hwo ->. eexists. unfold piperead. kacq. unfold bind at 1. cbn [naps piperead_wait].
    kstep. cbn [pp]. rewrite (pipe_empty p Hok), Hwo. apply Hnil in Hc. rewrite Hc. cbn [Nat.eqb andb].
    kstep. cbn [pkilled]. unfold bind at 1, sleep. ksimpl.
    rewrite decide_True by apply list_elem_of_here. rewrite decide_True; [reflexivity |].
    by rewrite filter_cons, decide_False by naive_solver.
  - intros Hor.
    destruct (piperead_copy_ok (Z.to_nat n) addr 0 p m kd (Ctx [L_pipe pi] w k)) as (p' & m' & E & H1 & H2 & H3);
      try done; try lia; [by rewrite Z.add_0_r | by destruct Hsp |].
    exists p', m'. rewrite Z.add_0_r in H3. split; [| done].
    unfold piperead. kacq.
    assert (piperead_wait (S k) (PState p m kd) (Ctx [L_pipe pi] w k) = Ok true (PState p m kd) (Ctx [L_pipe pi] w k)) as Ew.
    { cbn [piperead_wait]. kstep. cbn [pp]. rewrite (pipe_empty p Hok).
      destruct Hor as [Hor | ->]; [| by rewrite andb_false_r].
      destruct (Nat.eqb_spec (qlen p) 0); [by destruct Hor; apply Hnil | done]. }
    erewrite bind_ok; [| cbn [naps]; exact Ew]. cbv beta iota. change (0 + Z.of_nat r) with (Z.of_nat r) in E.
    rewrite (bind_ok _ _ _ _ _ _ _ E). kstep. krel. done.
Qed.
End fifo.
End pipe.

(** *** Witnesses *)

(** A pipe whose counters are about to wrap. *)
Definition demo_pipe : pipe :=
  Pipe (replicate (Z.to_nat PIPESIZE) 7) (2 ^ 32 - 2) (2 ^ 32 - 1) true true.

Lemma demo_pipe_ok : pipe_ok demo_pipe.
Proof. constructor; vm_compute; done || (split; congruence). Qed.

Lemma demo_ubytes : ubytes (frame5 0) demo_user 4095 [0; 0].
Proof.
  split; [lia |]. split; [simpl; lia |]. intros i b Hi.
  destruct i as [| [| i]]; [injection Hi as <- | injection Hi as <- | done]; vm_compute; reflexivity.
Qed.

Lemma pipewrite_fifo_witness :
  ∃ p', pipewrite 99 (frame5 0) 4095 2 (PState demo_pipe demo_user false) (Ctx [] [] 0) =
      Ok 2 (PState p' demo_user false) (Ctx [] [C_nread 99] 0) ∧
    pipe_ok p' ∧ content p' = [7; 0; 0].
Proof.
  apply (pipewrite_fifo kend5 99 (frame5 0) eq_refl [0; 0] 4095 demo_pipe demo_user [] 0);
    [apply demo_user_ok | apply demo_ubytes | apply demo_pipe_ok | reflexivity | vm_compute; lia].
Defined.

Lemma piperead_fifo_witness :
  ∃ p' m', piperead 99 (frame5 0) 4095 5 (PState demo_pipe demo_user false) (Ctx [] [] 0) =
      Ok 1 (PState p' m' false) (Ctx [] [C_nwrite 99] 0) ∧
    pipe_ok p' ∧ content p' = [] ∧ wrote kend5 (frame5 0) 4095 [7] (ram demo_user) (ram m').
Proof.
  apply (piperead_fifo kend5 99 (frame5 0) eq_refl 4095 5 demo_pipe demo_user false [] 0);
    [apply demo_user_ok | apply demo_pipe_ok | lia | | left; vm_compute; discriminate].
  split; [lia |]. split; [vm_compute; reflexivity |]. intros j Hj.
  assert (j = 0%nat) as -> by (vm_compute in Hj; lia). vm_compute. by eexists.
Defined.
