(* ===== verification/Proc.v ===== *)
(** * Processes (kernel/proc.c)

    The process table, with the physical memory that process page tables and
    trapframes live in.  A [struct proc *] is an index of the table.  [fork],
    [exit] and [userinit], which also use files and inodes, are in Kernel.v. *)

From S2P Require Import Prelude Monad Riscv Mem Kalloc Vm.

Inductive procstate := UNUSED | USED | SLEEPING | RUNNABLE | RUNNING | ZOMBIE.

#[export] Instance procstate_eq_dec : EqDecision procstate.
Proof. solve_decision. Defined.

(** [chan], [parent], [cwd] and the entries of [ofile] are [None] for the null
    pointer; [trapframe] and [pagetable] are addresses, 0 when absent.  Of
    [struct context] the kernel's C code sets [ra] and [sp] only. *)
Record proc := Proc {
  state : procstate;
  pchan : option chan;
  killed : bool;
  xstate : Z;
  pid : Z;
  parent : option Z;
  kstack : Z;
  sz : Z;
  pagetable : Z;
  trapframe : Z;
  ctx_ra : Z;
  ctx_sp : Z;
  ofile : list (option Z);
  cwd : option Z;
  name : list Z }.

Definition set_state (v : procstate) (p : proc) : proc :=
  Proc v (pchan p) (killed p) (xstate p) (pid p) (parent p) (kstack p) (sz p) (pagetable p)
       (trapframe p) (ctx_ra p) (ctx_sp p) (ofile p) (cwd p) (name p).
Definition set_chan (v : option chan) (p : proc) : proc :=
  Proc (state p) v (killed p) (xstate p) (pid p) (parent p) (kstack p) (sz p) (pagetable p)
       (trapframe p) (ctx_ra p) (ctx_sp p) (ofile p) (cwd p) (name p).
Definition set_killed (v : bool) (p : proc) : proc :=
  Proc (state p) (pchan p) v (xstate p) (pid p) (parent p) (kstack p) (sz p) (pagetable p)
       (trapframe p) (ctx_ra p) (ctx_sp p) (ofile p) (cwd p) (name p).
Definition set_xstate (v : Z) (p : proc) : proc :=
  Proc (state p) (pchan p) (killed p) v (pid p) (parent p) (kstack p) (sz p) (pagetable p)
       (trapframe p) (ctx_ra p) (ctx_sp p) (ofile p) (cwd p) (name p).
Definition set_pid (v : Z) (p : proc) : proc :=
  Proc (state p) (pchan p) (killed p) (xstate p) v (parent p) (kstack p) (sz p) (pagetable p)
       (trapframe p) (ctx_ra p) (ctx_sp p) (ofile p) (cwd p) (name p).
Definition set_parent (v : option Z) (p : proc) : proc :=
  Proc (state p) (pchan p) (killed p) (xstate p) (pid p) v (kstack p) (sz p) (pagetable p)
       (trapframe p) (ctx_ra p) (ctx_sp p) (ofile p) (cwd p) (name p).
Definition set_kstack (v : Z) (p : proc) : proc :=
  Proc (state p) (pchan p) (killed p) (xstate p) (pid p) (parent p) v (sz p) (pagetable p)
       (trapframe p) (ctx_ra p) (ctx_sp p) (ofile p) (cwd p) (name p).
Definition set_sz (v : Z) (p : proc) : proc :=
  Proc (state p) (pchan p) (killed p) (xstate p) (pid p) (parent p) (kstack p) v (pagetable p)
       (trapframe p) (ctx_ra p) (ctx_sp p) (ofile p) (cwd p) (name p).
Definition set_pagetable (v : Z) (p : proc) : proc :=
  Proc (state p) (pchan p) (killed p) (xstate p) (pid p) (parent p) (kstack p) (sz p) v
       (trapframe p) (ctx_ra p) (ctx_sp p) (ofile p) (cwd p) (name p).
Definition set_trapframe (v : Z) (p : proc) : proc :=
  Proc (state p) (pchan p) (killed p) (xstate p) (pid p) (parent p) (kstack p) (sz p) (pagetable p)
       v (ctx_ra p) (ctx_sp p) (ofile p) (cwd p) (name p).
Definition set_context (ra sp : Z) (p : proc) : proc :=
  Proc (state p) (pchan p) (killed p) (xstate p) (pid p) (parent p) (kstack p) (sz p) (pagetable p)
       (trapframe p) ra sp (ofile p) (cwd p) (name p).
Definition set_ofile (v : list (option Z)) (p : proc) : proc :=
  Proc (state p) (pchan p) (killed p) (xstate p) (pid p) (parent p) (kstack p) (sz p) (pagetable p)
       (trapframe p) (ctx_ra p) (ctx_sp p) v (cwd p) (name p).
Definition set_cwd (v : option Z) (p : proc) : proc :=
  Proc (state p) (pchan p) (killed p) (xstate p) (pid p) (parent p) (kstack p) (sz p) (pagetable p)
       (trapframe p) (ctx_ra p) (ctx_sp p) (ofile p) v (name p).
Definition set_name (v : list Z) (p : proc) : proc :=
  Proc (state p) (pchan p) (killed p) (xstate p) (pid p) (parent p) (kstack p) (sz p) (pagetable p)
       (trapframe p) (ctx_ra p) (ctx_sp p) (ofile p) (cwd p) v.

Definition proc0 : proc :=
  Proc UNUSED None false 0 0 None 0 0 0 0 0 0 (replicate (Z.to_nat NOFILE) None) None (replicate 16 0).

Record procs := Procs {
  tbl : list proc;
  initproc : Z;
  nextpid : Z;
  mem_ : pmem }.

Definition memL : lens procs pmem := Lens mem_ (λ m s, Procs (tbl s) (initproc s) (nextpid s) m).

Definition getp (s : procs) (i : Z) : proc := default proc0 (zget (tbl s) i).

Definition setp (i : Z) (p : proc) (s : procs) : procs :=
  Procs (zset (tbl s) i p) (initproc s) (nextpid s) (mem_ s).

Definition updproc (i : Z) (f : proc → proc) : K procs unit := modify (λ s, setp i (f (getp s i)) s).

(** The static table, all zero, with [nextpid = 1]. *)
Definition procs0 (m : pmem) : procs := Procs (replicate (Z.to_nat NPROC) proc0) 0 1 m.

Definition procinit : K procs unit :=
  for_each (seqZ 0 NPROC) (λ i, updproc i (set_kstack (KSTACK i))).

Section proc.
(** Linker symbols. *)
Context (kend trampoline forkret_addr : Z).

Definition allocpid : K procs Z :=
  acquire L_pid ;;
  p <- gets nextpid ;;
  modify (λ s, Procs (tbl s) (initproc s) (i32 (nextpid s + 1)) (mem_ s)) ;;
  release L_pid ;;
  ret p.

Definition proc_pagetable (tf : Z) : K pmem Z :=
  pt <- uvmcreate ;;
  if pt =? 0 then ret 0
  else
    r <- mappages pt TRAMPOLINE PGSIZE trampoline (Z.lor PTE_R PTE_X) ;;
    if r <? 0 then uvmfree kend pt 0 ;; ret 0
    else
      r <- mappages pt TRAPFRAME PGSIZE tf (Z.lor PTE_R PTE_W) ;;
      if r <? 0 then
        uvmunmap kend pt TRAMPOLINE 1 false ;;
        uvmfree kend pt 0 ;;
        ret 0
      else ret pt.

Definition proc_freepagetable (pt size : Z) : K pmem unit :=
  uvmunmap kend pt TRAMPOLINE 1 false ;;
  uvmunmap kend pt TRAPFRAME 1 false ;;
  uvmfree kend pt size.

Definition freeproc (i : Z) : K procs unit :=
  p <- gets (λ s, getp s i) ;;
  when (negb (trapframe p =? 0)) (lift memL (kfree kend (trapframe p))) ;;
  updproc i (set_trapframe 0) ;;
  when (negb (pagetable p =? 0)) (lift memL (proc_freepagetable (pagetable p) (sz p))) ;;
  updproc i (λ p,
    Proc UNUSED None false 0 0 None (kstack p) 0 0 0 (ctx_ra p) (ctx_sp p) (ofile p) (cwd p)
         (zset (name p) 0 0)).

(** The search of [allocproc]: the slot found, with its lock held. *)
Definition find_unused : K procs (option Z) :=
  for_find (seqZ 0 NPROC) (λ i,
    acquire (L_proc i) ;;
    st <- gets (λ s, state (getp s i)) ;;
    if decide (st = UNUSED) then ret (Some i)
    else release (L_proc i) ;; ret None).

(** What follows the label [found]. *)
Definition setup_proc (i : Z) : K procs (option Z) :=
  n <- allocpid ;;
  updproc i (set_pid n) ;;
  updproc i (set_state USED) ;;
  (* Allocate a trapframe page. *)
  tf <- lift memL kalloc ;;
  updproc i (set_trapframe tf) ;;
  if tf =? 0 then
    freeproc i ;;
    release (L_proc i) ;;
    ret None
  else
    (* An empty user page table. *)
    pt <- lift memL (proc_pagetable tf) ;;
    updproc i (set_pagetable pt) ;;
    if pt =? 0 then
      freeproc i ;;
      release (L_proc i) ;;
      ret None
    else
      (* Set up new context to start executing at forkret *)
      updproc i (λ p, set_context forkret_addr (kstack p + PGSIZE) p) ;;
      ret (Some i).

Definition allocproc : K procs (option Z) :=
  r <- find_unused ;;
  match r with
  | None => ret None
  | Some i => setup_proc i
  end.

(** ** The process that runs: [me] is [myproc()] *)

Context (me : Z).

(** [sz] is a [uint] in growproc. *)
Definition growproc (n : Z) : K procs Z :=
  p <- gets (λ s, getp s me) ;;
  let size := u32 (sz p) in
  if 0 <? n then
    r <- lift memL (uvmalloc kend (pagetable p) size (u32 (size + n))) ;;
    let size := u32 r in
    if size =? 0 then ret (-1)
    else updproc me (set_sz size) ;; ret 0
  else if n <? 0 then
    r <- lift memL (uvmdealloc kend (pagetable p) size (u32 (size + n))) ;;
    updproc me (set_sz (u32 r)) ;; ret 0
  else updproc me (set_sz size) ;; ret 0.

Definition reparent (p : Z) : K procs unit :=
  for_each (seqZ 0 NPROC) (λ i,
    pa <- gets (λ s, parent (getp s i)) ;;
    if decide (pa = Some p) then
      ip <- gets initproc ;;
      updproc i (set_parent (Some ip)) ;;
      wakeup (C_proc ip)
    else ret tt).

(** The scan of [wait]: the value it returns, if it does, and [havekids]. *)
Inductive wait_scan :=
  | Returns (v : Z)
  | Scanned (havekids : bool).

Fixpoint wait_table (addr : Z) (l : list Z) (havekids : bool) : K procs wait_scan :=
  match l with
  | [] => ret (Scanned havekids)
  | i :: l' =>
      pa <- gets (λ s, parent (getp s i)) ;;
      if decide (pa = Some me) then
        (* make sure the child isn't still in exit() or swtch(). *)
        acquire (L_proc i) ;;
        np <- gets (λ s, getp s i) ;;
        if decide (state np = ZOMBIE) then
          (* Found one. *)
          my <- gets (λ s, getp s me) ;;
          r <- (if addr =? 0 then ret 0
                else lift memL (copyout (pagetable my) addr (Z_to_little_endian 4 8 (xstate np)))) ;;
          if r <? 0 then
            release (L_proc i) ;;
            release L_wait ;;
            ret (Returns (-1))
          else
            freeproc i ;;
            release (L_proc i) ;;
            release L_wait ;;
            ret (Returns (pid np))
        else
          release (L_proc i) ;;
          wait_table addr l' true
      else wait_table addr l' havekids
  end.

Fixpoint wait_loop (fuel : nat) (addr : Z) : K procs Z :=
  match fuel with
  | O => λ _ _, NoFuel
  | S f =>
      r <- wait_table addr (seqZ 0 NPROC) false ;;
      match r with
      | Returns v => ret v
      | Scanned havekids =>
          k <- gets (λ s, killed (getp s me)) ;;
          (* No point waiting if we don't have any children. *)
          if negb havekids || k then
            release L_wait ;;
            ret (-1)
          else
            (* Wait for a child to exit. *)
            sleep (C_proc me) L_wait ;;
            wait_loop f addr
      end
  end.

Definition wait (addr : Z) : K procs Z :=
  acquire L_wait ;;
  λ s x, wait_loop (S (naps x)) addr s x.

Definition kill (n : Z) : K procs Z :=
  r <- for_find (seqZ 0 NPROC) (λ i,
    acquire (L_proc i) ;;
    p <- gets (λ s, getp s i) ;;
    if pid p =? n then
      updproc i (set_killed true) ;;
      (if decide (state p = SLEEPING) then updproc i (set_state RUNNABLE) else ret tt) ;;
      release (L_proc i) ;;
      ret (Some 0)
    else release (L_proc i) ;; ret None) ;;
  ret (default (-1) r).

(** ** Scheduling *)

(** [sched]'s demands on its caller; [noff] is the number of locks held, and
    interrupts are off while it is not 0 (Spinlock.v).  [swtch] itself is
    assembly. *)
Definition sched_checks : K procs unit := λ s x,
  if negb (bool_decide (L_proc me ∈ held x)) then Panic "sched p->lock"
  else if negb (length (held x) =? 1)%nat then Panic "sched locks"
  else if decide (state (getp s me) = RUNNING) then Panic "sched running"
  else Ok tt s x.

(** [yield] up to the switch to the scheduler. *)
Definition yield_enter : K procs unit :=
  acquire (L_proc me) ;;
  updproc me (set_state RUNNABLE) ;;
  sched_checks.

(** [sleep] up to the switch, and after it. *)
Definition sleep_enter (c : chan) (lk : lockid) : K procs unit :=
  acquire (L_proc me) ;;
  release lk ;;
  (* Go to sleep. *)
  updproc me (set_chan (Some c)) ;;
  updproc me (set_state SLEEPING) ;;
  sched_checks.

Definition sleep_leave (lk : lockid) : K procs unit :=
  (* Tidy up. *)
  updproc me (set_chan None) ;;
  (* Reacquire original lock. *)
  release (L_proc me) ;;
  acquire lk.

(** [wakeup] on the table. *)
Definition wakeup_table (c : chan) : K procs unit :=
  for_each (seqZ 0 NPROC) (λ i,
    if negb (i =? me) then
      acquire (L_proc i) ;;
      p <- gets (λ s, getp s i) ;;
      (if decide (state p = SLEEPING ∧ pchan p = Some c) then updproc i (set_state RUNNABLE)
       else ret tt) ;;
      release (L_proc i)
    else ret tt).

(** One pass of [scheduler] over the table; [run i] is what happens between
    [swtch] to process [i] and the switch back. *)
Definition scheduler_pass (run : Z → K procs unit) : K procs unit :=
  for_each (seqZ 0 NPROC) (λ i,
    acquire (L_proc i) ;;
    st <- gets (λ s, state (getp s i)) ;;
    (if decide (st = RUNNABLE) then
       updproc i (set_state RUNNING) ;;
       run i
     else ret tt) ;;
    release (L_proc i)).

(** ** Copying for code that serves both user and kernel callers *)

Definition either_copyout (user_dst : bool) (dst : Z) (src : list Z) : K procs Z :=
  if user_dst then
    p <- gets (λ s, getp s me) ;;
    lift memL (copyout (pagetable p) dst src)
  else lift memL (modify (λ m, set_ram (write_bytes (ram m) dst src) m)) ;; ret 0.

Definition either_copyin (user_src : bool) (src : Z) (len : nat) : K procs (Z * list Z) :=
  if user_src then
    p <- gets (λ s, getp s me) ;;
    lift memL (copyin (pagetable p) src len)
  else
    bs <- lift memL (gets (λ m, read_bytes (ram m) src len)) ;;
    ret (0, bs).

End proc.
