(* ===== verification/ProcSpec.v ===== *)
(** * What the process table operations do *)

From S2P Require Import Prelude Monad Riscv Mem Kalloc Vm Proc.

Definition tbl_ok (s : procs) : Prop := length (tbl s) = Z.to_nat NPROC.

Definition inproc (i : Z) : Prop := 0 <= i < NPROC.

Lemma getp_setp s i j p :
  tbl_ok s → inproc i → getp (setp i p s) j = if i =? j then p else getp s j.
Proof.
  intros Hl Hi. unfold getp, setp. cbn [tbl]. rewrite zget_zset; [by destruct (i =? j) |].
  unfold tbl_ok, inproc in *. rewrite Hl. unfold NPROC in *. lia.
Qed.

Lemma setp_ok s i p : tbl_ok s → tbl_ok (setp i p s).
Proof. unfold tbl_ok, setp. cbn [tbl]. by rewrite length_zset. Qed.

Lemma setp_setp s i p q : setp i q (setp i p s) = setp i q s.
Proof. unfold setp. cbn. f_equal. unfold zset. destruct (i <? 0); [done |]. apply list_insert_insert_eq. Qed.

Lemma setp_id s i : tbl_ok s → inproc i → setp i (getp s i) s = s.
Proof.
  intros Hl Hi. destruct s as [t a b c]. unfold setp, getp. cbn [tbl initproc nextpid mem_]. f_equal.
  destruct (zget t i) as [p |] eqn:E; [by apply zset_id |]. exfalso.
  destruct (zget_is_Some t i) as [q Hq]; [| congruence].
  unfold tbl_ok, inproc in *. cbn [tbl] in Hl. rewrite Hl. unfold NPROC in *. lia.
Qed.

(** Two tables with the same entries. *)
Lemma procs_ext s s' :
  tbl_ok s → tbl_ok s' → (∀ i, inproc i → getp s i = getp s' i) →
  initproc s = initproc s' → nextpid s = nextpid s' → mem_ s = mem_ s' → s = s'.
Proof.
  destruct s as [t a b c], s' as [t' a' b' c']. unfold tbl_ok, getp. cbn [tbl initproc nextpid mem_].
  intros Hl Hl' H -> -> ->. f_equal. apply list_eq_same_length with (n := Z.to_nat NPROC); [done | done |].
  intros i x y Hi Hx Hy. specialize (H (Z.of_nat i)). rewrite !zget_nat, Hx, Hy in H.
  apply H. unfold inproc, NPROC in *. lia.
Qed.

(** ** Loops over the table *)

(** A body that changes at most the entry it looks at. *)
Definition table_map (f : Z → proc → proc) (l : list Z) (s : procs) : procs :=
  foldl (λ s i, setp i (f i (getp s i)) s) s l.

Lemma table_map_ok f l s :
  tbl_ok s → Forall inproc l → NoDup l →
  tbl_ok (table_map f l s) ∧ initproc (table_map f l s) = initproc s ∧
  nextpid (table_map f l s) = nextpid s ∧ mem_ (table_map f l s) = mem_ s ∧
  ∀ j, getp (table_map f l s) j = if decide (j ∈ l) then f j (getp s j) else getp s j.
Proof.
  unfold table_map. revert s. induction l as [| i l IH]; intros s Hs Hl Hnd; cbn [foldl].
  { do 4 (split; [done |]). intros j. by rewrite decide_False by apply not_elem_of_nil. }
  apply Forall_cons in Hl as [Hi Hl]. apply NoDup_cons in Hnd as [Hn Hnd].
  destruct (IH (setp i (f i (getp s i)) s)) as (H1 & H2 & H3 & H4 & H5); [by apply setp_ok | done | done |].
  do 4 (split; [done |]). intros j. rewrite H5, getp_setp by done.
  destruct (decide (j ∈ l)) as [Hj | Hj].
  - rewrite decide_True by (by right). destruct (Z.eqb_spec i j) as [-> |]; done.
  - destruct (Z.eqb_spec i j) as [-> | Hne].
    + by rewrite decide_True by left.
    + by rewrite decide_False by (rewrite elem_of_cons; naive_solver).
Qed.

Lemma for_each_table f (body : Z → K procs unit) l s x :
  tbl_ok s → Forall inproc l →
  (∀ i s, i ∈ l → tbl_ok s → body i s x = Ok tt (setp i (f i (getp s i)) s) x) →
  for_each l body s x = Ok tt (table_map f l s) x.
Proof.
  unfold table_map. revert s. induction l as [| i l IH]; intros s Hs Hl Hb; [done |].
  apply Forall_cons in Hl as [Hi Hl]. cbn [for_each foldl].
  rewrite (bind_ok _ _ _ _ _ _ _ (Hb i s (list_elem_of_here _ _) Hs)).
  apply IH; [by apply setp_ok | done |]. intros j s' Hj. apply Hb. by right.
Qed.

Lemma seq_inproc : Forall inproc (seqZ 0 NPROC).
Proof. apply Forall_seqZ. unfold inproc. lia. Qed.

Lemma elem_seq_proc i : i ∈ seqZ 0 NPROC ↔ inproc i.
Proof. rewrite elem_of_seqZ. unfold inproc. lia. Qed.

(** Searches over the table that leave it alone until they find something. *)
Lemma for_find_none {S X B} (body : X → K S (option B)) l s x :
  (∀ i, i ∈ l → body i s x = Ok None s x) → for_find l body s x = Ok None s x.
Proof.
  induction l as [| i l IH]; intros H; [done |]. cbn [for_find].
  rewrite (bind_ok _ _ _ _ _ _ _ (H i (list_elem_of_here _ _))). apply IH. intros j Hj. apply H. by right.
Qed.

Lemma for_find_hit {S X B} (body : X → K S (option B)) l1 i l2 s x b s' x' :
  (∀ j, j ∈ l1 → body j s x = Ok None s x) → body i s x = Ok (Some b) s' x' →
  for_find (l1 ++ i :: l2) body s x = Ok (Some b) s' x'.
Proof.
  intros H1 H2. rewrite (for_find_app l1 (i :: l2) body s x s x) by (by apply for_find_none).
  cbn [for_find]. by rewrite (bind_ok _ _ _ _ _ _ _ H2).
Qed.

Lemma find_split {X} (f : X → bool) l x :
  List.find f l = Some x → ∃ l1 l2, l = l1 ++ x :: l2 ∧ f x = true ∧ Forall (λ y, f y = false) l1.
Proof.
  induction l as [| a l IH]; [done |]. simpl. destruct (f a) eqn:E.
  - intros [= ->]. by exists [], l.
  - intros H. destruct (IH H) as (l1 & l2 & -> & Hx & Hf). exists (a :: l1), l2. split; [done |].
    split; [done |]. by constructor.
Qed.

Lemma find_none_forall {X} (f : X → bool) l : List.find f l = None → ∀ x, x ∈ l → f x = false.
Proof. intros H x Hx. apply (List.find_none f l H). by apply list_elem_of_In. Qed.

Lemma seqZ_split_le l1 : ∀ a n j l2 b, seqZ a n = l1 ++ j :: l2 → b ∈ j :: l2 → j <= b.
Proof.
  induction l1 as [| c l1 IH]; intros a n j l2 b Hq Hb;
    (assert (0 < n) as Hn0 by (destruct (decide (0 < n)); [done |]; by rewrite seqZ_nil in Hq by lia));
    rewrite seqZ_cons in Hq by done.
  - injection Hq as <- Hq. apply elem_of_cons in Hb as [-> | Hb]; [done |].
    rewrite <- Hq in Hb. apply elem_of_seqZ in Hb. lia.
  - injection Hq as _ Hq. by apply (IH _ _ _ _ _ Hq).
Qed.

(** The process locks are free for this CPU. *)
Definition plocks_free (h : list lockid) : Prop := ∀ i, L_proc i ∉ h.

Section spec.
Context (kend trampoline forkret_addr : Z) (me : Z).

(** ** wakeup *)

Definition wakes (c : chan) (p : proc) : bool :=
  bool_decide (state p = SLEEPING) && bool_decide (pchan p = Some c).

(** [wakeup] makes RUNNABLE exactly the processes that are SLEEPING on the
    channel, except the caller, and changes nothing else of any process. *)
Theorem wakeup_exact c s h w n :
  tbl_ok s → plocks_free h →
  ∃ s', wakeup_table me c s (Ctx h w n) = Ok tt s' (Ctx h w n) ∧ tbl_ok s' ∧
    initproc s' = initproc s ∧ nextpid s' = nextpid s ∧ mem_ s' = mem_ s ∧
    ∀ i, inproc i → getp s' i =
      if negb (i =? me) && wakes c (getp s i) then set_state RUNNABLE (getp s i) else getp s i.
Proof.
  intros Hs Hh.
  set (f := λ i p, if negb (i =? me) && wakes c p then set_state RUNNABLE p else p).
  destruct (table_map_ok f (seqZ 0 NPROC) s Hs seq_inproc (NoDup_seqZ _ _)) as (H1 & H2 & H3 & H4 & H5).
  exists (table_map f (seqZ 0 NPROC) s). split.
  - apply for_each_table; [done | apply seq_inproc |]. intros i t Hi Ht. apply elem_seq_proc in Hi.
    unfold f. destruct (Z.eqb_spec i me) as [-> | Hne]; cbn [negb andb].
    + by rewrite setp_id.
    + pose proof (Hh i) as Hhi. kacq. kstep. unfold wakes. unfold updproc.
      repeat case_bool_decide; cbn [andb].
      * rewrite decide_True by done. kstep. krel. done.
      * rewrite decide_False by tauto. kstep. krel. by rewrite setp_id.
      * rewrite decide_False by tauto. kstep. krel. by rewrite setp_id.
      * rewrite decide_False by tauto. kstep. krel. by rewrite setp_id.
  - do 4 (split; [done |]). intros i Hi. rewrite H5, decide_True by (by apply elem_seq_proc). done.
Qed.

(** ** kill *)

(** The processes before the first with pid [n] are looked at and left alone. *)
Lemma kill_ok n s h w k :
  tbl_ok s → plocks_free h →
  match List.find (λ i, pid (getp s i) =? n) (seqZ 0 NPROC) with
  | None => kill n s (Ctx h w k) = Ok (-1) s (Ctx h w k)
  | Some i => inproc i ∧ pid (getp s i) = n ∧
      kill n s (Ctx h w k) =
        Ok 0 (setp i (let p := set_killed true (getp s i) in
                      if decide (state (getp s i) = SLEEPING) then set_state RUNNABLE p else p) s)
           (Ctx h w k)
  end.
Proof.
  intros Hs Hh.
  assert (∀ j, pid (getp s j) ≠ n →
    (acquire (L_proc j) ;; p <- gets (λ s, getp s j) ;;
     if pid p =? n then
       updproc j (set_killed true) ;;
       (if decide (state p = SLEEPING) then updproc j (set_state RUNNABLE) else ret tt) ;;
       release (L_proc j) ;; ret (Some 0)
     else release (L_proc j) ;; ret None) s (Ctx h w k) = Ok None s (Ctx h w k)) as Hmiss.
  { intros j Hj. pose proof (Hh j). kacq. kstep. destruct (Z.eqb_spec (pid (getp s j)) n); [done |].
    krel. done. }
  destruct (List.find _ _) as [i |] eqn:E.
  - apply find_split in E as (l1 & l2 & El & Hi & Hf). apply Z.eqb_eq in Hi.
    assert (inproc i) as Hin. { apply elem_seq_proc. rewrite El. apply elem_of_app. right. left. }
    split; [done |]. split; [done |]. unfold kill. rewrite El. cbv zeta.
    destruct (decide (state (getp s i) = SLEEPING)) as [Hst | Hst];
      (erewrite bind_ok; [| apply for_find_hit]);
      [done | intros j Hj; apply Hmiss; rewrite Forall_forall in Hf; specialize (Hf j Hj);
              by apply Z.eqb_neq in Hf | | done | intros j Hj; apply Hmiss;
              rewrite Forall_forall in Hf; specialize (Hf j Hj); by apply Z.eqb_neq in Hf |].
    + pose proof (Hh i). kacq. kstep. rewrite Hi, Z.eqb_refl. unfold updproc. kstep.
      rewrite decide_True by done. kstep. krel. rewrite setp_setp, getp_setp, Z.eqb_refl by done. done.
    + pose proof (Hh i). kacq. kstep. rewrite Hi, Z.eqb_refl. unfold updproc. kstep.
      rewrite decide_False by done. kstep. krel. done.
  - unfold kill. erewrite bind_ok; [| apply for_find_none].
    2: { intros j Hj. apply Hmiss. pose proof (find_none_forall _ _ E j Hj) as H. by apply Z.eqb_neq in H. }
    done.
Qed.

(** When the pids of the live processes are distinct, [kill(pid)] of a live
    process sets its [killed] flag, and makes it RUNNABLE if it sleeps, changes
    no other process and returns 0; it returns -1 and changes nothing when no
    table entry has that pid. *)
Theorem kill_marks n s h w k i :
  tbl_ok s → plocks_free h → inproc i → pid (getp s i) = n →
  (∀ j, inproc j → pid (getp s j) = n → j = i) →
  ∃ s', kill n s (Ctx h w k) = Ok 0 s' (Ctx h w k) ∧
    getp s' i = set_killed true (if decide (state (getp s i) = SLEEPING)
                                 then set_state RUNNABLE (getp s i) else getp s i) ∧
    (∀ j, j ≠ i → getp s' j = getp s j) ∧
    ∀ m, (∀ j, inproc j → pid (getp s j) ≠ m) → kill m s (Ctx h w k) = Ok (-1) s (Ctx h w k).
Proof.
  intros Hs Hh Hi Hp Hu. pose proof (kill_ok n s h w k Hs Hh) as H.
  destruct (List.find (λ i, pid (getp s i) =? n) (seqZ 0 NPROC)) as [j |] eqn:E.
  - destruct H as (Hj & Hpj & E'). rewrite (Hu j Hj Hpj) in E'. eexists. split; [exact E' |].
    split; [rewrite getp_setp, Z.eqb_refl by assumption; by destruct (decide _) |].
    split; [intros j' Hj'; rewrite getp_setp by assumption; by destruct (Z.eqb_spec i j') |].
    intros m Hm. pose proof (kill_ok m s h w k Hs Hh) as Hk. destruct (List.find (λ i, pid (getp s i) =? m) (seqZ 0 NPROC)) as [j' |]; [| exact Hk].
    destruct Hk as (Hj' & Hpj' & _). by destruct (Hm j').
  - exfalso. pose proof (find_none_forall _ _ E i) as Hn. cbv beta in Hn.
    rewrite Hp, Z.eqb_refl in Hn. discriminate Hn. by apply elem_seq_proc.
Qed.

(** The search of [allocproc] stops at the first free slot. *)
Lemma find_unused_ok s h w k i :
  tbl_ok s → plocks_free h → inproc i → state (getp s i) = UNUSED →
  (∀ j, 0 <= j < i → state (getp s j) ≠ UNUSED) →
  find_unused s (Ctx h w k) = Ok (Some i) s (Ctx (L_proc i :: h) w k).
Proof.
  intros Hs Hh Hi Hst Hbefore. unfold find_unused.
  replace (seqZ 0 NPROC) with (seqZ 0 i ++ i :: seqZ (i + 1) (NPROC - i - 1)).
  - apply for_find_hit.
    + intros j Hj. apply elem_of_seqZ in Hj. pose proof (Hh j). kacq. kstep.
      rewrite decide_False by (apply Hbefore; lia). krel. done.
    + pose proof (Hh i). kacq. kstep. by rewrite decide_True by done.
  - unfold inproc in Hi. transitivity (seqZ 0 i ++ seqZ (0 + i) (NPROC - i)).
    + rewrite Z.add_0_l, (seqZ_cons i) by lia. do 3 f_equal; lia.
    + rewrite <- seqZ_app by lia. f_equal. lia.
Qed.

(** [kill] of the number of the first slot that has it *)
Lemma kill_first n s h w k i :
  tbl_ok s → plocks_free h → inproc i → pid (getp s i) = n → state (getp s i) = UNUSED →
  (∀ j, 0 <= j < i → pid (getp s j) ≠ n) →
  kill n s (Ctx h w k) = Ok 0 (setp i (set_killed true (getp s i)) s) (Ctx h w k).
Proof.
  intros Hs Hh Hi Hp Hst Hb. pose proof (kill_ok n s h w k Hs Hh) as H.
  destruct (List.find (λ i, pid (getp s i) =? n) (seqZ 0 NPROC)) as [j |] eqn:E.
  2: { pose proof (find_none_forall _ _ E i) as Hn. cbv beta in Hn. rewrite Hp, Z.eqb_refl in Hn. discriminate Hn.
       by apply elem_seq_proc. }
  destruct H as (Hj & Hpj & E'). assert (j = i) as ->.
  { apply find_split in E as (l1 & l2 & El & _ & Hf).
    destruct (Z.lt_trichotomy j i) as [Hlt | [| Hgt]]; [| done |].
    - by destruct (Hb j); [unfold inproc in Hj; lia |].
    - assert (i ∈ l1) as Hin.
      { assert (i ∈ l1 ++ j :: l2) as Hin by (rewrite <- El; by apply elem_seq_proc).
        apply elem_of_app in Hin as [Hin | Hin]; [done |]. exfalso.
        pose proof (seqZ_split_le _ _ _ _ _ _ El Hin). lia. }
      rewrite Forall_forall in Hf. specialize (Hf i Hin). cbv beta in Hf. by rewrite Hp, Z.eqb_refl in Hf. }
  by rewrite Hst, decide_False in E' by done.
Qed.

(** ** wait *)

Definition child (s : procs) (i : Z) : bool := bool_decide (parent (getp s i) = Some me).
Definition zombie (s : procs) (i : Z) : bool := bool_decide (state (getp s i) = ZOMBIE).

Lemma wait_table_app addr l1 l2 hk s h w k :
  plocks_free h → (∀ i, i ∈ l1 → child s i = true → zombie s i = false) →
  wait_table kend me addr (l1 ++ l2) hk s (Ctx h w k) =
  wait_table kend me addr l2 (hk || existsb (child s) l1) s (Ctx h w k).
Proof.
  intros Hh. revert hk. induction l1 as [| i l IH]; intros hk Hz; cbn [wait_table existsb app].
  { by rewrite orb_false_r. }
  kstep. unfold child at 1. destruct (decide (parent (getp s i) = Some me)) as [Hc | Hc].
  - rewrite bool_decide_true by done. pose proof (Hh i). kacq. kstep.
    assert (zombie s i = false) as Hzi.
    { apply Hz; [left |]. unfold child. by rewrite bool_decide_true. }
    unfold zombie in Hzi. rewrite bool_decide_eq_false in Hzi. rewrite decide_False by done. krel.
    rewrite IH by (intros j Hj; apply Hz; by right). by rewrite orb_true_r.
  - rewrite bool_decide_false by done. rewrite IH by (intros j Hj; apply Hz; by right). done.
Qed.

Lemma wait_table_none addr l hk s h w k :
  plocks_free h → (∀ i, i ∈ l → child s i = true → zombie s i = false) →
  wait_table kend me addr l hk s (Ctx h w k) = Ok (Scanned (hk || existsb (child s) l)) s (Ctx h w k).
Proof. intros Hh Hz. rewrite <- (app_nil_r l) at 1. by rewrite wait_table_app. Qed.

Lemma wait_loop_S f addr :
  wait_loop kend me (S f) addr =
    (r <- wait_table kend me addr (seqZ 0 NPROC) false ;;
     match r with
     | Returns v => ret v
     | Scanned havekids =>
         k <- gets (λ s, killed (getp s me)) ;;
         if negb havekids || k then release L_wait ;; ret (-1)
         else sleep (C_proc me) L_wait ;; wait_loop kend me f addr
     end).
Proof. done. Qed.

(** The zombie that [wait] finds *)
Definition first_zombie (s : procs) (i : Z) : Prop :=
  inproc i ∧ child s i = true ∧ zombie s i = true ∧ ∀ j, 0 <= j < i → child s j = true → zombie s j = false.

(** [wait] with that zombie: [r] is the result of copying the status and [s1] the
    state after it. *)
Lemma wait_found addr i r s s1 h w k :
  let x := Ctx (L_proc i :: L_wait :: h) w k in
  plocks_free h → L_wait ∉ h → first_zombie s i →
  (if addr =? 0 then ret 0
   else lift memL (copyout (pagetable (getp s me)) addr (Z_to_little_endian 4 8 (xstate (getp s i))))) s x = Ok r s1 x →
  if r <? 0 then wait kend me addr s (Ctx h w k) = Ok (-1) s1 (Ctx h w k)
  else ∀ s2, freeproc kend i s1 x = Ok tt s2 x → wait kend me addr s (Ctx h w k) = Ok (pid (getp s i)) s2 (Ctx h w k).
Proof.
  intros x Hh Hw (Hi & Hc & Hz & Hb) Hcp. assert (plocks_free (L_wait :: h)) as Hh'.
  { intros j. apply not_elem_of_cons. split; [done | apply Hh]. }
  assert (seqZ 0 NPROC = seqZ 0 i ++ i :: seqZ (i + 1) (NPROC - i - 1)) as El.
  { unfold inproc in Hi. transitivity (seqZ 0 i ++ seqZ (0 + i) (NPROC - i)).
    - rewrite <- seqZ_app by lia. f_equal. lia.
    - rewrite Z.add_0_l, (seqZ_cons i) by lia. do 3 f_equal; lia. }
  unfold child in Hc. rewrite bool_decide_eq_true in Hc. unfold zombie in Hz. rewrite bool_decide_eq_true in Hz.
  pose proof (Hh' i) as Hhi.
  destruct (r <? 0) eqn:Er; [| intros s2 Hf]; unfold wait; kacq; cbn [naps wait_loop]; unfold bind at 1;
    rewrite El, wait_table_app by (done || (intros j Hj%elem_of_seqZ; apply Hb; lia));
    cbn [wait_table]; kstep; rewrite decide_True by done; kacq; kstep; rewrite decide_True by done; kstep;
    kstep Hcp; rewrite Er.
  - krel. krel. done.
  - kstep Hf. krel. krel. done.
Qed.

(** Without a zombie among its children, [wait] returns or sleeps. *)
Lemma wait_none addr s h w k :
  plocks_free h → L_wait ∉ h → (∀ i, inproc i → child s i = true → zombie s i = false) →
  ((∀ i, inproc i → child s i = false) ∨ killed (getp s me) = true →
     wait kend me addr s (Ctx h w k) = Ok (-1) s (Ctx h w k)) ∧
  (h = [] → (∃ i, inproc i ∧ child s i = true) → killed (getp s me) = false →
     ∃ kont, wait kend me addr s (Ctx h w (S k)) = Sleeping (C_proc me) s (Ctx [] w k) kont ∧
       ∀ s' w', kont s' (Ctx [] w' k) = wait kend me addr s' (Ctx [] w' k)).
Proof.
  intros Hh Hw Hnz. assert (plocks_free (L_wait :: h)) as Hh'.
  { intros i. apply not_elem_of_cons. split; [done | apply Hh]. }
  assert (∀ i, i ∈ seqZ 0 NPROC → child s i = true → zombie s i = false) as Hnz'.
  { intros i Hi. apply Hnz. by apply elem_seq_proc. }
  split.
  - intros Hor. unfold wait. kacq. cbn [naps wait_loop].
    erewrite bind_ok; [| by apply wait_table_none]. cbv beta iota. kstep.
    assert (negb (false || existsb (child s) (seqZ 0 NPROC)) || killed (getp s me) = true) as ->.
    { destruct Hor as [Hno | ->]; [| by rewrite orb_true_r].
      assert (existsb (child s) (seqZ 0 NPROC) = false) as ->; [| done].
      apply not_true_is_false. intros He. apply existsb_exists in He as (i & Hi & Hc).
      apply list_elem_of_In, elem_seq_proc in Hi. by rewrite Hno in Hc. }
    krel. done.
  - intros -> (i & Hi & Hc) Hk. set (rest := wait_loop kend me (S k) addr).
    assert (∀ s' w', wait kend me addr s' (Ctx [] w' k) = rest s' (Ctx [L_wait] w' k)) as Hwait.
    { intros s' w'. unfold wait. kacq. done. }
    assert (wait kend me addr s (Ctx [] w (S k)) = (sleep (C_proc me) L_wait ;; rest) s (Ctx [L_wait] w (S k))) as ->.
    { unfold wait. kacq. rewrite wait_loop_S. erewrite bind_ok; [| by apply wait_table_none]. cbv beta iota. kstep. rewrite Hk.
      assert (existsb (child s) (seqZ 0 NPROC) = true) as ->; [| done].
      apply existsb_exists. exists i. split; [| done]. by apply list_elem_of_In, elem_seq_proc. }
    clearbody rest. eexists. split.
    + unfold bind, sleep. cbn [held naps]. rewrite decide_True by apply list_elem_of_here.
      rewrite decide_True by (by rewrite filter_cons, decide_False by naive_solver). reflexivity.
    + intros s' w'. rewrite Hwait. cbn [obind]. unfold acquire. cbn [held].
      rewrite decide_False by apply not_elem_of_nil. reflexivity.
Qed.
End spec.

(** *** Witnesses: a table with init (slot 0), a child sleeping (slot 1), a
    zombie child of it (slot 2), and free slots *)

Definition demo_procs : procs :=
  Procs (set_pid 1 (set_state RUNNING proc0) ::
         set_parent (Some 0) (set_pid 2 (set_chan (Some C_ticks) (set_state SLEEPING proc0))) ::
         set_parent (Some 1) (set_pid 3 (set_xstate 7 (set_state ZOMBIE proc0))) ::
         replicate 61 proc0) 0 4 (PMem ∅ 0).

Lemma plocks_free_nil : plocks_free [].
Proof. intros i. apply not_elem_of_nil. Qed.

Lemma demo_other j : 3 <= j → getp demo_procs j = proc0.
Proof.
  intros Hj. unfold getp, zget. destruct (Z.ltb_spec j 0); [lia |].
  destruct (tbl demo_procs !! Z.to_nat j) as [q |] eqn:E; [| done]. simpl.
  replace (Z.to_nat j) with (S (S (S (Z.to_nat (j - 3))))) in E by lia.
  change (replicate 61 proc0 !! Z.to_nat (j - 3) = Some q) in E.
  by apply lookup_replicate in E as [-> _].
Qed.

Lemma wakeup_exact_witness :
  ∃ s', wakeup_table 0 C_ticks demo_procs (Ctx [] [] 0) = Ok tt s' (Ctx [] [] 0) ∧ tbl_ok s' ∧
    initproc s' = initproc demo_procs ∧ nextpid s' = nextpid demo_procs ∧ mem_ s' = mem_ demo_procs ∧
    ∀ i, inproc i → getp s' i =
      if negb (i =? 0) && wakes C_ticks (getp demo_procs i) then set_state RUNNABLE (getp demo_procs i)
      else getp demo_procs i.
Proof. apply (wakeup_exact 0); [reflexivity | apply plocks_free_nil]. Defined.

Lemma kill_marks_witness :
  ∃ s', kill 2 demo_procs (Ctx [] [] 0) = Ok 0 s' (Ctx [] [] 0) ∧
    getp s' 1 = set_killed true (if decide (state (getp demo_procs 1) = SLEEPING)
                                 then set_state RUNNABLE (getp demo_procs 1) else getp demo_procs 1) ∧
    (∀ j, j ≠ 1 → getp s' j = getp demo_procs j) ∧
    ∀ m, (∀ j, inproc j → pid (getp demo_procs j) ≠ m) → kill m demo_procs (Ctx [] [] 0) = Ok (-1) demo_procs (Ctx [] [] 0).
Proof.
  apply (kill_marks 2 demo_procs [] [] 0 1); [reflexivity | apply plocks_free_nil | by vm_compute | reflexivity |].
  intros j Hj. unfold inproc in Hj.
  destruct (Z.eq_dec j 0) as [-> |]; [intros H; discriminate H |].
  destruct (Z.eq_dec j 1) as [-> |]; [done |].
  destruct (Z.eq_dec j 2) as [-> |]; [intros H; discriminate H |].
  rewrite demo_other by lia. intros H. discriminate H.
Defined.
