(* ===== verification/ProcSpace.v ===== *)
(** * Address spaces of processes

    [proc_pagetable] and [proc_freepagetable]: the page table with the trampoline
    and the trap frame at its top, from its creation to the return of its last
    page. *)

From S2P Require Import Prelude Monad Riscv Mem Kalloc Vm VmMap VmCopy VmSpace VmFree Proc.

Section proc_space.
Context (kend trampoline : Z) (Hkend : 0 < kend) (Htramp : 0 <= trampoline < 2 ^ 55).
Notation vm_ok := (vm_ok kend).
Notation free_pages := (free_pages kend).
Notation as_ok := (as_ok kend).
Notation as_same := (as_same kend).

(** From the trap frame on there are the trap frame and the trampoline only. *)
Record top_ok (m : mem) (root tf : Z) : Prop := {
  top_trampoline : vleaf m root TRAMPOLINE = Some (leaf_pte trampoline (Z.lor PTE_R PTE_X));
  top_trapframe : vleaf m root TRAPFRAME = Some (leaf_pte tf (Z.lor PTE_R PTE_W));
  top_none : ∀ va, MAXVA <= va < VASIZE → vleaf m root va = None }.

(** *** Mapping and unmapping at the top *)

Lemma high_page va x : TRAPFRAME <= va → 0 <= x < TRAPFRAME → same_page va x = false.
Proof.
  intros Hva Hx. unfold same_page. apply Z.eqb_neq. assert (TRAPFRAME mod PGSIZE = 0) as Hm by done. unfold PGSIZE in *. dlia.
Qed.

Lemma map_top root va pa perm s l h w n :
  as_ok s l root → va mod PGSIZE = 0 → TRAPFRAME <= va < MAXVA → 0 <= pa < 2 ^ 55 → 0 <= perm < 2 ^ 10 → vleaf (ram s) root va = None → L_kmem ∉ h →
  ∃ r s' l', mappages root va PGSIZE pa perm s (Ctx h w n) = Ok r s' (Ctx h w n) ∧ as_same root s l s' l' ∧
    ((r = 0 ∧ (length l <= length l' + 2)%nat ∧ ∀ x, 0 <= x < VASIZE → vleaf (ram s') root x = if same_page va x then Some (leaf_pte pa perm) else vleaf (ram s) root x) ∨
     (r = -1 ∧ (length l <= 2)%nat ∧ ∀ x, 0 <= x < VASIZE → vleaf (ram s') root x = vleaf (ram s) root x)).
Proof.
  intros H Hal Hva Hpa Hperm Hun Hh. assert (0 <= TRAPFRAME < VASIZE) as HT by done.
  destruct (mappages_one kend Hkend root va pa perm s l h w n (as_vm _ _ _ _ H)) as (r & s' & l' & E & Hok & Hext & Hlen & Hr); try done; [lia |].
  exists r, s', l'. split; [done |]. split.
  - apply (as_ext_low kend); try done. intros x Hx. destruct Hr as [[_ Hr] | (_ & _ & Hr)]; rewrite Hr by lia; [| done]. by rewrite high_page by lia.
  - destruct Hr as [[-> Hr] | (-> & -> & Hr)]; [left | right]; done.
Qed.

Lemma unmap_top root va e s l h w n :
  as_ok s l root → va mod PGSIZE = 0 → TRAPFRAME <= va < MAXVA → vleaf (ram s) root va = Some e → PTE_FLAGS e ≠ PTE_V →
  ∃ s', uvmunmap kend root va 1 false s (Ctx h w n) = Ok tt s' (Ctx h w n) ∧ as_same root s l s' l ∧
    ∀ x, 0 <= x < VASIZE → vleaf (ram s') root x = if same_page va x then None else vleaf (ram s) root x.
Proof.
  intros H Hal Hva E Hfl. assert (MAXVA = 2 ^ 38 ∧ VASIZE = 2 ^ 39 ∧ TRAPFRAME = 2 ^ 38 - 8192) as (EM & EV & ET) by done.
  destruct (walk_leaf kend Hkend root va e s l (Ctx h w n) (as_vm _ _ _ _ H) ltac:(lia) E) as (t & Et & Ew & Hne & Ee & Ev).
  destruct (map_one_ok kend s l root va t 0 (as_vm _ _ _ _ H) Et ltac:(lia) ltac:(lia)) as (Hok & Hext & Hv). set (s' := set_ram _ s) in *.
  exists s'. split; [| split; [| exact Hv]].
  - unfold uvmunmap. rewrite Hal. cbn [Z.eqb negb]. rewrite u64_small by (unfold PGSIZE; lia).
    replace ((va + 1 * PGSIZE - va) / PGSIZE) with 1 by (unfold PGSIZE; dlia). cbn [uvmunmap_loop].
    destruct (Z.ltb_spec va (va + 1 * PGSIZE)); [| unfold PGSIZE in *; lia].
    kstep Ew. destruct (Z.eqb_spec (t + 8 * PX 0 va) 0); [done |]. mstep. rewrite Ee, Ev. cbn [negb].
    destruct (Z.eqb_spec (PTE_FLAGS e) PTE_V); [done |]. cbn [when]. kstep. kstep (wr64_ok (t + 8 * PX 0 va) 0 s (Ctx h w n)).
    rewrite u64_small by (unfold PGSIZE; lia). change (Z.to_nat 1) with 1%nat. cbn [uvmunmap_loop]. by rewrite Z.mul_1_l, Z.ltb_irrefl.
  - apply (as_ext_low kend); try done. intros x Hx. rewrite Hv by lia. change (flag 0 PTE_V) with false. by rewrite high_page by lia.
Qed.

Lemma top_flags pa perm : 0 <= pa < 2 ^ 55 → 0 <= perm < 2 ^ 10 → PTE_FLAGS (leaf_pte pa perm) = Z.lor perm PTE_V.
Proof. intros Hpa Hperm. rewrite leaf_pte_lor, PTE_FLAGS_PA2PTE; [done | lia | by apply perm_V_range]. Qed.

(** The pages from the trap frame on *)
Lemma top_cases va : TRAPFRAME <= va < VASIZE → same_page TRAMPOLINE va = true ∨ same_page TRAPFRAME va = true ∨ MAXVA <= va.
Proof.
  intros H. assert (TRAPFRAME = 2 ^ 38 - 8192 ∧ TRAMPOLINE = 2 ^ 38 - 4096 ∧ MAXVA = 2 ^ 38) as (E1 & E2 & E3) by done.
  unfold same_page. rewrite !Z.eqb_eq, E1, E2, E3 in *. unfold PGSIZE. dlia.
Qed.

(** *** Creating *)

(** A table with pages from the free list [l0] of [s0], itself among them *)
Record from_free (pt : Z) (s0 : pmem) (l0 : list Z) (s : pmem) (l : list Z) : Prop := {
  ff_ok : as_ok s l pt;
  ff_within : within l0 (ram s0) (ram s);
  ff_pages : ∀ x, x ∈ l ∨ owns (ram s) pt x ↔ x ∈ l0 }.

Lemma from_free_same pt s0 l0 s l s' l' : from_free pt s0 l0 s l → as_same pt s l s' l' → from_free pt s0 l0 s' l'.
Proof.
  intros [H1 H2 H3] [S1 S2 S3 _]. constructor; [done | | intros x; by rewrite S2, H3].
  intros x Hx. rewrite S3, H2; [done | done |]. intros t Ht. by apply Hx, H3.
Qed.

(** The tables of a failed [proc_pagetable] go back where they came from. *)
Lemma undo_pagetable pt s0 l0 s l h w n :
  from_free pt s0 l0 s l → (∀ va, 0 <= va < VASIZE → vleaf (ram s) pt va = None) → L_kmem ∉ h →
  ∃ s' l', uvmfree kend pt 0 s (Ctx h w n) = Ok tt s' (Ctx h w n) ∧ free_pages s' l' ∧ within l0 (ram s0) (ram s') ∧ ∀ x, x ∈ l' ↔ x ∈ l0.
Proof.
  intros [H Hw Hp] Hv Hh. assert (0 <= TRAPFRAME < VASIZE) as HT by done.
  destruct (uvmfree_ok kend Hkend pt 0 s l h w n) as (s' & l' & E & Hf & Hl & Hfr); try done.
  - intros x Hx. change (PGROUNDUP 0) with 0. split; [| lia]. intros Hs. destruct Hs. apply shows_None, Hv. lia.
  - intros va Hva. apply Hv. lia.
  - exists s', l'. split; [done |]. split; [done |]. split; [| intros x; by rewrite Hl, Hp].
    intros x Hx. rewrite Hfr, Hw; [done | done |]. intros t Ht. by apply Hx, Hp.
Qed.

(** A new table: what [uvmcreate] gives *)
Lemma uvmcreate_space s l a h w n :
  free_pages s (a :: l) → L_kmem ∉ h →
  ∃ s', uvmcreate s (Ctx h w n) = Ok a s' (Ctx h w n) ∧ a ≠ 0 ∧ (∀ va, vleaf (ram s') a va = None) ∧ from_free a s (a :: l) s' l.
Proof.
  intros Hf Hh. destruct (uvmcreate_ok kend s l a h w n Hf Hh) as (s' & E & Hok & Hv & Ht & Hout).
  exists s'. split; [done |]. split; [destruct (kalloc_ok kend s h w n a l Hf Hh) as (_ & _ & _ & _ & Ha & _); done |].
  split; [done |]. constructor; [by apply empty_as_ok | |].
  - intros x Hx. apply Hout, Hx. left.
  - intros x. unfold owns, frames. rewrite Ht, elem_of_cons. split; [intros [? | [? | (va & e & _ & E' & _)]]; [by right | by left | by rewrite Hv in E'] | tauto].
Qed.

(** The address space [proc_pagetable] makes *)
Record new_space (pt tf : Z) (s : pmem) (l : list Z) (s' : pmem) (l' : list Z) : Prop := {
  ns_from : from_free pt s l s' l';
  ns_top : top_ok (ram s') pt tf;
  ns_fills : fills (ram s') pt 0;
  ns_length : (length l <= length l' + 5)%nat }.

Lemma new_space_intro pt tf s0 l0 s' l' :
  from_free pt s0 l0 s' l' → (∀ va, 0 <= va < TRAPFRAME → vleaf (ram s') pt va = None) → (length l0 <= length l' + 5)%nat →
  (∀ va, MAXVA <= va < VASIZE → vleaf (ram s') pt va = None) →
  vleaf (ram s') pt TRAMPOLINE = Some (leaf_pte trampoline (Z.lor PTE_R PTE_X)) → vleaf (ram s') pt TRAPFRAME = Some (leaf_pte tf (Z.lor PTE_R PTE_W)) →
  new_space pt tf s0 l0 s' l'.
Proof.
  intros H Hlow Hn Hhigh H1 H2. constructor; [done | by constructor | | done]. intros x Hx. change (PGROUNDUP 0) with 0. split; [| lia].
  intros Hs. destruct Hs. by apply shows_None, Hlow.
Qed.

Lemma top_apart va : 0 <= va < TRAPFRAME ∨ MAXVA <= va → same_page TRAPFRAME va = false ∧ same_page TRAMPOLINE va = false.
Proof.
  assert (TRAPFRAME = 2 ^ 38 - 8192 ∧ TRAMPOLINE = 2 ^ 38 - 4096 ∧ MAXVA = 2 ^ 38) as (F1 & F2 & F3) by done. unfold same_page. rewrite !Z.eqb_neq, F1, F2, F3. unfold PGSIZE. dlia.
Qed.

Lemma proc_pagetable_ok tf s l h w n :
  free_pages s l → 0 <= tf < 2 ^ 55 → L_kmem ∉ h →
  ∃ pt s' l', proc_pagetable kend trampoline tf s (Ctx h w n) = Ok pt s' (Ctx h w n) ∧
    ((pt ≠ 0 ∧ new_space pt tf s l s' l') ∨ (pt = 0 ∧ (length l <= 5)%nat ∧ free_pages s' l' ∧ within l (ram s) (ram s') ∧ ∀ x, x ∈ l' ↔ x ∈ l)).
Proof.
  intros Hf Htf Hh. assert (0 <= TRAPFRAME < MAXVA ∧ MAXVA < VASIZE) as [HT HM] by done. unfold proc_pagetable. destruct l as [| a l].
  { assert (uvmcreate s (Ctx h w n) = Ok 0 s (Ctx h w n)) as E0 by (unfold uvmcreate; by kstep (kalloc_empty kend s h w n Hf Hh)).
    exists 0, s, []. kstep E0. split; [done |]. right. split; [done |]. split; [simpl; lia |]. done. }
  destruct (uvmcreate_space s l a h w n Hf Hh) as (s1 & E1 & Ha & Hv1 & F1). kstep E1. destruct (Z.eqb_spec a 0); [done |].
  destruct (map_top a TRAMPOLINE trampoline (Z.lor PTE_R PTE_X) s1 l h w n (ff_ok _ _ _ _ _ F1)) as (r & s2 & l2 & E2 & Hsm2 & Hr2); try done. kstep E2.
  pose proof (from_free_same _ _ _ _ _ _ _ F1 Hsm2) as F2. destruct Hr2 as [(-> & Hn2 & Hv2) | (-> & Hn2 & Hv2)]; cbn [Z.ltb Z.compare].
  2: { destruct (undo_pagetable a s (a :: l) s2 l2 h w n F2) as (s5 & l5 & E5 & Hu); [intros va Hva; by rewrite Hv2, Hv1 by done | done |].
       exists 0, s5, l5. kstep E5. split; [done |]. right. split; [done |]. split; [simpl; lia | done]. }
  destruct (map_top a TRAPFRAME tf (Z.lor PTE_R PTE_W) s2 l2 h w n (ff_ok _ _ _ _ _ F2)) as (r & s3 & l3 & E3 & Hsm3 & Hr3); try done; [by rewrite Hv2, Hv1 |].
  kstep E3. pose proof (from_free_same _ _ _ _ _ _ _ F2 Hsm3) as F3. destruct Hr3 as [(-> & Hn3 & Hv3) | (-> & Hn3 & Hv3)]; cbn [Z.ltb Z.compare].
  - exists a, s3, l3. split; [done |]. left. split; [done |]. apply new_space_intro; try done; [| simpl; lia | | by rewrite Hv3, Hv2 | by rewrite Hv3];
      intros va Hva; rewrite Hv3, Hv2, Hv1 by lia; by destruct (top_apart va ltac:(lia)) as [-> ->].
  - destruct (unmap_top a TRAMPOLINE (leaf_pte trampoline (Z.lor PTE_R PTE_X)) s3 l3 h w n (ff_ok _ _ _ _ _ F3) eq_refl ltac:(done)) as (s4 & E4 & Hsm4 & Hv4); [by rewrite Hv3, Hv2 | by rewrite top_flags |].
    destruct (undo_pagetable a s (a :: l) s4 l3 h w n) as (s5 & l5 & E5 & Hu); [by apply (from_free_same a s _ s3 l3) | | done |].
    { intros va Hva. rewrite Hv4, Hv3, Hv2, Hv1 by done. by destruct (same_page TRAMPOLINE va). }
    exists 0, s5, l5. kstep E4. kstep E5. split; [done |]. right. split; [done |]. split; [simpl; lia | done].
Qed.
(** *** Freeing *)

Lemma proc_freepagetable_ok root tf size s l h w n :
  as_ok s l root → top_ok (ram s) root tf → 0 <= tf < 2 ^ 55 → 0 <= size <= TRAPFRAME → fills (ram s) root size → L_kmem ∉ h →
  ∃ s' l', proc_freepagetable kend root size s (Ctx h w n) = Ok tt s' (Ctx h w n) ∧ free_pages s' l' ∧ (∀ x, x ∈ l' ↔ x ∈ l ∨ owns (ram s) root x) ∧
    ∀ x, (∀ t, t ∈ l ∨ owns (ram s) root t → ¬ (t <= x < t + PGSIZE)) → mget (ram s') x = mget (ram s) x.
Proof.
  intros H [T1 T2 T3] Htf Hsz Hfl Hh. assert (0 <= TRAPFRAME < VASIZE) as HT by done.
  destruct (unmap_top root TRAMPOLINE _ s l h w n H eq_refl ltac:(done) T1) as (s1 & E1 & Hsm1 & Hv1); [by rewrite top_flags |].
  assert (vleaf (ram s1) root TRAPFRAME = Some (leaf_pte tf (Z.lor PTE_R PTE_W))) as T2' by (by rewrite Hv1).
  destruct (unmap_top root TRAPFRAME _ s1 l h w n (sm_ok _ _ _ _ _ _ Hsm1) eq_refl ltac:(done) T2') as (s2 & E2 & Hsm2 & Hv2); [by rewrite top_flags |].
  pose proof (as_same_trans _ _ _ _ _ _ _ _ Hsm1 Hsm2) as [H2 Hc Hfr Hs].
  destruct (uvmfree_ok kend Hkend root size s2 l h w n) as (s3 & l3 & E3 & Hf3 & Hl3 & Hw3); try done.
  - intros x Hx. rewrite Hs by done. by apply Hfl.
  - intros va Hva. rewrite Hv2, Hv1 by lia. destruct (top_cases va Hva) as [-> | [-> | Hm]]; [by destruct (same_page TRAPFRAME va) | done |].
    rewrite T3 by lia. by destruct (same_page TRAPFRAME va), (same_page TRAMPOLINE va).
  - exists s3, l3. split; [unfold proc_freepagetable; kstep E1; by kstep E2 |]. split; [done |]. split; intros x.
    + rewrite Hl3. apply Hc.
    + intros Hx. rewrite Hw3, Hfr; try done. intros t Ht. by apply Hx, Hc.
Qed.


End proc_space.
