(* ===== verification/ProcLife.v ===== *)
(** * The memory of processes

    Which pages every process holds, from [allocproc] to [freeproc]: the pages of
    its address space and its trap frame.  The processes hold different pages, none
    of them free, and what one process does no other notices. *)

From S2P Require Import Prelude Monad Riscv Mem Kalloc Vm VmMap VmCopy VmSpace VmFree Proc ProcSpec ProcSpace.

(** The pages of a process *)
Definition holds (m : mem) (p : proc) (x : Z) : Prop := x = trapframe p ∨ owns m (pagetable p) x.

Definition live (p : proc) : Prop := pagetable p ≠ 0.

(** The pages of the process in slot [i], if there is one *)
Definition held_by (s : procs) (i x : Z) : Prop := live (getp s i) ∧ holds (ram (mem_ s)) (getp s i) x.

Lemma held_live s i p x :
  live p → pagetable (getp s i) = pagetable p → trapframe (getp s i) = trapframe p → held_by s i x ↔ holds (ram (mem_ s)) p x.
Proof. unfold held_by, live, holds. intros Hl -> ->. tauto. Qed.

(** The table with a new memory *)
Definition with_mem (s : procs) (m : pmem) : procs := Procs (tbl s) (initproc s) (nextpid s) m.

(** The table [s] with entry [q] in slot [i] and memory [m] *)
Definition put (i : Z) (q : proc) (s : procs) (m : pmem) : procs := setp i q (with_mem s m).

Lemma put_self i s : tbl_ok s → inproc i → put i (getp s i) s (mem_ s) = s.
Proof. intros Ht Hi. unfold put. destruct s as [a b c d]. exact (setp_id (Procs a b c d) i Ht Hi). Qed.

Lemma getp_put i q s m j : tbl_ok s → inproc i → getp (put i q s m) j = if i =? j then q else getp s j.
Proof. intros Ht Hi. exact (getp_setp (with_mem s m) i j q Ht Hi). Qed.

Lemma getp_put_eq i q s m : tbl_ok s → inproc i → getp (put i q s m) i = q.
Proof. intros Ht Hi. by rewrite getp_put, Z.eqb_refl. Qed.

Lemma updproc_put i f q s m x : tbl_ok s → inproc i → updproc i f (put i q s m) x = Ok tt (put i (f q) s m) x.
Proof.
  intros Ht Hi. unfold updproc, modify. rewrite getp_put_eq by done. unfold put. rewrite setp_setp. done.
Qed.

Lemma lift_put {A} (K : K pmem A) i q s m x a m' x' : K m x = Ok a m' x' → lift memL K (put i q s m) x = Ok a (put i q s m') x'.
Proof. intros E. exact (lift_ok memL K (put i q s m) x a m' x' E). Qed.

Lemma gets_put {A} i q s m (f : proc → A) x : tbl_ok s → inproc i → gets (λ s, f (getp s i)) (put i q s m) x = Ok (f q) (put i q s m) x.
Proof. intros Ht Hi. unfold gets. by rewrite getp_put_eq. Qed.

Section life.
Context (kend trampoline : Z) (Hkern : KERNBASE <= kend) (Htramp : 0 <= trampoline < 2 ^ 55).
Let Hkend : 0 < kend := Z.lt_le_trans 0 KERNBASE kend eq_refl Hkern.
Notation page := (page kend).
Notation free_pages := (free_pages kend).
Notation as_ok := (as_ok kend).

Record space_ok (m : pmem) (l : list Z) (p : proc) : Prop := {
  sp_as : as_ok m l (pagetable p);
  sp_top : top_ok trampoline (ram m) (pagetable p) (trapframe p);
  sp_fills : fills (ram m) (pagetable p) (sz p);
  sp_sz : 0 <= sz p <= TRAPFRAME;
  sp_tf : page (trapframe p);
  sp_tf_used : trapframe p ∉ l;
  sp_tf_apart : ¬ owns (ram m) (pagetable p) (trapframe p) }.

Lemma holds_page m l p x : space_ok m l p → holds (ram m) p x → page x ∧ x ∉ l.
Proof. intros H [-> | Ho]; [split; [by apply (sp_tf m l) | by apply (sp_tf_used m l)] | by apply (owns_page kend m l (pagetable p)); [apply H |]]. Qed.

(** What an operation on the pages [Q] besides the free list does: afterwards they
    are [Q'], and memory elsewhere is unchanged. *)
Record touches (m : pmem) (l : list Z) (Q : Z → Prop) (m' : pmem) (l' : list Z) (Q' : Z → Prop) : Prop := {
  to_free : free_pages m' l';
  to_conserve : ∀ x, x ∈ l' ∨ Q' x ↔ x ∈ l ∨ Q x;
  to_frame : ∀ x, (∀ t, t ∈ l ∨ Q t → ¬ (t <= x < t + PGSIZE)) → mget (ram m') x = mget (ram m) x }.

Lemma touches_refl m l Q : free_pages m l → touches m l Q m l Q.
Proof. by constructor. Qed.

Lemma touches_trans m1 l1 Q1 m2 l2 Q2 m3 l3 Q3 : touches m1 l1 Q1 m2 l2 Q2 → touches m2 l2 Q2 m3 l3 Q3 → touches m1 l1 Q1 m3 l3 Q3.
Proof.
  intros [A1 A2 A3] [B1 B2 B3]. constructor; [done | intros x; by rewrite B2, A2 |].
  intros x H. rewrite B3, A3; [done | done |]. intros t Ht. apply H. by apply A2.
Qed.

(** A process that holds none of those pages does not notice. *)
Record untouched (m m' : pmem) (p : proc) : Prop := {
  un_holds : ∀ x, holds (ram m') p x ↔ holds (ram m) p x;
  un_shows : ∀ va, 0 <= va < TRAPFRAME → shows (ram m') (pagetable p) va = shows (ram m) (pagetable p) va;
  un_tf : ∀ x, 0 <= x < PGSIZE → mget (ram m') (trapframe p + x) = mget (ram m) (trapframe p + x) }.

Lemma touches_other m l Q m' l' Q' p :
  touches m l Q m' l' Q' → free_pages m l → (∀ x, Q x → page x) → space_ok m l p → (∀ x, Q x → holds (ram m) p x → False) →
  space_ok m' l' p ∧ untouched m m' p.
Proof.
  intros [T1 T2 T3] (_ & _ & Hfp) HQ H Hap. rewrite Forall_forall in Hfp.
  assert (∀ t x, holds (ram m) p t → 0 <= x < PGSIZE → mget (ram m') (t + x) = mget (ram m) (t + x)) as Hsame.
  { intros t x Ht Hx. apply T3. intros t' Ht'. destruct (holds_page m l p t H Ht) as [Hpt Htl].
    apply (page_disjoint kend); [done | destruct Ht' as [? | ?]; auto | intros -> | done]. destruct Ht' as [? | ?]; [done | by apply (Hap t')]. }
  assert (∀ x, holds (ram m) p x → x ∉ l') as Hl'.
  { intros x Hx Hin. destruct (proj1 (T2 x) (or_introl Hin)) as [? | ?]; [by apply (holds_page m l p x H Hx) | by apply (Hap x)]. }
  destruct H as [H1 [U1 U2 U3] H3 H4 H5 H6 H7].
  destruct (as_agree kend m l (pagetable p) m' l' H1) as (A1 & A2 & A3 & A4); [intros t x Ht; apply Hsame; by right | done | intros x Hx; apply Hl'; by right |].
  split; [constructor | constructor]; try done.
  - constructor; [by rewrite A3 | by rewrite A3 | intros va Hva; rewrite A3; by apply U3].
  - intros x Hx. rewrite A4 by done. by apply H3.
  - apply Hl'. by left.
  - by rewrite A2.
  - intros x. unfold holds. by rewrite A2.
  - intros x Hx. apply Hsame; [by left | done].
Qed.

(** ** The invariant of the process table *)

Record mem_inv (s : procs) (l : list Z) : Prop := {
  mi_tbl : tbl_ok s;
  mi_free : free_pages (mem_ s) l;
  mi_live : ∀ i, inproc i → live (getp s i) → space_ok (mem_ s) l (getp s i);
  mi_apart : ∀ i j x, inproc i → inproc j → live (getp s i) → live (getp s j) →
    holds (ram (mem_ s)) (getp s i) x → holds (ram (mem_ s)) (getp s j) x → i = j;
  mi_unused : ∀ i, inproc i → state (getp s i) = UNUSED → pagetable (getp s i) = 0 ∧ trapframe (getp s i) = 0 ∧ sz (getp s i) = 0 }.

(** An operation on slot [i] that keeps that process in order keeps the whole
    table in order, and nobody else notices. *)
Lemma mem_inv_step s l i s' l' :
  mem_inv s l → inproc i → tbl_ok s' → (∀ j, j ≠ i → getp s' j = getp s j) →
  touches (mem_ s) l (held_by s i) (mem_ s') l' (held_by s' i) →
  (live (getp s' i) → space_ok (mem_ s') l' (getp s' i)) →
  (state (getp s' i) = UNUSED → pagetable (getp s' i) = 0 ∧ trapframe (getp s' i) = 0 ∧ sz (getp s' i) = 0) →
  mem_inv s' l' ∧ ∀ j, inproc j → j ≠ i → live (getp s j) → untouched (mem_ s) (mem_ s') (getp s j).
Proof.
  intros H Hi Htbl Hoth Ht Hsp Hun.
  assert (∀ x, held_by s i x → page x ∧ x ∉ l) as Hpg by (intros x [Hl Hx]; apply (holds_page (mem_ s) l (getp s i)); [by apply (mi_live _ _ H) | done]).
  assert (∀ j, inproc j → j ≠ i → live (getp s j) → space_ok (mem_ s') l' (getp s j) ∧ untouched (mem_ s) (mem_ s') (getp s j)) as Hj.
  { intros j Hj Hne Hlj. apply (touches_other (mem_ s) l (held_by s i) (mem_ s') l' (held_by s' i)); [done | apply H | by apply Hpg | by apply (mi_live _ _ H) |].
    intros x [Hl Hx] Hxj. apply Hne. symmetry. by apply (mi_apart _ _ H i j x). }
  assert (∀ j x, inproc j → j ≠ i → live (getp s j) → holds (ram (mem_ s')) (getp s j) x → held_by s' i x → False) as Hdis.
  { intros j x Hjp Hne Hlj Hx Hxi. apply (un_holds _ _ _ (proj2 (Hj j Hjp Hne Hlj))) in Hx.
    destruct (proj1 (to_conserve _ _ _ _ _ _ Ht x) (or_intror Hxi)) as [Hxl | [Hl Hxi']].
    - by apply (holds_page (mem_ s) l (getp s j) x (mi_live _ _ H j Hjp Hlj)).
    - apply Hne. by apply (mi_apart _ _ H j i x). }
  split; [constructor | intros j Hjp Hne Hlj; by apply Hj]; [done | apply Ht | | |].
  - intros j Hjp. destruct (decide (j = i)) as [-> | Hne]; [done |]. rewrite Hoth by done. intros Hlj. by apply Hj.
  - intros j k x Hjp Hkp Hlj Hlk Hxj Hxk. destruct (decide (j = i)) as [-> | Hnj], (decide (k = i)) as [-> | Hnk]; [done | | |].
    + rewrite Hoth in Hlk, Hxk by done. destruct (Hdis k x); done.
    + rewrite Hoth in Hlj, Hxj by done. destruct (Hdis j x); done.
    + rewrite Hoth in * by done. apply (mi_apart _ _ H j k x); try done; [by apply (Hj j) | by apply (Hj k)].
  - intros j Hjp. destruct (decide (j = i)) as [-> | Hne]; [done |]. rewrite Hoth by done. by apply (mi_unused _ _ H).
Qed.

(** ** The size of a process *)

(** There is not enough memory for a size that does not fit in 32 bits. *)
Lemma fills_bound m l root size : as_ok m l root → fills (ram m) root size → 0 <= size <= TRAPFRAME → PGROUNDUP size <= PHYSTOP - KERNBASE.
Proof.
  intros H Hf Hs. assert (TRAPFRAME = 2 ^ 38 - 8192 ∧ TRAPFRAME mod PGSIZE = 0) as [ET Hal] by done.
  destruct (PGROUNDUP_bounds size) as [B1 B2]; [unfold PGSIZE in *; lia |]. assert (PGROUNDUP size <= TRAPFRAME) as B3 by (unfold PGSIZE in *; dlia).
  set (np := PGROUNDUP size / PGSIZE). assert (0 <= np ∧ np * PGSIZE = PGROUNDUP size) as [Hnp Enp] by (unfold np, PGSIZE in *; dlia).
  set (fr := λ k, PTE2PA (default 0 (vleaf (ram m) root (k * PGSIZE)))).
  assert (∀ k, k ∈ seqZ 0 np → ∃ e, vleaf (ram m) root (k * PGSIZE) = Some e ∧ fr k = PTE2PA e ∧ 0 <= k * PGSIZE < TRAPFRAME) as Hfr.
  { intros k Hk%elem_of_seqZ. assert (0 <= k * PGSIZE < PGROUNDUP size) as Hr by (unfold PGSIZE in *; lia).
    assert (shows (ram m) root (k * PGSIZE) ≠ None) as Hsh by (apply Hf; lia). rewrite shows_None in Hsh. unfold fr.
    destruct (vleaf (ram m) root (k * PGSIZE)) as [e |]; [| done]. exists e. split; [done |]. split; [done | lia]. }
  remember ((PHYSTOP - KERNBASE) / PGSIZE) as N eqn:EN. assert (N * PGSIZE = PHYSTOP - KERNBASE ∧ 0 <= N) as [EP HN] by (by subst N). clear EN.
  assert (KERNBASE mod PGSIZE = 0) as HK by done.
  assert (length (fr <$> seqZ 0 np) <= length ((λ j, KERNBASE + j * PGSIZE)%Z <$> seqZ 0 N))%nat as Hlen.
  { apply submseteq_length, NoDup_submseteq.
    - apply NoDup_fmap_2_strong; [| apply NoDup_seqZ]. intros k k' Hk Hk' E. destruct (Hfr k Hk) as (e & Ev & Ef & R), (Hfr k' Hk') as (e' & Ev' & Ef' & R').
      assert (same_page (k * PGSIZE) (k' * PGSIZE) = true) as Es by (apply (as_inj _ _ _ _ H _ _ e e'); congruence). unfold same_page in Es. apply Z.eqb_eq in Es.
      unfold PGSIZE in *. rewrite !Z.div_mul in Es by lia. done.
    - intros x (k & -> & Hk)%list_elem_of_fmap. destruct (Hfr k Hk) as (e & Ev & -> & R). destruct (as_leaf _ _ _ _ H _ e R Ev) as (_ & [Hm Hr] & _).
      apply list_elem_of_fmap. exists ((PTE2PA e - KERNBASE) / PGSIZE). rewrite elem_of_seqZ. unfold PGSIZE in *. split; [dlia |]. dlia. }
  rewrite !length_fmap, !length_seqZ in Hlen. unfold PGSIZE in *. lia.
Qed.

(** ** Growing and shrinking *)

(** The trap frame is not part of the address space. *)
Lemma as_step_tf m l p m' l' :
  space_ok m l p → as_step kend (pagetable p) m l m' l' →
  page (trapframe p) ∧ trapframe p ∉ l' ∧ ¬ owns (ram m') (pagetable p) (trapframe p) ∧ touches m l (holds (ram m) p) m' l' (holds (ram m') p) ∧
  ∀ x, 0 <= x < PGSIZE → mget (ram m') (trapframe p + x) = mget (ram m) (trapframe p + x).
Proof.
  intros [H1 H2 H3 H4 H5 H6 H7] [S1 S2 S3 S4]. pose proof (ok_free _ _ _ _ (as_vm _ _ _ _ H1)) as (_ & _ & Hfp). rewrite Forall_forall in Hfp.
  assert (¬ (trapframe p ∈ l' ∨ owns (ram m') (pagetable p) (trapframe p))) as Hn by (rewrite S2; tauto).
  split; [done |]. split; [tauto |]. split; [tauto |]. split; [constructor |].
  - apply S1.
  - intros x. unfold holds. specialize (S2 x). tauto.
  - intros x Hx. apply S4. intros t Ht. apply Hx. unfold holds. tauto.
  - intros x Hx. apply S4. intros t Ht. apply (page_disjoint kend); [done | | intros <-; tauto | done].
    destruct Ht as [? | Ho]; [by apply Hfp | by apply (owns_page kend m l (pagetable p))].
Qed.

Lemma space_resized m l p m' l' size :
  space_ok m l p → as_step kend (pagetable p) m l m' l' → fills (ram m') (pagetable p) size → 0 <= size <= TRAPFRAME → space_ok m' l' (set_sz size p).
Proof.
  intros H S Hf Hs. destruct (as_step_tf m l p m' l' H S) as (T1 & T2 & T3 & _ & _). assert (0 <= TRAPFRAME < MAXVA ∧ MAXVA < VASIZE) as [HT HM] by done.
  destruct S as [S1 S2 S3 S4]. destruct H as [_ [U1 U2 U3] _ _ _ _ _]. constructor; try done. cbn [pagetable trapframe set_sz].
  constructor; [by rewrite S3 | by rewrite S3 |]. intros va Hva. rewrite S3 by lia. by apply U3.
Qed.

(** The size after [growproc(n)] *)
Definition resized (size n : Z) : Z := if size + n <? 0 then size else size + n.

(** The memory of a process of size [size'] that had size [size] *)
Definition resized_to (m m' : mem) (root size size' : Z) : Prop := ∀ x, 0 <= x < TRAPFRAME → shows m' root x =
  if x <? PGROUNDUP size' then if x <? PGROUNDUP size then shows m root x else Some (Z.lor UVM_PERM PTE_V, 0) else None.

Lemma resized_fills m m' root size size' : fills m root size → resized_to m m' root size size' → fills m' root size'.
Proof using.
  intros Hf Hr x Hx. rewrite Hr by done. destruct (Z.ltb_spec x (PGROUNDUP size')); [| split; [done | lia]].
  destruct (Z.ltb_spec x (PGROUNDUP size)); [| done]. split; [done |]. intros _. by apply Hf.
Qed.

Lemma fills_None m root size x : fills m root size → 0 <= x < TRAPFRAME → PGROUNDUP size <= x → shows m root x = None.
Proof using. intros Hf Hx Hs. destruct (shows m root x) eqn:E; [| done]. assert (x < PGROUNDUP size) by (apply Hf; [done | by rewrite E]). lia. Qed.

(** The calls of [growproc] on the address space; [None] when [uvmalloc] fails *)
Lemma resize_ok m l p n h w k :
  space_ok m l p → - 2 ^ 31 <= n < 2 ^ 31 → L_kmem ∉ h →
  sz p <= PHYSTOP - KERNBASE ∧
  (0 < n → ∃ r m' l', uvmalloc kend (pagetable p) (sz p) (sz p + n) m (Ctx h w k) = Ok r m' (Ctx h w k) ∧ as_step kend (pagetable p) m l m' l' ∧
     ((r = sz p + n ∧ resized_to (ram m) (ram m') (pagetable p) (sz p) (sz p + n)) ∨
      (r = 0 ∧ Z.of_nat (length l) <= 3 * ((PGROUNDUP (sz p + n) - PGROUNDUP (sz p)) / PGSIZE) ∧ resized_to (ram m) (ram m') (pagetable p) (sz p) (sz p)))) ∧
  (n <= 0 → 0 <= sz p + n → ∃ m' l', uvmdealloc kend (pagetable p) (sz p) (sz p + n) m (Ctx h w k) = Ok (sz p + n) m' (Ctx h w k) ∧
     as_step kend (pagetable p) m l m' l' ∧ resized_to (ram m) (ram m') (pagetable p) (sz p) (sz p + n)).
Proof.
  intros [H1 H2 H3 H4 H5 H6 H7] Hn Hh. assert (TRAPFRAME = 2 ^ 38 - 8192 ∧ PHYSTOP - KERNBASE = 2 ^ 27) as [ET EP] by done.
  pose proof (fills_bound m l (pagetable p) (sz p) H1 H3 H4) as Hb. destruct (PGROUNDUP_bounds (sz p)) as [B1 B2]; [unfold PGSIZE in *; lia |].
  split; [lia |]. split.
  - intros Hpos. destruct (PGROUNDUP_bounds (sz p + n)) as [C1 C2]; [unfold PGSIZE in *; lia |].
    assert (PGROUNDUP (sz p) <= PGROUNDUP (sz p + n) <= TRAPFRAME) as C3 by (unfold PGSIZE in *; dlia).
    destruct (uvmalloc_ok kend Hkend (pagetable p) (sz p) (sz p + n) m l h w k) as (r & m' & l' & E & S & Hr); try done; try lia.
    { intros x Hx. apply (fills_None _ _ (sz p)); [done | lia | lia]. }
    exists r, m', l'. split; [done |]. split; [done |]. destruct Hr as [[-> Hr] | (-> & Hl & Hr)]; [left | right]; (split; [done |]); [| split; [done |]]; intros x Hx; rewrite Hr by done.
    + destruct (Z.leb_spec (PGROUNDUP (sz p)) x), (Z.ltb_spec x (PGROUNDUP (sz p + n))), (Z.ltb_spec x (PGROUNDUP (sz p))); cbn [andb]; try done; try lia.
      by apply (fills_None _ _ (sz p)).
    + destruct (Z.ltb_spec x (PGROUNDUP (sz p))); [done |]. by apply (fills_None _ _ (sz p)).
  - intros Hneg Hge. destruct (PGROUNDUP_bounds (sz p + n)) as [C1 C2]; [unfold PGSIZE in *; lia |].
    assert (PGROUNDUP (sz p + n) <= PGROUNDUP (sz p)) as C3 by (unfold PGSIZE in *; dlia).
    destruct (uvmdealloc_ok kend Hkend (pagetable p) (sz p) (sz p + n) m l h w k) as (m' & l' & E & S & Hc); try done; try lia.
    { intros x Hx. apply H3; lia. }
    exists m', l'. split; [done |]. split; [done |]. intros x Hx. rewrite Hc by done.
    destruct (Z.leb_spec (PGROUNDUP (sz p + n)) x), (Z.ltb_spec x (PGROUNDUP (sz p))), (Z.ltb_spec x (PGROUNDUP (sz p + n))); cbn [andb]; try done; try lia.
    by apply (fills_None _ _ (sz p)).
Qed.

(** What an operation of process [me] that changes its own memory and entry leaves *)
Record own_step (me : Z) (s : procs) (l : list Z) (s' : procs) (l' : list Z) : Prop := {
  os_inv : mem_inv s' l';
  os_table : ∀ j, j ≠ me → getp s' j = getp s j;
  os_conserve : ∀ x, x ∈ l' ∨ held_by s' me x ↔ x ∈ l ∨ held_by s me x;
  os_others : ∀ j, inproc j → j ≠ me → live (getp s j) → untouched (mem_ s) (mem_ s') (getp s j) }.

Lemma own_step_trans i s1 l1 s2 l2 s3 l3 : own_step i s1 l1 s2 l2 → own_step i s2 l2 s3 l3 → own_step i s1 l1 s3 l3.
Proof.
  intros [A1 A2 A3 A4] [B1 B2 B3 B4]. constructor; [done | intros j Hj; by rewrite B2, A2 | intros x; by rewrite B3, A3 |].
  intros j Hj Hne Hl. pose proof (B4 j Hj Hne) as HB. rewrite A2 in HB by done. destruct (A4 j Hj Hne Hl) as [U1 U2 U3], (HB Hl) as [V1 V2 V3].
  constructor; [intros x; by rewrite V1, U1 | intros va Hva; by rewrite V2, U2 | intros x Hx; by rewrite V3, U3].
Qed.

Lemma slot_put i s l m' l' q :
  mem_inv s l → inproc i → touches (mem_ s) l (held_by s i) m' l' (λ x, live q ∧ holds (ram m') q x) → (live q → space_ok m' l' q) →
  (state q = UNUSED → pagetable q = 0 ∧ trapframe q = 0 ∧ sz q = 0) → own_step i s l (put i q s m') l'.
Proof.
  intros H Hi [T1 T2 T3] Hsp Hun. assert (tbl_ok s) as Htb by apply H. pose proof (getp_put_eq i q s m' Htb Hi) as Hg.
  assert (∀ j, j ≠ i → getp (put i q s m') j = getp s j) as Ho by (intros j Hne; rewrite getp_put by done; destruct (Z.eqb_spec i j); congruence).
  assert (∀ x, held_by (put i q s m') i x ↔ live q ∧ holds (ram m') q x) as Hb by (intros x; unfold held_by; by rewrite Hg).
  destruct (mem_inv_step s l i (put i q s m') l') as [H1 H2]; try done.
  - by apply setp_ok.
  - constructor; [done | intros x; by rewrite Hb, T2 | done].
  - by rewrite Hg.
  - by rewrite Hg.
  - constructor; [done | done | intros x; by rewrite Hb, T2 | done].
Qed.

(** The process in slot [i] gets other memory. *)
Lemma slot_changed i s l m' l' q :
  mem_inv s l → inproc i → live (getp s i) → live q → state q ≠ UNUSED → space_ok m' l' q →
  touches (mem_ s) l (holds (ram (mem_ s)) (getp s i)) m' l' (holds (ram m') q) → own_step i s l (put i q s m') l'.
Proof.
  intros H Hi Hl Hq Hu Hsp [T1 T2 T3]. apply slot_put; try done. constructor; [done | intros x; specialize (T2 x); unfold held_by; tauto |].
  intros x Hx. apply T3. intros t Ht. apply Hx. unfold held_by. tauto.
Qed.

Lemma live_used s l i : mem_inv s l → inproc i → live (getp s i) → state (getp s i) ≠ UNUSED.
Proof. intros H Hi Hl Hu. by apply (mi_unused _ _ H i Hi) in Hu as [? _]. Qed.

Lemma proc_resized me s l m' l' size :
  mem_inv s l → inproc me → live (getp s me) → as_step kend (pagetable (getp s me)) (mem_ s) l m' l' →
  resized_to (ram (mem_ s)) (ram m') (pagetable (getp s me)) (sz (getp s me)) size → 0 <= size <= TRAPFRAME →
  own_step me s l (put me (set_sz size (getp s me)) s m') l'.
Proof.
  intros H Hme Hl S Hr Hs. pose proof (mi_live _ _ H me Hme Hl) as Hsp. destruct (as_step_tf (mem_ s) l (getp s me) m' l' Hsp S) as (_ & _ & _ & T & _).
  apply slot_changed; try done; [by apply (live_used s l me) |]. apply (space_resized (mem_ s) l); try done.
  apply (resized_fills (ram (mem_ s)) _ _ (sz (getp s me))); [apply Hsp | done].
Qed.

Lemma set_sz_same p : set_sz (sz p) p = p.
Proof using. by destruct p. Qed.

Lemma put_same me s m' : tbl_ok s → inproc me → put me (getp s me) s m' = with_mem s m'.
Proof using. intros Ht Hme. apply (setp_id (with_mem s m') me Ht Hme). Qed.

(** Storing the size the process has changes nothing. *)
Lemma stays me s l :
  mem_inv s l → inproc me → live (getp s me) →
  let s' := setp me (set_sz (sz (getp s me)) (getp s me)) s in
  own_step me s l s' l ∧ getp s' me = set_sz (sz (getp s me)) (getp s me) ∧
  resized_to (ram (mem_ s)) (ram (mem_ s')) (pagetable (getp s me)) (sz (getp s me)) (sz (getp s me)).
Proof.
  intros H Hme Hl. pose proof (mi_live _ _ H me Hme Hl) as Hsp.
  assert (resized_to (ram (mem_ s)) (ram (mem_ s)) (pagetable (getp s me)) (sz (getp s me)) (sz (getp s me))) as Hr.
  { intros x Hx. destruct (Z.ltb_spec x (PGROUNDUP (sz (getp s me)))); [done |]. apply (fills_None _ _ (sz (getp s me))); [apply Hsp | done | done]. }
  pose proof (proc_resized me s l (mem_ s) l (sz (getp s me)) H Hme Hl ltac:(apply as_step_refl, Hsp) Hr (sp_sz _ _ _ Hsp)) as Ho.
  pose proof (getp_put_eq me (set_sz (sz (getp s me)) (getp s me)) s (mem_ s) (mi_tbl _ _ H) Hme) as Hg. destruct s as [a b c d]. by split_and!.
Qed.

Lemma growproc_ok me n s l h w k :
  mem_inv s l → inproc me → live (getp s me) → - 2 ^ 31 <= n < 2 ^ 31 → L_kmem ∉ h →
  let p := getp s me in
  ∃ r s' l', growproc kend me n s (Ctx h w k) = Ok r s' (Ctx h w k) ∧ own_step me s l s' l' ∧
    ((r = 0 ∧ getp s' me = set_sz (resized (sz p) n) p ∧ resized_to (ram (mem_ s)) (ram (mem_ s')) (pagetable p) (sz p) (resized (sz p) n)) ∨
     (r = -1 ∧ 0 < n ∧ Z.of_nat (length l) <= 3 * ((PGROUNDUP (sz p + n) - PGROUNDUP (sz p)) / PGSIZE) ∧
      getp s' me = p ∧ resized_to (ram (mem_ s)) (ram (mem_ s')) (pagetable p) (sz p) (sz p))).
Proof.
  intros H Hme Hl Hn Hh p. pose proof (mi_live _ _ H me Hme Hl) as Hsp. fold p in Hsp. pose proof (sp_sz _ _ _ Hsp) as Hsz.
  destruct (resize_ok (mem_ s) l p n h w k Hsp Hn Hh) as (Hb & Hgrow & Hshrink).
  assert (TRAPFRAME = 2 ^ 38 - 8192 ∧ PHYSTOP - KERNBASE = 2 ^ 27) as [ET EP] by done.
  unfold growproc. kstep. fold p. rewrite (u32_small (sz p)) by lia. unfold resized.
  destruct (Z.ltb_spec 0 n) as [Hpos | Hneg].
  - rewrite u32_small by lia. destruct (Hgrow Hpos) as (r & m' & l' & E & S & Hr). kstep (lift_ok memL _ s (Ctx h w k) _ _ _ E).
    destruct Hr as [[-> Hr] | (-> & Hlen & Hr)].
    + rewrite u32_small by lia. destruct (Z.eqb_spec (sz p + n) 0); [lia |]. destruct (Z.ltb_spec (sz p + n) 0); [lia |].
      pose proof (proc_resized me s l m' l' (sz p + n) H Hme Hl S Hr ltac:(lia)) as Ho. pose proof (getp_put_eq me (set_sz (sz p + n) p) s m' (mi_tbl _ _ H) Hme) as Hg. fold p in Ho. eexists 0, _, l'. split; [reflexivity |]. split; [exact Ho |]. by left.
    + change (u32 0 =? 0) with true. cbv iota. pose proof (proc_resized me s l m' l' (sz p) H Hme Hl S Hr ltac:(lia)) as Ho.
      unfold p in Ho. rewrite set_sz_same, put_same in Ho by (done || apply H). assert (getp (with_mem s m') me = p) as Hg by done. eexists (-1), _, l'. split; [reflexivity |]. split; [exact Ho |]. right. by split_and!.
  - destruct (Z.ltb_spec n 0) as [Hlt |].
    + destruct (Z.ltb_spec (sz p + n) 0) as [Hunder | Hge].
      * assert (uvmdealloc kend (pagetable p) (sz p) (u32 (sz p + n)) (mem_ s) (Ctx h w k) = Ok (sz p) (mem_ s) (Ctx h w k)) as E.
        { unfold uvmdealloc. destruct (Z.leb_spec (sz p) (u32 (sz p + n))) as [| Hc]; [done |]. unfold u32 in Hc. dlia. }
        kstep (lift_ok memL _ s (Ctx h w k) _ _ _ E). rewrite u32_small by lia. destruct (stays me s l H Hme Hl) as (Ho & Hg & Hr). eexists 0, _, l. split; [reflexivity |]. split; [exact Ho |]. by left.
      * rewrite u32_small by lia. destruct (Hshrink ltac:(lia) Hge) as (m' & l' & E & S & Hr). kstep (lift_ok memL _ s (Ctx h w k) _ _ _ E). rewrite u32_small by lia.
        pose proof (proc_resized me s l m' l' (sz p + n) H Hme Hl S Hr ltac:(lia)) as Ho. pose proof (getp_put_eq me (set_sz (sz p + n) p) s m' (mi_tbl _ _ H) Hme) as Hg. fold p in Ho. eexists 0, _, l'. split; [reflexivity |]. split; [exact Ho |]. by left.
    + replace n with 0 by lia. rewrite Z.add_0_r. destruct (Z.ltb_spec (sz p) 0); [lia |]. destruct (stays me s l H Hme Hl) as (Ho & Hg & Hr). eexists 0, _, l. split; [reflexivity |]. split; [exact Ho |]. by left.
Qed.

(** ** Freeing *)

Lemma free_space m l p h w k :
  space_ok m l p → L_kmem ∉ h →
  ∃ m1 m' l', kfree kend (trapframe p) m (Ctx h w k) = Ok tt m1 (Ctx h w k) ∧
    proc_freepagetable kend (pagetable p) (sz p) m1 (Ctx h w k) = Ok tt m' (Ctx h w k) ∧ touches m l (holds (ram m) p) m' l' (λ _, False).
Proof.
  intros [H1 [U1 U2 U3] H3 H4 H5 H6 H7] Hh. pose proof (page_range kend Hkend _ H5) as Hr.
  destruct (kfree_ok kend (trapframe p) m h w k l H5 (ok_free _ _ _ _ (as_vm _ _ _ _ H1)) H6 Hh Hkend) as (E1 & Hf1 & Hout'). set (m1 := PMem _ _) in E1, Hf1.
  assert (same_outside (trapframe p) (ram m) (ram m1)) as Hout by exact Hout'. clear Hout'. clearbody m1.
  destruct (as_page_changed kend (pagetable p) m l m1 (trapframe p :: l) (trapframe p) H1 H5 H7 Hout Hf1) as (A1 & A2 & A3 & A4).
  { intros x [-> | ?]%elem_of_cons; [by right | by left]. }
  assert (PHYSTOP < 2 ^ 55) as HP by done. destruct H5 as [_ H5].
  destruct (proc_freepagetable_ok kend trampoline Hkend Htramp (pagetable p) (trapframe p) (sz p) m1 (trapframe p :: l) h w k A1) as (m' & l' & E2 & Hf2 & Hl2 & Hw2); try done; [| lia | |].
  - constructor; [by rewrite A3 | by rewrite A3 | intros va Hva; rewrite A3; by apply U3].
  - intros x Hx. rewrite A4 by done. by apply H3.
  - exists m1, m', l'. split; [done |]. split; [done |]. constructor; [done | |].
    + intros x. rewrite Hl2, A2, elem_of_cons. unfold holds. tauto.
    + intros x Hx. rewrite Hw2, Hout; [done | apply Hx; right; by left |]. intros t Ht. apply Hx. rewrite A2, elem_of_cons in Ht. unfold holds. tauto.
Qed.

(** The entry [freeproc] leaves *)
Definition freed (p : proc) : proc :=
  Proc UNUSED None false 0 0 None (kstack p) 0 0 0 (ctx_ra p) (ctx_sp p) (ofile p) (cwd p) (zset (name p) 0 0).

(** The operation leaves the slot [i] without a process. *)
Lemma slot_freed i s l m' l' q :
  mem_inv s l → inproc i → touches (mem_ s) l (held_by s i) m' l' (λ _, False) → pagetable q = 0 → trapframe q = 0 → sz q = 0 →
  own_step i s l (put i q s m') l'.
Proof.
  intros H Hi [T1 T2 T3] Hp Htf Hsz. assert (¬ live q) as Hn by (by intros Hl; apply Hl).
  apply slot_put; try done. constructor; [done | intros x; rewrite <- T2; tauto | done].
Qed.

(** [freeproc] on an entry that may be half set up *)
Lemma freeproc_run i q s m m1 m' x :
  tbl_ok s → inproc i →
  (if trapframe q =? 0 then m1 = m else kfree kend (trapframe q) m x = Ok tt m1 x) →
  (if pagetable q =? 0 then m' = m1 else proc_freepagetable kend (pagetable q) (sz q) m1 x = Ok tt m' x) →
  freeproc kend i (put i q s m) x = Ok tt (put i (freed q) s m') x.
Proof.
  intros Ht Hi E1 E2. unfold freeproc. kstep (gets_put i q s m id x Ht Hi). unfold id.
  assert (when (negb (trapframe q =? 0)) (lift memL (kfree kend (trapframe q))) (put i q s m) x = Ok tt (put i q s m1) x) as F1.
  { destruct (trapframe q =? 0); [by subst m1 | by apply lift_put]. }
  kstep F1. kstep (updproc_put i (set_trapframe 0) q s m1 x Ht Hi).
  assert (when (negb (pagetable q =? 0)) (lift memL (proc_freepagetable kend (pagetable q) (sz q))) (put i (set_trapframe 0 q) s m1) x = Ok tt (put i (set_trapframe 0 q) s m') x) as F2.
  { destruct (pagetable q =? 0); [by subst m' | by apply lift_put]. }
  kstep F2. by rewrite updproc_put.
Qed.

Lemma freeproc_ok i s l h w k :
  mem_inv s l → inproc i → live (getp s i) → L_kmem ∉ h →
  ∃ s' l', freeproc kend i s (Ctx h w k) = Ok tt s' (Ctx h w k) ∧ own_step i s l s' l' ∧ getp s' i = freed (getp s i) ∧
    ∀ x, x ∈ l' ↔ x ∈ l ∨ holds (ram (mem_ s)) (getp s i) x.
Proof.
  intros H Hi Hl Hh. set (p := getp s i) in *. pose proof (mi_live _ _ H i Hi Hl) as Hsp. fold p in Hsp. assert (tbl_ok s) as Htb by apply H.
  destruct (free_space (mem_ s) l p h w k Hsp Hh) as (m1 & m' & l' & E1 & E2 & [T1 T2 T3]).
  assert (trapframe p ≠ 0) as Htf by (pose proof (page_range kend Hkend _ (sp_tf _ _ _ Hsp)); lia).
  assert (∀ x, held_by s i x ↔ holds (ram (mem_ s)) p x) as Hb by (intros x; by apply held_live).
  exists (put i (freed p) s m'), l'. split; [| split; [| split]].
  - rewrite <- (put_self i s Htb Hi) at 1. fold p. apply (freeproc_run i p s (mem_ s) m1 m' (Ctx h w k) Htb Hi); [by rewrite (proj2 (Z.eqb_neq _ _) Htf) | by rewrite (proj2 (Z.eqb_neq _ _) Hl)].
  - apply slot_freed; try done. constructor; [done | intros x; by rewrite Hb, <- T2 |]. intros x Hx. apply T3. intros t Ht. apply Hx. by rewrite Hb.
  - by apply getp_put_eq.
  - intros x. rewrite <- T2. tauto.
Qed.
End life.
