(* ===== verification/ProcAlloc.v ===== *)
(** * Making processes

    [allocproc] with its error paths, and the memory of all processes through any
    sequence of [allocproc], [growproc] and [freeproc]. *)

From S2P Require Import Prelude Monad Riscv Mem Kalloc Vm VmMap VmCopy VmSpace VmFree Proc ProcSpec ProcSpace ProcLife.

Section alloc.
Context (kend trampoline forkret_addr : Z) (Hkern : KERNBASE <= kend) (Htramp : 0 <= trampoline < 2 ^ 55).
Let Hkend : 0 < kend := Z.lt_le_trans 0 KERNBASE kend eq_refl Hkern.
Notation mem_inv := (mem_inv kend trampoline).
Notation space_ok := (space_ok kend trampoline).
Notation own_step := (own_step kend trampoline).
Notation free_pages := (free_pages kend).
Notation touches := (touches kend).

(** The table after [allocpid] *)
Definition bump (s : procs) : procs := Procs (tbl s) (initproc s) (i32 (nextpid s + 1)) (mem_ s).

Lemma allocpid_ok s h w k : L_pid ∉ h → allocpid s (Ctx h w k) = Ok (nextpid s) (bump s) (Ctx h w k).
Proof. intros Hh. unfold allocpid. kacq. kstep. kstep. krel. done. Qed.

Lemma bump_inv s l : mem_inv s l → mem_inv (bump s) l.
Proof. intros [H1 H2 H3 H4 H5]. by constructor. Qed.

Lemma bump_step i s l s' l' : own_step i (bump s) l s' l' → own_step i s l s' l'.
Proof. intros [H1 H2 H3 H4]. by constructor. Qed.

(** A process is put into a slot that had none. *)
Lemma slot_filled i s l m' l' q :
  mem_inv s l → inproc i → ¬ live (getp s i) → live q → state q ≠ UNUSED → space_ok m' l' q → touches (mem_ s) l (λ _, False) m' l' (holds (ram m') q) →
  own_step i s l (put i q s m') l'.
Proof.
  intros H Hi Hn Hl Hu Hsp [T1 T2 T3]. assert (∀ x, held_by s i x ↔ False) as Hb by (intros x; split; [by intros [? _] | done]).
  apply slot_put; try done. constructor; [done | intros x; rewrite Hb, <- T2; tauto |]. intros x Hx. apply T3. intros t Ht. apply Hx. by rewrite Hb.
Qed.

(** The process [allocproc] makes *)
Definition newborn (n tf pt : Z) (p : proc) : proc :=
  set_context forkret_addr (kstack p + PGSIZE) (set_pagetable pt (set_trapframe tf (set_state USED (set_pid n p)))).

(** The calls of [setup_proc] on the memory: the trap frame page, then the page
    table; a process in order, or everything as it was. *)
Lemma setup_memory m l n p h w k :
  free_pages m l → sz p = 0 → L_kmem ∉ h →
  (l = [] ∧ kalloc m (Ctx h w k) = Ok 0 m (Ctx h w k)) ∨
  ∃ tf m1, kalloc m (Ctx h w k) = Ok tf m1 (Ctx h w k) ∧ tf ≠ 0 ∧
    ((∃ pt m' l', proc_pagetable kend trampoline tf m1 (Ctx h w k) = Ok pt m' (Ctx h w k) ∧ pt ≠ 0 ∧
        space_ok m' l' (newborn n tf pt p) ∧ touches m l (λ _, False) m' l' (holds (ram m') (newborn n tf pt p)) ∧ (length l <= length l' + 6)%nat) ∨
     (∃ m2 m' l', proc_pagetable kend trampoline tf m1 (Ctx h w k) = Ok 0 m2 (Ctx h w k) ∧ kfree kend tf m2 (Ctx h w k) = Ok tt m' (Ctx h w k) ∧
        touches m l (λ _, False) m' l' (λ _, False) ∧ (length l <= 6)%nat)).
Proof.
  intros Hf Hsz Hh. destruct l as [| tf l]; [left; split; [done | by apply (kalloc_empty kend)] | right].
  destruct (kalloc_ok kend m h w k tf l Hf Hh) as (E1 & Hf1 & Hp & Hn & H0 & Hout' & _). set (m1 := PMem _ _) in E1, Hf1, Hout'.
  assert (same_outside tf (ram m) (ram m1)) as Hout by exact Hout'. clear Hout'. clearbody m1. exists tf, m1. split; [done |]. split; [done |].
  pose proof (page_range kend Hkend tf Hp) as Hr. assert (PHYSTOP < 2 ^ 55) as HP by done.
  destruct (proc_pagetable_ok kend trampoline Hkend Htramp tf m1 l h w k Hf1) as (pt & m2 & l2 & E2 & [[Hpt [[F1 F2 F3] T Fl Hlen]] | (-> & Hlen & Hf2 & Hw2 & Hl2)]);
    [destruct Hp as [_ ?]; lia | done | left | right].
  - assert (¬ (tf ∈ l2 ∨ owns (ram m2) pt tf)) as Hno by (by rewrite F3).
    exists pt, m2, l2. split; [done |]. split; [done |]. split; [constructor; try done; cbn [pagetable trapframe sz newborn set_context set_pagetable set_trapframe set_state set_pid]; try tauto |].
    + by rewrite Hsz.
    + rewrite Hsz. done.
    + split; [constructor |].
      * apply F1.
      * intros x. unfold holds. cbn [pagetable trapframe newborn set_context set_pagetable set_trapframe set_state set_pid]. specialize (F3 x). rewrite elem_of_cons. tauto.
      * intros x Hx. rewrite F2, Hout; [done | apply Hx; left; left |]. intros y Hy. apply Hx. left. by right.
      * simpl. lia.
  - assert (tf ∉ l2) as Hn2 by (by rewrite Hl2). destruct (kfree_ok kend tf m2 h w k l2 Hp Hf2 Hn2 Hh Hkend) as (E3 & Hf3 & Hout3').
    set (m3 := PMem _ _) in E3, Hf3. assert (same_outside tf (ram m2) (ram m3)) as Hout3 by exact Hout3'. clear Hout3'. clearbody m3.
    exists m2, m3, (tf :: l2). split; [done |]. split; [done |]. split; [constructor; [done | |] | simpl; lia].
    + intros x. rewrite !elem_of_cons, Hl2. done.
    + intros x Hx. rewrite Hout3, Hw2, Hout; [done | apply Hx; left; left | | apply Hx; left; left]. intros y Hy. apply Hx. left. by right.
Qed.

(** [setup_proc] on the slot [i] that was found, with its lock held *)
Lemma setup_ok i s l h w k :
  mem_inv s l → inproc i → state (getp s i) = UNUSED → L_proc i ∉ h → L_kmem ∉ h → L_pid ∉ h →
  let p := getp s i in
  ∃ r s' l', setup_proc kend trampoline forkret_addr i s (Ctx (L_proc i :: h) w k) = Ok r s' (Ctx (if r is Some _ then L_proc i :: h else h) w k) ∧ own_step i s l s' l' ∧
    ((r = Some i ∧ (length l <= length l' + 6)%nat ∧ ∃ tf pt, pt ≠ 0 ∧ getp s' i = newborn (nextpid s) tf pt p) ∨
     (r = None ∧ state (getp s' i) = UNUSED ∧ (length l <= 6)%nat ∧ ∀ x, x ∈ l' ↔ x ∈ l)).
Proof.
  intros H Hi Hu Hpr Hkm Hpi p. destruct (mi_unused _ _ _ _ H i Hi Hu) as (Hpt & Htf & Hsz). fold p in Hpt, Htf, Hsz.
  assert (L_kmem ∉ L_proc i :: h) as Hkm' by (rewrite not_elem_of_cons; done). assert (L_pid ∉ L_proc i :: h) as Hpi' by (rewrite not_elem_of_cons; done).
  set (x := Ctx (L_proc i :: h) w k). pose proof (bump_inv s l H) as Hb. assert (tbl_ok (bump s)) as Htb by apply H.
  unfold setup_proc. kstep (allocpid_ok s (L_proc i :: h) w k Hpi'). fold x. rewrite <- (put_self i (bump s) Htb Hi). change (getp (bump s) i) with p.
  change (mem_ (bump s)) with (mem_ s). set (m := mem_ s). set (n := nextpid s).
  kstep (updproc_put i (set_pid n) p (bump s) m x Htb Hi). kstep (updproc_put i (set_state USED) (set_pid n p) (bump s) m x Htb Hi). set (p1 := set_state USED (set_pid n p)).
  assert (∀ q m' l', pagetable q = 0 → touches m l (λ _, False) m' l' (λ _, False) → own_step i s l (put i (freed q) (bump s) m') l' ∧
    state (getp (put i (freed q) (bump s) m') i) = UNUSED ∧ ∀ y, y ∈ l' ↔ y ∈ l) as Hfail.
  { intros q m' l' Hq [T1 T2 T3]. split; [| split; [by rewrite getp_put_eq | intros y; specialize (T2 y); tauto]].
    apply bump_step, slot_freed; try done. assert (∀ y, held_by (bump s) i y ↔ False) as Hno by (intros y; split; [by intros [? _] | done]).
    constructor; [done | intros y; by rewrite Hno |]. intros y Hy. apply T3. intros t Ht. apply Hy. by rewrite Hno. }
  destruct (setup_memory m l n p (L_proc i :: h) w k (mi_free _ _ _ _ H) Hsz Hkm') as [[-> E1] | (tf & m1 & E1 & Htf0 & Hr)].
  - kstep (lift_put kalloc i p1 (bump s) m x 0 m x E1). kstep (updproc_put i (set_trapframe 0) p1 (bump s) m x Htb Hi). cbn [Z.eqb].
    kstep (freeproc_run kend i (set_trapframe 0 p1) (bump s) m m m x Htb Hi eq_refl ltac:(cbn; by rewrite Hpt)). unfold x. krel.
    eexists None, _, []. split; [reflexivity |]. destruct (Hfail (set_trapframe 0 p1) m []) as (F1 & F2 & F3); [done | by constructor; [apply H | |] |].
    split; [done |]. right. split_and!; try done. simpl. lia.
  - kstep (lift_put kalloc i p1 (bump s) m x tf m1 x E1). kstep (updproc_put i (set_trapframe tf) p1 (bump s) m1 x Htb Hi). destruct (Z.eqb_spec tf 0); [done |].
    destruct Hr as [(pt & m' & l' & E2 & Hpt0 & Hsp & T & Hlen) | (m2 & m' & l' & E2 & E3 & T & Hlen)].
    + kstep (lift_put (proc_pagetable kend trampoline tf) i (set_trapframe tf p1) (bump s) m1 x pt m' x E2).
      kstep (updproc_put i (set_pagetable pt) (set_trapframe tf p1) (bump s) m' x Htb Hi). destruct (Z.eqb_spec pt 0); [done |].
      kstep (updproc_put i (λ p, set_context forkret_addr (kstack p + PGSIZE) p) (set_pagetable pt (set_trapframe tf p1)) (bump s) m' x Htb Hi).
      exists (Some i), (put i (newborn n tf pt p) (bump s) m'), l'. split; [done |]. split; [| left; split; [done |]; split; [done |]; exists tf, pt; split; [done | by apply getp_put_eq]].
      apply bump_step, slot_filled; try done. intros Hl. by apply Hl.
    + kstep (lift_put (proc_pagetable kend trampoline tf) i (set_trapframe tf p1) (bump s) m1 x 0 m2 x E2).
      kstep (updproc_put i (set_pagetable 0) (set_trapframe tf p1) (bump s) m2 x Htb Hi). cbn [Z.eqb].
      kstep (freeproc_run kend i (set_pagetable 0 (set_trapframe tf p1)) (bump s) m2 m' m' x Htb Hi ltac:(cbn; by rewrite (proj2 (Z.eqb_neq _ _) Htf0)) eq_refl). unfold x. krel.
      eexists None, _, l'. split; [reflexivity |]. destruct (Hfail (set_pagetable 0 (set_trapframe tf p1)) m' l') as (F1 & F2 & F3); [done | done |].
      split; [done |]. right. by split_and!.
Qed.

Lemma find_unused_none s h w k : plocks_free h → (∀ i, inproc i → state (getp s i) ≠ UNUSED) → find_unused s (Ctx h w k) = Ok None s (Ctx h w k).
Proof.
  intros Hh Hu. apply for_find_none. intros i Hi%elem_seq_proc. pose proof (Hh i). kacq. kstep. rewrite decide_False by (by apply Hu). krel. done.
Qed.

(** The first free slot *)
Lemma first_unused s : (∃ i, inproc i ∧ state (getp s i) = UNUSED ∧ ∀ j, 0 <= j < i → state (getp s j) ≠ UNUSED) ∨ ∀ i, inproc i → state (getp s i) ≠ UNUSED.
Proof.
  destruct (List.find (λ i, bool_decide (state (getp s i) = UNUSED)) (seqZ 0 NPROC)) as [i |] eqn:E; [left | right].
  - apply find_split in E as (l1 & l2 & El & Hi & Hf). apply bool_decide_eq_true in Hi. assert (inproc i) as Hin by (apply elem_seq_proc; rewrite El, elem_of_app; right; left).
    exists i. split; [done |]. split; [done |]. intros j Hj. rewrite Forall_forall in Hf. apply (bool_decide_eq_false (state (getp s j) = UNUSED)), Hf.
    assert (j ∈ l1 ++ i :: l2) as Hjl by (rewrite <- El; apply elem_seq_proc; unfold inproc in *; lia). apply elem_of_app in Hjl as [? | Hr]; [done |].
    pose proof (seqZ_split_le l1 0 NPROC i l2 j El Hr). lia.
  - intros i Hi. apply (bool_decide_eq_false (state (getp s i) = UNUSED)), (find_none_forall _ _ E). by apply elem_seq_proc.
Qed.

(** All pages that are free or held by a process *)
Definition pages (s : procs) (l : list Z) (x : Z) : Prop := x ∈ l ∨ ∃ i, inproc i ∧ held_by s i x.

Lemma own_step_pages i s l s' l' x : mem_inv s l → inproc i → own_step i s l s' l' → pages s' l' x ↔ pages s l x.
Proof.
  intros H Hi [S1 S2 S3 S4]. assert (∀ j, inproc j → j ≠ i → held_by s' j x ↔ held_by s j x) as Ho.
  { intros j Hj Hne. unfold held_by. rewrite S2 by done. split; intros [Hl Hx]; (split; [done |]); by apply (un_holds _ _ _ (S4 j Hj Hne Hl)). }
  assert (∀ s l, pages s l x ↔ (x ∈ l ∨ held_by s i x) ∨ ∃ j, inproc j ∧ j ≠ i ∧ held_by s j x) as Hp.
  { intros s0 l0. unfold pages. split; [intros [? | (j & Hj & Hx)] | intros [[? | Hx] | (j & Hj & _ & Hx)]]; [by left; left | | by left | right; by exists i | right; by exists j].
    destruct (decide (j = i)) as [-> | Hne]; [left; by right | right; by exists j]. }
  rewrite !Hp, S3. split; (intros [? | (j & Hj & Hne & Hx)]; [by left | right; exists j; split; [done |]; split; [done |]; by apply Ho]).
Qed.

(** [allocproc] returns.  It takes the first free slot, and gives a process
    with the next process number, an empty address space and a trap frame, its lock
    held; all its pages, six at most, come off the free list.  Or it gives none, and then there was
    no free slot or there were at most six free pages, every page is where it was,
    and the slot it tried is free.  No process notices. *)
Lemma allocproc_ok s l h w k :
  mem_inv s l → plocks_free h → L_kmem ∉ h → L_pid ∉ h →
  ∃ r s' l', allocproc kend trampoline forkret_addr s (Ctx h w k) = Ok r s' (Ctx (if r is Some i then L_proc i :: h else h) w k) ∧
    match r with
    | Some i =>
        inproc i ∧ state (getp s i) = UNUSED ∧ (∀ j, 0 <= j < i → state (getp s j) ≠ UNUSED) ∧ own_step i s l s' l' ∧ (length l <= length l' + 6)%nat ∧
        ∃ tf pt, pt ≠ 0 ∧ getp s' i = newborn (nextpid s) tf pt (getp s i)
    | None =>
        (s' = s ∧ l' = l ∧ ∀ i, inproc i → state (getp s i) ≠ UNUSED) ∨
        (∃ i, inproc i ∧ state (getp s i) = UNUSED ∧ state (getp s' i) = UNUSED ∧ own_step i s l s' l' ∧ (length l <= 6)%nat ∧ ∀ x, x ∈ l' ↔ x ∈ l)
    end.
Proof.
  intros H Hpl Hkm Hpi. unfold allocproc. destruct (first_unused s) as [(i & Hi & Hu & Hb) | Hn].
  - kstep (find_unused_ok s h w k i (mi_tbl _ _ _ _ H) Hpl Hi Hu Hb).
    destruct (setup_ok i s l h w k H Hi Hu (Hpl i) Hkm Hpi) as (r & s' & l' & E & Hst & [(-> & Hlen & tf & pt & Hpt & Hg) | (-> & Hu' & Hlen & Hl)]).
    + exists (Some i), s', l'. split; [exact E |]. split_and!; try done. by exists tf, pt.
    + exists None, s', l'. split; [exact E |]. right. exists i. by split_and!.
  - exists None, s, l. kstep (find_unused_none s h w k Hpl Hn). split; [done |]. by left.
Qed.

(** ** Properties *)

(** C26: [growproc] returns, and either gives 0, and then the size has changed by
    [n] (not at all when that would make it negative), the memory up to the smaller
    size is what it was, and what was added are zeroes; or, for a positive [n], -1,
    and then nothing the process sees has changed, because fewer than three free
    pages per new page were left.  No other process notices, the table's memory
    stays in order, and no page is lost.  In particular the 32-bit size the code
    computes with is exact. *)
Theorem growproc_resizes me n s l h w k :
  mem_inv s l → inproc me → live (getp s me) → - 2 ^ 31 <= n < 2 ^ 31 → L_kmem ∉ h →
  let p := getp s me in
  ∃ r s' l', growproc kend me n s (Ctx h w k) = Ok r s' (Ctx h w k) ∧ own_step me s l s' l' ∧
    ((r = 0 ∧ getp s' me = set_sz (resized (sz p) n) p ∧ resized_to (ram (mem_ s)) (ram (mem_ s')) (pagetable p) (sz p) (resized (sz p) n)) ∨
     (r = -1 ∧ 0 < n ∧ Z.of_nat (length l) <= 3 * ((PGROUNDUP (sz p + n) - PGROUNDUP (sz p)) / PGSIZE) ∧
      getp s' me = p ∧ resized_to (ram (mem_ s)) (ram (mem_ s')) (pagetable p) (sz p) (sz p))).
Proof. intros H Hme Hl Hn Hh p. by apply (growproc_ok kend trampoline Hkern Htramp me n s l). Qed.

(** C27: [freeproc] returns, the slot is free, every page of the process, its trap
    frame included, is on the free list, and no other process notices. *)
Theorem freeproc_frees i s l h w k :
  mem_inv s l → inproc i → live (getp s i) → L_kmem ∉ h →
  ∃ s' l', freeproc kend i s (Ctx h w k) = Ok tt s' (Ctx h w k) ∧ own_step i s l s' l' ∧ getp s' i = freed (getp s i) ∧
    ∀ x, x ∈ l' ↔ x ∈ l ∨ holds (ram (mem_ s)) (getp s i) x.
Proof. intros H Hi Hl Hh. by apply (freeproc_ok kend trampoline Hkern Htramp i s l). Qed.

(** One of the operations that change the memory of processes *)
Inductive pstep (s s' : procs) : Prop :=
  | ps_alloc w k r x' : allocproc kend trampoline forkret_addr s (Ctx [] w k) = Ok r s' x' → pstep s s'
  | ps_grow i n w k r x' : inproc i → live (getp s i) → - 2 ^ 31 <= n < 2 ^ 31 → growproc kend i n s (Ctx [] w k) = Ok r s' x' → pstep s s'
  | ps_free i w k x' : inproc i → live (getp s i) → freeproc kend i s (Ctx [] w k) = Ok tt s' x' → pstep s s'.

Lemma pstep_pages s s' l : pstep s s' → mem_inv s l → ∃ l', mem_inv s' l' ∧ ∀ x, pages s' l' x ↔ pages s l x.
Proof.
  assert (∀ i l', inproc i → mem_inv s l → own_step i s l s' l' → ∃ l', mem_inv s' l' ∧ ∀ x, pages s' l' x ↔ pages s l x) as Hown.
  { intros i l' Hi H Hst. exists l'. split; [apply Hst |]. intros x. by apply (own_step_pages i). }
  intros [w k r x' E | i n w k r x' Hi Hl Hn E | i w k x' Hi Hl E] H.
  - destruct (allocproc_ok s l [] w k H) as (r1 & s1 & l1 & E1 & Hr); [intros i; apply not_elem_of_nil | apply not_elem_of_nil | apply not_elem_of_nil |].
    rewrite E in E1. injection E1 as <- <- _. destruct r as [i |].
    + destruct Hr as (Hi & _ & _ & Hst & _). by apply (Hown i l1).
    + destruct Hr as [(-> & -> & _) | (i & Hi & _ & _ & Hst & _)]; [by exists l | by apply (Hown i l1)].
  - destruct (growproc_ok kend trampoline Hkern Htramp i n s l [] w k H Hi Hl Hn) as (r1 & s1 & l1 & E1 & Hst & _); [apply not_elem_of_nil |].
    rewrite E in E1. injection E1 as <- <- _. by apply (Hown i l1).
  - destruct (freeproc_ok kend trampoline Hkern Htramp i s l [] w k H Hi Hl) as (s1 & l1 & E1 & Hst & _); [apply not_elem_of_nil |].
    rewrite E in E1. injection E1 as <- _. by apply (Hown i l1).
Qed.

(** The empty table *)
Lemma procs0_getp m i : inproc i → getp (procs0 m) i = proc0.
Proof.
  intros Hi. unfold getp, procs0. cbn [tbl]. unfold zget, inproc in *. destruct (Z.ltb_spec i 0); [lia |].
  by rewrite lookup_replicate_2 by (unfold NPROC in *; lia).
Qed.

Lemma procs0_inv m l : free_pages m l → mem_inv (procs0 m) l.
Proof.
  intros Hf. pose proof (procs0_getp m) as Hg.
  constructor; [done | done | | |].
  - intros i Hi Hl. rewrite Hg in Hl by done. by destruct Hl.
  - intros i j x Hi _ Hl. rewrite Hg in Hl by done. by destruct Hl.
  - intros i Hi. by rewrite Hg.
Qed.

(** C5: In every state that [allocproc], [growproc] and [freeproc] reach from the
    empty process table, in any order and with any results, every page of the free
    list the kernel started with is either free or held by exactly one process, as
    its trap frame, page table or memory, and there are no other pages; every page
    table is a tree of its own tables that maps the pages below the process's size,
    to frames of its own, the trap frame and the trampoline, and nothing else. *)
Theorem process_pages m0 l0 s :
  free_pages m0 l0 → rtc pstep (procs0 m0) s →
  ∃ l, mem_inv s l ∧ (∀ x, pages s l x ↔ x ∈ l0) ∧ ∀ i j x, inproc i → inproc j → held_by s i x → held_by s j x → i = j ∧ x ∉ l.
Proof.
  intros Hf Hr. assert (∃ l, mem_inv s l ∧ ∀ x, pages s l x ↔ x ∈ l0) as (l & H & Hp).
  { revert s Hr. apply (rtc_ind_r (λ s, ∃ l, mem_inv s l ∧ ∀ x, pages s l x ↔ x ∈ l0)).
    - exists l0. pose proof (procs0_inv m0 l0 Hf) as H. split; [done |]. intros x. unfold pages. split; [| by left]. intros [? | (i & Hi & Hl & _)]; [done |].
      rewrite procs0_getp in Hl by done. by destruct Hl.
    - intros y z _ Hs (l & H & Hp). destruct (pstep_pages y z l Hs H) as (l' & H' & Hp'). exists l'. split; [done |]. intros x. by rewrite Hp'. }
  exists l. split; [done |]. split; [done |]. intros i j x Hi Hj [Hli Hxi] [Hlj Hxj]. split; [by apply (mi_apart _ _ _ _ H i j x) |].
  apply (holds_page kend trampoline (mem_ s) l (getp s i)); [by apply (mi_live _ _ _ _ H) | done].
Qed.
End alloc.

(** *** Witnesses: twenty free pages and one process *)

Definition kend20 : Z := PHYSTOP - 20 * PGSIZE.

Definition frame20 (i : Z) : Z := kend20 + i * PGSIZE.

Definition mem20 : pmem :=
  PMem (foldr (λ i m, store64 m (frame20 i) (if i =? 19 then 0 else frame20 (i + 1))) ∅ (seqZ 0 20)) (frame20 0).

Definition free20 : list Z := frame20 <$> seqZ 0 20.

Lemma free20_ok : free_pages kend20 mem20 free20.
Proof.
  split; [vm_compute; repeat split; discriminate |]. split; [apply (bool_decide_unpack _); vm_compute; exact I |].
  repeat constructor; vm_compute; intuition congruence.
Qed.

(** The state a run ends in *)
Definition left_by {A} (s : procs) (o : outcome procs A) : procs := match o with Ok _ s' _ => s' | _ => s end.

(** The trampoline and [forkret] somewhere in the kernel *)
Definition one_proc : procs :=
  left_by (procs0 mem20) (allocproc kend20 0x80007000 0x80001000 (procs0 mem20) (Ctx [] [] 0)).

Lemma one_proc_ok :
  ∃ l, mem_inv kend20 0x80007000 one_proc l ∧ (14 <= length l)%nat ∧ live (getp one_proc 0) ∧ sz (getp one_proc 0) = 0 ∧
    pstep kend20 0x80007000 0x80001000 (procs0 mem20) one_proc.
Proof.
  pose proof (procs0_inv kend20 0x80007000 mem20 free20 free20_ok) as H.
  destruct (allocproc_ok kend20 0x80007000 0x80001000 ltac:(vm_compute; discriminate) ltac:(lia) (procs0 mem20) free20 [] [] 0 H) as (r & s & l & E & Hr);
    [intros i; apply not_elem_of_nil | apply not_elem_of_nil | apply not_elem_of_nil |].
  assert (one_proc = s) as Es by (unfold one_proc; rewrite E; reflexivity). rewrite Es. pose proof (ps_alloc _ _ _ _ _ _ _ _ _ E) as Hps. clear E Es. change (length free20) with 20%nat in Hr.
  assert (inproc 0) as H0 by done. destruct r as [i |].
  - destruct Hr as (Hi & Hu & Hb & Hst & Hlen & tf & pt & Hpt & Hg).
    assert (i = 0) as ->. { destruct (decide (i = 0)) as [| Hne]; [done |]. destruct (Hb 0); [unfold inproc in Hi; lia |]. by rewrite procs0_getp. }
    exists l. split; [apply Hst |]. split; [lia |]. rewrite Hg. split; [done |]. split; [by rewrite procs0_getp | exact Hps].
  - destruct Hr as [(_ & _ & Hn) | (i & _ & _ & _ & _ & Hlen & _)]; [by destruct (Hn 0 H0) |]. lia.
Qed.

Lemma sz_set_sz v p : sz (set_sz v p) = v.
Proof. done. Qed.

Lemma pagetable_set_sz v p : pagetable (set_sz v p) = pagetable p.
Proof. done. Qed.

Lemma resized_last m m' root : resized_to m m' root 0 (resized 0 5000) → shows m' root 4999 = Some (Z.lor UVM_PERM PTE_V, 0).
Proof. intros Hr. rewrite Hr by (vm_compute; split; [discriminate | reflexivity]). reflexivity. Qed.

(** It grows by 5000 bytes. *)
Lemma growproc_resizes_witness :
  ∃ s' l', growproc kend20 0 5000 one_proc (Ctx [] [] 0) = Ok 0 s' (Ctx [] [] 0) ∧ mem_inv kend20 0x80007000 s' l' ∧ sz (getp s' 0) = 5000 ∧
    shows (ram (mem_ s')) (pagetable (getp s' 0)) 4999 = Some (Z.lor UVM_PERM PTE_V, 0).
Proof.
  destruct one_proc_ok as (l & H & Hlen & Hl & Hsz & _).
  destruct (growproc_resizes kend20 0x80007000 ltac:(vm_compute; discriminate) ltac:(lia) 0 5000 one_proc l [] [] 0 H ltac:(split; [lia | reflexivity]) Hl ltac:(lia) (not_elem_of_nil _))
    as (r & s' & l' & E & Hst & Hr). rewrite Hsz in Hr. destruct Hr as [(-> & Hg & Hr) | (_ & _ & Hn & _)].
  - exists s', l'. split; [exact E |]. split; [exact (os_inv _ _ _ _ _ _ _ Hst) |]. rewrite Hg, sz_set_sz, pagetable_set_sz. split; [reflexivity | exact (resized_last _ _ _ Hr)].
  - exfalso. change ((PGROUNDUP (0 + 5000) - PGROUNDUP 0) / PGSIZE) with 2 in Hn. lia.
Defined.

(** It is freed. *)
Lemma freeproc_frees_witness :
  ∃ s' l', freeproc kend20 0 one_proc (Ctx [] [] 0) = Ok tt s' (Ctx [] [] 0) ∧ mem_inv kend20 0x80007000 s' l' ∧ state (getp s' 0) = UNUSED.
Proof.
  destruct one_proc_ok as (l & H & Hlen & Hl & Hsz & _).
  destruct (freeproc_frees kend20 0x80007000 ltac:(vm_compute; discriminate) ltac:(lia) 0 one_proc l [] [] 0 H ltac:(split; [lia | reflexivity]) Hl (not_elem_of_nil _))
    as (s' & l' & E & Hst & Hg & _).
  exists s', l'. split; [exact E |]. split; [exact (os_inv _ _ _ _ _ _ _ Hst) |]. rewrite Hg. reflexivity.
Defined.

(** The table with that process is reachable. *)
Lemma process_pages_witness :
  ∃ l, mem_inv kend20 0x80007000 one_proc l ∧ ∀ x, pages one_proc l x ↔ x ∈ free20.
Proof.
  destruct one_proc_ok as (_ & _ & _ & _ & _ & Hps).
  destruct (process_pages kend20 0x80007000 0x80001000 ltac:(vm_compute; discriminate) ltac:(lia) mem20 free20 one_proc free20_ok (rtc_once _ _ Hps)) as (l & H & Hp & _).
  exists l. split; [exact H | exact Hp].
Defined.
