(* ===== verification/ProcWait.v ===== *)
(** * wait and kill on the process table with its memory

    [wait] with the copy of the exit status and the freeing of the child, and what
    [kill(0)] does to the process that [allocproc] makes next. *)

From S2P Require Import Prelude Monad Riscv Mem Kalloc Vm VmMap VmCopy VmSpace VmFree Proc ProcSpec ProcSpace ProcLife ProcAlloc.

(** What [shows] says of a user page *)
Lemma flag_PTE_FLAGS e b : 0 <= b < 2 ^ 10 → flag (PTE_FLAGS e) b = flag e b.
Proof.
  intros Hb. unfold flag, PTE_FLAGS. rewrite <- Z.land_assoc. do 3 f_equal.
  change 0x3FF with (Z.ones 10). rewrite Z.land_comm, Z.land_ones by lia. by apply Z.mod_small.
Qed.

Lemma ubyte_shows m root va :
  0 <= va < MAXVA →
  ubyte m root va = match shows m root va with Some (f, b) => if flag f PTE_U then Some b else None | None => None end.
Proof.
  intros [H1 H2]. unfold ubyte, upage, shows. rewrite (proj2 (Z.leb_le _ _) H1), (proj2 (Z.ltb_lt _ _) H2). cbn [andb].
  destruct (vleaf m root va) as [e |]; [| done]. rewrite flag_PTE_FLAGS by (change PTE_U with 16; lia). by destruct (flag e PTE_U).
Qed.

Section user.
Context (kend trampoline : Z) (Hkern : KERNBASE <= kend) (Htramp : 0 <= trampoline < 2 ^ 55).
Let Hkend : 0 < kend := Z.lt_le_trans 0 KERNBASE kend eq_refl Hkern.
Notation mem_inv := (mem_inv kend trampoline).
Notation space_ok := (space_ok kend trampoline).
Notation own_step := (own_step kend trampoline).

(** ** The user memory of a process *)

(** The trap frame and the trampoline are not for the user. *)
Lemma space_upage m l p va pa : space_ok m l p → upage (ram m) (pagetable p) va = Some pa → 0 <= va < TRAPFRAME ∧ ∃ e, vleaf (ram m) (pagetable p) va = Some e ∧ PTE2PA e = pa.
Proof.
  intros H E. pose proof (upage_range _ _ _ _ E) as Hr. unfold upage in E. rewrite (proj2 (Z.leb_le _ _)), (proj2 (Z.ltb_lt _ _)) in E by lia. cbn [andb] in E.
  destruct (vleaf (ram m) (pagetable p) va) as [e |] eqn:Ev; [| done]. destruct (flag e PTE_U) eqn:Ef; [| done]. injection E as <-.
  assert (MAXVA < VASIZE ∧ 0 <= TRAMPOLINE < VASIZE ∧ 0 <= TRAPFRAME < VASIZE) as (HM & HT1 & HT2) by done.
  destruct (Z.lt_ge_cases va TRAPFRAME) as [Hlt | Hge]; [split; [lia | by exists e] |]. exfalso.
  destruct (sp_top _ _ _ _ _ H) as [U1 U2 _]. destruct (sp_tf _ _ _ _ _ H) as [_ Htf]. assert (PHYSTOP < 2 ^ 55) as HP by done.
  assert (∀ pa perm, 0 <= pa < 2 ^ 55 → 0 <= perm < 2 ^ 10 → Z.land (Z.lor perm PTE_V) PTE_U = 0 → e = leaf_pte pa perm → False) as Hno.
  { intros pa perm Hpa Hperm Hz ->. rewrite <- flag_PTE_FLAGS, top_flags in Ef by (done || change PTE_U with 16; lia). unfold flag in Ef. by rewrite Hz in Ef. }
  destruct (top_cases trampoline Htramp va) as [Et | [Et | ?]]; [lia | | | lia].
  - rewrite <- (vleaf_same_page _ _ TRAMPOLINE va), U1 in Ev by (done || lia). injection Ev as <-. by apply (Hno trampoline (Z.lor PTE_R PTE_X)).
  - rewrite <- (vleaf_same_page _ _ TRAPFRAME va), U2 in Ev by (done || lia). injection Ev as <-. apply (Hno (trapframe p) (Z.lor PTE_R PTE_W)); try done. unfold KERNBASE in *. lia.
Qed.

Lemma space_user_ok m l p : space_ok m l p → user_ok kend (ram m) (pagetable p).
Proof.
  intros H. constructor; [apply (ok_wf _ _ _ _ (as_vm _ _ _ _ (sp_as _ _ _ _ _ H))) | |].
  - intros va pa E. destruct (space_upage m l p va pa H E) as (Hva & e & Ev & <-). by destruct (as_leaf _ _ _ _ (sp_as _ _ _ _ _ H) va e Hva Ev) as (_ & ? & ? & _).
  - intros va va' pa E E'. destruct (space_upage m l p va pa H E) as (Hva & e & Ev & <-), (space_upage m l p va' _ H E') as (Hva' & e' & Ev' & Ee).
    by apply (as_inj _ _ _ _ (sp_as _ _ _ _ _ H) va va' e e').
Qed.

(** A write of user memory is a step of the address space that keeps its pages. *)
Lemma wrote_step m l p m' va bs :
  space_ok m l p → freelist m' = freelist m → wrote kend (pagetable p) va bs (ram m) (ram m') →
  as_step kend (pagetable p) m l m' l ∧ fills (ram m') (pagetable p) (sz p).
Proof.
  intros H Hfl Hw. pose proof (sp_as _ _ _ _ _ H) as Has. pose proof (ok_free _ _ _ _ (as_vm _ _ _ _ Has)) as (Hch & Hnd & Hfp).
  assert (∀ t, page kend t → (∀ va e, 0 <= va < TRAPFRAME → vleaf (ram m) (pagetable p) va = Some e → PTE2PA e ≠ t) →
    ∀ x, 0 <= x < PGSIZE → mget (ram m') (t + x) = mget (ram m) (t + x)) as Hkeep.
  { intros t Ht Hne x Hx. apply (w_frame _ _ _ _ _ _ Hw). intros va' pa E. destruct (space_upage m l p va' pa H E) as (Hva' & e & Ev & <-).
    destruct (as_leaf _ _ _ _ Has va' e Hva' Ev) as (_ & Hp & _). apply (page_disjoint kend); try done. intros Et. by apply (Hne va' e Hva' Ev). }
  assert (∀ t x, tables (ram m) (pagetable p) t → 0 <= x < PGSIZE → mget (ram m') (t + x) = mget (ram m) (t + x)) as Hst.
  { intros t x Ht. apply Hkeep; [by apply (wf_page _ _ _ (ok_wf _ _ _ _ (as_vm _ _ _ _ Has))) |]. intros va' e Hva' Ev <-. by destruct (as_leaf _ _ _ _ Has va' e Hva' Ev) as (_ & _ & ? & _). }
  pose proof (agree_vleaf _ _ _ Hst) as Hv. pose proof (agree_tables _ _ _ Hst) as Htb.
  assert (∀ x, owns (ram m') (pagetable p) x ↔ owns (ram m) (pagetable p) x) as Ho by (intros x; unfold owns, frames; rewrite Htb; by setoid_rewrite Hv).
  split; [constructor; [constructor; [constructor |..] | | |] |].
  - split; [| done]. rewrite Hfl. rewrite Forall_forall in Hfp. apply (chain_ext (ram m)); [| done]. intros a x Ha Hx. apply Hkeep; [by apply Hfp | | unfold PGSIZE; lia].
    intros va' e Hva' Ev <-. by destruct (as_leaf _ _ _ _ Has va' e Hva' Ev) as (_ & _ & _ & ?).
  - apply (agree_wf kend (ram m)); [apply (ok_wf _ _ _ _ (as_vm _ _ _ _ Has)) | done].
  - intros t Ht%Htb. by apply (ok_used _ _ _ _ (as_vm _ _ _ _ Has)).
  - intros va' e Hva' E. rewrite Hv in E. rewrite Htb. by apply (as_leaf _ _ _ _ Has va').
  - intros va1 va2 e e' H1 H2. rewrite !Hv. by apply (as_inj _ _ _ _ Has).
  - intros x. by rewrite Ho.
  - intros va' _. by rewrite Hv.
  - intros x Hx. apply (w_frame _ _ _ _ _ _ Hw). intros va' pa E. destruct (space_upage m l p va' pa H E) as (Hva' & e & Ev & <-). apply Hx. right. right. by exists va', e.
  - intros x Hx. rewrite <- (sp_fills _ _ _ _ _ H x Hx), !shows_None, Hv. done.
Qed.

(** [copyout] to the memory of the process in slot [me] *)
Lemma proc_copyout me va src s l x :
  let p := getp s me in
  mem_inv s l → inproc me → live p → 0 <= va < 2 ^ 64 →
  ∃ r m' k, copyout (pagetable p) va src (mem_ s) x = Ok r m' x ∧ own_step me s l (with_mem s m') l ∧
    wrote kend (pagetable p) va (take k src) (ram (mem_ s)) (ram m') ∧
    ((r = 0 ∧ (length src <= k)%nat) ∨ (r = -1 ∧ (k < length src)%nat ∧ upage (ram (mem_ s)) (pagetable p) (va + Z.of_nat k) = None)).
Proof.
  intros p H Hme Hl Hva. pose proof (mi_live _ _ _ _ H me Hme Hl) as Hsp. fold p in Hsp.
  destruct (copyout_loop_ok kend Hkend (length src) (pagetable p) va src (mem_ s) x (space_user_ok _ _ _ Hsp) Hva) as (r & m' & k & E & Hfl & Hw & Hr); [done |].
  exists r, m', k. split; [done |]. split; [| done]. destruct (wrote_step _ _ _ m' _ _ Hsp Hfl Hw) as [Hst Hf].
  destruct (as_step_tf kend trampoline Htramp _ _ _ _ _ Hsp Hst) as (_ & _ & _ & T & _).
  rewrite <- (put_same me s m' (mi_tbl _ _ _ _ H) Hme). fold p. apply (slot_changed kend trampoline Htramp); try done.
  - by apply (live_used kend trampoline s l me).
  - rewrite <- (set_sz_same p). apply (space_resized kend trampoline Htramp (mem_ s) l); try done. apply (sp_sz _ _ _ _ _ Hsp).
Qed.

(** Another process sees the user memory it saw. *)
Lemma untouched_ubyte m l m' l' p va :
  space_ok m l p → space_ok m' l' p → untouched m m' p → ubyte (ram m') (pagetable p) va = ubyte (ram m) (pagetable p) va.
Proof.
  intros H H' [_ Hs _]. assert (TRAPFRAME < MAXVA) as HT by done.
  destruct (decide (0 <= va < TRAPFRAME)) as [Hva | Hva]; [by rewrite !ubyte_shows, Hs by lia |].
  assert (∀ m l, space_ok m l p → upage (ram m) (pagetable p) va = None) as Hn.
  { intros m0 l0 H0. destruct (upage (ram m0) (pagetable p) va) as [pa |] eqn:E; [| done]. by apply (space_upage m0 l0) in E as [? _]. }
  unfold ubyte. by rewrite (Hn m l), (Hn m' l').
Qed.

(** ** wait *)

(** The status of the child, as [wait] copies it *)
Definition status (p : proc) : list Z := Z_to_little_endian 4 8 (xstate p).

(** [wait] has freed the zombie in slot [i]: its pages are free, nobody else's entry
    has changed, the caller has the status at [addr], and the others see no change. *)
Record reaped (me addr i : Z) (s : procs) (l : list Z) (s' : procs) (l' : list Z) : Prop := {
  rp_inv : mem_inv s' l';
  rp_slot : getp s' i = freed (getp s i);
  rp_table : ∀ j, j ≠ i → getp s' j = getp s j;
  rp_pages : ∀ x, x ∈ l' ↔ x ∈ l ∨ holds (ram (mem_ s)) (getp s i) x;
  rp_status : let root := pagetable (getp s me) in ∀ va,
    ubyte (ram (mem_ s')) root va =
      (if addr =? 0 then ubyte (ram (mem_ s)) root va else uwrite (ubyte (ram (mem_ s)) root) addr (status (getp s i)) va);
  rp_others : ∀ j, inproc j → j ≠ i → j ≠ me → live (getp s j) → untouched (mem_ s) (mem_ s') (getp s j) }.

(** Freeing the child after the status has been written *)
Lemma reap me i s l m1 h w k :
  mem_inv s l → inproc me → live (getp s me) → inproc i → i ≠ me → live (getp s i) → L_kmem ∉ h →
  own_step me s l (with_mem s m1) l →
  ∃ s' l', freeproc kend i (with_mem s m1) (Ctx h w k) = Ok tt s' (Ctx h w k) ∧
    mem_inv s' l' ∧ getp s' i = freed (getp s i) ∧ (∀ j, j ≠ i → getp s' j = getp s j) ∧
    (∀ x, x ∈ l' ↔ x ∈ l ∨ holds (ram (mem_ s)) (getp s i) x) ∧
    (∀ va, ubyte (ram (mem_ s')) (pagetable (getp s me)) va = ubyte (ram m1) (pagetable (getp s me)) va) ∧
    ∀ j, inproc j → j ≠ i → j ≠ me → live (getp s j) → untouched (mem_ s) (mem_ s') (getp s j).
Proof.
  intros H Hme Hlme Hi Hne Hli Hh [S1 S2 S3 S4].
  destruct (freeproc_ok kend trampoline Hkern Htramp i (with_mem s m1) l h w k S1 Hi Hli Hh) as (s' & l' & E & [F1 F2 F3 F4] & Hg & Hl').
  exists s', l'. split; [done |]. split; [done |]. split; [done |]. split; [done |]. split; [| split].
  - intros x. rewrite Hl'. change (getp (with_mem s m1) i) with (getp s i). by rewrite (un_holds _ _ _ (S4 i Hi Hne Hli)).
  - intros va. pose proof (F4 me Hme ltac:(congruence) Hlme) as Hun. change (getp (with_mem s m1) me) with (getp s me) in Hun.
    apply (untouched_ubyte m1 l (mem_ s') l'); [by apply (mi_live _ _ _ _ S1 me) | | done].
    pose proof (mi_live _ _ _ _ F1 me Hme) as Hsp. rewrite F2 in Hsp by congruence. by apply Hsp.
  - intros j Hj Hji Hjm Hlj. destruct (S4 j Hj Hjm Hlj) as [U1 U2 U3], (F4 j Hj Hji Hlj) as [V1 V2 V3].
    constructor; [intros x; by rewrite V1, U1 | intros va Hva; by rewrite V2, U2 | intros x Hx; by rewrite V3, U3].
Qed.

(** C28: [wait(addr)] reaps the first zombie child in the table: its pages become
    free, its slot unused, its exit status is at [addr] in the caller's memory unless
    [addr] is 0, and its pid is the result; or, if a byte of the status has no user
    page to go to, the result is -1 and the child stays as it is.  With no zombie child [wait]
    returns -1 and changes nothing when the caller has no children or has been killed,
    and otherwise sleeps on itself, which is what [exit] of a child wakes, and starts
    again when woken. *)
Theorem wait_reaps me addr s l h w k :
  mem_inv s l → inproc me → live (getp s me) → state (getp s me) ≠ ZOMBIE → 0 <= addr < 2 ^ 64 →
  plocks_free h → L_wait ∉ h → L_kmem ∉ h →
  (∀ i, first_zombie me s i → live (getp s i) →
     ∃ r s' l', wait kend me addr s (Ctx h w k) = Ok r s' (Ctx h w k) ∧
       ((r = pid (getp s i) ∧ reaped me addr i s l s' l') ∨
        (r = -1 ∧ addr ≠ 0 ∧ l' = l ∧ own_step me s l s' l ∧ (∀ j, getp s' j = getp s j) ∧
         ∃ n, (n < 4)%nat ∧ upage (ram (mem_ s)) (pagetable (getp s me)) (addr + Z.of_nat n) = None ∧
           wrote kend (pagetable (getp s me)) addr (take n (status (getp s i))) (ram (mem_ s)) (ram (mem_ s'))))) ∧
  ((∀ i, inproc i → child me s i = true → zombie s i = false) →
     ((∀ i, inproc i → child me s i = false) ∨ killed (getp s me) = true →
        wait kend me addr s (Ctx h w k) = Ok (-1) s (Ctx h w k)) ∧
     (h = [] → (∃ i, inproc i ∧ child me s i = true) → killed (getp s me) = false →
        ∃ kont, wait kend me addr s (Ctx h w (S k)) = Sleeping (C_proc me) s (Ctx [] w k) kont ∧
          ∀ s' w', kont s' (Ctx [] w' k) = wait kend me addr s' (Ctx [] w' k))).
Proof.
  intros H Hme Hl Hst Ha Hh Hw Hk. split; [| by apply wait_none].
  intros i Hz Hli. pose proof Hz as (Hi & _ & Hzi & _). unfold zombie in Hzi. rewrite bool_decide_eq_true in Hzi.
  assert (i ≠ me) as Hne by congruence. set (h' := L_proc i :: L_wait :: h).
  assert (L_kmem ∉ h') as Hk' by (unfold h'; rewrite !not_elem_of_cons; done).
  destruct (Z.eqb_spec addr 0) as [-> | Ha0].
  - pose proof (wait_found kend me 0 i 0 s s h w k Hh Hw Hz eq_refl) as Hwait. cbn [Z.ltb Z.compare] in Hwait.
    destruct (reap me i s l (mem_ s) h' w k H Hme Hl Hi Hne Hli Hk') as (s' & l' & E & R1 & R2 & R3 & R4 & R5 & R6).
    { destruct s as [a b c d]. constructor; try done. }
    assert (with_mem s (mem_ s) = s) as Es by by destruct s. rewrite Es in E.
    exists (pid (getp s i)), s', l'. split; [by apply Hwait |]. left. split; [done |]. by constructor.
  - destruct (proc_copyout me addr (status (getp s i)) s l (Ctx h' w k) H Hme Hl Ha) as (r & m1 & n & E & Ho & Hwr & Hr).
    pose proof (wait_found kend me addr i r s (with_mem s m1) h w k Hh Hw Hz) as Hwait. cbv zeta in Hwait.
    rewrite (proj2 (Z.eqb_neq _ _) Ha0) in Hwait. specialize (Hwait (lift_ok memL _ s _ _ _ _ E)).
    destruct Hr as [[-> Hn] | (-> & Hn & Hu)]; cbn [Z.ltb Z.compare] in Hwait.
    + destruct (reap me i s l m1 h' w k H Hme Hl Hi Hne Hli Hk' Ho) as (s' & l' & E' & R1 & R2 & R3 & R4 & R5 & R6).
      exists (pid (getp s i)), s', l'. split; [by apply Hwait |]. left. split; [done |]. constructor; try done.
      intros root va. rewrite R5, (proj2 (Z.eqb_neq _ _) Ha0), (w_ubyte _ _ _ _ _ _ Hwr). by rewrite take_ge by done.
    + exists (-1), (with_mem s m1), l. split; [done |]. right. split_and!; try done. by exists n.
Qed.

(** ** kill *)

(** C29: [kill(0)] succeeds on a free table slot.  A free slot has pid 0, so
    [kill(0)] returns 0 and sets the slot's [killed] flag; with the seven pages it needs at most,
    [allocproc] then makes a process in that very slot and does not clear the
    flag: the process is born killed. *)
Theorem kill_zero_marks_free_slot forkret_addr s l h w k i :
  mem_inv s l → (7 <= length l)%nat → plocks_free h → L_kmem ∉ h → L_pid ∉ h →
  inproc i → pid (getp s i) = 0 → state (getp s i) = UNUSED →
  (∀ j, 0 <= j < i → pid (getp s j) ≠ 0 ∧ state (getp s j) ≠ UNUSED) →
  ∃ s1 s2, kill 0 s (Ctx h w k) = Ok 0 s1 (Ctx h w k) ∧ killed (getp s1 i) = true ∧
    allocproc kend trampoline forkret_addr s1 (Ctx h w k) = Ok (Some i) s2 (Ctx (L_proc i :: h) w k) ∧
    state (getp s2 i) = USED ∧ pid (getp s2 i) = nextpid s ∧ killed (getp s2 i) = true.
Proof.
  intros H Hlen Hh Hk Hp Hi Hpid Hu Hb. assert (tbl_ok s) as Ht by apply H.
  set (q := set_killed true (getp s i)). exists (setp i q s).
  pose proof (kill_first 0 s h w k i Ht Hh Hi Hpid Hu ltac:(intros j Hj; by apply Hb)) as E1. fold q in E1.
  assert (∀ j, getp (setp i q s) j = if i =? j then q else getp s j) as G by (intros; by apply getp_setp).
  destruct (mi_unused _ _ _ _ H i Hi Hu) as (U1 & U2 & U3).
  assert (own_step i s l (put i q s (mem_ s)) l) as Ho.
  { apply (slot_freed kend trampoline Htramp); try done. constructor; [apply H | | done].
    intros x. unfold held_by, live. rewrite U1. tauto. }
  assert (put i q s (mem_ s) = setp i q s) as Es by by destruct s. rewrite Es in Ho.
  destruct (allocproc_ok kend trampoline forkret_addr Hkern Htramp (setp i q s) l h w k (os_inv _ _ _ _ _ _ _ Ho) Hh Hk Hp) as (r & s2 & l2 & E2 & Hr).
  assert (state (getp (setp i q s) i) = UNUSED) as Hui by (by rewrite G, Z.eqb_refl).
  destruct r as [j |].
  - destruct Hr as (Hj & Huj & Hbj & _ & _ & tf & pt & _ & Hg). assert (j = i) as ->.
    { destruct (Z.lt_trichotomy j i) as [Hlt | [| Hgt]]; [| done | by destruct (Hbj i); [unfold inproc in Hi; lia |]].
      rewrite G in Huj. destruct (Z.eqb_spec i j); [lia |]. by destruct (Hb j) as [_ ?]; [unfold inproc in Hj; lia |]. }
    exists s2. rewrite Hg, G, Z.eqb_refl. by split_and!.
  - exfalso. destruct Hr as [(_ & _ & Hn) | (j & _ & _ & _ & _ & Hl & _)]; [by destruct (Hn i) | lia].
Qed.
End user.

(** *** Witnesses *)

(** The table with one process: slot 0 is in use, all others are free. *)
Lemma one_proc_table :
  state (getp one_proc 0) = USED ∧ pid (getp one_proc 0) = 1 ∧ ∀ j, inproc j → j ≠ 0 → getp one_proc j = proc0.
Proof.
  pose proof (procs0_inv kend20 0x80007000 mem20 free20 free20_ok) as H.
  destruct (allocproc_ok kend20 0x80007000 0x80001000 ltac:(vm_compute; discriminate) ltac:(lia) (procs0 mem20) free20 [] [] 0 H) as (r & s & l & E & Hr);
    [intros i; apply not_elem_of_nil | apply not_elem_of_nil | apply not_elem_of_nil |].
  assert (one_proc = s) as -> by (unfold one_proc; rewrite E; reflexivity). clear E. change (length free20) with 20%nat in Hr.
  destruct r as [i |].
  - destruct Hr as (Hi & Hu & Hb & Hst & _ & tf & pt & _ & Hg).
    assert (i = 0) as ->. { destruct (decide (i = 0)) as [| Hne]; [done |]. destruct (Hb 0); [unfold inproc in Hi; lia |]. by rewrite procs0_getp. }
    rewrite Hg. split; [done |]. split; [done |]. intros j Hj Hne. rewrite (os_table _ _ _ _ _ _ _ Hst j Hne). by apply procs0_getp.
  - destruct Hr as [(_ & _ & Hn) | (i & _ & _ & _ & _ & Hlen & _)]; [by destruct (Hn 0); [| rewrite procs0_getp] | lia].
Qed.

(** The next process made there is in slot 1 and is born killed. *)
Lemma kill_zero_marks_free_slot_witness :
  ∃ s1 s2, kill 0 one_proc (Ctx [] [] 0) = Ok 0 s1 (Ctx [] [] 0) ∧ killed (getp s1 1) = true ∧
    allocproc kend20 0x80007000 0x80001000 s1 (Ctx [] [] 0) = Ok (Some 1) s2 (Ctx [L_proc 1] [] 0) ∧
    state (getp s2 1) = USED ∧ pid (getp s2 1) = nextpid one_proc ∧ killed (getp s2 1) = true.
Proof.
  destruct one_proc_ok as (l & H & Hlen & _), one_proc_table as (H1 & H2 & H3).
  apply (kill_zero_marks_free_slot kend20 0x80007000 ltac:(vm_compute; discriminate) ltac:(lia) 0x80001000 one_proc l [] [] 0 1 H);
    [lia | apply plocks_free_nil | apply not_elem_of_nil | apply not_elem_of_nil | split; [lia | reflexivity] | | |].
  - rewrite H3; [reflexivity | split; [lia | reflexivity] | discriminate].
  - rewrite H3; [reflexivity | split; [lia | reflexivity] | discriminate].
  - intros j Hj. assert (j = 0) as -> by lia. rewrite H1, H2. split; discriminate.
Defined.

Section family.
Notation tr := 0x80007000.
Notation mem_inv20 := (mem_inv kend20 tr).
Let Hk20 : KERNBASE <= kend20 := ltac:(vm_compute; discriminate).
Let Htr : 0 <= tr < 2 ^ 55 := ltac:(lia).

Definition dead_child (p : proc) : proc := set_parent (Some 0) (set_xstate 7 (set_state ZOMBIE p)).

(** Another process in slot 1; the one in slot 0 gets 5000 bytes of memory. *)
Lemma two_procs :
  ∃ s l, mem_inv20 s l ∧ live (getp s 0) ∧ state (getp s 0) = USED ∧ parent (getp s 0) = None ∧ live (getp s 1) ∧
    ∀ va, 0 <= va < 4096 → ubyte (ram (mem_ s)) (pagetable (getp s 0)) va = Some 0.
Proof.
  destruct one_proc_ok as (l & H & Hlen & Hl & Hsz & _), one_proc_table as (H1 & H2 & H3).
  assert (parent (getp one_proc 0) = None) as Hpar by (vm_compute; reflexivity).
  revert H Hlen Hl Hsz H1 H2 H3 Hpar. generalize one_proc as s. intros s H Hlen Hl Hsz H1 H2 H3 Hpar.
  assert (inproc 0 ∧ inproc 1) as [I0 I1] by done.
  destruct (allocproc_ok kend20 tr 0x80001000 Hk20 Htr s l [] [] 0 H) as (r & s1 & l1 & _ & Hr);
    [apply plocks_free_nil | apply not_elem_of_nil | apply not_elem_of_nil |].
  destruct r as [i |]; [| destruct Hr as [(_ & _ & Hn) | (i & _ & _ & _ & _ & ? & _)]; [by destruct (Hn 1 I1); rewrite H3 | lia]].
  destruct Hr as (Hi & Hu & Hb & Hst & Hlen1 & tf & pt & Hpt & Hg).
  assert (i = 1) as ->.
  { destruct (Z.lt_trichotomy i 1) as [Hlt | [| Hgt]]; [| done | by destruct (Hb 1); [lia | rewrite H3]].
    assert (i = 0) as -> by (unfold inproc in Hi; lia). congruence. }
  pose proof (os_table _ _ _ _ _ _ _ Hst 0 ltac:(lia)) as G0.
  destruct (growproc_ok kend20 tr Hk20 Htr 0 5000 s1 l1 [] [] 0 (os_inv _ _ _ _ _ _ _ Hst) I0) as (r & s2 & l2 & _ & Hst2 & Hr2);
    [by rewrite G0 | lia | apply not_elem_of_nil |].
  rewrite G0, Hsz in Hr2. destruct Hr2 as [(_ & Hg2 & Hres) | (_ & _ & Hn & _)].
  2: { exfalso. change ((PGROUNDUP (0 + 5000) - PGROUNDUP 0) / PGSIZE) with 2 in Hn. lia. }
  pose proof (os_table _ _ _ _ _ _ _ Hst2 1 ltac:(lia)) as G1.
  exists s2, l2. split; [apply Hst2 |]. rewrite Hg2, G1, Hg. split_and!; try done.
  intros va Hva. assert (4096 < TRAPFRAME ∧ TRAPFRAME < MAXVA) as [HT HM] by done.
  rewrite pagetable_set_sz, ubyte_shows, (Hres va) by lia.
  change (PGROUNDUP (resized 0 5000)) with 8192. change (PGROUNDUP 0) with 0.
  destruct (Z.ltb_spec va 8192), (Z.ltb_spec va 0); try lia. done.
Qed.

(** The process in slot 1 is a zombie child of the one in slot 0. *)
Lemma family_ok :
  ∃ s l, mem_inv20 s l ∧ live (getp s 0) ∧ state (getp s 0) = USED ∧ first_zombie 0 s 1 ∧ live (getp s 1) ∧ xstate (getp s 1) = 7 ∧
    ∀ va, 0 <= va < 4096 → ubyte (ram (mem_ s)) (pagetable (getp s 0)) va = Some 0.
Proof.
  destruct two_procs as (s & l & H & L0 & S0 & P0 & L1 & Hb). assert (inproc 0 ∧ inproc 1) as [I0 I1] by done.
  assert (tbl_ok s) as Ht by apply H. pose proof (mi_live _ _ _ _ H 1 I1 L1) as Hsp.
  set (s' := put 1 (dead_child (getp s 1)) s (mem_ s)).
  assert (getp s' 1 = dead_child (getp s 1)) as G1 by (by apply getp_put_eq).
  assert (getp s' 0 = getp s 0) as G0 by (unfold s'; by rewrite getp_put).
  exists s', l. rewrite G0, G1. split_and!; try done.
  - apply (os_inv kend20 tr 1 s l), (slot_changed kend20 tr Htr); try done.
    + by destruct Hsp; constructor.
    + apply touches_refl, H.
  - unfold first_zombie, child, zombie. split_and!; try done; rewrite ?G1; [done | done |].
    intros j Hj. assert (j = 0) as -> by lia. rewrite G0, P0. done.
Qed.
End family.

(** The parent waits, with the status to go to address 100: it is 7. *)
Lemma wait_reaps_witness :
  ∃ s s', wait kend20 0 100 s (Ctx [] [] 0) = Ok (pid (getp s 1)) s' (Ctx [] [] 0) ∧
    state (getp s' 1) = UNUSED ∧ ubyte (ram (mem_ s')) (pagetable (getp s 0)) 100 = Some 7.
Proof.
  destruct family_ok as (s & l & H & L0 & S0 & Hz & L1 & X1 & Hb). exists s.
  destruct (wait_reaps kend20 0x80007000 ltac:(vm_compute; discriminate) ltac:(lia) 0 100 s l [] [] 0 H) as [Hreap _];
    [split; [lia | reflexivity] | exact L0 | rewrite S0; discriminate | lia | apply plocks_free_nil | apply not_elem_of_nil | apply not_elem_of_nil |].
  destruct (Hreap 1 Hz L1) as (r & s' & l' & E & [[-> [R1 R2 R3 R4 R5 R6]] | (_ & _ & _ & _ & _ & n & Hn & Hu & _)]).
  - exists s'. split; [exact E |]. rewrite R2. split; [reflexivity |]. rewrite R5. unfold status. rewrite X1. reflexivity.
  - exfalso. specialize (Hb (100 + Z.of_nat n) ltac:(lia)). unfold ubyte in Hb. rewrite Hu in Hb. discriminate Hb.
Defined.
