(* ===== verification/SleepWake.v ===== *)
(** * Sleep and wakeup, one shared action at a time
      (kernel/proc.c, kernel/sleeplock.c)

    [Sleeplock.v] and [Proc.v] run [sleep] and [wakeup] as one thread sees
    them.  Here the processes interleave between any two accesses to shared
    state, and the protocol they follow is the code of [acquiresleep],
    [releasesleep], [sleep], [wakeup], [kill] and of the part of [scheduler]
    that looks at a process.  The shared state is the sleep lock, the spin
    lock [lk->lk] that guards it, and for each slot of the process table its
    [lock], [state] and [chan].

    One sleep lock and its channel are modelled; every process may call
    [acquiresleep], and one that holds the lock [releasesleep], at any time,
    and every process may [kill] any other, so a sleeper can also be made
    RUNNABLE by somebody who is not a waker.  A preempted process (an
    interrupt and [yield]) is one that takes no step for a while.

    The theorems say that the lock excludes, that no wakeup is lost (the
    comment of [sleep] claims it), that [sched] is called as it demands, and
    that the protocol does not deadlock. *)

From S2P Require Import Prelude Riscv Proc.

(** ** The state *)

(** Where a process is: the names say which action comes next. *)
Inductive point :=
| Idle
(** acquiresleep *)
| AAcq | ATest | ASet | APid | ARel
(** sleep *)
| SAcq | SRel | SChan | SState | SSched | SWoke | SRelP | SReacq
(** off the CPU; the scheduler at this slot *)
| Zzz | CTest | CDrop
(** between acquiresleep and releasesleep *)
| Crit
(** releasesleep, and wakeup at slot [k] *)
| RAcq | RSet | RPid | RWake (k : Z) | RTest (k : Z) | RDrop (k : Z) | RRel
(** kill of slot [k] *)
| KAcq (k : Z) | KTest (k : Z) | KDrop (k : Z).

#[export] Instance point_eq_dec : EqDecision point.
Proof. solve_decision. Defined.

(** [lkh] is the process inside [lk->lk]; [plk k] the one inside slot [k]'s
    [p->lock] (the scheduler that looks at slot [k] counts as process [k]);
    [ch k] says that [p->chan] of slot [k] is the sleep lock. *)
Record sys := Sys {
  lkh : option Z;
  locked : bool;
  owner : option Z;
  plk : Z → option Z;
  st : Z → procstate;
  ch : Z → bool;
  pc : Z → point }.

Definition inproc (i : Z) : Prop := 0 <= i < NPROC.

Definition goto (i : Z) (p : point) (s : sys) : sys :=
  Sys (lkh s) (locked s) (owner s) (plk s) (st s) (ch s) (<[i := p]> (pc s)).

Definition set_lkh (v : option Z) (s : sys) : sys :=
  Sys v (locked s) (owner s) (plk s) (st s) (ch s) (pc s).

Definition set_locked (v : bool) (s : sys) : sys :=
  Sys (lkh s) v (owner s) (plk s) (st s) (ch s) (pc s).

Definition set_owner (v : option Z) (s : sys) : sys :=
  Sys (lkh s) (locked s) v (plk s) (st s) (ch s) (pc s).

Definition set_plk (k : Z) (v : option Z) (s : sys) : sys :=
  Sys (lkh s) (locked s) (owner s) (<[k := v]> (plk s)) (st s) (ch s) (pc s).

Definition set_st (k : Z) (v : procstate) (s : sys) : sys :=
  Sys (lkh s) (locked s) (owner s) (plk s) (<[k := v]> (st s)) (ch s) (pc s).

Definition set_ch (k : Z) (v : bool) (s : sys) : sys :=
  Sys (lkh s) (locked s) (owner s) (plk s) (st s) (<[k := v]> (ch s)) (pc s).

(** ** The actions *)

(** [acquire] spins: the action is there once the lock is free. *)
Definition lock_lk (i : Z) (p : point) (s : sys) : option sys :=
  if lkh s then None else Some (goto i p (set_lkh (Some i) s)).

Definition lock_p (i k : Z) (p : point) (s : sys) : option sys :=
  if plk s k then None else Some (goto i p (set_plk k (Some i) s)).

Definition act_acquiresleep (i : Z) (s : sys) : option sys :=
  match pc s i with
  | AAcq => lock_lk i ATest s
  | ATest => Some (goto i (if locked s then SAcq else ASet) s)
  | ASet => Some (goto i APid (set_locked true s))
  | APid => Some (goto i ARel (set_owner (Some i) s))
  | ARel => Some (goto i Crit (set_lkh None s))
  | _ => None
  end.

(** [sched]'s switch leaves the CPU to the scheduler that chose this
    process, which still has [p->lock] to release. *)
Definition act_sleep (i : Z) (s : sys) : option sys :=
  match pc s i with
  | SAcq => lock_p i i SRel s
  | SRel => Some (goto i SChan (set_lkh None s))
  | SChan => Some (goto i SState (set_ch i true s))
  | SState => Some (goto i SSched (set_st i SLEEPING s))
  | SSched => Some (goto i CDrop s)
  | SWoke => Some (goto i SRelP (set_ch i false s))
  | SRelP => Some (goto i SReacq (set_plk i None s))
  | SReacq => lock_lk i ATest s
  | _ => None
  end.

Definition act_scheduler (i : Z) (s : sys) : option sys :=
  match pc s i with
  | Zzz => lock_p i i CTest s
  | CTest => Some (match st s i with
                   | RUNNABLE => goto i SWoke (set_st i RUNNING s)
                   | _ => goto i CDrop s
                   end)
  | CDrop => Some (goto i Zzz (set_plk i None s))
  | _ => None
  end.

Definition act_wakeup (i : Z) (s : sys) : option sys :=
  match pc s i with
  | RWake k =>
      if k <? NPROC then
        if k =? i then Some (goto i (RWake (k + 1)) s) else lock_p i k (RTest k) s
      else Some (goto i RRel s)
  | RTest k => Some (goto i (RDrop k)
                 (match st s k, ch s k with
                  | SLEEPING, true => set_st k RUNNABLE s
                  | _, _ => s
                  end))
  | RDrop k => Some (goto i (RWake (k + 1)) (set_plk k None s))
  | _ => None
  end.

Definition act_releasesleep (i : Z) (s : sys) : option sys :=
  match pc s i with
  | Crit => Some (goto i RAcq s)
  | RAcq => lock_lk i RSet s
  | RSet => Some (goto i RPid (set_locked false s))
  | RPid => Some (goto i (RWake 0) (set_owner None s))
  | RRel => Some (goto i Idle (set_lkh None s))
  | _ => None
  end.

(** [kill] at the slot it looks for; the slots it passes it only locks and
    unlocks. *)
Definition act_kill (i : Z) (s : sys) : option sys :=
  match pc s i with
  | KAcq k => lock_p i k (KTest k) s
  | KTest k => Some (goto i (KDrop k)
                 (match st s k with SLEEPING => set_st k RUNNABLE s | _ => s end))
  | KDrop k => Some (goto i Idle (set_plk k None s))
  | _ => None
  end.

(** The next action of process [i], if it has one and is not spinning. *)
Definition act (i : Z) (s : sys) : option sys :=
  match pc s i with
  | Idle => None
  | AAcq | ATest | ASet | APid | ARel => act_acquiresleep i s
  | SAcq | SRel | SChan | SState | SSched | SWoke | SRelP | SReacq => act_sleep i s
  | Zzz | CTest | CDrop => act_scheduler i s
  | RWake _ | RTest _ | RDrop _ => act_wakeup i s
  | Crit | RAcq | RSet | RPid | RRel => act_releasesleep i s
  | KAcq _ | KTest _ | KDrop _ => act_kill i s
  end.

Inductive step : sys → sys → Prop :=
| step_act i s s' : inproc i → act i s = Some s' → step s s'
| step_acquiresleep i s : inproc i → pc s i = Idle → step s (goto i AAcq s)
| step_kill i k s : inproc i → inproc k → pc s i = Idle → step s (goto i (KAcq k) s).

(** Every process running, the lock free. *)
Definition sys0 : sys :=
  Sys None false None (λ _, None) (λ _, RUNNING) (λ _, false) (λ _, Idle).

Definition reachable (s : sys) : Prop := rtc step sys0 s.

(** ** What a process holds *)

Definition in_lk (p : point) : bool :=
  match p with
  | ATest | ASet | APid | ARel | SAcq | SRel
  | RSet | RPid | RWake _ | RTest _ | RDrop _ | RRel => true
  | _ => false
  end.

(** Process [i] at [p] is inside the [p->lock] of slot [k]. *)
Definition in_p (p : point) (i k : Z) : bool :=
  match p with
  | SRel | SChan | SState | SSched | SWoke | SRelP | CTest | CDrop => k =? i
  | RTest k' | RDrop k' | KTest k' | KDrop k' => k =? k'
  | _ => false
  end.

(** It has the sleep lock. *)
Definition has (p : point) : bool :=
  match p with APid | ARel | Crit | RAcq | RSet => true | _ => false end.

Definition owns_pid (p : point) : bool :=
  match p with ARel | Crit | RAcq | RSet | RPid => true | _ => false end.

(** It is off the CPU, or was when the scheduler took its slot. *)
Definition off (p : point) : bool :=
  match p with SSched | Zzz | CTest | CDrop => true | _ => false end.

(** [p->chan] is set. *)
Definition chan_set (p : point) : bool :=
  match p with SState | SWoke => true | _ => off p end.

(** It found the lock taken and will sleep, or sleeps. *)
Definition committed (p : point) : bool :=
  match p with SRel | SChan | SState => true | _ => off p end.

(** A waker at [p] still has slot [i] to look at. *)
Definition will_wake (p : point) (i : Z) : bool :=
  match p with
  | RPid => true
  | RWake k | RTest k => k <=? i
  | RDrop k => k <? i
  | _ => false
  end.

(** The slots that appear in a program point are slots of the table. *)
Definition point_ok (i : Z) (p : point) : Prop :=
  match p with
  | RWake k => 0 <= k
  | RTest k | RDrop k => inproc k ∧ k ≠ i
  | KAcq k | KTest k | KDrop k => inproc k
  | _ => True
  end.

(** *** The invariant, in parts *)

Section parts.
Context (s : sys).

(** The spin locks are held by the processes whose program point says so. *)
Definition lk_ok : Prop :=
  (∀ i, inproc i → lkh s = Some i ↔ in_lk (pc s i) = true) ∧
  (∀ i, lkh s = Some i → inproc i).

Definition p_ok : Prop :=
  (∀ i k, inproc i → plk s k = Some i ↔ in_p (pc s i) i k = true) ∧
  (∀ i k, plk s k = Some i → inproc i).

(** [p->state] and [p->chan] follow the program point. *)
Definition slot_ok (i : Z) : Prop :=
  (off (pc s i) = false → st s i = RUNNING) ∧
  (off (pc s i) = true → st s i = SLEEPING ∨ st s i = RUNNABLE) ∧
  (pc s i = SSched → st s i = SLEEPING) ∧
  ch s i = chan_set (pc s i).

Definition slots_ok : Prop := ∀ i, inproc i → slot_ok i.

(** [lk->locked] is set exactly when a process has the lock, and one has it
    at most. *)
Record lock_ok : Prop := LockOk {
  has_locked : ∀ i, inproc i → has (pc s i) = true → locked s = true;
  has_unique : ∀ i j, inproc i → inproc j →
                 has (pc s i) = true → has (pc s j) = true → i = j;
  has_holder : locked s = true → ∃ i, inproc i ∧ has (pc s i) = true;
  has_pid : ∀ i, inproc i → owner s = Some i ↔ owns_pid (pc s i) = true;
  saw_free : ∀ i, inproc i → pc s i = ASet → locked s = false;
  saw_taken : ∀ i, inproc i → pc s i = SAcq ∨ pc s i = SRel → locked s = true }.

(** A process that will sleep, or sleeps and is not yet RUNNABLE, has a
    waker: the lock is taken, or a waker has not passed its slot. *)
Definition wake_ok : Prop :=
  ∀ i, inproc i → committed (pc s i) = true → st s i ≠ RUNNABLE →
    locked s = true ∨ ∃ j, inproc j ∧ will_wake (pc s j) i = true.

Definition points_ok : Prop := ∀ i, inproc i → point_ok i (pc s i).

Record inv : Prop := Inv {
  inv_points : points_ok;
  inv_lk : lk_ok;
  inv_p : p_ok;
  inv_slots : slots_ok;
  inv_lock : lock_ok;
  inv_wake : wake_ok }.
End parts.

(** ** The invariant holds *)

Ltac slot_cases i :=
  repeat match goal with
  | H : context [<[i := ?x]> ?f ?j] |- _ =>
      destruct (decide (i = j)) as [<- | ?];
      [rewrite fn_lookup_insert in H | rewrite fn_lookup_insert_ne in H by done]
  | |- context [<[i := ?x]> ?f ?j] =>
      destruct (decide (i = j)) as [<- | ?];
      [rewrite fn_lookup_insert | rewrite fn_lookup_insert_ne by done]
  end.

Section moves.
Context (s s' : sys) (i : Z) (p : point).
Hypothesis Hi : inproc i.
Hypothesis Hpc : pc s' = <[i := p]> (pc s).

Lemma points_move : points_ok s → point_ok i p → points_ok s'.
Proof using Hpc. intros H Hp j Hj. rewrite Hpc. slot_cases i; auto. Qed.

Lemma lk_same :
  lk_ok s → lkh s' = lkh s → in_lk p = in_lk (pc s i) → lk_ok s'.
Proof using Hpc.
  intros [H1 H2] Hl Hp. split; intros j Hj; rewrite ?Hl in *; [| auto].
  rewrite Hpc. slot_cases i; [rewrite Hp |]; auto.
Qed.

Lemma lk_take :
  lk_ok s → lkh s = None → lkh s' = Some i → in_lk p = true → lk_ok s'.
Proof using Hi Hpc.
  intros [H1 H2] Hn Hl Hp. split; intros j Hj; rewrite ?Hl in *; [| congruence].
  rewrite Hpc. slot_cases i; [naive_solver |]. rewrite <-H1, Hn by done. naive_solver.
Qed.

Lemma lk_drop :
  lk_ok s → in_lk (pc s i) = true → lkh s' = None → in_lk p = false → lk_ok s'.
Proof using Hi Hpc.
  intros [H1 H2] Hn Hl Hp. split; intros j Hj; rewrite ?Hl in *; [| done].
  rewrite Hpc. slot_cases i; [rewrite Hp; done |]. apply H1 in Hn; [| done].
  rewrite <-H1, Hn by done. naive_solver.
Qed.

Lemma p_same :
  p_ok s → plk s' = plk s → (∀ k, in_p p i k = in_p (pc s i) i k) → p_ok s'.
Proof using Hpc.
  intros [H1 H2] Hl Hp. split; intros j k Hj; rewrite ?Hl in *; [| eauto].
  rewrite Hpc. slot_cases i; [rewrite Hp |]; auto.
Qed.

Lemma p_take k :
  p_ok s → plk s k = None → plk s' = <[k := Some i]> (plk s) →
  (∀ k', in_p (pc s i) i k' = false) → (∀ k', in_p p i k' = (k' =? k)) → p_ok s'.
Proof using Hi Hpc.
  intros [H1 H2] Hn Hl Hout Hp. split; intros j k' Hj; rewrite Hl in *.
  - rewrite Hpc. destruct (decide (k = k')) as [<- | Hk].
    + rewrite fn_lookup_insert. slot_cases i; [rewrite Hp, Z.eqb_refl; done |].
      rewrite <-H1, Hn by done. naive_solver.
    + rewrite fn_lookup_insert_ne by done. slot_cases i; [| auto].
      rewrite Hp, H1, Hout by done. split; [done |]. intros ?%Z.eqb_eq. done.
  - slot_cases k; [congruence | eauto].
Qed.

Lemma p_drop k :
  p_ok s → plk s' = <[k := None]> (plk s) →
  (∀ k', in_p (pc s i) i k' = (k' =? k)) → (∀ k', in_p p i k' = false) → p_ok s'.
Proof using Hi Hpc.
  intros [H1 H2] Hl Hin Hp. split; intros j k' Hj; rewrite Hl in *.
  - rewrite Hpc. destruct (decide (k = k')) as [<- | Hk].
    + rewrite fn_lookup_insert. slot_cases i; [rewrite Hp; done |].
      assert (plk s k = Some i) as E by (by apply H1; rewrite ?Hin, ?Z.eqb_refl).
      rewrite <-H1, E by done. naive_solver.
    + rewrite fn_lookup_insert_ne by done. slot_cases i; [| auto].
      rewrite Hp, H1, Hin by done. split; [| done]. intros ?%Z.eqb_eq. done.
  - slot_cases k; [done | eauto].
Qed.

(** The process changes its own slot, or nothing. *)
Lemma slots_own :
  slots_ok s → (∀ j, j ≠ i → st s' j = st s j ∧ ch s' j = ch s j) →
  slot_ok s' i → slots_ok s'.
Proof using Hpc.
  intros H Hj Hs j Hj'. destruct (decide (j = i)) as [-> | Hn]; [done |].
  destruct (Hj j Hn) as [E1 E2]. specialize (H j Hj'). unfold slot_ok in *.
  by rewrite Hpc, E1, E2, fn_lookup_insert_ne by done.
Qed.

(** It makes slot [k], whose lock it holds, RUNNABLE. *)
Lemma slots_wake k :
  slots_ok s → p_ok s → inproc k → plk s k = Some i → st s k = SLEEPING →
  off p = false → chan_set p = false → chan_set (pc s i) = false → off (pc s i) = false →
  st s' = <[k := RUNNABLE]> (st s) → ch s' = ch s → slots_ok s'.
Proof using Hi Hpc.
  intros H [Hp _] Hk Hl Hs Ho Hc Hc0 Ho0 Hst Hch j Hj.
  pose proof (H i Hi) as (Hi1 & _ & _ & Hi4).
  assert (k ≠ i) as Hki. { intros ->. specialize (Hi1 Ho0). congruence. }
  specialize (H j Hj). unfold slot_ok in *. rewrite Hpc, Hst, Hch.
  slot_cases i.
  - rewrite fn_lookup_insert_ne by done. rewrite Ho, Hc. split_and!; try congruence; auto.
    intros ->. done.
  - slot_cases k; [| done]. destruct H as (H1 & H2 & H3 & H4).
    destruct (off (pc s k)) eqn:E; [| specialize (H1 eq_refl); congruence].
    split_and!; auto; try done. intros E3.
    assert (plk s k = Some k) by (apply Hp; [done |]; rewrite E3; apply Z.eqb_refl).
    congruence.
Qed.

Lemma lock_same :
  lock_ok s → locked s' = locked s → owner s' = owner s →
  has p = has (pc s i) → owns_pid p = owns_pid (pc s i) →
  (p = ASet → locked s = false) → (p = SAcq ∨ p = SRel → locked s = true) → lock_ok s'.
Proof using Hpc.
  intros [H1 H2 H3 H4 H5 H6] El Eo Eh Ep Ha Hs.
  assert (∀ j, has (pc s' j) = has (pc s j)) as Hh.
  { intros j. rewrite Hpc. slot_cases i; done. }
  split; rewrite ?El, ?Eo.
  - intros j. rewrite Hh. apply H1.
  - intros j k. rewrite !Hh. apply H2.
  - intros H. destruct (H3 H) as (j & ? & ?). exists j. by rewrite Hh.
  - intros j Hj. rewrite Hpc. slot_cases i; [rewrite Ep |]; auto.
  - intros j Hj. rewrite Hpc. slot_cases i; eauto.
  - intros j Hj. rewrite Hpc. slot_cases i; eauto.
Qed.

(** Only [lk->locked] and who has the lock change: [ASet] to [APid]. *)
Lemma lock_set :
  lock_ok s → locked s = false → locked s' = true → owner s' = owner s →
  has p = true → owns_pid p = owns_pid (pc s i) → p ≠ ASet →
  (∀ j, inproc j → j ≠ i → pc s j ≠ ASet) → lock_ok s'.
Proof using Hi Hpc.
  intros [H1 H2 H3 H4 H5 H6] Ef El Eo Eh Ep Ha Hn.
  assert (∀ j, inproc j → has (pc s' j) = true → j = i) as Hh.
  { intros j Hj. rewrite Hpc. slot_cases i; [done |].
    intros H. specialize (H1 j Hj H). congruence. }
  split; rewrite ?Eo, ?El; auto.
  - intros j k Hj Hk H H'. rewrite (Hh j), (Hh k); auto.
  - intros _. exists i. by rewrite Hpc, fn_lookup_insert.
  - intros j Hj. rewrite Hpc. slot_cases i; [rewrite Ep |]; auto.
  - intros j Hj. rewrite Hpc. slot_cases i; [done |]. intros ?. by destruct (Hn j).
Qed.

(** [RSet] to [RPid]. *)
Lemma lock_clear :
  lock_ok s → has (pc s i) = true → locked s' = false → owner s' = owner s →
  has p = false → owns_pid p = owns_pid (pc s i) → p ≠ SAcq → p ≠ SRel →
  (∀ j, inproc j → j ≠ i → pc s j ≠ SAcq ∧ pc s j ≠ SRel) → lock_ok s'.
Proof using Hi Hpc.
  intros [H1 H2 H3 H4 H5 H6] Hhi El Eo Eh Ep Ha Hr Hn.
  assert (∀ j, inproc j → has (pc s' j) = false) as Hh.
  { intros j Hj. rewrite Hpc. slot_cases i; [done |].
    destruct (has (pc s j)) eqn:E; [| done]. by rewrite (H2 i j) in *. }
  split; rewrite ?Eo, ?El; try done.
  - intros j Hj. rewrite Hh by done. done.
  - intros j k Hj. rewrite Hh by done. done.
  - intros j Hj. rewrite Hpc. slot_cases i; [rewrite Ep |]; auto.
  - intros j Hj. rewrite Hpc. slot_cases i; [naive_solver |].
    destruct (Hn j); naive_solver.
Qed.

(** The owner's pid is written: [APid] to [ARel], [RPid] to [RWake]. *)
Lemma lock_pid :
  lock_ok s → locked s' = locked s → has p = has (pc s i) →
  owner s' = (if owns_pid p then Some i else None) →
  p ≠ ASet → p ≠ SAcq → p ≠ SRel →
  (∀ j, inproc j → j ≠ i → owns_pid (pc s j) = false) → lock_ok s'.
Proof using Hi Hpc.
  intros [H1 H2 H3 H4 H5 H6] El Eh Eo Ha Hs Hr Hn.
  assert (∀ j, has (pc s' j) = has (pc s j)) as Hh.
  { intros j. rewrite Hpc. slot_cases i; done. }
  split; rewrite ?El.
  - intros j. rewrite Hh. apply H1.
  - intros j k. rewrite !Hh. apply H2.
  - intros H. destruct (H3 H) as (j & ? & ?). exists j. by rewrite Hh.
  - intros j Hj. rewrite Hpc, Eo. slot_cases i; [by destruct (owns_pid p) |].
    rewrite Hn by done. destruct (owns_pid p); naive_solver.
  - intros j Hj. rewrite Hpc. slot_cases i; eauto. done.
  - intros j Hj. rewrite Hpc. slot_cases i; eauto. naive_solver.
Qed.

Lemma wake_move :
  wake_ok s → locked s' = locked s →
  (∀ j, inproc j → j ≠ i → committed (pc s j) = true → st s' j ≠ RUNNABLE →
     st s j ≠ RUNNABLE ∧ (will_wake (pc s i) j = true → will_wake p j = true)) →
  (committed p = true → st s' i ≠ RUNNABLE →
     locked s = true ∨ committed (pc s i) = true ∧ st s i ≠ RUNNABLE) →
  wake_ok s'.
Proof using Hi Hpc.
  intros H El Hj Hp j Hjn. rewrite Hpc, El. slot_cases i; intros Hc Hr.
  - destruct (Hp Hc Hr) as [? | [Hc' Hr']]; [by left |].
    destruct (H i Hi Hc' Hr') as [? | (k & Hk & Hw)]; [by left |].
    right. exists k. split; [done |].
    rewrite fn_lookup_insert_ne; [done |]. intros <-. by destruct (pc s i).
  - destruct (Hj j) as [Hr' Hw]; [done.. |].
    destruct (H j Hjn Hc Hr') as [? | (k & Hk & Hw')]; [by left |].
    right. exists k. split; [done |]. slot_cases i; auto.
Qed.

(** The lock was freed and the waker has not started. *)
Lemma wake_clear : p = RPid → wake_ok s'.
Proof using Hi Hpc.
  intros Hp j Hj _ _. right. exists i. rewrite Hpc, fn_lookup_insert, Hp. done.
Qed.
End moves.

(** Two processes are not both inside a spin lock. *)
Lemma lk_excl s i j :
  lk_ok s → inproc i → inproc j → in_lk (pc s i) = true → in_lk (pc s j) = true → i = j.
Proof. intros [H _] Hi Hj Ei%H Ej%H; congruence. Qed.

Lemma p_excl s i j k :
  p_ok s → inproc i → inproc j → in_p (pc s i) i k = true → in_p (pc s j) j k = true → i = j.
Proof. intros [H _] Hi Hj Ei%H Ej%H; congruence. Qed.

Lemma slots_none s s' i p :
  inproc i → pc s' = <[i := p]> (pc s) → slots_ok s → st s' = st s → ch s' = ch s →
  off p = off (pc s i) → chan_set p = chan_set (pc s i) → p ≠ SSched → slots_ok s'.
Proof.
  intros Hi Hpc H Es Ec Eo Ech Hn. eapply slots_own; [done.. | |].
  - intros. by rewrite Es, Ec.
  - specialize (H i Hi). unfold slot_ok in *.
    rewrite Hpc, fn_lookup_insert, Es, Ec, Eo, Ech. naive_solver.
Qed.

Lemma wake_none s s' i p :
  inproc i → pc s' = <[i := p]> (pc s) → wake_ok s → locked s' = locked s → st s' = st s →
  (∀ j, j ≠ i → will_wake (pc s i) j = true → will_wake p j = true) →
  (committed p = true → committed (pc s i) = true) → wake_ok s'.
Proof.
  intros Hi Hpc H El Es Hw Hc. eapply wake_move; [done.. | |].
  - intros. rewrite Es in *. auto.
  - rewrite Es. auto.
Qed.

(** Each part of the invariant after an action that leaves it alone, or
    takes or drops a spin lock. *)
Ltac part E :=
  match type of E with pc ?s ?i = _ => first
    [ eapply (points_move s _ i); [reflexivity | done | done]
    | eapply (lk_same s _ i); [reflexivity | done | done | by rewrite E]
    | eapply (lk_take s _ i); [done | reflexivity | ..]; done
    | eapply (lk_drop s _ i); [done | reflexivity | done | by rewrite E | ..]; done
    | eapply (p_same s _ i); [reflexivity | done | done | by rewrite E]
    | eapply (p_take s _ i); [done | reflexivity | done | | reflexivity | by rewrite E | done]; done
    | eapply (p_drop s _ i); [done | reflexivity | done | reflexivity | by rewrite E | done]; done
    | eapply (slots_none s _ i);
        [done | reflexivity | done | done | done | by rewrite E | by rewrite E | done]
    | eapply (lock_same s _ i);
        [reflexivity | done | done | done | by rewrite E | by rewrite E | done | naive_solver]
    | eapply (wake_none s _ i);
        [done | reflexivity | done | done | done | by rewrite E | by rewrite E] ]
  end.

Lemma acquiresleep_inv i s s' : inv s → inproc i → act_acquiresleep i s = Some s' → inv s'.
Proof.
  intros [Hpt Hlk Hp Hs Hl Hw] Hi. unfold act_acquiresleep, lock_lk.
  destruct (pc s i) eqn:E; try done.
  - destruct (lkh s) eqn:El; [done |]. intros [= <-]. split; part E.
  - destruct (locked s) eqn:El; intros [= <-]; split; part E.
  - intros [= <-]. split; try part E.
    + eapply (lock_set s _ i); try reflexivity; try done.
      * by apply (saw_free s Hl i).
      * by rewrite E.
      * intros j Hj Hn Ej. apply Hn. apply (lk_excl s); rewrite ?E, ?Ej; done.
    + intros j _ _ _. by left.
  - intros [= <-]. split; try part E.
    eapply (lock_pid s _ i); try reflexivity; try done; [by rewrite E |].
    intros j Hj Hn. apply not_true_is_false. intros Ho.
    destruct (decide (pc s j = RPid)) as [Er |].
    + apply Hn. apply (lk_excl s); rewrite ?E, ?Er; done.
    + apply Hn. apply (has_unique s Hl); rewrite ?E; try done. by destruct (pc s j).
  - intros [= <-]. split; part E.
Qed.

Lemma sleep_inv i s s' : inv s → inproc i → act_sleep i s = Some s' → inv s'.
Proof.
  intros [Hpt Hlk Hp Hs Hl Hw] Hi. unfold act_sleep, lock_lk, lock_p.
  pose proof (Hs i Hi) as Hsi. unfold slot_ok in Hsi.
  destruct (pc s i) eqn:E; try done.
  - destruct (plk s i) eqn:El; [done |]. intros [= <-].
    assert (locked s = true) as Ht by (apply (saw_taken s Hl i); auto).
    split; try part E. eapply (wake_move s _ i); try reflexivity; try done; [| auto].
    rewrite E. done.
  - intros [= <-]. split; part E.
  - intros [= <-]. split; try part E.
    eapply (slots_own s _ i); [reflexivity | done | |].
    + intros j Hj. simpl. slot_cases i; done.
    + unfold slot_ok. simpl. rewrite !fn_lookup_insert. naive_solver.
  - intros [= <-]. split; try part E.
    + eapply (slots_own s _ i); [reflexivity | done | |].
      * intros j Hj. simpl. slot_cases i; done.
      * unfold slot_ok. simpl. rewrite !fn_lookup_insert. naive_solver.
    + eapply (wake_move s _ i); try reflexivity; try done; rewrite E.
      * intros j Hj Hn. simpl. rewrite fn_lookup_insert_ne by done. auto.
      * right. split; [done |]. destruct Hsi as (-> & _); done.
  - intros [= <-]. split; part E.
  - intros [= <-]. split; try part E.
    eapply (slots_own s _ i); [reflexivity | done | |].
    + intros j Hj. simpl. slot_cases i; done.
    + unfold slot_ok. simpl. rewrite !fn_lookup_insert. naive_solver.
  - intros [= <-]. split; part E.
  - destruct (lkh s) eqn:El; [done |]. intros [= <-]. split; part E.
Qed.

Lemma scheduler_inv i s s' : inv s → inproc i → act_scheduler i s = Some s' → inv s'.
Proof.
  intros [Hpt Hlk Hp Hs Hl Hw] Hi. unfold act_scheduler, lock_p.
  destruct (pc s i) eqn:E; try done.
  - destruct (plk s i) eqn:El; [done |]. intros [= <-]. split; part E.
  - intros [= <-]. destruct (st s i) eqn:Es; split; try part E.
    + pose proof (Hs i Hi) as Hsi. unfold slot_ok in Hsi. rewrite E in Hsi.
      eapply (slots_own s _ i); [reflexivity | done | |].
      * intros j Hj. simpl. slot_cases i; done.
      * unfold slot_ok. simpl. rewrite !fn_lookup_insert. naive_solver.
    + eapply (wake_move s _ i); try reflexivity; try done.
      intros j Hj Hn. simpl. rewrite fn_lookup_insert_ne, E by done. auto.
  - intros [= <-]. split; part E.
Qed.

Lemma releasesleep_inv i s s' : inv s → inproc i → act_releasesleep i s = Some s' → inv s'.
Proof.
  intros [Hpt Hlk Hp Hs Hl Hw] Hi. unfold act_releasesleep, lock_lk.
  destruct (pc s i) eqn:E; try done.
  - intros [= <-]. split; part E.
  - destruct (lkh s) eqn:El; [done |]. intros [= <-]. split; part E.
  - intros [= <-]. split; try part E.
    + eapply (lock_clear s _ i); try reflexivity; try done; try (by rewrite E).
      intros j Hj Hn. split; intros Ej; apply Hn; apply (lk_excl s); rewrite ?E, ?Ej; done.
    + by eapply (wake_clear s _ i).
  - intros [= <-]. split; try part E.
    + eapply (lock_pid s _ i); try reflexivity; try done; [by rewrite E |].
      intros j Hj Hn. apply not_true_is_false. intros Ho. apply Hn.
      assert (owner s = Some j) as E1 by by apply (has_pid s Hl).
      assert (owner s = Some i) as E2 by (apply (has_pid s Hl); rewrite ?E; done).
      congruence.
    + eapply (wake_move s _ i); try reflexivity; try done.
      intros j Hj Hn. simpl. split; [done |]. intros _. apply Z.leb_le, Hj.
  - intros [= <-]. split; part E.
Qed.

(** Slot [k] is made RUNNABLE: it needs no waker any more. *)
Lemma wake_rouse s s' i k p :
  inproc i → pc s' = <[i := p]> (pc s) → wake_ok s → locked s' = locked s →
  st s' = <[k := RUNNABLE]> (st s) → committed p = false →
  (∀ j, j ≠ k → will_wake (pc s i) j = true → will_wake p j = true) → wake_ok s'.
Proof.
  intros Hi Hpc H El Es Hc Hw. eapply wake_move; [done.. | | by rewrite Hc].
  intros j Hj Hn Hcj. rewrite Es. slot_cases k; [done | auto].
Qed.

Lemma holds_slot s i k : inv s → inproc i → in_p (pc s i) i k = true → plk s k = Some i.
Proof. intros H Hi. apply (inv_p s H). done. Qed.

Lemma kill_inv i s s' : inv s → inproc i → act_kill i s = Some s' → inv s'.
Proof.
  intros H Hi. pose proof H as [Hpt Hlk Hp Hs Hl Hw]. unfold act_kill, lock_p.
  pose proof (Hpt i Hi) as Hk. pose proof (holds_slot s i) as Hh.
  destruct (pc s i) eqn:E; try done; simpl in Hk.
  - destruct (plk s k) eqn:El; [done |]. intros [= <-]. split; part E.
  - intros [= <-]. destruct (st s k) eqn:Es; split; try part E.
    + eapply (slots_wake s _ i); try reflexivity; try done; try by rewrite E.
      apply Hh; [done | done | apply Z.eqb_refl].
    + eapply (wake_rouse s _ i); try reflexivity; try done. by rewrite E.
  - intros [= <-]. split; part E.
Qed.

(** A slot whose lock a waker holds is that of a process off the CPU, or of
    one that has not gone to sleep. *)
Lemma locked_slot s i k :
  inv s → inproc i → inproc k → k ≠ i → plk s k = Some i → committed (pc s k) = true →
  pc s k = Zzz.
Proof.
  intros [_ _ [Hp _] _ _ _] Hi Hk Hn Hl Hc.
  destruct (in_p (pc s k) k k) eqn:E; [apply Hp in E; [congruence | done] |].
  destruct (pc s k); simpl in *; try done; by rewrite Z.eqb_refl in E.
Qed.

(** A waker passes slot [k]: the process there does not wait any more. *)
Lemma wakeup_passes s s' i k :
  inv s → inproc i → inproc k → k ≠ i → pc s i = RTest k → pc s' = <[i := RDrop k]> (pc s) →
  locked s' = locked s → st s' = st s → st s k ≠ SLEEPING ∨ ch s k = false → wake_ok s'.
Proof.
  intros H Hi Hk Hki E Hpc El Es Hn.
  assert (plk s k = Some i) as Hpk.
  { apply holds_slot; [done.. |]. rewrite E. apply Z.eqb_refl. }
  eapply (wake_move s _ i); [done | done | apply H | done | | done].
  intros j Hj Hji Hc. rewrite Es. intros Hr. split; [done |]. rewrite E. simpl.
  intros Hkj%Z.leb_le. apply Z.ltb_lt. destruct (decide (k = j)) as [<- | ?]; [| lia].
  pose proof (locked_slot s i k H Hi Hk Hki Hpk Hc) as Ez.
  destruct (inv_slots s H k Hk) as (_ & H2 & _ & H4). rewrite Ez in *.
  destruct Hn as [Hn | Hn]; [| by rewrite H4 in Hn]. by destruct H2.
Qed.

Lemma wakeup_inv i s s' : inv s → inproc i → act_wakeup i s = Some s' → inv s'.
Proof.
  intros H Hi. pose proof H as [Hpt Hlk Hp Hs Hl Hw]. unfold act_wakeup, lock_p.
  pose proof (Hpt i Hi) as Hk. pose proof (holds_slot s i) as Hh.
  destruct (pc s i) eqn:E; try done; simpl in Hk.
  - destruct (Z.ltb_spec k NPROC).
    + destruct (Z.eqb_spec k i) as [-> | Hki].
      * intros [= <-]. split; try part E.
        -- eapply (points_move s _ i); [reflexivity | done | simpl; lia].
        -- eapply (wake_none s _ i); try reflexivity; try done.
           rewrite E. simpl. intros j ?. rewrite !Z.leb_le. lia.
      * destruct (plk s k) eqn:El; [done |]. intros [= <-]. split; part E.
    + intros [= <-]. split; try part E.
      eapply (wake_move s _ i); try reflexivity; try done.
      intros j [? ?] _ _ ?. split; [done |]. rewrite E. simpl. rewrite Z.leb_le. lia.
  - intros [= <-]. destruct Hk as [Hk Hki].
    destruct (st s k) eqn:Es; [| | destruct (ch s k) eqn:Ec | | |]; split; try part E;
      try (eapply (wakeup_passes s _ i k); try reflexivity; try done; rewrite Es; auto; fail).
    + eapply (slots_wake s _ i); try reflexivity; try done; try by rewrite E.
      apply Hh; [done | done | apply Z.eqb_refl].
    + eapply (wake_rouse s _ i); try reflexivity; try done.
      rewrite E. simpl. intros j ?. rewrite Z.leb_le, Z.ltb_lt. lia.
  - intros [= <-]. split; try part E.
    + eapply (points_move s _ i); [reflexivity | done | simpl]. destruct Hk as [[? ?] ?]. lia.
    + eapply (wake_none s _ i); try reflexivity; try done.
      rewrite E. simpl. intros j ?. rewrite Z.leb_le, Z.ltb_lt. lia.
Qed.

Lemma act_inv i s s' : inv s → inproc i → act i s = Some s' → inv s'.
Proof.
  unfold act. intros H Hi. destruct (pc s i); try done;
    eauto using acquiresleep_inv, sleep_inv, scheduler_inv, wakeup_inv, releasesleep_inv,
      kill_inv.
Qed.

Lemma call_inv i p s :
  inv s → inproc i → pc s i = Idle → (p = AAcq ∨ ∃ k, inproc k ∧ p = KAcq k) →
  inv (goto i p s).
Proof.
  intros [Hpt Hlk Hp Hs Hl Hw] Hi E Hc.
  assert (point_ok i p) by (destruct Hc as [-> | (? & ? & ->)]; done).
  split; try part E; destruct Hc as [-> | (? & ? & ->)]; part E.
Qed.

Lemma sys0_inv : inv sys0.
Proof.
  split; [done | | | | |]; try done; split; naive_solver.
Qed.

Lemma protocol_inv s : reachable s → inv s.
Proof.
  revert s. apply (rtc_ind_r (λ s, inv s)); [apply sys0_inv |].
  intros s s' _ Hst IH. destruct Hst; eauto 6 using act_inv, call_inv.
Qed.

(** ** Completion *)

(** The actions a process still has to take, along the longest way that
    meets no taken lock: the scheduler can drive the sum down to zero. *)
Definition rank (l : bool) (v : procstate) (p : point) : nat :=
  match p with
  | Idle => 0
  | RRel | KDrop _ => 1
  | KTest _ => 2
  | KAcq _ => 3
  | RWake k => Z.to_nat (3 * (NPROC - k)) + 4
  | RTest k => Z.to_nat (3 * (NPROC - k)) + 3
  | RDrop k => Z.to_nat (3 * (NPROC - k)) + 2
  | RPid => 200 | RSet => 201 | RAcq => 202 | Crit => 203
  | ARel => 204 | APid => 205 | ASet => 206
  | ATest => if l then 222 else 207
  | AAcq | SReacq => 208
  | SRelP => 209 | SWoke => 210
  | CTest => match v with RUNNABLE => 211 | _ => 216 end
  | Zzz => match v with RUNNABLE => 212 | _ => 214 end
  | CDrop => match v with RUNNABLE => 213 | _ => 215 end
  | SSched => 217 | SState => 218 | SChan => 219 | SRel => 220 | SAcq => 221
  end%nat.

Definition rank_at (s : sys) (i : Z) : nat := rank (locked s) (st s i) (pc s i).

Definition total (s : sys) : nat := sum_list_with (rank_at s) (seqZ 0 NPROC).

Lemma sum_le {A} (f g : A → nat) l :
  (∀ x, x ∈ l → (f x <= g x)%nat) → (sum_list_with f l <= sum_list_with g l)%nat.
Proof.
  induction l as [| a l IH]; simpl; intros H; [done |].
  assert (f a <= g a)%nat by (apply H; left).
  assert (sum_list_with f l <= sum_list_with g l)%nat by (apply IH; intros; apply H; by right).
  lia.
Qed.

Lemma sum_lt {A} (f g : A → nat) l a :
  a ∈ l → (f a < g a)%nat → (∀ x, x ∈ l → (f x <= g x)%nat) →
  (sum_list_with f l < sum_list_with g l)%nat.
Proof.
  intros Ha Hlt H. apply list_elem_of_split in Ha as (l1 & l2 & ->).
  rewrite !sum_list_with_app. simpl.
  pose proof (sum_le f g l1). pose proof (sum_le f g l2).
  assert (∀ x, x ∈ l1 ∨ x ∈ l2 → (f x <= g x)%nat) as H' by (intros; apply H; set_solver).
  specialize (H0 (λ x Hx, H' x (or_introl Hx))). specialize (H1 (λ x Hx, H' x (or_intror Hx))).
  lia.
Qed.

Lemma total_lt s s' i :
  inproc i → (rank_at s' i < rank_at s i)%nat →
  (∀ j, inproc j → j ≠ i → (rank_at s' j <= rank_at s j)%nat) → (total s' < total s)%nat.
Proof.
  intros Hi Hlt H. apply (sum_lt _ _ _ i); [apply elem_of_seqZ; unfold inproc in Hi; lia | done |].
  intros j Hj%elem_of_seqZ. destruct (decide (j = i)) as [-> |]; [lia |].
  apply H; [unfold inproc; lia | done].
Qed.

(** An action that changes the state and the lock at most for the process
    itself. *)
Lemma total_own s i p s' :
  inproc i → pc s' = <[i := p]> (pc s) →
  (∀ j, inproc j → j ≠ i → st s' j = st s j ∧
        (locked s' = locked s ∨ locked s' = false ∨ pc s j ≠ ATest)) →
  (rank (locked s') (st s' i) p < rank_at s i)%nat → (total s' < total s)%nat.
Proof.
  intros Hi Hpc Hj Hlt. apply (total_lt _ _ i); [done | |].
  - unfold rank_at at 1. by rewrite Hpc, fn_lookup_insert.
  - intros j Hj' Hn. destruct (Hj j Hj' Hn) as [E1 E2].
    unfold rank_at. rewrite Hpc, fn_lookup_insert_ne, E1 by done.
    destruct E2 as [-> | [-> | E2]]; [lia | |]; destruct (pc s j); simpl; try lia.
    + destruct (locked s); lia.
    + done.
Qed.

(** An action that makes slot [k] RUNNABLE. *)
Lemma total_rouse s i k p s' :
  inproc i → k ≠ i → pc s' = <[i := p]> (pc s) → locked s' = locked s →
  st s' = <[k := RUNNABLE]> (st s) →
  (rank (locked s) (st s i) p < rank_at s i)%nat → (total s' < total s)%nat.
Proof.
  intros Hi Hk Hpc El Es Hlt. apply (total_lt _ _ i); [done | |]; unfold rank_at at 1.
  - by rewrite Hpc, El, Es, fn_lookup_insert, fn_lookup_insert_ne.
  - intros j Hj Hn. unfold rank_at. rewrite Hpc, El, Es, (fn_lookup_insert_ne (pc s)) by done.
    slot_cases k; [| lia]. destruct (pc s k), (st s k); simpl; lia.
Qed.

(** The actions that bring completion nearer: not an [acquire] of a taken
    sleep lock's spin lock, and not the scheduler's look at a sleeper. *)
Definition useful (s : sys) (i : Z) : Prop :=
  (pc s i = AAcq ∨ pc s i = SReacq → locked s = false) ∧
  (pc s i = Zzz → st s i = RUNNABLE).

Ltac own E :=
  match type of E with pc ?s ?i = _ =>
    intros [= <-]; eapply (total_own s i); [done | reflexivity | auto |];
    unfold rank_at; rewrite E; simpl; lia
  end.

Lemma acquiresleep_lt i s s' :
  inv s → inproc i → useful s i → act_acquiresleep i s = Some s' → (total s' < total s)%nat.
Proof.
  intros H Hi [Hu _]. unfold act_acquiresleep, lock_lk.
  destruct (pc s i) eqn:E; try done; try own E.
  - destruct (lkh s); [done |]. intros [= <-].
    eapply (total_own s i); [done | reflexivity | auto |].
    unfold rank_at. rewrite E. simpl. rewrite Hu by auto. lia.
  - intros [= <-]. eapply (total_own s i); [done | reflexivity | auto |].
    unfold rank_at. rewrite E. simpl. destruct (locked s); simpl; lia.
  - intros [= <-]. eapply (total_own s i); [done | reflexivity | |].
    + intros j Hj Hn. split; [done |]. right; right. intros Ej. apply Hn.
      apply (lk_excl s); rewrite ?E, ?Ej; try done. apply H.
    + unfold rank_at. rewrite E. simpl. lia.
Qed.

Lemma sleep_lt i s s' :
  inv s → inproc i → useful s i → act_sleep i s = Some s' → (total s' < total s)%nat.
Proof.
  intros H Hi [Hu _]. unfold act_sleep, lock_lk, lock_p.
  pose proof (inv_slots s H i Hi) as (_ & _ & Hs & _).
  destruct (pc s i) eqn:E; try done; try own E.
  - destruct (plk s i); [done | own E].
  - intros [= <-]. eapply (total_own s i); [done | reflexivity | |].
    + intros j Hj Hn. simpl. rewrite fn_lookup_insert_ne by done. auto.
    + unfold rank_at. rewrite E. simpl. lia.
  - intros [= <-]. eapply (total_own s i); [done | reflexivity | auto |].
    unfold rank_at. rewrite E. simpl. rewrite Hs by done. lia.
  - destruct (lkh s); [done |]. intros [= <-].
    eapply (total_own s i); [done | reflexivity | auto |].
    unfold rank_at. rewrite E. simpl. rewrite Hu by auto. lia.
Qed.

Lemma scheduler_lt i s s' :
  inv s → inproc i → useful s i → act_scheduler i s = Some s' → (total s' < total s)%nat.
Proof.
  intros H Hi [_ Hu]. unfold act_scheduler, lock_p.
  destruct (pc s i) eqn:E; try done.
  - destruct (plk s i); [done |]. intros [= <-].
    eapply (total_own s i); [done | reflexivity | auto |].
    unfold rank_at. rewrite E. simpl. rewrite Hu by auto. lia.
  - intros [= <-]. destruct (st s i) eqn:Es;
      (eapply (total_own s i); [done | reflexivity | intros j Hj Hn |]);
      simpl; rewrite ?fn_lookup_insert_ne by done; auto;
      unfold rank_at; rewrite E, Es; simpl; lia.
  - intros [= <-]. eapply (total_own s i); [done | reflexivity | auto |].
    unfold rank_at. rewrite E. simpl. destruct (st s i); lia.
Qed.

Lemma wakeup_lt i s s' :
  inv s → inproc i → act_wakeup i s = Some s' → (total s' < total s)%nat.
Proof.
  intros H Hi. unfold act_wakeup, lock_p. pose proof (inv_points s H i Hi) as Hk.
  destruct (pc s i) eqn:E; try done; simpl in Hk.
  - destruct (Z.ltb_spec k NPROC); [| own E].
    destruct (Z.eqb_spec k i) as [_ | Hki]; [own E |]. destruct (plk s k); [done | own E].
  - destruct Hk as [_ Hk]. destruct (st s k), (ch s k); try own E.
    intros [= <-]. eapply (total_rouse s i k); try reflexivity; try done.
    unfold rank_at. rewrite E. simpl. lia.
  - destruct Hk as [[? ?] _]. own E.
Qed.

Lemma releasesleep_lt i s s' :
  inv s → inproc i → act_releasesleep i s = Some s' → (total s' < total s)%nat.
Proof.
  intros H Hi. unfold act_releasesleep, lock_lk.
  destruct (pc s i) eqn:E; try done; try own E. destruct (lkh s); [done | own E].
Qed.

Lemma kill_lt i s s' :
  inv s → inproc i → act_kill i s = Some s' → (total s' < total s)%nat.
Proof.
  intros H Hi. unfold act_kill, lock_p.
  destruct (pc s i) eqn:E; try done; try own E.
  - destruct (plk s k); [done | own E].
  - destruct (st s k) eqn:Es; try own E. intros [= <-].
    eapply (total_rouse s i k); try reflexivity; try done.
    + intros ->. destruct (inv_slots s H i Hi) as (H1 & _). rewrite E, Es in H1.
      by specialize (H1 eq_refl).
    + unfold rank_at. rewrite E. simpl. lia.
Qed.

Lemma act_lt i s s' :
  inv s → inproc i → useful s i → act i s = Some s' → (total s' < total s)%nat.
Proof.
  unfold act. intros H Hi Hu. destruct (pc s i); try done;
    eauto using acquiresleep_lt, sleep_lt, scheduler_lt, wakeup_lt, releasesleep_lt, kill_lt.
Qed.

Definition can_help (s : sys) : Prop :=
  ∃ i s', inproc i ∧ useful s i ∧ act i s = Some s'.

Lemma p_holder s k i : p_ok s → plk s k = Some i → inproc i ∧ in_p (pc s i) i k = true.
Proof. intros [H1 H2] E. pose proof (H2 i k E). by rewrite <-H1. Qed.

Lemma lk_holder s i : lk_ok s → lkh s = Some i → inproc i ∧ in_lk (pc s i) = true.
Proof. intros [H1 H2] E. pose proof (H2 i E). by rewrite <-H1. Qed.

(** Nobody waits for another lock inside a [p->lock]. *)
Lemma p_holder_helps s k i : inv s → plk s k = Some i → can_help s.
Proof.
  intros H Hl. apply p_holder in Hl as [Hi Hl]; [| apply H].
  exists i. unfold act, act_sleep, act_scheduler, act_wakeup, act_kill, useful.
  destruct (pc s i) eqn:E; try done; eexists; split_and!; try done; naive_solver.
Qed.

(** Inside [lk->lk] only a [p->lock] is waited for. *)
Lemma lk_holder_helps s i : inv s → lkh s = Some i → can_help s.
Proof.
  intros H Hl. apply lk_holder in Hl as [Hi Hl]; [| apply H].
  destruct (act i s) as [s' |] eqn:Ea.
  - exists i, s'. unfold useful. destruct (pc s i); try done; split_and!; naive_solver.
  - revert Ea. unfold act, act_acquiresleep, act_sleep, act_wakeup, act_releasesleep, lock_p.
    destruct (pc s i) eqn:E; try done.
    + destruct (plk s i) eqn:Ep; [| done]. eauto using p_holder_helps.
    + destruct (k <? NPROC), (k =? i); try done.
      destruct (plk s k) eqn:Ep; [| done]. eauto using p_holder_helps.
Qed.

(** With [lk->lk] free, the holder of the sleep lock is on its way. *)
Lemma holder_helps s : inv s → lkh s = None → locked s = true → can_help s.
Proof.
  intros H El Ht. destruct (has_holder s (inv_lock s H) Ht) as (i & Hi & Hh).
  assert (in_lk (pc s i) ≠ true) as Hn by (rewrite <-(proj1 (inv_lk s H) i Hi); congruence).
  exists i. unfold act, act_releasesleep, lock_lk, useful. rewrite El.
  destruct (pc s i) eqn:E; try done; eexists; split_and!; try done; naive_solver.
Qed.

Lemma waker_inside p i : will_wake p i = true → in_lk p = true.
Proof. by destruct p. Qed.

Lemma somebody_helps s i : inv s → inproc i → pc s i ≠ Idle → can_help s.
Proof.
  intros H Hi Hn. destruct (lkh s) as [h |] eqn:El; [eauto using lk_holder_helps |].
  destruct (locked s) eqn:Et; [eauto using holder_helps |].
  assert (∀ j, inproc j → in_lk (pc s j) ≠ true) as Hout.
  { intros j Hj. rewrite <-(proj1 (inv_lk s H) j Hj). congruence. }
  pose proof (Hout i Hi) as Hout_i.
  destruct (in_p (pc s i) i i) eqn:Ep; [eauto using p_holder_helps, holds_slot |].
  destruct (act i s) as [s' |] eqn:Ea.
  - exists i, s'. split_and!; [done | | done]. split; [done |]. intros Ez.
    destruct (decide (st s i = RUNNABLE)) as [| Hr]; [done |].
    destruct (inv_wake s H i Hi) as [? | (j & Hj & Hw)]; [by rewrite Ez | done | congruence |].
    by destruct (Hout j Hj); apply waker_inside in Hw.
  - revert Ea. unfold act, act_acquiresleep, act_sleep, act_scheduler, act_wakeup,
      act_releasesleep, act_kill, lock_lk, lock_p. rewrite El.
    destruct (pc s i) eqn:E; try done; simpl in *.
    + destruct (plk s i) eqn:Eq; [| done]. eauto using p_holder_helps.
    + destruct (plk s k) eqn:Eq; [| done]. eauto using p_holder_helps.
Qed.

(** Steps of the calls under way. *)
Definition run (s s' : sys) : Prop := ∃ i, inproc i ∧ act i s = Some s'.

Lemma completes s :
  inv s → ∃ s', rtc run s s' ∧ inv s' ∧ ∀ i, inproc i → pc s' i = Idle.
Proof.
  remember (total s) as n eqn:En. revert s En.
  induction (lt_wf n) as [n _ IH]. intros s -> H.
  destruct (decide (Forall (λ i, pc s i = Idle) (seqZ 0 NPROC))) as [Hq | Hq].
  - exists s. split_and!; [done | done |]. intros i Hi.
    apply (proj1 (Forall_forall _ _) Hq), elem_of_seqZ. unfold inproc in Hi. lia.
  - apply not_Forall_Exists in Hq; [| apply _].
    apply Exists_exists in Hq as (i & Hi%elem_of_seqZ & Hn).
    destruct (somebody_helps s i H) as (j & s1 & Hj & Hu & Ha); [unfold inproc; lia | done |].
    destruct (IH (total s1) (act_lt j s s1 H Hj Hu Ha) s1 eq_refl (act_inv j s s1 H Hj Ha))
      as (s' & Hs & Hi' & Hq). exists s'. split_and!; [| done | done].
    eapply rtc_l; [| done]. by exists j.
Qed.

(** ** The properties *)

(** C8: A sleep lock excludes: however the processes interleave, and whoever
    is killed while asleep, two of them are never between [acquiresleep] and
    [releasesleep] at once; the one that is finds [lk->locked] set and its own
    pid in [lk->pid], which is what [holdingsleep] tests, and nobody else
    finds theirs there. *)
Theorem sleeplock_excludes s i :
  reachable s → inproc i → pc s i = Crit →
  locked s = true ∧ owner s = Some i ∧ ∀ j, inproc j → pc s j = Crit → j = i.
Proof.
  intros Hr Hi E. apply protocol_inv in Hr as [_ _ _ _ Hl _]. split_and!.
  - apply (has_locked s Hl i); by rewrite ?E.
  - apply (has_pid s Hl i); by rewrite ?E.
  - intros j Hj Ej. apply (has_unique s Hl); rewrite ?E, ?Ej; done.
Qed.

(** C6: No wakeup is lost.  A process that [sleep] has taken off the CPU and
    that is not RUNNABLE is SLEEPING on the lock's channel, and some other
    process either has the sleep lock, so that its [releasesleep] is still to
    come, or is inside [wakeup] and has not passed the sleeper's slot.  And
    when [sleep] calls [sched], the process holds its own [p->lock], no other
    and not [lk->lk], and its state is not RUNNING: what [sched] checks. *)
Theorem no_lost_wakeup s i :
  reachable s → inproc i →
  (off (pc s i) = true → st s i ≠ RUNNABLE →
     st s i = SLEEPING ∧ ch s i = true ∧
     ∃ j, inproc j ∧ j ≠ i ∧ (has (pc s j) = true ∨ will_wake (pc s j) i = true)) ∧
  (pc s i = SSched →
     plk s i = Some i ∧ lkh s ≠ Some i ∧ st s i = SLEEPING ∧
     ∀ k, plk s k = Some i → k = i).
Proof.
  intros Hr Hi. apply protocol_inv in Hr as [_ Hlk Hp Hs Hl Hw].
  destruct (Hs i Hi) as (_ & H2 & H3 & H4). split.
  - intros Ho Hn. assert (∀ p, has p = true ∨ will_wake p i = true → off p = false) as Hd.
    { intros []; naive_solver. }
    split_and!; [naive_solver | rewrite H4; by destruct (pc s i) |].
    assert (committed (pc s i) = true) as Hc by (by destruct (pc s i)).
    assert (∃ j, inproc j ∧ (has (pc s j) = true ∨ will_wake (pc s j) i = true)) as (j & Hj & Hjw).
    { destruct (Hw i Hi Hc Hn) as [Ht | (j & ? & ?)]; [| eauto].
      destruct (has_holder s Hl Ht) as (j & ? & ?). eauto. }
    exists j. split_and!; [done | | done]. intros ->. apply Hd in Hjw. congruence.
  - intros E. split_and!; [| | auto |].
    + apply Hp; [done |]. rewrite E. apply Z.eqb_refl.
    + intros [_ Hn]%lk_holder; [| done]. by rewrite E in Hn.
    + intros k [_ Hk]%p_holder; [| done]. rewrite E in Hk. by apply Z.eqb_eq.
Qed.

(** C7: The protocol neither deadlocks nor strands a sleeper: from every state
    it can reach, the calls under way can all be run to their end, without a
    new call by anybody; then no process is asleep, every state is RUNNING and
    the sleep lock and all the spin locks are free. *)
Theorem sleep_completes s :
  reachable s →
  ∃ s', rtc run s s' ∧
    (∀ i, inproc i → pc s' i = Idle ∧ st s' i = RUNNING ∧ ch s' i = false) ∧
    locked s' = false ∧ lkh s' = None ∧ ∀ k, plk s' k = None.
Proof.
  intros Hr. destruct (completes s (protocol_inv s Hr)) as (s' & Hs & [_ Hlk Hp Hsl Hl _] & Hq).
  exists s'. split_and!; [done | | | |].
  - intros i Hi. pose proof (Hq i Hi) as E. destruct (Hsl i Hi) as (H1 & _ & _ & H4).
    rewrite E in *. auto.
  - destruct (locked s') eqn:E; [| done].
    destruct (has_holder s' Hl E) as (i & Hi & Hh). by rewrite Hq in Hh.
  - destruct (lkh s') as [h |] eqn:E; [| done].
    apply lk_holder in E as [Hh E]; [| done]. by rewrite Hq in E.
  - intros k. destruct (plk s' k) as [h |] eqn:E; [| done].
    apply p_holder in E as [Hh E]; [| done]. by rewrite Hq in E.
Qed.

(** ** Runs *)

#[export] Instance inproc_dec i : Decision (inproc i).
Proof. unfold inproc. apply _. Defined.

Inductive event := Act (i : Z) | CallAcquire (i : Z) | CallKill (i k : Z).

Definition fire (e : event) (s : sys) : option sys :=
  match e with
  | Act i => if decide (inproc i) then act i s else None
  | CallAcquire i =>
      if decide (inproc i ∧ pc s i = Idle) then Some (goto i AAcq s) else None
  | CallKill i k =>
      if decide (inproc i ∧ inproc k ∧ pc s i = Idle) then Some (goto i (KAcq k) s) else None
  end.

Definition after (es : list event) : sys :=
  fold_left (λ s e, default s (fire e s)) es sys0.

Lemma fire_step e s s' : fire e s = Some s' → step s s'.
Proof.
  destruct e; simpl; case_decide; try done.
  - by apply step_act.
  - intros [= <-]. apply step_acquiresleep; tauto.
  - intros [= <-]. apply step_kill; tauto.
Qed.

Lemma after_reachable es : reachable (after es).
Proof.
  unfold after. assert (reachable sys0) as H by constructor. revert H.
  generalize sys0. induction es as [| e es IH]; intros s Hs; simpl; [done |].
  apply IH. destruct (fire e s) as [s' |] eqn:E; [| done]. simpl.
  eapply rtc_r; [done |]. by eapply fire_step.
Qed.

(** Process 3 takes the lock; process 5 finds it taken and sleeps, is killed
    by 7, looks again and sleeps again. *)
Definition contended : list event :=
  [CallAcquire 3] ++ replicate 5 (Act 3) ++ [CallAcquire 5] ++ replicate 8 (Act 5) ++
  [CallKill 7 5] ++ replicate 3 (Act 7) ++ replicate 12 (Act 5).

Lemma sleeplock_excludes_witness :
  pc (after contended) 3 = Crit ∧ owner (after contended) = Some 3.
Proof.
  split; [reflexivity |].
  apply (sleeplock_excludes (after contended) 3 (after_reachable contended));
    [by split | reflexivity].
Defined.

Lemma no_lost_wakeup_witness :
  pc (after contended) 5 = Zzz ∧ st (after contended) 5 = SLEEPING ∧
  ∃ j, inproc j ∧ j ≠ 5 ∧
    (has (pc (after contended) j) = true ∨ will_wake (pc (after contended) j) 5 = true).
Proof.
  split; [reflexivity |]. split; [reflexivity |].
  destruct (no_lost_wakeup (after contended) 5 (after_reachable contended)) as [H _];
    [by split |].
  destruct H as (_ & _ & H); [reflexivity | by vm_compute | exact H].
Defined.

Lemma sleep_completes_witness :
  pc (after contended) 5 = Zzz ∧
  ∃ s', rtc run (after contended) s' ∧ pc s' 5 = Idle.
Proof.
  split; [reflexivity |].
  destruct (sleep_completes (after contended) (after_reachable contended)) as (s' & Hs & H & _).
  exists s'. split; [exact Hs |]. apply H. by split.
Defined.
