(* ===== verification/Wp.v ===== *)
(** * A program logic for kernel threads

    [wp h m s Q]: run alone, holding the spin locks [h], from state [s], the
    code [m] returns (it neither panics nor sleeps), and [Q] holds of its
    result, the locks it then holds, and the state it leaves.  The wakeups it
    issues along the way are not observed. *)

From S2P Require Import Prelude Monad.

Definition wp {S A} (h : list lockid) (m : K S A) (s : S) (Q : A → list lockid → S → Prop) : Prop :=
  ∀ w n, ∃ a h' s' w', m s (Ctx h w n) = Ok a s' (Ctx h' w' n) ∧ Q a h' s'.

(** The code gives the locks back: the usual case. *)
Definition runs {S A} (h : list lockid) (m : K S A) (s : S) (Q : A → S → Prop) : Prop :=
  wp h m s (λ a h' s', h' = h ∧ Q a s').

Section rules.
Context {S : Type}.
Implicit Types (h : list lockid) (s : S).

Lemma wp_conseq {A} h (m : K S A) s (Q Q' : A → list lockid → S → Prop) :
  wp h m s Q → (∀ a h' s', Q a h' s' → Q' a h' s') → wp h m s Q'.
Proof. intros H HQ w n. destruct (H w n) as (a & h' & s' & w' & E & Hq). eauto 10. Qed.

Lemma wp_bind {A B} h (m : K S A) (f : A → K S B) s (Q : B → list lockid → S → Prop) :
  wp h m s (λ a h' s', wp h' (f a) s' Q) → wp h (bind m f) s Q.
Proof.
  intros H w n. destruct (H w n) as (a & h' & s' & w' & E & Hq).
  destruct (Hq w' n) as (b & h2 & s2 & w2 & E2 & H2). exists b, h2, s2, w2.
  split; [| done]. by rewrite (bind_ok _ _ _ _ _ _ _ E).
Qed.

Lemma wp_ret {A} h (a : A) s (Q : A → list lockid → S → Prop) : Q a h s → wp h (ret a) s Q.
Proof. intros H w n. by exists a, h, s, w. Qed.

Lemma wp_gets {A} h (f : S → A) s (Q : A → list lockid → S → Prop) : Q (f s) h s → wp h (gets f) s Q.
Proof. intros H w n. by exists (f s), h, s, w. Qed.

Lemma wp_modify h (f : S → S) s (Q : unit → list lockid → S → Prop) :
  Q tt h (f s) → wp h (modify f) s Q.
Proof. intros H w n. by exists tt, h, (f s), w. Qed.

Lemma wp_acquire h l s (Q : unit → list lockid → S → Prop) :
  l ∉ h → Q tt (l :: h) s → wp h (acquire l) s Q.
Proof. intros Hl H w n. exists tt, (l :: h), s, w. split; [| done]. by apply acquire_ok. Qed.

Lemma wp_release h l s (Q : unit → list lockid → S → Prop) :
  l ∉ h → Q tt h s → wp (l :: h) (release l) s Q.
Proof. intros Hl H w n. exists tt, h, s, w. split; [| done]. by apply release_ok. Qed.

Lemma wp_wakeup h c s (Q : unit → list lockid → S → Prop) : Q tt h s → wp h (wakeup c) s Q.
Proof. intros H w n. by exists tt, h, s, (w ++ [c]). Qed.

Lemma runs_conseq {A} h (m : K S A) s (Q Q' : A → S → Prop) :
  runs h m s Q → (∀ a s', Q a s' → Q' a s') → runs h m s Q'.
Proof. intros H HQ. eapply wp_conseq; [exact H |]. intros a h' s' [-> H']. auto. Qed.

Lemma runs_bind {A B} h (m : K S A) (f : A → K S B) s (R : A → S → Prop) (Q : B → S → Prop) :
  runs h m s R → (∀ a s', R a s' → runs h (f a) s' Q) → runs h (bind m f) s Q.
Proof.
  intros H HR. apply wp_bind. eapply wp_conseq; [exact H |]. intros a h' s' [-> Hr]. by apply HR.
Qed.

Lemma runs_ret {A} h (a : A) s (Q : A → S → Prop) : Q a s → runs h (ret a) s Q.
Proof. intros H. by apply wp_ret. Qed.

Lemma runs_gets {A} h (f : S → A) s (Q : A → S → Prop) : Q (f s) s → runs h (gets f) s Q.
Proof. intros H. by apply wp_gets. Qed.

Lemma runs_modify h (f : S → S) s (Q : unit → S → Prop) : Q tt (f s) → runs h (modify f) s Q.
Proof. intros H. by apply wp_modify. Qed.

Lemma runs_gets_bind {A B} h (f : S → A) (k : A → K S B) s (Q : B → S → Prop) :
  runs h (k (f s)) s Q → runs h (bind (gets f) k) s Q.
Proof. intros H. by apply wp_bind, wp_gets. Qed.

Lemma runs_modify_bind {B} h (f : S → S) (k : unit → K S B) s (Q : B → S → Prop) :
  runs h (k tt) (f s) Q → runs h (bind (modify f) k) s Q.
Proof. intros H. by apply wp_bind, wp_modify. Qed.

Lemma runs_ret_bind {A B} h (a : A) (k : A → K S B) s (Q : B → S → Prop) :
  runs h (k a) s Q → runs h (bind (ret a) k) s Q.
Proof. intros H. by apply wp_bind, wp_ret. Qed.

(** Running the first operations of a sequence by the specification of those
    operations alone. *)
Lemma runs_assoc {A B C} h (m : K S A) (f : A → K S B) (g : B → K S C) s (Q : C → S → Prop) :
  runs h (bind (bind m f) g) s Q → runs h (bind m (λ a, bind (f a) g)) s Q.
Proof.
  intros H w n. destruct (H w n) as (c & h' & s' & w' & E & Hq). exists c, h', s', w'. split; [| done].
  apply bind_Ok_inv in E as (b & s2 & x2 & E2 & E3). apply bind_Ok_inv in E2 as (a & s1 & x1 & E1 & E2).
  rewrite (bind_ok _ _ _ _ _ _ _ E1). by rewrite (bind_ok _ _ _ _ _ _ _ E2).
Qed.

(** ... and the other way. *)
Lemma runs_flat {A B C} h (m : K S A) (f : A → K S B) (g : B → K S C) s (Q : C → S → Prop) :
  runs h (bind m (λ a, bind (f a) g)) s Q → runs h (bind (bind m f) g) s Q.
Proof.
  intros H w n. destruct (H w n) as (c & h' & s' & w' & E & Hq). exists c, h', s', w'. split; [| done].
  apply bind_Ok_inv in E as (a & s1 & x1 & E1 & E2). apply bind_Ok_inv in E2 as (b & s2 & x2 & E2 & E3).
  assert (bind m f s (Ctx h w n) = Ok b s2 x2) as Em by (by rewrite (bind_ok _ _ _ _ _ _ _ E1)).
  by rewrite (bind_ok _ _ _ _ _ _ _ Em).
Qed.

Lemma runs_seq2 {A1 A2 C} h (m1 : K S A1) (m2 : K S A2) (k : A2 → K S C) s (R : A2 → S → Prop) (Q : C → S → Prop) :
  runs h (m1 ;; m2) s R → (∀ a s', R a s' → runs h (k a) s' Q) → runs h (m1 ;; a <- m2 ;; k a) s Q.
Proof. intros H HR. apply runs_assoc. by eapply runs_bind. Qed.

Lemma runs_seq3 {A1 A2 A3 C} h (m1 : K S A1) (m2 : K S A2) (m3 : K S A3) (k : A3 → K S C) s
    (R : A3 → S → Prop) (Q : C → S → Prop) :
  runs h (m1 ;; m2 ;; m3) s R → (∀ a s', R a s' → runs h (k a) s' Q) →
  runs h (m1 ;; m2 ;; a <- m3 ;; k a) s Q.
Proof.
  intros H HR w n. destruct (H w n) as (a3 & h' & s' & w' & E & -> & Hr).
  destruct (HR a3 s' Hr w' n) as (c & h2 & s2 & w2 & E2 & Hq). exists c, h2, s2, w2. split; [| done].
  apply bind_Ok_inv in E as (a1 & s1 & x1 & E1 & E). apply bind_Ok_inv in E as (a2 & s3 & x3 & E3 & E).
  rewrite (bind_ok _ _ _ _ _ _ _ E1), (bind_ok _ _ _ _ _ _ _ E3). by rewrite (bind_ok _ _ _ _ _ _ _ E).
Qed.

(** A critical section. *)
Lemma runs_locked {A} h l (m : K S A) s (Q : A → S → Prop) :
  l ∉ h → runs (l :: h) m s Q → runs h (acquire l ;; r <- m ;; release l ;; ret r) s Q.
Proof.
  intros Hl H. apply wp_bind, wp_acquire; [done |]. apply wp_bind.
  eapply wp_conseq; [exact H |]. intros a h' s' [-> Hq]. apply wp_bind, wp_release; [done |].
  by apply wp_ret.
Qed.

Lemma runs_for_each {X} h (l : list X) (f : X → K S unit) (I : list X → S → Prop) s (Q : unit → S → Prop) :
  I l s → (∀ a l' s', I (a :: l') s' → runs h (f a) s' (λ _ s'', I l' s'')) → (∀ s', I [] s' → Q tt s') →
  runs h (for_each l f) s Q.
Proof.
  intros Hi Hstep Hq. revert s Hi. induction l as [| a l IH]; intros s Hi.
  - apply runs_ret. auto.
  - eapply runs_bind; [by apply Hstep |]. intros ? s' H'. by apply IH.
Qed.

End rules.

Lemma runs_lift {S T A} (L : lens S T) h (m : K T A) s (Q : A → S → Prop) :
  runs h m (lget L s) (λ a t, Q a (lput L t s)) → runs h (lift L m) s Q.
Proof.
  intros H w n. destruct (H w n) as (a & h' & t & w' & E & -> & Hq).
  exists a, h, (lput L t s), w'. split; [by apply lift_ok | done].
Qed.

(** [rstep] runs a read or an update of the state. *)
Ltac rstep := first [ apply runs_gets_bind | apply runs_modify_bind | apply runs_ret_bind ].

(** [rbind H] runs the first operation by the specification [H] of the callee. *)
Tactic Notation "rbind" uconstr(H) := eapply runs_bind; [eapply H | cbv beta].
