(* ===== verification/Store.v ===== *)
(** * The block store: what fs.c relies on

    The file system reads and changes disk blocks through [bread], the [data]
    of the buffer, [log_write] and [brelse].  [BlockStore] is that set of
    operations; [BlockStoreLaws] is what they promise to a thread inside a
    transaction that no other thread interferes with.  LogStore.v shows that
    the buffer cache and the log keep the promise. *)

From S2P Require Import Prelude Monad Riscv Block Wp.

Class BlockStore (B : Type) := {
  bs_bread : Z → Z → K B Z;
  bs_data : Z → K B block;
  bs_store : Z → block → K B unit;
  bs_log_write : Z → K B unit;
  bs_brelse : Z → K B unit;
  bs_initlog : Z → Z → Z → K B unit }.

(** The contents of all blocks. *)
Abbreviation contents := (Z → block).

(** The buffers this thread holds: for each, the block, and whether it has been
    changed without having been logged. *)
Abbreviation opened := (gmap Z (Z * bool)).

Definition is_open (O : opened) (b : Z) : Prop := ∃ i d, O !! i = Some (b, d).

(** [bs_rep s V O L]: the blocks have contents [V], the thread holds the
    buffers [O], and the transaction has logged the blocks [L].  [bs_home]
    says which blocks may be logged, [bs_room] how many, and [bs_bufs] how
    many may be in memory. *)
Class BlockStoreLaws (B : Type) `{!BlockStore B} := {
  bs_rep : B → contents → opened → gset Z → Prop;
  bs_home : Z → Prop;
  bs_room : nat;
  bs_bufs : nat;
  bs_rep_ext : ∀ s V V' O L, (∀ c, V c = V' c) → bs_rep s V O L → bs_rep s V' O L;
  bs_rep_block : ∀ s V O L c, bs_rep s V O L → is_block (V c);
  bs_bread_ok : ∀ s V O L b,
    bs_rep s V O L → ¬ is_open O b → (size O + size L < bs_bufs)%nat →
    runs [] (bs_bread ROOTDEV b) s (λ i s', O !! i = None ∧ bs_rep s' V (<[i := (b, false)]> O) L);
  bs_data_ok : ∀ s V O L i b d,
    bs_rep s V O L → O !! i = Some (b, d) →
    runs [] (bs_data i) s (λ v s', v = V b ∧ bs_rep s' V O L);
  bs_store_ok : ∀ s V O L i b d v,
    bs_rep s V O L → O !! i = Some (b, d) → is_block v →
    runs [] (bs_store i v) s (λ _ s', bs_rep s' (<[b := v]> V) (<[i := (b, true)]> O) L);
  bs_log_write_ok : ∀ s V O L i b d,
    bs_rep s V O L → O !! i = Some (b, d) → bs_home b → (size L < bs_room)%nat →
    runs [] (bs_log_write i) s (λ _ s', bs_rep s' V (<[i := (b, false)]> O) ({[b]} ∪ L));
  bs_brelse_ok : ∀ s V O L i b,
    bs_rep s V O L → O !! i = Some (b, false) →
    runs [] (bs_brelse i) s (λ _ s', bs_rep s' V (delete i O) L) }.

(** ** Kernel and user memory, as fs.c uses it *)

(** [either_copyout], [either_copyin], and the kernel's access to its own
    variables in memory. *)
Class Memory (M : Type) := {
  m_copyout : bool → Z → list Z → K M Z;
  m_copyin : bool → Z → nat → K M (Z * list Z);
  m_load : Z → nat → K M (list Z);
  m_save : Z → list Z → K M unit }.

(** What they do to kernel memory, whose byte at [a] is [m_byte m a]. *)
Class MemoryLaws (M : Type) `{!Memory M} := {
  m_byte : M → Z → Z;
  m_copyout_ok : ∀ m a bs, bytes bs →
    runs [] (m_copyout false a bs) m (λ r m', r = 0 ∧
      ∀ x, m_byte m' x = default (m_byte m x) (zget bs (x - a)));
  m_copyin_ok : ∀ m a k,
    runs [] (m_copyin false a k) m (λ r m', r = (0, map (λ j, m_byte m (a + j)) (seqZ 0 (Z.of_nat k))) ∧ m' = m);
  m_load_ok : ∀ m a k,
    runs [] (m_load a k) m (λ bs m', bs = map (λ j, m_byte m (a + j)) (seqZ 0 (Z.of_nat k)) ∧ m' = m);
  m_save_ok : ∀ m a bs, bytes bs →
    runs [] (m_save a bs) m (λ _ m',
      ∀ x, m_byte m' x = default (m_byte m x) (zget bs (x - a))) }.
