(* ===== verification/Fs.v ===== *)
(** * The file system (kernel/fs.c, kernel/fs.h, kernel/file.h, kernel/stat.h)

    Blocks, inodes, directories and path names, over a block store and a
    memory (Store.v).  A [struct inode *] is an index into [itable.inode];
    [NULL] stands for the null pointer. *)

From S2P Require Import Prelude Abi Monad Riscv Mem Block Sleeplock Store.

(** ** On-disk format *)

Definition ROOTINO : Z := 1.
Definition FSMAGIC : Z := 0x10203040.
Definition NDIRECT : Z := 12.
Definition NINDIRECT : Z := BSIZE / 4.
Definition MAXFILE : Z := NDIRECT + NINDIRECT.

Record superblock := Superblock {
  sb_magic : Z;
  sb_size : Z;
  sb_nblocks : Z;
  sb_ninodes : Z;
  sb_nlog : Z;
  sb_logstart : Z;
  sb_inodestart : Z;
  sb_bmapstart : Z }.

(** The superblock in its block. *)
Definition super_of (v : block) : superblock :=
  Superblock (get32 v 0) (get32 v 4) (get32 v 8) (get32 v 12) (get32 v 16) (get32 v 20) (get32 v 24) (get32 v 28).

(** [struct dinode] is 64 bytes: four shorts, [size], [addrs[NDIRECT+1]]. *)
Definition DINODE : Z := 64.
Definition IPB : Z := BSIZE / DINODE.
Definition IBLOCK (i : Z) (sb : superblock) : Z := i / IPB + sb_inodestart sb.
Definition BPB : Z := BSIZE * 8.
Definition BBLOCK (b : Z) (sb : superblock) : Z := b / BPB + sb_bmapstart sb.

(** ** In-memory inodes *)

Record inode := Inode {
  idev : Z;
  inum : Z;
  iref : Z;
  ilk : sleeplock;
  ivalid : bool;
  itype : Z;
  major : Z;
  minor : Z;
  nlink : Z;
  isize : Z;
  addrs : list Z }.

Definition inode0 : inode := Inode 0 0 0 initsleeplock false 0 0 0 0 0 (replicate 13 0).

Definition set_ref (v : Z) (i : inode) : inode :=
  Inode (idev i) (inum i) v (ilk i) (ivalid i) (itype i) (major i) (minor i) (nlink i) (isize i) (addrs i).
Definition set_ilk (v : sleeplock) (i : inode) : inode :=
  Inode (idev i) (inum i) (iref i) v (ivalid i) (itype i) (major i) (minor i) (nlink i) (isize i) (addrs i).
Definition set_ivalid (v : bool) (i : inode) : inode :=
  Inode (idev i) (inum i) (iref i) (ilk i) v (itype i) (major i) (minor i) (nlink i) (isize i) (addrs i).
Definition set_itype (v : Z) (i : inode) : inode :=
  Inode (idev i) (inum i) (iref i) (ilk i) (ivalid i) v (major i) (minor i) (nlink i) (isize i) (addrs i).
Definition set_dev_nums (ma mi : Z) (i : inode) : inode :=
  Inode (idev i) (inum i) (iref i) (ilk i) (ivalid i) (itype i) ma mi (nlink i) (isize i) (addrs i).
Definition set_nlink (v : Z) (i : inode) : inode :=
  Inode (idev i) (inum i) (iref i) (ilk i) (ivalid i) (itype i) (major i) (minor i) v (isize i) (addrs i).
Definition set_isize (v : Z) (i : inode) : inode :=
  Inode (idev i) (inum i) (iref i) (ilk i) (ivalid i) (itype i) (major i) (minor i) (nlink i) v (addrs i).
Definition set_addrs (v : list Z) (i : inode) : inode :=
  Inode (idev i) (inum i) (iref i) (ilk i) (ivalid i) (itype i) (major i) (minor i) (nlink i) (isize i) v.

(** [ip->addrs[n]] *)
Definition addr (i : inode) (n : Z) : Z := default 0 (zget (addrs i) n).
Definition set_addr (n v : Z) (i : inode) : inode := set_addrs (zset (addrs i) n v) i.

Definition NULL : Z := -1.

(** The global [sb] and [itable], the blocks and the memory. *)
Record fstate (B M : Type) := FState {
  fsb : superblock;
  itable : list inode;
  blk : B;
  kmem : M }.
Arguments FState {B M} _ _ _ _.
Arguments fsb {B M} _.
Arguments itable {B M} _.
Arguments blk {B M} _.
Arguments kmem {B M} _.

(** ** The disk structures in a block *)

Definition get_byte (v : block) (i : Z) : Z := default 0 (zget v i).

(** [data[bi/8] & (1 << (bi % 8))], and setting and clearing that bit. *)
Definition bit_set (v : block) (bi : Z) : bool :=
  negb (Z.land (get_byte v (bi / 8)) (Z.shiftl 1 (bi mod 8)) =? 0).
Definition set_bit (v : block) (bi : Z) : block :=
  zset v (bi / 8) (Z.lor (get_byte v (bi / 8)) (Z.shiftl 1 (bi mod 8))).
Definition clear_bit (v : block) (bi : Z) : block :=
  zset v (bi / 8) (u8 (Z.land (get_byte v (bi / 8)) (Z.lnot (Z.shiftl 1 (bi mod 8))))).

(** The disk inode at byte offset [o] of a block, copied into memory. *)
Definition read_dinode (v : block) (o : Z) (i : inode) : inode :=
  Inode (idev i) (inum i) (iref i) (ilk i) (ivalid i)
    (i16 (get16 v o)) (i16 (get16 v (o + 2))) (i16 (get16 v (o + 4))) (i16 (get16 v (o + 6)))
    (get32 v (o + 8)) (map (λ k, get32 v (o + 12 + 4 * k)) (seqZ 0 (NDIRECT + 1))).

Definition write_dinode (v : block) (o : Z) (i : inode) : block :=
  let v := put16 v o (itype i) in
  let v := put16 v (o + 2) (major i) in
  let v := put16 v (o + 4) (minor i) in
  let v := put16 v (o + 6) (nlink i) in
  let v := put32 v (o + 8) (isize i) in
  put32s v (o + 12) (NDIRECT + 1) (addr i).

Section fs.
Context {B M : Type} `{!BlockStore B} `{!Memory M}.
Context (mypid : Z).
Notation F := (K (fstate B M)).

Definition blkL : lens (fstate B M) B := Lens blk (λ b s, FState (fsb s) (itable s) b (kmem s)).
Definition memL : lens (fstate B M) M := Lens kmem (λ m s, FState (fsb s) (itable s) (blk s) m).

Definition bread (d b : Z) : F Z := lift blkL (bs_bread d b).
Definition bdata (i : Z) : F block := lift blkL (bs_data i).
Definition bstore (i : Z) (v : block) : F unit := lift blkL (bs_store i v).
Definition log_write (i : Z) : F unit := lift blkL (bs_log_write i).
Definition brelse (i : Z) : F unit := lift blkL (bs_brelse i).

Definition geti (s : fstate B M) (i : Z) : inode := default inode0 (zget (itable s) i).
Definition seti (i : Z) (v : inode) (s : fstate B M) : fstate B M :=
  FState (fsb s) (zset (itable s) i v) (blk s) (kmem s).
Definition updi (i : Z) (f : inode → inode) : F unit := modify (λ s, seti i (f (geti s i)) s).

(** ** Super block *)

Definition readsb (d : Z) : F unit :=
  bp <- bread d 1 ;;
  v <- bdata bp ;;
  modify (λ s, FState (super_of v) (itable s) (blk s) (kmem s)) ;;
  brelse bp.

Definition fsinit (d : Z) : F unit :=
  readsb d ;;
  sb <- gets fsb ;;
  if negb (sb_magic sb =? FSMAGIC) then panic "invalid file system"
  else lift blkL (bs_initlog d (sb_logstart sb) (sb_nlog sb)).

(** ** Blocks *)

Definition bzero (d b : Z) : F unit :=
  bp <- bread d b ;;
  bstore bp zero_block ;;
  log_write bp ;;
  brelse bp.

(** The values of [b] in the outer loop of [balloc]. *)
Definition bmap_starts (size : Z) : list Z := map (λ k, k * BPB) (seqZ 0 ((size + BPB - 1) / BPB)).

(** The first clear bit of a bitmap block, for the blocks from [b] on. *)
Definition free_bit (v : block) (b size : Z) : option Z :=
  List.find (λ bi, negb (bit_set v bi)) (seqZ 0 (Z.min BPB (size - b))).

Definition balloc (d : Z) : F Z :=
  sb <- gets fsb ;;
  r <- for_find (bmap_starts (sb_size sb)) (λ b,
    bp <- bread d (BBLOCK b sb) ;;
    v <- bdata bp ;;
    match free_bit v b (sb_size sb) with
    | Some bi =>
        bstore bp (set_bit v bi) ;; (* Mark block in use. *)
        log_write bp ;;
        brelse bp ;;
        bzero d (b + bi) ;;
        ret (Some (b + bi))
    | None => brelse bp ;; ret None
    end) ;;
  match r with
  | Some b => ret b
  | None => panic "balloc: out of blocks"
  end.

Definition bfree (d b : Z) : F unit :=
  sb <- gets fsb ;;
  bp <- bread d (BBLOCK b sb) ;;
  v <- bdata bp ;;
  let bi := b mod BPB in
  if negb (bit_set v bi) then panic "freeing free block"
  else
    bstore bp (clear_bit v bi) ;;
    log_write bp ;;
    brelse bp.

(** ** Inodes *)

Definition inode_lock (i : Z) : lens (fstate B M) sleeplock :=
  Lens (λ s, ilk (geti s i)) (λ l s, seti i (set_ilk l (geti s i)) s).

Definition iinit : F unit :=
  for_each (seqZ 0 NINODE) (λ i, updi i (set_ilk initsleeplock)).

(** The loop of [iget] from entry [i] on, with the empty slot remembered. *)
Fixpoint iget_scan (l : list inode) (i d n : Z) (empty : option Z) : Z + option Z :=
  match l with
  | [] => inr empty
  | ip :: l' =>
      if (0 <? iref ip) && (idev ip =? d) && (inum ip =? n) then inl i
      else iget_scan l' (i + 1) d n
             (match empty with
              | Some e => Some e
              | None => if iref ip =? 0 then Some i else None  (* Remember empty slot. *)
              end)
  end.

Definition iget (d n : Z) : F Z :=
  acquire L_itable ;;
  (* Is the inode already in the table? *)
  r <- gets (λ s, iget_scan (itable s) 0 d n None) ;;
  match r with
  | inl ip =>
      updi ip (λ i, set_ref (i32 (iref i + 1)) i) ;;
      release L_itable ;;
      ret ip
  | inr None => panic "iget: no inodes"
  | inr (Some ip) =>
      (* Recycle an inode entry. *)
      updi ip (λ i, Inode d n 1 (ilk i) false (itype i) (major i) (minor i) (nlink i) (isize i) (addrs i)) ;;
      release L_itable ;;
      ret ip
  end.

Definition idup (ip : Z) : F Z :=
  acquire L_itable ;;
  updi ip (λ i, set_ref (i32 (iref i + 1)) i) ;;
  release L_itable ;;
  ret ip.

(** [(struct dinode* )bp->data + inum%IPB] *)
Definition dip (n : Z) : Z := n mod IPB * DINODE.

Definition ialloc (d type : Z) : F Z :=
  sb <- gets fsb ;;
  r <- for_find (seqZ 1 (sb_ninodes sb - 1)) (λ n,
    bp <- bread d (IBLOCK n sb) ;;
    v <- bdata bp ;;
    if get16 v (dip n) =? 0 then (* a free inode *)
      bstore bp (put16 (splice v (Z.to_nat (dip n)) (replicate (Z.to_nat DINODE) 0)) (dip n) type) ;;
      log_write bp ;; (* mark it allocated on the disk *)
      brelse bp ;;
      ip <- iget d n ;;
      ret (Some ip)
    else brelse bp ;; ret None) ;;
  match r with
  | Some ip => ret ip
  | None => panic "ialloc: no inodes"
  end.

Definition iupdate (ip : Z) : F unit :=
  sb <- gets fsb ;;
  i <- gets (λ s, geti s ip) ;;
  bp <- bread (idev i) (IBLOCK (inum i) sb) ;;
  v <- bdata bp ;;
  bstore bp (write_dinode v (dip (inum i)) i) ;;
  log_write bp ;;
  brelse bp.

Definition ilock (ip : Z) : F unit :=
  i <- gets (λ s, geti s ip) ;;
  if (ip =? NULL) || (iref i <? 1) then panic "ilock"
  else
    lift (inode_lock ip) (acquiresleep mypid (SL_inode ip)) ;;
    i <- gets (λ s, geti s ip) ;;
    if ivalid i then ret tt
    else
      sb <- gets fsb ;;
      bp <- bread (idev i) (IBLOCK (inum i) sb) ;;
      v <- bdata bp ;;
      updi ip (read_dinode v (dip (inum i))) ;;
      brelse bp ;;
      updi ip (set_ivalid true) ;;
      t <- gets (λ s, itype (geti s ip)) ;;
      if t =? 0 then panic "ilock: no type" else ret tt.

Definition iunlock (ip : Z) : F unit :=
  if ip =? NULL then panic "iunlock"
  else
    hold <- lift (inode_lock ip) (holdingsleep mypid (SL_inode ip)) ;;
    i <- gets (λ s, geti s ip) ;;
    if negb hold || (iref i <? 1) then panic "iunlock"
    else lift (inode_lock ip) (releasesleep (SL_inode ip)).

(** ** Inode content *)

Definition bmap (ip bn : Z) : F Z :=
  i <- gets (λ s, geti s ip) ;;
  if bn <? NDIRECT then
    if addr i bn =? 0 then
      a <- balloc (idev i) ;;
      updi ip (set_addr bn a) ;;
      ret a
    else ret (addr i bn)
  else
    let bn := bn - NDIRECT in
    if bn <? NINDIRECT then
      (* Load indirect block, allocating if necessary. *)
      a <- (if addr i NDIRECT =? 0 then
              a <- balloc (idev i) ;;
              updi ip (set_addr NDIRECT a) ;;
              ret a
            else ret (addr i NDIRECT)) ;;
      bp <- bread (idev i) a ;;
      v <- bdata bp ;;
      a <- (if get32 v (4 * bn) =? 0 then
              a <- balloc (idev i) ;;
              v <- bdata bp ;;
              bstore bp (put32 v (4 * bn) a) ;;
              log_write bp ;;
              ret a
            else ret (get32 v (4 * bn))) ;;
      brelse bp ;;
      ret a
    else panic "bmap: out of range".

Definition itrunc (ip : Z) : F unit :=
  for_each (seqZ 0 NDIRECT) (λ k,
    i <- gets (λ s, geti s ip) ;;
    when (negb (addr i k =? 0))
      (bfree (idev i) (addr i k) ;;
       updi ip (set_addr k 0))) ;;
  i <- gets (λ s, geti s ip) ;;
  when (negb (addr i NDIRECT =? 0))
    (bp <- bread (idev i) (addr i NDIRECT) ;;
     for_each (seqZ 0 NINDIRECT) (λ j,
       v <- bdata bp ;;
       when (negb (get32 v (4 * j) =? 0)) (bfree (idev i) (get32 v (4 * j)))) ;;
     brelse bp ;;
     bfree (idev i) (addr i NDIRECT) ;;
     updi ip (set_addr NDIRECT 0)) ;;
  updi ip (set_isize 0) ;;
  iupdate ip.

Definition iput (ip : Z) : F unit :=
  acquire L_itable ;;
  i <- gets (λ s, geti s ip) ;;
  (if (iref i =? 1) && ivalid i && (nlink i =? 0) then
     (* inode has no links and no other references: truncate and free. *)
     lift (inode_lock ip) (acquiresleep mypid (SL_inode ip)) ;;
     release L_itable ;;
     itrunc ip ;;
     updi ip (set_itype 0) ;;
     iupdate ip ;;
     updi ip (set_ivalid false) ;;
     lift (inode_lock ip) (releasesleep (SL_inode ip)) ;;
     acquire L_itable
   else ret tt) ;;
  updi ip (λ i, set_ref (i32 (iref i - 1)) i) ;;
  release L_itable.

Definition iunlockput (ip : Z) : F unit := iunlock ip ;; iput ip.

Record stat := Stat { st_dev : Z; st_ino : Z; st_type : Z; st_nlink : Z; st_size : Z }.

Definition stati (ip : Z) : F stat :=
  i <- gets (λ s, geti s ip) ;;
  ret (Stat (i32 (idev i)) (inum i) (itype i) (nlink i) (isize i)).

(** [for(tot=0; tot<n; tot+=m, off+=m, dst+=m)]; each turn does at least one
    byte, so that [n] turns are enough. *)
Fixpoint readi_loop (fuel : nat) (ip : Z) (user_dst : bool) (dst off n tot : Z) : F Z :=
  if tot <? n then
    match fuel with
    | O => λ _ _, NoFuel
    | S fuel =>
        a <- bmap ip (off / BSIZE) ;;
        i <- gets (λ s, geti s ip) ;;
        bp <- bread (idev i) a ;;
        v <- bdata bp ;;
        let m := Z.min (n - tot) (BSIZE - off mod BSIZE) in
        r <- lift memL (m_copyout user_dst dst (slice v (off mod BSIZE) (Z.to_nat m))) ;;
        if r =? -1 then brelse bp ;; ret (-1)
        else
          brelse bp ;;
          readi_loop fuel ip user_dst (u64 (dst + m)) (u32 (off + m)) n (tot + m)
    end
  else ret (i32 tot).

Definition readi (ip : Z) (user_dst : bool) (dst off n : Z) : F Z :=
  size <- gets (λ s, isize (geti s ip)) ;;
  if (size <? off) || (u32 (off + n) <? off) then ret 0
  else
    let n := if size <? u32 (off + n) then size - off else n in
    readi_loop (Z.to_nat n) ip user_dst dst off n 0.

(** The loop of [writei]: the values of [tot] and [off] when it ends.  What
    [either_copyin] has copied when it fails stays in the buffer. *)
Fixpoint writei_loop (fuel : nat) (ip : Z) (user_src : bool) (src off n tot : Z) : F (Z * Z) :=
  if tot <? n then
    match fuel with
    | O => λ _ _, NoFuel
    | S fuel =>
        a <- bmap ip (off / BSIZE) ;;
        i <- gets (λ s, geti s ip) ;;
        bp <- bread (idev i) a ;;
        let m := Z.min (n - tot) (BSIZE - off mod BSIZE) in
        r <- lift memL (m_copyin user_src src (Z.to_nat m)) ;;
        v <- bdata bp ;;
        bstore bp (splice v (Z.to_nat (off mod BSIZE)) r.2) ;;
        if r.1 =? -1 then brelse bp ;; ret (tot, off)
        else
          log_write bp ;;
          brelse bp ;;
          writei_loop fuel ip user_src (u64 (src + m)) (u32 (off + m)) n (tot + m)
    end
  else ret (tot, off).

Definition writei (ip : Z) (user_src : bool) (src off n : Z) : F Z :=
  size <- gets (λ s, isize (geti s ip)) ;;
  if (size <? off) || (u32 (off + n) <? off) then ret (-1)
  else if MAXFILE * BSIZE <? u32 (off + n) then ret (-1)
  else
    r <- writei_loop (Z.to_nat n) ip user_src src off n 0 ;;
    size <- gets (λ s, isize (geti s ip)) ;;
    when (size <? r.2) (updi ip (set_isize r.2)) ;;
    (* write the i-node back to disk even if the size didn't change *)
    iupdate ip ;;
    ret (i32 r.1).

(** ** Directories *)

(** [strncmp(s, t, DIRSIZ)] of two arrays of [DIRSIZ] characters. *)
Definition namecmp (s t : list Z) : Z :=
  strncmp (write_bytes (write_bytes ∅ 0 s) DIRSIZ t) 0 DIRSIZ (Z.to_nat DIRSIZ).

(** The local [struct dirent de] is at address [de]. *)
Context (de : Z).

(** Reads the entry at [off] into [de]. *)
Definition read_dirent (msg : string) (dp off : Z) : F block :=
  r <- readi dp false de off DIRENT ;;
  if negb (r =? DIRENT) then panic msg
  else lift memL (m_load de (Z.to_nat DIRENT)).

(** The loop of [dirlookup]: the offset and inode number of the first entry
    with the name. *)
Fixpoint dirlookup_loop (fuel : nat) (dp : Z) (name : list Z) (off : Z) : F (option (Z * Z)) :=
  size <- gets (λ s, isize (geti s dp)) ;;
  if off <? size then
    match fuel with
    | O => λ _ _, NoFuel
    | S fuel =>
        e <- read_dirent "dirlookup read" dp off ;;
        if get16 e 0 =? 0 then dirlookup_loop fuel dp name (u32 (off + DIRENT))
        else if namecmp name (slice e 2 (Z.to_nat DIRSIZ)) =? 0 then ret (Some (off, get16 e 0))
        else dirlookup_loop fuel dp name (u32 (off + DIRENT))
    end
  else ret None.

(** A directory of [size] bytes has at most [size/DIRENT + 1] entries. *)
Definition dir_fuel (size : Z) : nat := Z.to_nat (size / DIRENT + 1).

(** Returns the inode and [*poff]. *)
Definition dirlookup (dp : Z) (name : list Z) : F (option (Z * Z)) :=
  i <- gets (λ s, geti s dp) ;;
  if negb (itype i =? T_DIR) then panic "dirlookup not DIR"
  else
    r <- dirlookup_loop (dir_fuel (isize i)) dp name 0 ;;
    match r with
    | None => ret None
    | Some (off, n) =>
        (* entry matches path element *)
        i <- gets (λ s, geti s dp) ;;
        ip <- iget (idev i) n ;;
        ret (Some (ip, off))
    end.

(** The loop of [dirlink]: the offset of an empty entry, or the size. *)
Fixpoint dirlink_loop (fuel : nat) (dp off : Z) : F Z :=
  size <- gets (λ s, isize (geti s dp)) ;;
  if off <? size then
    match fuel with
    | O => λ _ _, NoFuel
    | S fuel =>
        e <- read_dirent "dirlink read" dp off ;;
        if get16 e 0 =? 0 then ret off else dirlink_loop fuel dp (off + DIRENT)
    end
  else ret off.

(** [strncpy(de.name, name, DIRSIZ)] *)
Definition dirent_name (name : list Z) : list Z :=
  take (Z.to_nat DIRSIZ) (name ++ replicate (Z.to_nat DIRSIZ) 0).

Definition dirlink (dp : Z) (name : list Z) (n : Z) : F Z :=
  (* Check that name is not present. *)
  r <- dirlookup dp name ;;
  match r with
  | Some (ip, _) => iput ip ;; ret (-1)
  | None =>
      (* Look for an empty dirent. *)
      size <- gets (λ s, isize (geti s dp)) ;;
      off <- dirlink_loop (dir_fuel size) dp 0 ;;
      lift memL (m_save (de + 2) (dirent_name name)) ;;
      lift memL (m_save de (Z_to_little_endian 2 8 n)) ;;
      r <- writei dp false de off DIRENT ;;
      if negb (r =? DIRENT) then panic "dirlink" else ret 0
  end.

(** ** Paths *)

(** A path is the characters before its NUL. *)
Fixpoint skip_slashes (path : list Z) : list Z :=
  match path with
  | c :: path' => if c =? SLASH then skip_slashes path' else path
  | [] => []
  end.

(** [while( *path != '/' && *path != 0) path++]: what was passed, and the rest *)
Fixpoint span_elem (path : list Z) : list Z * list Z :=
  match path with
  | c :: path' =>
      if c =? SLASH then ([], path)
      else let '(e, r) := span_elem path' in (c :: e, r)
  | [] => ([], [])
  end.

(** The rest of the path and the contents of [name]. *)
Definition skipelem (path : list Z) : option (list Z * list Z) :=
  match skip_slashes path with
  | [] => None
  | p =>
      let '(s, path) := span_elem p in
      let len := Z.of_nat (length s) in
      let name := if DIRSIZ <=? len then take (Z.to_nat DIRSIZ) s else s in
      Some (skip_slashes path, name)
  end.

(** The loop of [namex]; with [nameiparent], also the final element.  Every
    turn consumes an element of the path. *)
Fixpoint namex_loop (fuel : nat) (nameiparent : bool) (ip : Z) (path name : list Z)
  : F (option (Z * list Z)) :=
  match skipelem path with
  | None =>
      if nameiparent then iput ip ;; ret None
      else ret (Some (ip, name))
  | Some (path, name) =>
      match fuel with
      | O => λ _ _, NoFuel
      | S fuel =>
          ilock ip ;;
          t <- gets (λ s, itype (geti s ip)) ;;
          if negb (t =? T_DIR) then iunlockput ip ;; ret None
          else if nameiparent && match path with [] => true | _ => false end then
            (* Stop one level early. *)
            iunlock ip ;;
            ret (Some (ip, name))
          else
            r <- dirlookup ip name ;;
            match r with
            | None => iunlockput ip ;; ret None
            | Some (next, _) =>
                iunlockput ip ;;
                namex_loop fuel nameiparent next path name
            end
      end
  end.

(** [cwd] is [myproc()->cwd]. *)
Definition namex (cwd : Z) (path : list Z) (nameiparent : bool) : F (option (Z * list Z)) :=
  ip <- (match path with
         | c :: _ => if c =? SLASH then iget ROOTDEV ROOTINO else idup cwd
         | [] => idup cwd
         end) ;;
  namex_loop (length path) nameiparent ip path [].

Definition namei (cwd : Z) (path : list Z) : F (option Z) :=
  r <- namex cwd path false ;;
  ret (fst <$> r).

Definition nameiparent (cwd : Z) (path : list Z) : F (option (Z * list Z)) := namex cwd path true.

End fs.
