(* ===== verification/LogStore.v ===== *)
(** * The log keeps the promises of the block store

    [BlockStoreLaws] (Store.v) for the buffer cache and the log: fs.c may use
    [bread], [log_write] and [brelse] with several buffers open at a time. *)

From S2P Require Import Prelude Monad Riscv Block Sleeplock Bio BioLru BioInv Log LogDisk LogCrash LogTxn Wp Store.

Notation card := base.size (only parsing).

Section store.
(** The process, and where the superblock puts the log. *)
Context (mypid logstart nlog : Z).
(** The disk when the transaction began, and the operations in it. *)
Context (D : disk) (nout : Z).
Notation holds := (holds mypid).
Notation opens := (opens mypid).

Definition log_store : BlockStore lstate := {|
  bs_bread := lbread mypid;
  bs_data i := lift bcL (bdata i);
  bs_store i v := lift bcL (bstore i v);
  bs_log_write := log_write;
  bs_brelse := lbrelse mypid;
  bs_initlog := initlog mypid |}.

(** Buffer [k] is pinned by the log. *)
Definition pins (L : gset Z) (s : bcache) (k : Z) : bool :=
  bool_decide (dev (getb s k) = ROOTDEV ∧ blockno (getb s k) ∈ L).

Definition log_home (b : Z) : Prop := 0 <= b < 2 ^ 31 ∧ ¬ (logstart <= b < logstart + nlog).

(** The in-memory log: the blocks [L]. *)
Record log_holds (l : log) (L : gset Z) : Prop := {
  lh_wf : log_wf l;
  lh_dev : ldev l = ROOTDEV;
  lh_start : start l = logstart;
  lh_size : Log.size l = nlog;
  lh_fits : lh_n l < nlog;
  lh_out : 1 <= outstanding l;
  lh_flags : outstanding l = nout ∧ committing l = false;
  lh_logged : ∀ c, c ∈ L ↔ logged l c;
  lh_home : ∀ c, c ∈ L → log_home c }.

(** A buffer is referenced once by its holder and once by the log. *)
Record log_rep (s : lstate) (V : contents) (O : opened) (L : gset Z) : Prop := {
  lr_ok : ∃ order, bc_ok (bc s) order;
  lr_view : ∀ c, view (bc s) c = V c;
  lr_open : ∀ i b d, O !! i = Some (b, d) → holds (bc s) i b;
  lr_lock : ∀ k, 0 <= k < NBUF → O !! k = None → sl_locked (lock (getb (bc s) k)) = false;
  lr_ref : ∀ k, 0 <= k < NBUF →
    refcnt (getb (bc s) k) =
      (if decide (is_Some (O !! k)) then 1 else 0) + (if pins L (bc s) k then 1 else 0);
  lr_pin : ∀ c, c ∈ L → ∃ k, caches (bc s) k c ∧ valid (getb (bc s) k) = true;
  lr_clean : ∀ i b, O !! i = Some (b, false) → b ∈ L ∨ V b = dread (dsk (bc s)) b;
  lr_log : log_holds (lg s) L;
  (* only the end of the transaction writes to the disk *)
  lr_disk : dsk (bc s) = D }.

(** [log_rep] looks only at these parts of the cache. *)
Lemma log_rep_bufs l l' s s' V V' O L :
  log_rep (LState l s) V O L → log_holds l' L → (∃ order, bc_ok s' order) → (∀ c, view s' c = V' c) →
  (∀ k, core (getb s' k) = core (getb s k)) → dsk s' = dsk s → (∀ c, V' c = V c) →
  log_rep (LState l' s') V' O L.
Proof.
  intros [_ R2 R3 R4 R5 R6 R7 R8 R9] Hl Hok Hv Hc Hd HV. cbn [bc] in *.
  assert (∀ k, valid (getb s' k) = valid (getb s k) ∧ dev (getb s' k) = dev (getb s k) ∧
    blockno (getb s' k) = blockno (getb s k) ∧ lock (getb s' k) = lock (getb s k) ∧
    refcnt (getb s' k) = refcnt (getb s k) ∧ data (getb s' k) = data (getb s k)) as F
    by (intros k; apply core_inj, Hc).
  assert (∀ k c, caches s k c → caches s' k c) as Hca.
  { intros k c (H1 & H2 & H3). destruct (F k) as (_ & E1 & E2 & _). unfold caches. by rewrite E1, E2. }
  constructor; cbn [bc lg]; try done.
  - intros i b d H. destruct (R3 i b d H) as (H1 & H2 & H3). destruct (F i) as (E1 & _ & _ & E2 & _).
    split; [by apply Hca | by rewrite E1, E2].
  - intros k Hk H. destruct (F k) as (_ & _ & _ & -> & _). by apply R4.
  - intros k Hk. unfold pins. destruct (F k) as (_ & E1 & E2 & _ & -> & _). rewrite R5 by done. unfold pins.
    by rewrite E1, E2.
  - intros c H. destruct (R6 c H) as (k & H1 & H2). exists k. destruct (F k) as (-> & _). auto.
  - intros i b H. rewrite Hd, HV. by apply (R7 i).
  - congruence.
Qed.

Lemma log_rep_range s V O L i b d : log_rep s V O L → O !! i = Some (b, d) → 0 <= i < NBUF.
Proof. intros H Ho. by destruct (lr_open _ _ _ _ H i b d Ho) as ((? & _) & _). Qed.

(** The number of logged blocks. *)
Lemma log_holds_size l L : log_holds l L → Z.of_nat (card L) = lh_n l.
Proof.
  intros H. pose proof (lh_wf _ _ H) as Hwf. pose proof (lw_n _ Hwf) as Hn.
  assert (L = list_to_set (map (lh_at l) (seqZ 0 (lh_n l)))) as ->.
  { apply set_eq. intros c. rewrite (lh_logged _ _ H), elem_of_list_to_set. split.
    - intros (t & Ht & <-). apply list_elem_of_fmap_2, elem_of_seqZ. lia.
    - intros Hc. apply list_elem_of_fmap in Hc as (t & -> & Ht). apply elem_of_seqZ in Ht.
      exists t. split; [lia | done]. }
  rewrite size_list_to_set by apply Hwf. rewrite length_map, length_seqZ. lia.
Qed.

(** With few buffers in use one is free. *)
Lemma free_buffer s V O L :
  log_rep s V O L → (card O + card L < Z.to_nat NBUF)%nat →
  ∃ i, 0 <= i < NBUF ∧ refcnt (getb (bc s) i) = 0.
Proof.
  intros H Hsz. destruct (lr_ok _ _ _ _ H) as [order Hok].
  destruct (decide (Exists (λ i, refcnt (getb (bc s) i) = 0) (seqZ 0 NBUF))) as [He | Hne].
  { apply Exists_exists in He as (i & Hi & He). apply elem_of_seqZ in Hi. exists i. split; [lia | done]. }
  exfalso. assert (∀ k, k ∈ seqZ 0 NBUF → refcnt (getb (bc s) k) ≠ 0) as Hall.
  { intros k Hk E. apply Hne, Exists_exists. by exists k. }
  (* every buffer is open, or is the one that caches a logged block *)
  set (f := λ c, default 0 (List.find (λ i, (dev (getb (bc s) i) =? ROOTDEV) && (blockno (getb (bc s) i) =? c)) (seqZ 0 NBUF))).
  assert (seqZ 0 NBUF ⊆ (map_to_list O).*1 ++ map f (elements L)) as Hsub.
  { intros k Hk. pose proof (Hall k Hk) as Hr. pose proof Hk as Hk'. apply elem_of_seqZ in Hk'.
    rewrite (lr_ref _ _ _ _ H) in Hr by lia. apply elem_of_app.
    destruct (decide (is_Some (O !! k))) as [[v Hv] |].
    - left. apply list_elem_of_fmap. exists (k, v). split; [done |]. by apply elem_of_map_to_list.
    - right. unfold pins in Hr. case_bool_decide as Hp; [| lia]. destruct Hp as [Hd Hb].
      apply list_elem_of_fmap. exists (blockno (getb (bc s) k)). split; [| by apply elem_of_elements].
      unfold f. destruct (List.find _ _) as [j |] eqn:E.
      + apply find_first_in in E as [Hj E]. apply elem_of_seqZ in Hj. apply andb_true_iff in E as [E1 E2].
        apply Z.eqb_eq in E1, E2. simpl. apply (bc_uniq _ _ Hok k j (blockno (getb (bc s) k)));
          (split; [lia | done]).
      + apply (find_first_none _ _ k) in E; [| done]. cbv beta in E. by rewrite Hd, !Z.eqb_refl in E. }
  apply NoDup_submseteq in Hsub; [| apply NoDup_seqZ]. apply submseteq_length in Hsub.
  rewrite length_app, length_fmap, length_map, length_map_to_list, length_seqZ in Hsub.
  change (length (elements L)) with (card L) in Hsub. lia.
Qed.

Lemma pins_holds L s i b : caches s i b → pins L s i = bool_decide (b ∈ L).
Proof.
  intros (_ & Hd & Hb). unfold pins. rewrite Hd, Hb. apply bool_decide_ext. naive_solver.
Qed.

Lemma pins_ext L s s' k : core (getb s' k) = core (getb s k) → pins L s' k = pins L s k.
Proof. intros H. apply core_inj in H as (_ & E1 & E2 & _). unfold pins. by rewrite E1, E2. Qed.

(** The buffer [bread] picks is not open, and is the pinned one when the block
    is logged. *)
Lemma opens_fresh l s s1 V O L i b :
  log_rep (LState l s) V O L → opens s s1 i b →
  O !! i = None ∧ pins L s i = bool_decide (b ∈ L) ∧ (b ∉ L → refcnt (getb s i) = 0).
Proof.
  intros H Ho. destruct (op_caches _ _ _ _ _ Ho) as (Hi & _).
  assert (O !! i = None) as Hn.
  { destruct (O !! i) as [[c d] |] eqn:E; [| done]. destruct (lr_open _ _ _ _ H i c d E) as (_ & _ & Hl).
    cbn [bc] in Hl. pose proof (op_free _ _ _ _ _ Ho) as Hf. by rewrite Hl in Hf. }
  split; [done |].
  pose proof (lr_ref _ _ _ _ H i Hi) as Hr. cbn [bc] in Hr. rewrite Hn in Hr.
  rewrite decide_False in Hr by (intros [? ?]; done).
  destruct (op_evict _ _ _ _ _ Ho) as [Hc | [H0 Hno]].
  - rewrite (pins_holds L s i b Hc) in *. split; [done |]. intros Hb. by rewrite Hr, bool_decide_false.
  - split; [| done]. rewrite H0 in Hr. destruct (pins L s i); [lia |].
    rewrite bool_decide_false; [done |]. intros Hb. destruct (lr_pin _ _ _ _ H b Hb) as (k & Hc & _).
    by destruct (Hno k).
Qed.

Lemma log_bread_ok s V O L b :
  log_rep s V O L → ¬ is_open O b → (card O + card L < Z.to_nat NBUF)%nat →
  runs [] (lbread mypid ROOTDEV b) s (λ i s', O !! i = None ∧ log_rep s' V (<[i := (b, false)]> O) L).
Proof.
  intros H Hno Hsz w n. destruct (lr_ok _ _ _ _ H) as [order Hok].
  destruct (free_buffer s V O L H Hsz) as (f & Hf & Hf0). destruct s as [l s]. cbn [bc] in *.
  destruct (bread_ok mypid s order b [] w n Hok) as (i & s1 & E & Hok1 & Ho); [| apply bio_free_nil |].
  { split; [| right; by exists f]. intros k Hc. pose proof Hc as (Hk & _ & Hb).
    destruct (O !! k) as [[c d] |] eqn:Ek.
    - destruct Hno. exists k, d. destruct (lr_open _ _ _ _ H k c d Ek) as ((_ & _ & Hc') & _).
      cbn [bc] in Hc'. rewrite Ek. do 2 f_equal. congruence.
    - split; [by apply (lr_lock _ _ _ _ H) |]. pose proof (lr_ref _ _ _ _ H k Hk) as Hr. cbn [bc] in Hr.
      rewrite Hr. destruct (decide _), (pins _ _ _); lia. }
  destruct (opens_fresh l s s1 V O L i b H Ho) as (Hn & Hp & H0).
  pose proof (op_caches _ _ _ _ _ Ho) as Hci. pose proof Hci as (Hi & _).
  assert (pins L s1 i = pins L s i) as Hp1 by (by rewrite Hp, (pins_holds L s1 i b)).
  exists i, [], (LState l s1), w. split; [by apply lift_bc |]. split; [done |]. split; [done |].
  destruct H as [_ R2 R3 R4 R5 R6 R7 R8 R9]. cbn [bc] in *. constructor; cbn [bc lg].
  - by exists order.
  - intros c. by rewrite (op_view _ _ _ _ _ Ho).
  - intros j c d. destruct (decide (j = i)) as [-> | Hj].
    + rewrite lookup_insert_eq. intros [= <- <-]. by apply (opens_holds mypid s).
    + rewrite lookup_insert_ne by done. intros Hj'. unfold BioInv.holds, caches.
      rewrite (op_other _ _ _ _ _ Ho) by done. by apply (R3 j c d).
  - intros k Hk. destruct (decide (k = i)) as [-> | Hne]; [by rewrite lookup_insert_eq |].
    rewrite lookup_insert_ne by done. rewrite (op_other _ _ _ _ _ Ho) by done. by apply R4.
  - intros k Hk. destruct (decide (k = i)) as [-> | Hne].
    + rewrite lookup_insert_eq, decide_True by done. rewrite (op_refcnt _ _ _ _ _ Ho), R5, Hn, Hp1 by done.
      rewrite decide_False by (intros [? ?]; done). lia.
    + rewrite lookup_insert_ne by done. rewrite (pins_ext L s s1 k) by (by rewrite (op_other _ _ _ _ _ Ho)).
      rewrite (op_other _ _ _ _ _ Ho) by done. by apply R5.
  - intros c Hc. destruct (R6 c Hc) as (k & Hck & Hv). destruct (decide (k = i)) as [-> | Hne].
    + exists i. destruct (op_evict _ _ _ _ _ Ho) as [(_ & _ & Hb) | [Hr0 _]].
      * destruct Hck as (_ & _ & Hb'). rewrite Hb in Hb'. subst c. split; [done | apply Ho].
      * exfalso. pose proof (R5 i Hi) as Hr. rewrite Hr0, (pins_holds L s i c Hck), bool_decide_true in Hr by done.
        destruct (decide _); lia.
    + exists k. unfold caches. by rewrite (op_other _ _ _ _ _ Ho).
  - intros j c. rewrite (op_dsk _ _ _ _ _ Ho). destruct (decide (j = i)) as [-> | Hj].
    + rewrite lookup_insert_eq. intros [= <-]. destruct (decide (b ∈ L)) as [| Hb]; [by left | right].
      rewrite <- R2. apply (unref_clean s order i b Hok); [| by apply H0].
      destruct (op_evict _ _ _ _ _ Ho) as [? | [_ ?]]; [by left | by right].
    + rewrite lookup_insert_ne by done. apply R7.
  - done.
  - by rewrite (op_dsk _ _ _ _ _ Ho).
Qed.

Lemma log_data_ok s V O L i b d :
  log_rep s V O L → O !! i = Some (b, d) →
  runs [] (lift bcL (bdata i)) s (λ v s', v = V b ∧ log_rep s' V O L).
Proof.
  intros H Ho. destruct s as [l s]. apply runs_lift, runs_gets. cbn [lget lput bcL bc lg]. split; [| done].
  destruct (lr_ok _ _ _ _ H) as [order Hok]. rewrite <- (lr_view _ _ _ _ H). symmetry.
  apply (holds_view mypid s order i b Hok). by apply (lr_open _ _ _ _ H i b d).
Qed.

Lemma log_store_ok s V O L i b d v :
  log_rep s V O L → O !! i = Some (b, d) → is_block v →
  runs [] (lift bcL (bstore i v)) s (λ _ s', log_rep s' (<[b := v]> V) (<[i := (b, true)]> O) L).
Proof.
  intros H Ho Hv w n. destruct s as [l s]. destruct (lr_ok _ _ _ _ H) as [order Hok]. cbn [bc] in Hok.
  pose proof (lr_open _ _ _ _ H i b d Ho) as Hh. cbn [bc] in Hh.
  destruct (bstore_ok mypid s order i b v (Ctx [] w n) Hok Hh Hv) as (E & Hok1 & V1).
  set (s1 := setb i _ s) in *. exists tt, [], (LState l s1), w.
  split; [by apply lift_bc |]. split; [done |]. pose proof Hh as ((Hi & Hd & Hb) & Hva & Hl).
  assert (∀ k, getb s1 k = if i =? k then set_data v (getb s i) else getb s k) as G.
  { intros k. apply getb_setb; [apply Hok | unfold HEAD; lia]. }
  assert (∀ k, valid (getb s1 k) = valid (getb s k) ∧ dev (getb s1 k) = dev (getb s k) ∧
    blockno (getb s1 k) = blockno (getb s k) ∧ lock (getb s1 k) = lock (getb s k) ∧
    refcnt (getb s1 k) = refcnt (getb s k)) as F.
  { intros k. rewrite G. by destruct (Z.eqb_spec i k) as [<- |]. }
  assert (∀ k c, caches s k c → caches s1 k c) as Hca.
  { intros k c (H1 & H2 & H3). destruct (F k) as (_ & E1 & E2 & _). unfold caches. by rewrite E1, E2. }
  destruct H as [_ R2 R3 R4 R5 R6 R7 R8 R9]. cbn [bc lg] in *. constructor; cbn [bc lg].
  - by exists order.
  - intros c. rewrite V1. destruct (Z.eqb_spec c b) as [-> |].
    + by rewrite fn_lookup_insert.
    + by rewrite fn_lookup_insert_ne.
  - intros j c dd Hj. assert (∃ d', O !! j = Some (c, d')) as [d' Hj'].
    { destruct (decide (j = i)) as [-> | Hne]; [rewrite lookup_insert_eq in Hj | rewrite lookup_insert_ne in Hj by done];
        [injection Hj as <- <- |]; eauto. }
    destruct (R3 j c d' Hj') as (H1 & H2 & H3). destruct (F j) as (E1 & _ & _ & E2 & _).
    split; [by apply Hca | by rewrite E1, E2].
  - intros k Hk Hn. destruct (F k) as (_ & _ & _ & -> & _). apply R4; [done |].
    destruct (decide (k = i)) as [-> | Hne]; [by rewrite lookup_insert_eq in Hn | by rewrite lookup_insert_ne in Hn].
  - intros k Hk. destruct (F k) as (_ & E1 & E2 & _ & ->). rewrite R5 by done. unfold pins. rewrite E1, E2. f_equal.
    destruct (decide (k = i)) as [-> | Hne]; [rewrite lookup_insert_eq, Ho | by rewrite lookup_insert_ne].
    by rewrite !decide_True by done.
  - intros c Hc. destruct (R6 c Hc) as (k & H1 & H2). exists k. destruct (F k) as (-> & _). auto.
  - intros j c Hj. destruct (decide (j = i)) as [-> | Hne]; [by rewrite lookup_insert_eq in Hj |].
    rewrite lookup_insert_ne in Hj by done. change (dsk s1) with (dsk s).
    assert (c ≠ b) as Hcb.
    { intros ->. destruct (R3 j b false Hj) as (Hcj & _). apply Hne. apply (bc_uniq _ _ Hok j i b); [done | apply Hh]. }
    rewrite fn_lookup_insert_ne by done. by apply (R7 j).
  - done.
  - done.
Qed.

Lemma log_holds_logging l L b :
  log_holds l L → log_home b → lh_n l < LOGSIZE → lh_n l < nlog - 1 → log_holds (logging l b) ({[b]} ∪ L).
Proof.
  intros [H1 H2 H3 H4 H5 H6 H6' H7 H8] Hb HR1 HR2.
  assert (ldev (logging l b) = ldev l ∧ start (logging l b) = start l ∧ Log.size (logging l b) = Log.size l ∧
    outstanding (logging l b) = outstanding l ∧ committing (logging l b) = committing l) as (E1 & E2 & E3 & E4 & E5) by (unfold logging; by destruct (_ =? _)).
  constructor; rewrite ?E1, ?E2, ?E3, ?E4, ?E5; try done.
  - apply logging_wf; [done | done | apply Hb].
  - destruct (logging_n l b H1) as [[_ ->] | [_ ->]]; lia.
  - intros c. rewrite (logging_logged l b c H1 HR1), elem_of_union, elem_of_singleton, H7. tauto.
  - intros c Hc. apply elem_of_union in Hc as [Hc | Hc]; [apply elem_of_singleton in Hc as -> | auto]; done.
Qed.

(** Pins after one more block is logged. *)
Lemma pins_logged order L s i b k :
  bc_ok s order → caches s i b → 0 <= k < NBUF →
  pins ({[b]} ∪ L) s k = if k =? i then true else pins L s k.
Proof.
  intros Hok Hc Hk. destruct (Z.eqb_spec k i) as [-> | Hne].
  - rewrite (pins_holds _ s i b Hc). apply bool_decide_true. set_solver.
  - unfold pins. apply bool_decide_ext. rewrite elem_of_union, elem_of_singleton. split; [| tauto].
    intros [Hd [Hb | Hb]]; [| done]. destruct Hne. apply (bc_uniq _ _ Hok k i b); [| done]. done.
Qed.

Lemma log_write_law s V O L i b d :
  log_rep s V O L → O !! i = Some (b, d) → log_home b → (card L < Z.to_nat (Z.min LOGSIZE (nlog - 1)))%nat →
  runs [] (log_write i) s (λ _ s', log_rep s' V (<[i := (b, false)]> O) ({[b]} ∪ L)).
Proof.
  intros H Ho Hhome Hsz w n. destruct s as [l s]. destruct (lr_ok _ _ _ _ H) as [order Hok]. cbn [bc] in Hok.
  pose proof (lr_open _ _ _ _ H i b d Ho) as Hh. cbn [bc] in Hh. pose proof (lr_log _ _ _ _ H) as Hl. cbn [lg] in Hl.
  pose proof Hh as (Hc & Hva & Hlk). pose proof Hc as (Hi & _).
  pose proof (log_holds_size l L Hl) as Hcard. pose proof (lr_ref _ _ _ _ H i Hi) as Hr. cbn [bc] in Hr.
  rewrite Ho, decide_True, (pins_holds L s i b Hc) in Hr by done.
  destruct (log_write_run l s order i b [] w n) as (E & Hok1 & V1);
    [apply Hl | lia | rewrite (lh_size _ _ Hl); lia | apply Hl | apply Hhome | done | done
    | destruct (bool_decide _); lia | apply bio_free_nil | apply not_elem_of_nil |].
  set (s1 := if _ =? _ then _ else _) in *.
  assert (∀ k, core (getb s1 k) = core (if (k =? i) && negb (bool_decide (b ∈ L))
    then set_refcnt 2 (getb s i) else getb s k)) as G.
  { intros k. unfold s1. destruct (logging_n l b (lh_wf _ _ Hl)) as [[Hlg _] | [Hlg _]].
    - destruct (log_index_hit l b (lh_wf _ _ Hl) Hlg). destruct (Z.eqb_spec (log_index l b) (lh_n l)); [lia |].
      rewrite (bool_decide_true (b ∈ L)) by (by apply (lh_logged _ _ Hl)). by rewrite andb_false_r.
    - rewrite (log_index_miss l b (lh_wf _ _ Hl) Hlg), Z.eqb_refl.
      assert (b ∉ L) as HbL by (by rewrite (lh_logged _ _ Hl)).
      rewrite (bool_decide_false (b ∈ L)) in * by done.
      rewrite getb_setb by (first [apply Hok | unfold HEAD; lia]). rewrite (Z.eqb_sym k), Hr.
      by destruct (Z.eqb_spec i k) as [<- |]. }
  assert (∀ k, valid (getb s1 k) = valid (getb s k) ∧ dev (getb s1 k) = dev (getb s k) ∧
    blockno (getb s1 k) = blockno (getb s k) ∧ lock (getb s1 k) = lock (getb s k)) as F.
  { intros k. destruct (core_inj _ _ (G k)) as (-> & -> & -> & -> & _).
    destruct (Z.eqb_spec k i) as [-> |], (bool_decide _); done. }
  assert (∀ k c, caches s k c → caches s1 k c) as Hca.
  { intros k c (H1 & H2 & H3). destruct (F k) as (_ & E1 & E2 & _). unfold caches. by rewrite E1, E2. }
  assert (dsk s1 = dsk s) as Hd by (unfold s1; by destruct (_ =? _)).
  assert (∀ j c dd, <[i:=(b, false)]> O !! j = Some (c, dd) → ∃ d', O !! j = Some (c, d') ∧ (j ≠ i → d' = dd)) as HO.
  { intros j c dd Hj. destruct (decide (j = i)) as [-> | Hne].
    - rewrite lookup_insert_eq in Hj. injection Hj as <- <-. by exists d.
    - rewrite lookup_insert_ne in Hj by done. by exists dd. }
  exists tt, [], (LState (logging l b) s1), w. split; [done |]. split; [done |].
  destruct H as [_ R2 R3 R4 R5 R6 R7 R8 R9]. cbn [bc lg] in *. constructor; cbn [bc lg].
  - by exists order.
  - intros c. by rewrite V1.
  - intros j c dd Hj. destruct (HO j c dd Hj) as (d' & Hj' & _). destruct (R3 j c d' Hj') as (H1 & H2 & H3).
    destruct (F j) as (E1 & _ & _ & E2). split; [by apply Hca | by rewrite E1, E2].
  - intros k Hk Hn. destruct (F k) as (_ & _ & _ & ->). apply R4; [done |].
    by apply lookup_insert_None in Hn as [? _].
  - intros k Hk. destruct (core_inj _ _ (G k)) as (_ & _ & _ & _ & -> & _).
    unfold pins at 1. destruct (F k) as (_ & -> & -> & _). fold (pins ({[b]} ∪ L) s k).
    rewrite (pins_logged order L s i b k Hok Hc Hk). destruct (Z.eqb_spec k i) as [-> | Hne].
    + rewrite lookup_insert_eq, decide_True by done. destruct (bool_decide (b ∈ L)); cbn; lia.
    + rewrite lookup_insert_ne by done. by apply R5.
  - intros c Hcl. apply elem_of_union in Hcl as [Hcl | Hcl].
    + apply elem_of_singleton in Hcl as ->. exists i. destruct (F i) as (-> & _). auto.
    + destruct (R6 c Hcl) as (k & H1 & H2). exists k. destruct (F k) as (-> & _). auto.
  - intros j c Hj. rewrite Hd. destruct (HO j c false Hj) as (d' & Hj' & Hne).
    destruct (decide (j = i)) as [-> | Hji].
    + rewrite lookup_insert_eq in Hj. injection Hj as <-. left. set_solver.
    + rewrite Hne in Hj' by done. destruct (R7 j c Hj'); [left; set_solver | by right].
  - apply log_holds_logging; [done | done | lia | lia].
  - congruence.
Qed.

Lemma log_brelse_ok s V O L i b :
  log_rep s V O L → O !! i = Some (b, false) →
  runs [] (lbrelse mypid i) s (λ _ s', log_rep s' V (delete i O) L).
Proof.
  intros H Ho w n. destruct s as [l s]. destruct (lr_ok _ _ _ _ H) as [order Hok]. cbn [bc] in Hok.
  pose proof (lr_open _ _ _ _ H i b false Ho) as Hh. cbn [bc] in Hh.
  pose proof Hh as (Hc & Hva & Hlk). pose proof Hc as (Hi & _).
  pose proof (lr_ref _ _ _ _ H i Hi) as Hr. cbn [bc] in Hr.
  rewrite Ho, decide_True, (pins_holds L s i b Hc) in Hr by done.
  destruct (brelse_ok mypid s order i b [] w n Hok Hh) as (s1 & E & Hok1 & R); [| apply bio_free_nil |].
  { intros H1. rewrite <- (holds_view mypid s order i b Hok Hh).
    pose proof (lr_view _ _ _ _ H b) as Hv. cbn [bc] in Hv. rewrite Hv.
    destruct (lr_clean _ _ _ _ H i b Ho) as [Hb | ?]; [| done]. rewrite bool_decide_true in Hr by done. lia. }
  eexists tt, [], (LState l s1), _. split; [by apply lift_bc |]. split; [done |].
  assert (∀ k, valid (getb s1 k) = valid (getb s k) ∧ dev (getb s1 k) = dev (getb s k) ∧
    blockno (getb s1 k) = blockno (getb s k)) as F.
  { intros k. destruct (decide (k = i)) as [-> | Hne].
    - by destruct (rl_keep _ _ _ R) as (-> & -> & -> & _).
    - by destruct (core_inj _ _ (rl_other _ _ _ R k Hne)) as (-> & -> & -> & _). }
  assert (∀ k c, caches s k c → caches s1 k c) as Hca.
  { intros k c (H1 & H2 & H3). destruct (F k) as (_ & E1 & E2). unfold caches. by rewrite E1, E2. }
  destruct H as [_ R2 R3 R4 R5 R6 R7 R8 R9]. cbn [bc lg] in *. constructor; cbn [bc lg].
  - by eexists.
  - intros c. by rewrite (rl_view _ _ _ R).
  - intros j c d Hj. apply lookup_delete_Some in Hj as [Hne Hj]. destruct (R3 j c d Hj) as (H1 & H2 & H3).
    destruct (F j) as (E1 & _). destruct (core_inj _ _ (rl_other _ _ _ R j (not_eq_sym Hne))) as (_ & _ & _ & E4 & _).
    split; [by apply Hca | by rewrite E1, E4].
  - intros k Hk Hn. destruct (decide (k = i)) as [-> | Hne]; [by rewrite (rl_lock _ _ _ R) |].
    rewrite lookup_delete_ne in Hn by done.
    destruct (core_inj _ _ (rl_other _ _ _ R k Hne)) as (_ & _ & _ & -> & _). by apply R4.
  - intros k Hk. unfold pins. destruct (F k) as (_ & -> & ->). fold (pins L s k).
    destruct (decide (k = i)) as [-> | Hne].
    + rewrite lookup_delete_eq, decide_False, (rl_refcnt _ _ _ R), R5, Ho, decide_True by (done || by intros [? ?]). lia.
    + rewrite lookup_delete_ne by done.
      destruct (core_inj _ _ (rl_other _ _ _ R k Hne)) as (_ & _ & _ & _ & -> & _). by apply R5.
  - intros c Hcl. destruct (R6 c Hcl) as (k & H1 & H2). exists k. destruct (F k) as (-> & _). auto.
  - intros j c Hj. apply lookup_delete_Some in Hj as [_ Hj]. rewrite (rl_dsk _ _ _ R). by apply (R7 j).
  - done.
  - by rewrite (rl_dsk _ _ _ R).
Qed.

#[local] Existing Instance log_store.

(** The cache and the log are a block store. *)
Program Definition log_store_laws : BlockStoreLaws lstate := {|
  bs_rep := log_rep;
  bs_home := log_home;
  bs_room := Z.to_nat (Z.min LOGSIZE (nlog - 1));
  bs_bufs := Z.to_nat NBUF;
  bs_bread_ok := log_bread_ok;
  bs_data_ok := log_data_ok;
  bs_store_ok := log_store_ok;
  bs_log_write_ok := log_write_law;
  bs_brelse_ok := log_brelse_ok |}.
Next Obligation.
  intros [l s] V V' O L HV H. apply (log_rep_bufs l l s s V); try done; try apply H.
  intros c. rewrite <- HV. apply H.
Qed.
Next Obligation.
  intros s V O L c H. rewrite <- (lr_view _ _ _ _ H). destruct (lr_ok _ _ _ _ H) as [order Hok].
  by apply (view_block _ order).
Qed.

(** An open transaction with no buffer held, and back. *)
Lemma txn_log_rep l s :
  txn_open l s → start l = logstart → Log.size l = nlog → dsk s = D → outstanding l = nout → committing l = false →
  log_rep (LState l s) (view s) ∅ (list_to_set (map (lh_at l) (seqZ 0 (lh_n l)))).
Proof.
  intros Hop Hs Hz HD Ho Hcm. pose proof (to_txn _ _ Hop) as Htx. pose proof (to_idle _ _ Hop) as Hid.
  set (L := list_to_set _). assert (∀ c, c ∈ L ↔ logged l c) as HL.
  { intros c. unfold L. rewrite elem_of_list_to_set. split.
    - intros Hc. apply list_elem_of_fmap in Hc as (t & -> & Ht). apply elem_of_seqZ in Ht. exists t. split; [lia | done].
    - intros (t & Ht & <-). apply list_elem_of_fmap_2, elem_of_seqZ. lia. }
  assert (∀ c, c ∈ L → ∃ k, caches s k c ∧ valid (getb s k) = true ∧ refcnt (getb s k) = 1) as Hpin.
  { intros c Hc. apply HL in Hc as (t & Ht & <-). by apply (tx_pin _ _ Htx). }
  destruct (id_ok _ Hid) as [order Hok].
  constructor; cbn [bc lg]; try done.
  - by exists order.
  - intros k Hk _. by apply Hid.
  - intros k Hk. rewrite lookup_empty, decide_False by (intros [? ?]; done). unfold pins.
    pose proof (bc_ref _ _ Hok k Hk). pose proof (id_ref _ Hid k Hk). case_bool_decide as Hp.
    + destruct Hp as [Hd Hb]. destruct (Hpin _ Hb) as (k' & Hc & _ & Hr).
      rewrite (bc_uniq _ _ Hok k k' (blockno (getb s k))); [done | by split | done].
    + destruct (Z.eq_dec (refcnt (getb s k)) 0) as [| Hr]; [done |]. destruct Hp.
      destruct (tx_only _ _ Htx k Hk Hr) as (t & Ht & _ & Hd & ->). split; [done |]. apply HL. by exists t.
  - intros c Hc. destruct (Hpin c Hc) as (k & H1 & H2 & _). by exists k.
  - destruct (tx_n _ _ Htx) as [Hn1 Hn2]. constructor; try done.
    + by apply (txn_open_wf l s).
    + apply Htx.
    + lia.
    + apply Hop.
    + intros c Hc. apply HL in Hc as (t & Ht & <-). destruct (tx_block _ _ Htx t Ht) as [H1 H2].
      rewrite Hs, Hz in H2. done.
Qed.

Lemma log_rep_txn l s V L :
  log_rep (LState l s) V ∅ L → txn_ok l s ∧ idle s ∧ ((card L < Z.to_nat NBUF)%nat → spare s 1).
Proof.
  intros H. destruct (lr_ok _ _ _ _ H) as [order Hok]. pose proof (lr_log _ _ _ _ H) as Hl. cbn [lg bc] in *.
  assert (∀ k, 0 <= k < NBUF → refcnt (getb s k) = if pins L s k then 1 else 0) as Hr.
  { intros k Hk. pose proof (lr_ref _ _ _ _ H k Hk) as Hr. cbn [bc] in Hr.
    rewrite lookup_empty, decide_False in Hr by (intros [? ?]; done). done. }
  split; [constructor | split; [constructor |]].
  - apply Hl.
  - pose proof (lw_n _ (lh_wf _ _ Hl)). rewrite (lh_size _ _ Hl). split; [done | apply Hl].
  - intros t Ht. destruct (lh_home _ _ Hl (lh_at l t)) as [H1 H2]; [apply (lh_logged _ _ Hl); by exists t |].
    by rewrite (lh_start _ _ Hl), (lh_size _ _ Hl).
  - apply (lh_wf _ _ Hl).
  - intros t Ht. assert (lh_at l t ∈ L) as HL by (apply (lh_logged _ _ Hl); by exists t).
    destruct (lr_pin _ _ _ _ H _ HL) as (k & Hc & Hv). exists k. split; [done |]. split; [done |].
    destruct Hc as (Hk & Hd & Hb). rewrite Hr by done. unfold pins. rewrite bool_decide_true; [done |].
    split; [done |]. cbn [bc] in Hb. by rewrite Hb.
  - intros k Hk Hne. rewrite Hr in Hne by done. unfold pins in Hne. case_bool_decide as Hp; [| done].
    destruct Hp as [Hd Hb]. apply (lh_logged _ _ Hl) in Hb as (t & Ht & Et). exists t. by rewrite Et.
  - by exists order.
  - intros k Hk. by apply (lr_lock _ _ _ _ H).
  - intros k Hk. rewrite Hr by done. destruct (pins _ _ _); lia.
  - intros Hc. destruct (free_buffer _ _ _ _ H) as (f & Hf & H0); [by rewrite map_size_empty |]. cbn [bc] in H0.
    exists [f]. split; [apply NoDup_singleton |]. split; [done |]. by intros ? ->%list_elem_of_singleton.
Qed.

End store.
