(* ===== verification/FsAlloc.v ===== *)
(** * The block allocator of fs.c

    The bitmap as a set of used blocks; [balloc] and [bfree] against the block
    store of Store.v. *)

From S2P Require Import Prelude Abi Monad Riscv Block Sleeplock Wp Store Fs.

(** ** Bits *)

Lemma bit_set_testbit v bi : bit_set v bi = Z.testbit (get_byte v (bi / 8)) (bi mod 8).
Proof.
  unfold bit_set. set (x := get_byte _ _). set (k := bi mod 8).
  assert (0 <= k) as Hk by (apply Z.mod_pos_bound; lia).
  rewrite Z.shiftl_1_l. destruct (Z.testbit x k) eqn:E.
  - destruct (Z.eqb_spec (Z.land x (2 ^ k)) 0) as [E0 |]; [| done].
    apply (f_equal (λ y, Z.testbit y k)) in E0.
    by rewrite Z.land_spec, E, Z.pow2_bits_true, Z.bits_0 in E0.
  - replace (Z.land x (2 ^ k)) with 0; [done |]. apply Z.bits_inj'. intros j Hj.
    rewrite Z.bits_0, Z.land_spec. destruct (Z.eq_dec j k) as [-> |].
    + by rewrite E.
    + rewrite Z.pow2_bits_false by lia. by rewrite andb_false_r.
Qed.

Lemma get_byte_zset v i j x :
  is_block v → 0 <= i < BSIZE → get_byte (zset v i x) j = if i =? j then x else get_byte v j.
Proof.
  intros [Hl _] Hi. unfold get_byte. rewrite zget_zset by (rewrite Hl; unfold BSIZE in *; lia).
  by destruct (i =? j).
Qed.

Lemma get_byte_range v i : is_block v → 0 <= get_byte v i < 2 ^ 8.
Proof.
  intros [_ Hb]. unfold get_byte. destruct (zget v i) as [b |] eqn:E; cbn [default from_option id]; [| lia].
  unfold zget in E. destruct (i <? 0); [done |].
  exact (Forall_lookup_1 _ _ _ _ Hb E).
Qed.

Lemma is_block_zset v i x : is_block v → 0 <= x < 2 ^ 8 → is_block (zset v i x).
Proof.
  intros [Hl Hb] Hx. split; [by rewrite length_zset |]. unfold zset. destruct (i <? 0); [done |].
  by apply Forall_insert.
Qed.

Lemma bit_index bi : 0 <= bi < BPB → 0 <= bi / 8 < BSIZE ∧ 0 <= bi mod 8 < 8.
Proof. unfold BPB, BSIZE. intros. split; dlia. Qed.

Lemma bit_index_eq i j : i / 8 = j / 8 → i mod 8 = j mod 8 → i = j.
Proof. intros. dlia. Qed.

Lemma bit_set_set v i j :
  is_block v → 0 <= i < BPB → bit_set (set_bit v i) j = (i =? j) || bit_set v j.
Proof.
  intros Hv Hi. destruct (bit_index i Hi) as [H1 H2]. rewrite !bit_set_testbit. unfold set_bit.
  rewrite get_byte_zset by done. rewrite Z.shiftl_1_l.
  assert (0 <= j mod 8) by (apply Z.mod_pos_bound; lia).
  destruct (Z.eqb_spec (i / 8) (j / 8)) as [E | E].
  - rewrite <- E, Z.lor_spec, Z.pow2_bits_eqb by lia. rewrite orb_comm.
    destruct (Z.eqb_spec i j) as [<- | Hne]; [by rewrite Z.eqb_refl |].
    destruct (Z.eqb_spec (i mod 8) (j mod 8)); [by destruct Hne; apply bit_index_eq | done].
  - destruct (Z.eqb_spec i j) as [<- |]; [done | done].
Qed.

Lemma bit_set_clear v i j :
  is_block v → 0 <= i < BPB → bit_set (clear_bit v i) j = negb (i =? j) && bit_set v j.
Proof.
  intros Hv Hi. destruct (bit_index i Hi) as [H1 H2]. rewrite !bit_set_testbit. unfold clear_bit.
  rewrite get_byte_zset by done. rewrite Z.shiftl_1_l.
  assert (0 <= j mod 8 < 8) by (apply Z.mod_pos_bound; lia).
  destruct (Z.eqb_spec (i / 8) (j / 8)) as [E | E].
  - rewrite <- E. unfold u8. rewrite Z.mod_pow2_bits_low, Z.land_spec, Z.lnot_spec, Z.pow2_bits_eqb by lia.
    rewrite andb_comm. destruct (Z.eqb_spec i j) as [<- | Hne]; [by rewrite Z.eqb_refl |].
    destruct (Z.eqb_spec (i mod 8) (j mod 8)); [by destruct Hne; apply bit_index_eq | done].
  - destruct (Z.eqb_spec i j) as [<- |]; [done | done].
Qed.

Lemma is_block_set_bit v i : is_block v → 0 <= i → is_block (set_bit v i).
Proof.
  intros Hv Hi. apply is_block_zset; [done |]. apply lor_range; [lia | by apply get_byte_range |].
  rewrite Z.shiftl_1_l. assert (0 <= i mod 8 < 8) by (apply Z.mod_pos_bound; lia).
  split; [apply Z.pow_nonneg; lia | apply Z.pow_lt_mono_r; lia].
Qed.

Lemma is_block_clear_bit v i : is_block v → is_block (clear_bit v i).
Proof. intros Hv. apply is_block_zset; [done | apply u8_range]. Qed.

Section alloc.
Context {B M : Type} `{HB : BlockStoreLaws B} `{!Memory M}.
Implicit Types (s : fstate B M) (V : contents) (O : opened) (L : gset Z).

Definition with_blk s (b : B) : fstate B M := FState (fsb s) (itable s) b (kmem s).

Lemma run_blk {A} (m : K B A) s (Q : A → B → Prop) :
  runs [] m (blk s) Q → runs [] (lift blkL m) s (λ a s', ∃ b, s' = with_blk s b ∧ Q a b).
Proof.
  intros H. apply runs_lift. eapply runs_conseq; [exact H |]. intros a b Hq. by exists b.
Qed.

(** ** Disk layout *)

(** The bitmap block and bit of block [b]. *)
Definition used (sb : superblock) V (b : Z) : bool := bit_set (V (BBLOCK b sb)) (b mod BPB).

(** Blocks that hold file data: the last [nblocks] blocks. *)
Definition is_data (sb : superblock) (b : Z) : Prop := sb_size sb - sb_nblocks sb <= b < sb_size sb.

(** The layout mkfs makes: log, inodes, bitmap, data. *)
Record geom (sb : superblock) : Prop := {
  g_size : 0 < sb_size sb < 2 ^ 31;
  g_nblocks : 0 <= sb_nblocks sb;
  g_inodes : 0 < sb_ninodes sb < 2 ^ 16;
  g_inode : ∀ n, 0 <= n < sb_ninodes sb → sb_inodestart sb <= IBLOCK n sb < sb_bmapstart sb;
  g_bmap : ∀ b, 0 <= b < sb_size sb → sb_bmapstart sb <= BBLOCK b sb < sb_size sb - sb_nblocks sb;
  g_start : 1 < sb_inodestart sb;
  g_home : ∀ b, sb_inodestart sb <= b < sb_size sb → bs_home b }.

(** The bitmap blocks. *)
Definition bitmap (sb : superblock) : gset Z :=
  list_to_set (map (λ b, BBLOCK b sb) (bmap_starts (sb_size sb))).

(** The transaction may log [n] more blocks besides bitmap blocks, with [k] more
    buffers open at a time. *)
Definition room_for (sb : superblock) O L (n k : nat) : Prop :=
  (size (L ∪ bitmap sb) + n < bs_room ∧ size O + k + size (L ∪ bitmap sb) + n <= bs_bufs)%nat.

Lemma room_open sb O L n k : room_for sb O L n (S k) → (size O + size L < bs_bufs)%nat.
Proof.
  intros [_ H]. assert (size L <= size (L ∪ bitmap sb))%nat by (apply subseteq_size; set_solver). lia.
Qed.

Lemma room_opened sb O L n k i x :
  O !! i = None → room_for sb O L n (S k) → room_for sb (<[i := x]> O) L n k.
Proof. intros Hi [H1 H2]. split; [done |]. rewrite map_size_insert_None by done. lia. Qed.

Lemma room_log sb O L n k : room_for sb O L n k → (size L < bs_room)%nat.
Proof.
  intros [H _]. assert (size L <= size (L ∪ bitmap sb))%nat by (apply subseteq_size; set_solver). lia.
Qed.

Lemma room_logged sb O L n k b : room_for sb O L (S n) k → room_for sb O ({[b]} ∪ L) n k.
Proof.
  intros [H1 H2].
  assert (size ({[b]} ∪ L ∪ bitmap sb) <= S (size (L ∪ bitmap sb)))%nat; [| split; lia].
  rewrite <- (union_assoc_L {[b]} L), size_union_alt, size_singleton.
  assert (size ((L ∪ bitmap sb) ∖ {[b]}) <= size (L ∪ bitmap sb))%nat by (apply subseteq_size; set_solver). lia.
Qed.

Lemma room_logged_again sb O L n k b :
  b ∈ L ∨ b ∈ bitmap sb → room_for sb O L n k → room_for sb O ({[b]} ∪ L) n k.
Proof.
  intros Hb [H1 H2]. unfold room_for. replace ({[b]} ∪ L ∪ bitmap sb) with (L ∪ bitmap sb) by set_solver. done.
Qed.

Lemma room_less sb O L n n' k k' :
  room_for sb O L n k → (n' <= n)%nat → (k' <= k)%nat → room_for sb O L n' k'.
Proof. intros [H1 H2] Hn Hk. split; lia. Qed.

(** ** Changing a block *)

(** [bread(dev, b)] *)
Lemma bread_f s V O L b :
  bs_rep (blk s) V O L → ¬ is_open O b → (size O + size L < bs_bufs)%nat →
  runs [] (bread ROOTDEV b) s (λ i s', ∃ b', s' = with_blk s b' ∧ O !! i = None ∧
    bs_rep b' V (<[i := (b, false)]> O) L).
Proof. intros H Ho Hn. apply run_blk. by apply bs_bread_ok. Qed.

Lemma bdata_f s V O L i b d :
  bs_rep (blk s) V O L → O !! i = Some (b, d) →
  runs [] (bdata i) s (λ v s', ∃ b', s' = with_blk s b' ∧ v = V b ∧ bs_rep b' V O L).
Proof. intros H Ho. apply run_blk. by apply (bs_data_ok _ _ _ _ i b d). Qed.

Lemma brelse_f s V O L i b :
  bs_rep (blk s) V (<[i := (b, false)]> O) L → O !! i = None →
  runs [] (brelse i) s (λ _ s', ∃ b', s' = with_blk s b' ∧ bs_rep b' V O L).
Proof.
  intros H Ho. apply run_blk. eapply runs_conseq; [eapply bs_brelse_ok; [exact H |] |].
  { apply lookup_insert_eq. }
  intros ? b' H'. by rewrite delete_insert_id in H'.
Qed.

(** [b->data = v; log_write(b)], the buffer staying open *)
Lemma store_log s V O L i b v :
  bs_rep (blk s) V (<[i := (b, false)]> O) L → is_block v → bs_home b → (size L < bs_room)%nat →
  runs [] (bstore i v ;; log_write i) s (λ _ s', ∃ b', s' = with_blk s b' ∧
    bs_rep b' (<[b := v]> V) (<[i := (b, false)]> O) ({[b]} ∪ L)).
Proof.
  intros H Hv Hb Hn. eapply runs_bind.
  { apply run_blk. eapply bs_store_ok; [exact H | apply lookup_insert_eq | done]. }
  cbv beta. intros _ s1 (b1 & -> & H1). rewrite insert_insert_eq in H1.
  eapply runs_conseq; [apply run_blk; eapply bs_log_write_ok; [exact H1 | apply lookup_insert_eq | done | done] |].
  cbv beta. intros _ s2 (b2 & -> & H2). rewrite insert_insert_eq in H2. by exists b2.
Qed.

(** [b->data = v; log_write(b); brelse(b)] *)
Lemma store_log_relse s V O L i b v :
  bs_rep (blk s) V (<[i := (b, false)]> O) L → O !! i = None → is_block v → bs_home b →
  (size L < bs_room)%nat →
  runs [] (bstore i v ;; log_write i ;; brelse i) s (λ _ s', ∃ b', s' = with_blk s b' ∧
    bs_rep b' (<[b := v]> V) O ({[b]} ∪ L)).
Proof.
  intros H Ho Hv Hb Hn. eapply runs_bind.
  { apply run_blk. eapply bs_store_ok; [exact H | apply lookup_insert_eq | done]. }
  cbv beta. intros _ s1 (b1 & -> & H1). rewrite insert_insert_eq in H1. eapply runs_bind.
  { apply run_blk. eapply bs_log_write_ok; [exact H1 | apply lookup_insert_eq | done | done]. }
  cbv beta. intros _ s2 (b2 & -> & H2). rewrite insert_insert_eq in H2.
  eapply runs_conseq; [eapply brelse_f; [exact H2 | done] |].
  intros ? s3 (b3 & -> & H3). by exists b3.
Qed.

Lemma bzero_f s V O L b :
  bs_rep (blk s) V O L → ¬ is_open O b → (size O + size L < bs_bufs)%nat → bs_home b →
  (size L < bs_room)%nat →
  runs [] (bzero ROOTDEV b) s (λ _ s', ∃ b', s' = with_blk s b' ∧
    bs_rep b' (<[b := zero_block]> V) O ({[b]} ∪ L)).
Proof.
  intros H Ho Hn Hb Hr. eapply runs_bind; [by apply (bread_f _ _ _ _ _ H) |].
  cbv beta. intros i s1 (b1 & -> & Hi & H1).
  eapply runs_conseq; [eapply store_log_relse; [exact H1 | done | apply is_block_zero | done | done] |].
  intros ? s2 (b2 & -> & H2). by exists b2.
Qed.

(** ** The bitmap *)

Lemma bmap_start_of size b :
  0 <= b < size → (b / BPB * BPB) ∈ bmap_starts size ∧ BBLOCK b = BBLOCK (b / BPB * BPB).
Proof.
  intros Hb. assert (BPB = 8192) as E by done. split.
  - unfold bmap_starts. apply list_elem_of_fmap. exists (b / BPB). split; [done |]. apply elem_of_seqZ.
    rewrite E. dlia.
  - unfold BBLOCK. rewrite E, Z.div_mul by lia. done.
Qed.

Lemma bmap_starts_in size b :
  b ∈ bmap_starts size → ∃ k, b = k * BPB ∧ 0 <= b < size.
Proof.
  intros Hb. apply list_elem_of_fmap in Hb as (k & -> & Hk). apply elem_of_seqZ in Hk.
  assert (BPB = 8192) as E by done. rewrite E in *. exists k. split; [done |]. dlia.
Qed.

Lemma in_bitmap sb b : 0 <= b < sb_size sb → BBLOCK b sb ∈ bitmap sb.
Proof.
  intros Hb. unfold bitmap. apply elem_of_list_to_set, list_elem_of_fmap.
  destruct (bmap_start_of _ b Hb) as [H1 H2]. exists (b / BPB * BPB). by rewrite H2.
Qed.

(** Marking block [a], and zeroing it. *)
Definition allocated (sb : superblock) V (a : Z) : contents :=
  <[a := zero_block]> (<[BBLOCK a sb := set_bit (V (BBLOCK a sb)) (a mod BPB)]> V).

Definition freed (sb : superblock) V (a : Z) : contents :=
  <[BBLOCK a sb := clear_bit (V (BBLOCK a sb)) (a mod BPB)]> V.

Lemma BBLOCK_not_data sb b a : geom sb → 0 <= b < sb_size sb → is_data sb a → BBLOCK b sb ≠ a.
Proof. intros Hg Hb Ha. pose proof (g_bmap _ Hg b Hb). unfold is_data in Ha. lia. Qed.

Lemma bit_pos_eq sb a b : BBLOCK a sb = BBLOCK b sb → a mod BPB = b mod BPB → a = b.
Proof. unfold BBLOCK. assert (BPB = 8192) as -> by done. intros. dlia. Qed.

Lemma BPB_mod a : 0 <= a mod BPB < BPB.
Proof. apply Z.mod_pos_bound. done. Qed.

Lemma used_allocated sb V a b :
  geom sb → is_block (V (BBLOCK a sb)) → is_data sb a → 0 <= a → 0 <= b < sb_size sb →
  used sb (allocated sb V a) b = (a =? b) || used sb V b.
Proof.
  intros Hg Hv Ha Ha0 Hb. unfold used, allocated.
  rewrite fn_lookup_insert_ne by (by apply not_eq_sym, BBLOCK_not_data).
  destruct (Z.eq_dec (BBLOCK a sb) (BBLOCK b sb)) as [E | E].
  - rewrite E, fn_lookup_insert, bit_set_set by (first [by rewrite <- E | apply BPB_mod]).
    destruct (Z.eqb_spec a b) as [<- | Hne]; [by rewrite Z.eqb_refl |].
    destruct (Z.eqb_spec (a mod BPB) (b mod BPB)); [by destruct Hne; apply (bit_pos_eq sb) | done].
  - rewrite fn_lookup_insert_ne by done. by destruct (Z.eqb_spec a b) as [<- |].
Qed.

Lemma used_freed sb V a b :
  is_block (V (BBLOCK a sb)) → used sb (freed sb V a) b = negb (a =? b) && used sb V b.
Proof.
  intros Hv. unfold used, freed. destruct (Z.eq_dec (BBLOCK a sb) (BBLOCK b sb)) as [E | E].
  - rewrite E, fn_lookup_insert, bit_set_clear by (first [by rewrite <- E | apply BPB_mod]).
    destruct (Z.eqb_spec a b) as [<- | Hne]; [by rewrite Z.eqb_refl |].
    destruct (Z.eqb_spec (a mod BPB) (b mod BPB)); [by destruct Hne; apply (bit_pos_eq sb) | done].
  - rewrite fn_lookup_insert_ne by done. by destruct (Z.eqb_spec a b) as [<- |].
Qed.

(** ** balloc and bfree *)

(** While blocks are allocated and freed the buffers held are of data blocks in
    use (the indirect block of a file). *)
Definition opens_used (sb : superblock) V O : Prop :=
  ∀ b, is_open O b → is_data sb b ∧ used sb V b = true.

(** The blocks in front of the data blocks are marked used. *)
Definition meta_used (sb : superblock) V : Prop :=
  ∀ b, 0 <= b < sb_size sb → ¬ is_data sb b → used sb V b = true.

Lemma bitmap_closed sb V O b : geom sb → opens_used sb V O → 0 <= b < sb_size sb → ¬ is_open O (BBLOCK b sb).
Proof. intros Hg Ho Hb H. apply Ho in H as [H _]. by destruct (BBLOCK_not_data sb b _ Hg Hb H). Qed.

Lemma BBLOCK_home sb b : geom sb → 0 <= b < sb_size sb → bs_home (BBLOCK b sb).
Proof.
  intros Hg Hb. apply (g_home _ Hg). pose proof (g_bmap _ Hg b Hb).
  pose proof (g_inode _ Hg 0 ltac:(pose proof (g_inodes _ Hg); lia)). pose proof (g_nblocks _ Hg). lia.
Qed.

Lemma bfree_f s V O L b :
  geom (fsb s) → bs_rep (blk s) V O L → opens_used (fsb s) V O → 0 <= b < sb_size (fsb s) →
  used (fsb s) V b = true → room_for (fsb s) O L 0 1 →
  runs [] (bfree ROOTDEV b) s (λ _ s', ∃ b', s' = with_blk s b' ∧
    bs_rep b' (freed (fsb s) V b) O ({[BBLOCK b (fsb s)]} ∪ L)).
Proof.
  intros Hg H Ho Hb Hu Hr. set (sb := fsb s) in *. unfold bfree. rstep. fold sb.
  eapply runs_bind; [eapply bread_f; [exact H | by apply (bitmap_closed sb V) | by apply (room_open sb _ _ 0 0)] |].
  cbv beta. intros i s1 (b1 & -> & Hi & H1).
  eapply runs_bind; [eapply bdata_f; [exact H1 | apply lookup_insert_eq] |].
  cbv beta. intros v s2 (b2 & -> & -> & H2). cbv zeta.
  unfold used in Hu. rewrite Hu. cbn [negb].
  eapply runs_conseq; [eapply store_log_relse; [exact H2 | done | apply is_block_clear_bit | by apply BBLOCK_home |] |].
  - by apply (bs_rep_block _ _ _ _ _ H).
  - by apply (room_log sb O L 0 1).
  - intros ? s3 (b3 & -> & H3). by exists b3.
Qed.

Lemma free_bit_Some v b size bi :
  free_bit v b size = Some bi → 0 <= bi < BPB ∧ b + bi < size ∧ bit_set v bi = false.
Proof.
  unfold free_bit. intros H. apply find_some in H as [Hin Hn].
  apply list_elem_of_In, elem_of_seqZ in Hin. apply negb_true_iff in Hn. split; [lia |]. split; [lia | done].
Qed.

Lemma free_bit_None v b size bi :
  free_bit v b size = None → 0 <= bi < BPB → b + bi < size → bit_set v bi = true.
Proof.
  unfold free_bit. intros H Hi Hs. apply negb_false_iff, (find_none _ _ H bi).
  apply list_elem_of_In, elem_of_seqZ. lia.
Qed.

(** What [balloc] returns. *)
Definition fresh (sb : superblock) V (a : Z) : Prop := is_data sb a ∧ 0 <= a ∧ used sb V a = false.

Lemma chunk_block sb k b bi :
  b = k * BPB → 0 <= bi < BPB → BBLOCK (b + bi) sb = BBLOCK b sb ∧ (b + bi) mod BPB = bi.
Proof.
  intros -> Hbi. assert (BPB = 8192) as E by done. unfold BBLOCK. rewrite E in *.
  rewrite Z.div_mul by lia. split; [f_equal |]; dlia.
Qed.

Lemma balloc_scan s V O L l :
  geom (fsb s) → bs_rep (blk s) V O L → opens_used (fsb s) V O → meta_used (fsb s) V →
  room_for (fsb s) O L 1 1 → (∀ b, b ∈ l → b ∈ bmap_starts (sb_size (fsb s))) →
  runs [] (for_find l (λ b,
    bp <- bread ROOTDEV (BBLOCK b (fsb s)) ;;
    v <- bdata bp ;;
    match free_bit v b (sb_size (fsb s)) with
    | Some bi =>
        bstore bp (set_bit v bi) ;;
        log_write bp ;;
        brelse bp ;;
        bzero ROOTDEV (b + bi) ;;
        ret (Some (b + bi))
    | None => brelse bp ;; ret None
    end)) s (λ r s', ∃ b', s' = with_blk s b' ∧
      match r with
      | None => bs_rep b' V O L ∧
          ∀ b, 0 <= b < sb_size (fsb s) → b / BPB * BPB ∈ l → used (fsb s) V b = true
      | Some a => fresh (fsb s) V a ∧
          bs_rep b' (allocated (fsb s) V a) O ({[a]} ∪ ({[BBLOCK a (fsb s)]} ∪ L))
      end).
Proof.
  intros Hg H Ho Hm Hr. revert s Hg H Ho Hm Hr. induction l as [| b l IH]; intros s Hg H Ho Hm Hr Hl.
  { apply runs_ret. exists (blk s). split; [by destruct s |]. split; [done |]. intros b _ Hb.
    by apply not_elem_of_nil in Hb. }
  set (sb := fsb s) in *. destruct (bmap_starts_in _ _ (Hl b ltac:(left))) as (k & Hk & Hbr).
  cbn [for_find]. eapply runs_bind with (R := λ r s', ∃ b', s' = with_blk s b' ∧
    match r with
    | None => bs_rep b' V O L ∧ ∀ c, 0 <= c < sb_size sb → c / BPB * BPB = b → used sb V c = true
    | Some a => fresh sb V a ∧ bs_rep b' (allocated sb V a) O ({[a]} ∪ ({[BBLOCK a sb]} ∪ L))
    end).
  - eapply runs_bind; [eapply bread_f; [exact H | by apply (bitmap_closed sb V) | by apply (room_open sb _ _ 1 0)] |].
    cbv beta. intros i s1 (b1 & -> & Hi & H1).
    eapply runs_bind; [eapply bdata_f; [exact H1 | apply lookup_insert_eq] |].
    cbv beta. intros v s2 (b2 & -> & -> & H2). pose proof (bs_rep_block _ _ _ _ (BBLOCK b sb) H) as Hv.
    destruct (free_bit _ b _) as [bi |] eqn:E.
    + apply free_bit_Some in E as (Hbi & Hs & Hclr). destruct (chunk_block sb k b bi Hk Hbi) as [EB EM].
      assert (fresh sb V (b + bi)) as Hf.
      { assert (used sb V (b + bi) = false) as Hu by (unfold used; by rewrite EB, EM).
        split; [| split; [lia | done]]. destruct (decide (sb_size sb - sb_nblocks sb <= b + bi)); [by split |].
        rewrite Hm in Hu; [done | lia |]. unfold is_data. lia. }
      eapply runs_seq3; [eapply store_log_relse; [exact H2 | done | apply is_block_set_bit; [done | lia]
        | by apply BBLOCK_home | by apply (room_log sb O L 1 1)] |].
      cbv beta. intros _ s3 (b3 & -> & H3).
      assert (room_for sb O ({[BBLOCK b sb]} ∪ L) 1 1) as Hr1.
      { apply room_logged_again; [right; by apply in_bitmap | done]. }
      destruct Hf as (Hd & Hf0 & Hu).
      eapply runs_bind; [eapply bzero_f; [exact H3 | | by apply (room_open sb _ _ 1 0) | | by apply (room_log sb O _ 1 1)] |].
      * intros Hop. apply Ho in Hop as [_ Hop]. congruence.
      * apply (g_home _ Hg).
        pose proof (g_inode _ Hg 0 ltac:(pose proof (g_inodes _ Hg); lia)).
        pose proof (g_bmap _ Hg 0 ltac:(pose proof (g_size _ Hg); lia)). unfold is_data in Hd. lia.
      * cbv beta. intros _ s4 (b4 & -> & H4). apply runs_ret. exists b4. split; [done |].
        split; [done |]. unfold allocated. by rewrite EB, EM.
    + eapply runs_bind; [eapply brelse_f; [exact H2 | done] |]. cbv beta. intros _ s3 (b3 & -> & H3).
      apply runs_ret. exists b3. split; [done |]. split; [done |]. intros c Hc Ec.
      assert (BPB = 8192) as EP by done.
      apply (free_bit_None _ _ _ (c mod BPB)) in E; [| apply BPB_mod |].
      * unfold used. replace (BBLOCK c sb) with (BBLOCK b sb); [done |].
        unfold BBLOCK. rewrite <- Ec, EP in *. rewrite Z.div_mul by lia. done.
      * rewrite <- Ec, EP. dlia.
  - cbv beta. intros [a |] s1 (b1 & -> & H1).
    + apply runs_ret. by exists b1.
    + destruct H1 as [H1 Hb]. eapply runs_conseq; [apply (IH (with_blk s b1)); try done |].
      { intros c Hc. apply Hl. by right. }
      intros r s2 (b2 & -> & H2). exists b2. split; [done |]. destruct r; [done |]. destruct H2 as [H2 H3].
      split; [done |]. intros c Hc Hin. apply elem_of_cons in Hin as [E | Hin]; [by apply Hb | by apply H3].
Qed.

Lemma balloc_f s V O L :
  geom (fsb s) → bs_rep (blk s) V O L → opens_used (fsb s) V O → meta_used (fsb s) V →
  room_for (fsb s) O L 1 1 → (∃ b, 0 <= b < sb_size (fsb s) ∧ used (fsb s) V b = false) →
  runs [] (balloc ROOTDEV) s (λ a s', ∃ b', s' = with_blk s b' ∧ fresh (fsb s) V a ∧
    bs_rep b' (allocated (fsb s) V a) O ({[a]} ∪ ({[BBLOCK a (fsb s)]} ∪ L))).
Proof.
  intros Hg H Ho Hm Hr (f & Hf & Hfree). unfold balloc. rstep.
  eapply runs_bind; [apply (balloc_scan s V O L _ Hg H Ho Hm Hr); done |].
  cbv beta. intros [a |] s1 (b1 & -> & H1).
  - apply runs_ret. by exists b1.
  - destruct H1 as [_ Hall]. rewrite Hall in Hfree; [done | done |]. by apply bmap_start_of.
Qed.

Lemma room_allocated sb O L n k a :
  0 <= a < sb_size sb → room_for sb O L (S n) k → room_for sb O ({[a]} ∪ ({[BBLOCK a sb]} ∪ L)) n k.
Proof.
  intros Ha Hr. apply room_logged, room_logged_again; [right; by apply in_bitmap | done].
Qed.
End alloc.
