(* ===== verification/FsFile.v ===== *)
(** * File contents: bmap, readi, writei

    A file is the list of its block addresses, direct and indirect; its
    contents are the bytes of those blocks. *)

From S2P Require Import Prelude Abi Monad Riscv Block Sleeplock Wp Store Fs FsAlloc.

Section file.
Context {B M : Type} `{HB : BlockStoreLaws B} `{!Memory M}.
Implicit Types (s : fstate B M) (V : contents) (i : inode) (sb : superblock) (L : gset Z).

(** ** The blocks of a file *)

(** The address of block [bn] of the file, 0 when there is none. *)
Definition faddr V i (bn : Z) : Z :=
  if bn <? NDIRECT then addr i bn
  else if addr i NDIRECT =? 0 then 0
  else get32 (V (addr i NDIRECT)) (4 * (bn - NDIRECT)).

(** All blocks the inode refers to; number [MAXFILE] is the indirect block. *)
Definition slot V i (k : Z) : Z := if k =? MAXFILE then addr i NDIRECT else faddr V i k.

Definition in_slots (k : Z) : Prop := 0 <= k <= MAXFILE.

(** The addresses are distinct blocks of the data area that the bitmap knows to
    be in use, and every block up to the size of the file is there. *)
Record file_ok sb V i : Prop := {
  fo_dev : idev i = ROOTDEV;
  fo_len : length (addrs i) = 13%nat;
  fo_slot : ∀ k, in_slots k → slot V i k ≠ 0 → is_data sb (slot V i k) ∧ used sb V (slot V i k) = true;
  fo_inj : ∀ k k', in_slots k → in_slots k' → slot V i k ≠ 0 → slot V i k = slot V i k' → k = k';
  fo_size : 0 <= isize i <= MAXFILE * BSIZE;
  fo_full : ∀ k, 0 <= k → k * BSIZE < isize i → faddr V i k ≠ 0 }.

Definition fblock V i (k : Z) : block := if faddr V i k =? 0 then zero_block else V (faddr V i k).

(** The byte at offset [o]. *)
Definition fbyte V i (o : Z) : Z := get_byte (fblock V i (o / BSIZE)) (o mod BSIZE).

Definition fcontent V i : list Z := map (fbyte V i) (seqZ 0 (isize i)).

Lemma slot_direct V i k : 0 <= k < NDIRECT → slot V i k = addr i k.
Proof.
  intros Hk. unfold slot, faddr. assert (MAXFILE = 268 ∧ NDIRECT = 12) as [E1 E2] by done.
  destruct (Z.eqb_spec k MAXFILE); [lia |]. destruct (Z.ltb_spec k NDIRECT); [done | lia].
Qed.

Lemma slot_faddr V i k : 0 <= k < MAXFILE → slot V i k = faddr V i k.
Proof. intros Hk. unfold slot. destruct (Z.eqb_spec k MAXFILE); [lia | done]. Qed.

Lemma slot_indirect V i : slot V i MAXFILE = addr i NDIRECT.
Proof. unfold slot. by rewrite Z.eqb_refl. Qed.

Lemma slot_entry V i k :
  NDIRECT <= k < MAXFILE →
  slot V i k = if addr i NDIRECT =? 0 then 0 else get32 (V (addr i NDIRECT)) (4 * (k - NDIRECT)).
Proof.
  intros Hk. rewrite slot_faddr by (unfold NDIRECT in *; lia). unfold faddr.
  destruct (Z.ltb_spec k NDIRECT); [lia | done].
Qed.

Lemma data_pos sb b : geom sb → is_data sb b → 0 < b < 2 ^ 31 ∧ b < sb_size sb.
Proof.
  intros Hg Hb. pose proof (g_inode _ Hg 0 ltac:(pose proof (g_inodes _ Hg); lia)).
  pose proof (g_bmap _ Hg 0 ltac:(pose proof (g_size _ Hg); lia)). pose proof (g_start _ Hg).
  pose proof (g_size _ Hg). unfold is_data in Hb. lia.
Qed.

Lemma in_bitmap_inv sb b : b ∈ bitmap sb → ∃ c, 0 <= c < sb_size sb ∧ b = BBLOCK c sb.
Proof.
  unfold bitmap. intros H. apply elem_of_list_to_set, list_elem_of_fmap in H as (c & -> & Hc).
  apply bmap_starts_in in Hc as (_ & _ & Hc). by exists c.
Qed.

Lemma data_not_bitmap sb b : geom sb → is_data sb b → b ∉ bitmap sb.
Proof.
  intros Hg Hb H. apply in_bitmap_inv in H as (c & Hc & ->). by destruct (BBLOCK_not_data sb c _ Hg Hc Hb).
Qed.

(** The bitmap is as before when only other blocks changed. *)
Lemma used_ext sb V V' b :
  (∀ c, c ∈ bitmap sb → V' c = V c) → 0 <= b < sb_size sb → used sb V' b = used sb V b.
Proof. intros H Hb. unfold used. by rewrite H by (by apply in_bitmap). Qed.

Lemma addr_set_addr i k a j :
  length (addrs i) = 13%nat → 0 <= k <= NDIRECT → addr (set_addr k a i) j = if k =? j then a else addr i j.
Proof.
  intros Hl Hk. unfold addr, set_addr. cbn [addrs set_addrs].
  rewrite zget_zset by (rewrite Hl; unfold NDIRECT in *; lia). by destruct (k =? j).
Qed.

(** ** A file getting blocks *)

(** From [V], [i] to [V'], [i']: the file keeps its blocks and gets fresh ones,
    and blocks that belong to other files, and other metadata, stay. *)
Record file_step sb V i V' i' : Prop := {
  st_ok : file_ok sb V' i';
  st_meta : meta_used sb V';
  st_used : ∀ b, 0 <= b < sb_size sb → used sb V b = true → used sb V' b = true;
  st_new : ∀ b, 0 <= b < sb_size sb → used sb V' b = true →
     used sb V b = true ∨ ∃ k, in_slots k ∧ slot V' i' k = b ∧ b ≠ 0;
  st_keep : ∀ k, in_slots k → slot V i k ≠ 0 → slot V' i' k = slot V i k;
  st_slot : ∀ k, in_slots k → slot V' i' k ≠ 0 →
     slot V i k = slot V' i' k ∨ used sb V (slot V' i' k) = false;
  st_frame : ∀ c, c ∉ bitmap sb → (∀ k, in_slots k → slot V i k ≠ 0 → slot V i k ≠ c) →
     (is_data sb c → used sb V c = true) → V' c = V c;
  st_same : idev i' = idev i ∧ inum i' = inum i ∧ iref i' = iref i ∧ ilk i' = ilk i ∧
     ivalid i' = ivalid i ∧ itype i' = itype i ∧ major i' = major i ∧ minor i' = minor i ∧
     nlink i' = nlink i }.

Lemma file_step_refl sb V i : file_ok sb V i → meta_used sb V → file_step sb V i V i.
Proof. intros H Hm. constructor; auto 10. Qed.

Lemma file_step_trans sb V1 i1 V2 i2 V3 i3 :
  geom sb → file_step sb V1 i1 V2 i2 → file_step sb V2 i2 V3 i3 → file_step sb V1 i1 V3 i3.
Proof.
  intros Hg [A1 A2 A3 A4 A5 A6 A7 A8] [B1 B2 B3 B4 B5 B6 B7 B8]. constructor; try done.
  - auto.
  - intros b Hb Hu. destruct (B4 b Hb Hu) as [Hu2 | ?]; [| by right].
    destruct (A4 b Hb Hu2) as [? | (k & Hk & E & Hne)]; [by left | right]. exists k. split; [done |].
    rewrite B5 by congruence. done.
  - intros k Hk Hne. rewrite B5; [by apply A5 | done | by rewrite A5].
  - intros k Hk Hne. destruct (B6 k Hk Hne) as [E | Hu].
    + rewrite <- E in *. auto.
    + right. destruct (used sb V1 (slot V3 i3 k)) eqn:E; [| done].
      destruct (fo_slot _ _ _ B1 k Hk Hne) as [Hd _]. apply data_pos in Hd; [| done].
      rewrite A3 in Hu; [done | lia | done].
  - intros c Hc Hs Hd. rewrite B7; [by apply A7 | done | |].
    + intros k Hk Hne E. destruct (A6 k Hk Hne) as [E' | Hu]; [apply (Hs k); congruence |].
      destruct (fo_slot _ _ _ A1 k Hk Hne) as [Hd' _]. rewrite E in *. rewrite Hd in Hu; done.
    + intros Hdc. pose proof (data_pos _ _ Hg Hdc). apply A3; [lia | auto].
  - naive_solver congruence.
Qed.

(** ** One block more *)

(** [V'], [i'] give the file the fresh block [a] in the empty slot [k0]. *)
Record fills sb V i V' i' (k0 a : Z) : Prop := {
  fi_fresh : fresh sb V a;
  fi_slot0 : in_slots k0 ∧ slot V i k0 = 0;
  fi_slots : ∀ k, in_slots k → slot V' i' k = if k =? k0 then a else slot V i k;
  fi_used : ∀ b, 0 <= b < sb_size sb → used sb V' b = (a =? b) || used sb V b;
  fi_frame : ∀ c, c ∉ bitmap sb → c ≠ a → (addr i NDIRECT ≠ 0 → c ≠ addr i NDIRECT) → V' c = V c;
  fi_zero : k0 ≠ MAXFILE → V' a = zero_block;
  fi_len : length (addrs i') = 13%nat;
  fi_size : isize i' = isize i;
  fi_same : idev i' = idev i ∧ inum i' = inum i ∧ iref i' = iref i ∧ ilk i' = ilk i ∧
     ivalid i' = ivalid i ∧ itype i' = itype i ∧ major i' = major i ∧ minor i' = minor i ∧
     nlink i' = nlink i }.

Lemma slot_not_fresh sb V i k a :
  file_ok sb V i → in_slots k → fresh sb V a → slot V i k ≠ 0 → slot V i k ≠ a.
Proof. intros H Hk (_ & _ & Hu) Hne E. destruct (fo_slot _ _ _ H k Hk Hne) as [_ Hu']. congruence. Qed.

Lemma fills_step sb V i V' i' k0 a :
  geom sb → file_ok sb V i → meta_used sb V → fills sb V i V' i' k0 a → file_step sb V i V' i'.
Proof.
  intros Hg Hok Hm [Hf [Hk0 H0] Hs Hu Hfr Hz Hl Hsz Hsame]. pose proof Hf as (Hda & Ha0 & Hua).
  pose proof (data_pos _ _ Hg Hda) as Hap.
  assert (∀ k, in_slots k → slot V i k ≠ 0 → slot V' i' k = slot V i k ∧ k ≠ k0) as Hkeep.
  { intros k Hk Hne. rewrite Hs by done. destruct (Z.eqb_spec k k0); [congruence | done]. }
  constructor; [constructor | | | | | | |].
  - destruct Hsame as (-> & _). apply Hok.
  - done.
  - intros k Hk Hne. rewrite Hs in * by done. destruct (Z.eqb_spec k k0) as [-> |].
    + split; [done |]. rewrite Hu by lia. by rewrite Z.eqb_refl.
    + destruct (fo_slot _ _ _ Hok k Hk Hne) as [Hd Hus]. split; [done |]. pose proof (data_pos _ _ Hg Hd).
      rewrite Hu by lia. by rewrite Hus, orb_true_r.
  - intros k k' Hk Hk' Hne. rewrite !Hs in * by done.
    destruct (Z.eqb_spec k k0) as [-> |], (Z.eqb_spec k' k0) as [-> |]; intros E; try done.
    + destruct (slot_not_fresh sb V i k' a Hok Hk' Hf); congruence.
    + destruct (slot_not_fresh sb V i k a Hok Hk Hf); congruence.
    + by apply (fo_inj _ _ _ Hok).
  - rewrite Hsz. apply Hok.
  - intros k Hk Hlt. rewrite Hsz in Hlt. pose proof (fo_full _ _ _ Hok k Hk Hlt) as Hne.
    pose proof (fo_size _ _ _ Hok). assert (0 <= k < MAXFILE) as Hr.
    { assert (BSIZE = 1024) as E by done. rewrite E in *. lia. }
    rewrite <- slot_faddr in Hne by done. rewrite <- slot_faddr by done.
    assert (in_slots k) as Hks by (unfold in_slots; lia). by destruct (Hkeep k Hks Hne) as [-> _].
  - intros b Hb Hnd. rewrite Hu by done. by rewrite (Hm b Hb Hnd), orb_true_r.
  - intros b Hb Hub. rewrite Hu by done. by rewrite Hub, orb_true_r.
  - intros b Hb Hub. rewrite Hu in Hub by done. destruct (Z.eqb_spec a b) as [<- |]; [right | by left].
    exists k0. split; [done |]. rewrite Hs by done. rewrite Z.eqb_refl. split; [done | lia].
  - intros k Hk Hne. by apply Hkeep.
  - intros k Hk. rewrite Hs by done. destruct (Z.eqb_spec k k0) as [-> |]; [by right | by left].
  - intros c Hc Hns Hd. apply Hfr; [done | |].
    + intros ->. rewrite Hd in Hua; done.
    + intros Hne E. by apply (Hns MAXFILE); rewrite ?slot_indirect.
  - done.
Qed.

Lemma fills_fblock sb V i V' i' k0 a k :
  geom sb → file_ok sb V i → fills sb V i V' i' k0 a → 0 <= k < MAXFILE → fblock V' i' k = fblock V i k.
Proof.
  intros Hg Hok [Hf [Hk0 H0] Hs Hu Hfr Hz _ _ _] Hk. pose proof (data_pos _ _ Hg (proj1 Hf)) as Hap.
  assert (in_slots k) as Hks by (unfold in_slots; lia).
  unfold fblock. rewrite <- !slot_faddr by done. rewrite Hs by done. destruct (Z.eqb_spec k k0) as [-> | Hne].
  - rewrite H0. destruct (Z.eqb_spec a 0); [lia |]. cbn [Z.eqb]. apply Hz. lia.
  - destruct (Z.eqb_spec (slot V i k) 0) as [| Hn0]; [done |].
    destruct (fo_slot _ _ _ Hok k Hks Hn0) as [Hd _].
    apply Hfr; [by apply (data_not_bitmap sb) | by apply (slot_not_fresh sb) |].
    intros Hi E. rewrite <- (slot_indirect V) in E. apply (fo_inj _ _ _ Hok) in E; [lia | done | done | done].
Qed.

(** The three ways bmap does it. *)

Lemma allocated_other sb V a c : c ≠ a → c ∉ bitmap sb → 0 <= a < sb_size sb → allocated sb V a c = V c.
Proof.
  intros Hc Hb Ha. unfold allocated. rewrite !fn_lookup_insert_ne; [done | | done].
  intros <-. by apply Hb, in_bitmap.
Qed.

Lemma fills_direct sb V i k a :
  geom sb → (∀ c, is_block (V c)) → file_ok sb V i → 0 <= k < NDIRECT → addr i k = 0 → fresh sb V a →
  fills sb V i (allocated sb V a) (set_addr k a i) k a.
Proof.
  intros Hg Hb Hok Hk H0 Hf. pose proof Hf as (Hd & Ha0 & Hu). pose proof (data_pos _ _ Hg Hd).
  assert (MAXFILE = 268 ∧ NDIRECT = 12) as [EM EN] by done. pose proof (fo_len _ _ _ Hok) as Hl.
  constructor; try done.
  - split; [unfold in_slots; lia |]. by rewrite slot_direct.
  - intros j Hj. unfold in_slots in Hj. unfold slot, faddr. rewrite !addr_set_addr by (done || lia).
    rewrite (Z.eqb_sym j k). destruct (Z.eqb_spec k NDIRECT); [lia |].
    destruct (Z.eqb_spec j MAXFILE); [destruct (Z.eqb_spec k j); [lia | done] |].
    destruct (Z.ltb_spec j NDIRECT); [done |]. destruct (Z.eqb_spec k j); [lia |].
    destruct (Z.eqb_spec (addr i NDIRECT) 0) as [| Hne]; [done |]. f_equal. rewrite <- (slot_indirect V) in Hne.
    assert (in_slots MAXFILE) as Hin by (unfold in_slots; lia).
    destruct (fo_slot _ _ _ Hok MAXFILE Hin Hne) as [Hd' _]. rewrite <- (slot_indirect V).
    apply allocated_other; [by apply (slot_not_fresh sb) | by apply data_not_bitmap | lia].
  - intros b Hbr. by apply used_allocated.
  - intros c Hc Hca _. apply allocated_other; [done | done | lia].
  - intros _. unfold allocated. apply fn_lookup_insert.
  - unfold set_addr. cbn [addrs set_addrs]. by rewrite length_zset.
Qed.

Lemma fills_indirect sb V i a :
  geom sb → (∀ c, is_block (V c)) → file_ok sb V i → addr i NDIRECT = 0 → fresh sb V a →
  fills sb V i (allocated sb V a) (set_addr NDIRECT a i) MAXFILE a.
Proof.
  intros Hg Hb Hok H0 Hf. pose proof Hf as (Hd & Ha0 & Hu). pose proof (data_pos _ _ Hg Hd).
  assert (MAXFILE = 268 ∧ NDIRECT = 12) as [EM EN] by done. pose proof (fo_len _ _ _ Hok) as Hl.
  constructor; try done.
  - intros j Hj. unfold in_slots in Hj. unfold slot, faddr. rewrite !addr_set_addr by (done || lia).
    rewrite Z.eqb_refl. destruct (Z.eqb_spec j MAXFILE); [done |].
    destruct (Z.ltb_spec j NDIRECT); [destruct (Z.eqb_spec NDIRECT j); [lia | done] |].
    rewrite H0. cbn [Z.eqb]. destruct (Z.eqb_spec a 0); [lia |]. unfold allocated.
    rewrite fn_lookup_insert. apply get_le_zero.
  - intros b Hbr. by apply used_allocated.
  - intros c Hc Hca _. apply allocated_other; [done | done | lia].
  - unfold set_addr. cbn [addrs set_addrs]. by rewrite length_zset.
Qed.

Lemma fills_entry sb V i k a :
  geom sb → (∀ c, is_block (V c)) → file_ok sb V i → NDIRECT <= k < MAXFILE → addr i NDIRECT ≠ 0 →
  slot V i k = 0 → fresh sb V a →
  let e := addr i NDIRECT in
  let V1 := allocated sb V a in
  fills sb V i (<[e := put32 (V1 e) (4 * (k - NDIRECT)) a]> V1) i k a.
Proof.
  intros Hg Hb Hok Hk Hne H0 Hf e V1. pose proof Hf as (Hd & Ha0 & Hu). pose proof (data_pos _ _ Hg Hd).
  assert (MAXFILE = 268 ∧ NDIRECT = 12) as [EM EN] by done. pose proof (fo_len _ _ _ Hok) as Hl.
  assert (in_slots MAXFILE) as Hin by (unfold in_slots; lia).
  assert (slot V i MAXFILE = e) as Es by apply slot_indirect.
  destruct (fo_slot _ _ _ Hok MAXFILE Hin) as [Hde Hue]; [by rewrite Es |]. rewrite Es in Hde, Hue.
  assert (e ≠ a) as Hea by congruence.
  assert (V1 e = V e) as EV by (apply allocated_other; [done | by apply data_not_bitmap | lia]).
  assert (Z.of_nat (length (V e)) = 1024) as Hlen by (destruct (Hb e) as [-> _]; done).
  constructor; try done.
  - split; [unfold in_slots; lia | done].
  - intros j Hj. unfold in_slots in Hj. unfold slot, faddr. fold e. rewrite fn_lookup_insert.
    destruct (Z.eqb_spec j MAXFILE); [destruct (Z.eqb_spec j k); [lia | done] |].
    destruct (Z.ltb_spec j NDIRECT); [destruct (Z.eqb_spec j k); [lia | done] |].
    destruct (Z.eqb_spec e 0); [done |]. rewrite EV. destruct (Z.eqb_spec j k) as [-> | Hjk].
    + unfold get32, put32. rewrite get_put_eq by lia. apply Z.mod_small. lia.
    + unfold get32, put32. rewrite get_put_ne by lia. done.
  - intros b Hbr. rewrite (used_ext sb V1); [by apply used_allocated | | done].
    intros c Hc. apply fn_lookup_insert_ne. intros ->. by apply (data_not_bitmap sb c).
  - intros c Hc Hca Hce. rewrite fn_lookup_insert_ne by (by apply not_eq_sym, Hce).
    apply allocated_other; [done | done | lia].
  - intros _. rewrite fn_lookup_insert_ne by done. unfold V1, allocated. apply fn_lookup_insert.
Qed.

(** ** Free blocks *)

Definition nfree sb V : nat := length (filter (λ b, used sb V b = false) (seqZ 0 (sb_size sb))).

Lemma nfree_pos sb V : (0 < nfree sb V)%nat → ∃ b, 0 <= b < sb_size sb ∧ used sb V b = false.
Proof.
  unfold nfree. intros H. destruct (filter _ _) as [| b l] eqn:E; [simpl in H; lia |].
  assert (b ∈ filter (λ b, used sb V b = false) (seqZ 0 (sb_size sb))) as Hb by (rewrite E; left).
  apply list_elem_of_filter in Hb as [Hu Hb]. apply elem_of_seqZ in Hb. exists b. split; [lia | done].
Qed.

Lemma filter_ext_in (P P' : Z → Prop) `{!∀ x, Decision (P x), !∀ x, Decision (P' x)} (l : list Z) :
  (∀ x, x ∈ l → P' x ↔ P x) → filter P' l = filter P l.
Proof.
  induction l as [| x l IH]; [done |]. intros Hl. rewrite !filter_cons, IH by (intros y Hy; apply Hl; by right).
  assert (P' x ↔ P x) by (apply Hl; left). destruct (decide (P x)), (decide (P' x)); tauto.
Qed.

Lemma nfree_ext sb V V' : (∀ b, 0 <= b < sb_size sb → used sb V' b = used sb V b) → nfree sb V' = nfree sb V.
Proof.
  intros H. unfold nfree. f_equal. apply filter_ext_in. intros b Hb. apply elem_of_seqZ in Hb. by rewrite H by lia.
Qed.

Lemma filter_one_less (P P' : Z → Prop) `{!∀ x, Decision (P x), !∀ x, Decision (P' x)} (l : list Z) a :
  NoDup l → a ∈ l → P a → (∀ x, x ∈ l → P' x ↔ P x ∧ x ≠ a) →
  length (filter P l) = S (length (filter P' l)).
Proof.
  intros Hnd Ha HPa HP. apply list_elem_of_split in Ha as (l1 & l2 & ->).
  assert (a ∉ l1 ∧ a ∉ l2) as [H1 H2].
  { rewrite <- Permutation_middle in Hnd. apply NoDup_cons in Hnd as [Hn _]. by apply not_elem_of_app in Hn. }
  assert (∀ l' : list Z, a ∉ l' → (∀ x, x ∈ l' → x ∈ l1 ++ a :: l2) → filter P' l' = filter P l') as Hf.
  { intros l' Hn Hin. apply filter_ext_in. intros x Hx. rewrite HP by auto. split; [tauto |].
    intros ?. split; [done | congruence]. }
  rewrite !filter_app, !filter_cons, !length_app, decide_True by done.
  rewrite (decide_False (P := P' a)) by (rewrite HP; [tauto | set_solver]).
  rewrite !Hf by (done || set_solver). simpl. lia.
Qed.

Lemma nfree_fills sb V i V' i' k a :
  geom sb → fills sb V i V' i' k a → nfree sb V = S (nfree sb V').
Proof.
  intros Hg [(Hd & H0 & Hu) _ _ Hus _ _ _ _ _]. pose proof (data_pos _ _ Hg Hd).
  apply (filter_one_less _ _ _ a); [apply NoDup_seqZ | apply elem_of_seqZ; lia | done |].
  intros x Hx. apply elem_of_seqZ in Hx. rewrite Hus by lia.
  destruct (Z.eqb_spec a x) as [<- |]; simpl; naive_solver.
Qed.

(** ** bmap *)

Definition in_table s (ip : Z) : Prop := 0 <= ip < Z.of_nat (length (itable s)).

Lemma geti_seti s ip i j : in_table s ip → geti (seti ip i s) j = if ip =? j then i else geti s j.
Proof. intros H. unfold geti, seti. cbn [itable]. rewrite zget_zset by done. by destruct (ip =? j). Qed.

Lemma in_table_seti s ip i k : in_table (seti ip i s) k ↔ in_table s k.
Proof. unfold in_table, seti. cbn [itable]. by rewrite length_zset. Qed.

Lemma seti_id s ip : in_table s ip → seti ip (geti s ip) s = s.
Proof.
  intros H. unfold seti, geti. destruct (zget_is_Some _ _ H) as [x Hx]. rewrite Hx. cbn [default from_option id].
  rewrite zset_id by done. by destruct s.
Qed.

Lemma seti_seti s ip i i' : seti ip i' (seti ip i s) = seti ip i' s.
Proof. unfold seti. cbn. f_equal. unfold zset. destruct (ip <? 0); [done |]. apply list_insert_insert_eq. Qed.

Lemma empty_closed b : ¬ is_open ∅ b.
Proof. intros (i & d & H). by rewrite lookup_empty in H. Qed.

Lemma opens_used_empty sb V : opens_used sb V ∅.
Proof. intros b H. by destruct (empty_closed b). Qed.

(** A block that is there. *)
Lemma bmap_read s V L ip bn :
  bs_rep (blk s) V ∅ L → idev (geti s ip) = ROOTDEV → 0 <= bn < MAXFILE →
  faddr V (geti s ip) bn ≠ 0 → (size L < bs_bufs)%nat →
  runs [] (bmap ip bn) s (λ a s', ∃ b', s' = with_blk s b' ∧ bs_rep b' V ∅ L ∧ a = faddr V (geti s ip) bn).
Proof.
  intros H Hdev Hbn Hne Hsz. set (i := geti s ip) in *. unfold bmap. rstep. fold i.
  assert (MAXFILE = 268 ∧ NDIRECT = 12 ∧ NINDIRECT = 256) as (EM & EN & EI) by done.
  unfold faddr in *. destruct (Z.ltb_spec bn NDIRECT) as [Hlt | Hge].
  - destruct (Z.eqb_spec (addr i bn) 0); [done |]. apply runs_ret. exists (blk s). by destruct s.
  - destruct (Z.ltb_spec (bn - NDIRECT) NINDIRECT) as [Hlt2 |]; [| lia].
    destruct (Z.eqb_spec (addr i NDIRECT) 0); [done |]. rstep. rewrite Hdev.
    eapply runs_bind; [eapply bread_f; [exact H | apply empty_closed | rewrite map_size_empty; lia] |].
    cbv beta. intros bp s1 (b1 & -> & Hi & H1).
    eapply runs_bind; [eapply bdata_f; [exact H1 | apply lookup_insert_eq] |].
    cbv beta. intros v s2 (b2 & -> & -> & H2).
    destruct (Z.eqb_spec (get32 (V (addr i NDIRECT)) (4 * (bn - NDIRECT))) 0); [done |].
    rstep.
    eapply runs_bind; [eapply brelse_f; [exact H2 | done] |]. cbv beta. intros _ s3 (b3 & -> & H3).
    apply runs_ret. by exists b3.
Qed.

(** The file got blocks, and its contents did not change. *)
Definition grown sb V i V' i' : Prop :=
  file_step sb V i V' i' ∧ isize i' = isize i ∧
  (∀ k, 0 <= k < MAXFILE → fblock V' i' k = fblock V i k) ∧ (nfree sb V <= nfree sb V' + 2)%nat.

Lemma fills_grown sb V i V' i' k a :
  geom sb → file_ok sb V i → meta_used sb V → fills sb V i V' i' k a →
  grown sb V i V' i' ∧ nfree sb V = S (nfree sb V').
Proof.
  intros Hg Hok Hm Hf. pose proof (nfree_fills _ _ _ _ _ _ _ Hg Hf) as Hn. split; [| done].
  split; [by apply (fills_step sb V i V' i' k a) |]. split; [apply Hf |].
  split; [intros j Hj; by apply (fills_fblock sb V i V' i' k a) | lia].
Qed.

(** [bmap]'s first half for an indirect block: the indirect block [e]. *)
Lemma bmap_indirect s V L ip n k :
  let sb := fsb s in let i := geti s ip in
  geom sb → bs_rep (blk s) V ∅ L → in_table s ip → file_ok sb V i → meta_used sb V →
  NDIRECT <= k < MAXFILE → slot V i k = 0 → room_for sb ∅ L (S (S n)) 2 → (2 <= nfree sb V)%nat →
  runs [] (if addr i NDIRECT =? 0 then
             a <- balloc (idev i) ;;
             updi ip (set_addr NDIRECT a) ;;
             ret a
           else ret (addr i NDIRECT)) s (λ e s', ∃ b1 V1 i1 L1,
    s' = seti ip i1 (with_blk s b1) ∧ bs_rep b1 V1 ∅ L1 ∧ file_step sb V i V1 i1 ∧ isize i1 = isize i ∧
    (∀ j, 0 <= j < MAXFILE → fblock V1 i1 j = fblock V i j) ∧
    (nfree sb V <= S (nfree sb V1))%nat ∧ e = addr i1 NDIRECT ∧ e ≠ 0 ∧ slot V1 i1 k = 0 ∧
    (room_for sb ∅ L1 (S (S n)) 2 ∨ (e ∈ L1 ∧ room_for sb ∅ L1 (S n) 2))).
Proof.
  intros sb i Hg H Hin Hok Hm Hk H0 Hr Hn. pose proof (fo_dev _ _ _ Hok) as Hdev.
  assert (MAXFILE = 268 ∧ NDIRECT = 12) as [EM EN] by done.
  destruct (Z.eqb_spec (addr i NDIRECT) 0) as [He | He].
  - rewrite Hdev. eapply runs_bind; [eapply (balloc_f s V ∅ L Hg H); [apply opens_used_empty | done | | apply nfree_pos; fold sb; lia] |].
    { by apply (room_less sb _ _ (S (S n)) 1 2 1); [| lia | lia]. }
    cbv beta. intros a s1 (b1 & -> & Hf & H1). fold sb in Hf, H1. unfold updi. rstep. apply runs_ret.
    pose proof (fills_indirect sb V i a Hg (λ c, bs_rep_block _ _ _ _ c H) Hok He Hf) as Hfi.
    destruct (fills_grown _ _ _ _ _ _ _ Hg Hok Hm Hfi) as [(Hst & Hsz & Hfb & _) Hnf].
    pose proof (data_pos _ _ Hg (proj1 Hf)).
    eexists b1, _, (set_addr NDIRECT a i), _. split; [done |]. split; [exact H1 |].
    do 3 (split; [done |]). split; [lia |].
    split; [rewrite addr_set_addr by (first [apply Hok | lia]); by rewrite Z.eqb_refl |]. split; [lia |].
    split; [rewrite (fi_slots _ _ _ _ _ _ _ Hfi) by (unfold in_slots; lia); destruct (Z.eqb_spec k MAXFILE); [lia | done] |].
    right. split; [set_solver |]. apply room_allocated; [lia | done].
  - apply runs_ret. exists (blk s), V, i, L. split; [unfold i; destruct s; symmetry; by apply seti_id |].
    split; [done |]. split; [by apply file_step_refl |]. do 2 (split; [done |]). split; [lia |]. auto.
Qed.

Lemma bmap_alloc s V L ip bn n :
  let sb := fsb s in let i := geti s ip in
  geom sb → bs_rep (blk s) V ∅ L → in_table s ip → file_ok sb V i → meta_used sb V →
  0 <= bn < MAXFILE → faddr V i bn = 0 → room_for sb ∅ L (S (S n)) 2 → (2 <= nfree sb V)%nat →
  runs [] (bmap ip bn) s (λ a s', ∃ b' V' i' L',
    s' = seti ip i' (with_blk s b') ∧ bs_rep b' V' ∅ L' ∧ grown sb V i V' i' ∧
    a = faddr V' i' bn ∧ a ≠ 0 ∧ a ∈ L' ∧ room_for sb ∅ L' n 2).
Proof.
  intros sb i Hg H Hin Hok Hm Hbn H0 Hr Hn. pose proof (fo_dev _ _ _ Hok) as Hdev.
  assert (MAXFILE = 268 ∧ NDIRECT = 12 ∧ NINDIRECT = 256 ∧ BSIZE = 1024) as (EM & EN & EI & EB) by done.
  assert (slot V i bn = 0) as Hs0 by (by rewrite slot_faddr). assert (in_slots bn) as Hbs by (unfold in_slots; lia).
  unfold bmap. rstep. fold i. destruct (Z.ltb_spec bn NDIRECT) as [Hlt | Hge].
  - rewrite slot_direct in Hs0 by lia. rewrite Hs0. cbn [Z.eqb]. rewrite Hdev.
    eapply runs_bind; [eapply (balloc_f s V ∅ L Hg H); [apply opens_used_empty | done | | apply nfree_pos; fold sb; lia] |].
    { by apply (room_less sb _ _ (S (S n)) 1 2 1); [| lia | lia]. }
    cbv beta. intros a s1 (b1 & -> & Hf & H1). fold sb in Hf, H1. unfold updi. rstep. apply runs_ret.
    pose proof (fills_direct sb V i bn a Hg (λ c, bs_rep_block _ _ _ _ c H) Hok ltac:(lia) Hs0 Hf) as Hfi.
    destruct (fills_grown _ _ _ _ _ _ _ Hg Hok Hm Hfi) as [Hgr Hnf]. pose proof (data_pos _ _ Hg (proj1 Hf)).
    eexists b1, _, (set_addr bn a i), _. split; [done |]. split; [exact H1 |]. split; [done |].
    split; [rewrite <- slot_faddr, (fi_slots _ _ _ _ _ _ _ Hfi) by done; by rewrite Z.eqb_refl |]. split; [lia |].
    split; [set_solver |]. apply (room_less sb _ _ (S n) n 2 2); [| lia | lia]. apply room_allocated; [lia | done].
  - destruct (Z.ltb_spec (bn - NDIRECT) NINDIRECT) as [Hlt2 |]; [| lia].
    eapply runs_bind; [by apply (bmap_indirect s V L ip n bn); [.. | lia | | |] |]. cbv beta.
    intros e s1 (b1 & V1 & i1 & L1 & -> & H1 & St1 & Sz1 & Fb1 & N1 & Ee & Hne & Hs1 & Hr1). rewrite Hdev.
    fold sb i in St1, Sz1, Fb1, N1, Hr1.
    pose proof (st_ok _ _ _ _ _ St1) as Hok1. pose proof (st_meta _ _ _ _ _ St1) as Hm1.
    assert (room_for sb ∅ L1 (S n) 2) as Hr1'.
    { destruct Hr1 as [Hr1 | [_ ?]]; [| done]. by apply (room_less sb _ _ (S (S n)) (S n) 2 2); [| lia | lia]. }
    eapply runs_bind; [eapply bread_f; [exact H1 | apply empty_closed | by apply (room_open sb _ _ (S n) 1)] |].
    cbv beta. intros bp s2 (b2 & -> & Hbp & H2).
    eapply runs_bind; [eapply bdata_f; [exact H2 | apply lookup_insert_eq] |].
    cbv beta. intros v s3 (b3 & -> & -> & H3).
    pose proof Hs1 as Hg0. rewrite slot_entry, <- Ee in Hg0 by lia. destruct (Z.eqb_spec e 0); [done |].
    rewrite Hg0. cbn [Z.eqb]. assert (slot V1 i1 MAXFILE = e) as Es by (by rewrite slot_indirect).
    assert (in_slots MAXFILE) as Hms by (unfold in_slots; lia).
    destruct (fo_slot _ _ _ Hok1 MAXFILE Hms) as [Hde Hue]; [by rewrite Es |]. rewrite Es in Hde, Hue.
    eapply runs_bind with (R := λ a s', ∃ b' V' L', s' = seti ip i1 (with_blk s b') ∧
      fills sb V1 i1 V' i1 bn a ∧ bs_rep b' V' (<[bp := (e, false)]> ∅) L' ∧ a ∈ L' ∧ room_for sb ∅ L' n 2).
    + eapply runs_bind; [eapply (balloc_f _ V1 (<[bp := (e, false)]> ∅) L1); [exact Hg | exact H3 | | exact Hm1 | |] |].
      { intros b (j & d & Hj). apply lookup_insert_Some in Hj as [[_ [= <- _]] | [_ Hj]]; [done | by rewrite lookup_empty in Hj]. }
      { apply (room_less sb _ _ (S n) 1 1 1); [| lia | lia]. by apply room_opened. }
      { apply nfree_pos. change (fsb _) with sb. lia. }
      cbv beta. intros a s4 (b4 & -> & Hf & H4). change (fsb _) with sb in Hf, H4.
      pose proof (data_pos _ _ Hg (proj1 Hf)) as Hap.
      eapply runs_bind; [eapply bdata_f; [exact H4 | apply lookup_insert_eq] |].
      cbv beta. intros v s5 (b5 & -> & -> & H5).
      assert (room_for sb ∅ ({[a]} ∪ ({[BBLOCK a sb]} ∪ L1)) n 2) as Hr2 by (apply room_allocated; [lia | done]).
      pose proof (bs_rep_block _ _ _ _ e H4) as Hblk.
      eapply runs_seq2; [eapply store_log; [exact H5 | apply is_block_put; [done | lia | lia] | | by apply (room_log sb ∅ _ n 2)] |].
      { apply (g_home _ Hg). pose proof (g_inode _ Hg 0 ltac:(pose proof (g_inodes _ Hg); lia)).
        pose proof (g_bmap _ Hg 0 ltac:(pose proof (g_size _ Hg); lia)). unfold is_data in Hde. lia. }
      cbv beta. intros _ s6 (b6 & -> & H6). apply runs_ret. eexists b6, _, _. split; [done |].
      split; [| split; [exact H6 | split; [set_solver |]]].
      * subst e. apply fills_entry; try done; [| lia]. intros c. by apply (bs_rep_block _ _ _ _ c H1).
      * destruct Hr1 as [Hr1 | [He _]]; [| apply room_logged_again; [left; set_solver | done]].
        apply room_logged, room_allocated; [lia | done].
    + cbv beta. intros a s4 (b4 & V4 & L4 & -> & Hf & H4 & Ha & Hr4).
      eapply runs_bind; [eapply brelse_f; [exact H4 | done] |]. cbv beta. intros _ s5 (b5 & -> & H5).
      apply runs_ret. destruct (fills_grown _ _ _ _ _ _ _ Hg Hok1 Hm1 Hf) as [(St2 & Sz2 & Fb2 & _) Hnf].
      pose proof (data_pos _ _ Hg (proj1 (fi_fresh _ _ _ _ _ _ _ Hf))).
      exists b5, V4, i1, L4. split; [done |]. split; [done |]. split.
      * split; [by apply (file_step_trans sb V i V1 i1) |]. split; [done |].
        split; [intros j Hj; by rewrite Fb2, Fb1 | lia].
      * split; [rewrite <- slot_faddr, (fi_slots _ _ _ _ _ _ _ Hf) by done; by rewrite Z.eqb_refl |].
        split; [lia | done].
Qed.

(** Either the block was there, or it is fresh and already logged. *)
Lemma bmap_f s V L ip bn n :
  let sb := fsb s in let i := geti s ip in
  geom sb → bs_rep (blk s) V ∅ L → in_table s ip → file_ok sb V i → meta_used sb V →
  0 <= bn < MAXFILE → room_for sb ∅ L (S (S n)) 2 → (2 <= nfree sb V)%nat →
  runs [] (bmap ip bn) s (λ a s', ∃ b' V' i' L',
    s' = seti ip i' (with_blk s b') ∧ bs_rep b' V' ∅ L' ∧ grown sb V i V' i' ∧
    a = faddr V' i' bn ∧ a ≠ 0 ∧ room_for sb ∅ ({[a]} ∪ L') n 2 ∧ room_for sb ∅ L' n 2).
Proof.
  intros sb i Hg H Hin Hok Hm Hbn Hr Hn. destruct (Z.eq_dec (faddr V i bn) 0) as [H0 | Hne].
  - eapply runs_conseq; [by apply (bmap_alloc s V L ip bn n) |]. cbv beta. fold sb i.
    intros a s' (b' & V' & i' & L' & -> & H' & Hgr & Ea & Hne & Ha & Hr').
    exists b', V', i', L'. do 5 (split; [done |]). split; [| done]. apply room_logged_again; [by left | done].
  - eapply runs_conseq; [apply (bmap_read s V L ip bn H (fo_dev _ _ _ Hok) Hbn Hne) |].
    { pose proof (room_open sb ∅ L (S (S n)) 1 Hr). rewrite map_size_empty in *. lia. }
    intros a s' (b' & -> & H' & ->). fold i. exists b', V, i, L. split.
    { unfold i. change (geti s ip) with (geti (with_blk s b') ip). by rewrite seti_id. }
    split; [done |]. split; [split; [by apply file_step_refl |]; split; [done |]; split; [done | lia] |].
    do 2 (split; [done |]). split.
    + apply (room_less sb _ _ (S n) n 2 2); [by apply room_logged | lia | lia].
    + by apply (room_less sb _ _ (S (S n)) n 2 2); [| lia | lia].
Qed.

(** ** Storing into a block of the file *)

Lemma slot_store sb V i k v j :
  geom sb → file_ok sb V i → 0 <= k < MAXFILE → faddr V i k ≠ 0 → in_slots j →
  slot (<[faddr V i k := v]> V) i j = slot V i j.
Proof.
  intros Hg Hok Hk Hne Hj. unfold slot. destruct (j =? MAXFILE); [done |]. unfold faddr at 1 3.
  destruct (j <? NDIRECT); [done |]. destruct (Z.eqb_spec (addr i NDIRECT) 0) as [| Hi]; [done |].
  rewrite fn_lookup_insert_ne; [done |]. intros E. rewrite <- slot_faddr, <- (slot_indirect V i) in E by done.
  rewrite <- slot_faddr in Hne by done.
  apply (fo_inj _ _ _ Hok) in E; [lia | unfold in_slots; lia | unfold in_slots; lia | done].
Qed.

Lemma file_step_store sb V i k v :
  geom sb → file_ok sb V i → meta_used sb V → 0 <= k < MAXFILE → faddr V i k ≠ 0 →
  let V' := <[faddr V i k := v]> V in
  file_step sb V i V' i ∧ nfree sb V' = nfree sb V ∧
  ∀ j, 0 <= j < MAXFILE → fblock V' i j = if j =? k then v else fblock V i j.
Proof.
  intros Hg Hok Hm Hk Hne V'. assert (∀ j, in_slots j → slot V' i j = slot V i j) as Hs
    by (intros j Hj; by apply (slot_store sb)).
  assert (in_slots k) as Hks by (unfold in_slots; lia). pose proof (slot_faddr V i k Hk) as Ek.
  destruct (fo_slot _ _ _ Hok k Hks) as [Hd Hu]; [by rewrite Ek |]. rewrite Ek in Hd, Hu.
  assert (∀ b, 0 <= b < sb_size sb → used sb V' b = used sb V b) as Hus.
  { intros b Hb. apply used_ext; [| done]. intros c Hc. apply fn_lookup_insert_ne.
    intros <-. by apply (data_not_bitmap sb _ Hg Hd). }
  split; [constructor; [constructor | | | | | | |] |].
  - apply Hok.
  - apply Hok.
  - intros j Hj. rewrite Hs by done. intros Hn. destruct (fo_slot _ _ _ Hok j Hj Hn) as [H1 H2]. split; [done |].
    pose proof (data_pos _ _ Hg H1). rewrite Hus by lia. done.
  - intros j j' Hj Hj'. rewrite !Hs by done. by apply (fo_inj _ _ _ Hok).
  - apply Hok.
  - intros j Hj Hlt. pose proof (fo_full _ _ _ Hok j Hj Hlt) as Hf. pose proof (fo_size _ _ _ Hok).
    assert (0 <= j < MAXFILE) as Hr by (assert (BSIZE = 1024) as E by done; rewrite E in *; lia).
    rewrite <- slot_faddr in * by done. rewrite Hs by (unfold in_slots; lia). done.
  - intros b Hb Hnd. rewrite Hus by done. by apply Hm.
  - intros b Hb. by rewrite Hus.
  - intros b Hb. rewrite Hus by done. by left.
  - intros j Hj _. by apply Hs.
  - intros j Hj _. rewrite Hs by done. by left.
  - intros c Hc Hn _. apply fn_lookup_insert_ne. intros <-. by apply (Hn k); rewrite ?Ek.
  - done.
  - split.
    + by apply nfree_ext.
    + intros j Hj. unfold fblock. rewrite <- !slot_faddr by done. rewrite Hs by (unfold in_slots; lia).
      destruct (Z.eqb_spec j k) as [-> |].
      * rewrite Ek. destruct (Z.eqb_spec (faddr V i k) 0); [done |]. apply fn_lookup_insert.
      * destruct (Z.eqb_spec (slot V i j) 0) as [| Hn]; [done |]. apply fn_lookup_insert_ne. rewrite <- Ek.
        intros E. apply n. symmetry. apply (fo_inj _ _ _ Hok k j); [done | unfold in_slots; lia | by rewrite Ek | done].
Qed.
End file.
