(* ===== verification/FsRw.v ===== *)
(** * Reading and writing files: readi, writei, iupdate

    The bytes [readi] delivers and [writei] stores are those of the file's
    contents (FsFile.v), whatever the block boundaries. *)

From S2P Require Import Prelude Abi Monad Riscv Block Sleeplock Wp Store Fs FsAlloc FsFile.

Lemma get_byte_splice v p bs x :
  0 <= p → p + Z.of_nat (length bs) <= Z.of_nat (length v) →
  get_byte (splice v (Z.to_nat p) bs) x =
    if (p <=? x) && (x <? p + Z.of_nat (length bs)) then get_byte bs (x - p) else get_byte v x.
Proof.
  intros Hp Hl. unfold get_byte, zget.
  destruct (Z.leb_spec p x), (Z.ltb_spec x (p + Z.of_nat (length bs))), (Z.ltb_spec x 0); cbn [andb];
    try lia; try done; try (f_equal; apply splice_lookup_old; lia).
  destruct (Z.ltb_spec (x - p) 0); [lia |]. f_equal. rewrite splice_lookup_new by lia. f_equal. lia.
Qed.

Lemma is_block_splice v p bs :
  is_block v → bytes bs → 0 <= p → p + Z.of_nat (length bs) <= BSIZE → is_block (splice v (Z.to_nat p) bs).
Proof.
  intros [Hl Hb] Hbs Hp Hle. split; [| by apply bytes_splice].
  rewrite length_splice; [done |]. rewrite Hl. unfold BSIZE in *. lia.
Qed.

Section rw.
Context {B M : Type} `{HB : BlockStoreLaws B} `{!Memory M}.
Implicit Types (s : fstate B M) (V : contents) (i : inode) (sb : superblock) (L : gset Z) (bs : list Z).

(** Copying from [src] yields the bytes [bs]. *)
Definition source (m : M) (user : bool) (src : Z) bs : Prop :=
  ∀ o k, (o + k <= length bs)%nat →
    runs [] (m_copyin user (u64 (src + Z.of_nat o)) k) m (λ r m', r = (0, take k (drop o bs)) ∧ m' = m).

Lemma source_drop m user src bs k :
  source m user src bs → (k <= length bs)%nat → source m user (u64 (src + Z.of_nat k)) (drop k bs).
Proof.
  intros H Hk o j Hj. rewrite length_drop in Hj.
  replace (u64 (u64 (src + Z.of_nat k) + Z.of_nat o)) with (u64 (src + Z.of_nat (k + o))).
  - rewrite drop_drop. apply H. lia.
  - unfold u64. rewrite Z.add_mod_idemp_l by lia. f_equal. lia.
Qed.

(** The contents with [bs] written at [off]. *)
Definition wrote V i V' i' (off : Z) bs : Prop :=
  ∀ o, 0 <= o < MAXFILE * BSIZE →
    fbyte V' i' o = if (off <=? o) && (o <? off + Z.of_nat (length bs)) then get_byte bs (o - off) else fbyte V i o.

(** ** One turn of writei *)

(** The file after a turn at [off]. *)
Record turned sb V i L V' i' L' (off : Z) bs (n : nat) : Prop := {
  tu_step : file_step sb V i V' i';
  tu_size : isize i' = isize i;
  tu_wrote : wrote V i V' i' off bs;
  tu_block : faddr V' i' (off / BSIZE) ≠ 0;
  tu_free : (nfree sb V <= nfree sb V' + 2)%nat;
  tu_room : room_for sb ∅ L' n 2 }.

(** Storing [bs] into the block of offset [off] writes them there. *)
Lemma store_wrote sb V i V1 i1 off bs :
  geom sb → (∀ c, is_block (V1 c)) → file_ok sb V1 i1 → meta_used sb V1 →
  (∀ k, 0 <= k < MAXFILE → fblock V1 i1 k = fblock V i k) →
  0 <= off → off mod BSIZE + Z.of_nat (length bs) <= BSIZE → off / BSIZE < MAXFILE →
  let a := faddr V1 i1 (off / BSIZE) in a ≠ 0 →
  wrote V i (<[a := splice (V1 a) (Z.to_nat (off mod BSIZE)) bs]> V1) i1 off bs.
Proof.
  intros Hg Hb Hok Hm Hfb Hoff Hin Hmax a Ha o Ho. assert (BSIZE = 1024 ∧ MAXFILE = 268) as [EB EM] by done.
  assert (0 <= off / BSIZE < MAXFILE) as Hk by (rewrite EB, EM in *; dlia).
  destruct (file_step_store sb V1 i1 (off / BSIZE) (splice (V1 a) (Z.to_nat (off mod BSIZE)) bs) Hg Hok Hm Hk Ha) as (_ & _ & Hfb2).
  fold a in Hfb2. assert (V1 a = fblock V i (off / BSIZE)) as EV.
  { rewrite <- Hfb by done. unfold fblock. fold a. destruct (Z.eqb_spec a 0); done. }
  unfold fbyte. assert (0 <= o / BSIZE < MAXFILE) as Hok2 by (rewrite EB, EM in *; dlia).
  rewrite Hfb2 by done. destruct (Z.eqb_spec (o / BSIZE) (off / BSIZE)) as [E | E].
  - rewrite get_byte_splice; [| apply Z.mod_pos_bound; lia | destruct (Hb a) as [-> _]; rewrite EB in *; lia].
    rewrite EV, E.
    assert (o mod BSIZE - off mod BSIZE = o - off) as Ed by (rewrite EB in *; dlia). rewrite Ed.
    replace (off mod BSIZE <=? o mod BSIZE) with (off <=? o)
      by (destruct (Z.leb_spec off o), (Z.leb_spec (off mod BSIZE) (o mod BSIZE)); lia).
    replace (o mod BSIZE <? off mod BSIZE + Z.of_nat (length bs)) with (o <? off + Z.of_nat (length bs))
      by (destruct (Z.ltb_spec o (off + Z.of_nat (length bs))),
            (Z.ltb_spec (o mod BSIZE) (off mod BSIZE + Z.of_nat (length bs))); lia).
    done.
  - rewrite Hfb by done. destruct (Z.leb_spec off o), (Z.ltb_spec o (off + Z.of_nat (length bs))); try done.
    exfalso. apply E. rewrite EB in *. dlia.
Qed.

Lemma store_turned sb V i L V1 i1 L1 off bs n :
  geom sb → (∀ c, is_block (V1 c)) → grown sb V i V1 i1 → bytes bs →
  0 <= off → off mod BSIZE + Z.of_nat (length bs) <= BSIZE → off + Z.of_nat (length bs) <= MAXFILE * BSIZE →
  bs ≠ [] → let a := faddr V1 i1 (off / BSIZE) in a ≠ 0 → room_for sb ∅ ({[a]} ∪ L1) n 2 →
  turned sb V i L (<[a := splice (V1 a) (Z.to_nat (off mod BSIZE)) bs]> V1) i1 ({[a]} ∪ L1) off bs n.
Proof.
  intros Hg Hb (St & Hsz & Hfb & Hnf) Hbs Hoff Hin Hmax Hne a Ha Hr.
  assert (BSIZE = 1024 ∧ MAXFILE = 268) as [EB EM] by done.
  assert (1 <= Z.of_nat (length bs)) as Hlen by (destruct bs; simpl; [done | lia]).
  assert (0 <= off / BSIZE < MAXFILE) as Hk by (rewrite EB, EM in *; dlia).
  destruct (file_step_store sb V1 i1 (off / BSIZE) (splice (V1 a) (Z.to_nat (off mod BSIZE)) bs) Hg
    (st_ok _ _ _ _ _ St) (st_meta _ _ _ _ _ St) Hk Ha) as (St2 & Hn2 & _). fold a in St2, Hn2.
  constructor; [by apply (file_step_trans sb V i V1 i1) | done | | | rewrite Hn2; lia | done].
  - apply (store_wrote sb); try done; [apply St | apply St | lia].
  - rewrite <- slot_faddr by done. rewrite (st_keep _ _ _ _ _ St2) by (rewrite ?slot_faddr by done; unfold in_slots; lia).
    by rewrite slot_faddr.
Qed.

Lemma data_home sb b : geom sb → is_data sb b → bs_home b.
Proof.
  intros Hg Hd. apply (g_home _ Hg). pose proof (g_inode _ Hg 0 ltac:(pose proof (g_inodes _ Hg); lia)).
  pose proof (g_bmap _ Hg 0 ltac:(pose proof (g_size _ Hg); lia)). unfold is_data in Hd. lia.
Qed.

Lemma faddr_data sb V i k :
  file_ok sb V i → 0 <= k < MAXFILE → faddr V i k ≠ 0 → is_data sb (faddr V i k) ∧ used sb V (faddr V i k) = true.
Proof.
  intros H Hk Hne. rewrite <- slot_faddr in * by done. apply (fo_slot _ _ _ H); [unfold in_slots; lia | done].
Qed.

Lemma with_blk_seti s ip i b : with_blk (seti ip i s) b = seti ip i (with_blk s b).
Proof. done. Qed.

Definition with_mem s (m : M) : fstate B M := FState (fsb s) (itable s) (blk s) m.

Lemma run_mem {A} (m : K M A) s (Q : A → M → Prop) :
  runs [] m (kmem s) Q → runs [] (lift memL m) s (λ a s', ∃ m', s' = with_mem s m' ∧ Q a m').
Proof.
  intros H. apply runs_lift. eapply runs_conseq; [exact H |]. intros a m' Hq. by exists m'.
Qed.

Lemma writei_turn {A} s V L ip user src off bs n (kf : Z → K (fstate B M) A) (k : K (fstate B M) A)
    (Q : A → fstate B M → Prop) :
  let sb := fsb s in let i := geti s ip in
  geom sb → bs_rep (blk s) V ∅ L → in_table s ip → file_ok sb V i → meta_used sb V → bytes bs →
  0 <= off → off mod BSIZE + Z.of_nat (length bs) <= BSIZE → off + Z.of_nat (length bs) <= MAXFILE * BSIZE →
  bs ≠ [] → runs [] (m_copyin user src (length bs)) (kmem s) (λ r m', r = (0, bs) ∧ m' = kmem s) →
  room_for sb ∅ L (S (S n)) 2 → (2 <= nfree sb V)%nat →
  (∀ b' V' i' L', bs_rep b' V' ∅ L' → turned sb V i L V' i' L' off bs n →
     runs [] k (seti ip i' (with_blk s b')) Q) →
  runs [] (a <- bmap ip (off / BSIZE) ;;
           i <- gets (λ s, geti s ip) ;;
           bp <- bread (idev i) a ;;
           r <- lift memL (m_copyin user src (length bs)) ;;
           v <- bdata bp ;;
           bstore bp (splice v (Z.to_nat (off mod BSIZE)) r.2) ;;
           if r.1 =? -1 then kf bp
           else log_write bp ;; brelse bp ;; k) s Q.
Proof.
  intros sb i Hg H Hin Hok Hm Hbs Hoff Hfit Hmax Hne Hcp Hr Hn Hk.
  assert (BSIZE = 1024 ∧ MAXFILE = 268) as [EB EM] by done.
  assert (1 <= Z.of_nat (length bs)) as Hlen by (destruct bs; simpl; [done | lia]).
  assert (0 <= off / BSIZE < MAXFILE) as Hbn by (rewrite EB, EM in *; dlia).
  eapply runs_bind; [by apply (bmap_f s V L ip (off / BSIZE) n) |]. cbv beta. fold sb i.
  intros a s1 (b1 & V1 & i1 & L1 & -> & H1 & Hgr & Ea & Hane & Hr1 & Hr1').
  pose proof (st_ok _ _ _ _ _ (proj1 Hgr)) as Hok1. rewrite Ea in Hane.
  destruct (faddr_data sb V1 i1 _ Hok1 Hbn Hane) as [Hd _]. rewrite <- Ea in Hd, Hane.
  rstep. rewrite (geti_seti (with_blk s b1)), Z.eqb_refl, (fo_dev _ _ _ Hok1) by done.
  eapply runs_bind; [eapply bread_f; [exact H1 | apply empty_closed | by apply (room_open sb _ _ n 1)] |].
  cbv beta. intros bp s2 (b2 & -> & Hbp & H2). rewrite with_blk_seti.
  eapply runs_bind; [apply run_mem; exact Hcp |].
  cbv beta. intros r s3 (m3 & -> & -> & ->). cbn [fst snd]. change (0 =? -1) with false. cbv iota.
  eapply runs_bind; [eapply bdata_f; [exact H2 | apply lookup_insert_eq] |].
  cbv beta. intros v s4 (b4 & -> & -> & H4).
  eapply runs_seq3; [eapply store_log_relse; [exact H4 | done | | by apply (data_home sb) | by apply (room_log sb ∅ _ n 2)] |].
  { apply is_block_splice; [by apply (bs_rep_block _ _ _ _ a H1) | done | apply Z.mod_pos_bound; lia | done]. }
  cbv beta. intros _ s5 (b5 & -> & H5). apply (Hk b5 _ i1 _ H5).
  rewrite Ea in *. apply store_turned; try done. intros c. by apply (bs_rep_block _ _ _ _ c H1).
Qed.

(** ** The loop of writei *)

(** The number of blocks [len] bytes at [off] touch. *)
Definition nspan (off : Z) (len : nat) : nat :=
  match len with O => O | _ => Z.to_nat ((off + Z.of_nat len - 1) / BSIZE - off / BSIZE + 1) end.

(** The bytes of one turn. *)
Definition chunk (off : Z) (len : nat) : nat := Z.to_nat (Z.min (Z.of_nat len) (BSIZE - off mod BSIZE)).

Lemma chunk_range off len :
  0 <= off → (0 < len)%nat → (0 < chunk off len <= len)%nat ∧ off mod BSIZE + Z.of_nat (chunk off len) <= BSIZE.
Proof. intros H0 Hl. unfold chunk. assert (BSIZE = 1024) as -> by done. dlia. Qed.

Lemma nspan_chunk off len :
  0 <= off → (0 < len)%nat →
  nspan off len = S (nspan (off + Z.of_nat (chunk off len)) (len - chunk off len)).
Proof.
  intros H0 Hl. assert (BSIZE = 1024) as E by done.
  assert (∀ o k, (0 < k)%nat → nspan o k = Z.to_nat ((o + Z.of_nat k - 1) / 1024 - o / 1024 + 1)) as Hn
    by (intros o [| k]; [lia | done]).
  destruct (Z.le_gt_cases (Z.of_nat len) (1024 - off mod 1024)) as [Hle | Hgt].
  - assert (chunk off len = len) as -> by (unfold chunk; rewrite E; lia).
    rewrite Nat.sub_diag, Hn by done. simpl. dlia.
  - assert (Z.of_nat (chunk off len) = 1024 - off mod 1024) as Ec by (unfold chunk; rewrite E; dlia).
    assert (chunk off len < len)%nat as Hlt by lia. rewrite !Hn by lia.
    replace (off + Z.of_nat (chunk off len)) with ((off / 1024 + 1) * 1024) by dlia.
    rewrite Z.div_mul by lia.
    replace ((off / 1024 + 1) * 1024 + Z.of_nat (len - chunk off len) - 1) with (off + Z.of_nat len - 1) by dlia.
    dlia.
Qed.

(** The file with [bs] written at [off], its size not yet changed. *)
Definition written sb V i V' i' (off : Z) bs : Prop :=
  file_step sb V i V' i' ∧ isize i' = isize i ∧ wrote V i V' i' off bs ∧
  ∀ k, off / BSIZE <= k → k * BSIZE < off + Z.of_nat (length bs) → bs ≠ [] → faddr V' i' k ≠ 0.

Lemma written_nil sb V i off : file_ok sb V i → meta_used sb V → written sb V i V i off [].
Proof.
  intros H Hm. split; [by apply file_step_refl |]. split; [done |]. split; [| done].
  intros o Ho. cbn [length]. destruct (Z.leb_spec off o), (Z.ltb_spec o (off + Z.of_nat 0)); try done; lia.
Qed.

Lemma get_byte_take bs m x : x < Z.of_nat m → get_byte (take m bs) x = get_byte bs x.
Proof.
  intros H. unfold get_byte, zget. destruct (Z.ltb_spec x 0); [done |]. f_equal. apply lookup_take_lt. lia.
Qed.

Lemma get_byte_drop bs m x : 0 <= x → get_byte (drop m bs) x = get_byte bs (Z.of_nat m + x).
Proof.
  intros H. unfold get_byte, zget. destruct (Z.ltb_spec x 0), (Z.ltb_spec (Z.of_nat m + x) 0); try lia.
  f_equal. rewrite lookup_drop. f_equal. lia.
Qed.

Lemma written_turn sb V i L V1 i1 L1 V2 i2 off bs m n :
  geom sb → 0 <= off → m = chunk off (length bs) → (0 < length bs)%nat →
  off + Z.of_nat (length bs) <= MAXFILE * BSIZE →
  turned sb V i L V1 i1 L1 off (take m bs) n →
  written sb V1 i1 V2 i2 (off + Z.of_nat m) (drop m bs) → written sb V i V2 i2 off bs.
Proof.
  intros Hg H0 Em Hl Hmax [T1 T2 T3 T4 T5 T6] (W1 & W2 & W3 & W4).
  destruct (chunk_range off (length bs) H0 Hl) as [Hc Hc2]. rewrite <- Em in Hc, Hc2.
  assert (length (take m bs) = m) as Lt by (rewrite length_take; lia).
  assert (length (drop m bs) = length bs - m)%nat as Ld by apply length_drop. assert (BSIZE = 1024 ∧ MAXFILE = 268) as [EB EM] by done.
  split; [by apply (file_step_trans sb V i V1 i1) |]. split; [congruence |]. split.
  - intros o Ho. rewrite W3, T3, Lt, Ld by done.
    destruct (Z.leb_spec (off + Z.of_nat m) o), (Z.leb_spec off o),
      (Z.ltb_spec o (off + Z.of_nat m + Z.of_nat (length bs - m))),
      (Z.ltb_spec o (off + Z.of_nat m)), (Z.ltb_spec o (off + Z.of_nat (length bs))); try lia; cbn [andb]; try done.
    + rewrite get_byte_drop by lia. f_equal. lia.
    + by rewrite get_byte_take by lia.
  - intros k Hk1 Hk2 _. destruct (Z.eq_dec k (off / BSIZE)) as [-> | Hne].
    + assert (0 <= off / BSIZE < MAXFILE) as Hr by (rewrite EB, EM in *; dlia).
      rewrite <- slot_faddr in * by done. by rewrite (st_keep _ _ _ _ _ W1) by (unfold in_slots; lia || done).
    + apply W4.
      * rewrite EB in *. dlia.
      * rewrite Ld. lia.
      * intros E. rewrite E in Ld. simpl in Ld. rewrite EB in *. dlia.
Qed.

Lemma writei_loop_f ip user n fuel s V L src off tot bs r :
  let sb := fsb s in let i := geti s ip in
  geom sb → bs_rep (blk s) V ∅ L → in_table s ip → file_ok sb V i → meta_used sb V → bytes bs →
  0 <= off → off + Z.of_nat (length bs) <= MAXFILE * BSIZE → tot + Z.of_nat (length bs) = n →
  (length bs <= fuel)%nat → 0 <= src < 2 ^ 64 → source (kmem s) user src bs →
  room_for sb ∅ L (2 * nspan off (length bs) + r) 2 → (2 * nspan off (length bs) <= nfree sb V)%nat →
  runs [] (writei_loop fuel ip user src off n tot) s (λ res s',
    res = (n, off + Z.of_nat (length bs)) ∧ ∃ b' V' i' L', s' = seti ip i' (with_blk s b') ∧
    bs_rep b' V' ∅ L' ∧ written sb V i V' i' off bs ∧ room_for sb ∅ L' r 2).
Proof.
  revert s V L src off tot bs.
  induction fuel as [| fuel IH]; intros s V L src off tot bs sb i Hg H Hin Hok Hm Hbs Hoff Hmax Hn Hfuel Hsrc Hs Hr Hfr;
    cbn [writei_loop]; (destruct (Z.ltb_spec tot n) as [Hlt | Hge]; [| assert (bs = []) as -> by (destruct bs; simpl in *; [done | lia])]).
  - lia.
  - apply runs_ret. split; [f_equal; simpl in *; lia |]. exists (blk s), V, i, L.
    split; [unfold i; destruct s; symmetry; by apply seti_id |]. split; [done |]. split; [by apply written_nil | done].
  - assert (0 < length bs)%nat as Hl by lia. set (m := chunk off (length bs)).
    destruct (chunk_range off (length bs) Hoff Hl) as [Hc Hc2]. fold m in Hc, Hc2.
    assert (length (take m bs) = m) as Lt by (rewrite length_take; lia).
    assert (length (drop m bs) = length bs - m)%nat as Ld by apply length_drop. assert (BSIZE = 1024 ∧ MAXFILE = 268) as [EB EM] by done.
    rewrite nspan_chunk in Hr, Hfr by done. fold m in Hr, Hfr. cbv zeta.
    assert (Z.min (n - tot) (BSIZE - off mod BSIZE) = Z.of_nat m) as Em.
    { unfold m, chunk. replace (n - tot) with (Z.of_nat (length bs)) by lia.
      pose proof (Z.mod_pos_bound off BSIZE ltac:(lia)). lia. }
    rewrite Em, Nat2Z.id.
    replace (m_copyin user src m) with (m_copyin user src (length (take m bs))) by (by rewrite Lt).
    eapply (writei_turn s V L ip user src off (take m bs) (2 * nspan (off + Z.of_nat m) (length bs - m) + r));
      try done; try (rewrite Lt; lia).
    + by apply Forall_take.
    + intros E. rewrite E in Lt. simpl in Lt. lia.
    + pose proof (Hs 0%nat m ltac:(lia)) as H0. rewrite Z.add_0_r, u64_small in H0 by done. rewrite drop_0 in H0.
      by rewrite Lt.
    + by apply (room_less sb _ _ _ (S (S (2 * nspan (off + Z.of_nat m) (length bs - m) + r))) 2 2 Hr); lia.
    + fold sb. lia.
    + intros b' V' i' L' H' Ht. fold sb i in Ht.
      rewrite (u32_small (off + Z.of_nat m)) by (rewrite EB, EM in *; lia).
      eapply runs_conseq; [apply (IH (seti ip i' (with_blk s b')) V' L' _ (off + Z.of_nat m) _ (drop m bs)) |]; cbn [fsb seti with_blk blk kmem];
        rewrite ?(geti_seti (with_blk s b')), ?Z.eqb_refl, ?Ld by done; try done; try lia.
      * unfold in_table, seti. cbn [itable]. by rewrite length_zset.
      * apply (st_ok _ _ _ _ _ (tu_step _ _ _ _ _ _ _ _ _ _ Ht)).
      * apply (st_meta _ _ _ _ _ (tu_step _ _ _ _ _ _ _ _ _ _ Ht)).
      * by apply Forall_drop.
      * apply u64_range.
      * apply source_drop; [done | lia].
      * apply Ht.
      * pose proof (tu_free _ _ _ _ _ _ _ _ _ _ Ht). fold sb. lia.
      * fold sb. intros res s' (-> & b2 & V2 & i2 & L2 & -> & H2 & Hw & Hr2).
        split; [f_equal; lia |]. exists b2, V2, i2, L2. rewrite with_blk_seti, seti_seti.
        split; [done |]. split; [done |]. split; [| done].
        by apply (written_turn sb V i L V' i' L' V2 i2 off bs m (2 * nspan (off + Z.of_nat m) (length bs - m) + r)).
  - apply runs_ret. split; [f_equal; simpl in *; lia |]. exists (blk s), V, i, L.
    split; [unfold i; destruct s; symmetry; by apply seti_id |]. split; [done |]. split; [by apply written_nil | done].
Qed.
End rw.
