(* ===== verification/FsInode.v ===== *)
(** * Inodes on disk: iupdate, ilock, ialloc, and the inode table

    The disk inode is an image of the in-memory one, and the table holds each
    inode at most once. *)

From S2P Require Import Prelude Abi Monad Riscv Block Sleeplock Wp Store Fs FsAlloc FsFile FsRw.

(** ** struct dinode *)

(** Every field fits its type on disk. *)
Record inode_fits (i : inode) : Prop := {
  in_type : - 2 ^ 15 <= itype i < 2 ^ 15;
  in_major : - 2 ^ 15 <= major i < 2 ^ 15;
  in_minor : - 2 ^ 15 <= minor i < 2 ^ 15;
  in_nlink : - 2 ^ 15 <= nlink i < 2 ^ 15;
  in_size : 0 <= isize i < 2 ^ 32;
  in_len : length (addrs i) = 13%nat;
  in_addrs : ∀ k, 0 <= addr i k < 2 ^ 32 }.

(** The fields of the disk part. *)
Definition on_disk (i : inode) : Z * Z * Z * Z * Z * list Z :=
  (itype i, major i, minor i, nlink i, isize i, addrs i).

Lemma i16_u16 x : - 2 ^ 15 <= x < 2 ^ 15 → i16 (x mod 2 ^ 16) = x.
Proof.
  intros Hx. unfold i16, signed. rewrite Z.mod_mod by lia. fold (signed 16 x). apply signed_small; lia.
Qed.

Lemma addrs_addr i :
  length (addrs i) = 13%nat → addrs i = map (addr i) (seqZ 0 13).
Proof.
  intros Hl. apply list_eq. intros k. destruct (decide (k < 13)%nat) as [Hk | Hk].
  - destruct (lookup_lt_is_Some_2 (addrs i) k ltac:(lia)) as [x Hx]. rewrite Hx. symmetry.
    apply list_lookup_fmap_Some. exists (Z.of_nat k). split; [| apply lookup_seqZ; lia].
    unfold addr. by rewrite zget_nat, Hx.
  - rewrite !lookup_ge_None_2; [done | rewrite length_map, length_seqZ; lia | lia].
Qed.

Lemma write_dinode_ok v o i :
  is_block v → 0 <= o → o + DINODE <= BSIZE → inode_fits i →
  is_block (write_dinode v o i) ∧
  (∀ i0, on_disk (read_dinode (write_dinode v o i) o i0) = on_disk i) ∧
  (∀ k x, 0 <= x → x + Z.of_nat k <= o ∨ o + DINODE <= x → get_le k (write_dinode v o i) x = get_le k v x).
Proof.
  intros Hb Ho Hfit [F1 F2 F3 F4 F5 F6 F7]. unfold write_dinode. cbv zeta.
  assert (DINODE = 64 ∧ BSIZE = 1024 ∧ NDIRECT + 1 = 13) as (ED & EB & EN) by done. rewrite ED, EB, EN in *.
  destruct (put_block 2 v o (itype i) Hb) as (B1 & E1 & N1); [lia | rewrite EB; lia |]. fold (put16 v o (itype i)) in *.
  set (v1 := put16 v o (itype i)) in *.
  destruct (put_block 2 v1 (o + 2) (major i) B1) as (B2 & E2 & N2); [lia | rewrite EB; lia |].
  fold (put16 v1 (o + 2) (major i)) in *. set (v2 := put16 v1 (o + 2) (major i)) in *.
  destruct (put_block 2 v2 (o + 4) (minor i) B2) as (B3 & E3 & N3); [lia | rewrite EB; lia |].
  fold (put16 v2 (o + 4) (minor i)) in *. set (v3 := put16 v2 (o + 4) (minor i)) in *.
  destruct (put_block 2 v3 (o + 6) (nlink i) B3) as (B4 & E4 & N4); [lia | rewrite EB; lia |].
  fold (put16 v3 (o + 6) (nlink i)) in *. set (v4 := put16 v3 (o + 6) (nlink i)) in *.
  destruct (put_block 4 v4 (o + 8) (isize i) B4) as (B5 & E5 & N5); [lia | rewrite EB; lia |].
  fold (put32 v4 (o + 8) (isize i)) in *. set (v5 := put32 v4 (o + 8) (isize i)) in *.
  clearbody v1 v2 v3 v4 v5.
  destruct (put32s_ok v5 (o + 12) 13 (addr i)) as (P1 & P2 & P3 & P4); [lia | lia | destruct B5 as [-> _]; rewrite EB; lia |].
  split; [| split].
  - destruct B5 as [Hl5 Hb5]. split; [congruence | auto].
  - intros i0. unfold on_disk, read_dinode. cbn [itype major minor nlink isize addrs]. unfold get16.
    unfold get32 at 1. rewrite !P3 by lia. rewrite E5.
    rewrite (N5 2%nat o), (N4 2%nat o), (N3 2%nat o), (N2 2%nat o), E1 by lia.
    rewrite (N5 2%nat (o + 2)), (N4 2%nat (o + 2)), (N3 2%nat (o + 2)), E2 by lia.
    rewrite (N5 2%nat (o + 4)), (N4 2%nat (o + 4)), E3, (N5 2%nat (o + 6)), E4 by lia.
    change (8 * Z.of_nat 2) with 16. change (8 * Z.of_nat 4) with 32. rewrite !i16_u16, Z.mod_small by done.
    f_equal. rewrite (addrs_addr i F6), EN. apply list_fmap_ext. intros k x Hx. apply lookup_seqZ in Hx as [-> Hx].
    rewrite P2 by lia. by apply Z.mod_small.
  - intros k x Hx Hd. rewrite P3, N5, N4, N3, N2, N1 by lia. done.
Qed.

Section inode.
Context {B M : Type} `{HB : BlockStoreLaws B} `{!Memory M}.
Implicit Types (s : fstate B M) (V : contents) (i : inode) (sb : superblock) (L : gset Z).

(** ** iupdate *)

Lemma dip_range n : 0 <= n → 0 <= dip n ∧ dip n + DINODE <= BSIZE.
Proof. intros Hn. unfold dip. assert (IPB = 16 ∧ DINODE = 64 ∧ BSIZE = 1024) as (-> & -> & ->) by done. dlia. Qed.

Lemma IBLOCK_range sb n : geom sb → 0 <= n < sb_ninodes sb →
  bs_home (IBLOCK n sb) ∧ ¬ is_data sb (IBLOCK n sb) ∧ IBLOCK n sb ∉ bitmap sb.
Proof.
  intros Hg Hn. pose proof (g_inode _ Hg n Hn). pose proof (g_bmap _ Hg 0 ltac:(pose proof (g_size _ Hg); lia)).
  pose proof (g_nblocks _ Hg). split; [apply (g_home _ Hg); lia |]. split; [unfold is_data; lia |].
  intros H'. apply in_bitmap_inv in H' as (c & Hc & E). pose proof (g_bmap _ Hg c Hc). lia.
Qed.

(** [V] with the inode written to its place. *)
Definition with_dinode sb V i : contents :=
  <[IBLOCK (inum i) sb := write_dinode (V (IBLOCK (inum i) sb)) (dip (inum i)) i]> V.

Lemma iupdate_f s V L ip n k :
  let sb := fsb s in let i := geti s ip in
  geom sb → bs_rep (blk s) V ∅ L → idev i = ROOTDEV → 0 <= inum i < sb_ninodes sb → inode_fits i →
  room_for sb ∅ L n (S k) →
  runs [] (iupdate ip) s (λ _ s', ∃ b', s' = with_blk s b' ∧
    bs_rep b' (with_dinode sb V i) ∅ ({[IBLOCK (inum i) sb]} ∪ L)).
Proof.
  intros sb i Hg H Hdev Hn Hfit Hr. destruct (IBLOCK_range sb _ Hg Hn) as (Hh & _ & _).
  destruct (dip_range (inum i)) as [Hd1 Hd2]; [lia |].
  unfold iupdate. rstep. fold sb. rstep. fold i. rewrite Hdev.
  eapply runs_bind; [eapply bread_f; [exact H | apply empty_closed | by apply (room_open sb _ _ n k)] |].
  cbv beta. intros bp s1 (b1 & -> & Hbp & H1).
  eapply runs_bind; [eapply bdata_f; [exact H1 | apply lookup_insert_eq] |].
  cbv beta. intros v s2 (b2 & -> & -> & H2).
  eapply runs_conseq; [eapply store_log_relse; [exact H2 | done | | done | by apply (room_log sb ∅ L n (S k))] |].
  - apply write_dinode_ok; [by apply (bs_rep_block _ _ _ _ _ H) | done | done | done].
  - intros ? s3 (b3 & -> & H3). by exists b3.
Qed.

(** The inode on disk is the one in memory. *)
Definition synced sb V i : Prop :=
  on_disk (read_dinode (V (IBLOCK (inum i) sb)) (dip (inum i)) i) = on_disk i.

Lemma with_dinode_synced sb V i :
  is_block (V (IBLOCK (inum i) sb)) → 0 <= inum i → inode_fits i → synced sb (with_dinode sb V i) i.
Proof.
  intros Hb Hn Hfit. unfold synced, with_dinode. rewrite fn_lookup_insert.
  destruct (dip_range (inum i) Hn). by apply write_dinode_ok.
Qed.

(** Other inodes keep their place. *)
Lemma with_dinode_other sb V i n i0 :
  is_block (V (IBLOCK (inum i) sb)) → 0 <= inum i → inode_fits i → 0 <= n → n ≠ inum i →
  read_dinode (with_dinode sb V i (IBLOCK n sb)) (dip n) i0 = read_dinode (V (IBLOCK n sb)) (dip n) i0.
Proof.
  intros Hb Hi Hfit Hn Hne. unfold with_dinode. destruct (Z.eq_dec (IBLOCK n sb) (IBLOCK (inum i) sb)) as [E | E].
  - rewrite E, fn_lookup_insert. destruct (dip_range (inum i) Hi) as [D1 D2]. destruct (dip_range n Hn) as [D3 D4].
    destruct (write_dinode_ok (V (IBLOCK (inum i) sb)) (dip (inum i)) i Hb D1 D2 Hfit) as (_ & _ & Hother).
    assert (dip n + DINODE <= dip (inum i) ∨ dip (inum i) + DINODE <= dip n) as Hd.
    { unfold dip, IBLOCK in *. assert (IPB = 16 ∧ DINODE = 64) as (E1 & E2) by done. rewrite E1, E2 in *. dlia. }
    assert (DINODE = 64 ∧ NDIRECT + 1 = 13) as [ED EN] by done. rewrite ED in *.
    unfold read_dinode, get16. rewrite !(Hother 2%nat) by lia. unfold get32. rewrite (Hother 4%nat) by lia. f_equal.
    apply list_fmap_ext. intros k x Hx. rewrite EN in Hx. apply lookup_seqZ in Hx as [-> Hx]. apply Hother; lia.
  - by rewrite fn_lookup_insert_ne.
Qed.

(** ** Only metadata outside the bitmap changed *)

Definition same_data sb V V' : Prop := ∀ c, is_data sb c ∨ c ∈ bitmap sb → V' c = V c.

Lemma same_data_dinode sb V i :
  geom sb → 0 <= inum i < sb_ninodes sb → same_data sb V (with_dinode sb V i).
Proof.
  intros Hg Hn c Hc. destruct (IBLOCK_range sb _ Hg Hn) as (_ & H1 & H2).
  unfold with_dinode. apply fn_lookup_insert_ne. intros <-. tauto.
Qed.

Lemma same_data_used sb V V' b : same_data sb V V' → 0 <= b < sb_size sb → used sb V' b = used sb V b.
Proof. intros H Hb. apply used_ext; [| done]. intros c Hc. apply H. by right. Qed.

Lemma same_data_slot sb V V' i k :
  file_ok sb V i → same_data sb V V' → in_slots k → slot V' i k = slot V i k.
Proof.
  intros Hok H Hk. unfold slot. destruct (k =? MAXFILE) eqn:E; [done |]. unfold faddr.
  destruct (k <? NDIRECT); [done |]. destruct (Z.eqb_spec (addr i NDIRECT) 0) as [| Hne]; [done |].
  rewrite H; [done |]. left. rewrite <- (slot_indirect V) in Hne |- *.
  by apply (fo_slot _ _ _ Hok).
Qed.

Lemma same_data_file sb V V' i : geom sb → file_ok sb V i → same_data sb V V' → file_ok sb V' i.
Proof.
  intros Hg Hok H. pose proof (λ k, same_data_slot sb V V' i k Hok H) as Hs. constructor; try apply Hok.
  - intros k Hk. rewrite Hs by done. intros Hne. destruct (fo_slot _ _ _ Hok k Hk Hne) as [Hd Hu]. split; [done |].
    pose proof (data_pos _ _ Hg Hd). rewrite (same_data_used sb V) by (done || lia). done.
  - intros k k' Hk Hk'. rewrite !Hs by done. by apply (fo_inj _ _ _ Hok).
  - intros k Hk Hlt. pose proof (fo_full _ _ _ Hok k Hk Hlt) as Hf. pose proof (fo_size _ _ _ Hok).
    assert (0 <= k < MAXFILE) as Hr by (assert (BSIZE = 1024) as E by done; rewrite E in *; lia).
    rewrite <- slot_faddr in * by done. rewrite Hs by (unfold in_slots; lia). done.
Qed.

Lemma same_data_fblock sb V V' i k :
  file_ok sb V i → same_data sb V V' → 0 <= k < MAXFILE → fblock V' i k = fblock V i k.
Proof.
  intros Hok H Hk. unfold fblock. rewrite <- !slot_faddr by done.
  assert (in_slots k) as Hks by (unfold in_slots; lia). rewrite (same_data_slot sb V) by done.
  destruct (Z.eqb_spec (slot V i k) 0) as [| Hne]; [done |]. apply H. left. by apply (fo_slot _ _ _ Hok).
Qed.
End inode.
