(* ===== verification/FsIo.v ===== *)
(** * What readi and writei promise

    Files as byte strings: the theorems about reading and writing them. *)

From S2P Require Import Prelude Abi Monad Riscv Block Sleeplock Wp Store Fs FsAlloc FsFile FsRw FsInode.

Section io.
Context {B M : Type} `{HB : BlockStoreLaws B} `{!Memory M}.
Implicit Types (s : fstate B M) (V : contents) (i : inode) (sb : superblock) (L : gset Z) (bs : list Z).

(** ** writei *)

Lemma lookup_fcontent V i k :
  (k < Z.to_nat (isize i))%nat → fcontent V i !! k = Some (fbyte V i (Z.of_nat k)).
Proof.
  intros Hk. unfold fcontent. apply list_lookup_fmap_Some. exists (Z.of_nat k). split; [done |].
  apply lookup_seqZ. lia.
Qed.

Lemma length_fcontent V i : length (fcontent V i) = Z.to_nat (isize i).
Proof. unfold fcontent. by rewrite length_map, length_seqZ. Qed.

Lemma get_byte_lookup bs k : (k < length bs)%nat → bs !! k = Some (get_byte bs (Z.of_nat k)).
Proof.
  intros Hk. unfold get_byte. rewrite zget_nat. by destruct (lookup_lt_is_Some_2 bs k Hk) as [x ->].
Qed.

Lemma fcontent_wrote V i V' i' off bs :
  wrote V i V' i' off bs → 0 <= off <= isize i → isize i <= MAXFILE * BSIZE →
  off + Z.of_nat (length bs) <= MAXFILE * BSIZE →
  isize i' = Z.max (isize i) (off + Z.of_nat (length bs)) →
  fcontent V' i' = splice (fcontent V i) (Z.to_nat off) bs.
Proof.
  intros Hw Hoff Hsz Hmax Hsz'. apply list_eq. intros k. unfold splice.
  destruct (decide (k < Z.to_nat (isize i'))%nat) as [Hk | Hk].
  - rewrite lookup_fcontent by done. rewrite Hw by lia.
    destruct (Z.leb_spec off (Z.of_nat k)), (Z.ltb_spec (Z.of_nat k) (off + Z.of_nat (length bs))); cbn [andb]; try lia.
    + rewrite lookup_app_r; rewrite length_take, length_fcontent; [| lia].
      rewrite lookup_app_l by lia. rewrite get_byte_lookup by lia. do 2 f_equal. lia.
    + rewrite lookup_app_r; rewrite length_take, length_fcontent; [| lia].
      rewrite lookup_app_r by lia. rewrite lookup_drop, lookup_fcontent by lia. do 2 f_equal. lia.
    + rewrite lookup_app_l by (rewrite length_take, length_fcontent; lia).
      rewrite lookup_take_lt, lookup_fcontent by lia. done.
  - rewrite !lookup_ge_None_2; [done | | rewrite length_fcontent; lia].
    rewrite !length_app, length_take, length_drop, length_fcontent. lia.
Qed.

(** The inode with its blocks still fits on disk. *)
Lemma file_step_fits sb V i V' i' :
  geom sb → inode_fits i → file_step sb V i V' i' → 0 <= isize i' < 2 ^ 32 → inode_fits i'.
Proof.
  intros Hg [F1 F2 F3 F4 F5 F6 F7] St Hsz. pose proof (st_ok _ _ _ _ _ St) as Hok.
  destruct (st_same _ _ _ _ _ St) as (E1 & E2 & E3 & E4 & E5 & E6 & E7 & E8 & E9).
  constructor; try congruence; try done; [apply Hok |]. intros k.
  destruct (Z.eq_dec (addr i' k) 0) as [-> | Hne]; [done |].
  assert (∃ j, in_slots j ∧ addr i' k = slot V' i' j) as (j & Hj & E).
  { assert (MAXFILE = 268 ∧ NDIRECT = 12) as [EM EN] by done.
    assert (0 <= k <= 12) as Hk.
    { unfold addr in Hne. destruct (zget (addrs i') k) eqn:Ez; [| done]. apply zget_Some_range in Ez.
      rewrite (fo_len _ _ _ Hok) in Ez. lia. }
    destruct (Z.eq_dec k 12) as [-> |]; [exists MAXFILE; by rewrite slot_indirect |].
    exists k. rewrite slot_direct by lia. unfold in_slots. split; [lia | done]. }
  rewrite E in *. destruct (fo_slot _ _ _ Hok j Hj Hne) as [Hd _]. pose proof (data_pos _ _ Hg Hd). lia.
Qed.

(** The new size. *)
Lemma written_sized sb V i V' i' off bs :
  geom sb → file_ok sb V i → 0 <= off <= isize i → off + Z.of_nat (length bs) <= MAXFILE * BSIZE →
  written sb V i V' i' off bs →
  let i2 := if isize i' <? off + Z.of_nat (length bs) then set_isize (off + Z.of_nat (length bs)) i' else i' in
  isize i2 = Z.max (isize i) (off + Z.of_nat (length bs)) ∧
  file_step sb V i V' i2 ∧ wrote V i V' i2 off bs ∧ ∀ k, slot V' i2 k = slot V' i' k.
Proof.
  intros Hg Hok Hoff Hmax (St & Hsz & Hw & Hfull) i2. set (e := off + Z.of_nat (length bs)) in *.
  pose proof (fo_size _ _ _ Hok). assert (BSIZE = 1024 ∧ MAXFILE = 268) as [EB EM] by done.
  assert (isize i2 = Z.max (isize i) e) as Hsz2.
  { unfold i2. destruct (Z.ltb_spec (isize i') e); cbn [isize set_isize]; lia. }
  assert (∀ k, slot V' i2 k = slot V' i' k ∧ faddr V' i2 k = faddr V' i' k ∧ fbyte V' i2 k = fbyte V' i' k) as Hs.
  { intros k. unfold i2. by destruct (isize i' <? e). }
  split; [done |]. split; [| split; [intros o Ho; destruct (Hs o) as (_ & _ & ->); by apply Hw | intros k; apply Hs]].
  destruct St as [S1 S2 S3 S4 S5 S6 S7 S8].
  assert (idev i2 = idev i' ∧ length (addrs i2) = length (addrs i')) as [Ed El]
    by (unfold i2; by destruct (isize i' <? e)).
  constructor; [constructor | ..]; try done.
  - rewrite Ed. apply S1.
  - rewrite El. apply S1.
  - intros k Hk. destruct (Hs k) as (-> & _). by apply S1.
  - intros k k' Hk Hk'. destruct (Hs k) as (-> & _), (Hs k') as (-> & _). by apply S1.
  - rewrite Hsz2. lia.
  - intros k Hk Hlt. destruct (Hs k) as (_ & -> & _). rewrite Hsz2 in Hlt.
    destruct (Z.lt_ge_cases (k * BSIZE) (isize i')) as [Hl | Hge]; [by apply S1 |].
    apply Hfull; [rewrite EB in *; dlia | lia |]. intros ->. unfold e in Hlt. cbn [length] in Hlt. lia.
  - intros b Hb Hu. destruct (S4 b Hb Hu) as [| (k & Hk & E & Hne)]; [by left | right]. exists k.
    by destruct (Hs k) as (-> & _).
  - intros k Hk. destruct (Hs k) as (-> & _). by apply S5.
  - intros k Hk. destruct (Hs k) as (-> & _). by apply S6.
  - unfold i2. by destruct (isize i' <? e).
Qed.

Lemma same_data_wrote sb V i V' V'' i' off bs :
  file_ok sb V' i' → same_data sb V' V'' → wrote V i V' i' off bs → wrote V i V'' i' off bs.
Proof.
  intros Hok H Hw o Ho. rewrite <- Hw by done. unfold fbyte. rewrite (same_data_fblock sb V'); [done | done | done |].
  assert (BSIZE = 1024 ∧ MAXFILE = 268) as [EB EM] by done. rewrite EB, EM in *. dlia.
Qed.

(** The file system after [bs] has been written at [off] of the file. *)
Record file_written sb V i V' i' (off : Z) bs : Prop := {
  fw_ok : file_ok sb V' i';
  fw_meta : meta_used sb V';
  fw_fits : inode_fits i';
  fw_synced : synced sb V' i';
  fw_size : isize i' = Z.max (isize i) (off + Z.of_nat (length bs));
  fw_content : fcontent V' i' = splice (fcontent V i) (Z.to_nat off) bs;
  (* no block is lost: what became used belongs to the file *)
  fw_used : ∀ b, 0 <= b < sb_size sb →
     used sb V' b = true ↔ used sb V b = true ∨ ∃ k, in_slots k ∧ slot V' i' k = b ∧ b ≠ 0;
  (* other files and other inodes stay *)
  fw_frame : ∀ c, is_data sb c → used sb V c = true → (∀ k, in_slots k → slot V i k ≠ 0 → slot V i k ≠ c) → V' c = V c;
  fw_inodes : ∀ n i0, 0 <= n < sb_ninodes sb → n ≠ inum i →
     read_dinode (V' (IBLOCK n sb)) (dip n) i0 = read_dinode (V (IBLOCK n sb)) (dip n) i0;
  fw_same : idev i' = idev i ∧ inum i' = inum i ∧ iref i' = iref i ∧ ilk i' = ilk i ∧
     ivalid i' = ivalid i ∧ itype i' = itype i ∧ major i' = major i ∧ minor i' = minor i ∧
     nlink i' = nlink i }.

Lemma file_step_written sb V i V1 i1 off bs :
  geom sb → (∀ c, is_block (V1 c)) → inode_fits i → 0 <= inum i < sb_ninodes sb →
  file_ok sb V i → 0 <= off <= isize i → off + Z.of_nat (length bs) <= MAXFILE * BSIZE →
  file_step sb V i V1 i1 → wrote V i V1 i1 off bs →
  isize i1 = Z.max (isize i) (off + Z.of_nat (length bs)) →
  file_written sb V i (with_dinode sb V1 i1) i1 off bs ∧ inode_fits i1.
Proof.
  intros Hg Hb Hfit Hn Hok Hoff Hmax St Hw Hsz. pose proof (st_ok _ _ _ _ _ St) as Hok1.
  pose proof (fo_size _ _ _ Hok1) as Hsz1. assert (BSIZE = 1024 ∧ MAXFILE = 268) as [EB EM] by done.
  assert (inode_fits i1) as Hfit1 by (apply (file_step_fits sb V i V1); [done | done | done | rewrite EB, EM in *; lia]).
  destruct (st_same _ _ _ _ _ St) as (_ & En & _). assert (0 <= inum i1 < sb_ninodes sb) as Hn1 by lia.
  pose proof (same_data_dinode sb V1 i1 Hg Hn1) as Hsd. split; [constructor | done].
  - by apply (same_data_file sb V1).
  - intros b Hbr Hnd. rewrite (same_data_used sb V1) by done. by apply (st_meta _ _ _ _ _ St).
  - done.
  - apply with_dinode_synced; [done | lia | done].
  - done.
  - apply (fcontent_wrote V i); try done; [| apply Hok]. by apply (same_data_wrote sb V i V1).
  - intros b Hbr. rewrite (same_data_used sb V1) by done. split.
    + intros Hu. destruct (st_new _ _ _ _ _ St b Hbr Hu) as [| (k & Hk & E & Hne)]; [by left | right].
      exists k. by rewrite (same_data_slot sb V1).
    + intros [Hu | (k & Hk & E & Hne)]; [by apply (st_used _ _ _ _ _ St) |].
      rewrite (same_data_slot sb V1) in E by done. subst b. by apply (fo_slot _ _ _ Hok1).
  - intros c Hd Hu Hns. rewrite Hsd by (by left). apply (st_frame _ _ _ _ _ St); [by apply data_not_bitmap | done | done].
  - intros n i0 Hnr Hne. rewrite with_dinode_other by (done || lia || congruence).
    f_equal. destruct (IBLOCK_range sb n Hg Hnr) as (_ & H1 & H2).
    apply (st_frame _ _ _ _ _ St); [done | | done].
    intros k Hk Hs E. apply H1. rewrite <- E. by apply (fo_slot _ _ _ Hok).
  - apply St.
Qed.

Lemma writei_f s V L ip user src off bs n :
  let sb := fsb s in let i := geti s ip in
  geom sb → bs_rep (blk s) V ∅ L → in_table s ip → file_ok sb V i → meta_used sb V → inode_fits i →
  0 <= inum i < sb_ninodes sb → bytes bs → 0 <= off <= isize i →
  off + Z.of_nat (length bs) <= MAXFILE * BSIZE → 0 <= src < 2 ^ 64 → source (kmem s) user src bs →
  room_for sb ∅ L (2 * nspan off (length bs) + n) 2 → (2 * nspan off (length bs) <= nfree sb V)%nat →
  runs [] (writei ip user src off (Z.of_nat (length bs))) s (λ r s', r = Z.of_nat (length bs) ∧ ∃ b' V' i' L',
    s' = seti ip i' (with_blk s b') ∧ bs_rep b' V' ∅ ({[IBLOCK (inum i) sb]} ∪ L') ∧ room_for sb ∅ L' n 2 ∧
    file_written sb V i V' i' off bs).
Proof.
  intros sb i Hg H Hin Hok Hm Hfit Hn Hbs Hoff Hmax Hsrc Hs Hr Hfr.
  assert (BSIZE = 1024 ∧ MAXFILE = 268) as [EB EM] by done.
  unfold writei. rstep. fold i. rewrite u32_small by (rewrite EB, EM in *; lia).
  destruct (Z.ltb_spec (isize i) off); [lia |].
  destruct (Z.ltb_spec (off + Z.of_nat (length bs)) off); [lia |]. cbn [orb].
  destruct (Z.ltb_spec (MAXFILE * BSIZE) (off + Z.of_nat (length bs))); [lia |].
  eapply runs_bind; [apply (writei_loop_f ip user (Z.of_nat (length bs)) _ s V L src off 0 bs n); try done; try lia |].
  cbv beta. intros res s1 (-> & b1 & V1 & i1 & L1 & -> & H1' & Hw & Hr1). fold sb i in Hw, Hr1. cbn [fst snd].
  rstep. rewrite (geti_seti (with_blk s b1)), Z.eqb_refl by done.
  destruct (written_sized sb V i V1 i1 off bs Hg Hok Hoff Hmax Hw) as (Hsz & St & Hwr & Hsl).
  set (i2 := if _ <? _ then _ else i1) in *.
  eapply runs_bind with (R := λ _ s', s' = seti ip i2 (with_blk s b1)).
  { unfold i2, when. destruct (isize i1 <? _); [| by apply runs_ret].
    apply runs_modify. rewrite (geti_seti (with_blk s b1)), Z.eqb_refl by done. by rewrite seti_seti. }
  cbv beta. intros _ s2 ->.
  destruct (file_step_written sb V i V1 i2 off bs Hg (λ c, bs_rep_block _ _ _ _ c H1') Hfit Hn Hok Hoff Hmax St Hwr Hsz)
    as [Hfw Hfit2].
  destruct (fw_same _ _ _ _ _ _ _ Hfw) as (Ed & En & _).
  assert (geti (seti ip i2 (with_blk s b1)) ip = i2) as Eg by (by rewrite (geti_seti (with_blk s b1)), Z.eqb_refl).
  eapply runs_bind; [apply (iupdate_f (seti ip i2 (with_blk s b1)) V1 L1 ip n 1); rewrite ?Eg; try done |].
  - rewrite Ed. apply Hok.
  - rewrite En. apply Hn.
  - cbv beta. rewrite Eg. intros _ s3 (b3 & -> & H3). apply runs_ret.
    split; [unfold i32; rewrite signed_small; [done | lia | rewrite EB, EM in *; lia] |].
    exists b3, (with_dinode sb V1 i2), i2, L1. rewrite <- En. split; [done |]. split; [exact H3 |]. done.
Qed.

(** ** readi *)

(** The bytes of the file from [off] on. *)
Definition fslice V i (off : Z) (n : nat) : list Z := map (fbyte V i) (seqZ off (Z.of_nat n)).

Lemma fslice_app V i off n m : fslice V i off (n + m) = fslice V i off n ++ fslice V i (off + Z.of_nat n) m.
Proof. unfold fslice. rewrite <- map_app, Nat2Z.inj_add, seqZ_app by lia. done. Qed.

Lemma fslice_content V i off n :
  0 <= off → off + Z.of_nat n <= isize i → fslice V i off n = take n (drop (Z.to_nat off) (fcontent V i)).
Proof.
  intros H0 Hn. apply list_eq. intros k. unfold fslice. destruct (decide (k < n)%nat) as [Hk | Hk].
  - rewrite lookup_take_lt, lookup_drop, lookup_fcontent by lia. apply list_lookup_fmap_Some.
    exists (off + Z.of_nat k). split; [f_equal; lia | apply lookup_seqZ; lia].
  - rewrite !lookup_ge_None_2; [done | rewrite length_take; lia | rewrite length_map, length_seqZ; lia].
Qed.

Lemma fbyte_range V i o : (∀ c, is_block (V c)) → 0 <= fbyte V i o < 2 ^ 8.
Proof.
  intros Hb. unfold fbyte, fblock. destruct (_ =? 0); apply get_byte_range; [apply is_block_zero | apply Hb].
Qed.

Lemma bytes_fslice V i off n : (∀ c, is_block (V c)) → bytes (fslice V i off n).
Proof.
  intros Hb. apply Forall_forall. intros x Hx. apply list_elem_of_fmap in Hx as (o & -> & _). by apply fbyte_range.
Qed.

(** A part of a block is a part of the file. *)
Lemma slice_fslice V i off (m : nat) :
  (∀ c, is_block (V c)) → 0 <= off → off mod BSIZE + Z.of_nat m <= BSIZE → faddr V i (off / BSIZE) ≠ 0 →
  slice (V (faddr V i (off / BSIZE))) (off mod BSIZE) m = fslice V i off m.
Proof.
  intros Hb H0 Hm Hne. assert (BSIZE = 1024) as EB by done. destruct (Hb (faddr V i (off / BSIZE))) as [Hl _].
  pose proof (Z.mod_pos_bound off BSIZE ltac:(lia)) as Hmod.
  apply list_eq. intros k. unfold slice, fslice. destruct (decide (k < m)%nat) as [Hk | Hk].
  - rewrite lookup_take_lt, lookup_drop by done.
    rewrite get_byte_lookup by (rewrite Hl; lia). symmetry. apply list_lookup_fmap_Some.
    exists (off + Z.of_nat k). split; [| apply lookup_seqZ; lia]. unfold fbyte, fblock.
    assert ((off + Z.of_nat k) / BSIZE = off / BSIZE) as -> by (rewrite EB in *; dlia).
    destruct (Z.eqb_spec (faddr V i (off / BSIZE)) 0); [done |]. f_equal. rewrite EB in *. dlia.
  - rewrite !lookup_ge_None_2; [done | rewrite length_map, length_seqZ; lia | rewrite length_take; lia].
Qed.

(** [J l m]: the bytes [l] have been delivered to [dst] in memory [m]; the
    destination takes [n] bytes. *)
Definition sink (user : bool) (dst : Z) (n : nat) (J : list Z → M → Prop) : Prop :=
  ∀ l bs m, J l m → bytes bs → (length l + length bs <= n)%nat →
    runs [] (m_copyout user (u64 (dst + Z.of_nat (length l))) bs) m (λ r m', r ≠ -1 ∧ J (l ++ bs) m').

Lemma readi_loop_f ip user dst J n fuel s V L off l (len : nat) :
  let i := geti s ip in
  bs_rep (blk s) V ∅ L → (size L < bs_bufs)%nat → idev i = ROOTDEV → 0 <= isize i <= MAXFILE * BSIZE →
  (∀ k, 0 <= k → k * BSIZE < isize i → faddr V i k ≠ 0) →
  sink user dst (length l + len) J → J l (kmem s) → 0 <= off → off + Z.of_nat len <= isize i →
  Z.of_nat (length l) + Z.of_nat len = n → (len <= fuel)%nat →
  runs [] (readi_loop fuel ip user (u64 (dst + Z.of_nat (length l))) off n (Z.of_nat (length l))) s (λ r s',
    r = i32 n ∧ ∃ b' m', s' = with_mem (with_blk s b') m' ∧ bs_rep b' V ∅ L ∧ J (l ++ fslice V i off len) m').
Proof.
  intros i. revert s V L off l len i.
  induction fuel as [| fuel IH]; intros s V L off l len i H HL Hdev Hsz Hfull HJ Hl H0 Hoff Hn Hfuel;
    cbn [readi_loop]; (destruct (Z.ltb_spec (Z.of_nat (length l)) n) as [Hlt | Hge];
      [| assert (len = 0)%nat as -> by lia]).
  - lia.
  - apply runs_ret. split; [f_equal; lia |]. exists (blk s), (kmem s). rewrite app_nil_r. by destruct s.
  - assert (BSIZE = 1024 ∧ MAXFILE = 268) as [EB EM] by done. assert (0 < len)%nat as Hlen by lia.
    set (m := chunk off len). destruct (chunk_range off len H0 Hlen) as [Hc Hc2]. fold m in Hc, Hc2.
    assert (0 <= off / BSIZE < MAXFILE) as Hbn by (rewrite EB, EM in *; dlia).
    assert (faddr V i (off / BSIZE) ≠ 0) as Hne by (apply Hfull; [lia | rewrite EB in *; dlia]).
    eapply runs_bind; [by apply (bmap_read s V L ip (off / BSIZE)) |]. cbv beta. fold i.
    intros a s1 (b1 & -> & H1 & ->). rstep. change (geti (with_blk s b1) ip) with i. rewrite Hdev.
    eapply runs_bind; [eapply bread_f; [exact H1 | apply empty_closed | by rewrite map_size_empty] |].
    cbv beta. intros bp s2 (b2 & -> & Hbp & H2).
    eapply runs_bind; [eapply bdata_f; [exact H2 | apply lookup_insert_eq] |].
    cbv beta. intros v s3 (b3 & -> & -> & H3).
    assert (Z.min (n - Z.of_nat (length l)) (BSIZE - off mod BSIZE) = Z.of_nat m) as Em.
    { unfold m, chunk. replace (n - Z.of_nat (length l)) with (Z.of_nat len) by lia.
      pose proof (Z.mod_pos_bound off BSIZE ltac:(lia)). lia. }
    cbv zeta. rewrite Em, Nat2Z.id.
    rewrite slice_fslice; [| intros c; by apply (bs_rep_block _ _ _ _ c H) | done | done | done].
    assert (length (fslice V i off m) = m) as Lm by (unfold fslice; rewrite length_map, length_seqZ; lia).
    eapply runs_bind; [apply run_mem, HJ; [exact Hl | | rewrite Lm; lia] |].
    { apply bytes_fslice. intros c. by apply (bs_rep_block _ _ _ _ c H). }
    cbv beta. intros r s4 (m4 & -> & Hr & HJ4). destruct (Z.eqb_spec r (-1)); [done |].
    eapply runs_bind; [eapply brelse_f; [exact H3 | done] |]. cbv beta. intros _ s5 (b5 & -> & H5).
    rewrite (u32_small (off + Z.of_nat m)) by (rewrite EB, EM in *; lia).
    replace (u64 (u64 (dst + Z.of_nat (length l)) + Z.of_nat m))
      with (u64 (dst + Z.of_nat (length (l ++ fslice V i off m)))).
    2: { unfold u64. rewrite Z.add_mod_idemp_l by lia. rewrite length_app, Lm. f_equal. lia. }
    replace (Z.of_nat (length l) + Z.of_nat m) with (Z.of_nat (length (l ++ fslice V i off m)))
      by (rewrite length_app, Lm; lia).
    eapply runs_conseq; [apply (IH _ V L (off + Z.of_nat m) (l ++ fslice V i off m) (len - m)%nat) |]; try done; try lia.
    + rewrite length_app, Lm. intros l' bs' m'' HJ' Hb' Hle. apply HJ; [done | done | lia].
    + change (isize (geti (with_blk _ _) ip)) with (isize i). lia.
    + rewrite length_app, Lm. lia.
    + intros r' s6 (-> & b6 & m6 & -> & H6 & HJ6). split; [done |]. exists b6, m6. split; [done |]. split; [done |].
      change (geti (with_blk _ _) ip) with i in HJ6.
      replace len with (m + (len - m))%nat by lia. rewrite fslice_app, app_assoc. done.
  - apply runs_ret. split; [f_equal; lia |]. exists (blk s), (kmem s). rewrite app_nil_r. by destruct s.
Qed.

Lemma readi_f s V L ip user dst J off n :
  let i := geti s ip in
  bs_rep (blk s) V ∅ L → (size L < bs_bufs)%nat → idev i = ROOTDEV → 0 <= isize i <= MAXFILE * BSIZE →
  (∀ k, 0 <= k → k * BSIZE < isize i → faddr V i k ≠ 0) →
  0 <= dst < 2 ^ 64 → 0 <= off <= isize i → 0 <= n → off + n < 2 ^ 32 →
  let len := Z.to_nat (Z.min n (isize i - off)) in
  sink user dst len J → J [] (kmem s) →
  runs [] (readi ip user dst off n) s (λ r s', r = Z.of_nat len ∧
    ∃ b' m', s' = with_mem (with_blk s b') m' ∧ bs_rep b' V ∅ L ∧ J (fslice V i off len) m').
Proof.
  intros i H HL Hdev Hsz Hfull Hdst Hoff Hn Hmax len HJ Hl. assert (BSIZE = 1024 ∧ MAXFILE = 268) as [EB EM] by done.
  unfold readi. rstep. fold i. rewrite u32_small by lia. destruct (Z.ltb_spec (isize i) off); [lia |].
  destruct (Z.ltb_spec (off + n) off); [lia |]. cbn [orb].
  assert ((if isize i <? off + n then isize i - off else n) = Z.of_nat len) as ->.
  { unfold len. destruct (Z.ltb_spec (isize i) (off + n)); lia. }
  pose proof (readi_loop_f ip user dst J (Z.of_nat len) (Z.to_nat (Z.of_nat len)) s V L off [] len) as Hloop.
  cbv zeta in Hloop. fold i in Hloop. cbn [length] in Hloop.
  change (Z.of_nat 0) with 0 in Hloop. rewrite Z.add_0_r, u64_small in Hloop by done.
  eapply runs_conseq; [apply Hloop; try done; lia |].
  intros r s' (-> & Hs'). split; [| done]. unfold i32. apply signed_small; rewrite EB, EM in *; lia.
Qed.
End io.
