(* ===== verification/ProcMem.v ===== *)
(** * Memory for the file system

    The kernel's memory and the user memory of the calling process (Proc.v)
    are a memory as fs.c uses it (Store.v). *)

From S2P Require Import Prelude Monad Riscv Mem Block Kalloc Vm Proc Wp Store.

Section memory.
(** The calling process. *)
Context (me : Z).

Definition proc_memory : Memory procs := {|
  m_copyout := either_copyout me;
  m_copyin := either_copyin me;
  m_load a n := lift memL (gets (λ m, read_bytes (ram m) a n));
  m_save a bs := lift memL (modify (λ m, set_ram (write_bytes (ram m) a bs) m)) |}.

Definition kbyte (s : procs) (a : Z) : Z := mget (ram (mem_ s)) a.

Lemma mget_write_bytes m a bs x :
  bytes bs → mget (write_bytes m a bs) x = default (mget m x) (zget bs (x - a)).
Proof.
  intros Hb. destruct (zget bs (x - a)) as [b |] eqn:E; cbn [default from_option id].
  - pose proof (zget_Some_range _ _ _ E). replace x with (a + Z.of_nat (Z.to_nat (x - a))) by lia.
    replace (x - a) with (Z.of_nat (Z.to_nat (x - a))) in E by lia. rewrite zget_nat in E.
    rewrite (write_bytes_in _ _ _ _ b E). apply u8_small. exact (Forall_lookup_1 _ _ _ _ Hb E).
  - apply write_bytes_out. intros Hx. destruct (zget_is_Some bs (x - a)) as [? ?]; [lia | congruence].
Qed.

Lemma read_bytes_map m a k : read_bytes m a k = map (λ j, mget m (a + j)) (seqZ 0 (Z.of_nat k)).
Proof.
  apply list_eq. intros j. destruct (decide (j < k)%nat) as [Hj | Hj].
  - rewrite read_bytes_lookup by done. symmetry. apply list_lookup_fmap_Some.
    exists (Z.of_nat j). split; [done | apply lookup_seqZ; lia].
  - rewrite !lookup_ge_None_2; [done | rewrite length_map, length_seqZ; lia | rewrite length_read_bytes; lia].
Qed.

#[local] Existing Instance proc_memory.

Program Definition proc_memory_laws : MemoryLaws procs := {| m_byte := kbyte |}.
Next Obligation.
  intros m a bs Hb w n. eexists 0, [], _, w. split; [reflexivity |]. split; [done |]. split; [done |].
  intros x. by apply mget_write_bytes.
Qed.
Next Obligation.
  intros m a k w n. eexists _, [], m, w. split; [by destruct m |]. split; [done |]. split; [| done].
  f_equal. apply read_bytes_map.
Qed.
Next Obligation.
  intros m a k w n. eexists _, [], m, w. split; [by destruct m |]. split; [done |]. split; [| done].
  apply read_bytes_map.
Qed.
Next Obligation.
  intros m a bs Hb w n. eexists tt, [], _, w. split; [reflexivity |]. split; [done |].
  intros x. by apply mget_write_bytes.
Qed.
End memory.
