(* ===== verification/FsTrunc.v ===== *)
(** * Truncation: itrunc

    All blocks of the file, the indirect block included, go back to the
    bitmap, and nothing else does. *)

From S2P Require Import Prelude Abi Monad Riscv Block Sleeplock Wp Store Fs FsAlloc FsFile FsRw FsInode.

Section trunc.
Context {B M : Type} `{HB : BlockStoreLaws B} `{!Memory M}.
Implicit Types (s : fstate B M) (V : contents) (i : inode) (sb : superblock) (L : gset Z) (l : list Z).

(** From [V] to [V'] exactly the blocks of [l] became free. *)
Record frees sb V V' l : Prop := {
  fr_used : ∀ b, 0 <= b < sb_size sb → used sb V' b = used sb V b && bool_decide (b ∉ l);
  fr_frame : ∀ c, c ∉ bitmap sb → V' c = V c }.

Lemma frees_nil sb V : frees sb V V [].
Proof.
  constructor; [| done]. intros b _. rewrite bool_decide_true by apply not_elem_of_nil. by rewrite andb_true_r.
Qed.

Lemma frees_freed sb V a : 0 <= a < sb_size sb → is_block (V (BBLOCK a sb)) → frees sb V (freed sb V a) [a].
Proof.
  intros Ha Hb. constructor.
  - intros b _. rewrite used_freed by done. rewrite andb_comm. f_equal.
    destruct (Z.eqb_spec a b) as [-> |]; symmetry; [apply bool_decide_false | apply bool_decide_true]; set_solver.
  - intros c Hc. unfold freed. apply fn_lookup_insert_ne. intros <-. by apply Hc, in_bitmap.
Qed.

Lemma frees_app sb V V1 V2 l1 l2 : frees sb V V1 l1 → frees sb V1 V2 l2 → frees sb V V2 (l1 ++ l2).
Proof.
  intros [A1 A2] [B1 B2]. constructor.
  - intros b Hb. rewrite B1, A1 by done. rewrite <- andb_assoc. f_equal. rewrite <- bool_decide_and.
    apply bool_decide_ext. by rewrite not_elem_of_app.
  - intros c Hc. by rewrite B2, A2.
Qed.

(** The blocks of the slots [k], [k+1], ... *)
Definition slots V i (k n : Z) : list Z := filter (λ a, a ≠ 0) (map (slot V i) (seqZ k n)).

Lemma slots_S V i k n : 0 <= n → slots V i k (n + 1) = slots V i k n ++ (if slot V i (k + n) =? 0 then [] else [slot V i (k + n)]).
Proof.
  intros Hn. unfold slots. rewrite seqZ_app by lia. rewrite map_app, filter_app. f_equal.
  change (seqZ (k + n) 1) with [k + n]. cbn [map]. rewrite filter_cons.
  destruct (Z.eqb_spec (slot V i (k + n)) 0); [by rewrite decide_False by tauto | by rewrite decide_True].
Qed.

Lemma elem_slots V i k n a : a ∈ slots V i k n ↔ a ≠ 0 ∧ ∃ j, k <= j < k + n ∧ slot V i j = a.
Proof.
  unfold slots. rewrite list_elem_of_filter. split.
  - intros [Hne Ha]. apply list_elem_of_fmap in Ha as (j & -> & Hj). apply elem_of_seqZ in Hj. eauto.
  - intros [Hne (j & Hj & <-)]. split; [done |]. apply list_elem_of_fmap_2, elem_of_seqZ. lia.
Qed.

(** Same log budget: only bitmap blocks were logged. *)
Definition same_budget sb L L' : Prop := L' ∪ bitmap sb = L ∪ bitmap sb.

Lemma same_budget_room sb O L L' n k : same_budget sb L L' → room_for sb O L n k → room_for sb O L' n k.
Proof. intros E [H1 H2]. unfold room_for. by rewrite E. Qed.

(** A block of the file that is still in use. *)
Lemma slot_used sb V i V' k j :
  geom sb → file_ok sb V i → frees sb V V' (slots V i 0 k) → 0 <= k → k <= j <= MAXFILE → slot V i j ≠ 0 →
  is_data sb (slot V i j) ∧ used sb V' (slot V i j) = true.
Proof.
  intros Hg Hok Hf Hk Hj Hne. assert (in_slots j) as Hjs by (unfold in_slots; lia).
  destruct (fo_slot _ _ _ Hok j Hjs Hne) as [Hd Hu]. split; [done |]. pose proof (data_pos _ _ Hg Hd).
  rewrite (fr_used _ _ _ _ Hf) by lia. rewrite Hu, bool_decide_true; [done |]. intros Hin.
  apply elem_slots in Hin as [_ (j' & Hj' & E)]. symmetry in E.
  apply (fo_inj _ _ _ Hok) in E; [lia | done | unfold in_slots; lia | done].
Qed.

Lemma bfree_step s V O L a :
  geom (fsb s) → bs_rep (blk s) V O L → opens_used (fsb s) V O → is_data (fsb s) a →
  used (fsb s) V a = true → room_for (fsb s) O L 0 1 →
  runs [] (bfree ROOTDEV a) s (λ _ s', ∃ b' V' L', s' = with_blk s b' ∧ bs_rep b' V' O L' ∧
    frees (fsb s) V V' [a] ∧ same_budget (fsb s) L L').
Proof.
  intros Hg H Ho Hd Hu Hr. pose proof (data_pos _ _ Hg Hd) as Ha.
  eapply runs_conseq; [apply (bfree_f s V O L a Hg H Ho); [lia | done | done] |].
  intros ? s' (b' & -> & H'). eexists b', _, _. split; [done |]. split; [exact H' |]. split.
  - apply frees_freed; [lia | by apply (bs_rep_block _ _ _ _ _ H)].
  - unfold same_budget. assert (BBLOCK a (fsb s) ∈ bitmap (fsb s)) by (apply in_bitmap; lia). set_solver.
Qed.

(** [i] with its first [k] direct addresses cleared. *)
Definition cleared i (k : Z) (i' : inode) : Prop :=
  i' = set_addrs (addrs i') i ∧ length (addrs i') = 13%nat ∧
  ∀ j, 0 <= j <= NDIRECT → addr i' j = if j <? k then 0 else addr i j.

Lemma itrunc_direct s V L ip :
  let sb := fsb s in let i := geti s ip in
  geom sb → bs_rep (blk s) V ∅ L → in_table s ip → file_ok sb V i → room_for sb ∅ L 0 1 →
  runs [] (for_each (seqZ 0 NDIRECT) (λ k,
    i <- gets (λ s, geti s ip) ;;
    when (negb (addr i k =? 0))
      (bfree (idev i) (addr i k) ;;
       updi ip (set_addr k 0)))) s (λ _ s', ∃ b' V' L' i', s' = seti ip i' (with_blk s b') ∧
    bs_rep b' V' ∅ L' ∧ same_budget sb L L' ∧ cleared i NDIRECT i' ∧ frees sb V V' (slots V i 0 NDIRECT)).
Proof.
  intros sb i Hg H Hin Hok Hr. assert (MAXFILE = 268 ∧ NDIRECT = 12) as [EM EN] by done.
  apply (runs_for_each _ _ _ (λ l s', ∃ k b' V' L' i', 0 <= k <= NDIRECT ∧ l = seqZ k (NDIRECT - k) ∧
    s' = seti ip i' (with_blk s b') ∧ bs_rep b' V' ∅ L' ∧ same_budget sb L L' ∧ cleared i k i' ∧
    frees sb V V' (slots V i 0 k))).
  - exists 0, (blk s), V, L, i. split; [lia |]. split; [f_equal; lia |]. split; [unfold i; destruct s; symmetry; by apply seti_id |].
    split; [done |]. split; [done |]. split; [| apply frees_nil].
    split; [by destruct i | split; [apply Hok |]]. intros j Hj. destruct (Z.ltb_spec j 0); [lia | done].
  - intros k0 l' s' (k & b' & V' & L' & i' & Hk & El & -> & H' & HL & (Ei & Li & Ai) & Hf).
    destruct (Z.eq_dec k NDIRECT) as [-> | Hne]; [by rewrite Z.sub_diag in El |].
    rewrite seqZ_cons in El by lia. injection El as -> ->.
    rstep. rewrite (geti_seti (with_blk s b')), Z.eqb_refl by done.
    assert (idev i' = ROOTDEV) as Hdev by (rewrite Ei; apply Hok).
    assert (addr i' k = slot V i k) as Ek.
    { rewrite Ai by lia. rewrite slot_direct by lia. by destruct (Z.ltb_spec k k); [lia |]. }
    rewrite Ek. unfold when. destruct (Z.eqb_spec (slot V i k) 0) as [E0 | E0]; cbn [negb].
    + apply runs_ret. exists (k + 1), b', V', L', i'. split; [lia |]. split; [f_equal; lia |]. do 3 (split; [done |]).
      split.
      * split; [done |]. split; [done |]. intros j Hj. destruct (Z.ltb_spec j (k + 1)).
        -- destruct (Z.eq_dec j k) as [-> |]; [congruence |]. rewrite Ai by done. destruct (Z.ltb_spec j k); [done | lia].
        -- rewrite Ai by done. destruct (Z.ltb_spec j k); [lia | done].
      * rewrite slots_S, Z.add_0_l, E0 by lia. cbn [Z.eqb]. by rewrite app_nil_r.
    + rewrite Hdev. destruct (slot_used sb V i V' k k Hg Hok Hf) as [Hd Hu]; [lia | lia | done |].
      eapply runs_bind; [eapply (bfree_step _ V' ∅ L'); [exact Hg | exact H' | apply opens_used_empty | exact Hd | exact Hu |] |].
      { by apply (same_budget_room sb ∅ L L'). }
      cbv beta. intros ? s2 (b2 & V2 & L2 & -> & H2 & Hf2 & HL2). change (fsb _) with sb in Hf2, HL2.
      apply runs_modify. exists (k + 1), b2, V2, L2, (set_addr k 0 i'). split; [lia |]. split; [f_equal; lia |].
      split. { rewrite with_blk_seti, (geti_seti (with_blk s b2)), Z.eqb_refl by done. by rewrite seti_seti. }
      split; [done |]. split; [unfold same_budget in *; congruence |]. split.
      * split; [rewrite Ei; by destruct i |]. split; [unfold set_addr; cbn [addrs set_addrs]; by rewrite length_zset |].
        intros j Hj. rewrite addr_set_addr by (done || lia). rewrite Ai by done.
        destruct (Z.eqb_spec k j), (Z.ltb_spec j (k + 1)), (Z.ltb_spec j k); done || lia.
      * rewrite slots_S, Z.add_0_l by lia. destruct (Z.eqb_spec (slot V i k) 0); [done |]. by apply (frees_app sb V V').
  - intros s' (k & b' & V' & L' & i' & Hk & El & Hrest). assert (k = NDIRECT) as ->.
    { destruct (Z.eq_dec k NDIRECT); [done |]. by rewrite seqZ_cons in El by lia. }
    by exists b', V', L', i'.
Qed.

(** The entries of the indirect block [e], open in [bp]. *)
Lemma itrunc_entries s V V1 L1 i bp :
  let sb := fsb s in let e := addr i NDIRECT in
  geom sb → file_ok sb V i → e ≠ 0 → frees sb V V1 (slots V i 0 NDIRECT) →
  bs_rep (blk s) V1 {[bp := (e, false)]} L1 → room_for sb {[bp := (e, false)]} L1 0 1 →
  runs [] (for_each (seqZ 0 NINDIRECT) (λ j,
    v <- bdata bp ;;
    when (negb (get32 v (4 * j) =? 0)) (bfree ROOTDEV (get32 v (4 * j))))) s (λ _ s', ∃ b' V' L',
    s' = with_blk s b' ∧ bs_rep b' V' {[bp := (e, false)]} L' ∧ same_budget sb L1 L' ∧
    frees sb V V' (slots V i 0 MAXFILE)).
Proof.
  intros sb e Hg Hok He Hf H Hr. assert (MAXFILE = 268 ∧ NDIRECT = 12 ∧ NINDIRECT = 256) as (EM & EN & EI) by done.
  assert (slot V i MAXFILE = e) as Ee by apply slot_indirect.
  assert (e ∉ bitmap sb) as Heb.
  { destruct (slot_used sb V i V1 NDIRECT MAXFILE Hg Hok Hf) as [Hd _]; [lia | lia | by rewrite Ee |].
    rewrite Ee in Hd. by apply data_not_bitmap. }
  apply (runs_for_each _ _ _ (λ l s', ∃ k b' V' L', 0 <= k <= NINDIRECT ∧ l = seqZ k (NINDIRECT - k) ∧
    s' = with_blk s b' ∧ bs_rep b' V' {[bp := (e, false)]} L' ∧ same_budget sb L1 L' ∧
    frees sb V V' (slots V i 0 (NDIRECT + k)))).
  - exists 0, (blk s), V1, L1. split; [lia |]. split; [f_equal; lia |]. split; [by destruct s |]. done.
  - intros k0 l' s' (k & b' & V' & L' & Hk & El & -> & H' & HL & Hf').
    destruct (Z.eq_dec k NINDIRECT) as [-> | Hne]; [by rewrite Z.sub_diag in El |].
    rewrite seqZ_cons in El by lia. injection El as -> ->.
    eapply runs_bind; [eapply bdata_f; [exact H' | apply lookup_singleton_eq] |].
    cbv beta. intros v s2 (b2 & -> & -> & H2). rewrite (fr_frame _ _ _ _ Hf' e Heb).
    assert (get32 (V e) (4 * k) = slot V i (NDIRECT + k)) as Ek.
    { rewrite slot_entry by lia. fold e. destruct (Z.eqb_spec e 0); [done |]. f_equal. lia. }
    rewrite Ek. unfold when. pose proof (slots_S V i 0 (NDIRECT + k) ltac:(lia)) as ES.
    rewrite Z.add_0_l in ES. destruct (Z.eqb_spec (slot V i (NDIRECT + k)) 0) as [E0 | E0]; cbn [negb].
    + apply runs_ret. exists (k + 1), b2, V', L'. split; [lia |]. split; [f_equal; lia |]. do 3 (split; [done |]).
      rewrite Z.add_assoc, ES, app_nil_r. done.
    + destruct (slot_used sb V i V' (NDIRECT + k) (NDIRECT + k) Hg Hok Hf') as [Hd Hu]; [lia | lia | done |].
      destruct (slot_used sb V i V' (NDIRECT + k) MAXFILE Hg Hok Hf') as [Hde Hue]; [lia | lia | by rewrite Ee |].
      rewrite Ee in Hde, Hue.
      eapply runs_conseq; [eapply (bfree_step _ V' {[bp := (e, false)]} L'); [exact Hg | exact H2 | | exact Hd | exact Hu |] |].
      { intros b (j & d & Hj). apply lookup_singleton_Some in Hj as [_ [= <- _]]. done. }
      { by apply (same_budget_room sb _ L1 L'). }
      intros ? s3 (b3 & V3 & L3 & -> & H3 & Hf3 & HL3). change (fsb _) with sb in Hf3, HL3.
      exists (k + 1), b3, V3, L3. split; [lia |]. split; [f_equal; lia |]. split; [done |]. split; [done |].
      split; [unfold same_budget in *; congruence |]. rewrite Z.add_assoc, ES. by apply (frees_app sb V V').
  - intros s' (k & b' & V' & L' & Hk & El & Hrest). assert (k = NINDIRECT) as ->.
    { destruct (Z.eq_dec k NINDIRECT); [done |]. by rewrite seqZ_cons in El by lia. }
    by exists b', V', L'.
Qed.

(** The inode of an empty file. *)
Definition emptied i : inode := set_isize 0 (set_addrs (replicate 13 0) i).

Lemma cleared_all i i' :
  i' = set_addrs (addrs i') i → length (addrs i') = 13%nat → (∀ j, 0 <= j <= NDIRECT → addr i' j = 0) →
  set_isize 0 i' = emptied i.
Proof.
  intros Ei Hl H. assert (addrs i' = replicate 13 0) as Ea; [| rewrite Ea in Ei; unfold emptied; by rewrite Ei].
  apply list_eq. intros k. destruct (decide (k < 13)%nat) as [Hk | Hk].
  - rewrite lookup_replicate_2 by done. destruct (lookup_lt_is_Some_2 (addrs i') k ltac:(lia)) as [x Hx].
    specialize (H (Z.of_nat k)). unfold addr in H. rewrite zget_nat, Hx in *.
    f_equal. apply H. assert (NDIRECT = 12) by done. lia.
  - rewrite !lookup_ge_None_2; [done | rewrite length_replicate; lia | lia].
Qed.

(** The second half: the indirect block and its entries. *)
Lemma itrunc_indirect s V V1 L1 ip i1 :
  let sb := fsb s in let i := geti s ip in
  geom sb → file_ok sb V i → in_table s ip → cleared i NDIRECT i1 → frees sb V V1 (slots V i 0 NDIRECT) →
  ∀ b1, bs_rep b1 V1 ∅ L1 → room_for sb ∅ L1 0 2 →
  runs [] (when (negb (addr i1 NDIRECT =? 0))
    (bp <- bread (idev i1) (addr i1 NDIRECT) ;;
     for_each (seqZ 0 NINDIRECT) (λ j,
       v <- bdata bp ;;
       when (negb (get32 v (4 * j) =? 0)) (bfree (idev i1) (get32 v (4 * j)))) ;;
     brelse bp ;;
     bfree (idev i1) (addr i1 NDIRECT) ;;
     updi ip (set_addr NDIRECT 0))) (seti ip i1 (with_blk s b1)) (λ _ s', ∃ b' V' L' i', s' = seti ip i' (with_blk s b') ∧
    bs_rep b' V' ∅ L' ∧ same_budget sb L1 L' ∧ set_isize 0 i' = emptied i ∧ frees sb V V' (slots V i 0 (MAXFILE + 1))).
Proof.
  intros sb i Hg Hok Hin (Ei & Li & Ai) Hf b1 H1 Hr.
  assert (MAXFILE = 268 ∧ NDIRECT = 12 ∧ NINDIRECT = 256) as (EM & EN & EI) by done.
  assert (slot V i MAXFILE = addr i NDIRECT) as Ee by apply slot_indirect.
  assert (addr i1 NDIRECT = addr i NDIRECT) as E1 by (rewrite Ai by lia; by rewrite Z.ltb_irrefl).
  pose proof (slots_S V i 0 MAXFILE ltac:(lia)) as ES. rewrite Z.add_0_l, Ee in ES.
  rewrite E1. unfold when. destruct (Z.eqb_spec (addr i NDIRECT) 0) as [E0 | E0]; cbn [negb].
  - apply runs_ret. exists b1, V1, L1, i1. do 3 (split; [done |]). split.
    + apply cleared_all; [done | done |]. intros j Hj. rewrite Ai by done. destruct (Z.ltb_spec j NDIRECT); [done |].
      replace j with NDIRECT by lia. done.
    + rewrite ES, app_nil_r. replace (slots V i 0 MAXFILE) with (slots V i 0 NDIRECT); [done |].
      unfold slots. replace MAXFILE with (NDIRECT + NINDIRECT) by lia. rewrite seqZ_app, map_app, filter_app by lia.
      rewrite <- (app_nil_r (filter _ (map _ (seqZ 0 NDIRECT)))) at 1. f_equal. symmetry.
      apply elem_of_nil_inv. intros a Ha. apply list_elem_of_filter in Ha as [Hne Ha].
      apply list_elem_of_fmap in Ha as (j & -> & Hj). apply elem_of_seqZ in Hj.
      rewrite slot_entry, E0 in Hne by lia. by destruct Hne.
  - assert (idev i1 = ROOTDEV) as -> by (rewrite Ei; apply Hok).
    eapply runs_bind; [eapply bread_f; [exact H1 | apply empty_closed | by apply (room_open sb ∅ L1 0 1)] |].
    cbv beta. intros bp s2 (b2 & -> & Hbp & H2). rewrite with_blk_seti.
    eapply runs_bind; [apply (itrunc_entries (seti ip i1 (with_blk s b2)) V V1 L1 i bp Hg Hok E0 Hf H2) |].
    { by apply (room_opened sb ∅ L1 0 1). }
    cbv beta. intros _ s3 (b3 & V3 & L3 & -> & H3 & HL3 & Hf3). change (fsb _) with sb in HL3, Hf3.
    eapply runs_bind; [eapply brelse_f; [exact H3 | done] |]. cbv beta. intros _ s4 (b4 & -> & H4).
    destruct (slot_used sb V i V3 MAXFILE MAXFILE Hg Hok Hf3) as [Hd Hu]; [lia | lia | by rewrite Ee |].
    rewrite Ee in Hd, Hu.
    eapply runs_bind; [eapply (bfree_step _ V3 ∅ L3); [exact Hg | exact H4 | apply opens_used_empty | exact Hd | exact Hu |] |].
    { apply (same_budget_room sb ∅ L1 L3); [done |]. by apply (room_less sb ∅ L1 0 0 2 1); [| lia | lia]. }
    cbv beta. intros ? s5 (b5 & V5 & L5 & -> & H5 & Hf5 & HL5). change (fsb _) with sb in Hf5, HL5.
    apply runs_modify. exists b5, V5, L5, (set_addr NDIRECT 0 i1).
    split. { rewrite !with_blk_seti, (geti_seti (with_blk s b5)), Z.eqb_refl by done. by rewrite seti_seti. }
    split; [done |]. split; [unfold same_budget in *; congruence |]. split.
    + apply cleared_all.
      * rewrite Ei. by destruct i.
      * unfold set_addr. cbn [addrs set_addrs]. by rewrite length_zset.
      * intros j Hj. rewrite addr_set_addr, Ai by (done || lia).
        destruct (Z.eqb_spec NDIRECT j), (Z.ltb_spec j NDIRECT); done || lia.
    + rewrite ES. by apply (frees_app sb V V3).
Qed.

(** The file system after the file is truncated: exactly its blocks are free
    again, and its inode is that of an empty file. *)
Record truncated sb V i V' : Prop := {
  tr_used : ∀ b, 0 <= b < sb_size sb →
     used sb V' b = true ↔ used sb V b = true ∧ ∀ k, in_slots k → slot V i k ≠ b ∨ b = 0;
  tr_frame : ∀ c, is_data sb c → V' c = V c;
  tr_synced : synced sb V' (emptied i);
  tr_inodes : ∀ n i0, 0 <= n < sb_ninodes sb → n ≠ inum i →
     read_dinode (V' (IBLOCK n sb)) (dip n) i0 = read_dinode (V (IBLOCK n sb)) (dip n) i0;
  tr_ok : file_ok sb V' (emptied i);
  tr_meta : meta_used sb V' }.

Lemma emptied_fits i : inode_fits i → inode_fits (emptied i).
Proof.
  intros [F1 F2 F3 F4 F5 F6 F7]. constructor; try done. intros k. unfold emptied, addr.
  cbn [addrs set_isize set_addrs]. unfold zget. destruct (k <? 0); [done |].
  destruct (replicate 13 0 !! Z.to_nat k) eqn:E; [| done]. by apply lookup_replicate in E as [-> _].
Qed.

Lemma addr_emptied i k : addr (emptied i) k = 0.
Proof.
  unfold emptied, addr. cbn [addrs set_isize set_addrs]. unfold zget. destruct (k <? 0); [done |].
  destruct (replicate 13 0 !! Z.to_nat k) eqn:E; [| done]. by apply lookup_replicate in E as [-> _].
Qed.

Lemma slot_emptied V i k : slot V (emptied i) k = 0.
Proof. unfold slot, faddr. rewrite !addr_emptied. by destruct (k =? MAXFILE), (k <? NDIRECT). Qed.

Lemma file_ok_emptied sb V i : idev i = ROOTDEV → file_ok sb V (emptied i).
Proof.
  intros Hdev. constructor; try done.
  - intros k _ Hne. by rewrite slot_emptied in Hne.
  - intros k k' _ _ Hne. by rewrite slot_emptied in Hne.
  - intros k Hk Hlt. unfold emptied in Hlt. cbn [isize set_isize] in Hlt. assert (BSIZE = 1024) as E by done. lia.
Qed.

Lemma itrunc_f s V L ip n :
  let sb := fsb s in let i := geti s ip in
  geom sb → bs_rep (blk s) V ∅ L → in_table s ip → file_ok sb V i → meta_used sb V → inode_fits i →
  0 <= inum i < sb_ninodes sb → room_for sb ∅ L n 2 →
  runs [] (itrunc ip) s (λ _ s', ∃ b' V' L', s' = seti ip (emptied i) (with_blk s b') ∧
    bs_rep b' V' ∅ ({[IBLOCK (inum i) sb]} ∪ L') ∧ same_budget sb L L' ∧ truncated sb V i V').
Proof.
  intros sb i Hg H Hin Hok Hm Hfit Hn Hr.
  assert (MAXFILE = 268 ∧ NDIRECT = 12 ∧ NINDIRECT = 256) as (EM & EN & EI) by done.
  unfold itrunc. eapply runs_bind; [apply (itrunc_direct s V L ip Hg H Hin Hok) |].
  { by apply (room_less sb ∅ L n 0 2 1); [| lia | lia]. }
  cbv beta. intros _ s1 (b1 & V1 & L1 & i1 & -> & H1 & HL1 & Hc1 & Hf1). fold sb i in HL1, Hc1, Hf1.
  rstep. rewrite (geti_seti (with_blk s b1)), Z.eqb_refl by done.
  eapply runs_bind; [apply (itrunc_indirect s V V1 L1 ip i1 Hg Hok Hin Hc1 Hf1 b1 H1) |].
  { apply (same_budget_room sb ∅ L L1); [done |]. by apply (room_less sb ∅ L n 0 2 2); [| lia | lia]. }
  cbv beta. intros _ s2 (b2 & V2 & L2 & i2 & -> & H2 & HL2 & Ei2 & Hf2). fold sb i in HL2, Ei2, Hf2.
  unfold updi. rstep. rewrite (geti_seti (with_blk s b2)), Z.eqb_refl, seti_seti, Ei2 by done.
  assert (geti (seti ip (emptied i) (with_blk s b2)) ip = emptied i) as Eg
    by (by rewrite (geti_seti (with_blk s b2)), Z.eqb_refl).
  assert (same_budget sb L L2) as HL by (unfold same_budget in *; congruence).
  assert (room_for sb ∅ L2 n 2) as Hr2 by (by apply (same_budget_room sb ∅ L L2)).
  eapply runs_conseq; [apply (iupdate_f (seti ip (emptied i) (with_blk s b2)) V2 L2 ip n 1); rewrite ?Eg; try done |].
  - apply Hok.
  - by apply emptied_fits.
  - rewrite Eg. intros ? s3 (b3 & -> & H3). eexists b3, _, L2. split; [done |]. split; [exact H3 |]. split; [done |].
    change (inum (emptied i)) with (inum i) in H3.
    pose proof (same_data_dinode sb V2 (emptied i) Hg Hn) as Hsd.
    assert (∀ b, 0 <= b < sb_size sb → used sb (with_dinode sb V2 (emptied i)) b = true ↔
      used sb V b = true ∧ ∀ k, in_slots k → slot V i k ≠ b ∨ b = 0) as Hu.
    { intros b Hb. rewrite (same_data_used sb V2), (fr_used _ _ _ _ Hf2) by done.
      rewrite andb_true_iff, bool_decide_eq_true, elem_slots. apply and_iff_compat_l. split.
      - intros Hns k Hk. destruct (Z.eq_dec b 0); [by right | left]. intros E. apply Hns. split; [done |].
        exists k. unfold in_slots in Hk. split; [lia | done].
      - intros Hns [Hb0 (k & Hk & E)]. destruct (Hns k); [unfold in_slots; lia | done | done]. }
    constructor.
    + done.
    + intros c Hd. rewrite Hsd by (by left). apply Hf2. by apply data_not_bitmap.
    + apply with_dinode_synced; [by apply (bs_rep_block _ _ _ _ _ H2) | apply Hn | by apply emptied_fits].
    + intros m i0 Hm' Hne.
      rewrite with_dinode_other; [| by apply (bs_rep_block _ _ _ _ _ H2) | apply Hn | by apply emptied_fits | lia | done].
      f_equal. apply Hf2. by apply IBLOCK_range.
    + apply file_ok_emptied, Hok.
    + intros b Hb Hnd. apply Hu; [done |]. split; [by apply Hm |]. intros k Hk.
      destruct (Z.eq_dec b 0); [by right | left]. intros <-. by apply Hnd, (fo_slot _ _ _ Hok).
Qed.
End trunc.
