(* ===== verification/FsTable.v ===== *)
(** * The inode table: iget, idup, ilock, iunlock, iput

    Reference counts, locks, and the copies of disk inodes in memory. *)

From S2P Require Import Prelude Abi Monad Riscv Block Sleeplock Wp Store Fs FsAlloc FsFile FsRw FsInode FsTrunc.

(** ** iget's scan *)

(** Entry [ip] is in use for inode [n] of device [d]. *)
Definition entry_is (d n : Z) (ip : inode) : bool := (0 <? iref ip) && (idev ip =? d) && (inum ip =? n).

Lemma iget_scan_spec l k d n empty :
  match iget_scan l k d n empty with
  | inl i => ∃ l1 ip l2, l = l1 ++ ip :: l2 ∧ i = k + Z.of_nat (length l1) ∧ entry_is d n ip = true ∧
      Forall (λ ip, entry_is d n ip = false) l1
  | inr r => Forall (λ ip, entry_is d n ip = false) l ∧
      match empty with
      | Some e => r = Some e
      | None => match r with
                | None => Forall (λ ip, iref ip ≠ 0) l
                | Some e => ∃ l1 ip l2, l = l1 ++ ip :: l2 ∧ e = k + Z.of_nat (length l1) ∧ iref ip = 0 ∧
                    Forall (λ ip, iref ip ≠ 0) l1
                end
      end
  end.
Proof.
  revert k empty. induction l as [| ip l IH]; intros k empty; cbn [iget_scan].
  { split; [constructor |]. destruct empty; [done | constructor]. }
  fold (entry_is d n ip). destruct (entry_is d n ip) eqn:E.
  { exists [], ip, l. split; [done |]. split; [simpl; lia |]. split; [done | constructor]. }
  set (empty' := match empty with Some e => Some e | None => if iref ip =? 0 then Some k else None end).
  specialize (IH (k + 1) empty'). destruct (iget_scan l (k + 1) d n empty') as [i | r].
  - destruct IH as (l1 & ip' & l2 & -> & -> & H1 & H2). exists (ip :: l1), ip', l2.
    split; [done |]. split; [simpl; lia |]. split; [done | by constructor].
  - destruct IH as [Hl Hr]. split; [by constructor |]. subst empty'. destruct empty as [e |]; [done |].
    destruct (Z.eqb_spec (iref ip) 0) as [E0 | E0].
    + subst r. exists [], ip, l. split; [done |]. split; [simpl; lia |]. split; [done | constructor].
    + destruct r as [e |]; [| by constructor]. destruct Hr as (l1 & ip' & l2 & -> & -> & H1 & H2).
      exists (ip :: l1), ip', l2. split; [done |]. split; [simpl; lia |]. split; [done | by constructor].
Qed.

Section table.
Context {B M : Type} `{HB : BlockStoreLaws B} `{!Memory M}.
Context (mypid : Z).
Implicit Types (s : fstate B M) (V : contents) (i : inode) (sb : superblock) (L : gset Z).

(** An inode is in the table at most once; counts are [int]s. *)
Record itable_ok s : Prop := {
  it_ref : ∀ k, in_table s k → 0 <= iref (geti s k) < 2 ^ 31 - 1;
  it_uniq : ∀ k k', in_table s k → in_table s k' → 0 < iref (geti s k) → 0 < iref (geti s k') →
    idev (geti s k) = idev (geti s k') → inum (geti s k) = inum (geti s k') → k = k' }.

Lemma geti_split s l1 i l2 : itable s = l1 ++ i :: l2 → in_table s (Z.of_nat (length l1)) ∧ geti s (Z.of_nat (length l1)) = i.
Proof.
  intros E. unfold in_table, geti. rewrite E. split; [rewrite length_app; simpl; lia |].
  by rewrite zget_nat, list_lookup_middle.
Qed.

Lemma geti_in s k : in_table s k → geti s k ∈ itable s.
Proof.
  intros Hk. unfold geti. destruct (zget_is_Some _ _ Hk) as [x Hx]. rewrite Hx. cbn [default from_option id].
  unfold zget in Hx. destruct (k <? 0); [done |]. by apply list_elem_of_lookup_2 in Hx.
Qed.

(** What [iget] gives: one more reference to the entry of the inode. *)
Record got s (d n ip : Z) (i' : inode) : Prop := {
  gt_in : in_table s ip;
  gt_id : idev i' = d ∧ inum i' = n;
  gt_ref : iref i' = iref (geti s ip) + 1;
  gt_lock : ilk i' = ilk (geti s ip);
  (* an entry that was in use is as it was; otherwise the copy is not valid *)
  gt_old : (0 < iref (geti s ip) ∧ i' = set_ref (iref (geti s ip) + 1) (geti s ip)) ∨
           (iref (geti s ip) = 0 ∧ ivalid i' = false ∧
            ∀ k, in_table s k → entry_is d n (geti s k) = false) }.

Lemma iget_f s d n :
  itable_ok s → (∃ k, in_table s k ∧ iref (geti s k) = 0) ∨ (∃ k, in_table s k ∧ entry_is d n (geti s k) = true) →
  runs [] (iget d n) s (λ ip s', ∃ i', s' = seti ip i' s ∧ got s d n ip i').
Proof.
  intros Hok Hroom. unfold iget. apply wp_bind, wp_acquire; [apply not_elem_of_nil |]. apply wp_bind, wp_gets.
  pose proof (iget_scan_spec (itable s) 0 d n None) as Hs.
  destruct (iget_scan (itable s) 0 d n None) as [ip | [ip |]].
  - destruct Hs as (l1 & i & l2 & El & -> & He & _). rewrite Z.add_0_l. destruct (geti_split s l1 i l2 El) as [Hin Hg].
    apply wp_bind, wp_modify. apply wp_bind, wp_release; [apply not_elem_of_nil |]. apply wp_ret. split; [done |].
    eexists. split; [done |]. unfold entry_is in He. rewrite !andb_true_iff, Z.ltb_lt, !Z.eqb_eq in He.
    rewrite Hg. pose proof (it_ref _ Hok _ Hin) as Hr. rewrite Hg in Hr.
    unfold i32. rewrite signed_small by lia. constructor; rewrite ?Hg; try done; [by destruct He as [[_ ?] ?] |]. left. split; [lia | done].
  - destruct Hs as (Hall & l1 & i & l2 & El & -> & H0 & _). rewrite Z.add_0_l. destruct (geti_split s l1 i l2 El) as [Hin Hg].
    apply wp_bind, wp_modify. apply wp_bind, wp_release; [apply not_elem_of_nil |]. apply wp_ret. split; [done |].
    eexists. split; [done |]. rewrite Hg. constructor; rewrite ?Hg; try done; [cbn; lia |].
    right. split; [done |]. split; [done |]. intros k Hk. rewrite Forall_forall in Hall. by apply Hall, geti_in.
  - exfalso. destruct Hs as [Hall Hne]. rewrite Forall_forall in Hall, Hne.
    destruct Hroom as [(k & Hk & H0) | (k & Hk & He)].
    + by apply (Hne (geti s k)); [apply geti_in |].
    + by rewrite Hall in He by (by apply geti_in).
Qed.

(** The table keeps its invariant. *)
Lemma got_itable_ok s d n ip i' :
  itable_ok s → iref (geti s ip) < 2 ^ 31 - 2 → got s d n ip i' → itable_ok (seti ip i' s).
Proof.
  intros [Hr Hu] Hlt [Hin [Hd Hn] Href _ Hold].
  assert (∀ k, in_table (seti ip i' s) k ↔ in_table s k) as Htab.
  { intros k. unfold in_table, seti. cbn [itable]. by rewrite length_zset. }
  constructor.
  - intros k Hk. rewrite geti_seti by done. apply Htab in Hk. destruct (Z.eqb_spec ip k) as [-> |]; [| by apply Hr].
    pose proof (Hr k Hk). lia.
  - assert (∀ k, in_table s k → k ≠ ip → 0 < iref (geti s k) → ¬ (idev i' = idev (geti s k) ∧ inum i' = inum (geti s k))) as Hx.
    { intros k Hk Hne Hpos [E1 E2]. destruct Hold as [[Hp Ei] | (_ & _ & Hno)].
      - apply Hne. rewrite Ei in E1, E2. by apply Hu.
      - specialize (Hno k Hk). unfold entry_is in Hno. rewrite <- E1, <- E2, Hd, Hn, !Z.eqb_refl in Hno.
        destruct (Z.ltb_spec 0 (iref (geti s k))); [done | lia]. }
    intros k k' Hk Hk'. apply Htab in Hk, Hk'. rewrite !geti_seti by done.
    destruct (Z.eqb_spec ip k) as [<- |], (Z.eqb_spec ip k') as [<- |]; intros P1 P2 E1 E2; try done.
    + by destruct (Hx k' Hk').
    + by destruct (Hx k Hk).
    + by apply Hu.
Qed.

Lemma idup_f s ip :
  itable_ok s → in_table s ip → 0 < iref (geti s ip) →
  runs [] (idup ip) s (λ r s', r = ip ∧ s' = seti ip (set_ref (iref (geti s ip) + 1) (geti s ip)) s).
Proof.
  intros Hok Hin Hpos. unfold idup. apply wp_bind, wp_acquire; [apply not_elem_of_nil |].
  apply wp_bind, wp_modify. apply wp_bind, wp_release; [apply not_elem_of_nil |]. apply wp_ret. split; [done |].
  split; [done |]. pose proof (it_ref _ Hok _ Hin). unfold i32. by rewrite signed_small by lia.
Qed.

(** ** Locks *)

Definition my_lock : sleeplock := SleepLock true mypid.

Lemma seti_set_ilk s ip (v : sleeplock) : lput (inode_lock ip) v s = seti ip (set_ilk v (geti s ip)) s.
Proof. done. Qed.

Lemma lock_inode_f s ip h :
  L_sleep (SL_inode ip) ∉ h → sl_locked (ilk (geti s ip)) = false →
  runs h (lift (inode_lock ip) (acquiresleep mypid (SL_inode ip))) s (λ _ s', s' = seti ip (set_ilk my_lock (geti s ip)) s).
Proof.
  intros Hh Hl. apply runs_lift. intros w n. eexists tt, h, my_lock, w. split; [| done].
  by apply (acquiresleep_free mypid (SL_inode ip)).
Qed.

Lemma unlock_inode_f s ip h :
  L_sleep (SL_inode ip) ∉ h →
  runs h (lift (inode_lock ip) (releasesleep (SL_inode ip))) s (λ _ s', s' = seti ip (set_ilk initsleeplock (geti s ip)) s).
Proof.
  intros Hh. apply runs_lift. intros w n. eexists tt, h, initsleeplock, _. split; [| done].
  by apply (releasesleep_ok (SL_inode ip)).
Qed.

(** The copy of inode [n] of the disk in an entry. *)
Definition loaded sb V i : inode := set_ivalid true (read_dinode (V (IBLOCK (inum i) sb)) (dip (inum i)) i).

Lemma ilock_f s V L ip :
  let sb := fsb s in let i := geti s ip in
  bs_rep (blk s) V ∅ L → (size L < bs_bufs)%nat → in_table s ip → 1 <= iref i → sl_locked (ilk i) = false →
  idev i = ROOTDEV → (ivalid i = false → itype (loaded sb V i) ≠ 0) →
  runs [] (ilock mypid ip) s (λ _ s', ∃ b',
    s' = seti ip (set_ilk my_lock (if ivalid i then i else loaded sb V i)) (with_blk s b') ∧ bs_rep b' V ∅ L).
Proof.
  intros sb i H HL Hin Href Hlk Hdev Hty. unfold ilock. rstep. fold i.
  destruct (Z.eqb_spec ip NULL) as [-> |]; [by destruct Hin |]. destruct (Z.ltb_spec (iref i) 1); [lia |]. cbn [orb].
  eapply runs_bind; [by apply lock_inode_f; [apply not_elem_of_nil |] |]. cbv beta. intros _ s1 ->. fold i.
  rstep. rewrite geti_seti, Z.eqb_refl by done. cbn [ivalid set_ilk].
  destruct (ivalid i) eqn:Ev.
  { apply runs_ret. exists (blk s). split; [by destruct s | done]. }
  rstep. change (fsb (seti _ _ s)) with sb. cbn [idev inum set_ilk]. rewrite Hdev.
  eapply runs_bind; [eapply bread_f; [exact H | apply empty_closed | by rewrite map_size_empty] |].
  cbv beta. intros bp s2 (b2 & -> & Hbp & H2).
  eapply runs_bind; [eapply bdata_f; [exact H2 | apply lookup_insert_eq] |].
  cbv beta. intros v s3 (b3 & -> & -> & H3). unfold updi. rstep. rewrite !with_blk_seti.
  rewrite (geti_seti (with_blk _ b3)), Z.eqb_refl, seti_seti by done.
  eapply runs_bind; [eapply brelse_f; [exact H3 | done] |]. cbv beta. intros _ s4 (b4 & -> & H4).
  rstep. rewrite with_blk_seti, (geti_seti (with_blk _ b4)), Z.eqb_refl, seti_seti by done.
  rewrite (geti_seti (with_blk _ b4)), Z.eqb_refl by done.
  specialize (Hty eq_refl). match goal with |- context [?t =? 0] => destruct (Z.eqb_spec t 0) as [E |]; [by destruct Hty |] end.
  apply runs_ret. exists b4. done.
Qed.

Lemma iunlock_f s ip :
  in_table s ip → 1 <= iref (geti s ip) → ilk (geti s ip) = my_lock →
  runs [] (iunlock mypid ip) s (λ _ s', s' = seti ip (set_ilk initsleeplock (geti s ip)) s).
Proof.
  intros Hin Href Hlk. unfold iunlock. destruct (Z.eqb_spec ip NULL) as [-> |]; [by destruct Hin |].
  eapply runs_bind with (R := λ r s', r = true ∧ s' = s).
  { apply runs_lift. intros w n'. eexists true, [], (ilk (geti s ip)), w. split.
    - cbn [lget inode_lock]. rewrite holdingsleep_ok by apply not_elem_of_nil. rewrite Hlk. cbn [sl_locked sl_pid my_lock].
      by rewrite Z.eqb_refl.
    - split; [done |]. split; [done |]. cbn [lput inode_lock]. replace (set_ilk _ _) with (geti s ip); [by apply seti_id |].
      by destruct (geti s ip). }
  intros r s' [-> ->]. rstep. destruct (Z.ltb_spec (iref (geti s ip)) 1); [lia |]. cbn [negb orb].
  apply unlock_inode_f, not_elem_of_nil.
Qed.

(** ** iput *)

(** The last reference of an inode without links. *)
Definition last_ref i : bool := (iref i =? 1) && ivalid i && (nlink i =? 0).

Definition dropped i : inode := set_ref (iref i - 1) i.

Lemma iput_f s ip :
  itable_ok s → in_table s ip → 0 < iref (geti s ip) → last_ref (geti s ip) = false →
  runs [] (iput mypid ip) s (λ _ s', s' = seti ip (dropped (geti s ip)) s).
Proof.
  intros Hok Hin Hpos Hlast. unfold iput. apply wp_bind, wp_acquire; [apply not_elem_of_nil |]. apply wp_bind, wp_gets.
  fold (last_ref (geti s ip)). rewrite Hlast. apply wp_bind, wp_ret. apply wp_bind, wp_modify.
  apply wp_release; [apply not_elem_of_nil |]. split; [done |]. pose proof (it_ref _ Hok _ Hin).
  unfold i32, dropped. by rewrite signed_small by lia.
Qed.

Lemma dropped_itable_ok s ip : itable_ok s → in_table s ip → 0 < iref (geti s ip) → itable_ok (seti ip (dropped (geti s ip)) s).
Proof.
  intros [Hr Hu] Hin Hpos.
  assert (∀ k, in_table (seti ip (dropped (geti s ip)) s) k ↔ in_table s k) as Htab.
  { intros k. unfold in_table, seti. cbn [itable]. by rewrite length_zset. }
  assert (∀ k, geti (seti ip (dropped (geti s ip)) s) k = if ip =? k then dropped (geti s k) else geti s k) as Hg.
  { intros k. rewrite geti_seti by done. by destruct (Z.eqb_spec ip k) as [-> |]. }
  constructor.
  - intros k Hk. apply Htab in Hk. rewrite Hg. pose proof (Hr k Hk). destruct (Z.eqb_spec ip k) as [<- |]; cbn; lia.
  - intros k k' Hk Hk'. apply Htab in Hk, Hk'. rewrite !Hg. pose proof (Hr k Hk). pose proof (Hr k' Hk').
    intros P1 P2 E1 E2. apply Hu; try done.
    + destruct (ip =? k); [| done]. cbn in P1. lia.
    + destruct (ip =? k'); [| done]. cbn in P2. lia.
    + by destruct (ip =? k), (ip =? k').
    + by destruct (ip =? k), (ip =? k').
Qed.

Lemma file_ok_ilk sb V i v : file_ok sb V i → file_ok sb V (set_ilk v i).
Proof. intros H. constructor; apply H. Qed.

Lemma inode_fits_ilk i v : inode_fits i → inode_fits (set_ilk v i).
Proof. intros H. constructor; apply H. Qed.

(** The inode as [iput] leaves it on disk: no blocks, and of no type. *)
Definition unused i : inode := set_itype 0 (emptied i).

Lemma unused_fits i : inode_fits i → inode_fits (unused i).
Proof. intros H. apply emptied_fits in H. constructor; try apply H. done. Qed.

Lemma iput_last s V L ip n :
  let sb := fsb s in let i := geti s ip in
  itable_ok s → geom sb → bs_rep (blk s) V ∅ L → in_table s ip → file_ok sb V i → meta_used sb V → inode_fits i →
  0 <= inum i < sb_ninodes sb → room_for sb ∅ L (S n) 2 →
  last_ref i = true → sl_locked (ilk i) = false →
  runs [] (iput mypid ip) s (λ _ s', ∃ b' V1 L',
    s' = seti ip (dropped (set_ilk initsleeplock (set_ivalid false (unused i)))) (with_blk s b') ∧
    truncated sb V i V1 ∧ (∀ c, is_block (V1 c)) ∧
    bs_rep b' (with_dinode sb V1 (unused i)) ∅ ({[IBLOCK (inum i) sb]} ∪ L') ∧ same_budget sb L L').
Proof.
  intros sb i Hok Hg H Hin Hf Hm Hfit Hn Hr Hlast Hlk.
  unfold iput. apply wp_bind, wp_acquire; [apply not_elem_of_nil |]. apply wp_bind, wp_gets.
  fold i. fold (last_ref i). rewrite Hlast. apply wp_bind, wp_bind.
  eapply wp_conseq; [apply lock_inode_f; [set_solver | done] |]. intros _ h1 s1 [-> ->]. fold i. apply wp_bind, wp_release; [apply not_elem_of_nil |].
  set (i1 := set_ilk my_lock i). set (s1 := seti ip i1 s).
  assert (geti s1 ip = i1) as E1 by (unfold s1; by rewrite geti_seti, Z.eqb_refl).
  assert (in_table s1 ip) as Hin1 by (unfold in_table, s1, seti; cbn [itable]; by rewrite length_zset).
  apply wp_bind. eapply wp_conseq.
  { apply (itrunc_f s1 V L ip (S n)); rewrite ?E1; try done; [by apply file_ok_ilk | by apply inode_fits_ilk]. }
  cbv beta zeta. intros _ h2 s2 (-> & b2 & V2 & L2 & -> & H2 & HL & Ht). rewrite E1 in *.
  change (fsb s1) with sb in H2, HL, Ht. change (inum i1) with (inum i) in H2.
  apply wp_bind, wp_modify. rewrite (geti_seti (with_blk s1 b2)), Z.eqb_refl, seti_seti by done.
  unfold s1. rewrite with_blk_seti, seti_seti. set (i2 := set_itype 0 (emptied i1)).
  set (s2 := seti ip i2 (with_blk s b2)).
  assert (geti s2 ip = i2) as E2 by (unfold s2; by rewrite (geti_seti (with_blk s b2)), Z.eqb_refl).
  assert (room_for sb ∅ ({[IBLOCK (inum i) sb]} ∪ L2) n 1) as Hr2.
  { apply room_logged, (same_budget_room sb ∅ L L2); [done |]. apply (room_less sb ∅ L (S n) (S n) 2 1); [done | lia | lia]. }
  apply wp_bind. eapply wp_conseq.
  { apply (iupdate_f s2 V2 ({[IBLOCK (inum i) sb]} ∪ L2) ip n 0); rewrite ?E2; try done; [apply Hf | by apply unused_fits, inode_fits_ilk]. }
  cbv beta zeta. intros _ h3 s3 (-> & b3 & -> & H3). rewrite E2 in H3. change (fsb s2) with sb in H3.
  apply wp_bind, wp_modify. unfold s2. rewrite with_blk_seti, (geti_seti (with_blk _ b3)), Z.eqb_refl, seti_seti by done.
  apply wp_bind. eapply wp_conseq; [apply unlock_inode_f, not_elem_of_nil |]. intros _ h4 s4 [-> ->].
  rewrite (geti_seti (with_blk _ b3)), Z.eqb_refl, seti_seti by done.
  apply wp_acquire; [apply not_elem_of_nil |]. apply wp_bind, wp_modify.
  rewrite (geti_seti (with_blk _ b3)), Z.eqb_refl, seti_seti by done. apply wp_release; [apply not_elem_of_nil |].
  split; [done |]. exists b3, V2, L2. pose proof (it_ref _ Hok _ Hin) as Href. fold i in Href. split.
  - unfold dropped, i32. by rewrite signed_small by (cbn; lia).
  - split; [constructor; try apply Ht; constructor; apply (tr_ok _ _ _ _ Ht) |].
    split; [intros c; by apply (bs_rep_block _ _ _ _ c H2) |]. split; [| done].
    replace ({[IBLOCK (inum i) sb]} ∪ L2) with ({[IBLOCK (inum i) sb]} ∪ ({[IBLOCK (inum i) sb]} ∪ L2)) by set_solver.
    apply H3.
Qed.
End table.
