(* ===== verification/FsDir.v ===== *)
(** * Directories

    A directory is a file of entries.  Looking a name up, and adding one. *)

From S2P Require Import Prelude Abi Monad Riscv Mem Block Sleeplock Wp Store Fs FsAlloc FsFile FsRw FsInode FsIo FsTrunc FsTable.

(** ** Names *)

(** The characters before the NUL. *)
Fixpoint cname (l : list Z) : list Z :=
  match l with
  | c :: l => if c =? 0 then [] else c :: cname l
  | [] => []
  end.

Lemma cname_zeros l k : cname (l ++ replicate k 0) = cname l.
Proof.
  induction l as [| c l IH]; cbn [app cname].
  - by destruct k.
  - by rewrite IH.
Qed.

Lemma strncmp_cname m p q n :
  strncmp m p q n = 0 ↔ cname (read_bytes m p n) = cname (read_bytes m q n).
Proof.
  revert p q. induction n as [| n IH]; intros p q; [done |]. cbn [strncmp read_bytes cname].
  destruct (Z.eqb_spec (mget m p) 0) as [E1 | E1]; cbn [negb andb].
  - rewrite E1. destruct (Z.eqb_spec (mget m q) 0) as [-> | E2]; [done |]. split; [lia | done].
  - destruct (Z.eqb_spec (mget m p) (mget m q)) as [<- | E2].
    + destruct (Z.eqb_spec (mget m p) 0); [done |]. rewrite IH. split; [by intros -> | by intros [= ->]].
    + destruct (Z.eqb_spec (mget m q) 0); [split; [lia | done] |]. split; [lia | by intros [= ?]].
Qed.

Lemma read_padded m a l n :
  (length l <= n)%nat → (∀ k, (k < n)%nat → mget m (a + Z.of_nat k) = default 0 (l !! k)) →
  read_bytes m a n = l ++ replicate (n - length l) 0.
Proof.
  intros Hle H. apply list_eq. intros k. destruct (decide (k < n)%nat) as [Hk | Hk].
  - rewrite read_bytes_lookup, H by done. destruct (l !! k) as [x |] eqn:E.
    + by rewrite (lookup_app_l_Some _ _ _ x).
    + apply lookup_ge_None_1 in E. rewrite lookup_app_r by done. symmetry. apply lookup_replicate. split; [done | lia].
  - rewrite !lookup_ge_None_2; [done | rewrite length_app, length_replicate; lia | rewrite length_read_bytes; lia].
Qed.

Lemma mget_written (m : mem) a l k :
  bytes l → mget (write_bytes m a l) (a + Z.of_nat k) = default (mget m (a + Z.of_nat k)) (l !! k).
Proof.
  intros Hb. destruct (l !! k) as [x |] eqn:E; cbn [default from_option id].
  - rewrite (write_bytes_in _ _ _ _ x E). apply u8_small. exact (Forall_lookup_1 _ _ _ _ Hb E).
  - apply write_bytes_out. apply lookup_ge_None_1 in E. lia.
Qed.

(** Two names are the same for namecmp when they are the same as strings. *)
Lemma namecmp_zero s t :
  bytes s → bytes t → Z.of_nat (length s) <= DIRSIZ → Z.of_nat (length t) <= DIRSIZ →
  namecmp s t = 0 ↔ cname s = cname t.
Proof.
  intros Hs Ht Ls Lt. unfold namecmp. rewrite strncmp_cname.
  assert (DIRSIZ = 14) as ED by done. rewrite (read_padded _ 0 s), (read_padded _ DIRSIZ t), !cname_zeros; [done | lia | | lia |].
  - intros k Hk. rewrite mget_written by done. f_equal. by apply write_bytes_out; lia.
  - intros k Hk. rewrite write_bytes_out by lia. by rewrite (mget_written ∅ 0).
Qed.

(** ** The entries of a directory *)

Definition dirent_at (c : list Z) (off : Z) : list Z := slice c off (Z.to_nat DIRENT).

Definition ent_inum (e : list Z) : Z := get16 e 0.

Definition ent_name (e : list Z) : list Z := cname (slice e 2 (Z.to_nat DIRSIZ)).

Definition ent_is (e : list Z) (name : list Z) : bool :=
  negb (ent_inum e =? 0) && bool_decide (ent_name e = cname name).

(** The first of [n] entries from [off] with the name: its offset and number. *)
Fixpoint find_name (n : nat) (c : list Z) (off : Z) (name : list Z) : option (Z * Z) :=
  match n with
  | O => None
  | S n =>
      if ent_is (dirent_at c off) name then Some (off, ent_inum (dirent_at c off))
      else find_name n c (off + DIRENT) name
  end.

Definition nents (c : list Z) : nat := Z.to_nat (Z.of_nat (length c) / DIRENT).

(** What directory [c] says of a name. *)
Definition dir_lookup (c : list Z) (name : list Z) : option (Z * Z) := find_name (nents c) c 0 name.

(** The offset of the first empty entry, or the end. *)
Fixpoint find_free (n : nat) (c : list Z) (off : Z) : Z :=
  match n with
  | O => off
  | S n => if ent_inum (dirent_at c off) =? 0 then off else find_free n c (off + DIRENT)
  end.

Definition dir_free (c : list Z) : Z := find_free (nents c) c 0.

(** ** Adding an entry *)

(** The entry that dirlink writes. *)
Definition dirent (name : list Z) (n : Z) : list Z := Z_to_little_endian 2 8 n ++ dirent_name name.

Lemma length_dirent name n : length (dirent name n) = Z.to_nat DIRENT.
Proof.
  unfold dirent, dirent_name. rewrite length_app, (length_le 2), length_take, length_app, length_replicate.
  assert (DIRENT = 16 ∧ DIRSIZ = 14) as [-> ->] by done. lia.
Qed.

Lemma bytes_dirent_name name : bytes name → bytes (dirent_name name).
Proof. intros H. apply Forall_take, Forall_app. split; [done |]. by apply Forall_replicate. Qed.

Lemma bytes_dirent name n : bytes name → bytes (dirent name n).
Proof. intros H. apply Forall_app. split; [apply (bytes_le 2) | by apply bytes_dirent_name]. Qed.

Lemma cname_dirent_name name : Z.of_nat (length name) <= DIRSIZ → cname (dirent_name name) = cname name.
Proof.
  intros H. unfold dirent_name. rewrite take_app_ge by lia. by rewrite take_replicate, cname_zeros.
Qed.

Lemma ent_dirent name n :
  0 <= n < 2 ^ 16 → Z.of_nat (length name) <= DIRSIZ →
  ent_inum (dirent name n) = n ∧ ent_name (dirent name n) = cname name.
Proof.
  intros Hn Hl. unfold ent_inum, ent_name, get16, get_le, slice, dirent. split.
  - change (Z.to_nat 0) with 0%nat. rewrite drop_0, take_app_length' by (symmetry; apply (length_le 2 n)).
    rewrite little_endian_to_Z_to_little_endian by lia. by apply Z.mod_small.
  - rewrite drop_app_length' by (symmetry; apply (length_le 2 n)). rewrite take_ge by (unfold dirent_name; rewrite length_take; lia).
    by apply cname_dirent_name.
Qed.

Lemma lookup_splice {A} (l l' : list A) n k :
  (n <= length l)%nat → splice l n l' !! k = if decide (n <= k < n + length l')%nat then l' !! (k - n)%nat else l !! k.
Proof.
  intros Hn. unfold splice. destruct (decide (k < n)%nat) as [H1 | H1].
  - rewrite lookup_app_l by (rewrite length_take; lia). rewrite lookup_take_lt by done. by rewrite decide_False by lia.
  - rewrite lookup_app_r by (rewrite length_take; lia). rewrite length_take, Nat.min_l by done.
    destruct (decide (n <= k < n + length l')%nat) as [H2 | H2].
    + by rewrite lookup_app_l by lia.
    + rewrite lookup_app_r by lia. rewrite lookup_drop. f_equal. lia.
Qed.

(** Writing an entry changes that entry only. *)
Lemma dirent_at_splice c e x y :
  length e = Z.to_nat DIRENT → 0 <= x <= Z.of_nat (length c) → (DIRENT | x) → 0 <= y → (DIRENT | y) →
  dirent_at (splice c (Z.to_nat x) e) y = if y =? x then e else dirent_at c y.
Proof.
  intros Le Hx [p Hp] Hy [q Hq]. assert (DIRENT = 16) as ED by done. rewrite ED in *. unfold dirent_at, slice. rewrite ED.
  apply list_eq. intros k. destruct (decide (k < Z.to_nat 16)%nat) as [Hk | Hk].
  - rewrite lookup_take_lt, lookup_drop, lookup_splice by lia. rewrite Le.
    destruct (Z.eqb_spec y x) as [-> | Hne].
    + rewrite decide_True by lia. f_equal. lia.
    + rewrite decide_False by lia. rewrite lookup_take_lt, lookup_drop by done. done.
  - rewrite lookup_take_ge by lia. destruct (y =? x); [by rewrite lookup_ge_None_2 by lia | by rewrite lookup_take_ge by lia].
Qed.

Lemma find_free_range n c off : off <= find_free n c off <= off + Z.of_nat n * DIRENT ∧ (DIRENT | find_free n c off - off).
Proof.
  assert (DIRENT = 16) as ED by done. revert off. induction n as [| n IH]; intros off; cbn [find_free].
  - split; [lia |]. exists 0. lia.
  - destruct (_ =? 0).
    + split; [lia |]. exists 0. lia.
    + destruct (IH (off + DIRENT)) as [H1 [q Hq]]. split; [lia |]. exists (q + 1). lia.
Qed.

Lemma find_name_ext n c c' off nm :
  (∀ k, 0 <= k < Z.of_nat n → dirent_at c' (off + k * DIRENT) = dirent_at c (off + k * DIRENT)) →
  find_name n c' off nm = find_name n c off nm.
Proof.
  revert off. induction n as [| n IH]; intros off H; [done |]. cbn [find_name].
  pose proof (H 0 ltac:(lia)) as H0. rewrite Z.mul_0_l, Z.add_0_r in H0. rewrite H0.
  destruct (ent_is _ _); [done |]. apply IH. intros k Hk. specialize (H (k + 1) ltac:(lia)).
  replace (off + DIRENT + k * DIRENT) with (off + (k + 1) * DIRENT) by lia. done.
Qed.

Lemma find_name_link n c c' e off nm :
  let f := find_free n c off in
  (∀ k, 0 <= k <= Z.of_nat n → dirent_at c' (off + k * DIRENT) = if off + k * DIRENT =? f then e else dirent_at c (off + k * DIRENT)) →
  ent_inum e ≠ 0 → (ent_name e = cname nm → find_name n c off nm = None) →
  find_name (if f =? off + Z.of_nat n * DIRENT then S n else n) c' off nm =
    if bool_decide (ent_name e = cname nm) then Some (f, ent_inum e) else find_name n c off nm.
Proof.
  assert (DIRENT = 16) as ED by done.
  revert off. induction n as [| n IH]; intros off f H He Hnone; cbn [find_name find_free] in *.
  - subst f. rewrite Z.mul_0_l, Z.add_0_r, Z.eqb_refl. specialize (H 0 ltac:(lia)).
    rewrite Z.mul_0_l, Z.add_0_r, Z.eqb_refl in H. cbn [find_name]. rewrite H. unfold ent_is.
    destruct (Z.eqb_spec (ent_inum e) 0); [done |]. cbn [negb andb]. by destruct (bool_decide _).
  - pose proof (H 0 ltac:(lia)) as H0. rewrite Z.mul_0_l, Z.add_0_r in H0.
    assert (∀ k, 0 <= k <= Z.of_nat n → dirent_at c' (off + DIRENT + k * DIRENT) =
      if off + DIRENT + k * DIRENT =? f then e else dirent_at c (off + DIRENT + k * DIRENT)) as Hs.
    { intros k Hk. specialize (H (k + 1) ltac:(lia)).
      replace (off + DIRENT + k * DIRENT) with (off + (k + 1) * DIRENT) by lia. done. }
    unfold ent_is in *. destruct (Z.eqb_spec (ent_inum (dirent_at c off)) 0) as [E0 | E0]; subst f; cbn [negb andb] in *.
    + rewrite Z.eqb_refl in H0. destruct (Z.eqb_spec off (off + Z.of_nat (S n) * DIRENT)) as [? | _]; [lia |].
      cbn [find_name]. unfold ent_is. rewrite H0. destruct (Z.eqb_spec (ent_inum e) 0); [done |]. cbn [negb andb].
      case_bool_decide; [done |]. apply find_name_ext. intros k Hk. rewrite Hs by lia.
      destruct (Z.eqb_spec (off + DIRENT + k * DIRENT) off); [lia | done].
    + destruct (find_free_range n c (off + DIRENT)) as [Hf _].
      destruct (Z.eqb_spec off (find_free n c (off + DIRENT))) as [? | _]; [lia |].
      specialize (IH (off + DIRENT) Hs He).
      replace (off + Z.of_nat (S n) * DIRENT) with (off + DIRENT + Z.of_nat n * DIRENT) by lia.
      assert (∀ b : bool, (if b then S (S n) else S n) = S (if b then S n else n)) as -> by (by intros []).
      cbn [find_name]. unfold ent_is. rewrite H0. destruct (Z.eqb_spec (ent_inum (dirent_at c off)) 0); [done |]. cbn [negb andb].
      case_bool_decide as En.
      * rewrite bool_decide_false; [done |]. intros E. specialize (Hnone E). done.
      * apply IH. done.
Qed.

(** After [name] has been added, it is found, and other names are as they were. *)
Lemma dir_lookup_link c name n nm :
  (DIRENT | Z.of_nat (length c)) → 0 < n < 2 ^ 16 → Z.of_nat (length name) <= DIRSIZ → dir_lookup c name = None →
  dir_lookup (splice c (Z.to_nat (dir_free c)) (dirent name n)) nm =
    if bool_decide (cname name = cname nm) then Some (dir_free c, n) else dir_lookup c nm.
Proof.
  intros Hc Hn Hl Hnone. assert (DIRENT = 16) as ED by done.
  destruct (ent_dirent name n ltac:(lia) Hl) as [E1 E2]. destruct (find_free_range (nents c) c 0) as [Hf Hfd].
  fold (dir_free c) in Hf, Hfd. rewrite Z.sub_0_r in Hfd.
  assert (Z.of_nat (nents c) * DIRENT = Z.of_nat (length c)) as Hlen.
  { destruct Hc as [q Hq]. unfold nents. rewrite ED in *. dlia. }
  set (c' := splice c (Z.to_nat (dir_free c)) (dirent name n)).
  assert (nents c' = if dir_free c =? 0 + Z.of_nat (nents c) * DIRENT then S (nents c) else nents c) as Hn'.
  { unfold nents at 1, c', splice. rewrite !length_app, length_take, length_drop, length_dirent.
    destruct Hfd as [p Hp]. rewrite ED in *. destruct (Z.eqb_spec (dir_free c) (0 + Z.of_nat (nents c) * 16)); dlia. }
  unfold dir_lookup at 1. rewrite Hn'. unfold dir_free at 1. rewrite (find_name_link _ _ _ (dirent name n)).
  - by rewrite E1, E2.
  - intros k Hk. fold (dir_free c). unfold c'. apply dirent_at_splice; [apply length_dirent | lia | done | lia |].
    rewrite Z.add_0_l. by exists k.
  - lia.
  - rewrite E2. intros E. unfold dir_lookup in Hnone. rewrite <- Hnone. clear -E.
    generalize 0. induction (nents c) as [| m IH]; intros off; [done |]. cbn [find_name]. unfold ent_is. rewrite E.
    by rewrite IH.
Qed.

Section memory.
Context {M : Type} `{HM : MemoryLaws M}.

(** [l] is in kernel memory at [a]. *)
Definition at_mem (a : Z) (l : list Z) (m : M) : Prop := ∀ k x, l !! k = Some x → m_byte m (a + Z.of_nat k) = x.

Lemma sink_mem a n : 0 <= a ∧ a + Z.of_nat n <= 2 ^ 64 → sink false a n (at_mem a).
Proof.
  intros Ha l bs m Hl Hb Hle. destruct (decide (bs = [])) as [-> | Hne].
  { eapply runs_conseq; [apply m_copyout_ok, Hb |]. intros r m' [-> Hm]. split; [done |].
    intros k x Hx. rewrite app_nil_r in Hx. rewrite Hm.
    replace (zget (@nil Z) _) with (@None Z) by (unfold zget; by destruct (_ <? 0)). by apply Hl. }
  assert (0 < length bs)%nat by (destruct bs; [done | simpl; lia]).
  eapply runs_conseq; [apply m_copyout_ok, Hb |]. intros r m' [-> Hm]. split; [done |].
  rewrite u64_small in Hm by lia. intros k x Hx. rewrite Hm.
  destruct (decide (k < length l)%nat) as [Hk | Hk].
  - rewrite lookup_app_l in Hx by done. unfold zget. destruct (Z.ltb_spec (a + Z.of_nat k - (a + Z.of_nat (length l))) 0); [| lia]. by apply Hl.
  - rewrite lookup_app_r in Hx by lia.
    replace (a + Z.of_nat k - (a + Z.of_nat (length l))) with (Z.of_nat (k - length l)) by lia. by rewrite zget_nat, Hx.
Qed.
End memory.

Section dir.
Context {B M : Type} `{HB : BlockStoreLaws B} `{HM : MemoryLaws M}.
(** The address of the local [de]. *)
Context (de : Z) (Hde : 0 <= de ∧ de + DIRENT <= 2 ^ 64).
Implicit Types (s : fstate B M) (V : contents) (i : inode) (sb : superblock) (L : gset Z).

(** [l] is in kernel memory at [de]. *)
Definition at_de (l : list Z) (m : M) : Prop := at_mem de l m.

Lemma sink_de : sink false de (Z.to_nat DIRENT) at_de.
Proof. apply sink_mem. unfold DIRENT in *. lia. Qed.

Lemma load_de l m : at_de l m → map (λ j, m_byte m (de + j)) (seqZ 0 (Z.of_nat (length l))) = l.
Proof.
  intros Hl. apply list_eq. intros k. destruct (l !! k) as [x |] eqn:E.
  - apply list_lookup_fmap_Some. exists (Z.of_nat k). split; [symmetry; by apply Hl |]. apply lookup_seqZ.
    apply lookup_lt_Some in E. lia.
  - apply lookup_ge_None_1 in E. apply lookup_ge_None_2. rewrite length_map, length_seqZ. lia.
Qed.

(** A directory as the operations need it. *)
Record dir_ok V i : Prop := {
  do_dev : idev i = ROOTDEV;
  do_size : 0 <= isize i <= MAXFILE * BSIZE;
  do_full : ∀ k, 0 <= k → k * BSIZE < isize i → faddr V i k ≠ 0;
  do_ents : (DIRENT | isize i) }.

Lemma read_dirent_f s V L dp off msg :
  let i := geti s dp in
  bs_rep (blk s) V ∅ L → (size L < bs_bufs)%nat → dir_ok V i →
  0 <= off < isize i → (DIRENT | off) →
  runs [] (read_dirent de msg dp off) s (λ e s', e = dirent_at (fcontent V i) off ∧
    ∃ b' m', s' = with_mem (with_blk s b') m' ∧ bs_rep b' V ∅ L).
Proof.
  intros i H HL [Hd Hsz Hfull [q Hq]] Hoff [p Hp].
  assert (DIRENT = 16 ∧ BSIZE = 1024 ∧ MAXFILE = 268) as (ED & EB & EM) by done. rewrite ED in Hq, Hp. pose proof Hsz as Hsz'. rewrite EB, EM in Hsz'.
  unfold read_dirent.
  eapply runs_bind; [apply (readi_f s V L dp false de at_de off DIRENT); try done; fold i; try lia |].
  { replace (Z.to_nat (Z.min DIRENT (isize i - off))) with (Z.to_nat DIRENT) by lia. apply sink_de. }
  cbv beta. fold i. replace (Z.to_nat (Z.min DIRENT (isize i - off))) with (Z.to_nat DIRENT) by lia.
  intros r s1 (-> & b1 & m1 & -> & H1 & HJ). rewrite Z2Nat.id by lia. rewrite Z.eqb_refl. cbn [negb].
  apply runs_lift. eapply runs_conseq; [apply m_load_ok |]. intros e m2 [-> ->].
  rewrite fslice_content in HJ by lia. apply load_de in HJ. split.
  - unfold dirent_at, slice. rewrite <- HJ at 1. do 2 f_equal. rewrite length_take, length_drop, length_fcontent. lia.
  - exists b1, m1. done.
Qed.

Lemma nents_fcontent V i : dir_ok V i → Z.of_nat (nents (fcontent V i)) * DIRENT = isize i.
Proof.
  intros [_ Hsz _ [q Hq]]. unfold nents. rewrite length_fcontent. assert (DIRENT = 16) as ED by done. rewrite ED in *. dlia.
Qed.

Lemma bytes_fcontent V i : (∀ c, is_block (V c)) → bytes (fcontent V i).
Proof.
  intros Hb. apply Forall_forall. intros x Hx. apply list_elem_of_fmap in Hx as (o & -> & _). by apply fbyte_range.
Qed.

Lemma bytes_slice l off k : bytes l → bytes (slice l off k).
Proof. intros H. by apply Forall_take, Forall_drop. Qed.

Lemma dirlookup_loop_f n s V L dp name fuel off :
  let i := geti s dp in
  bs_rep (blk s) V ∅ L → (size L < bs_bufs)%nat → dir_ok V i → bytes name → Z.of_nat (length name) <= DIRSIZ →
  0 <= off → off + Z.of_nat n * DIRENT = isize i → (DIRENT | off) → (n <= fuel)%nat →
  runs [] (dirlookup_loop de fuel dp name off) s (λ r s', r = find_name n (fcontent V i) off name ∧
    ∃ b' m', s' = with_mem (with_blk s b') m' ∧ bs_rep b' V ∅ L).
Proof.
  revert s fuel off. induction n as [| n IH]; intros s fuel off i H HL Hd Hnb Hnl Hoff Hn Hdiv Hfuel;
    assert (DIRENT = 16 ∧ BSIZE = 1024 ∧ MAXFILE = 268) as (ED & EB & EM) by done.
  - rewrite Z.mul_0_l, Z.add_0_r in Hn. destruct fuel; unfold dirlookup_loop; fold (@dirlookup_loop B M).
    all: rstep; fold i; rewrite Hn, Z.ltb_irrefl; apply runs_ret; split; [done |]; exists (blk s), (kmem s); by destruct s.
  - destruct fuel as [| fuel]; [lia |]. cbn [dirlookup_loop find_name]. rstep. fold i.
    destruct (Z.ltb_spec off (isize i)) as [Hlt | Hge]; [| lia].
    eapply runs_bind; [apply (read_dirent_f s V L dp off); try done; fold i; lia |]. cbv beta. fold i.
    intros e s1 (-> & b1 & m1 & -> & H1). set (e := dirent_at (fcontent V i) off).
    assert (runs [] (dirlookup_loop de fuel dp name (u32 (off + DIRENT))) (with_mem (with_blk s b1) m1)
      (λ r s', r = find_name n (fcontent V i) (off + DIRENT) name ∧
        ∃ b' m', s' = with_mem (with_blk s b') m' ∧ bs_rep b' V ∅ L)) as Hnext.
    { destruct (do_size _ _ Hd) as [Hs1 Hs2]. rewrite u32_small by (rewrite EB, EM in *; lia).
      eapply runs_conseq; [apply (IH (with_mem (with_blk s b1) m1)); try done; try (change (geti (with_mem _ _) dp) with i; lia); try lia |].
      - apply Z.divide_add_r; [done | by exists 1].
      - intros r s2 (-> & b2 & m2 & -> & H2). split; [done |]. by exists b2, m2. }
    assert (bytes e) as He by (apply bytes_slice, bytes_fcontent; intros c; by apply (bs_rep_block _ _ _ _ c H)).
    unfold ent_is. fold (ent_inum e). destruct (ent_inum e =? 0); cbn [negb andb]; [done |].
    assert ((namecmp name (slice e 2 (Z.to_nat DIRSIZ)) =? 0) = bool_decide (ent_name e = cname name)) as ->.
    { apply Bool.eq_iff_eq_true. rewrite Z.eqb_eq, bool_decide_eq_true, namecmp_zero; [split; intros E; by symmetry | done | by apply bytes_slice | done |].
      unfold slice. rewrite length_take. lia. }
    case_bool_decide; [| done]. apply runs_ret. split; [done |]. by exists b1, m1.
Qed.

Lemma dir_fuel_enough V i : dir_ok V i → (nents (fcontent V i) <= dir_fuel (isize i))%nat.
Proof. intros Hd. pose proof (nents_fcontent V i Hd) as E. unfold dir_fuel. rewrite <- E. assert (DIRENT = 16) as -> by done. dlia. Qed.

(** dirlookup finds what the directory says, and takes a reference to it. *)
Lemma dirlookup_f s V L dp name :
  let i := geti s dp in let r := dir_lookup (fcontent V i) name in
  bs_rep (blk s) V ∅ L → (size L < bs_bufs)%nat → itype i = T_DIR → dir_ok V i → bytes name → Z.of_nat (length name) <= DIRSIZ →
  (∀ off n, r = Some (off, n) → itable_ok s ∧
    ((∃ k, in_table s k ∧ iref (geti s k) = 0) ∨ (∃ k, in_table s k ∧ entry_is ROOTDEV n (geti s k) = true))) →
  runs [] (dirlookup de dp name) s (λ r' s', ∃ b' m', bs_rep b' V ∅ L ∧
    match r with
    | None => r' = None ∧ s' = with_mem (with_blk s b') m'
    | Some (off, n) => ∃ ip i', r' = Some (ip, off) ∧ s' = seti ip i' (with_mem (with_blk s b') m') ∧
        got s ROOTDEV n ip i'
    end).
Proof.
  intros i r H HL Ht Hd Hnb Hnl Hroom. unfold dirlookup. rstep. fold i. rewrite Ht, Z.eqb_refl. cbn [negb].
  assert (DIRENT = 16) as ED by done.
  eapply runs_bind; [apply (dirlookup_loop_f (nents (fcontent V i)) s V L); try done; fold i |].
  - by rewrite Z.add_0_l, nents_fcontent.
  - by exists 0.
  - by apply dir_fuel_enough.
  - cbv beta. fold i. fold (dir_lookup (fcontent V i) name). fold r. intros r' s1 (-> & b1 & m1 & -> & H1).
    destruct r as [[off n] |] eqn:Er.
    + destruct (Hroom off n eq_refl) as [Hok Hr]. rstep. change (geti (with_mem _ _) dp) with i. rewrite (do_dev _ _ Hd).
      eapply runs_bind; [apply (iget_f (with_mem (with_blk s b1) m1) ROOTDEV n); [destruct Hok; by constructor | exact Hr] |].
      cbv beta. intros ip s2 (i' & -> & Hg). apply runs_ret. exists b1, m1. split; [done |].
      exists ip, i'. split; [done |]. split; [done |]. destruct Hg; by constructor.
    + apply runs_ret. by exists b1, m1.
Qed.

(** ** dirlink *)

Lemma dirlink_loop_f n s V L dp fuel off :
  let i := geti s dp in
  bs_rep (blk s) V ∅ L → (size L < bs_bufs)%nat → dir_ok V i →
  0 <= off → off + Z.of_nat n * DIRENT = isize i → (DIRENT | off) → (n <= fuel)%nat →
  runs [] (dirlink_loop de fuel dp off) s (λ r s', r = find_free n (fcontent V i) off ∧
    ∃ b' m', s' = with_mem (with_blk s b') m' ∧ bs_rep b' V ∅ L).
Proof.
  revert s fuel off. induction n as [| n IH]; intros s fuel off i H HL Hd Hoff Hn Hdiv Hfuel;
    assert (DIRENT = 16) as ED by done.
  - rewrite Z.mul_0_l, Z.add_0_r in Hn. destruct fuel; unfold dirlink_loop; fold (@dirlink_loop B M).
    all: rstep; fold i; rewrite Hn, Z.ltb_irrefl; apply runs_ret; split; [done |]; exists (blk s), (kmem s); by destruct s.
  - destruct fuel as [| fuel]; [lia |]. cbn [dirlink_loop find_free]. rstep. fold i.
    destruct (Z.ltb_spec off (isize i)) as [Hlt | Hge]; [| lia].
    eapply runs_bind; [apply (read_dirent_f s V L dp off); try done; fold i; lia |]. cbv beta. fold i.
    intros e s1 (-> & b1 & m1 & -> & H1). fold (ent_inum (dirent_at (fcontent V i) off)).
    destruct (_ =? 0); [apply runs_ret; split; [done |]; by exists b1, m1 |].
    eapply runs_conseq; [apply (IH (with_mem (with_blk s b1) m1)); try done; try (change (geti (with_mem _ _) dp) with i; lia); try lia |].
    + apply Z.divide_add_r; [done | by exists 1].
    + intros r s2 (-> & b2 & m2 & -> & H2). split; [done |]. by exists b2, m2.
Qed.

(** The two stores of dirlink leave the entry at [de]. *)
Lemma save_dirent_f s name n :
  bytes name →
  runs [] (lift memL (m_save (de + 2) (dirent_name name)) ;; lift memL (m_save de (Z_to_little_endian 2 8 n))) s
    (λ _ s', ∃ m', s' = with_mem s m' ∧ at_de (dirent name n) m').
Proof.
  intros Hb. eapply runs_bind; [apply run_mem, m_save_ok; by apply bytes_dirent_name |]. cbv beta.
  intros _ s1 (m1 & -> & H1). eapply runs_conseq; [apply run_mem, m_save_ok, (bytes_le 2) |].
  intros _ s2 (m2 & -> & H2). exists m2. split; [done |]. intros k x Hx. rewrite H2.
  replace (de + Z.of_nat k - de) with (Z.of_nat k) by lia. rewrite zget_nat. unfold dirent in Hx.
  destruct (Z_to_little_endian 2 8 n !! k) as [y |] eqn:E.
  - apply (lookup_app_l_Some _ (dirent_name name)) in E. rewrite Hx in E. by injection E.
  - apply lookup_ge_None_1 in E. rewrite lookup_app_r in Hx by done. rewrite (length_le 2) in E, Hx. cbn [default from_option id kmem with_mem].
    rewrite H1. replace (de + Z.of_nat k - (de + 2)) with (Z.of_nat (k - 2)) by lia. by rewrite zget_nat, Hx.
Qed.

Lemma source_de l m : Z.of_nat (length l) <= DIRENT → at_de l m → source m false de l.
Proof.
  intros Hl H o k Hk. assert (DIRENT = 16) as ED by done.
  destruct k as [| k].
  { eapply runs_conseq; [apply m_copyin_ok |]. intros r m' [-> ->]. split; [by rewrite take_0 | done]. }
  rewrite u64_small by lia. eapply runs_conseq; [apply m_copyin_ok |]. intros r m' [-> ->]. split; [| done]. f_equal.
  apply list_eq. intros j. destruct (decide (j < S k)%nat) as [Hj | Hj].
  - rewrite lookup_take_lt, lookup_drop by lia. destruct (lookup_lt_is_Some_2 l (o + j)) as [x Hx]; [lia |]. rewrite Hx.
    apply list_lookup_fmap_Some. exists (Z.of_nat j). split; [| apply lookup_seqZ; lia].
    rewrite <- (H _ _ Hx). f_equal. lia.
  - rewrite !lookup_ge_None_2; [done | rewrite length_take; lia | rewrite length_map, length_seqZ; lia].
Qed.

Lemma file_ok_dir sb V i : file_ok sb V i → (DIRENT | isize i) → dir_ok V i.
Proof. intros H Hd. constructor; [apply H | apply H | apply H | done]. Qed.

(** An entry is in one block. *)
Lemma nspan_dirent q : (nspan (q * DIRENT) (Z.to_nat DIRENT) <= 1)%nat.
Proof.
  unfold nspan. change (Z.to_nat DIRENT) with 16%nat. assert (DIRENT = 16 ∧ BSIZE = 1024) as [-> ->] by done.
  change (Z.of_nat 16) with 16. dlia.
Qed.

(** A name that the directory does not have is added in the first empty entry. *)
Lemma dirlink_f mypid s V L dp name n k :
  let sb := fsb s in let i := geti s dp in let c := fcontent V i in
  geom sb → bs_rep (blk s) V ∅ L → in_table s dp → file_ok sb V i → meta_used sb V → inode_fits i →
  0 <= inum i < sb_ninodes sb → itype i = T_DIR → (DIRENT | isize i) →
  bytes name → Z.of_nat (length name) <= DIRSIZ → dir_lookup c name = None →
  dir_free c + DIRENT <= MAXFILE * BSIZE →
  room_for sb ∅ L (2 + k) 2 → (2 <= nfree sb V)%nat →
  runs [] (dirlink mypid de dp name n) s (λ r s', r = 0 ∧ ∃ b' m' V' i' L',
    s' = seti dp i' (with_mem (with_blk s b') m') ∧ bs_rep b' V' ∅ ({[IBLOCK (inum i) sb]} ∪ L') ∧
    room_for sb ∅ L' k 2 ∧ file_written sb V i V' i' (dir_free c) (dirent name n)).
Proof.
  intros sb i c Hg H Hin Hok Hm Hfit Hn Ht Hdiv Hnb Hnl Hnone Hmax Hr Hfree.
  assert (DIRENT = 16 ∧ BSIZE = 1024 ∧ MAXFILE = 268) as (ED & EB & EM) by done.
  pose proof (file_ok_dir sb V i Hok Hdiv) as Hd.
  assert (size L < bs_bufs)%nat as HL.
  { pose proof (room_open sb ∅ L _ 1 Hr) as HL. rewrite map_size_empty in HL. lia. }
  unfold dirlink. eapply runs_bind; [apply (dirlookup_f s V L dp name); try done; fold i c; by rewrite Hnone |].
  cbv beta. fold i c. rewrite Hnone. intros r s1 (b1 & m1 & H1 & -> & ->).
  rstep. change (geti (with_mem _ _) dp) with i.
  eapply runs_bind.
  { apply (dirlink_loop_f (nents c) (with_mem (with_blk s b1) m1) V L); try done.
    - by apply (nents_fcontent V i).
    - by exists 0.
    - by apply dir_fuel_enough. }
  cbv beta. change (geti (with_mem _ _) dp) with i. fold c (dir_free c). intros r s2 (-> & b2 & m2 & -> & H2).
  apply runs_seq2 with (R := λ _ s', ∃ m', s' = with_mem (with_blk s b2) m' ∧ at_de (dirent name n) m').
  { eapply runs_conseq; [by apply save_dirent_f |]. intros _ s3 (m3 & -> & H3). by exists m3. }
  intros _ s3 (m3 & -> & H3).
  destruct (find_free_range (nents c) c 0) as [Hf1 [q Hf2]]. fold (dir_free c) in Hf1, Hf2.
  pose proof (nents_fcontent V i Hd) as Hne. fold c in Hne.
  assert (nspan (dir_free c) (length (dirent name n)) <= 1)%nat as Hspan.
  { rewrite length_dirent. replace (dir_free c) with (q * DIRENT) by lia. apply nspan_dirent. }
  replace DIRENT with (Z.of_nat (length (dirent name n))) at 1 by (rewrite length_dirent; lia).
  eapply runs_bind.
  { apply (writei_f (with_mem (with_blk s b2) m3) V L dp false de (dir_free c) (dirent name n) k); try done.
    - by apply bytes_dirent.
    - change (geti (with_mem _ _) dp) with i. lia.
    - rewrite length_dirent. lia.
    - lia.
    - apply source_de; [rewrite length_dirent; lia | done].
    - change (fsb (with_mem _ _)) with sb. apply (room_less sb ∅ L (2 + k) _ 2 2); [done | lia | lia].
    - change (fsb (with_mem _ _)) with sb. lia. }
  cbv beta zeta. change (geti (with_mem _ _) dp) with i. change (fsb (with_mem _ _)) with sb.
  intros r s4 (-> & b4 & V4 & i4 & L4 & -> & H4 & Hr4 & Hw). rewrite length_dirent, Z2Nat.id, Z.eqb_refl by lia.
  apply runs_ret. split; [done |]. exists b4, m3, V4, i4, L4. done.
Qed.
End dir.
