(* ===== verification/FsPath.v ===== *)
(** * Paths

    What a path means on disk, and that [namex] finds it. *)

From S2P Require Import Prelude Abi Monad Riscv Mem Block Sleeplock Wp Store Fs FsAlloc FsFile FsRw FsInode FsIo FsTrunc FsTable FsDir.

(** ** The elements of a path *)

(** The pieces between slashes. *)
Fixpoint pieces (path : list Z) : list (list Z) :=
  match path with
  | [] => [[]]
  | c :: path =>
      if c =? SLASH then [] :: pieces path
      else match pieces path with
           | p :: ps => (c :: p) :: ps
           | [] => [[c]]
           end
  end.

Definition is_nil (l : list Z) : bool := match l with [] => true | _ => false end.

(** The elements of a path, cut to what a directory entry holds. *)
Definition path_elems (path : list Z) : list (list Z) :=
  map (take (Z.to_nat DIRSIZ)) (List.filter (λ p, negb (is_nil p)) (pieces path)).

Lemma pieces_cons path : ∃ p ps, pieces path = p :: ps.
Proof. induction path as [| c path (p & ps & E)]; cbn [pieces]; [eauto |]. destruct (c =? SLASH); [eauto |]. rewrite E. eauto. Qed.

Lemma path_elems_slashes path : path_elems (skip_slashes path) = path_elems path.
Proof.
  induction path as [| c path IH]; [done |]. cbn [skip_slashes]. destruct (Z.eqb_spec c SLASH) as [-> |]; [| done].
  by rewrite IH.
Qed.

Lemma skip_slashes_head path c rest : skip_slashes path = c :: rest → c ≠ SLASH.
Proof.
  induction path as [| a path IH]; [done |]. cbn [skip_slashes]. destruct (Z.eqb_spec a SLASH); [done |]. by intros [= -> _].
Qed.

Lemma length_skip_slashes path : (length (skip_slashes path) <= length path)%nat.
Proof. induction path as [| c path IH]; [done |]. cbn [skip_slashes]. destruct (c =? SLASH); simpl; lia. Qed.

(** [span_elem] cuts the first piece off. *)
Lemma span_elem_pieces path e rest :
  span_elem path = (e, rest) →
  path = e ++ rest ∧ match rest with [] => pieces path = [e] | c :: rest' => c = SLASH ∧ pieces path = e :: pieces rest' end.
Proof.
  revert e rest. induction path as [| c path IH]; intros e rest; cbn [span_elem].
  - by intros [= <- <-].
  - destruct (Z.eqb_spec c SLASH) as [-> | Hc].
    + by intros [= <- <-].
    + destruct (span_elem path) as [e' r'] eqn:Es. intros [= <- <-]. destruct (IH _ _ eq_refl) as [-> Hp].
      split; [done |]. cbn [pieces]. destruct (Z.eqb_spec c SLASH); [done |].
      destruct r' as [| c' r'']; [by rewrite Hp |]. destruct Hp as [-> Hp]. by rewrite Hp.
Qed.

(** skipelem gives the first element and the rest, in which the next one is first. *)
Lemma skipelem_elems path :
  match skipelem path with
  | None => path_elems path = []
  | Some (rest, name) =>
      path_elems path = name :: path_elems rest ∧ name ≠ [] ∧ (length rest < length path)%nat ∧
      (rest = [] ↔ path_elems rest = [])
  end.
Proof.
  unfold skipelem. pose proof (length_skip_slashes path) as Hlen. rewrite <- (path_elems_slashes path).
  destruct (skip_slashes path) as [| c p] eqn:Es; [done |].
  apply skip_slashes_head in Es as Hc. clear Es.
  destruct (span_elem (c :: p)) as [e rest] eqn:Ee. destruct (span_elem_pieces _ _ _ Ee) as [Ep Hp].
  assert (e ≠ []) as Hne.
  { cbn [span_elem] in Ee. destruct (Z.eqb_spec c SLASH); [done |]. destruct (span_elem p). by injection Ee as <- <-. }
  assert ((if DIRSIZ <=? Z.of_nat (length e) then take (Z.to_nat DIRSIZ) e else e) = take (Z.to_nat DIRSIZ) e) as ->.
  { destruct (Z.leb_spec DIRSIZ (Z.of_nat (length e))); [done |]. symmetry. apply take_ge. lia. }
  assert (is_nil e = false) as Hnil by (by destruct e).
  split; [| split; [| split]].
  - unfold path_elems at 1. destruct rest as [| c' rest'].
    + rewrite Hp. cbn [List.filter]. rewrite Hnil. done.
    + destruct Hp as [-> Hp]. rewrite Hp. cbn [List.filter]. rewrite Hnil. cbn [negb map]. f_equal.
      rewrite path_elems_slashes. done.
  - destruct e; [done |]. assert (DIRSIZ = 14) as -> by done. done.
  - pose proof (length_skip_slashes rest). assert (length (c :: p) = (length e + length rest)%nat) as El by (by rewrite Ep, length_app).
    destruct e; [done |]. simpl in *. lia.
  - split; [by intros -> |]. intros H. destruct (skip_slashes rest) as [| a r] eqn:Er; [done |].
    apply skip_slashes_head in Er. cbn [pieces] in H. unfold path_elems in H. cbn [pieces] in H.
    destruct (Z.eqb_spec a SLASH); [done |]. destruct (pieces_cons r) as (q & qs & Eq). rewrite Eq in H.
    cbn [List.filter is_nil negb map] in H. done.
Qed.

Lemma skipelem_bytes path rest name :
  skipelem path = Some (rest, name) → bytes path → bytes rest ∧ bytes name ∧ Z.of_nat (length name) <= DIRSIZ.
Proof.
  unfold skipelem. intros H Hb. assert (∀ l, bytes l → bytes (skip_slashes l)) as Hs.
  { intros l. induction l as [| c l IH]; [done |]. cbn [skip_slashes]. intros Hl. destruct (c =? SLASH); [| done].
    apply IH. by apply Forall_cons in Hl as [_ Hl]. }
  apply Hs in Hb. destruct (skip_slashes path) as [| c p]; [done |].
  destruct (span_elem (c :: p)) as [e r] eqn:Ee. destruct (span_elem_pieces _ _ _ Ee) as [Ep _]. rewrite Ep in Hb.
  apply Forall_app in Hb as [He Hr]. injection H as <- <-. split; [by apply Hs |].
  assert (DIRSIZ = 14) as ED by done.
  destruct (Z.leb_spec DIRSIZ (Z.of_nat (length e))); [| split; [done | lia]]. split; [by apply Forall_take |]. rewrite length_take. lia.
Qed.

(** ** Sums over the inode table *)

Definition zsum (f : inode → Z) (l : list inode) : Z := foldr (λ i a, f i + a) 0 l.

Lemma zsum_insert f l k x y : l !! k = Some x → zsum f (<[k := y]> l) = zsum f l - f x + f y.
Proof.
  revert k. induction l as [| a l IH]; intros [| k] H; try done.
  - injection H as ->. simpl. lia.
  - simpl in H. specialize (IH k H). change (f a + zsum f (<[k := y]> l) = f a + zsum f l - f x + f y). lia.
Qed.

Lemma zsum_elem f l x : (∀ y, y ∈ l → 0 <= f y) → x ∈ l → f x <= zsum f l.
Proof.
  induction l as [| a l IH]; intros Hf Hx; [by apply elem_of_nil in Hx |]. cbn. fold (zsum f l).
  assert (0 <= zsum f l) as Hl.
  { clear IH Hx. assert (∀ y, y ∈ l → 0 <= f y) as Hf' by (intros y Hy; apply Hf; by right). clear Hf.
    induction l as [| b l IH]; [done |]. cbn. fold (zsum f l). pose proof (Hf' b (list_elem_of_here _ _)).
    specialize (IH (λ y Hy, Hf' y (list_elem_of_further _ _ _ Hy))). lia. }
  pose proof (Hf a (list_elem_of_here _ _)). apply elem_of_cons in Hx as [-> | Hx]; [lia |].
  specialize (IH (λ y Hy, Hf y (list_elem_of_further _ _ _ Hy)) Hx). lia.
Qed.

Lemma zsum_pos f l : 0 < zsum f l → ∃ k x, l !! k = Some x ∧ 0 < f x.
Proof.
  induction l as [| a l IH]; [done |]. cbn. fold (zsum f l). intros H. destruct (decide (0 < f a)).
  - by exists 0%nat, a.
  - destruct IH as (k & x & ? & ?); [lia |]. by exists (S k), x.
Qed.

(** References to inode [n]; unused entries. *)
Definition refs (n : Z) (i : inode) : Z := if inum i =? n then iref i else 0.
Definition spare (i : inode) : Z := if iref i =? 0 then 1 else 0.

(** ** What a path means *)

(** Inode [n] of the disk. *)
Definition dnode (sb : superblock) (V : contents) (n : Z) : inode :=
  read_dinode (V (IBLOCK n sb)) (dip n) (Inode ROOTDEV n 0 initsleeplock true 0 0 0 0 0 []).

(** From directory [n], the elements [names] in turn. *)
Fixpoint walk (sb : superblock) (V : contents) (n : Z) (names : list (list Z)) : option Z :=
  match names with
  | [] => Some n
  | name :: names =>
      if itype (dnode sb V n) =? T_DIR then
        match dir_lookup (fcontent V (dnode sb V n)) name with
        | Some (_, n') => walk sb V n' names
        | None => None
        end
      else None
  end.

(** The directory that holds the last element. *)
Definition walk_parent (sb : superblock) (V : contents) (n : Z) (names : list (list Z)) : option (Z * list Z) :=
  match last names with
  | Some name =>
      match walk sb V n (removelast names) with
      | Some d => if itype (dnode sb V d) =? T_DIR then Some (d, name) else None
      | None => None
      end
  | None => None
  end.

(** Inode [n] is in use: it has links, and if it is a directory, its entries are
    inodes in use. *)
Record tree_ok (sb : superblock) (V : contents) (P : Z → Prop) : Prop := {
  to_range : ∀ n, P n → 0 <= n < sb_ninodes sb;
  to_type : ∀ n, P n → itype (dnode sb V n) ≠ 0;
  to_links : ∀ n, P n → nlink (dnode sb V n) ≠ 0;
  to_dir : ∀ n, P n → itype (dnode sb V n) = T_DIR → dir_ok V (dnode sb V n);
  to_next : ∀ n name off n', P n → itype (dnode sb V n) = T_DIR →
    dir_lookup (fcontent V (dnode sb V n)) name = Some (off, n') → P n' }.

Section path.
Context {B M : Type} `{HB : BlockStoreLaws B} `{HM : MemoryLaws M}.
Context (mypid de : Z) (Hde : 0 <= de ∧ de + DIRENT <= 2 ^ 64).
Implicit Types (s : fstate B M) (V : contents) (i : inode) (sb : superblock) (L : gset Z).

Definition tsum (f : inode → Z) s : Z := zsum f (itable s).

Lemma tsum_seti f s ip i : in_table s ip → tsum f (seti ip i s) = tsum f s - f (geti s ip) + f i.
Proof.
  intros H. unfold tsum, seti, geti. cbn [itable]. destruct (zget_is_Some _ _ H) as [x Hx]. rewrite Hx. cbn [default from_option id].
  unfold zset, zget in *. destruct (ip <? 0); [done |]. by apply zsum_insert.
Qed.

Lemma elem_geti s i : i ∈ itable s → ∃ k, in_table s k ∧ geti s k = i.
Proof.
  intros H. apply list_elem_of_lookup in H as [k Hk]. exists (Z.of_nat k). unfold in_table, geti. rewrite zget_nat, Hk.
  apply lookup_lt_Some in Hk. split; [lia | done].
Qed.

(** An entry in use is a copy of an inode in use. *)
Record entry_ok sb V (P : Z → Prop) i : Prop := {
  eo_dev : idev i = ROOTDEV;
  eo_node : P (inum i);
  eo_copy : ivalid i = true → on_disk i = on_disk (dnode sb V (inum i)) }.

Record tbl V (P : Z → Prop) s : Prop := {
  tb_ok : itable_ok s;
  tb_ent : ∀ k, in_table s k → 0 < iref (geti s k) → entry_ok (fsb s) V P (geti s k) }.

Definition unlocked s : Prop := ∀ k, in_table s k → sl_locked (ilk (geti s k)) = false.

(** An update of an entry in use that keeps its inode. *)
Lemma tbl_seti V P s ip i :
  tbl V P s → in_table s ip → idev i = idev (geti s ip) → inum i = inum (geti s ip) → 0 < iref (geti s ip) →
  0 <= iref i < 2 ^ 31 - 1 → entry_ok (fsb s) V P i → tbl V P (seti ip i s).
Proof.
  intros [[Hr Hu] He] Hin Ed En Hpos Hi Hei.
  pose proof (λ k, proj1 (in_table_seti s ip i k)) as Htab.
  constructor; [constructor |].
  - intros k Hk. apply Htab in Hk. rewrite geti_seti by done. destruct (ip =? k); [done | by apply Hr].
  - intros k k' Hk Hk'. apply Htab in Hk, Hk'. rewrite !geti_seti by done. intros P1 P2 E1 E2.
    apply Hu; try done; destruct (Z.eqb_spec ip k) as [<- |], (Z.eqb_spec ip k') as [<- |]; congruence || done.
  - intros k Hk. apply Htab in Hk. rewrite geti_seti by done. destruct (ip =? k); [done | by apply He].
Qed.

Lemma tbl_got V P s n ip i :
  tbl V P s → got s ROOTDEV n ip i → P n → iref (geti s ip) < 2 ^ 31 - 2 → tbl V P (seti ip i s).
Proof.
  intros [Hok He] Hg Hn Hlt. constructor; [by eapply got_itable_ok |].
  intros k Hk. pose proof Hk as Hk'. rewrite in_table_seti in Hk'.
  destruct Hg as [Hin [Hd Hm] _ _ Hold]. rewrite geti_seti by done. destruct (Z.eqb_spec ip k) as [<- |]; [| by apply He].
  intros _. destruct Hold as [[Hp ->] | (_ & Hv & _)].
  - destruct (He ip Hin Hp). by constructor.
  - constructor; [done | by rewrite Hm | by rewrite Hv].
Qed.

(** ** The operations of namex on the table *)

Lemma fcontent_on_disk V i i' : on_disk i = on_disk i' → fcontent V i = fcontent V i'.
Proof.
  unfold on_disk. intros [= E1 E2 E3 E4 E5 E6]. unfold fcontent. rewrite E5. apply map_ext. intros o.
  unfold fbyte, fblock, faddr, addr. by rewrite E6.
Qed.

Lemma dir_ok_on_disk V i i' : on_disk i = on_disk i' → idev i = idev i' → dir_ok V i → dir_ok V i'.
Proof.
  unfold on_disk. intros [= E1 E2 E3 E4 E5 E6] Ed [H1 H2 H3 H4]. constructor; try congruence.
  intros k. rewrite <- E5. specialize (H3 k). unfold faddr, addr in *. by rewrite <- E6.
Qed.

Lemma file_ok_on_disk sb V i i' : on_disk i = on_disk i' → idev i = idev i' → file_ok sb V i → file_ok sb V i'.
Proof.
  unfold on_disk. intros [= E1 E2 E3 E4 E5 E6] Ed [H1 H2 H3 H4 H5 H6].
  assert (∀ k, addr i' k = addr i k) as Ea by (intros k; unfold addr; by rewrite E6).
  assert (∀ k, faddr V i' k = faddr V i k) as Ef by (intros k; unfold faddr; by rewrite !Ea).
  assert (∀ k, slot V i' k = slot V i k) as Es by (intros k; unfold slot; by rewrite Ea, Ef).
  constructor; [congruence | congruence | | | congruence |].
  - intros k. rewrite Es. apply H3.
  - intros k k'. rewrite !Es. apply H4.
  - intros k. rewrite Ef, <- E5. apply H6.
Qed.

Lemma on_disk_fields i i' : on_disk i = on_disk i' → itype i = itype i' ∧ nlink i = nlink i'.
Proof. unfold on_disk. by intros [= -> _ _ -> _ _]. Qed.

(** The locked copy of an inode. *)
Record node_held s V (ip : Z) : Prop := {
  nh_valid : ivalid (geti s ip) = true;
  nh_lock : ilk (geti s ip) = my_lock mypid;
  nh_copy : on_disk (geti s ip) = on_disk (dnode (fsb s) V (inum (geti s ip))) }.

Context (V : contents) (L : gset Z) (HL : (size L < bs_bufs)%nat) (P : Z → Prop).

(** At an inode to which the walk has a reference. *)
Record at_node s (ip : Z) : Prop := {
  an_rep : bs_rep (blk s) V ∅ L;
  an_tree : tree_ok (fsb s) V P;
  an_tbl : tbl V P s;
  an_in : in_table s ip;
  an_ref : 0 < iref (geti s ip) }.

(** The same references in [s'] as in [s]. *)
Record same_refs s s' : Prop := {
  sr_sb : fsb s' = fsb s;
  sr_len : length (itable s') = length (itable s);
  sr_id : ∀ k, idev (geti s' k) = idev (geti s k) ∧ inum (geti s' k) = inum (geti s k) ∧ iref (geti s' k) = iref (geti s k);
  sr_sum : ∀ f, (∀ i i', inum i = inum i' → iref i = iref i' → f i = f i') → tsum f s' = tsum f s }.

Lemma same_refs_seti s ip i :
  in_table s ip → idev i = idev (geti s ip) → inum i = inum (geti s ip) → iref i = iref (geti s ip) → same_refs s (seti ip i s).
Proof.
  intros Hin E1 E2 E3. constructor; [done | by cbn; rewrite length_zset | |].
  - intros k. rewrite geti_seti by done. by destruct (Z.eqb_spec ip k) as [<- |].
  - intros f Hf. rewrite tsum_seti by done. rewrite (Hf i (geti s ip)) by done. lia.
Qed.

Lemma refs_same n i i' : inum i = inum i' → iref i = iref i' → refs n i = refs n i'.
Proof. unfold refs. by intros -> ->. Qed.

Lemma spare_same i i' : inum i = inum i' → iref i = iref i' → spare i = spare i'.
Proof. unfold spare. by intros _ ->. Qed.

Lemma ilock_node s ip :
  at_node s ip → unlocked s →
  runs [] (ilock mypid ip) s (λ _ s', at_node s' ip ∧ node_held s' V ip ∧ same_refs s s' ∧
    ∀ k, in_table s k → k ≠ ip → geti s' k = geti s k).
Proof.
  intros [Hrep Htree Htbl Hin Href] Hun. destruct (tb_ent _ _ _ Htbl ip Hin Href) as [Hd Hp Hc].
  eapply runs_conseq; [apply (ilock_f mypid s V L ip); try done; [lia | by apply Hun |] |].
  { intros _. exact (to_type _ _ _ Htree _ Hp). }
  intros _ s' (b' & -> & Hb'). set (i1 := set_ilk _ _).
  assert (idev i1 = idev (geti s ip) ∧ inum i1 = inum (geti s ip) ∧ iref i1 = iref (geti s ip)) as (E1 & E2 & E3)
    by (unfold i1; by destruct (ivalid (geti s ip))).
  assert (ivalid i1 = true ∧ on_disk i1 = on_disk (dnode (fsb s) V (inum (geti s ip)))) as [Ev Eo].
  { unfold i1. destruct (ivalid (geti s ip)) eqn:Ev; [| done]. split; [done | by apply Hc]. }
  assert (entry_ok (fsb s) V P i1) as He by (constructor; [congruence | congruence | by rewrite E2]).
  pose proof (it_ref _ (tb_ok _ _ _ Htbl) _ Hin) as Hir.
  split; [| split; [| split]].
  - constructor; try done.
    + apply (tbl_seti V P (with_blk s b')); try done; [destruct Htbl as [[? ?] ?]; by constructor | by rewrite E3].
    + unfold in_table, seti. cbn [itable]. by rewrite length_zset.
    + rewrite (geti_seti (with_blk s b')), Z.eqb_refl, E3 by done. done.
  - constructor; rewrite (geti_seti (with_blk s b')), Z.eqb_refl by done; [done | done |]. by rewrite E2.
  - destruct (same_refs_seti (with_blk s b') ip i1) as [H1 H2 H3 H4]; done.
  - intros k Hk Hne. rewrite (geti_seti (with_blk s b')) by done. destruct (Z.eqb_spec ip k); [congruence | done].
Qed.

Lemma iput_node s ip :
  at_node s ip → unlocked s →
  runs [] (iput mypid ip) s (λ _ s', s' = seti ip (dropped (geti s ip)) s ∧ tbl V P s' ∧ unlocked s').
Proof.
  intros [Hrep Htree Htbl Hin Href] Hun. destruct (tb_ent _ _ _ Htbl ip Hin Href) as [Hd Hp Hc].
  pose proof (it_ref _ (tb_ok _ _ _ Htbl) _ Hin) as Hir.
  assert (last_ref (geti s ip) = false) as Hlast.
  { unfold last_ref. destruct (ivalid (geti s ip)) eqn:Ev; [| by rewrite andb_false_r]. apply andb_false_iff. right.
    apply Z.eqb_neq. destruct (on_disk_fields _ _ (Hc eq_refl)) as [_ ->]. by apply (to_links _ _ _ Htree). }
  eapply runs_conseq; [by apply (iput_f mypid s ip (tb_ok _ _ _ Htbl)) |].
  intros _ s2 ->. split; [done |]. split.
  - apply tbl_seti; try done. cbn. lia.
  - intros k Hk. pose proof Hk as Hk'. rewrite in_table_seti in Hk'.
    rewrite geti_seti by done. destruct (Z.eqb_spec ip k) as [<- |]; by apply Hun.
Qed.

Lemma iunlock_node s ip :
  at_node s ip → node_held s V ip → (∀ k, in_table s k → k ≠ ip → sl_locked (ilk (geti s k)) = false) →
  runs [] (iunlock mypid ip) s (λ _ s', s' = seti ip (set_ilk initsleeplock (geti s ip)) s ∧ at_node s' ip ∧ unlocked s').
Proof.
  intros [Hrep Htree Htbl Hin Href] [Hv Hl Hc] Hun. destruct (tb_ent _ _ _ Htbl ip Hin Href) as [Hd Hp _].
  pose proof (it_ref _ (tb_ok _ _ _ Htbl) _ Hin) as Hir.
  eapply runs_conseq; [by apply iunlock_f; [| lia |] |]. intros _ s1 ->. split; [done |]. split.
  - constructor; try done; [by apply tbl_seti | unfold in_table, seti; cbn [itable]; by rewrite length_zset |].
    by rewrite geti_seti, Z.eqb_refl.
  - intros k Hk. pose proof Hk as Hk'. rewrite in_table_seti in Hk'.
    rewrite geti_seti by done. destruct (Z.eqb_spec ip k); [done |]. by apply Hun.
Qed.

(** Unlocking and dropping: one reference less to the inode. *)
Lemma iunlockput_node s ip :
  at_node s ip → node_held s V ip → (∀ k, in_table s k → k ≠ ip → sl_locked (ilk (geti s k)) = false) →
  runs [] (iunlockput mypid ip) s (λ _ s',
    s' = seti ip (dropped (set_ilk initsleeplock (geti s ip))) s ∧ tbl V P s' ∧ unlocked s').
Proof.
  intros Ha Hh Hun. unfold iunlockput. eapply runs_bind; [by apply iunlock_node |]. cbv beta. intros _ s1 (-> & Ha1 & Hu1).
  eapply runs_conseq; [by apply iput_node |]. intros _ s2 (-> & Ht & Hu).
  revert Ht Hu. rewrite geti_seti, Z.eqb_refl, seti_seti by apply Ha. done.
Qed.

(** ** One element of the path *)

Definition one (b : bool) : Z := if b then 1 else 0.

Lemma got_refs s n ip i m : got s ROOTDEV n ip i → refs m i = refs m (geti s ip) + one (m =? n).
Proof.
  intros [_ [_ En] Er _ Ho]. unfold refs, one. rewrite En, Er, (Z.eqb_sym m n).
  destruct Ho as [[_ Ei] | (E0 & _ & _)].
  - assert (inum (geti s ip) = n) as -> by (rewrite Ei in En; done). destruct (n =? m); lia.
  - rewrite E0. destruct (n =? m), (inum (geti s ip) =? m); lia.
Qed.

Lemma dropped_refs i v m : refs m (dropped (set_ilk v i)) = refs m i - one (m =? inum i).
Proof. unfold refs, dropped, one. cbn. rewrite (Z.eqb_sym m). destruct (inum i =? m); lia. Qed.

(** The references of the table, and its unused entries once [ip] is dropped. *)
Definition spares s (ip : Z) : Z := tsum spare s + one (iref (geti s ip) =? 1).

(** The reference moves from [ip] to [next]. *)
Lemma advance_sums s ip n next i' :
  in_table s ip → 0 < iref (geti s ip) → itable_ok s → got s ROOTDEV n next i' →
  let s2 := seti next i' s in let s3 := seti ip (dropped (set_ilk initsleeplock (geti s2 ip))) s2 in
  geti s2 ip = (if next =? ip then set_ref (iref (geti s ip) + 1) (geti s ip) else geti s ip) ∧
  inum (geti s3 next) = n ∧ 0 < iref (geti s3 next) ∧
  spares s3 next = spares s ip ∧ tsum iref s3 = tsum iref s ∧
  ∀ m, tsum (refs m) s3 = tsum (refs m) s - one (m =? inum (geti s ip)) + one (m =? n).
Proof.
  intros Hin Href Hok Hg s2 s3. pose proof (gt_in _ _ _ _ _ Hg) as Hnin. pose proof (gt_ref _ _ _ _ _ Hg) as Hnref.
  destruct (gt_id _ _ _ _ _ Hg) as [_ Hn]. pose proof (it_ref _ Hok next Hnin) as Hnr.
  assert (geti s2 ip = (if next =? ip then set_ref (iref (geti s ip) + 1) (geti s ip) else geti s ip)) as E2.
  { unfold s2. rewrite geti_seti by done. destruct (Z.eqb_spec next ip) as [<- |]; [| done].
    destruct (gt_old _ _ _ _ _ Hg) as [[_ ->] | [E0 _]]; [done | lia]. }
  assert (in_table s2 ip) as Hin2 by (unfold in_table, s2, seti; cbn [itable]; by rewrite length_zset).
  assert (geti s3 next = if ip =? next then dropped (set_ilk initsleeplock (geti s2 ip)) else i') as E3.
  { unfold s3. rewrite geti_seti by done. unfold s2. rewrite (geti_seti s next i' next), Z.eqb_refl by done. done. }
  assert (∀ f, tsum f s3 = tsum f s - f (geti s next) + f i' - f (geti s2 ip) + f (dropped (set_ilk initsleeplock (geti s2 ip)))) as Hsum.
  { intros f. unfold s3. rewrite tsum_seti by done. unfold s2 at 1. rewrite tsum_seti by done. lia. }
  split; [done |]. split; [| split; [| split; [| split]]].
  - rewrite E3, E2, (Z.eqb_sym ip). destruct (Z.eqb_spec next ip) as [<- |]; [| done].
    destruct (gt_old _ _ _ _ _ Hg) as [[_ ->] | [E0 _]]; [done | lia].
  - rewrite E3, E2, (Z.eqb_sym ip). destruct (Z.eqb_spec next ip) as [<- |]; [cbn; lia | lia].
  - unfold spares. rewrite Hsum, E3, E2, (Z.eqb_sym ip). unfold spare, one.
    destruct (Z.eqb_spec next ip) as [<- |]; cbn [iref set_ref set_ilk dropped]; rewrite Hnref.
    + repeat match goal with |- context [?a =? ?b] => destruct (Z.eqb_spec a b) end; lia.
    + repeat match goal with |- context [?a =? ?b] => destruct (Z.eqb_spec a b) end; lia.
  - rewrite Hsum, E2. destruct (Z.eqb_spec next ip) as [<- |]; cbn [iref set_ref set_ilk dropped]; lia.
  - intros m. rewrite Hsum, dropped_refs, (got_refs _ _ _ _ m Hg), E2. destruct (next =? ip); cbn [inum set_ref]; lia.
Qed.

(** From directory [ip], held, to its entry [name]. *)
Lemma advance_node {A} s ip name off n' (kn : K (fstate B M) A) (kf : Z → K (fstate B M) A) (Q : A → fstate B M → Prop) :
  at_node s ip → node_held s V ip → (∀ k, in_table s k → k ≠ ip → sl_locked (ilk (geti s k)) = false) →
  tsum iref s < 2 ^ 31 - 2 → 2 <= spares s ip → itype (geti s ip) = T_DIR →
  bytes name → Z.of_nat (length name) <= DIRSIZ → dir_lookup (fcontent V (geti s ip)) name = Some (off, n') →
  (∀ next s', at_node s' next → unlocked s' → inum (geti s' next) = n' → fsb s' = fsb s →
    spares s' next = spares s ip → tsum iref s' = tsum iref s →
    (∀ m, tsum (refs m) s' = tsum (refs m) s - one (m =? inum (geti s ip)) + one (m =? n')) →
    runs [] (kf next) s' Q) →
  runs [] (r <- dirlookup de ip name ;;
           match r with
           | None => kn
           | Some (next, _) => iunlockput mypid ip ;; kf next
           end) s Q.
Proof.
  intros [Hrep Htree Htbl Hin Href] [Hv Hlk Hc] Hun Htot Hsp Hty Hnb Hnl Hlook HQ.
  destruct (tb_ent _ _ _ Htbl ip Hin Href) as [Hd Hp _]. set (i := geti s ip) in *.
  assert (itype (dnode (fsb s) V (inum i)) = T_DIR) as Htd by (by destruct (on_disk_fields _ _ Hc) as [<- _]).
  assert (P n') as Hp'.
  { apply (to_next _ _ _ Htree (inum i) name off n'); [done | done |]. by rewrite <- (fcontent_on_disk V i). }
  eapply runs_bind.
  { apply (dirlookup_f de Hde s V L ip name); try done.
    - apply (dir_ok_on_disk V (dnode (fsb s) V (inum i))); [done | done |]. by apply (to_dir _ _ _ Htree).
    - intros ? ? _. split; [apply Htbl |]. left. destruct (zsum_pos spare (itable s)) as (k & x & Hk & Hx).
      + unfold spares, tsum, one in Hsp. destruct (_ =? 1); lia.
      + apply list_elem_of_lookup_2 in Hk. destruct (elem_geti s x Hk) as (j & Hj & Ej). exists j. split; [done |].
        rewrite Ej. unfold spare in Hx. destruct (Z.eqb_spec (iref x) 0); [done | lia]. }
  cbv beta zeta. fold i. rewrite Hlook. intros r s2 (b2 & m2 & Hb2 & next & i' & -> & -> & Hg).
  set (s1 := with_mem (with_blk s b2) m2).
  assert (got s1 ROOTDEV n' next i') as Hg1 by (destruct Hg; by constructor).
  assert (tbl V P s1) as Ht1 by (destruct Htbl as [[? ?] ?]; by constructor).
  destruct (advance_sums s1 ip n' next i' Hin Href (tb_ok _ _ _ Ht1) Hg1) as (E2 & Hn3 & Hr3 & Hs3 & Hi3 & Hm3).
  change (geti s1 ip) with i in E2, Hm3. set (s2 := seti next i' s1) in *.
  pose proof (gt_in _ _ _ _ _ Hg) as Hnin.
  assert (iref (geti s1 next) < 2 ^ 31 - 2) as Hlt.
  { apply (Z.le_lt_trans _ (tsum iref s)); [| done]. apply (zsum_elem iref); [| exact (geti_in s next Hnin)].
    intros y Hy. destruct (elem_geti s y Hy) as (k & Hk & <-). apply (it_ref _ (tb_ok _ _ _ Htbl) k Hk). }
  pose proof (tbl_got V P s1 n' next i' Ht1 Hg1 Hp' Hlt) as Ht2. fold s2 in Ht2.
  assert (in_table s2 ip) as Hin2 by (unfold in_table, s2, seti; cbn [itable]; by rewrite length_zset).
  assert (at_node s2 ip) as Ha2.
  { constructor; try done. rewrite E2. destruct (next =? ip); cbn; lia. }
  assert (node_held s2 V ip) as Hh2.
  { constructor; rewrite E2; by destruct (next =? ip). }
  assert (∀ k, in_table s2 k → k ≠ ip → sl_locked (ilk (geti s2 k)) = false) as Hun2.
  { intros k Hk Hne. assert (in_table s k) as Hk' by (revert Hk; unfold in_table, s2, seti; cbn [itable]; by rewrite length_zset).
    unfold s2. rewrite (geti_seti s1) by done. destruct (Z.eqb_spec next k) as [-> |]; [| by apply Hun].
    rewrite (gt_lock _ _ _ _ _ Hg). by apply Hun. }
  eapply runs_bind; [by apply iunlockput_node |]. cbv beta. intros _ s3 (-> & Ht3 & Hu3).
  apply HQ; try done. constructor; try done. unfold in_table, s2, seti. cbn [itable]. by rewrite !length_zset.
Qed.

(** ** namex *)

(** What [namex_loop] is to find from [n]: the inode of the path, or its parent. *)
Fixpoint target sb (nameiparent : bool) (n : Z) (names : list (list Z)) (name : list Z) : option (Z * list Z) :=
  match names with
  | [] => if nameiparent then None else Some (n, name)
  | name :: names =>
      if itype (dnode sb V n) =? T_DIR then
        if nameiparent && match names with [] => true | _ => false end then Some (n, name)
        else
          match dir_lookup (fcontent V (dnode sb V n)) name with
          | Some (_, n') => target sb nameiparent n' names name
          | None => None
          end
      else None
  end.

(** The state after a walk from a reference to [n] that gives [t]. *)
Definition walked s (n : Z) (t : option (Z * list Z)) (r : option (Z * list Z)) s' : Prop :=
  fsb s' = fsb s ∧ bs_rep (blk s') V ∅ L ∧ tbl V P s' ∧ unlocked s' ∧
  match t with
  | Some (n', name) => ∃ ip, r = Some (ip, name) ∧ in_table s' ip ∧ 0 < iref (geti s' ip) ∧ inum (geti s' ip) = n' ∧
      ∀ m, tsum (refs m) s' = tsum (refs m) s - one (m =? n) + one (m =? n')
  | None => r = None ∧ ∀ m, tsum (refs m) s' = tsum (refs m) s - one (m =? n)
  end.

(** Giving up at a held inode. *)
Lemma walk_fails s0 s ip :
  at_node s ip → node_held s V ip → (∀ k, in_table s k → k ≠ ip → sl_locked (ilk (geti s k)) = false) →
  fsb s = fsb s0 → (∀ m, tsum (refs m) s = tsum (refs m) s0) →
  runs [] (iunlockput mypid ip ;; ret None) s (walked s0 (inum (geti s ip)) None).
Proof.
  intros Ha Hh Hun Hsb Hs. eapply runs_bind; [by apply iunlockput_node |]. cbv beta. intros _ s1 (-> & Ht & Hu).
  apply runs_ret. split; [done |]. split; [apply Ha |]. split; [done |]. split; [done |]. split; [done |].
  intros m. rewrite tsum_seti, dropped_refs, Hs by apply Ha. lia.
Qed.

Lemma walk_ends (par : bool) s ip name :
  at_node s ip → unlocked s →
  runs [] (if par then iput mypid ip ;; ret None else ret (Some (ip, name))) s
    (walked s (inum (geti s ip)) (target (fsb s) par (inum (geti s ip)) [] name)).
Proof.
  intros Ha Hun. destruct par; cbn [target].
  - eapply runs_bind; [by apply iput_node |]. cbv beta. intros _ s1 (-> & Ht & Hu). apply runs_ret.
    split; [done |]. split; [apply Ha |]. split; [done |]. split; [done |]. split; [done |].
    intros m. rewrite tsum_seti by apply Ha. pose proof (dropped_refs (geti s ip) (ilk (geti s ip)) m) as E.
    unfold refs, dropped in *. cbn in *. lia.
  - apply runs_ret. split; [done |]. split; [apply Ha |]. split; [apply Ha |]. split; [done |].
    exists ip. split; [done |]. split; [apply Ha |]. split; [apply Ha |]. split; [done |]. intros m. lia.
Qed.

Lemma namex_loop_f par fuel s ip path name :
  at_node s ip → unlocked s → tsum iref s < 2 ^ 31 - 2 → 2 <= spares s ip → bytes path → (length path <= fuel)%nat →
  runs [] (namex_loop mypid de fuel par ip path name) s
    (walked s (inum (geti s ip)) (target (fsb s) par (inum (geti s ip)) (path_elems path) name)).
Proof.
  revert s ip path name. induction fuel as [| fuel IH]; intros s ip path name Ha Hun Htot Hsp Hb Hlen;
    pose proof (skipelem_elems path) as Hs; cbn [namex_loop]; destruct (skipelem path) as [[rest nm] |] eqn:Es.
  - destruct Hs as (_ & _ & Hl & _). lia.
  - rewrite Hs. by apply walk_ends.
  - destruct Hs as (-> & Hne & Hl & Hrest). destruct (skipelem_bytes _ _ _ Es Hb) as (Hb1 & Hb2 & Hb3).
    set (n := inum (geti s ip)). cbn [target].
    eapply runs_bind; [by apply ilock_node |]. cbv beta. intros _ s1 (Ha1 & Hh1 & [Hsb Hlen1 Hid Hsum] & Hoth).
    destruct (Hid ip) as (_ & En & Er). fold n in En. destruct (on_disk_fields _ _ (nh_copy _ _ _ Hh1)) as [Et _].
    rewrite Hsb, En in Et.
    assert (∀ k, in_table s1 k → k ≠ ip → sl_locked (ilk (geti s1 k)) = false) as Hun1.
    { intros k Hk Hk'. assert (in_table s k) by (revert Hk; unfold in_table; by rewrite Hlen1). rewrite Hoth by done. by apply Hun. }
    assert (∀ m, tsum (refs m) s1 = tsum (refs m) s) as Hrefs by (intros m; apply Hsum, refs_same).
    rstep. rewrite Et. destruct (itype (dnode (fsb s) V n) =? T_DIR) eqn:Ed; cbn [negb];
      [| rewrite <- En; by apply walk_fails].
    assert (match rest with [] => true | _ => false end = match path_elems rest with [] => true | _ => false end) as Ebr.
    { destruct rest; [done |]. destruct (path_elems _) eqn:E; [| done]. pose proof (proj2 Hrest eq_refl). done. }
    rewrite <- Ebr. destruct (par && match rest with [] => true | _ => false end).
    + eapply runs_bind; [by apply iunlock_node |]. cbv beta. intros _ s2 (-> & Ha2 & Hu2). apply runs_ret.
      split; [done |]. split; [apply Ha2 |]. split; [apply Ha2 |]. split; [done |]. exists ip.
      split; [done |]. split; [apply Ha2 |]. split; [apply Ha2 |]. rewrite geti_seti, Z.eqb_refl by apply Ha1. split; [done |].
      intros m. rewrite tsum_seti, Hrefs by apply Ha1. unfold refs. cbn. lia.
    + apply Z.eqb_eq in Ed. rewrite <- (fcontent_on_disk V (geti s1 ip)) by (rewrite (nh_copy _ _ _ Hh1), Hsb, En; done).
      destruct (dir_lookup (fcontent V (geti s1 ip)) nm) as [[off n'] |] eqn:El.
      * apply (advance_node s1 ip nm off n'); try done; [rewrite Hsum; [done | done] | | congruence |].
        { unfold spares. rewrite Hsum, Er by apply spare_same. apply Hsp. }
        intros next s2 Ha2 Hu2 En2 Hsb2 Hsp2 Ht2 Hr2.
        eapply runs_conseq; [apply IH; try done; [| | lia] |].
        { rewrite Ht2, Hsum; done. }
        { rewrite Hsp2. unfold spares. rewrite Hsum, Er by apply spare_same. apply Hsp. }
        intros r s3 (H1 & H2 & H3 & H4 & H5). rewrite En2, Hsb2, Hsb in H5. split; [congruence |]. do 3 (split; [done |]).
        revert H5. destruct (target _ _ _ _ _) as [[n3 nm3] |].
        -- intros (ip3 & -> & Hi & Hr & Hn & Hm). exists ip3. do 4 (split; [done |]). intros m. rewrite Hm, Hr2, Hrefs, En. lia.
        -- intros [-> Hm]. split; [done |]. intros m. rewrite Hm, Hr2, Hrefs, En. lia.
      * eapply runs_bind.
        { apply (dirlookup_f de Hde s1 V L ip nm); try done; [apply Ha1 | congruence | |].
          - apply (dir_ok_on_disk V (dnode (fsb s) V n)).
            + by rewrite (nh_copy _ _ _ Hh1), Hsb, En.
            + destruct (tb_ent _ _ _ (an_tbl _ _ Ha1) ip (an_in _ _ Ha1) (an_ref _ _ Ha1)) as [-> _ _]. done.
            + apply (to_dir _ _ _ (an_tree _ _ Ha)); [| done].
              apply (tb_ent _ _ _ (an_tbl _ _ Ha) ip (an_in _ _ Ha) (an_ref _ _ Ha)).
          - by rewrite El. }
        cbv beta zeta. rewrite El. intros r s2 (b2 & m2 & Hr2 & -> & ->).
        rewrite <- En. apply (walk_fails s (with_mem (with_blk s1 b2) m2) ip); try done.
        -- destruct Ha1 as [? ? [[? ?] ?] ? ?]. by constructor.
        -- destruct Hh1. by constructor.
  - rewrite Hs. by apply walk_ends.
Qed.

(** ** Where a walk starts *)

(** [s'] is [s] with a reference more, to inode [n] at [ip]. *)
Record started s (n ip : Z) s' : Prop := {
  sd_at : at_node s' ip;
  sd_un : unlocked s';
  sd_num : inum (geti s' ip) = n;
  sd_sb : fsb s' = fsb s;
  sd_total : tsum iref s' = tsum iref s + 1;
  sd_spares : tsum spare s <= spares s' ip;
  sd_refs : ∀ m, tsum (refs m) s' = tsum (refs m) s + one (m =? n) }.

Context (s0 : fstate B M).
Context (Hrep : bs_rep (blk s0) V ∅ L) (Htree : tree_ok (fsb s0) V P) (Htbl : tbl V P s0) (Hun : unlocked s0).
Context (Htot : tsum iref s0 < 2 ^ 31 - 3).

Lemma ref_le k : in_table s0 k → iref (geti s0 k) <= tsum iref s0.
Proof.
  intros Hk. apply (zsum_elem iref); [| by apply geti_in].
  intros y Hy. destruct (elem_geti s0 y Hy) as (j & Hj & <-). apply (it_ref _ (tb_ok _ _ _ Htbl) j Hj).
Qed.

Lemma got_started n ip i : got s0 ROOTDEV n ip i → P n → started s0 n ip (seti ip i s0).
Proof.
  intros Hg Hn. pose proof (gt_in _ _ _ _ _ Hg) as Hin. pose proof (ref_le ip Hin) as Hle.
  pose proof (gt_ref _ _ _ _ _ Hg) as Er. pose proof (it_ref _ (tb_ok _ _ _ Htbl) ip Hin) as Hr.
  assert (geti (seti ip i s0) ip = i) as Eg by (by rewrite geti_seti, Z.eqb_refl).
  constructor; try done.
  - constructor; try done; [apply (tbl_got V P s0 n); [done | done | done | lia] | | rewrite Eg; lia].
    unfold in_table, seti. cbn [itable]. by rewrite length_zset.
  - intros k Hk. assert (in_table s0 k) as Hk' by (revert Hk; unfold in_table, seti; cbn [itable]; by rewrite length_zset).
    rewrite geti_seti by done. destruct (Z.eqb_spec ip k) as [<- |]; [| by apply Hun].
    rewrite (gt_lock _ _ _ _ _ Hg). by apply Hun.
  - rewrite Eg. apply Hg.
  - rewrite tsum_seti by done. lia.
  - unfold spares. rewrite tsum_seti, Eg by done. unfold spare, one.
    repeat match goal with |- context [?a =? ?b] => destruct (Z.eqb_spec a b) end; lia.
  - intros m. rewrite tsum_seti, (got_refs _ _ _ _ m Hg) by done. lia.
Qed.

Lemma iget_root : 1 <= tsum spare s0 → P ROOTINO → runs [] (iget ROOTDEV ROOTINO) s0 (started s0 ROOTINO).
Proof.
  intros Hsp HP. eapply runs_conseq; [apply iget_f; [apply Htbl |] |].
  - left. destruct (zsum_pos spare (itable s0)) as (k & x & Hk & Hx); [unfold tsum in Hsp; lia |].
    apply list_elem_of_lookup_2 in Hk. destruct (elem_geti s0 x Hk) as (j & Hj & Ej). exists j. split; [done |].
    rewrite Ej. unfold spare in Hx. destruct (Z.eqb_spec (iref x) 0); [done | lia].
  - intros ip s' (i & -> & Hg). by apply got_started.
Qed.

Lemma idup_cwd cwd :
  in_table s0 cwd → 0 < iref (geti s0 cwd) → runs [] (idup cwd) s0 (started s0 (inum (geti s0 cwd))).
Proof.
  intros Hin Hpos. destruct (tb_ent _ _ _ Htbl cwd Hin Hpos) as [Hd Hp _].
  eapply runs_conseq; [by apply idup_f; [apply Htbl | |] |]. intros ip s' [-> ->].
  apply got_started; [| done]. constructor; try done. by left.
Qed.

(** namex, from the root or from [cwd]. *)
Definition walk_start (cwd : Z) (path : list Z) : Z :=
  match path with c :: _ => if c =? SLASH then ROOTINO else inum (geti s0 cwd) | [] => inum (geti s0 cwd) end.

Lemma namex_f par cwd path :
  P ROOTINO → in_table s0 cwd → 0 < iref (geti s0 cwd) → 2 <= tsum spare s0 → bytes path →
  let n := walk_start cwd path in
  runs [] (namex mypid de cwd path par) s0 (λ r s', fsb s' = fsb s0 ∧ bs_rep (blk s') V ∅ L ∧ tbl V P s' ∧ unlocked s' ∧
    match target (fsb s0) par n (path_elems path) [] with
    | Some (n', name) => ∃ ip, r = Some (ip, name) ∧ in_table s' ip ∧ 0 < iref (geti s' ip) ∧ inum (geti s' ip) = n' ∧
        ∀ m, tsum (refs m) s' = tsum (refs m) s0 + one (m =? n')
    | None => r = None ∧ ∀ m, tsum (refs m) s' = tsum (refs m) s0
    end).
Proof.
  intros HP Hin Hpos Hsp Hb n. unfold namex. eapply runs_bind with (R := started s0 n).
  { unfold n, walk_start. destruct path as [| c path]; [by apply idup_cwd |].
    destruct (c =? SLASH); [apply iget_root; [lia | done] | by apply idup_cwd]. }
  intros ip s1 [Ha Hu En Hsb Ht Hs Hr].
  eapply runs_conseq; [apply namex_loop_f; try done; lia |].
  intros r s2 (H1 & H2 & H3 & H4 & H5). split; [congruence |]. do 3 (split; [done |]). rewrite En, Hsb in H5.
  destruct (target _ _ _ _ _) as [[n' name] |].
  - destruct H5 as (ip' & -> & Hi & Hp & Hn & Hm). exists ip'. do 4 (split; [done |]). intros m. rewrite Hm, Hr. lia.
  - destruct H5 as [-> Hm]. split; [done |]. intros m. rewrite Hm, Hr. lia.
Qed.

Lemma target_walk sb n names name : fst <$> target sb false n names name = walk sb V n names.
Proof.
  revert n name. induction names as [| nm names IH]; intros n name; [done |]. cbn [target walk].
  destruct (itype (dnode sb V n) =? T_DIR); [| done]. cbn [andb]. destruct (dir_lookup _ _) as [[off n'] |]; [apply IH | done].
Qed.

Lemma namei_f cwd path :
  P ROOTINO → in_table s0 cwd → 0 < iref (geti s0 cwd) → 2 <= tsum spare s0 → bytes path →
  runs [] (namei mypid de cwd path) s0 (λ r s', fsb s' = fsb s0 ∧ bs_rep (blk s') V ∅ L ∧ tbl V P s' ∧ unlocked s' ∧
    match walk (fsb s0) V (walk_start cwd path) (path_elems path) with
    | Some n => ∃ ip, r = Some ip ∧ in_table s' ip ∧ 0 < iref (geti s' ip) ∧ inum (geti s' ip) = n ∧
        ∀ m, tsum (refs m) s' = tsum (refs m) s0 + one (m =? n)
    | None => r = None ∧ ∀ m, tsum (refs m) s' = tsum (refs m) s0
    end).
Proof.
  intros HP Hin Hpos Hsp Hb. unfold namei. eapply runs_bind; [by apply (namex_f false cwd path) |].
  cbv beta zeta. intros r s' (Hsb & Hr & Ht & Hu & Hres). apply runs_ret. do 4 (split; [done |]).
  rewrite <- (target_walk (fsb s0) _ _ []).
  destruct (target (fsb s0) false _ _ []) as [[n' name] |]; cbn [fmap option_fmap option_map fst].
  - destruct Hres as (ip & -> & Hi & Hp & Hn & Hm). exists ip. done.
  - destruct Hres as [-> Hm]. done.
Qed.

Lemma target_parent sb n names name : target sb true n names name = walk_parent sb V n names.
Proof.
  revert n name. induction names as [| nm names IH]; intros n name; [done |]. cbn [target].
  unfold walk_parent. destruct names as [| nm' names].
  - cbn [andb last removelast walk]. done.
  - cbn [andb]. change (last (nm :: nm' :: names)) with (last (nm' :: names)).
    change (removelast (nm :: nm' :: names)) with (nm :: removelast (nm' :: names)). cbn [walk].
    destruct (itype (dnode sb V n) =? T_DIR); [| by destruct (last _)].
    destruct (dir_lookup _ _) as [[off n'] |]; [| by destruct (last _)]. rewrite IH. done.
Qed.
End path.
