(* ===== verification/FsProps.v ===== *)
(** * What the file system promises

    The theorems about fs.c: allocation, reading and writing files, the inode
    table, directories and paths. *)

From S2P Require Import Prelude Abi Monad Riscv Mem Block Sleeplock Wp Store Fs.
From S2P Require Import FsAlloc FsFile FsRw FsInode FsIo FsTrunc FsTable FsDir FsPath.

Section props.
Context {B M : Type} `{HB : BlockStoreLaws B} `{HM : MemoryLaws M}.
Implicit Types (s : fstate B M) (V : contents) (i : inode) (sb : superblock) (L : gset Z).

(** C13: [balloc] returns a block of the data area that was free, marks it used,
    zeroes it, and changes neither another block nor another bit of the bitmap. *)
Theorem balloc_fresh s V O L :
  geom (fsb s) → bs_rep (blk s) V O L → opens_used (fsb s) V O → meta_used (fsb s) V →
  room_for (fsb s) O L 1 1 → (∃ b, 0 <= b < sb_size (fsb s) ∧ used (fsb s) V b = false) →
  runs [] (balloc ROOTDEV) s (λ a s', ∃ b' V' L', s' = with_blk s b' ∧ bs_rep b' V' O L' ∧
    is_data (fsb s) a ∧ used (fsb s) V a = false ∧ V' a = zero_block ∧
    (∀ c, 0 <= c < sb_size (fsb s) → used (fsb s) V' c = (a =? c) || used (fsb s) V c) ∧
    (∀ c, c ≠ a → c ≠ BBLOCK a (fsb s) → V' c = V c)).
Proof.
  intros Hg H Ho Hm Hr Hf. eapply runs_conseq; [by apply (balloc_f s V O L) |]. intros a s' (b' & -> & (Hd & Ha & Hu) & H').
  eexists b', _, _. split; [done |]. split; [exact H' |]. split; [done |]. split; [done |]. split; [| split].
  - unfold allocated. by rewrite fn_lookup_insert.
  - intros c Hc. apply used_allocated; try done. by apply (bs_rep_block _ _ _ _ _ H).
  - intros c H1 H2. unfold allocated. by rewrite !fn_lookup_insert_ne.
Qed.

(** C9: [writei] writes all of its bytes: the file's contents are the old ones
    with the bytes spliced in at the offset, extended where they reach past the
    end; blocks that become used belong to the file; other files, other inodes
    and the other fields of the inode stay as they were; and the inode on disk
    is the one in memory. *)
Theorem writei_splices s V L ip user src off bs n :
  let sb := fsb s in let i := geti s ip in
  geom sb → bs_rep (blk s) V ∅ L → in_table s ip → file_ok sb V i → meta_used sb V → inode_fits i →
  0 <= inum i < sb_ninodes sb → bytes bs → 0 <= off <= isize i →
  off + Z.of_nat (length bs) <= MAXFILE * BSIZE → 0 <= src < 2 ^ 64 → source (kmem s) user src bs →
  room_for sb ∅ L (2 * nspan off (length bs) + n) 2 → (2 * nspan off (length bs) <= nfree sb V)%nat →
  runs [] (writei ip user src off (Z.of_nat (length bs))) s (λ r s', r = Z.of_nat (length bs) ∧ ∃ b' V' i' L',
    s' = seti ip i' (with_blk s b') ∧ bs_rep b' V' ∅ ({[IBLOCK (inum i) sb]} ∪ L') ∧ room_for sb ∅ L' n 2 ∧
    file_written sb V i V' i' off bs).
Proof. apply writei_f. Qed.

(** C12: [readi] delivers exactly the bytes of the file from the offset, up to
    the end of the file, to its destination (where every copy succeeds), returns
    their number, and changes no block. *)
Theorem readi_reads s V L ip user dst J off n :
  let i := geti s ip in
  bs_rep (blk s) V ∅ L → (size L < bs_bufs)%nat → file_ok (fsb s) V i →
  0 <= dst < 2 ^ 64 → 0 <= off <= isize i → 0 <= n → off + n < 2 ^ 32 →
  let len := Z.to_nat (Z.min n (isize i - off)) in
  sink user dst len J → J [] (kmem s) →
  runs [] (readi ip user dst off n) s (λ r s', r = Z.of_nat len ∧
    ∃ b' m', s' = with_mem (with_blk s b') m' ∧ bs_rep b' V ∅ L ∧
      J (take len (drop (Z.to_nat off) (fcontent V i))) m').
Proof.
  intros i H HL Hok Hdst Hoff Hn Hmax len HJ Hl.
  eapply runs_conseq; [apply (readi_f s V L ip user dst J off n); try done; apply Hok |].
  cbv beta zeta. fold i len. intros r s' (-> & b' & m' & -> & H' & HJ'). split; [done |]. exists b', m'.
  split; [done |]. split; [done |]. by rewrite <- fslice_content by lia.
Qed.

(** C14: [iget] returns the entry of the inode, with one more reference: the one
    that is in use for it if there is one, and otherwise an unused entry, not
    valid.  No other entry changes, and the table keeps its invariant that an
    inode has at most one entry. *)
Theorem iget_unique s d n :
  itable_ok s → (∀ k, in_table s k → iref (geti s k) < 2 ^ 31 - 2) →
  (∃ k, in_table s k ∧ iref (geti s k) = 0) ∨ (∃ k, in_table s k ∧ entry_is d n (geti s k) = true) →
  runs [] (iget d n) s (λ ip s', ∃ i', s' = seti ip i' s ∧ got s d n ip i' ∧ itable_ok s').
Proof.
  intros Hok Hb Hr. eapply runs_conseq; [by apply iget_f |]. intros ip s' (i' & -> & Hg). exists i'. split; [done |].
  split; [done |]. apply (got_itable_ok s d n); [done | | done]. apply Hb, Hg.
Qed.

(** C11: the last [iput] of an inode without links frees it: all its blocks are
    free and no other block is, its type on disk is 0, it has size 0 and no
    addresses; data blocks and other inodes are untouched; its entry in the
    table is unused and not valid. *)
Theorem iput_frees mypid s V L ip n :
  let sb := fsb s in let i := geti s ip in
  itable_ok s → geom sb → bs_rep (blk s) V ∅ L → in_table s ip → file_ok sb V i → meta_used sb V → inode_fits i →
  0 <= inum i < sb_ninodes sb → room_for sb ∅ L (S n) 2 →
  last_ref i = true → sl_locked (ilk i) = false →
  runs [] (iput mypid ip) s (λ _ s', ∃ b' V' L', bs_rep b' V' ∅ L' ∧
    s' = seti ip (dropped (set_ilk initsleeplock (set_ivalid false (unused i)))) (with_blk s b') ∧
    synced sb V' (unused i) ∧
    (∀ b, 0 <= b < sb_size sb →
       used sb V' b = true ↔ used sb V b = true ∧ ∀ k, in_slots k → slot V i k ≠ b ∨ b = 0) ∧
    (∀ c, is_data sb c → V' c = V c) ∧
    (∀ m i0, 0 <= m < sb_ninodes sb → m ≠ inum i →
       read_dinode (V' (IBLOCK m sb)) (dip m) i0 = read_dinode (V (IBLOCK m sb)) (dip m) i0)).
Proof.
  intros sb i Hok Hg H Hin Hf Hm Hfit Hn Hr Hlast Hlk.
  eapply runs_conseq; [by apply (iput_last mypid s V L ip n) |]. cbv beta zeta. fold i sb.
  intros _ s' (b' & V1 & L' & -> & Ht & Hb1 & H' & _). pose proof (unused_fits i Hfit) as Hfit'.
  pose proof (same_data_dinode sb V1 (unused i) Hg Hn) as Hsd.
  eexists b', _, _. split; [exact H' |]. split; [done |]. split; [| split; [| split]].
  - apply with_dinode_synced; [apply Hb1 | apply Hn | done].
  - intros b Hb. rewrite (same_data_used sb V1) by done. by apply (tr_used _ _ _ _ Ht).
  - intros c Hc. rewrite Hsd by (by left). by apply (tr_frame _ _ _ _ Ht).
  - intros m i0 Hm' Hne. rewrite with_dinode_other; [| apply Hb1 | apply Hn | done | lia | done].
    by apply (tr_inodes _ _ _ _ Ht).
Qed.

(** What [dirlookup] returns on [s] is [w]: nothing, or the offset of the entry
    and the number of the inode, of which the table then has one reference
    more. *)
Definition looks_up de s dp nm (w : option (Z * Z)) : Prop :=
  runs [] (dirlookup de dp nm) s (λ r s',
    match w with
    | None => r = None
    | Some (off, n) => ∃ ip, r = Some (ip, off) ∧ got s ROOTDEV n ip (geti s' ip)
    end).

(** An inode changed in place keeps the table well-formed. *)
Lemma seti_table s dp i' :
  let i := geti s dp in
  in_table s dp → idev i' = idev i → inum i' = inum i → iref i' = iref i →
  itable_ok s → itable_ok (seti dp i' s).
Proof.
  intros i Hin E1 E2 E3 [H1 H2]. split.
  - intros k Hk. rewrite geti_seti by done. rewrite in_table_seti in Hk.
    destruct (Z.eqb_spec dp k) as [<- |]; [rewrite E3 |]; by apply H1.
  - intros k k' Hk Hk'. rewrite in_table_seti in Hk, Hk'. rewrite !geti_seti by done.
    destruct (Z.eqb_spec dp k) as [<- |], (Z.eqb_spec dp k') as [<- |];
      rewrite ?E1, ?E2, ?E3; try done; by apply H2.
Qed.

(** [dirlookup] returns what the bytes of the directory say. *)
Lemma dirlookup_answers de s V L dp nm :
  0 <= de ∧ de + DIRENT <= 2 ^ 64 →
  bs_rep (blk s) V ∅ L → (size L < bs_bufs)%nat → itype (geti s dp) = T_DIR → dir_ok V (geti s dp) →
  itable_ok s → (∃ k, in_table s k ∧ iref (geti s k) = 0) →
  bytes nm → Z.of_nat (length nm) <= DIRSIZ →
  looks_up de s dp nm (dir_lookup (fcontent V (geti s dp)) nm).
Proof.
  intros Hde H HL Ht Hd Hok Hroom Hb Hl. unfold looks_up.
  eapply runs_conseq; [apply (dirlookup_f de Hde s V L dp nm); try done; by auto |].
  cbv beta zeta. intros r s' (b' & m' & _ & Hr).
  destruct (dir_lookup (fcontent V (geti s dp)) nm) as [[off n] |]; [| by destruct Hr].
  destruct Hr as (ip & i' & -> & -> & Hg). exists ip. split; [done |].
  rewrite geti_seti, Z.eqb_refl by apply (gt_in _ _ _ _ _ Hg). done.
Qed.

(** C10: [dirlink] of a name that the directory does not have returns 0, and
    [dirlookup], which read the entries [dir_lookup c] in the directory before,
    then finds the name, at the entry that was free, with the inode's number,
    and for every other name returns what it returned before.  The inode table
    is asked to have a free entry, for the [iget] of [dirlookup]. *)
Theorem dirlink_adds mypid de s V L dp name n k :
  let sb := fsb s in let i := geti s dp in let c := fcontent V i in
  0 <= de ∧ de + DIRENT <= 2 ^ 64 →
  geom sb → bs_rep (blk s) V ∅ L → in_table s dp → file_ok sb V i → meta_used sb V → inode_fits i →
  0 <= inum i < sb_ninodes sb → itype i = T_DIR → (DIRENT | isize i) →
  itable_ok s → 0 < iref i → (∃ f, in_table s f ∧ iref (geti s f) = 0) →
  bytes name → Z.of_nat (length name) <= DIRSIZ → 0 < n < 2 ^ 16 → dir_lookup c name = None →
  dir_free c + DIRENT <= MAXFILE * BSIZE →
  room_for sb ∅ L (2 + k) 2 → (2 <= nfree sb V)%nat →
  let is_name nm := bytes nm ∧ Z.of_nat (length nm) <= DIRSIZ in
  (∀ nm, is_name nm → looks_up de s dp nm (dir_lookup c nm)) ∧
  runs [] (dirlink mypid de dp name n) s (λ r s', r = 0 ∧ ∃ b' m' V' i' L',
    s' = seti dp i' (with_mem (with_blk s b') m') ∧ bs_rep b' V' ∅ L' ∧ file_ok sb V' i' ∧ synced sb V' i' ∧
    ∀ nm, is_name nm → looks_up de s' dp nm
      (if bool_decide (cname name = cname nm) then Some (dir_free c, n) else dir_lookup c nm)).
Proof.
  intros sb i c Hde Hg H Hin Hok Hm Hfit Hi Ht Hdiv Htab Href Hroom Hb Hl Hn Hnone Hmax Hr Hfree is_name.
  pose proof (room_open sb ∅ L _ 1 Hr) as HL. rewrite map_size_empty in HL.
  split.
  { intros nm [Hnb Hnl]. apply (dirlookup_answers de s V L); try done. by apply (file_ok_dir sb). }
  eapply runs_conseq; [by apply (dirlink_f de Hde mypid s V L dp name n k) |]. cbv beta zeta. fold i sb c.
  intros r s' (-> & b' & m' & V' & i' & L' & -> & H' & Hr' & Hw). split; [done |].
  eexists b', m', V', i', _. split; [done |]. split; [exact H' |]. split; [apply Hw |]. split; [apply Hw |].
  destruct (fw_same _ _ _ _ _ _ _ Hw) as (E1 & E2 & E3 & _ & _ & E6 & _).
  set (s1 := with_mem (with_blk s b') m'). assert (geti (seti dp i' s1) dp = i') as Eg.
  { rewrite geti_seti, Z.eqb_refl; done. }
  intros nm [Hnb Hnl].
  replace (if bool_decide _ then _ else _) with (dir_lookup (fcontent V' (geti (seti dp i' s1) dp)) nm).
  - apply (dirlookup_answers de _ V' ({[IBLOCK (inum i) sb]} ∪ L')); rewrite ?Eg; try done.
    + destruct Hr' as [_ Hr']. rewrite map_size_empty in Hr'.
      assert (size L' <= size (L' ∪ bitmap sb))%nat by (apply subseteq_size; set_solver).
      rewrite size_union_alt, size_singleton.
      assert (size (L' ∖ {[IBLOCK (inum i) sb]}) <= size L')%nat by (apply subseteq_size; set_solver). lia.
    + by rewrite E6.
    + apply (file_ok_dir sb); [apply Hw |]. rewrite (fw_size _ _ _ _ _ _ _ Hw), length_dirent.
      rewrite Z2Nat.id by done. destruct (find_free_range (nents c) c 0) as [_ Hf]. rewrite Z.sub_0_r in Hf.
      destruct (Z.max_spec (isize i) (dir_free c + DIRENT)) as [[_ ->] | [_ ->]]; [| done].
      apply Z.divide_add_r; [exact Hf | by exists 1].
    + apply (seti_table s1); try done. destruct Htab. by constructor.
    + destruct Hroom as (f & Hf & Hz). exists f. split; [by apply in_table_seti |].
      rewrite geti_seti by done. destruct (Z.eqb_spec dp f) as [<- |]; [| done]. fold i in Hz. lia.
  - rewrite Eg, (fw_content _ _ _ _ _ _ _ Hw). apply dir_lookup_link; try done.
    unfold c. rewrite length_fcontent, Z2Nat.id; [done |]. apply (fo_size _ _ _ Hok).
Qed.

(** C3: [namei] finds what the path means: starting at the root for a path with
    a leading slash and at the current directory otherwise, it follows the
    elements of the path through the directories on disk, and returns the inode
    that is reached, or fails if there is none.  On success there is one
    reference more to that inode and no other change to the references; on
    failure the references are as they were. *)
Theorem namei_walks mypid de s V L P cwd path :
  0 <= de ∧ de + DIRENT <= 2 ^ 64 →
  bs_rep (blk s) V ∅ L → (size L < bs_bufs)%nat → tree_ok (fsb s) V P → tbl V P s → unlocked s → P ROOTINO →
  in_table s cwd → 0 < iref (geti s cwd) → tsum iref s < 2 ^ 31 - 3 → 2 <= tsum spare s → bytes path →
  runs [] (namei mypid de cwd path) s (λ r s', tbl V P s' ∧ unlocked s' ∧
    match walk (fsb s) V (walk_start s cwd path) (path_elems path) with
    | Some n => ∃ ip, r = Some ip ∧ in_table s' ip ∧ inum (geti s' ip) = n ∧
        ∀ m, tsum (refs m) s' = tsum (refs m) s + one (m =? n)
    | None => r = None ∧ ∀ m, tsum (refs m) s' = tsum (refs m) s
    end).
Proof.
  intros Hde H HL Htree Htbl Hun HP Hcwd Href Htot Hsp Hb.
  eapply runs_conseq; [by apply (namei_f mypid de Hde V L HL P s H Htree Htbl Hun Htot cwd path) |].
  cbv beta. intros r s' (_ & _ & Ht & Hu & Hres). split; [done |]. split; [done |]. destruct (walk _ _ _ _) as [n |]; [| done].
  destruct Hres as (ip & -> & Hi & _ & Hn & Hm). by exists ip.
Qed.
End props.
