(* ===== verification/FsCrash.v ===== *)
(** * A write to a file and a crash

    fs.c on top of the log: a [writei] that is an operation of its own is
    atomic with respect to crashes. *)

From S2P Require Import Prelude Abi Monad Riscv Mem Block Sleeplock Bio BioInv Log LogDisk LogCrash LogTxn Wp Store LogStore.
From S2P Require Import Fs FsAlloc FsFile FsRw FsInode FsIo.

Section crash.
Context {M : Type} `{HM : MemoryLaws M}.
Context (mypid logstart nlog : Z) (D : disk).

#[local] Instance store : BlockStore lstate := log_store mypid.
#[local] Instance laws : BlockStoreLaws lstate := log_store_laws mypid logstart nlog D 1.

Abbreviation rep := (log_rep mypid logstart nlog D 1).

(** [crash_atomic] depends on where the log is, not on what it holds. *)
Lemma crash_atomic_log l l' d ws V V' h n :
  start l' = start l → Log.size l' = Log.size l → (∀ c, V c = V' c) →
  crash_atomic mypid l d ws V h n → crash_atomic mypid l' d ws V' h n.
Proof.
  intros E1 E2 HV H p Hp. destruct (H p Hp) as (s0 & l1 & s1 & w1 & B1 & B2 & B3 & B4). exists s0, l1, s1, w1.
  unfold outside in *. rewrite E1, E2. do 3 (split; [done |]). destruct B4 as [B4 | B4]; [by left | right].
  intros c Hc. rewrite <- HV. by apply B4.
Qed.

(** Before anything has been logged the disk has the contents. *)
Lemma rep_disk b V c : rep b V ∅ ∅ → V c = dread D c.
Proof.
  intros H. destruct b as [l s]. destruct (log_rep_txn _ _ _ _ _ _ _ _ _ H) as (Htx & Hid & _).
  pose proof (log_holds_size _ _ _ _ _ (lr_log _ _ _ _ _ _ _ _ _ H)) as Hn. rewrite size_empty in Hn. cbn [lg] in Hn.
  rewrite <- (lr_view _ _ _ _ _ _ _ _ _ H), <- (lr_disk _ _ _ _ _ _ _ _ _ H). cbn [bc].
  apply (txn_clean l); [done | done |]. rewrite <- Hn. apply not_elem_of_nil.
Qed.

Lemma room_bufs sb L n (a : Z) : room_for (B := lstate) sb ∅ L n 2 → (base.size ({[a]} ∪ L) < Z.to_nat NBUF)%nat.
Proof.
  intros [_ H]. rewrite map_size_empty in H. change bs_bufs with (Z.to_nat NBUF) in H.
  assert (base.size L <= base.size (L ∪ bitmap sb))%nat by (apply subseteq_size; set_solver).
  pose proof (size_union_alt {[a]} L) as E. rewrite size_singleton in E.
  assert (base.size (L ∖ {[a]}) <= base.size L)%nat by (apply subseteq_size; set_solver). lia.
Qed.

(** C1: a [writei] and the [end_op] of its transaction, the only one, return,
    with the bytes spliced into the file.  If the machine crashes at any point
    of the disk writes of the [end_op], then after booting and recovery either
    no block outside the log has changed, or all are as the completed [writei]
    has them; and these are on disk when [end_op] has returned. *)
Theorem writei_crash_atomic (s : fstate lstate M) V ip user src off bs w n :
  let sb := fsb s in let i := geti s ip in let l := lg (blk s) in
  geom (B := lstate) sb → rep (blk s) V ∅ ∅ → hdr_n (dread D logstart) = 0 →
  in_table s ip → file_ok sb V i → meta_used sb V → inode_fits i → 0 <= inum i < sb_ninodes sb → bytes bs →
  0 <= off <= isize i → off + Z.of_nat (length bs) <= MAXFILE * BSIZE → 0 <= src < 2 ^ 64 → source (kmem s) user src bs →
  room_for (B := lstate) sb ∅ ∅ (2 * nspan off (length bs)) 2 → (2 * nspan off (length bs) <= nfree sb V)%nat →
  ∃ s' w' ws V' i',
    (r <- writei ip user src off (Z.of_nat (length bs)) ;; lift blkL (end_op mypid) ;; ret r) s (Ctx [] w n) =
      Ok (Z.of_nat (length bs)) s' (Ctx [] w' n) ∧
    geti s' ip = i' ∧ file_written sb V i V' i' off bs ∧
    writes (dsk (bc (blk s'))) = writes D ++ ws ∧
    (∀ c, outside l c → dread (dsk (bc (blk s'))) c = V' c) ∧
    (∀ c, V c = dread D c) ∧ crash_atomic mypid l D ws V' [] n.
Proof.
  intros sb i l Hg H Hhdr Hin Hok Hm Hfit Hn Hbs Hoff Hmax Hsrc Hs Hr Hfr.
  destruct (writei_f s V ∅ ip user src off bs 0 Hg H Hin Hok Hm Hfit Hn Hbs Hoff Hmax Hsrc Hs) with (w := w) (n := n)
    as (r & h1 & s1 & w1 & E1 & -> & -> & b1 & V1 & i1 & L1 & -> & H1 & Hr1 & Hw); [by rewrite Nat.add_0_r | done |].
  fold sb i in H1, Hw. destruct b1 as [l1 c1]. destruct (log_rep_txn _ _ _ _ _ _ _ _ _ H1) as (Htx & Hid & Hsp).
  pose proof (lr_log _ _ _ _ _ _ _ _ _ H1) as Hl1. cbn [lg] in Hl1. pose proof (lr_log _ _ _ _ _ _ _ _ _ H) as Hl. fold l in Hl.
  pose proof (lr_disk _ _ _ _ _ _ _ _ _ H1) as Hd1. cbn [bc] in Hd1. destruct (lh_flags _ _ _ _ _ Hl1) as [Ho Hc].
  assert (start l1 = start l ∧ Log.size l1 = Log.size l) as [Es Ez].
  { by rewrite (lh_start _ _ _ _ _ Hl1), (lh_start _ _ _ _ _ Hl), (lh_size _ _ _ _ _ Hl1), (lh_size _ _ _ _ _ Hl). }
  assert (∀ c, view c1 c = V1 c) as Hv1 by apply H1.
  destruct (end_op_last mypid l1 c1 [] w1 n Htx Hid) as (c2 & w2 & ws & E2 & _ & Hd2 & Hw2 & Hat); try done.
  { apply Hsp. by apply (room_bufs sb L1 0). }
  { apply bio_free_nil. }
  { apply not_elem_of_nil. }
  eexists _, _, ws, V1, i1. split.
  { erewrite bind_ok by exact E1. erewrite bind_ok; [reflexivity |]. apply lift_ok. exact E2. }
  rewrite Hd1 in *. split; [| split; [done |]; split; [done |]; split; [| split]].
  - unfold geti, seti. cbn. by rewrite zget_zset, Z.eqb_refl.
  - intros c Hout. cbn [blk lput blkL bc]. rewrite Hd2; [done |]. unfold outside in *. by rewrite Es, Ez.
  - intros c. by apply (rep_disk (blk s)).
  - apply (crash_atomic_log l1 l D ws (view c1) V1); [done | done | done |]. apply Hat. by rewrite (lh_start _ _ _ _ _ Hl1).
Qed.
End crash.
