(* ===== verification/FsBoot.v ===== *)
(** * Booting from a disk

    [binit], [fsinit] with the log's recovery, and the first [begin_op]: from
    power on to the state in which the file system's operations run. *)

From S2P Require Import Prelude Abi Monad Riscv Block Sleeplock Bio BioLru BioInv Log LogDisk LogCrash LogTxn Wp Store LogStore.
From S2P Require Import Fs FsAlloc FsTable.

(** The cache holds no buffer, and the contents of the blocks are [V]. *)
Record unused (c : bcache) (V : contents) : Prop := {
  un_idle : idle c;
  un_ref : ∀ i, 0 <= i < NBUF → refcnt (getb c i) = 0;
  un_view : ∀ x, view c x = V x }.

Lemma unused_spare c V k : unused c V → (k <= 30)%nat → spare c k.
Proof.
  intros H Hk. exists (seqZ 0 (Z.of_nat k)). split; [apply NoDup_seqZ |]. split; [by rewrite length_seqZ, Nat2Z.id |].
  intros i Hi%elem_of_seqZ. assert (0 <= i < NBUF) as Hr by (change NBUF with 30; lia). split; [done | by apply H].
Qed.

(** If as many buffers as there are are unused, all are. *)
Lemma spare_all c : spare c 30 → ∀ i, 0 <= i < NBUF → refcnt (getb c i) = 0.
Proof.
  intros (l & Hnd & Hl & Hin) i Hi. apply Hin. assert (l ⊆+ seqZ 0 NBUF) as Hsub.
  { apply NoDup_submseteq; [done |]. intros x Hx. apply elem_of_seqZ. destruct (Hin x Hx). lia. }
  apply submseteq_length_Permutation in Hsub; [| by rewrite Hl, length_seqZ]. rewrite Hsub. apply elem_of_seqZ. lia.
Qed.

Section boot.
Context {M : Type} `{HM : MemoryLaws M}.
Context (mypid : Z).
#[local] Instance boot_store : BlockStore lstate := log_store mypid.
Implicit Types (s : fstate lstate M) (V : contents) (c : bcache).

(** [main] *)
Lemma binit_f s d :
  (∀ b, is_block (dread d b)) → bc (blk s) = bcache0 d →
  runs [] (lift blkL (lift bcL binit)) s (λ _ s', ∃ c, s' = with_blk s (LState (lg (blk s)) c) ∧ unused c (dread d)).
Proof.
  intros Hd Hs. apply runs_lift, runs_lift. cbn [lget blkL bcL]. rewrite Hs. intros w n.
  destruct (boot_ok d [] w n Hd) as (c & E & Hid & _ & _ & _ & Hv & H0). exists tt, [], c, w. split; [done |]. split; [done |].
  exists c. split; [done |]. by constructor.
Qed.

Lemma readsb_f s V :
  unused (bc (blk s)) V →
  runs [] (readsb ROOTDEV) s (λ _ s', ∃ c, s' = FState (super_of (V 1)) (itable s) (LState (lg (blk s)) c) (kmem s) ∧ unused c V).
Proof.
  intros H w n. destruct s as [sb it [l c] m]. cbn [blk bc lg itable kmem] in *.
  destruct (read_turn mypid c 1 [] w n (un_idle _ _ H) (unused_spare c V 1 H ltac:(lia)) bio_free_nil) as (i & c1 & c2 & w2 & E1 & E2 & E3 & Hst & _ & V2).
  exists tt, [], (FState (super_of (V 1)) it (LState l c2) m), w2. split.
  - unfold readsb. kstep (lift_ok blkL _ (FState sb it (LState l c) m) _ _ _ _ (lift_bc _ l _ _ _ _ _ E1)).
    kstep (lift_ok blkL _ (FState sb it (LState l c1) m) _ _ _ _ (lift_bc _ l _ _ _ _ _ E2)). kstep. rewrite (un_view _ _ H). cbn [itable blk kmem].
    exact (lift_ok blkL _ (FState (super_of (V 1)) it (LState l c1) m) _ _ _ _ (lift_bc _ l _ _ _ _ _ E3)).
  - split; [done |]. exists c2. split; [done |]. constructor.
    + apply Hst.
    + apply spare_all. eapply spare_stepped; [done |]. by apply (unused_spare c V).
    + intros x. rewrite V2. apply H.
Qed.

(** The contents after recovery: the blocks in the log are where they belong,
    and the log is empty. *)
Definition recovered (L : Z) (V : contents) : contents :=
  overlay V (recover_writes L V ++ [(L, put32 (overlay V (recover_writes L V) L) 0 0)]).

(** The log can be recovered: it has not more blocks than the header has room for,
    and they are not in the log. *)
Definition log_valid (L : Z) (V : contents) : Prop :=
  0 <= hdr_n (V L) <= LOGSIZE ∧ ∀ t, 0 <= t < hdr_n (V L) → ¬ (L <= hdr_block (V L) t <= L + hdr_n (V L)).

Lemma recover_writes_ext L V V' : (∀ x, V x = V' x) → recover_writes L V = recover_writes L V'.
Proof. intros E. unfold recover_writes. rewrite E. apply map_ext. intros t. by rewrite E. Qed.

Lemma recovered_ext L V V' x : (∀ y, V y = V' y) → recovered L V x = recovered L V' x.
Proof.
  intros E. unfold recovered. rewrite (recover_writes_ext L V V' E), (overlay_ext V V' (recover_writes L V') L) by done. by apply overlay_ext.
Qed.

Lemma initlog_f l c V L sz :
  unused c V → length (lh_block l) = 30%nat → log_valid L V →
  runs [] (initlog mypid ROOTDEV L sz) (LState l c) (λ _ b, ∃ bl c',
    b = LState (Log L sz (outstanding l) (committing l) ROOTDEV 0 bl) c' ∧ length bl = 30%nat ∧ unused c' (recovered L V)).
Proof.
  intros H Hl [Hn Hsep] w n. unfold initlog. destruct (Z.leb_spec BSIZE (4 + 4 * LOGSIZE)) as [Hbad | _]; [done |].
  set (l1 := Log L sz (outstanding l) (committing l) ROOTDEV (lh_n l) (lh_block l)).
  destruct (recover_ok mypid l1 c [] w n) as (bl & c' & w' & E & Hbl & A & _); try done.
  - apply H.
  - apply (unused_spare c V); [done | lia].
  - apply (unused_spare c V); [done | lia].
  - apply bio_free_nil.
  - by rewrite (un_view _ _ H).
  - rewrite (un_view _ _ H). exact Hsep.
  - exists tt, [], (LState (set_lh_block bl (set_lh_n 0 l1)) c'), w'. split; [unfold updl; kstep; exact E |]. split; [done |].
    exists bl, c'. split; [done |]. split; [done |]. cbn [start l1] in A. constructor.
    + apply A.
    + apply spare_all, A. by apply (unused_spare c V).
    + intros x. rewrite (af_view _ _ _ A). apply recovered_ext, H.
Qed.

(** [forkret]'s [fsinit] *)
Lemma fsinit_f s V :
  let sb := super_of (V 1) in
  unused (bc (blk s)) V → length (lh_block (lg (blk s))) = 30%nat → sb_magic sb = FSMAGIC → log_valid (sb_logstart sb) V →
  runs [] (fsinit ROOTDEV) s (λ _ s', ∃ bl c,
    s' = FState sb (itable s) (LState (Log (sb_logstart sb) (sb_nlog sb) (outstanding (lg (blk s))) (committing (lg (blk s))) ROOTDEV 0 bl) c) (kmem s) ∧
    length bl = 30%nat ∧ unused c (recovered (sb_logstart sb) V)).
Proof.
  intros sb H Hl Hm Hv. unfold fsinit. eapply runs_bind; [by apply readsb_f |]. cbv beta. intros _ s1 (c1 & -> & H1). fold sb.
  rstep. cbn [fsb]. rewrite Hm, Z.eqb_refl. cbn [negb]. apply runs_lift. cbn [lget blkL blk].
  eapply runs_conseq; [by apply (initlog_f (lg (blk s)) c1 V) |]. cbv beta. intros _ b (bl & c & -> & Hbl & Hc). exists bl, c. done.
Qed.

(** An operation begins, with an empty log. *)
Lemma begin_f l c V :
  unused c V → lh_n l = 0 → outstanding l = 0 → committing l = false → ldev l = ROOTDEV → length (lh_block l) = 30%nat → 1 < Log.size l →
  runs [] begin_op (LState l c) (λ _ b, @bs_rep _ _ (log_store_laws mypid (start l) (Log.size l) (dsk c) 1) b V ∅ ∅).
Proof.
  intros H H0 Ho Hc Hdev Hl Hsz w n. exists tt, [], (LState (set_outstanding 1 l) c), w.
  split; [rewrite begin_op_ok; [by rewrite Ho | apply not_elem_of_nil | done | by rewrite H0, Ho] |]. split; [done |].
  apply (bs_rep_ext _ (view c)); [apply H |]. set (l1 := set_outstanding 1 l). assert (∀ t, 0 <= t < lh_n l1 → False) as Hno by (cbn; lia).
  pose proof (txn_log_rep mypid (start l) (Log.size l) (dsk c) 1 l1 c) as Hrep. cbn [l1 lh_n set_outstanding] in Hrep. rewrite H0 in Hrep.
  apply Hrep; try done. constructor; [constructor | apply H | done | cbn; lia | cbn; rewrite H0; split; [done | lia]].
  - done.
  - cbn. rewrite H0. split; [done | lia].
  - intros t Ht. by destruct (Hno t Ht).
  - cbn. rewrite H0. constructor.
  - intros t Ht. by destruct (Hno t Ht).
  - intros i Hi Hr. by rewrite (un_ref _ _ H) in Hr.
Qed.
End boot.
