(* ===== verification/FsDemo.v ===== *)
(** * A small file system image

    The image the examples below run on: mkfs's layout for 1000 blocks, a root
    directory with an entry for itself and one for an empty file [a], and a
    machine that has booted from it and begun an operation. *)

From S2P Require Import Prelude Abi Monad Riscv Mem Block Sleeplock Kalloc Proc Bio BioInv Log LogDisk LogCrash LogTxn.
From S2P Require Import Wp Store LogStore ProcMem Fs FsAlloc FsFile FsRw FsInode FsIo FsTrunc FsTable FsDir FsPath FsProps FsCrash.

Definition demo_sb : superblock := Superblock FSMAGIC 1000 954 200 30 2 32 45.

Definition demo_root : inode := Inode ROOTDEV 1 1 initsleeplock true T_DIR 0 0 1 32 (46 :: replicate 12 0).
Definition demo_file : inode := Inode ROOTDEV 2 1 initsleeplock true T_FILE 0 0 1 0 (replicate 13 0).

Definition name_a : list Z := [97].

Definition demo_disk : disk := Disk
  {[ 32 := write_dinode (write_dinode zero_block (dip 1) demo_root) (dip 2) demo_file;
     45 := replicate 5 255 ++ [127] ++ replicate 1018 0;
     46 := dirent [46] 1 ++ dirent name_a 2 ++ replicate 992 0 ]} [].

Abbreviation demo_view := (dread demo_disk).

Definition demo_table : list inode := demo_root :: demo_file :: replicate 48 inode0.

(** The message [hi] is in kernel memory at 4096. *)
Definition message : list Z := [104; 105].

Definition demo_mem : procs := procs0 (PMem (write_bytes ∅ 4096 message) 0).

Definition demo_laws : @BlockStoreLaws lstate (log_store 4) := log_store_laws 4 2 30 demo_disk 1.

#[export] Existing Instance demo_laws.
#[export] Instance demo_store : BlockStore lstate := log_store 4.
#[export] Instance demo_memory : Memory procs := proc_memory 0.
#[export] Instance demo_memory_laws : MemoryLaws procs := proc_memory_laws 0.

Definition demo_fs (b : lstate) : fstate lstate procs := FState demo_sb demo_table b demo_mem.

Definition is_blockb (l : block) : bool :=
  (length l =? Z.to_nat BSIZE)%nat && forallb (λ b, (0 <=? b) && (b <? 256)) l.

Lemma is_blockb_ok l : is_blockb l = true → is_block l.
Proof.
  unfold is_blockb. rewrite andb_true_iff, Nat.eqb_eq, forallb_forall. intros [H1 H2]. split; [done |].
  apply Forall_forall. intros x Hx. apply list_elem_of_In in Hx. specialize (H2 x Hx). rewrite andb_true_iff, Z.leb_le, Z.ltb_lt in H2. lia.
Qed.

Lemma demo_block b : is_block (demo_view b).
Proof.
  unfold dread. destruct (blocks demo_disk !! b) as [v |] eqn:E; [| apply is_block_zero]. cbn [default from_option id].
  apply is_blockb_ok. unfold demo_disk in E. cbn [blocks] in E.
  apply lookup_insert_Some in E as [[_ <-] | [_ E]]; [vm_compute; reflexivity |].
  apply lookup_insert_Some in E as [[_ <-] | [_ E]]; [vm_compute; reflexivity |].
  apply lookup_singleton_Some in E as [_ <-]. vm_compute. reflexivity.
Qed.

(** The machine has booted and begun an operation. *)
Lemma demo_booted : ∃ b, bs_rep b demo_view ∅ ∅.
Proof.
  destruct (boot_ok demo_disk [] [] 0 demo_block) as (s & E & Hid & H1 & H2 & Hd & Hv & H0). clear E.
  exists (LState demo_log s). apply (bs_rep_ext _ (view s)); [done |].
  assert (∀ t, 0 <= t < lh_n demo_log → False) as Hno by (cbn; lia).
  apply (txn_log_rep 4 2 30 demo_disk 1 demo_log s); try done.
  constructor; [constructor | done | done | cbn; lia | split; vm_compute; reflexivity].
  - done.
  - split; [split |]; vm_compute; done || discriminate.
  - intros t Ht. by destruct (Hno t Ht).
  - vm_compute. constructor.
  - intros t Ht. by destruct (Hno t Ht).
  - intros i Hi Hr. by rewrite H0 in Hr.
Qed.

Lemma demo_geom : geom demo_sb.
Proof.
  constructor; try done.
  - intros n Hn. unfold IBLOCK. assert (IPB = 16) as -> by done. cbn in *. dlia.
  - intros b Hb. unfold BBLOCK. assert (BPB = 8192) as -> by done. cbn in *. dlia.
  - intros b Hb. unfold bs_home, demo_laws, log_store_laws, log_home. cbn in *. lia.
Qed.

Lemma demo_meta : meta_used demo_sb demo_view.
Proof.
  assert (forallb (used demo_sb demo_view) (seqZ 0 46) = true) as E by (vm_compute; reflexivity).
  rewrite forallb_forall in E. intros b Hb Hd. apply E, list_elem_of_In, elem_of_seqZ. unfold is_data in Hd. cbn in *. lia.
Qed.

Lemma demo_room n k : (n + k <= 15)%nat → room_for demo_sb ∅ ∅ n k.
Proof.
  intros H. unfold room_for. rewrite map_size_empty. replace (base.size (∅ ∪ bitmap demo_sb)) with 1%nat by (vm_compute; reflexivity).
  change (@bs_room lstate _ demo_laws) with 29%nat. change (@bs_bufs lstate _ demo_laws) with 30%nat. lia.
Qed.

Lemma demo_nfree : (2 <= nfree demo_sb demo_view)%nat.
Proof. apply Nat.leb_le. vm_compute. reflexivity. Qed.

Lemma demo_file_ok : file_ok demo_sb demo_view demo_file.
Proof. apply (file_ok_emptied demo_sb demo_view demo_file). done. Qed.

Lemma demo_fits i : i = demo_root ∨ i = demo_file → inode_fits i.
Proof.
  intros [-> | ->]; constructor; try done; intros k; unfold addr, zget; destruct (k <? 0); try done;
    destruct (addrs _ !! _) as [x |] eqn:E; try done; apply list_elem_of_lookup_2 in E; cbn in E;
    repeat (apply elem_of_cons in E as [-> | E]; [done |]); by apply elem_of_nil in E.
Qed.

Lemma demo_at_message : at_de 4096 message demo_mem.
Proof. intros [| [| k]] x; [by intros [= <-] | by intros [= <-] | done]. Qed.

Lemma demo_in (b : lstate) k : 0 <= k < 50 → in_table (demo_fs b) k.
Proof. intros H. unfold in_table, demo_fs. cbn [itable]. change (Z.of_nat (length demo_table)) with 50. lia. Qed.

Lemma demo_slot_root k : in_slots k → slot demo_view demo_root k ≠ 0 → k = 0 ∧ slot demo_view demo_root k = 46.
Proof.
  intros Hk. unfold in_slots in Hk. unfold slot, faddr. change MAXFILE with 268 in *. change NDIRECT with 12.
  destruct (Z.eqb_spec k 268); [done |]. destruct (Z.ltb_spec k 12); [| done].
  destruct (Z.eq_dec k 0) as [-> | Hne]; [done |].
  unfold addr, zget. destruct (k <? 0); [done |]. replace (Z.to_nat k) with (S (Z.to_nat (k - 1))) by lia. cbn [demo_root addrs lookup list_lookup].
  destruct (replicate 12 0 !! Z.to_nat (k - 1)) eqn:E; [| done]. apply lookup_replicate in E as [-> _]. done.
Qed.

Lemma demo_root_ok : file_ok demo_sb demo_view demo_root.
Proof.
  constructor; try done.
  - intros k Hk Hne. destruct (demo_slot_root k Hk Hne) as [_ ->]. split; [done | vm_compute; reflexivity].
  - intros k k' Hk Hk' Hne E. destruct (demo_slot_root k Hk Hne) as [-> _]. rewrite E in Hne.
    by destruct (demo_slot_root k' Hk' Hne) as [-> _].
  - intros k H0 Hk. assert (k = 0) as -> by (change BSIZE with 1024 in Hk; cbn in Hk; lia). done.
Qed.

(** *** Witnesses *)

(** A free block is found. *)
Lemma balloc_fresh_witness :
  ∃ b, runs [] (balloc ROOTDEV) (demo_fs b) (λ a _, is_data demo_sb a ∧ used demo_sb demo_view a = false).
Proof.
  destruct demo_booted as [b Hb]. exists b. eapply runs_conseq; [apply (balloc_fresh (demo_fs b) demo_view ∅ ∅) |].
  - apply demo_geom.
  - apply Hb.
  - apply opens_used_empty.
  - apply demo_meta.
  - apply demo_room. lia.
  - exists 47. split; [done | vm_compute; reflexivity].
  - intros a s' (_ & _ & _ & _ & _ & H1 & H2 & _). done.
Defined.

(** [hi] is written to the empty file. *)
Lemma writei_splices_witness :
  ∃ b, runs [] (writei 1 false 4096 0 2) (demo_fs b) (λ r _, r = 2).
Proof.
  destruct demo_booted as [b Hb]. exists b.
  eapply runs_conseq; [apply (writei_splices (demo_fs b) demo_view ∅ 1 false 4096 0 message 0) |].
  - apply demo_geom.
  - apply Hb.
  - by apply demo_in.
  - apply demo_file_ok.
  - apply demo_meta.
  - apply demo_fits. by right.
  - done.
  - by repeat constructor.
  - done.
  - done.
  - done.
  - apply (source_de 4096 ltac:(done) message demo_mem); [done | apply demo_at_message].
  - apply demo_room. vm_compute. lia.
  - apply demo_nfree.
  - intros r s' [-> _]. done.
Defined.

(** ... and survives a crash, or has not happened. *)
Lemma writei_crash_atomic_witness :
  ∃ b s' w' ws V' i',
    (r <- writei 1 false 4096 0 2 ;; lift blkL (end_op 4) ;; ret r) (demo_fs b) (Ctx [] [] 0) = Ok 2 s' (Ctx [] w' 0) ∧
    file_written demo_sb demo_view demo_file V' i' 0 message ∧ crash_atomic 4 demo_log demo_disk ws V' [] 0.
Proof.
  destruct demo_booted as [b Hb]. exists b.
  destruct (writei_crash_atomic 4 2 30 demo_disk (demo_fs b) demo_view 1 false 4096 0 message [] 0)
    as (s' & w' & ws & V' & i' & E & _ & Hw & _ & _ & _ & Hc).
  - apply demo_geom.
  - apply Hb.
  - vm_compute. reflexivity.
  - by apply demo_in.
  - apply demo_file_ok.
  - apply demo_meta.
  - apply demo_fits. by right.
  - done.
  - by repeat constructor.
  - done.
  - done.
  - done.
  - apply (source_de 4096 ltac:(done) message demo_mem); [done | apply demo_at_message].
  - apply demo_room. vm_compute. lia.
  - apply demo_nfree.
  - exists s', w', ws, V', i'. split; [exact E |]. split; [exact Hw |].
    apply (crash_atomic_log 4 (lg b) demo_log demo_disk ws V' V'); [| | done | exact Hc].
    + symmetry. apply (lh_start _ _ _ _ _ (lr_log _ _ _ _ _ _ _ _ _ Hb)).
    + symmetry. apply (lh_size _ _ _ _ _ (lr_log _ _ _ _ _ _ _ _ _ Hb)).
Defined.

(** The first entry of the root directory is read to kernel memory. *)
Lemma readi_reads_witness :
  ∃ b, runs [] (readi 0 false 8192 0 16) (demo_fs b) (λ r s', r = 16 ∧ at_de 8192 (dirent [46] 1) (kmem s')).
Proof.
  destruct demo_booted as [b Hb]. exists b.
  eapply runs_conseq; [apply (readi_reads (demo_fs b) demo_view ∅ 0 false 8192 (at_de 8192) 0 16) |].
  - apply Hb.
  - rewrite size_empty. vm_compute. lia.
  - apply demo_root_ok.
  - done.
  - done.
  - done.
  - done.
  - apply (sink_de 8192). done.
  - done.
  - intros r s' (-> & b' & m' & -> & _ & HJ). split; [done |]. cbn [kmem with_mem].
    replace (dirent [46] 1) with (take 16 (drop 0 (fcontent demo_view demo_root))); [done | vm_compute; reflexivity].
Defined.

(** An entry for inode 7. *)
Lemma demo_itable b : itable_ok (demo_fs b).
Proof.
  assert (∀ k, in_table (demo_fs b) k → k = 0 ∨ k = 1 ∨ geti (demo_fs b) k = inode0) as Hc.
  { intros k Hk. destruct (Z.eq_dec k 0), (Z.eq_dec k 1); [tauto | tauto | tauto |]. right. right.
    unfold in_table in Hk. unfold geti, zget. destruct (Z.ltb_spec k 0); [done |].
    replace (Z.to_nat k) with (S (S (Z.to_nat (k - 2)))) by lia. cbn [demo_fs demo_table itable lookup list_lookup].
    destruct (replicate 48 inode0 !! Z.to_nat (k - 2)) eqn:E; [| done]. by apply lookup_replicate in E as [-> _]. }
  constructor.
  - intros k Hk. destruct (Hc k Hk) as [-> | [-> | ->]]; done.
  - intros k k' Hk Hk' H1 H2 _. destruct (Hc k Hk) as [-> | [-> | E]]; [| | by rewrite E in H1];
      destruct (Hc k' Hk') as [-> | [-> | E']]; try done; by rewrite E' in H2.
Qed.

Lemma iget_unique_witness :
  ∃ b, runs [] (iget ROOTDEV 7) (demo_fs b) (λ ip s', inum (geti s' ip) = 7 ∧ itable_ok s').
Proof.
  destruct demo_booted as [b Hb]. exists b. eapply runs_conseq; [apply (iget_unique (demo_fs b) ROOTDEV 7) |].
  - apply demo_itable.
  - intros k Hk. unfold geti. destruct (zget _ k) as [x |] eqn:E; [| done]. cbn [default from_option id].
    unfold zget in E. destruct (k <? 0); [done |]. apply list_elem_of_lookup_2 in E. cbn in E.
    repeat (apply elem_of_cons in E as [-> | E]; [done |]). by apply elem_of_nil in E.
  - left. exists 2. split; [by apply demo_in | done].
  - intros ip s' (i' & -> & Hg & Hok). split; [| done]. rewrite geti_seti, Z.eqb_refl by apply Hg. apply Hg.
Defined.

(** The root directory gets an entry for inode 3. *)
Lemma dirlink_adds_witness :
  ∃ b, runs [] (dirlink 4 8192 0 [98] 3) (demo_fs b) (λ r s', r = 0 ∧ looks_up 8192 s' 0 [98] (Some (32, 3))) ∧
    looks_up 8192 (demo_fs b) 0 [98] None.
Proof.
  destruct demo_booted as [b Hb]. exists b.
  destruct (dirlink_adds 4 8192 (demo_fs b) demo_view ∅ 0 [98] 3 0) as [Hold Hnew].
  - done.
  - apply demo_geom.
  - apply Hb.
  - by apply demo_in.
  - apply demo_root_ok.
  - apply demo_meta.
  - apply demo_fits. by left.
  - done.
  - done.
  - by exists 2.
  - apply demo_itable.
  - done.
  - exists 5. split; [by apply demo_in | done].
  - by repeat constructor.
  - done.
  - done.
  - vm_compute. reflexivity.
  - vm_compute. discriminate.
  - apply demo_room. lia.
  - apply demo_nfree.
  - split; [| apply (Hold [98]); split; [by repeat constructor | done]].
    eapply runs_conseq; [exact Hnew |].
    intros r s' (-> & b' & m' & V' & i' & L' & _ & _ & _ & _ & Hl). split; [done |].
    assert (dir_free (fcontent demo_view (geti (demo_fs b) 0)) = 32) as E by (vm_compute; reflexivity).
    rewrite <-E. apply (Hl [98]). split; [by repeat constructor | done].
Defined.

(** The file without links, at index 1. *)
Definition demo_gone : inode := Inode ROOTDEV 2 1 initsleeplock true T_FILE 0 0 0 0 (replicate 13 0).

Definition demo_fs_gone (b : lstate) : fstate lstate procs := seti 1 demo_gone (demo_fs b).

Lemma demo_gone_fits : inode_fits demo_gone.
Proof. destruct (demo_fits demo_file) as [? ? ? ? ? ? ?]; [by right |]. by constructor. Qed.

Lemma demo_itable_gone b : itable_ok (demo_fs_gone b).
Proof.
  destruct (demo_itable b) as [H1 H2].
  assert (∀ k, iref (geti (demo_fs_gone b) k) = iref (geti (demo_fs b) k) ∧
    idev (geti (demo_fs_gone b) k) = idev (geti (demo_fs b) k) ∧ inum (geti (demo_fs_gone b) k) = inum (geti (demo_fs b) k)) as E.
  { intros k. unfold demo_fs_gone. rewrite geti_seti by (by apply demo_in). destruct (Z.eqb_spec 1 k) as [<- |]; done. }
  constructor.
  - intros k Hk. destruct (E k) as (-> & _). by apply H1.
  - intros k k' Hk Hk'. destruct (E k) as (-> & -> & ->), (E k') as (-> & -> & ->). by apply H2.
Qed.

Lemma iput_frees_witness :
  ∃ b, runs [] (iput 4 1) (demo_fs_gone b) (λ _ s', iref (geti s' 1) = 0).
Proof.
  destruct demo_booted as [b Hb]. exists b.
  eapply runs_conseq; [apply (iput_frees 4 (demo_fs_gone b) demo_view ∅ 1 0) |].
  - apply demo_itable_gone.
  - apply demo_geom.
  - apply Hb.
  - done.
  - apply (file_ok_emptied demo_sb demo_view demo_gone). done.
  - apply demo_meta.
  - apply demo_gone_fits.
  - done.
  - apply demo_room. lia.
  - done.
  - done.
  - intros ? s' (b' & V' & L' & _ & -> & _). by rewrite geti_seti.
Defined.

(** The tree of the image. *)
Definition demo_nodes (n : Z) : Prop := n = 1 ∨ n = 2.

Lemma demo_dnode n : demo_nodes n →
  on_disk (dnode demo_sb demo_view n) = on_disk (if n =? 1 then demo_root else demo_file).
Proof. intros [-> | ->]; vm_compute; reflexivity. Qed.

Lemma demo_root_dnode : dnode demo_sb demo_view 1 = set_ref 0 demo_root.
Proof. vm_compute. reflexivity. Qed.

Lemma demo_tree : tree_ok demo_sb demo_view demo_nodes.
Proof.
  constructor.
  - intros n [-> | ->]; done.
  - intros n [-> | ->]; vm_compute; discriminate.
  - intros n [-> | ->]; vm_compute; discriminate.
  - intros n [-> | ->] Ht; [| by vm_compute in Ht]. apply (dir_ok_on_disk demo_view demo_root); [by rewrite demo_dnode by (by left) | done |].
    apply (file_ok_dir demo_sb); [apply demo_root_ok | by exists 2].
  - intros n name off n' [-> | ->] Ht; [| by vm_compute in Ht]. rewrite demo_root_dnode.
    replace (fcontent demo_view (set_ref 0 demo_root)) with (dirent [46] 1 ++ dirent name_a 2) by (vm_compute; reflexivity).
    unfold dir_lookup. change (nents _) with 2%nat. cbn [find_name]. destruct (ent_is _ name).
    + intros [= _ <-]. left. vm_compute. reflexivity.
    + destruct (ent_is _ name); [| done]. intros [= _ <-]. right. vm_compute. reflexivity.
Qed.

Lemma demo_entries b k : in_table (demo_fs b) k → geti (demo_fs b) k = demo_root ∨ geti (demo_fs b) k = demo_file ∨ geti (demo_fs b) k = inode0.
Proof.
  intros Hk. pose proof (geti_in _ _ Hk) as E. cbn in E.
  repeat (apply elem_of_cons in E as [-> | E]; [tauto |]). by apply elem_of_nil in E.
Qed.

(** The path [/a] is inode 2. *)
Lemma namei_walks_witness :
  ∃ b, runs [] (namei 4 8192 0 (SLASH :: name_a)) (demo_fs b) (λ r s', ∃ ip, r = Some ip ∧ inum (geti s' ip) = 2).
Proof.
  destruct demo_booted as [b Hb]. exists b.
  eapply runs_conseq; [apply (namei_walks 4 8192 (demo_fs b) demo_view ∅ demo_nodes 0 (SLASH :: name_a)) |].
  - done.
  - apply Hb.
  - rewrite size_empty. vm_compute. lia.
  - apply demo_tree.
  - constructor; [apply demo_itable |]. intros k Hk. destruct (demo_entries b k Hk) as [-> | [-> | ->]]; [| | done].
    + intros _. constructor; [done | by left |]. intros _. symmetry. apply demo_dnode. by left.
    + intros _. constructor; [done | by right |]. intros _. symmetry. apply demo_dnode. by right.
  - intros k Hk. by destruct (demo_entries b k Hk) as [-> | [-> | ->]].
  - by left.
  - by apply demo_in.
  - done.
  - vm_compute. reflexivity.
  - vm_compute. discriminate.
  - by repeat constructor.
  - intros r s' (_ & _ & H). replace (walk _ _ _ _) with (Some 2) in H by (vm_compute; reflexivity).
    destruct H as (ip & -> & _ & Hn & _). by exists ip.
Defined.
