(* ===== verification/Mkfs.v ===== *)
(** * Making the disk image (mkfs/mkfs.c)

    The image is a map from sectors to blocks.  [die] and a failed [assert] end
    the program: they are [panic].  The machine mkfs runs on is little-endian,
    so that a field of a structure in memory is the field on disk. *)

From S2P Require Import Prelude Abi Monad Riscv Block Sleeplock Fs.

Record mkst := MkSt {
  image : gmap Z block;
  freeinode : Z;
  freeblock : Z }.

Definition NINODES : Z := 200.

Definition nbitmap : Z := FSSIZE / (BSIZE * 8) + 1.
Definition ninodeblocks : Z := NINODES / IPB + 1.
Definition nlog : Z := LOGSIZE.
Definition nmeta : Z := 2 + nlog + ninodeblocks + nbitmap.
Definition nblocks : Z := FSSIZE - nmeta.

(** convert to intel byte order: the bytes from the low one on, read back *)
Definition xshort (x : Z) : Z := little_endian_to_Z 8 (Z_to_little_endian 2 8 x).
Definition xint (x : Z) : Z := little_endian_to_Z 8 (Z_to_little_endian 4 8 x).

Definition mk_sb : superblock :=
  Superblock FSMAGIC (xint FSSIZE) (xint nblocks) (xint NINODES) (xint nlog) (xint 2) (xint (2 + nlog))
    (xint (2 + nlog + ninodeblocks)).

(** ** Sectors *)

(** [sec * BSIZE] is a [uint]. *)
Definition sector (sec : Z) : Z := u32 (sec * BSIZE) / BSIZE.

Definition wsect (sec : Z) (buf : block) : K mkst unit :=
  modify (λ s, MkSt (<[sector sec := buf]> (image s)) (freeinode s) (freeblock s)).

(** A read past the end of the image is short. *)
Definition rsect (sec : Z) : K mkst block :=
  b <- gets (λ s, image s !! sector sec) ;;
  match b with
  | Some b => ret b
  | None => panic "read"
  end.

(** ** Inodes *)

(** Inode [inum], zeroed.  Besides its number only the fields of [struct dinode]
    matter. *)
Definition dinode0 (inum : Z) : inode := Inode ROOTDEV inum 0 initsleeplock true 0 0 0 0 0 (replicate 13 0).

Definition winode (inum : Z) (ip : inode) : K mkst unit :=
  let bn := IBLOCK inum mk_sb in
  buf <- rsect bn ;;
  wsect bn (write_dinode buf (dip inum) ip).

Definition rinode (inum : Z) : K mkst inode :=
  let bn := IBLOCK inum mk_sb in
  buf <- rsect bn ;;
  ret (read_dinode buf (dip inum) (dinode0 inum)).

Definition ialloc (type : Z) : K mkst Z :=
  inum <- gets freeinode ;;
  modify (λ s, MkSt (image s) (u32 (freeinode s + 1)) (freeblock s)) ;;
  let din := set_isize (xint 0) (set_nlink (xshort 1) (set_itype (xshort type) (dinode0 inum))) in
  winode inum din ;;
  ret inum.

(** [xint(freeblock++)] *)
Definition take_freeblock : K mkst Z :=
  b <- gets freeblock ;;
  modify (λ s, MkSt (image s) (freeinode s) (u32 (freeblock s + 1))) ;;
  ret (xint b).

(** ** Blocks *)

(** [for(i = 0; i < used; i++) buf[i/8] = buf[i/8] | (0x1 << (i%8))] *)
Definition used_bits (used : Z) : block := foldl set_bit zero_block (seqZ 0 used).

Definition balloc (used : Z) : K mkst unit :=
  if negb (used <? BSIZE * 8) then panic "assert"
  else wsect (sb_bmapstart mk_sb) (used_bits used).

(** The block of [iappend]'s turn: the inode, with the block in it, and its
    address. *)
Definition iappend_block (din : inode) (fbn : Z) : K mkst (inode * Z) :=
  if fbn <? NDIRECT then
    din <- (if xint (addr din fbn) =? 0 then
              a <- take_freeblock ;;
              ret (set_addr fbn a din)
            else ret din) ;;
    ret (din, xint (addr din fbn))
  else
    din <- (if xint (addr din NDIRECT) =? 0 then
              a <- take_freeblock ;;
              ret (set_addr NDIRECT a din)
            else ret din) ;;
    indirect <- rsect (xint (addr din NDIRECT)) ;;
    indirect <- (if get32 indirect (4 * (fbn - NDIRECT)) =? 0 then
                   a <- take_freeblock ;;
                   let indirect := put32 indirect (4 * (fbn - NDIRECT)) a in
                   wsect (xint (addr din NDIRECT)) indirect ;;
                   ret indirect
                 else ret indirect) ;;
    ret (din, xint (get32 indirect (4 * (fbn - NDIRECT)))).

(** [while(n > 0)]: [p] is what is left to append, at [off]. *)
Fixpoint iappend_loop (fuel : nat) (din : inode) (off : Z) (p : list Z) : K mkst (inode * Z) :=
  match p with
  | [] => ret (din, off)
  | _ =>
      match fuel with
      | O => λ _ _, NoFuel
      | S fuel =>
          let fbn := off / BSIZE in
          if negb (fbn <? MAXFILE) then panic "assert"
          else
            r <- iappend_block din fbn ;;
            let '(din, x) := r in
            let n1 := Z.min (Z.of_nat (length p)) ((fbn + 1) * BSIZE - off) in
            buf <- rsect x ;;
            wsect x (splice buf (Z.to_nat (off - fbn * BSIZE)) (take (Z.to_nat n1) p)) ;;
            iappend_loop fuel din (u32 (off + n1)) (drop (Z.to_nat n1) p)
      end
  end.

(** Each turn appends at least a byte. *)
Definition iappend (inum : Z) (p : list Z) : K mkst unit :=
  din <- rinode inum ;;
  let off := xint (isize din) in
  r <- iappend_loop (length p) din off p ;;
  let '(din, off) := r in
  winode inum (set_isize (xint off) din).

(** ** main *)

(** A [struct dirent]: [strncpy(de.name, name, DIRSIZ)] after [bzero] *)
Definition mk_dirent (inum : Z) (name : list Z) : list Z :=
  Z_to_little_endian 2 8 (xshort inum) ++ dirent_name name.

Definition UNDERSCORE : Z := 95.

Definition NAME_DOT : list Z := [46].
Definition NAME_DOTDOT : list Z := [46; 46].

Definition user_prefix : list Z := [117; 115; 101; 114; 47]. (* user/ *)

(** get rid of "user/" *)
Definition strip_user (a : list Z) : list Z := if bool_decide (take 5 a = user_prefix) then drop 5 a else a.

(** Skip leading _ in name when writing to file system. *)
Definition strip_underscore (a : list Z) : list Z :=
  match a with c :: a' => if c =? UNDERSCORE then a' else a | [] => [] end.

(** A file to add: its name, and what reading it gives, a piece at a time, if it
    can be opened. *)
Definition add_file (rootino : Z) (f : list Z * option (list (list Z))) : K mkst unit :=
  let shortname := strip_user f.1 in
  if bool_decide (SLASH ∈ shortname) then panic "assert"
  else
    match f.2 with
    | None => panic "open"
    | Some chunks =>
        let shortname := strip_underscore shortname in
        inum <- ialloc T_FILE ;;
        iappend rootino (mk_dirent inum shortname) ;;
        for_each chunks (iappend inum)
    end.

(** [memmove(buf, &sb, sizeof(sb))] *)
Definition sb_block : block :=
  let sb := mk_sb in
  put32s zero_block 0 8 (λ k, default 0 (zget
    [sb_magic sb; sb_size sb; sb_nblocks sb; sb_ninodes sb; sb_nlog sb; sb_logstart sb; sb_inodestart sb; sb_bmapstart sb] k)).

(** fix size of root inode dir *)
Definition fix_root (rootino : Z) : K mkst unit :=
  din <- rinode rootino ;;
  let off := xint (isize din) in
  let off := u32 ((off / BSIZE + 1) * BSIZE) in
  winode rootino (set_isize (xint off) din).

(** From the image file, just opened, on; [files] are the arguments that
    follow it. *)
Definition mkfs_main (files : list (list Z * option (list (list Z)))) : K mkst unit :=
  if negb (BSIZE mod DINODE =? 0) || negb (BSIZE mod DIRENT =? 0) then panic "assert"
  else
    modify (λ s, MkSt (image s) (freeinode s) nmeta) ;; (* the first free block that we can allocate *)
    for_each (seqZ 0 FSSIZE) (λ i, wsect i zero_block) ;;
    wsect 1 sb_block ;;
    rootino <- ialloc T_DIR ;;
    (if negb (rootino =? ROOTINO) then panic "assert" else ret tt) ;;
    iappend rootino (mk_dirent rootino NAME_DOT) ;;
    iappend rootino (mk_dirent rootino NAME_DOTDOT) ;;
    for_each files (add_file rootino) ;;
    fix_root rootino ;;
    b <- gets freeblock ;;
    balloc b.

(** The state at the start of the program. *)
Definition mkst0 : mkst := MkSt ∅ 1 0.
