(* ===== verification/MkfsSpec.v ===== *)
(** * The image mkfs makes is one the kernel can use

    The image is compared with contents [W] of the disk in which the bitmap
    already says what mkfs will write into it at the end: so the files grow as
    the kernel's own files do, and the lemmas about those apply. *)

From S2P Require Import Prelude Abi Monad Riscv Mem Block Sleeplock Wp Store Fs FsAlloc FsFile FsRw FsInode FsIo FsDir FsPath FsDemo Mkfs.

(** ** The layout *)

Lemma mk_sb_eq : mk_sb = demo_sb.
Proof. vm_compute. reflexivity. Qed.

Lemma mk_geom : geom mk_sb.
Proof. rewrite mk_sb_eq. apply demo_geom. Qed.

Lemma xint_small x : 0 <= x < 2 ^ 32 → xint x = x.
Proof. intros H. unfold xint. rewrite little_endian_to_Z_to_little_endian by lia. by apply Z.mod_small. Qed.

Lemma xshort_small x : 0 <= x < 2 ^ 16 → xshort x = x.
Proof. intros H. unfold xshort. rewrite little_endian_to_Z_to_little_endian by lia. by apply Z.mod_small. Qed.

Definition BMAP : Z := 45.

(** The first block of file data. *)
Definition FIRST : Z := 46.

Lemma nmeta_eq : nmeta = FIRST.
Proof. reflexivity. Qed.

Lemma mk_data b : is_data mk_sb b ↔ FIRST <= b < FSSIZE.
Proof. rewrite mk_sb_eq. unfold is_data, FIRST. change FSSIZE with 1000. cbn. lia. Qed.

Lemma mk_size : sb_size mk_sb = FSSIZE.
Proof. by rewrite mk_sb_eq. Qed.

Lemma mk_BBLOCK b : 0 <= b < FSSIZE → BBLOCK b mk_sb = BMAP ∧ b mod BPB = b.
Proof.
  rewrite mk_sb_eq. unfold BBLOCK. change FSSIZE with 1000. assert (BPB = 8192) as -> by done. intros H. cbn.
  split; [unfold BMAP; dlia | by apply Z.mod_small; lia].
Qed.

Lemma mk_bitmap c : c ∈ bitmap mk_sb ↔ c = BMAP.
Proof.
  split.
  - intros H. apply in_bitmap_inv in H as (b & Hb & ->). rewrite mk_size in Hb. by apply mk_BBLOCK.
  - intros ->. destruct (mk_BBLOCK 0) as [<- _]; [done |]. apply in_bitmap. by rewrite mk_size.
Qed.

(** The inode blocks are before the bitmap. *)
Lemma mk_IBLOCK n : 0 <= n < NINODES → 32 <= IBLOCK n mk_sb < BMAP.
Proof.
  intros H. unfold IBLOCK. rewrite mk_sb_eq. cbn. assert (IPB = 16) as -> by done. unfold NINODES, BMAP in *. dlia.
Qed.

Lemma sector_small c : 0 <= c < FSSIZE → sector c = c.
Proof. change FSSIZE with 1000. intros H. unfold sector. change BSIZE with 1024. rewrite u32_small by lia. dlia. Qed.

(** ** The bitmap *)

Lemma get_byte_zero x : get_byte zero_block x = 0.
Proof.
  unfold get_byte, zget. destruct (x <? 0); [done |]. with_strategy transparent [zero_block] unfold zero_block.
  destruct (replicate _ _ !! _) as [y |] eqn:E; [| done]. by apply lookup_replicate in E as [-> _].
Qed.

Lemma used_bits_S n : 0 <= n → used_bits (n + 1) = set_bit (used_bits n) n.
Proof. intros H. unfold used_bits. rewrite (seqZ_app 0 n 1) by lia. by rewrite foldl_app. Qed.

Lemma used_bits_ok n :
  0 <= n <= BPB → is_block (used_bits n) ∧ ∀ b, 0 <= b → bit_set (used_bits n) b = (b <? n).
Proof.
  intros Hn. rewrite <- (Z2Nat.id n) in * by lia. revert Hn. induction (Z.to_nat n) as [| m IH]; intros Hn.
  - split; [apply is_block_zero |]. intros b Hb. destruct (Z.ltb_spec b (Z.of_nat 0)); [lia |].
    change (used_bits (Z.of_nat 0)) with zero_block. unfold bit_set. by rewrite get_byte_zero, Z.land_0_l.
  - rewrite Nat2Z.inj_succ, <- Z.add_1_r in *. destruct IH as [B1 B2]; [lia |]. rewrite used_bits_S by lia. split; [by apply is_block_set_bit; [| lia] |].
    intros b Hb. rewrite bit_set_set, B2 by (done || lia). destruct (Z.eqb_spec (Z.of_nat m) b), (Z.ltb_spec b (Z.of_nat m)), (Z.ltb_spec b (Z.of_nat m + 1)); done || lia.
Qed.

(** ** The image and the contents *)

Record ghost (s : mkst) (W : contents) : Prop := {
  gh_image : ∀ c, 0 <= c < FSSIZE → c ≠ BMAP → image s !! c = Some (W c);
  gh_out : ∀ c, ¬ (0 <= c < FSSIZE) → image s !! c = None;
  gh_bits : W BMAP = used_bits (freeblock s);
  gh_block : ∀ c, is_block (W c);
  gh_free : FIRST <= freeblock s <= FSSIZE;
  gh_zero : ∀ c, freeblock s <= c → W c = zero_block }.

Lemma ghost_used s W b : ghost s W → 0 <= b < FSSIZE → used mk_sb W b = (b <? freeblock s).
Proof.
  intros H Hb. unfold used. destruct (mk_BBLOCK b Hb) as [-> ->]. rewrite (gh_bits _ _ H). apply used_bits_ok; [| lia].
  pose proof (gh_free _ _ H). change BPB with 8192. change FSSIZE with 1000 in *. unfold FIRST in *. lia.
Qed.

Lemma ghost_meta s W : ghost s W → meta_used mk_sb W.
Proof.
  intros H b Hb Hd. rewrite mk_size in Hb. rewrite mk_data in Hd. rewrite (ghost_used s) by done. pose proof (gh_free _ _ H). apply Z.ltb_lt. lia.
Qed.

Lemma ghost_fresh s W : ghost s W → freeblock s < FSSIZE → fresh mk_sb W (freeblock s).
Proof.
  intros H Hf. pose proof (gh_free _ _ H). split; [apply mk_data; lia |]. split; [unfold FIRST in *; lia |].
  rewrite (ghost_used s) by (try done; unfold FIRST in *; lia). apply Z.ltb_ge. lia.
Qed.

Definition set_image (f : gmap Z block → gmap Z block) (s : mkst) : mkst := MkSt (f (image s)) (freeinode s) (freeblock s).
Definition set_freeblock (b : Z) (s : mkst) : mkst := MkSt (image s) (freeinode s) b.

(** A sector is read. *)
Lemma rsect_f s W c : ghost s W → 0 <= c < FSSIZE → c ≠ BMAP → runs [] (rsect c) s (λ b s', b = W c ∧ s' = s).
Proof.
  intros H Hc Hne. unfold rsect. rstep. rewrite sector_small, (gh_image _ _ H) by done. by apply runs_ret.
Qed.

(** A sector in use is written. *)
Lemma wsect_f s W c v :
  ghost s W → 0 <= c < freeblock s → c ≠ BMAP → is_block v →
  runs [] (wsect c v) s (λ _ s', s' = set_image <[c := v]> s ∧ ghost s' (<[c := v]> W)).
Proof.
  intros H Hc Hne Hv. pose proof (gh_free _ _ H). apply runs_modify. rewrite sector_small by lia. split; [done |]. constructor; cbn [image freeblock].
  - intros d Hd Hdb. destruct (Z.eq_dec c d) as [<- | Hcd].
    + by rewrite lookup_insert_eq, fn_lookup_insert.
    + rewrite lookup_insert_ne, fn_lookup_insert_ne by done. by apply H.
  - intros d Hd. rewrite lookup_insert_ne by lia. by apply H.
  - rewrite fn_lookup_insert_ne by done. apply H.
  - intros d. destruct (Z.eq_dec c d) as [<- | Hcd]; [by rewrite fn_lookup_insert |]. rewrite fn_lookup_insert_ne by done. apply H.
  - apply H.
  - intros d Hd. rewrite fn_lookup_insert_ne by lia. by apply H.
Qed.

(** A block is taken. *)
Lemma take_freeblock_f s W :
  ghost s W → freeblock s < FSSIZE →
  runs [] take_freeblock s (λ a s', a = freeblock s ∧ s' = set_freeblock (a + 1) s ∧ fresh mk_sb W a ∧ ghost s' (allocated mk_sb W a)).
Proof.
  intros H Hlt. pose proof (gh_free _ _ H) as Hf. change FSSIZE with 1000 in *. unfold FIRST in Hf. unfold take_freeblock. rstep. rstep. apply runs_ret.
  rewrite xint_small, u32_small by lia. split; [done |]. split; [done |]. split; [by apply ghost_fresh |].
  set (a := freeblock s) in *. destruct (mk_BBLOCK a) as [E1 E2]; [unfold FSSIZE; lia |].
  assert (∀ c, allocated mk_sb W a c = if c =? BMAP then used_bits (a + 1) else W c) as EW.
  { intros c. unfold allocated. rewrite E1, E2, (gh_bits _ _ H). fold a. rewrite used_bits_S by lia. destruct (Z.eqb_spec c BMAP) as [-> | Hc].
    - rewrite fn_lookup_insert_ne by (unfold BMAP; lia). apply fn_lookup_insert.
    - destruct (Z.eq_dec a c) as [<- |]; [rewrite fn_lookup_insert; symmetry; by apply (gh_zero _ _ H) |].
      by rewrite !fn_lookup_insert_ne by done. }
  constructor; cbn [image freeblock set_freeblock].
  - intros c Hc Hb. rewrite EW. destruct (Z.eqb_spec c BMAP); [done |]. by apply H.
  - apply H.
  - rewrite EW. by rewrite Z.eqb_refl.
  - intros c. rewrite EW. destruct (Z.eqb_spec c BMAP); [| apply H]. apply used_bits_ok. change BPB with 8192. lia.
  - unfold FIRST. change FSSIZE with 1000. lia.
  - intros c Hc. rewrite EW. destruct (Z.eqb_spec c BMAP); [unfold BMAP in *; lia |]. apply H. fold a. lia.
Qed.

(** ** A file that is being written *)

(** The data blocks of a file of [n] bytes, and whether it has an indirect
    block. *)
Definition blocks_of (n : Z) : Z := (n + BSIZE - 1) / BSIZE.
Definition ind_of (n : Z) : bool := NDIRECT * BSIZE <? n.

(** All blocks of a file of [n] bytes *)
Definition need (n : Z) : Z := blocks_of n + if ind_of n then 1 else 0.

(** It has exactly the first [nb] blocks, and an indirect block if [ind]. *)
Record exact W i (nb : Z) (ind : bool) : Prop := {
  ex_blocks : ∀ k, 0 <= k < MAXFILE → faddr W i k ≠ 0 ↔ k < nb;
  ex_indirect : addr i NDIRECT ≠ 0 ↔ ind = true }.

(** The inode's addresses fit their fields. *)
Definition addrs_fit (i : inode) : Prop := ∀ k, 0 <= addr i k < 2 ^ 32.

Record building W i (data : list Z) : Prop := {
  bu_ok : file_ok mk_sb W i;
  bu_fit : addrs_fit i;
  bu_exact : exact W i (blocks_of (Z.of_nat (length data))) (ind_of (Z.of_nat (length data)));
  bu_bytes : ∀ o, 0 <= o < MAXFILE * BSIZE → fbyte W i o = get_byte data o }.

Ltac sizes := unfold need, blocks_of, ind_of in *; change (NDIRECT * BSIZE) with 12288 in *; change (MAXFILE * BSIZE) with 274432 in *;
  change BSIZE with 1024 in *; change NDIRECT with 12 in *; change MAXFILE with 268 in *; change FSSIZE with 1000 in *.

Lemma need_mono n m : 0 <= n <= m → need n <= need m.
Proof. intros H. sizes. destruct (Z.ltb_spec 12288 n), (Z.ltb_spec 12288 m); dlia. Qed.

(** The rest of the block's bytes need no block. *)
Lemma need_in_block n m : 0 <= n → n < m → m <= (n / BSIZE + 1) * BSIZE → blocks_of m = n / BSIZE + 1 ∧ ind_of m = ind_of (n + 1).
Proof.
  intros H0 H1 H2. sizes. split; [dlia |]. destruct (Z.ltb_spec 12288 m), (Z.ltb_spec 12288 (n + 1)); dlia.
Qed.

(** ** Taking blocks *)

(** From [s], [W], [i] the file has got [d] blocks, its contents the same. *)
Record grew (s : mkst) W i (s' : mkst) W' i' (d : Z) : Prop := {
  gr_ghost : ghost s' W';
  gr_step : file_step mk_sb W i W' i';
  gr_size : isize i' = isize i;
  gr_blocks : ∀ k, 0 <= k < MAXFILE → fblock W' i' k = fblock W i k;
  gr_fit : addrs_fit i';
  gr_free : freeblock s' = freeblock s + d;
  gr_inodes : freeinode s' = freeinode s }.

Lemma grew_refl s W i : ghost s W → file_ok mk_sb W i → addrs_fit i → grew s W i s W i 0.
Proof. intros Hg Hok Hf. constructor; try done; [apply file_step_refl; [done | by apply (ghost_meta s)] | lia]. Qed.

Lemma grew_trans s W i s1 W1 i1 d1 s2 W2 i2 d2 :
  grew s W i s1 W1 i1 d1 → grew s1 W1 i1 s2 W2 i2 d2 → grew s W i s2 W2 i2 (d1 + d2).
Proof.
  intros [A1 A2 A3 A4 A5 A6 A7] [B1 B2 B3 B4 B5 B6 B7]. constructor; try done; try congruence; try lia.
  - apply (file_step_trans mk_sb W i W1 i1); [apply mk_geom | done | done].
  - intros k Hk. by rewrite B4, A4.
Qed.

Lemma fills_grew s W i s' W' i' k a :
  ghost s W → file_ok mk_sb W i → fills mk_sb W i W' i' k a → ghost s' W' → addrs_fit i' →
  freeblock s' = freeblock s + 1 → freeinode s' = freeinode s → grew s W i s' W' i' 1.
Proof.
  intros Hg Hok Hf Hg' Hfit Hfr Hin. constructor; try done.
  - apply (fills_step mk_sb W i W' i' k a); [apply mk_geom | done | by apply (ghost_meta s) | done].
  - apply Hf.
  - intros j Hj. by apply (fills_fblock mk_sb W i W' i' k a); [apply mk_geom | | |].
Qed.

Lemma exact_fill W i nb ind V' i' a :
  exact W i nb ind → 0 <= nb < MAXFILE → a ≠ 0 → fills mk_sb W i V' i' nb a → exact V' i' (nb + 1) ind.
Proof.
  intros [E1 E2] Hnb Ha Hf. pose proof (fi_slots _ _ _ _ _ _ _ Hf) as Hs. split.
  - intros k Hk. assert (in_slots k) as Hks by (unfold in_slots; lia). specialize (Hs k Hks). rewrite !slot_faddr in Hs by done. rewrite Hs.
    destruct (Z.eqb_spec k nb); [lia |]. rewrite E1 by done. lia.
  - specialize (Hs MAXFILE ltac:(done)). rewrite !slot_indirect in Hs. rewrite Hs. destruct (Z.eqb_spec MAXFILE nb); [lia | done].
Qed.

Lemma exact_fill_indirect W i nb V' i' a :
  exact W i nb false → a ≠ 0 → fills mk_sb W i V' i' MAXFILE a → exact V' i' nb true.
Proof.
  intros [E1 E2] Ha Hf. pose proof (fi_slots _ _ _ _ _ _ _ Hf) as Hs. split.
  - intros k Hk. assert (in_slots k) as Hks by (unfold in_slots; lia). specialize (Hs k Hks). rewrite !slot_faddr in Hs by done. rewrite Hs.
    destruct (Z.eqb_spec k MAXFILE); [lia |]. by apply E1.
  - specialize (Hs MAXFILE ltac:(done)). rewrite !slot_indirect, Z.eqb_refl in Hs. by rewrite Hs.
Qed.

Lemma set_addr_fit i k a : length (addrs i) = 13%nat → 0 <= k <= NDIRECT → addrs_fit i → 0 <= a < 2 ^ 32 → addrs_fit (set_addr k a i).
Proof. intros Hl Hk Hi Ha j. rewrite addr_set_addr by done. destruct (k =? j); [done | apply Hi]. Qed.

Section turn.
Context (s : mkst) (W : contents) (i : inode) (nb : Z) (ind : bool).
Context (Hg : ghost s W) (Hok : file_ok mk_sb W i) (Hfit : addrs_fit i) (Hex : exact W i nb ind).

(** [iappend_block] gives the file its block [k], with [d] new ones. *)
Definition gets_block (k : Z) (d : Z) (r : inode * Z) (s' : mkst) : Prop :=
  ∃ W' i', grew s W i s' W' i' d ∧ r = (i', faddr W' i' k) ∧
    exact W' i' (Z.max nb (k + 1)) (ind || negb (k <? NDIRECT)).

(** A direct block that is there *)
Lemma block_direct k :
  0 <= k < NDIRECT → k < nb → runs [] (iappend_block i k) s (gets_block k 0).
Proof.
  intros Hk Hlt. assert (0 <= k < MAXFILE) as Hk' by (change MAXFILE with 268; change NDIRECT with 12 in *; lia).
  assert (faddr W i k = addr i k) as Ef by (unfold faddr; destruct (Z.ltb_spec k NDIRECT); [done | lia]).
  unfold iappend_block. destruct (Z.ltb_spec k NDIRECT); [| lia]. rewrite (xint_small (addr i k)) by apply Hfit.
  pose proof (proj2 (ex_blocks _ _ _ _ Hex k Hk') Hlt) as Hne. rewrite Ef in Hne. destruct (Z.eqb_spec (addr i k) 0); [done |].
  rstep. apply runs_ret. exists W, i. split; [by apply grew_refl |]. split; [by rewrite Ef, xint_small by apply Hfit |].
  replace (Z.max nb (k + 1)) with nb by lia. destruct (Z.ltb_spec k NDIRECT); [| lia]. cbn [negb]. by rewrite orb_false_r.
Qed.

(** A direct block that is not *)
Lemma block_direct_new k :
  0 <= k < NDIRECT → k = nb → freeblock s < FSSIZE → runs [] (iappend_block i k) s (gets_block k 1).
Proof.
  intros Hk Hnb Hroom. assert (0 <= k < MAXFILE) as Hk' by (change MAXFILE with 268; change NDIRECT with 12 in *; lia).
  assert (faddr W i k = addr i k) as Ef by (unfold faddr; destruct (Z.ltb_spec k NDIRECT); [done | lia]).
  unfold iappend_block. destruct (Z.ltb_spec k NDIRECT); [| lia]. rewrite (xint_small (addr i k)) by apply Hfit.
  destruct (Z.eqb_spec (addr i k) 0) as [E0 | E0]; [| pose proof (proj1 (ex_blocks _ _ _ _ Hex k Hk')) as H'; rewrite Ef in H'; specialize (H' E0); lia].
  apply runs_flat. eapply runs_bind; [by apply (take_freeblock_f s W) |]. cbv beta. intros a s1 (Ea & -> & Hfr & Hg1). rstep. apply runs_ret.
  pose proof (gh_free _ _ Hg) as Hfree. change FSSIZE with 1000 in *. unfold FIRST in Hfree. pose proof (fo_len _ _ _ Hok) as Hl.
  pose proof (fills_direct mk_sb W i k a mk_geom (gh_block _ _ Hg) Hok Hk E0 Hfr) as Hf.
  assert (addrs_fit (set_addr k a i)) as Hfit' by (apply set_addr_fit; [done | lia | done | lia]).
  exists (allocated mk_sb W a), (set_addr k a i). split; [| split].
  - apply (fills_grew s W i _ _ _ k a); try done. cbn. lia.
  - rewrite xint_small by apply Hfit'. f_equal. unfold faddr. destruct (Z.ltb_spec k NDIRECT); [done | lia].
  - replace (Z.max nb (k + 1)) with (nb + 1) by lia. destruct (Z.ltb_spec k NDIRECT); [| lia]. cbn [negb]. rewrite orb_false_r.
    apply (exact_fill W i nb ind _ _ a); [done | lia | lia | by rewrite <- Hnb].
Qed.

(** The second half of [iappend_block] for an indirect block *)
Definition entry_block (din : inode) (k : Z) : K mkst (inode * Z) :=
  indirect <- rsect (xint (addr din NDIRECT)) ;;
  indirect <- (if get32 indirect (4 * (k - NDIRECT)) =? 0 then
                 a <- take_freeblock ;;
                 let indirect := put32 indirect (4 * (k - NDIRECT)) a in
                 wsect (xint (addr din NDIRECT)) indirect ;;
                 ret indirect
               else ret indirect) ;;
  ret (din, xint (get32 indirect (4 * (k - NDIRECT)))).

Context (Hind : ind = true).

Lemma indirect_block :
  let e := addr i NDIRECT in
  e ≠ 0 ∧ FIRST <= e < freeblock s ∧ xint e = e ∧ ∀ k, NDIRECT <= k → faddr W i k = get32 (W e) (4 * (k - NDIRECT)).
Proof.
  intros e. pose proof (proj2 (ex_indirect _ _ _ _ Hex) Hind) as Hne. fold e in Hne. split; [done |].
  destruct (fo_slot _ _ _ Hok MAXFILE ltac:(done)) as [Hd Hu]; [by rewrite slot_indirect |]. rewrite slot_indirect in Hd, Hu. fold e in Hd, Hu.
  rewrite mk_data in Hd. rewrite (ghost_used s) in Hu by (try done; unfold FIRST in *; lia). apply Z.ltb_lt in Hu. split; [lia |].
  split; [apply xint_small, Hfit |]. intros k Hk. unfold faddr. destruct (Z.ltb_spec k NDIRECT); [lia |]. fold e. by destruct (Z.eqb_spec e 0).
Qed.

Lemma get32_fits v o : is_block v → 0 <= get32 v o < 2 ^ 32.
Proof. intros [_ Hb]. apply (get_le_range 4 v o Hb). Qed.

Lemma read_indirect : runs [] (rsect (xint (addr i NDIRECT))) s (λ b s', b = W (addr i NDIRECT) ∧ s' = s).
Proof.
  destruct indirect_block as (_ & He & -> & _). pose proof (gh_free _ _ Hg). apply rsect_f; [done | unfold FIRST in *; lia | unfold FIRST, BMAP in *; lia].
Qed.

Lemma block_entry k :
  NDIRECT <= k < MAXFILE → k < nb → runs [] (entry_block i k) s (gets_block k 0).
Proof.
  intros Hk Hlt. destruct indirect_block as (Hne & He & Ex & Ef). unfold entry_block.
  eapply runs_bind; [apply read_indirect |]. cbv beta. intros v s1 [-> ->]. rewrite <- Ef by lia.
  destruct (Z.eqb_spec (faddr W i k) 0) as [E0 | E0]; [exfalso; revert E0; apply (ex_blocks _ _ _ _ Hex); [change NDIRECT with 12 in *; lia | done] |].
  rstep. apply runs_ret. exists W, i. split; [by apply grew_refl |]. split; [f_equal; rewrite Ef by lia; apply xint_small, get32_fits, Hg |].
  replace (Z.max nb (k + 1)) with nb by lia. rewrite Hind in *. done.
Qed.

Lemma block_entry_new k :
  NDIRECT <= k < MAXFILE → k = nb → freeblock s < FSSIZE → runs [] (entry_block i k) s (gets_block k 1).
Proof.
  intros Hk Hnb Hroom. destruct indirect_block as (Hne & He & Ex & Ef). unfold entry_block. set (e := addr i NDIRECT) in *. rewrite Ex.
  assert (0 <= k < MAXFILE) as Hk' by (change NDIRECT with 12 in *; lia).
  eapply runs_bind; [rewrite <- Ex; apply read_indirect |]. cbv beta. intros v s1 [-> ->]. fold e. rewrite <- Ef by lia.
  destruct (Z.eqb_spec (faddr W i k) 0) as [E0 | E0]; [| apply (ex_blocks _ _ _ _ Hex) in E0; [lia | done]].
  apply runs_flat. eapply runs_bind; [by apply (take_freeblock_f s W) |]. cbv beta. intros a s1 (Ea & -> & Hfr & Hg1). cbv zeta.
  pose proof (gh_free _ _ Hg) as Hfree. change FSSIZE with 1000 in *. unfold FIRST in *.
  assert (allocated mk_sb W a e = W e) as Ee.
  { apply allocated_other; [lia | rewrite mk_bitmap; unfold BMAP; lia | rewrite mk_size; unfold FSSIZE; lia]. }
  apply runs_flat. eapply runs_bind; [apply (wsect_f _ (allocated mk_sb W a) e); [done | cbn [freeblock set_freeblock]; lia | unfold BMAP; lia |] |].
  { apply is_block_put; [apply Hg | change NDIRECT with 12 in *; lia | change NDIRECT with 12 in *; change BSIZE with 1024; change MAXFILE with 268 in *; lia]. }
  cbv beta. intros _ s2 [-> Hg2]. rstep. apply runs_ret.
  pose proof (fills_entry mk_sb W i k a mk_geom (gh_block _ _ Hg) Hok Hk Hne) as Hf. rewrite slot_faddr in Hf by done. specialize (Hf E0 Hfr).
  cbv zeta in Hf. fold e in Hf. rewrite Ee in Hf. eexists _, i. split; [| split].
  - apply (fills_grew s W i _ _ i k a Hg Hok Hf); try done. cbn. lia.
  - f_equal. rewrite <- slot_faddr by done. rewrite (fi_slots _ _ _ _ _ _ _ Hf) by (unfold in_slots; lia). rewrite Z.eqb_refl.
    unfold get32, put32. rewrite get_put_eq; [rewrite Z.mod_small by lia; apply xint_small; lia | change NDIRECT with 12 in *; lia |].
    destruct (gh_block _ _ Hg e) as [-> _]. change NDIRECT with 12 in *; change BSIZE with 1024; change MAXFILE with 268 in *; lia.
  - replace (Z.max nb (k + 1)) with (nb + 1) by lia. rewrite Hind. cbn [orb]. rewrite <- Hind.
    apply (exact_fill W i nb ind _ _ a); [done | lia | lia | by rewrite <- Hnb].
Qed.
End turn.

(** For the first byte that needs it, the indirect block is taken too. *)
Lemma block_indirect_new s W i :
  ghost s W → file_ok mk_sb W i → addrs_fit i → exact W i NDIRECT false → freeblock s + 2 <= FSSIZE →
  runs [] (iappend_block i NDIRECT) s (gets_block s W i NDIRECT false NDIRECT 2).
Proof.
  intros Hg Hok Hfit Hex Hroom. pose proof (gh_free _ _ Hg) as Hfree. pose proof (fo_len _ _ _ Hok) as Hl.
  unfold iappend_block. rewrite Z.ltb_irrefl, (xint_small (addr i NDIRECT)) by apply Hfit.
  destruct (Z.eqb_spec (addr i NDIRECT) 0) as [E0 | E0]; [| by apply (ex_indirect _ _ _ _ Hex) in E0].
  apply runs_flat. eapply runs_bind; [by apply (take_freeblock_f s W); [| lia] |]. cbv beta. intros a s1 (Ea & -> & Hfr & Hg1). rstep.
  change FSSIZE with 1000 in *. unfold FIRST in Hfree.
  pose proof (fills_indirect mk_sb W i a mk_geom (gh_block _ _ Hg) Hok E0 Hfr) as Hf.
  assert (addrs_fit (set_addr NDIRECT a i)) as Hfit' by (apply set_addr_fit; [done | done | done | lia]).
  assert (grew s W i (set_freeblock (a + 1) s) (allocated mk_sb W a) (set_addr NDIRECT a i) 1) as Hgr.
  { apply (fills_grew s W i _ _ _ MAXFILE a); try done. cbn. lia. }
  eapply runs_conseq; [apply (block_entry_new _ _ _ NDIRECT true (gr_ghost _ _ _ _ _ _ _ Hgr) (st_ok _ _ _ _ _ (gr_step _ _ _ _ _ _ _ Hgr)) Hfit'); try done |].
  - apply (exact_fill_indirect W i NDIRECT _ _ a); [done | lia | done].
  - cbn [freeblock set_freeblock]. change FSSIZE with 1000. lia.
  - intros r s' (W' & i' & Hgr' & -> & Hex'). exists W', i'. split; [by apply (grew_trans _ _ _ _ _ _ 1 _ _ _ 1 Hgr) | done].
Qed.

Lemma iappend_block_f s W i n :
  ghost s W → file_ok mk_sb W i → addrs_fit i → exact W i (blocks_of n) (ind_of n) → 0 <= n < MAXFILE * BSIZE →
  freeblock s + (need (n + 1) - need n) <= FSSIZE →
  runs [] (iappend_block i (n / BSIZE)) s (λ r s', ∃ W' i', grew s W i s' W' i' (need (n + 1) - need n) ∧
    r = (i', faddr W' i' (n / BSIZE)) ∧ exact W' i' (blocks_of (n + 1)) (ind_of (n + 1))).
Proof.
  intros Hg Hok Hfit Hex Hn Hroom.
  assert (∀ d, runs [] (iappend_block i (n / BSIZE)) s (gets_block s W i (blocks_of n) (ind_of n) (n / BSIZE) d) → d = need (n + 1) - need n →
    runs [] (iappend_block i (n / BSIZE)) s (λ r s', ∃ W' i', grew s W i s' W' i' (need (n + 1) - need n) ∧
    r = (i', faddr W' i' (n / BSIZE)) ∧ exact W' i' (blocks_of (n + 1)) (ind_of (n + 1)))) as Hdone.
  { intros d H ->. eapply runs_conseq; [exact H |]. intros r s' (W' & i' & H1 & H2 & H3). exists W', i'. split; [done |]. split; [done |].
    replace (blocks_of (n + 1)) with (Z.max (blocks_of n) (n / BSIZE + 1)) by (sizes; dlia).
    replace (ind_of (n + 1)) with (ind_of n || negb (n / BSIZE <? NDIRECT)); [done |]. sizes.
    destruct (Z.ltb_spec 12288 n), (Z.ltb_spec 12288 (n + 1)), (Z.ltb_spec (n / 1024) 12); cbn; done || dlia. }
  destruct (Z.lt_ge_cases (n / BSIZE) NDIRECT) as [Hlt | Hge].
  - destruct (Z.eq_dec (n mod BSIZE) 0) as [E | E].
    + apply (Hdone 1); [apply block_direct_new; try done |]; sizes; destruct (Z.ltb_spec 12288 n), (Z.ltb_spec 12288 (n + 1)); dlia.
    + apply (Hdone 0); [apply block_direct; try done |]; sizes; destruct (Z.ltb_spec 12288 n), (Z.ltb_spec 12288 (n + 1)); dlia.
  - destruct (Z.eq_dec n (NDIRECT * BSIZE)) as [-> | Hne].
    + apply (Hdone 2); [| done]. apply block_indirect_new; try done.
    + assert (ind_of n = true) as Hind by (sizes; apply Z.ltb_lt; dlia).
      assert (iappend_block i (n / BSIZE) = (din <- ret i ;; entry_block din (n / BSIZE))) as Eb.
      { unfold iappend_block. destruct (Z.ltb_spec (n / BSIZE) NDIRECT); [lia |]. rewrite (xint_small (addr i NDIRECT)) by apply Hfit.
        destruct (Z.eqb_spec (addr i NDIRECT) 0) as [E0 | E0]; [| done]. exfalso. revert E0. by apply (ex_indirect _ _ _ _ Hex). }
      destruct (Z.eq_dec (n mod BSIZE) 0) as [E | E].
      * apply (Hdone 1); [rewrite Eb; rstep; apply block_entry_new; try done |]; sizes; destruct (Z.ltb_spec 12288 n), (Z.ltb_spec 12288 (n + 1)); dlia.
      * apply (Hdone 0); [rewrite Eb; rstep; apply block_entry; try done |]; sizes; destruct (Z.ltb_spec 12288 n), (Z.ltb_spec 12288 (n + 1)); dlia.
Qed.

(** ** Appending to a file *)

(** From [s], [W], [i] the file has been written and has [d] blocks more. *)
Record appended (s : mkst) W i (s' : mkst) W' i' (d : Z) : Prop := {
  ap_ghost : ghost s' W';
  ap_step : file_step mk_sb W i W' i';
  ap_size : isize i' = isize i;
  ap_free : freeblock s' = freeblock s + d;
  ap_inodes : freeinode s' = freeinode s }.

Lemma appended_trans s W i s1 W1 i1 d1 s2 W2 i2 d2 :
  appended s W i s1 W1 i1 d1 → appended s1 W1 i1 s2 W2 i2 d2 → appended s W i s2 W2 i2 (d1 + d2).
Proof.
  intros [A1 A2 A3 A4 A5] [B1 B2 B3 B4 B5]. constructor; try done; try congruence; try lia.
  apply (file_step_trans mk_sb W i W1 i1); [apply mk_geom | done | done].
Qed.

Lemma get_byte_app l1 l2 o :
  0 <= o → get_byte (l1 ++ l2) o = if o <? Z.of_nat (length l1) then get_byte l1 o else get_byte l2 (o - Z.of_nat (length l1)).
Proof.
  intros Ho. unfold get_byte, zget. destruct (Z.ltb_spec o 0); [lia |]. destruct (Z.ltb_spec o (Z.of_nat (length l1))).
  - by rewrite lookup_app_l by lia.
  - destruct (Z.ltb_spec (o - Z.of_nat (length l1)) 0); [lia |]. rewrite lookup_app_r by lia. do 2 f_equal. lia.
Qed.

Lemma get_byte_end l o : Z.of_nat (length l) <= o → get_byte l o = 0.
Proof. intros Ho. unfold get_byte, zget. destruct (Z.ltb_spec o 0); [done |]. by rewrite lookup_ge_None_2 by lia. Qed.

(** One turn: the bytes [q], within one block, are stored. *)
Lemma turn_building s W i data s1 W1 i1 q :
  let n := Z.of_nat (length data) in let x := faddr W1 i1 (n / BSIZE) in
  building W i data → grew s W i s1 W1 i1 (need (n + 1) - need n) → exact W1 i1 (blocks_of (n + 1)) (ind_of (n + 1)) →
  bytes q → q ≠ [] → n mod BSIZE + Z.of_nat (length q) <= BSIZE → n < MAXFILE * BSIZE →
  FIRST <= x < freeblock s1 ∧
  runs [] (wsect x (splice (W1 x) (Z.to_nat (n mod BSIZE)) q)) s1 (λ _ s2, ∃ W2,
    building W2 i1 (data ++ q) ∧ appended s W i s2 W2 i1 (need (n + Z.of_nat (length q)) - need n)).
Proof.
  intros n x Hb Hgr Hex Hq Hne Hin Hmax. destruct Hgr as [G1 G2 G3 G4 G5 G6 G7].
  assert (0 <= n / BSIZE < MAXFILE) as Hk by (unfold n; sizes; dlia).
  assert (1 <= Z.of_nat (length q)) as Hq1 by (destruct q; [done | cbn; lia]).
  pose proof (st_ok _ _ _ _ _ G2) as Hok1. pose proof (st_meta _ _ _ _ _ G2) as Hm1.
  assert (x ≠ 0) as Hx0 by (apply (ex_blocks _ _ _ _ Hex); [done | unfold n; sizes; dlia]).
  destruct (faddr_data mk_sb W1 i1 _ Hok1 Hk Hx0) as [Hd Hu]. fold x in Hd, Hu. rewrite mk_data in Hd.
  rewrite (ghost_used s1) in Hu by (try done; unfold FIRST in *; lia). apply Z.ltb_lt in Hu. split; [lia |].
  destruct (need_in_block n (n + Z.of_nat (length q))) as [N1 N2]; [lia | lia | unfold n in *; sizes; dlia |].
  destruct (need_in_block n (n + 1)) as [N3 _]; [lia | lia | unfold n in *; sizes; dlia |].
  set (v := splice (W1 x) (Z.to_nat (n mod BSIZE)) q).
  eapply runs_conseq; [apply (wsect_f s1 W1 x v); [done | unfold FIRST in *; lia | unfold FIRST, BMAP in *; lia |] |].
  { destruct (gh_block _ _ G1 x) as [L1 L2]. split; [| by apply bytes_splice]. unfold v. rewrite length_splice; [done |]. rewrite L1. unfold n in *. sizes. dlia. }
  intros _ s2 [-> Hg2]. exists (<[x := v]> W1).
  destruct (file_step_store mk_sb W1 i1 (n / BSIZE) v mk_geom Hok1 Hm1 Hk Hx0) as (St & _ & _). fold x in St.
  split; [constructor |].
  - apply St.
  - done.
  - rewrite length_app, Nat2Z.inj_add. fold n. rewrite N1, N2, <- N3. split; [| apply Hex].
    intros k Hk2. assert (in_slots k) as Hks by (unfold in_slots; lia). rewrite <- slot_faddr by done.
    unfold x. rewrite (slot_store mk_sb) by (try done; apply mk_geom). rewrite slot_faddr by done. by apply Hex.
  - intros o Ho. unfold v, x. rewrite (store_wrote mk_sb W i W1 i1 n q mk_geom (gh_block _ _ G1) Hok1 Hm1 G4) by (done || lia).
    rewrite (bu_bytes _ _ _ Hb) by done. rewrite get_byte_app by lia. fold n.
    destruct (Z.leb_spec n o), (Z.ltb_spec o (n + Z.of_nat (length q))), (Z.ltb_spec o n); cbn [andb]; try done; try lia.
    rewrite !get_byte_end by (fold n; lia). done.
  - constructor; try done.
    + apply (file_step_trans mk_sb W i W1 i1); [apply mk_geom | done | done].
    + cbn. rewrite G6. unfold need. rewrite N1, N2, N3. done.
Qed.

Lemma iappend_loop_f fuel s W i data p :
  let n := Z.of_nat (length data) in let m := Z.of_nat (length p) in
  ghost s W → building W i data → bytes p → n + m <= MAXFILE * BSIZE → (length p <= fuel)%nat →
  freeblock s + (need (n + m) - need n) <= FSSIZE →
  runs [] (iappend_loop fuel i n p) s (λ r s', ∃ W' i', r = (i', n + m) ∧ building W' i' (data ++ p) ∧
    appended s W i s' W' i' (need (n + m) - need n)).
Proof.
  revert s W i data p. induction fuel as [| fuel IH]; intros s W i data p n m Hg Hb Hp Hmax Hfuel Hroom; (destruct p as [| b p];
    [apply runs_ret; exists W, i; unfold m; cbn [length]; rewrite Z.add_0_r, Z.sub_diag, app_nil_r; split; [done |]; split; [done |];
     constructor; try done; [apply file_step_refl; [apply Hb | by apply (ghost_meta s)] | lia] |]); [cbn in Hfuel; lia |].
  cbn [iappend_loop]. set (pp := b :: p) in *. assert (1 <= m) as Hm1 by (unfold m, pp; cbn; lia).
  destruct (Z.ltb_spec (n / BSIZE) MAXFILE) as [_ | Hbad]; [| unfold n in *; sizes; dlia]. cbn [negb].
  pose proof (need_mono (n + 1) (n + m) ltac:(lia)) as Hmono. pose proof Hb as [B1 B2 B3 _].
  eapply runs_bind; [apply (iappend_block_f s W i n Hg B1 B2 B3); lia |]. cbv beta. intros r s1 (W1 & i1 & Hgr & -> & Hex).
  set (x := faddr W1 i1 (n / BSIZE)). set (n1 := Z.min (Z.of_nat (length pp)) ((n / BSIZE + 1) * BSIZE - n)).
  assert (1 <= n1 <= m ∧ n1 <= (n / BSIZE + 1) * BSIZE - n) as Hn1 by (unfold n1; fold m; unfold n in *; sizes; dlia).
  set (q := take (Z.to_nat n1) pp). assert (Z.of_nat (length q) = n1) as Hq by (unfold q; rewrite length_take; unfold m in *; lia).
  destruct (turn_building s W i data s1 W1 i1 q) as [Hx Hturn]; try done.
  { by apply Forall_take. }
  { intros E. rewrite E in Hq. cbn in Hq. lia. }
  { fold n. rewrite Hq. unfold n in *. sizes. dlia. }
  { fold n. lia. }
  fold n x in Hx, Hturn. rewrite Hq in Hturn. pose proof (gr_ghost _ _ _ _ _ _ _ Hgr) as Hg1. pose proof (gh_free _ _ Hg1).
  eapply runs_bind; [apply (rsect_f s1 W1 x); [done | unfold FIRST in *; lia | unfold FIRST, BMAP in *; lia] |]. cbv beta. intros v s1' [-> ->].
  replace (n - n / BSIZE * BSIZE) with (n mod BSIZE) by (unfold n in *; sizes; dlia). fold q.
  eapply runs_bind; [exact Hturn |]. cbv beta. intros _ s2 (W2 & Hb2 & Hap).
  rewrite u32_small by (unfold n, m in *; sizes; lia).
  assert (Z.of_nat (length (data ++ q)) = n + n1) as Hl2 by (rewrite length_app; lia).
  assert (length (drop (Z.to_nat n1) pp) = (length pp - Z.to_nat n1)%nat) as Hl3 by apply length_drop.
  assert (n + n1 + Z.of_nat (length (drop (Z.to_nat n1) pp)) = n + m) as Hsum by (rewrite Hl3; unfold m in *; lia).
  rewrite <- Hl2. eapply runs_conseq; [apply IH; rewrite ?Hl2, ?Hsum |].
  - apply Hap.
  - done.
  - by apply Forall_drop.
  - done.
  - rewrite Hl3. lia.
  - rewrite (ap_free _ _ _ _ _ _ _ Hap). lia.
  - cbv beta. intros r s3 (W3 & i3 & -> & Hb3 & Hap3). exists W3, i3. rewrite Hl2, Hsum in *. split; [done |].
    unfold q in Hb3. rewrite <- app_assoc, take_drop in Hb3. split; [done |].
    replace (need (n + m) - need n) with ((need (n + n1) - need n) + (need (n + m) - need (n + n1))) by lia. by apply (appended_trans s W i s2 W2 i1).
Qed.
