(* ===== verification/MkfsImage.v ===== *)
(** * The files of the image

    The whole image: the inodes mkfs has made, each with its file, and what it
    looks like to the kernel in the end. *)

From S2P Require Import Prelude Abi Monad Riscv Mem Block Sleeplock Wp Store Fs FsAlloc FsFile FsRw FsInode FsIo FsTrunc FsDir FsPath FsDemo Mkfs MkfsSpec.

(** ** Inodes on disk *)

(** The fields that are not on disk are those of [dinode0]. *)
Definition base_of (n : Z) (i : inode) : Prop :=
  idev i = ROOTDEV ∧ inum i = n ∧ iref i = 0 ∧ ilk i = initsleeplock ∧ ivalid i = true.

Lemma inode_eq n i i' : base_of n i → base_of n i' → on_disk i = on_disk i' → i = i'.
Proof. destruct i, i'. unfold base_of, on_disk. cbn. intros (-> & -> & -> & -> & ->) (-> & -> & -> & -> & ->) [= -> -> -> -> -> ->]. done. Qed.

Lemma dnode_base sb W n : base_of n (dnode sb W n).
Proof. done. Qed.

Lemma dnode_rinode W n : dnode mk_sb W n = read_dinode (W (IBLOCK n mk_sb)) (dip n) (dinode0 n).
Proof. done. Qed.

Lemma dnode_fits W n : is_block (W (IBLOCK n mk_sb)) → inode_fits (dnode mk_sb W n).
Proof.
  intros Hb. set (v := W (IBLOCK n mk_sb)) in *. pose proof (signed_range 16) as H16.
  constructor; try (apply (H16 _ ltac:(lia))); unfold dnode, read_dinode; cbn [isize addrs].
  - by apply get32_fits.
  - done.
  - intros k. unfold addr, zget. cbn [addrs]. fold v. destruct (k <? 0); [done |]. destruct (map _ _ !! _) as [x |] eqn:E; [| done].
    apply list_lookup_fmap_Some in E as (y & -> & _). by apply get32_fits.
Qed.

Lemma dnode_written W i n :
  is_block (W (IBLOCK n mk_sb)) → 0 <= n → inode_fits i → base_of n i → dnode mk_sb (with_dinode mk_sb W i) n = i.
Proof.
  intros Hb Hn Hf Hi. pose proof Hi as (_ & Ei & _). apply (inode_eq n); [apply dnode_base | done |].
  pose proof (with_dinode_synced mk_sb W i) as Hs. rewrite Ei in Hs. specialize (Hs Hb Hn Hf). unfold synced in Hs. rewrite Ei in Hs. exact Hs.
Qed.

Lemma dnode_other W i n :
  is_block (W (IBLOCK (inum i) mk_sb)) → 0 <= inum i → inode_fits i → 0 <= n → n ≠ inum i →
  dnode mk_sb (with_dinode mk_sb W i) n = dnode mk_sb W n.
Proof. intros. unfold dnode. by apply with_dinode_other. Qed.

(** An inode is written. *)
Lemma winode_f s W n i :
  ghost s W → 0 <= n < NINODES → base_of n i → inode_fits i →
  runs [] (winode n i) s (λ _ s', ghost s' (with_dinode mk_sb W i) ∧ freeblock s' = freeblock s ∧ freeinode s' = freeinode s).
Proof.
  intros Hg Hn (_ & Ei & _) Hf. pose proof (mk_IBLOCK n Hn) as Hb. pose proof (gh_free _ _ Hg) as Hfree.
  unfold winode. eapply runs_bind; [apply (rsect_f s W); [done | change FSSIZE with 1000; unfold BMAP in *; lia | lia] |]. cbv beta. intros v s1 [-> ->].
  destruct (dip_range n ltac:(lia)) as [D1 D2].
  eapply runs_conseq; [apply (wsect_f s W); [done | unfold FIRST, BMAP in *; lia | lia |] |].
  - apply write_dinode_ok; [apply Hg | done | done | done].
  - intros _ s' [-> Hg']. unfold with_dinode. rewrite Ei. done.
Qed.

Lemma rinode_f s W n : ghost s W → 0 <= n < NINODES → runs [] (rinode n) s (λ i s', i = dnode mk_sb W n ∧ s' = s).
Proof.
  intros Hg Hn. pose proof (mk_IBLOCK n Hn) as Hb. unfold rinode.
  eapply runs_bind; [apply (rsect_f s W); [done | change FSSIZE with 1000; unfold BMAP in *; lia | lia] |]. cbv beta. intros v s1 [-> ->].
  by apply runs_ret.
Qed.

(** ** Files that are left alone *)

Lemma slot_frame W W' i k :
  (∀ j, in_slots j → slot W i j ≠ 0 → W' (slot W i j) = W (slot W i j)) → in_slots k → slot W' i k = slot W i k.
Proof.
  intros H Hk. unfold slot. destruct (Z.eqb_spec k MAXFILE); [done |]. unfold faddr. destruct (k <? NDIRECT); [done |].
  destruct (Z.eqb_spec (addr i NDIRECT) 0) as [| Hne]; [done |]. specialize (H MAXFILE ltac:(done)). rewrite slot_indirect in H. by rewrite H.
Qed.

Lemma building_frame W W' i data :
  building W i data → (∀ j, in_slots j → slot W i j ≠ 0 → W' (slot W i j) = W (slot W i j)) →
  (∀ b, 0 <= b < FSSIZE → used mk_sb W b = true → used mk_sb W' b = true) → building W' i data.
Proof.
  intros [B1 B2 [B3 B4] B5] Hs Hu. pose proof (λ k, slot_frame W W' i k Hs) as Hsl.
  assert (∀ k, 0 <= k < MAXFILE → faddr W' i k = faddr W i k) as Hf.
  { intros k Hk. rewrite <- !slot_faddr by done. apply Hsl. unfold in_slots. lia. }
  constructor; [constructor | done | constructor; [| done] |].
  - apply B1.
  - apply B1.
  - intros k Hk. rewrite Hsl by done. intros Hne. destruct (fo_slot _ _ _ B1 k Hk Hne) as [Hd Hus]. split; [done |].
    apply Hu; [| done]. rewrite mk_data in Hd. unfold FIRST in Hd. lia.
  - intros k k' Hk Hk'. rewrite !Hsl by done. by apply (fo_inj _ _ _ B1).
  - apply B1.
  - intros k Hk Hlt. pose proof (fo_size _ _ _ B1). rewrite Hf by (sizes; lia). by apply (fo_full _ _ _ B1).
  - intros k Hk. rewrite Hf by done. by apply B3.
  - intros o Ho. rewrite <- B5 by done. unfold fbyte. f_equal. assert (0 <= o / BSIZE < MAXFILE) as Hk by (sizes; dlia).
    unfold fblock. rewrite Hf by done. destruct (Z.eqb_spec (faddr W i (o / BSIZE)) 0) as [| Hne]; [done |].
    rewrite <- slot_faddr in * by done. apply Hs; [unfold in_slots; lia | done].
Qed.

(** ** All files *)

Record node := Node { nd_type : Z; nd_data : list Z }.

Definition nd_len (nd : node) : Z := Z.of_nat (length (nd_data nd)).

(** Inode [n] holds the file. *)
Record good (W : contents) (n : Z) (nd : node) : Prop := {
  gd_file : building W (dnode mk_sb W n) (nd_data nd);
  gd_size : isize (dnode mk_sb W n) = nd_len nd;
  gd_type : itype (dnode mk_sb W n) = nd_type nd;
  gd_link : nlink (dnode mk_sb W n) = 1 }.

(** The blocks of all files *)
Definition total (nodes : list node) : Z := foldr (λ nd t, need (nd_len nd) + t) 0 nodes.

(** No two files share a block. *)
Definition apart (W : contents) (nodes : list node) : Prop :=
  ∀ k k' j j', (k < length nodes)%nat → (k' < length nodes)%nat → k ≠ k' → in_slots j → in_slots j' →
    slot W (dnode mk_sb W (Z.of_nat k + 1)) j ≠ 0 →
    slot W (dnode mk_sb W (Z.of_nat k + 1)) j ≠ slot W (dnode mk_sb W (Z.of_nat k' + 1)) j'.

(** The image has the files [nodes], the inode numbers from 1 on; in front of the
    inodes are the superblock and the empty log. *)
Record fsrep (s : mkst) (W : contents) (nodes : list node) : Prop := {
  fr_ghost : ghost s W;
  fr_inodes : freeinode s = Z.of_nat (length nodes) + 1;
  fr_count : Z.of_nat (length nodes) < NINODES;
  fr_good : ∀ k nd, nodes !! k = Some nd → good W (Z.of_nat k + 1) nd;
  fr_apart : apart W nodes;
  fr_blocks : freeblock s = FIRST + total nodes;
  fr_front : ∀ c, 0 <= c < 32 → W c = if c =? 1 then sb_block else zero_block }.

(** A file whose inode and blocks are untouched stays as it is. *)
Lemma good_frame W W' n nd :
  good W n nd → dnode mk_sb W' n = dnode mk_sb W n →
  (∀ j, in_slots j → slot W (dnode mk_sb W n) j ≠ 0 → W' (slot W (dnode mk_sb W n) j) = W (slot W (dnode mk_sb W n) j)) →
  (∀ b, 0 <= b < FSSIZE → used mk_sb W b = true → used mk_sb W' b = true) →
  good W' n nd ∧ ∀ j, in_slots j → slot W' (dnode mk_sb W' n) j = slot W (dnode mk_sb W n) j.
Proof.
  intros [G1 G2 G3 G4] E Hs Hu. split; [constructor; rewrite E; try done; by apply (building_frame W) |].
  intros j Hj. rewrite E. by apply slot_frame.
Qed.

Lemma good_data W n nd j :
  good W n nd → in_slots j → let b := slot W (dnode mk_sb W n) j in b ≠ 0 → FIRST <= b < FSSIZE ∧ used mk_sb W b = true.
Proof. intros G Hj b Hne. destruct (fo_slot _ _ _ (bu_ok _ _ _ (gd_file _ _ _ G)) j Hj Hne) as [Hd Hu]. by rewrite mk_data in Hd. Qed.

Lemma total_nodes_app l1 l2 : total (l1 ++ l2) = total l1 + total l2.
Proof. induction l1 as [| nd l1 IH]; [done |]. cbn. fold (total (l1 ++ l2)) (total l1). lia. Qed.

Lemma total_insert nodes k nd nd' : nodes !! k = Some nd → total (<[k := nd']> nodes) = total nodes - need (nd_len nd) + need (nd_len nd').
Proof.
  intros H. rewrite <- (take_drop_middle nodes k nd H) at 2. rewrite insert_take_drop by (by eapply lookup_lt_Some).
  rewrite !total_nodes_app. cbn. lia.
Qed.

(** Writing an inode leaves the blocks of files alone, and the bitmap. *)
Lemma with_dinode_data W i c : 0 <= inum i < NINODES → FIRST <= c ∨ c = BMAP → with_dinode mk_sb W i c = W c.
Proof. intros Hi Hc. pose proof (mk_IBLOCK _ Hi). unfold with_dinode. apply fn_lookup_insert_ne. unfold FIRST, BMAP in *. lia. Qed.

Lemma with_dinode_used W i b : 0 <= inum i < NINODES → 0 <= b < FSSIZE → used mk_sb (with_dinode mk_sb W i) b = used mk_sb W b.
Proof. intros Hi Hb. unfold used. destruct (mk_BBLOCK b Hb) as [-> _]. rewrite with_dinode_data; auto. Qed.

(** A file with nothing in it *)
Lemma building_empty W i : idev i = ROOTDEV → isize i = 0 → addrs i = replicate 13 0 → building W i [].
Proof.
  intros H1 H2 H3. assert (emptied i = i) as E by (destruct i; unfold emptied; cbn in *; by subst).
  assert (∀ k, addr i k = 0) as Ha.
  { intros k. unfold addr, zget. rewrite H3. destruct (k <? 0); [done |]. destruct (replicate 13 0 !! _) eqn:E'; [| done]. by apply lookup_replicate in E' as [-> _]. }
  assert (∀ k, faddr W i k = 0) as Hf by (intros k; unfold faddr; rewrite !Ha; by destruct (k <? NDIRECT)).
  constructor.
  - rewrite <- E. by apply file_ok_emptied.
  - intros k. by rewrite Ha.
  - constructor; [intros k Hk; rewrite Hf; change (blocks_of (Z.of_nat (length []))) with 0; lia | by rewrite Ha].
  - intros o Ho. unfold fbyte, fblock. rewrite Hf. cbn [Z.eqb]. rewrite get_byte_zero. by rewrite get_byte_end by (cbn; lia).
Qed.

(** ** ialloc *)

Lemma ialloc_f s W nodes type :
  fsrep s W nodes → Z.of_nat (length nodes) + 1 < NINODES → 0 <= type < 2 ^ 15 →
  runs [] (ialloc type) s (λ n s', n = Z.of_nat (length nodes) + 1 ∧ ∃ W', fsrep s' W' (nodes ++ [Node type []])).
Proof.
  intros [Hg Hi Hc Hgood Hap Hb Hfront] Hroom Ht. set (n := Z.of_nat (length nodes) + 1) in *. unfold ialloc. rstep. rewrite Hi. rstep. cbv zeta.
  rewrite xshort_small, (xshort_small type), xint_small, u32_small by (unfold NINODES in *; lia). set (din := set_isize 0 _).
  assert (0 <= n < NINODES) as Hn by lia. assert (base_of n din) as Hbase by done.
  assert (inode_fits din) as Hfit.
  { constructor; try done; cbn; try lia. intros k. unfold addr, zget. destruct (k <? 0); [done |]. destruct (_ !! _) as [x |] eqn:E; [| done]. by apply lookup_replicate in E as [-> _]. }
  set (s1 := MkSt (image s) (freeinode s + 1) (freeblock s)). assert (ghost s1 W) as Hg1 by (destruct Hg; by constructor).
  eapply runs_bind; [by apply (winode_f s1 W n din) |]. cbv beta. intros _ s2 (Hg2 & Hfb & Hfi). apply runs_ret. split; [done |].
  exists (with_dinode mk_sb W din). set (W' := with_dinode mk_sb W din) in *.
  assert (inum din = n) as Ei by done. assert (∀ c, is_block (W c)) as Hblk by apply Hg.
  assert (dnode mk_sb W' n = din) as Ed by (apply dnode_written; [done | lia | done | done]).
  assert (∀ k nd, nodes !! k = Some nd → good W' (Z.of_nat k + 1) nd ∧
    ∀ j, in_slots j → slot W' (dnode mk_sb W' (Z.of_nat k + 1)) j = slot W (dnode mk_sb W (Z.of_nat k + 1)) j) as Hold.
  { intros k nd Hk. pose proof (lookup_lt_Some _ _ _ Hk). pose proof (Hgood k nd Hk) as G. apply good_frame; [done | | |].
    - apply dnode_other; rewrite ?Ei; [done | lia | done | lia | unfold n; lia].
    - intros j Hj Hne. destruct (good_data W _ nd j G Hj Hne) as [Hd _]. apply with_dinode_data; [rewrite Ei; lia | left; lia].
    - intros b Hbr Hu. unfold W'. by rewrite with_dinode_used by (rewrite ?Ei; done). }
  assert (∀ j, slot W' (dnode mk_sb W' n) j = 0) as Hnew by (intros j; rewrite Ed; apply (slot_emptied W' din)).
  constructor.
  - done.
  - rewrite Hfi. cbn. rewrite length_app. cbn. lia.
  - rewrite length_app. cbn. lia.
  - intros k nd Hk. apply lookup_app_Some in Hk as [Hk | [Hk Hk']]; [by apply Hold |]. apply list_lookup_singleton_Some in Hk' as [Hk' <-].
    replace (Z.of_nat k + 1) with n by (unfold n; lia). constructor; rewrite ?Ed; try done. by apply building_empty.
  - intros k k' j j' Hk Hk' Hne Hj Hj'. rewrite length_app in Hk, Hk'. cbn in Hk, Hk'.
    destruct (decide (k = length nodes)) as [-> | Hkn]; [fold n; rewrite Hnew; done |].
    destruct (lookup_lt_is_Some_2 nodes k) as [nd Hnd]; [lia |]. destruct (Hold k nd Hnd) as [_ ->]; [| done].
    destruct (decide (k' = length nodes)) as [-> | Hkn']; [fold n; rewrite Hnew; done |].
    destruct (lookup_lt_is_Some_2 nodes k') as [nd' Hnd']; [lia |]. destruct (Hold k' nd' Hnd') as [_ ->]; [| done]. apply Hap; lia || done.
  - rewrite Hfb. cbn [freeblock s1]. rewrite total_nodes_app. cbn. change (need (nd_len (Node type []))) with 0. lia.
  - intros c Hc'. rewrite <- Hfront by done. pose proof (mk_IBLOCK n Hn). unfold W', with_dinode. apply fn_lookup_insert_ne. rewrite Ei. lia.
Qed.

(** ** iappend *)

Lemma building_size W i data :
  building W i data → Z.of_nat (length data) <= MAXFILE * BSIZE → building W (set_isize (Z.of_nat (length data)) i) data.
Proof.
  intros [B1 B2 [B3 B4] B5] Hl. constructor; [| exact B2 | constructor; [exact B3 | exact B4] | exact B5]. destruct B1 as [F1 F2 F3 F4 F5 F6].
  constructor; [exact F1 | exact F2 | exact F3 | exact F4 | cbn [isize set_isize]; lia |].
  - intros k Hk Hlt. cbn [isize set_isize] in Hlt. apply (B3 k); sizes; dlia.
Qed.

(** The other files, when one has been written. *)
Lemma good_other s W i s' W' i1 i' d n nd :
  appended s W i s' W' i1 d → file_ok mk_sb W i → good W n nd → 0 <= n < NINODES → 0 <= inum i' < NINODES → n ≠ inum i' → inode_fits i' →
  (∀ j j', in_slots j → in_slots j' → slot W i j ≠ 0 → slot W i j ≠ slot W (dnode mk_sb W n) j') →
  let W2 := with_dinode mk_sb W' i' in
  good W2 n nd ∧ ∀ j, in_slots j → slot W2 (dnode mk_sb W2 n) j = slot W (dnode mk_sb W n) j.
Proof.
  intros [Hg Hst _ _ _] Hok G Hn Hi Hne Hfit Hap W2. pose proof (gh_block _ _ Hg) as Hblk.
  pose proof (mk_IBLOCK n Hn) as Hib. apply good_frame; [done | | |].
  - unfold W2. rewrite dnode_other by (try done; lia). unfold dnode. rewrite (st_frame _ _ _ _ _ Hst); [done | rewrite mk_bitmap; lia | |].
    + intros j Hj Hs. destruct (fo_slot _ _ _ Hok j Hj Hs) as [Hd _]. rewrite mk_data in Hd. unfold FIRST, BMAP in *. lia.
    + intros Hd. rewrite mk_data in Hd. unfold FIRST, BMAP in *. lia.
  - intros j Hj Hs. destruct (good_data W n nd j G Hj Hs) as [Hd Hu]. unfold W2. rewrite with_dinode_data by (done || (left; lia)).
    apply (st_frame _ _ _ _ _ Hst); [rewrite mk_bitmap; unfold FIRST, BMAP in *; lia | | done].
    intros j' Hj' Hs'. by apply Hap.
  - intros b Hb Hu. unfold W2. rewrite with_dinode_used by done. apply (st_used _ _ _ _ _ Hst); [by rewrite mk_size | done].
Qed.

Lemma set_isize_base n i z : base_of n i → base_of n (set_isize z i).
Proof. done. Qed.

Lemma step_base n W i W' i' : file_step mk_sb W i W' i' → base_of n i → base_of n i'.
Proof. intros [_ _ _ _ _ _ _ (E1 & E2 & E3 & E4 & E5 & _)]. unfold base_of. by rewrite E1, E2, E3, E4, E5. Qed.

Lemma step_fits W i W' i' z :
  file_step mk_sb W i W' i' → inode_fits i → addrs_fit i' → 0 <= z < 2 ^ 32 → inode_fits (set_isize z i').
Proof.
  intros [Hok _ _ _ _ _ _ (_ & _ & _ & _ & _ & Ht & Hm1 & Hm2 & Hl)] [F1 F2 F3 F4 F5 F6 F7] Ha Hz.
  constructor; cbn [itype major minor nlink isize addrs set_isize]; rewrite ?Ht, ?Hm1, ?Hm2, ?Hl; try done. apply (fo_len _ _ _ Hok).
Qed.

(** The files stay apart: the blocks a file got were free. *)
Lemma apart_written s W nodes k s1 W1 i1 d W2 :
  let n := Z.of_nat k + 1 in let i := dnode mk_sb W n in
  apart W nodes → (∀ k nd, nodes !! k = Some nd → good W (Z.of_nat k + 1) nd) → (k < length nodes)%nat →
  appended s W i s1 W1 i1 d → (∀ j, in_slots j → slot W2 (dnode mk_sb W2 n) j = slot W1 i1 j) →
  (∀ k' nd', k' ≠ k → nodes !! k' = Some nd' → good W2 (Z.of_nat k' + 1) nd' ∧
    ∀ j, in_slots j → slot W2 (dnode mk_sb W2 (Z.of_nat k' + 1)) j = slot W (dnode mk_sb W (Z.of_nat k' + 1)) j) →
  ∀ nd, apart W2 (<[k := nd]> nodes).
Proof.
  intros n i Hap Hgood Hlt Ha Hs2 Hold nd k1 k2 j j' H1 H2 Hne Hj Hj'. rewrite length_insert in H1, H2.
  destruct (lookup_lt_is_Some_2 nodes k1 H1) as [nd1 Hnd1], (lookup_lt_is_Some_2 nodes k2 H2) as [nd2 Hnd2].
  assert (∀ k' nd', k' ≠ k → nodes !! k' = Some nd' → ∀ l l', in_slots l → in_slots l' → slot W1 i1 l ≠ 0 →
    slot W1 i1 l ≠ slot W (dnode mk_sb W (Z.of_nat k' + 1)) l') as Hnew.
  { intros k' nd' Hne' Hk' l l' Hl1 Hl2 Hz E. destruct (st_slot _ _ _ _ _ (ap_step _ _ _ _ _ _ _ Ha) l Hl1 Hz) as [E' | Hu].
    - rewrite <- E' in *. revert E. apply (Hap k k'); [done | by eapply lookup_lt_Some | congruence | done | done | done].
    - rewrite E in *. destruct (good_data W _ nd' l' (Hgood k' nd' Hk') Hl2 Hz) as [_ Hu']. congruence. }
  destruct (decide (k1 = k)) as [-> | N1].
  - fold n. rewrite Hs2 by done. destruct (Hold k2 nd2 ltac:(congruence) Hnd2) as [_ ->]; [| done]. by apply (Hnew k2 nd2).
  - destruct (Hold k1 nd1 N1 Hnd1) as [_ ->]; [| done]. destruct (decide (k2 = k)) as [-> | N2].
    + fold n. rewrite Hs2 by done. intros Hz E. apply (Hnew k1 nd1 N1 Hnd1 j' j Hj' Hj); congruence.
    + destruct (Hold k2 nd2 N2 Hnd2) as [_ ->]; [| done]. by apply Hap.
Qed.

(** The inode of a file that has been written is written back. *)
Lemma node_written s W nodes k nd s1 W1 i1 data :
  let n := Z.of_nat k + 1 in let i := dnode mk_sb W n in
  fsrep s W nodes → nodes !! k = Some nd → Z.of_nat (length data) <= MAXFILE * BSIZE → building W1 i1 data →
  appended s W i s1 W1 i1 (need (Z.of_nat (length data)) - need (nd_len nd)) →
  runs [] (winode n (set_isize (Z.of_nat (length data)) i1)) s1 (λ _ s', ∃ W', fsrep s' W' (<[k := Node (nd_type nd) data]> nodes)).
Proof.
  intros n i [Hg Hi Hc Hgood Hap Hb Hfront] Hk Hl Hb1 Ha. pose proof (lookup_lt_Some _ _ _ Hk) as Hlt. pose proof (Hgood k nd Hk) as [G1 G2 G3 G4]. fold n i in G1, G2, G3, G4.
  assert (0 <= n < NINODES) as Hn by (unfold n; lia).
  set (i2 := set_isize (Z.of_nat (length data)) i1). pose proof (gh_block _ _ (ap_ghost _ _ _ _ _ _ _ Ha)) as Hblk.
  assert (base_of n i2) as Hbase by (eapply set_isize_base, step_base; [apply Ha | apply dnode_base]). pose proof Hbase as (_ & Ei & _).
  assert (inode_fits i2) as Hfit by (eapply step_fits; [apply Ha | apply dnode_fits, Hg | apply Hb1 | sizes; lia]).
  pose proof (building_size W1 i1 data Hb1 Hl) as Hb2. fold i2 in Hb2.
  eapply runs_conseq; [apply (winode_f s1 W1 n i2); [apply Ha | done | done | done] |]. cbv beta. intros _ s2 (Hg2 & Hfb & Hfi).
  exists (with_dinode mk_sb W1 i2). set (W2 := with_dinode mk_sb W1 i2) in *.
  assert (dnode mk_sb W2 n = i2) as Ed by (apply dnode_written; [done | lia | done | done]).
  assert (∀ j, in_slots j → slot W1 i2 j ≠ 0 → W2 (slot W1 i2 j) = W1 (slot W1 i2 j)) as Hsame.
  { intros j Hj Hne. destruct (fo_slot _ _ _ (bu_ok _ _ _ Hb2) j Hj Hne) as [Hd _]. rewrite mk_data in Hd. apply with_dinode_data; [lia | left; lia]. }
  assert (∀ k' nd', k' ≠ k → nodes !! k' = Some nd' → good W2 (Z.of_nat k' + 1) nd' ∧
    ∀ j, in_slots j → slot W2 (dnode mk_sb W2 (Z.of_nat k' + 1)) j = slot W (dnode mk_sb W (Z.of_nat k' + 1)) j) as Hold.
  { intros k' nd' Hne Hk'. pose proof (lookup_lt_Some _ _ _ Hk'). eapply good_other; [exact Ha | apply G1 | by apply Hgood | lia | lia | unfold n in *; lia | done |].
    intros j j' Hj Hj'. by apply (Hap k k'). }
  constructor.
  - done.
  - rewrite Hfi, (ap_inodes _ _ _ _ _ _ _ Ha). by rewrite length_insert.
  - by rewrite length_insert.
  - intros k' nd' Hk'. destruct (decide (k' = k)) as [-> | Hne]; [| rewrite list_lookup_insert_ne in Hk' by done; by apply Hold].
    rewrite list_lookup_insert_eq in Hk' by done. injection Hk' as <-. fold n.
    destruct (st_same _ _ _ _ _ (ap_step _ _ _ _ _ _ _ Ha)) as (_ & _ & _ & _ & _ & Et & _ & _ & Elk).
    constructor; rewrite ?Ed; cbn [nd_type nd_data nd_len]; [| done | by rewrite <- G3 | by rewrite <- G4].
    apply (building_frame W1); [done | done |]. intros b Hbr Hu. unfold W2. by rewrite with_dinode_used by (done || lia).
  - apply (apart_written s W nodes k s1 W1 i1 (need (Z.of_nat (length data)) - need (nd_len nd)) W2); try done. intros j Hj. fold n. rewrite Ed. by apply (slot_frame W1 W2 i2 j).
  - rewrite Hfb, (ap_free _ _ _ _ _ _ _ Ha), Hb. rewrite (total_insert nodes k nd) by done. change (nd_len (Node (nd_type nd) data)) with (Z.of_nat (length data)). lia.
  - intros c Hc'. pose proof (mk_IBLOCK n Hn). unfold W2, with_dinode. rewrite fn_lookup_insert_ne by (rewrite Ei; lia). rewrite <- Hfront by done.
    apply (st_frame _ _ _ _ _ (ap_step _ _ _ _ _ _ _ Ha)); [rewrite mk_bitmap; unfold BMAP; lia | |].
    + intros j Hj Hs. destruct (fo_slot _ _ _ (bu_ok _ _ _ G1) j Hj Hs) as [Hd _]. rewrite mk_data in Hd. unfold FIRST in *. lia.
    + intros Hd. rewrite mk_data in Hd. unfold FIRST in *. lia.
Qed.

Lemma iappend_f s W nodes k nd p :
  fsrep s W nodes → nodes !! k = Some nd → bytes p → nd_len nd + Z.of_nat (length p) <= MAXFILE * BSIZE →
  let nodes' := <[k := Node (nd_type nd) (nd_data nd ++ p)]> nodes in
  FIRST + total nodes' <= FSSIZE →
  runs [] (iappend (Z.of_nat k + 1) p) s (λ _ s', ∃ W', fsrep s' W' nodes').
Proof.
  intros H Hk Hp Hmax nodes' Hroom. pose proof (lookup_lt_Some _ _ _ Hk) as Hlt. pose proof (fr_good _ _ _ H k nd Hk) as [G1 G2 _ _]. pose proof (fr_count _ _ _ H).
  unfold nodes' in Hroom. rewrite (total_insert nodes k nd) in Hroom by done. pose proof (fr_blocks _ _ _ H) as Hb.
  assert (nd_len (Node (nd_type nd) (nd_data nd ++ p)) = nd_len nd + Z.of_nat (length p)) as El by (unfold nd_len; cbn [nd_data]; rewrite length_app; lia).
  rewrite El in Hroom. unfold iappend. eapply runs_bind; [apply (rinode_f s W); [apply H | lia] |]. cbv beta. intros i0 s0 [-> ->]. cbv zeta.
  rewrite G2, xint_small by (unfold nd_len in *; sizes; lia).
  eapply runs_bind; [apply (iappend_loop_f (length p) s W _ (nd_data nd) p (fr_ghost _ _ _ H) G1 Hp Hmax); unfold nd_len in *; lia |].
  cbv beta. intros r s1 (W1 & i1 & -> & Hb1 & Ha). change (Z.of_nat (length (nd_data nd))) with (nd_len nd) in *. rewrite <- El in *.
  rewrite xint_small by (unfold nd_len in *; sizes; lia). by apply (node_written s W nodes k nd s1 W1 i1).
Qed.
