(* ===== verification/MkfsRun.v ===== *)
(** * Running mkfs

    The empty image, adding the files one after the other, and rounding up the
    size of the root directory. *)

From S2P Require Import Prelude Abi Monad Riscv Mem Block Sleeplock Wp Store Fs FsAlloc FsFile FsRw FsInode FsIo FsTrunc FsDir FsPath FsDemo Mkfs MkfsSpec MkfsImage.

(** ** The empty image *)

Lemma sb_block_ok : is_block sb_block.
Proof.
  destruct (put32s_ok zero_block 0 8 (λ k, default 0 (zget
    [sb_magic mk_sb; sb_size mk_sb; sb_nblocks mk_sb; sb_ninodes mk_sb; sb_nlog mk_sb; sb_logstart mk_sb; sb_inodestart mk_sb; sb_bmapstart mk_sb] k)))
    as (H1 & _ & _ & H2); [lia | lia | destruct is_block_zero as [-> _]; change BSIZE with 1024; lia |].
  split; [unfold sb_block; rewrite H1; apply is_block_zero | apply H2, is_block_zero].
Qed.

Definition empty_view : contents := λ c, if c =? 1 then sb_block else if c =? BMAP then used_bits FIRST else zero_block.

Lemma empty_fsrep s :
  (∀ c, 0 <= c < FSSIZE → c ≠ 1 → image s !! c = Some zero_block) → (∀ c, ¬ (0 <= c < FSSIZE) → image s !! c = None) → image s !! 1 = Some sb_block → freeinode s = 1 → freeblock s = FIRST →
  fsrep s empty_view [].
Proof.
  intros H0 Hout H1 Hi Hb. constructor.
  - constructor.
    + intros c Hc Hne. unfold empty_view. destruct (Z.eqb_spec c 1) as [-> |]; [done |]. destruct (Z.eqb_spec c BMAP); [done |]. by apply H0.
    + done.
    + rewrite Hb. done.
    + intros c. unfold empty_view. destruct (c =? 1); [apply sb_block_ok |]. destruct (c =? BMAP); [| apply is_block_zero]. by apply used_bits_ok.
    + rewrite Hb. done.
    + intros c Hc. rewrite Hb in Hc. unfold empty_view, FIRST, BMAP in *. destruct (Z.eqb_spec c 1); [lia |]. destruct (Z.eqb_spec c 45); [lia | done].
  - by rewrite Hi.
  - done.
  - intros k nd Hk. done.
  - intros k k' j j' Hk. cbn in Hk. lia.
  - rewrite Hb. done.
  - intros c Hc. unfold empty_view, BMAP. destruct (Z.eqb_spec c 1); [done |]. destruct (Z.eqb_spec c 45); [lia | done].
Qed.

Lemma zero_loop s :
  runs [] (for_each (seqZ 0 FSSIZE) (λ i, wsect i zero_block)) s (λ _ s',
    (∀ c, 0 <= c < FSSIZE → image s' !! c = Some zero_block) ∧ (∀ c, ¬ (0 <= c < FSSIZE) → image s' !! c = image s !! c) ∧
    freeinode s' = freeinode s ∧ freeblock s' = freeblock s).
Proof.
  apply (runs_for_each _ _ _ (λ l s', (∀ c, 0 <= c < FSSIZE → c ∈ l ∨ image s' !! c = Some zero_block) ∧ (∀ c, c ∈ l → 0 <= c < FSSIZE) ∧
    (∀ c, ¬ (0 <= c < FSSIZE) → image s' !! c = image s !! c) ∧ freeinode s' = freeinode s ∧ freeblock s' = freeblock s)).
  - split; [intros c Hc; left; apply elem_of_seqZ; lia |]. split; [intros c Hc%elem_of_seqZ; lia | done].
  - intros a l s' (H1 & H2 & Hout & H3 & H4). apply runs_modify. assert (0 <= a < FSSIZE) as Ha by (apply H2; left).
    rewrite sector_small by done. cbn [image freeinode freeblock]. split; [| split; [intros c Hc; apply H2; by right | split; [| done]]].
    + intros c Hc. destruct (Z.eq_dec a c) as [<- | Hne]; [right; apply lookup_insert_eq |].
      rewrite lookup_insert_ne by done. destruct (H1 c Hc) as [Hin | ?]; [| by right]. apply elem_of_cons in Hin as [-> | ?]; [done | by left].
    + intros c Hc. rewrite lookup_insert_ne by (intros ->; done). by apply Hout.
  - intros s' (H1 & _ & Hout & H3 & H4). split; [| done]. intros c Hc. destruct (H1 c Hc) as [[]%not_elem_of_nil | ?]; done.
Qed.

(** ** A file *)

Lemma append_chunks chunks s W nodes k nd :
  fsrep s W nodes → nodes !! k = Some nd → Forall bytes chunks → nd_len nd + Z.of_nat (length (concat chunks)) <= MAXFILE * BSIZE →
  FIRST + total (<[k := Node (nd_type nd) (nd_data nd ++ concat chunks)]> nodes) <= FSSIZE →
  runs [] (for_each chunks (iappend (Z.of_nat k + 1))) s (λ _ s', ∃ W', fsrep s' W' (<[k := Node (nd_type nd) (nd_data nd ++ concat chunks)]> nodes)).
Proof.
  revert s W nodes nd. induction chunks as [| c chunks IH]; intros s W nodes nd H Hk Hb Hmax Hroom; cbn [for_each concat] in *.
  - apply runs_ret. exists W. rewrite app_nil_r. rewrite list_insert_id; [done |]. by destruct nd.
  - apply Forall_cons in Hb as [Hc Hb]. pose proof (lookup_lt_Some _ _ _ Hk) as Hlt. rewrite length_app in Hmax.
    set (nd1 := Node (nd_type nd) (nd_data nd ++ c)).
    assert (nd_len nd1 = nd_len nd + Z.of_nat (length c)) as El by (unfold nd_len, nd1; cbn [nd_data]; rewrite length_app; lia).
    eapply runs_bind; [apply (iappend_f s W nodes k nd c H Hk Hc); [lia |] |].
    + etransitivity; [| exact Hroom]. rewrite !(total_insert nodes k nd) by done. fold nd1. rewrite El.
      assert (need (nd_len nd + Z.of_nat (length c)) <= need (nd_len (Node (nd_type nd) (nd_data nd ++ c ++ concat chunks)))); [| lia].
      apply need_mono. unfold nd_len. cbn [nd_data]. rewrite !length_app. lia.
    + cbv beta. intros _ s1 (W1 & H1). fold nd1 in H1.
      assert (<[k := nd1]> nodes !! k = Some nd1) as Hk1 by (by apply list_lookup_insert_eq).
      specialize (IH s1 W1 (<[k := nd1]> nodes) nd1 H1 Hk1 Hb). rewrite list_insert_insert_eq in IH.
      assert (nd_type nd1 = nd_type nd ∧ nd_data nd1 = nd_data nd ++ c) as [Et Ed] by done. rewrite Et, Ed, <- app_assoc in IH. apply IH; [lia | done].
Qed.

(** The names mkfs gives *)
Definition shortname (a : list Z) : list Z := strip_underscore (strip_user a).

(** A file that can be added. *)
Record can_add (f : list Z * option (list (list Z))) (chunks : list (list Z)) : Prop := {
  ca_open : f.2 = Some chunks;
  ca_slash : SLASH ∉ strip_user f.1;
  ca_bytes : Forall bytes chunks;
  ca_name : bytes (shortname f.1);
  ca_max : Z.of_nat (length (concat chunks)) <= MAXFILE * BSIZE }.

Lemma mk_dirent_eq n name : 0 <= n < 2 ^ 16 → mk_dirent n name = dirent name n.
Proof. intros H. unfold mk_dirent, dirent. by rewrite xshort_small. Qed.

Lemma add_file_f s W root nodes f chunks :
  let n := Z.of_nat (length nodes) + 2 in
  let nodes' := Node (nd_type root) (nd_data root ++ dirent (shortname f.1) n) :: nodes ++ [Node T_FILE (concat chunks)] in
  fsrep s W (root :: nodes) → can_add f chunks → n < NINODES → nd_len root + DIRENT <= MAXFILE * BSIZE → FIRST + total nodes' <= FSSIZE →
  runs [] (add_file ROOTINO f) s (λ _ s', ∃ W', fsrep s' W' nodes').
Proof.
  intros n nodes' H [C1 C2 C3 C4 C5] Hn Hroot Hroom. unfold add_file. rewrite bool_decide_false by done. rewrite C1. fold (shortname f.1).
  eapply runs_bind; [apply (ialloc_f s W (root :: nodes)); [done | cbn [length]; lia | done] |]. cbv beta. intros m s1 (-> & W1 & H1).
  replace (Z.of_nat (length (root :: nodes)) + 1) with n by (cbn [length]; lia). cbn [app] in H1.
  set (root' := Node (nd_type root) (nd_data root ++ dirent (shortname f.1) n)) in *.
  assert (total (root' :: nodes ++ [Node T_FILE []]) <= total nodes') as Hle.
  { unfold nodes'. cbn [total foldr]. fold (total (nodes ++ [Node T_FILE []])) (total (nodes ++ [Node T_FILE (concat chunks)])). rewrite !total_nodes_app. cbn [total foldr].
    assert (need (nd_len (Node T_FILE [])) <= need (nd_len (Node T_FILE (concat chunks)))) by (apply need_mono; unfold nd_len; cbn [nd_data length]; lia). lia. }
  rewrite mk_dirent_eq by (unfold NINODES in *; lia). change ROOTINO with (Z.of_nat 0 + 1).
  eapply runs_bind; [apply (iappend_f s1 W1 (root :: nodes ++ [Node T_FILE []]) 0 root (dirent (shortname f.1) n) H1 eq_refl) |].
  - by apply bytes_dirent.
  - rewrite length_dirent. exact Hroot.
  - cbn [list_insert insert]. fold root'. lia.
  - cbv beta. intros _ s2 (W2 & H2). change (<[0%nat := ?x]> (root :: ?l)) with (x :: l) in H2. fold root' in H2.
    assert ((root' :: nodes ++ [Node T_FILE []]) !! S (length nodes) = Some (Node T_FILE [])) as Hk by (cbn; by apply list_lookup_middle).
    replace n with (Z.of_nat (S (length nodes)) + 1) by lia.
    assert (<[S (length nodes) := Node T_FILE (concat chunks)]> (root' :: nodes ++ [Node T_FILE []]) = nodes') as En.
    { change (<[S (length nodes) := ?x]> (root' :: ?l)) with (root' :: <[length nodes := x]> l). unfold nodes'. fold root'. f_equal.
      by rewrite insert_app_r_alt, Nat.sub_diag by lia. }
    pose proof (append_chunks chunks s2 W2 _ _ _ H2 Hk C3) as Hap. cbn [nd_type nd_data app] in Hap. rewrite En in Hap. apply Hap; [unfold nd_len; cbn [nd_data length]; lia | done].
Qed.

(** ** All files *)

(** The entries for the files, from inode [n] on. *)
Fixpoint numbered (n : Z) (names : list (list Z)) : list (list Z * Z) :=
  match names with
  | [] => []
  | a :: names => (a, n) :: numbered (n + 1) names
  end.

Definition dir_bytes (es : list (list Z * Z)) : list Z := concat (map (λ e, dirent e.1 e.2) es).

Definition file_node (chunks : list (list Z)) : node := Node T_FILE (concat chunks).

Abbreviation names_of := (map (λ f, shortname (fst f))).

Lemma length_dir_bytes es : Z.of_nat (length (dir_bytes es)) = DIRENT * Z.of_nat (length es).
Proof.
  unfold dir_bytes. induction es as [| e es IH]; [done |]. cbn [map concat length]. rewrite length_app, length_dirent. unfold DIRENT in *. lia.
Qed.

Lemma length_numbered n names : length (numbered n names) = length names.
Proof. revert n. induction names as [| a names IH]; intros n; cbn; [done |]. by rewrite IH. Qed.

Lemma need_nonneg n : 0 <= n → 0 <= need n.
Proof. intros H. apply (need_mono 0 n). lia. Qed.

Lemma total_nonneg nodes : 0 <= total nodes.
Proof.
  induction nodes as [| nd nodes IH]; [done |]. cbn [total foldr]. fold (total nodes). pose proof (need_nonneg (nd_len nd)). unfold nd_len in *. lia.
Qed.

(** The root directory has grown by [data], and there are more files. *)
Lemma total_grown ty data data' nodes more :
  total (Node ty data :: nodes) <= total (Node ty (data ++ data') :: nodes ++ more).
Proof.
  cbn [total foldr]. fold (total nodes) (total (nodes ++ more)). rewrite total_nodes_app. pose proof (total_nonneg more).
  assert (need (nd_len (Node ty data)) <= need (nd_len (Node ty (data ++ data')))); [| lia].
  apply need_mono. unfold nd_len. cbn [nd_data]. rewrite length_app. lia.
Qed.

Lemma add_files_f files chs s W ty data nodes :
  let n := Z.of_nat (length nodes) + 2 in
  let data' := data ++ dir_bytes (numbered n (names_of files)) in
  let nodes' := Node ty data' :: nodes ++ map file_node chs in
  fsrep s W (Node ty data :: nodes) → Forall2 can_add files chs → n + Z.of_nat (length files) <= NINODES →
  Z.of_nat (length data') <= MAXFILE * BSIZE → FIRST + total nodes' <= FSSIZE →
  runs [] (for_each files (add_file ROOTINO)) s (λ _ s', ∃ W', fsrep s' W' nodes').
Proof.
  intros n data' nodes' H Hadd. revert s W data nodes n data' nodes' H.
  induction Hadd as [| f chunks files chs Hf _ IH]; intros s W data nodes n data' nodes' H Hn Hmax Hroom; cbn [for_each].
  - apply runs_ret. exists W. unfold nodes', data'. cbn [map numbered dir_bytes concat]. by rewrite !app_nil_r.
  - set (data1 := data ++ dirent (shortname f.1) n). set (nodes1 := nodes ++ [file_node chunks]).
    assert (data' = data1 ++ dir_bytes (numbered (n + 1) (names_of files))) as Ed.
    { unfold data', data1, dir_bytes. cbn [map numbered concat fst snd]. by rewrite app_assoc. }
    assert (nodes ++ map file_node (chunks :: chs) = nodes1 ++ map file_node chs) as En.
    { unfold nodes1. by rewrite <- app_assoc. }
    unfold nodes' in Hroom. rewrite Ed, En in Hroom. cbn [length] in Hn.
    pose proof (total_grown ty data1 (dir_bytes (numbered (n + 1) (names_of files))) nodes1 (map file_node chs)) as Hle.
    eapply runs_bind; [apply (add_file_f s W (Node ty data) nodes f chunks H Hf) |].
    + fold n. lia.
    + rewrite Ed, length_app in Hmax. unfold data1 in Hmax. rewrite length_app, length_dirent in Hmax. unfold nd_len. cbn [nd_data]. unfold DIRENT in *. lia.
    + cbn [nd_type nd_data]. fold n data1. fold (file_node chunks). fold nodes1. lia.
    + cbv beta. intros _ s1 (W1 & H1). cbn [nd_type nd_data] in H1. fold n data1 (file_node chunks) nodes1 in H1.
      specialize (IH s1 W1 data1 nodes1 H1). assert (Z.of_nat (length nodes1) + 2 = n + 1) as E1 by (unfold nodes1, n; rewrite length_app; cbn; lia).
      rewrite E1, <- Ed, <- En in IH. apply IH; [lia | done |]. rewrite Ed, En. done.
Qed.

(** ** The root directory's size *)

Definition padding (n : Z) : list Z := replicate (Z.to_nat (BSIZE - n mod BSIZE)) 0.

Lemma padded_len data :
  let n := Z.of_nat (length data) in Z.of_nat (length (data ++ padding n)) = (n / BSIZE + 1) * BSIZE.
Proof. intros n. unfold padding. rewrite length_app, length_replicate. fold n. sizes. dlia. Qed.

(** If the last block is not full, rounding the size up changes no block. *)
Lemma blocks_padded n :
  0 <= n → n mod BSIZE ≠ 0 → blocks_of ((n / BSIZE + 1) * BSIZE) = blocks_of n ∧ ind_of ((n / BSIZE + 1) * BSIZE) = ind_of n.
Proof.
  intros Hn Hm. sizes. split; [dlia |]. destruct (Z.ltb_spec 12288 ((n / 1024 + 1) * 1024)), (Z.ltb_spec 12288 n); try done; dlia.
Qed.

Lemma get_byte_padding data n o : get_byte (data ++ padding n) o = get_byte data o.
Proof.
  destruct (Z_lt_ge_dec o 0) as [Hneg | H0]; [unfold get_byte, zget; by destruct (Z.ltb_spec o 0); [| lia] |].
  unfold get_byte, zget. destruct (Z.ltb_spec o 0); [lia |]. destruct (data !! Z.to_nat o) as [x |] eqn:E; [by rewrite (lookup_app_l_Some _ _ _ x) |].
  apply lookup_ge_None_1 in E. rewrite lookup_app_r by done. unfold padding. destruct (replicate _ 0 !! _) as [x |] eqn:E'; [| done].
  by apply lookup_replicate in E' as [-> _].
Qed.

Lemma fix_root_f s W ty data nodes :
  let n := Z.of_nat (length data) in
  fsrep s W (Node ty data :: nodes) → n mod BSIZE ≠ 0 → n < MAXFILE * BSIZE →
  runs [] (fix_root ROOTINO) s (λ _ s', ∃ W', fsrep s' W' (Node ty (data ++ padding n) :: nodes)).
Proof.
  intros n H Hm Hl. assert (0 <= n) as H0 by lia. destruct (blocks_padded n H0 Hm) as [Hbl Hin]. pose proof (padded_len data) as El. fold n in El.
  destruct (fr_good _ _ _ H 0%nat _ eq_refl) as [G1 G2 _ _]. cbn [nd_data] in G1. change (Z.of_nat 0 + 1) with ROOTINO in *. change (nd_len (Node ty data)) with n in G2.
  unfold fix_root. eapply runs_bind; [apply (rinode_f s W); [apply H | done] |]. cbv beta. intros i0 s0 [-> ->]. cbv zeta.
  rewrite G2. rewrite (xint_small n) by (sizes; lia). rewrite u32_small, xint_small by (sizes; dlia). rewrite <- El.
  apply (node_written s W (Node ty data :: nodes) 0 (Node ty data) s W (dnode mk_sb W ROOTINO) (data ++ padding n) H eq_refl).
  - rewrite El. sizes. dlia.
  - destruct G1 as [B1 B2 B3 B4]. constructor; [exact B1 | exact B2 | rewrite El, Hbl, Hin; exact B3 |].
    intros o Ho. rewrite get_byte_padding. by apply B4.
  - change (nd_len (Node ty data)) with n. unfold need. rewrite El, Hbl, Hin, Z.sub_diag.
    constructor; [apply H | apply file_step_refl; [apply G1 | by eapply ghost_meta, H] | done | lia | done].
Qed.

(** ** main *)

(** The entries of the root directory *)
Definition root_entries (names : list (list Z)) : list (list Z * Z) :=
  (NAME_DOT, ROOTINO) :: (NAME_DOTDOT, ROOTINO) :: numbered 2 names.

(** The files can be put into an image. *)
Record can_make (files : list (list Z * option (list (list Z)))) (chs : list (list (list Z))) : Prop := {
  cm_files : Forall2 can_add files chs;
  cm_inodes : Z.of_nat (length files) + 2 <= NINODES;
  cm_part : (DIRENT * (Z.of_nat (length files) + 2)) mod BSIZE ≠ 0;
  cm_room : FIRST + need (DIRENT * (Z.of_nat (length files) + 2)) + total (map file_node chs) <= FSSIZE }.

Lemma start_f s0 :
  (∀ c, image s0 !! c = None) → freeinode s0 = 1 →
  runs [] (modify (λ s, MkSt (image s) (freeinode s) nmeta) ;;
    for_each (seqZ 0 FSSIZE) (λ i, wsect i zero_block) ;; wsect 1 sb_block) s0 (λ _ s, fsrep s empty_view []).
Proof.
  intros H0 Hi. eapply runs_bind; [by apply (runs_modify _ _ _ (λ _ s, s = MkSt (image s0) (freeinode s0) FIRST)) |]. cbv beta. intros _ s1 ->.
  eapply runs_bind; [apply zero_loop |]. cbv beta. cbn [image freeinode freeblock]. intros _ s (H1 & H2 & H3 & H4). apply runs_modify. rewrite sector_small by done. apply empty_fsrep; cbn [image freeinode freeblock].
  - intros c Hc Hne. rewrite lookup_insert_ne by done. by apply H1.
  - intros c Hc. rewrite lookup_insert_ne by (intros <-; apply Hc; done). rewrite H2 by done. apply H0.
  - apply lookup_insert_eq.
  - by rewrite H3.
  - done.
Qed.

(** The bitmap is written last. *)
Lemma write_bitmap_f s W nodes :
  fsrep s W nodes → runs [] (balloc (freeblock s)) s (λ _ s', fsrep s' W nodes ∧ freeblock s' = freeblock s ∧
    ∀ c, image s' !! c = if bool_decide (0 <= c < FSSIZE) then Some (W c) else None).
Proof.
  intros H. pose proof (gh_free _ _ (fr_ghost _ _ _ H)) as Hf. change FSSIZE with 1000 in Hf. unfold balloc. change (BSIZE * 8) with 8192.
  destruct (Z.ltb_spec (freeblock s) 8192); [| lia]. cbn [negb]. change (sb_bmapstart mk_sb) with BMAP. apply runs_modify. rewrite sector_small by done.
  assert (∀ c, <[BMAP := used_bits (freeblock s)]> (image s) !! c = if bool_decide (0 <= c < FSSIZE) then Some (W c) else None) as E.
  { intros c. destruct (Z.eq_dec BMAP c) as [<- | Hne].
    - rewrite lookup_insert_eq, bool_decide_true by done. by rewrite (gh_bits _ _ (fr_ghost _ _ _ H)).
    - rewrite lookup_insert_ne by done. case_bool_decide; [apply (gh_image _ _ (fr_ghost _ _ _ H)); congruence | by apply (gh_out _ _ (fr_ghost _ _ _ H))]. }
  split; [| split; [done | exact E]]. destruct H as [[G1 G2 G3 G4 G5 G6] R2 R3 R4 R5 R6 R7]. constructor; try done. constructor; try done; cbn [image].
  - intros c Hc _. rewrite E. by rewrite bool_decide_true.
  - intros c Hc. rewrite E. by rewrite bool_decide_false.
Qed.

(** The first two entries *)
Lemma dots_f s W :
  fsrep s W [Node T_DIR []] →
  runs [] (iappend ROOTINO (dirent NAME_DOT ROOTINO) ;; iappend ROOTINO (dirent NAME_DOTDOT ROOTINO)) s
    (λ _ s', ∃ W', fsrep s' W' [Node T_DIR (dirent NAME_DOT ROOTINO ++ dirent NAME_DOTDOT ROOTINO)]).
Proof.
  intros H. change ROOTINO with (Z.of_nat 0 + 1) at 1 3.
  eapply runs_bind; [apply (iappend_f s W [Node T_DIR []] 0 (Node T_DIR []) (dirent NAME_DOT ROOTINO) H eq_refl) |]; [by apply bytes_dirent; repeat constructor | done | done |].
  cbv beta. intros _ s1 (W1 & H1). cbn [nd_type nd_data app] in H1.
  apply (iappend_f s1 W1 [Node T_DIR (dirent NAME_DOT ROOTINO)] 0 (Node T_DIR (dirent NAME_DOT ROOTINO)) (dirent NAME_DOTDOT ROOTINO) H1 eq_refl); [by apply bytes_dirent; repeat constructor | done | done].
Qed.

(** [main] makes the image of the files. *)
Lemma mkfs_f files chs :
  can_make files chs →
  runs [] (mkfs_main files) mkst0 (λ _ s', ∃ W, let data := dir_bytes (root_entries (names_of files)) in
    fsrep s' W (Node T_DIR (data ++ padding (Z.of_nat (length data))) :: map file_node chs) ∧
    ∀ c, image s' !! c = if bool_decide (0 <= c < FSSIZE) then Some (W c) else None).
Proof.
  intros [C1 C2 C3 C4]. set (dots := dirent NAME_DOT ROOTINO ++ dirent NAME_DOTDOT ROOTINO).
  set (data := dir_bytes (root_entries (names_of files))).
  assert (Z.of_nat (length data) = DIRENT * (Z.of_nat (length files) + 2)) as El.
  { unfold data. rewrite length_dir_bytes. cbn [root_entries length]. rewrite length_numbered, length_map. lia. }
  assert (data = dots ++ dir_bytes (numbered 2 (names_of files))) as Ed by (unfold dots; by rewrite <- app_assoc).
  assert (Z.of_nat (length data) < MAXFILE * BSIZE) as Hmax by (rewrite El; unfold NINODES, DIRENT in *; sizes; lia).
  assert (total [Node T_DIR dots] <= total (Node T_DIR data :: map file_node chs)) as Hle by (rewrite Ed; apply (total_grown T_DIR dots _ [])).
  assert (FIRST + total (Node T_DIR data :: map file_node chs) <= FSSIZE) as Hroom.
  { cbn [total foldr]. fold (total (map file_node chs)). unfold nd_len. cbn [nd_data]. rewrite El. lia. }
  unfold mkfs_main. change (negb (BSIZE mod DINODE =? 0) || negb (BSIZE mod DIRENT =? 0)) with false. cbv iota.
  eapply runs_seq3; [by apply start_f |]. cbv beta. intros _ s0 H0.
  eapply runs_bind; [by apply (ialloc_f s0 _ [] T_DIR H0) |]. cbv beta. intros r s1 (-> & W1 & H1). cbn [app length] in H1.
  change (Z.of_nat (length (@nil node)) + 1) with ROOTINO. rewrite Z.eqb_refl. cbn [negb].
  eapply runs_bind; [by apply (runs_ret _ _ _ (λ _ s, s = s1)) |]. cbv beta. intros _ s1' ->.
  rewrite !mk_dirent_eq by done.
  eapply runs_seq2; [by apply (dots_f s1 W1) |]. fold dots. cbv beta. intros _ s2 (W2 & H2).
  eapply runs_bind; [apply (add_files_f files chs s2 W2 T_DIR dots [] H2 C1) |]; change (Z.of_nat (length (@nil node)) + 2) with 2; cbn [app]; rewrite <- ?Ed; [lia | lia | done |].
  cbv beta. intros _ s3 (W3 & H3). eapply runs_bind; [apply (fix_root_f s3 W3 T_DIR data _ H3); [by rewrite El | done] |]. cbv beta. intros _ s4 (W4 & H4).
  rstep. eapply runs_conseq; [apply (write_bitmap_f s4 W4 _ H4) |]. cbv beta. intros _ s5 (H5 & _ & E). by exists W4.
Qed.
