(* ===== verification/MkfsProps.v ===== *)
(** * mkfs makes a file system

    [mkfs_main] as a whole: the image holds the files under their names, and has
    what the kernel's file system needs of a disk. *)

From S2P Require Import Prelude Abi Monad Riscv Mem Block Sleeplock Bio Wp Store Fs FsAlloc FsFile FsRw FsInode FsIo FsTrunc FsDir FsPath FsDemo.
From S2P Require Import Mkfs MkfsSpec MkfsImage MkfsRun.

(** ** What the kernel finds *)

(** The disk that is the image *)
Definition image_disk (s : mkst) : disk := Disk (image s) [].

(** A name that is stored as it is *)
Definition good_name (a : list Z) : Prop := 0 ∉ a ∧ Z.of_nat (length a) <= DIRSIZ.

Lemma cname_id a : 0 ∉ a → cname a = a.
Proof.
  induction a as [| c a IH]; intros H; [done |]. cbn. rewrite not_elem_of_cons in H. destruct H as [H1 H2]. destruct (Z.eqb_spec c 0); [congruence |]. by rewrite IH.
Qed.

(** The first entry with the name *)
Fixpoint entry_of (off : Z) (es : list (list Z * Z)) (name : list Z) : option (Z * Z) :=
  match es with
  | [] => None
  | e :: es => if bool_decide (e.1 = name) then Some (off, e.2) else entry_of (off + DIRENT) es name
  end.

Lemma dirent_at_middle pre e post : length e = Z.to_nat DIRENT → dirent_at (pre ++ e ++ post) (Z.of_nat (length pre)) = e.
Proof. intros H. unfold dirent_at, slice. rewrite Nat2Z.id, drop_app_length, <- H. apply take_app_length. Qed.

Lemma find_zeros p pre name :
  find_name p (pre ++ replicate (16 * p) 0) (Z.of_nat (length pre)) name = None.
Proof.
  revert pre. induction p as [| p IH]; intros pre; [done |]. cbn [find_name].
  replace (16 * S p)%nat with (16 + 16 * p)%nat by lia. rewrite replicate_add. rewrite dirent_at_middle by done.
  replace (ent_is (replicate 16 0) name) with false by done.
  specialize (IH (pre ++ replicate 16 0)). rewrite length_app, <- app_assoc in IH. rewrite <- IH. f_equal. rewrite length_replicate. unfold DIRENT. lia.
Qed.

Lemma find_entry es pre p name :
  Forall (λ e, good_name e.1 ∧ 0 < e.2 < 2 ^ 16) es →
  find_name (length es + p) (pre ++ dir_bytes es ++ replicate (16 * p) 0) (Z.of_nat (length pre)) name = entry_of (Z.of_nat (length pre)) es (cname name).
Proof.
  intros Hes. revert pre. induction Hes as [| e es [[H0 Hl] He] _ IH]; intros pre; [apply find_zeros |].
  cbn [length Nat.add find_name entry_of]. unfold dir_bytes. cbn [map concat]. fold (dir_bytes es). rewrite <- app_assoc.
  rewrite dirent_at_middle by apply length_dirent. destruct (ent_dirent e.1 e.2) as [E1 E2]; [lia | done |].
  unfold ent_is. rewrite E1, E2, (cname_id e.1) by done. destruct (Z.eqb_spec e.2 0); [lia |]. cbn [negb andb]. case_bool_decide; [done |].
  specialize (IH (pre ++ dirent e.1 e.2)). rewrite length_app, <- app_assoc, length_dirent in IH.
  rewrite Nat2Z.inj_add, Z2Nat.id in IH by done. exact IH.
Qed.

Lemma entry_of_range off es name o n : entry_of off es name = Some (o, n) → ∃ e, e ∈ es ∧ e.1 = name ∧ e.2 = n.
Proof.
  revert off. induction es as [| e es IH]; intros off; cbn; [done |]. case_bool_decide.
  - intros [= _ <-]. exists e. split; [left | done].
  - intros H'. destruct (IH _ H') as (e' & ? & ?). exists e'. split; [by right | done].
Qed.

Lemma entry_of_numbered n names k name off :
  NoDup names → names !! k = Some name → ∃ o, entry_of off (numbered n names) name = Some (o, n + Z.of_nat k).
Proof.
  intros Hnd. revert n k off. induction Hnd as [| a names Ha _ IH]; intros n k off Hk; [done |]. cbn [numbered entry_of fst snd].
  destruct k as [| k]; cbn in Hk.
  - injection Hk as ->. rewrite bool_decide_true by done. exists off. do 2 f_equal. lia.
  - rewrite bool_decide_false by (intros ->; by apply Ha, list_elem_of_lookup_2 with k).
    destruct (IH (n + 1) k (off + DIRENT) Hk) as [o ->]. exists o. do 2 f_equal. lia.
Qed.

Lemma numbered_in e n names : e ∈ numbered n names → e.1 ∈ names ∧ n <= e.2 < n + Z.of_nat (length names).
Proof.
  revert n. induction names as [| a names IH]; intros n; cbn [numbered length]; [by intros ?%not_elem_of_nil |].
  intros [-> | H]%elem_of_cons; cbn; [split; [left | lia] |]. destruct (IH _ H). split; [by right | lia].
Qed.

(** What is known of the contents of an image of the files, of which [chs] are
    the contents: the superblock, an empty log, a bitmap that has the blocks
    below [free] in use, and those are the blocks of the files; a tree with the
    root and the files in it, where each file is found under its name. *)
Record is_image (V : contents) (names : list (list Z)) (chs : list (list (list Z))) (free : Z) : Prop := {
  im_block : ∀ c, is_block (V c);
  im_super : super_of (V 1) = mk_sb;
  im_log : ∀ c, 2 <= c < 2 + nlog → V c = zero_block;
  im_used : ∀ b, 0 <= b < FSSIZE → used mk_sb V b = (b <? free);
  im_free : free = nmeta + need (DIRENT * (Z.of_nat (length chs) + 2)) + total (map file_node chs);
  im_meta : meta_used mk_sb V;
  im_tree : tree_ok mk_sb V (λ n, 1 <= n <= Z.of_nat (length chs) + 1);
  im_dots : walk mk_sb V ROOTINO [NAME_DOT] = Some ROOTINO ∧ walk mk_sb V ROOTINO [NAME_DOTDOT] = Some ROOTINO;
  im_files : ∀ n, 1 <= n <= Z.of_nat (length chs) + 1 → file_ok mk_sb V (dnode mk_sb V n);
  im_apart : ∀ n n' j j', 1 <= n <= Z.of_nat (length chs) + 1 → 1 <= n' <= Z.of_nat (length chs) + 1 → n ≠ n' →
    in_slots j → in_slots j' → slot V (dnode mk_sb V n) j ≠ 0 → slot V (dnode mk_sb V n) j ≠ slot V (dnode mk_sb V n') j';
  im_names : ∀ k name chunks, names !! k = Some name → chs !! k = Some chunks →
    let n := Z.of_nat k + 2 in
    walk mk_sb V ROOTINO [name] = Some n ∧ itype (dnode mk_sb V n) = T_FILE ∧ nlink (dnode mk_sb V n) = 1 ∧
    fcontent V (dnode mk_sb V n) = concat chunks }.

Lemma sb_block_super : super_of sb_block = mk_sb.
Proof. with_strategy transparent [zero_block] vm_compute. reflexivity. Qed.

Lemma fcontent_building W i data : building W i data → isize i = Z.of_nat (length data) → Z.of_nat (length data) <= MAXFILE * BSIZE → fcontent W i = data.
Proof.
  intros H Hs Hl. apply list_eq. intros k. destruct (decide (k < length data)%nat) as [Hk | Hk].
  - rewrite lookup_fcontent by lia. rewrite (bu_bytes _ _ _ H) by lia. unfold get_byte, zget. destruct (Z.ltb_spec (Z.of_nat k) 0); [lia |].
    rewrite Nat2Z.id. destruct (lookup_lt_is_Some_2 data k Hk) as [x ->]. done.
  - rewrite !lookup_ge_None_2; [done | lia | rewrite length_fcontent; lia].
Qed.

(** The files of the image, seen from the disk. *)
Lemma fsrep_ext s W V nodes :
  fsrep s W nodes → (∀ c, 0 <= c < FSSIZE → V c = W c) → (∀ c, is_block (V c)) → 
  (∀ k nd, nodes !! k = Some nd → good V (Z.of_nat k + 1) nd) ∧ apart V nodes ∧ ∀ b, 0 <= b < FSSIZE → used mk_sb V b = (b <? freeblock s).
Proof.
  intros H E Hblk. pose proof (fr_count _ _ _ H) as Hc.
  assert (∀ b, 0 <= b < FSSIZE → used mk_sb V b = used mk_sb W b) as Hu.
  { intros b Hb. unfold used. destruct (mk_BBLOCK b Hb) as [-> _]. by rewrite E. }
  assert (∀ k nd, nodes !! k = Some nd → good V (Z.of_nat k + 1) nd ∧
    ∀ j, in_slots j → slot V (dnode mk_sb V (Z.of_nat k + 1)) j = slot W (dnode mk_sb W (Z.of_nat k + 1)) j) as Hg.
  { intros k nd Hk. pose proof (lookup_lt_Some _ _ _ Hk). pose proof (fr_good _ _ _ H k nd Hk) as G. apply good_frame; [done | | |].
    - unfold dnode. rewrite E; [done |]. pose proof (mk_IBLOCK (Z.of_nat k + 1)). unfold NINODES, BMAP in *. change FSSIZE with 1000. lia.
    - intros j Hj Hne. destruct (good_data W _ nd j G Hj Hne) as [Hd _]. apply E. unfold FIRST in *. lia.
    - intros b Hb. by rewrite Hu. }
  split; [intros k nd Hk; by apply Hg |]. split; [| intros b Hb; rewrite Hu by done; by apply ghost_used, Hb; apply H].
  intros k k' j j' Hk Hk' Hne Hj Hj'. destruct (lookup_lt_is_Some_2 _ _ Hk) as [nd Hnd], (lookup_lt_is_Some_2 _ _ Hk') as [nd' Hnd'].
  destruct (Hg k nd Hnd) as [_ ->]; [| done]. destruct (Hg k' nd' Hnd') as [_ ->]; [| done]. by apply (fr_apart _ _ _ H).
Qed.

(** Looking a name up in the root directory *)
Lemma root_lookup es name :
  let data := dir_bytes es in
  Forall (λ e, good_name e.1 ∧ 0 < e.2 < 2 ^ 16) es →
  dir_lookup (data ++ padding (Z.of_nat (length data))) name = entry_of 0 es (cname name).
Proof.
  intros data Hes. pose proof (length_dir_bytes es) as El. fold data in El.
  set (p := Z.to_nat ((BSIZE - Z.of_nat (length data) mod BSIZE) / DIRENT)).
  assert (padding (Z.of_nat (length data)) = replicate (16 * p) 0) as Ep.
  { unfold padding. f_equal. unfold p. rewrite El. unfold DIRENT. sizes. dlia. }
  rewrite Ep. etransitivity; [| exact (find_entry es [] p name Hes)]. unfold dir_lookup. f_equal. unfold nents.
  rewrite length_app, length_replicate, Nat2Z.inj_add, El. unfold DIRENT. dlia.
Qed.

Lemma root_entries_ok names :
  Forall good_name names → Z.of_nat (length names) + 2 <= NINODES → Forall (λ e, good_name e.1 ∧ 0 < e.2 < 2 ^ 16) (root_entries names).
Proof.
  intros Hn Hl. assert (∀ a, 0 ∉ a ∧ Z.of_nat (length a) <= DIRSIZ → good_name a) as Hg by done.
  repeat constructor; cbn [fst snd]; try done; try (by repeat (apply not_elem_of_cons; split; [done |]); apply not_elem_of_nil).
  apply Forall_forall. intros e He. apply numbered_in in He as [He Hr]. split; [by apply (Forall_forall _ _) with e.1 in Hn |]. unfold NINODES in *. lia.
Qed.

Section image.
Context (s : mkst) (W V : contents) (names : list (list Z)) (chs : list (list (list Z))).
Let es := root_entries names.
Let nodes := Node T_DIR (dir_bytes es ++ padding (Z.of_nat (length (dir_bytes es)))) :: map file_node chs.
Context (Hrep : fsrep s W nodes) (HV : ∀ c, 0 <= c < FSSIZE → V c = W c) (Hblk : ∀ c, is_block (V c)).
Context (Hlen : length names = length chs) (Hnames : Forall good_name names) (Hnd : NoDup (NAME_DOT :: NAME_DOTDOT :: names)).
Context (Hin : Z.of_nat (length chs) + 2 <= NINODES) (Hmax : Forall (λ c, Z.of_nat (length (concat c)) <= MAXFILE * BSIZE) chs).
Context (Hpart : (DIRENT * (Z.of_nat (length chs) + 2)) mod BSIZE ≠ 0).

Lemma image_nodes n :
  1 <= n <= Z.of_nat (length chs) + 1 → ∃ nd, good V n nd ∧ nodes !! Z.to_nat (n - 1) = Some nd ∧ (nd_type nd = T_DIR → n = ROOTINO).
Proof.
  intros Hn. destruct (lookup_lt_is_Some_2 nodes (Z.to_nat (n - 1))) as [nd Hk]; [unfold nodes; cbn; rewrite length_map; lia |].
  exists nd. pose proof (proj1 (fsrep_ext s W V nodes Hrep HV Hblk) _ _ Hk) as G. replace (Z.of_nat (Z.to_nat (n - 1)) + 1) with n in G by lia.
  split; [done |]. split; [done |]. intros Ht. destruct (Z.to_nat (n - 1)) as [| m] eqn:E; [unfold ROOTINO; lia |].
  unfold nodes in Hk. cbn in Hk. apply list_lookup_fmap_Some in Hk as (c & -> & _). done.
Qed.

Lemma image_root : itype (dnode mk_sb V ROOTINO) = T_DIR ∧ (DIRENT | isize (dnode mk_sb V ROOTINO)) ∧
  ∀ name, dir_lookup (fcontent V (dnode mk_sb V ROOTINO)) name = entry_of 0 es (cname name).
Proof.
  destruct (image_nodes ROOTINO) as (nd & G & E & _); [unfold ROOTINO; lia |]. 
  change (nodes !! Z.to_nat (ROOTINO - 1)) with (Some (Node T_DIR (dir_bytes es ++ padding (Z.of_nat (length (dir_bytes es)))))) in E. apply (inj Some) in E. subst nd. destruct G as [G1 G2 G3 _].
  split; [done |]. assert (length es = (length chs + 2)%nat) as Ee by (unfold es; cbn [root_entries length]; rewrite length_numbered; lia).
  unfold nd_len in G2. cbn [nd_data] in G1, G2. split.
  - rewrite G2, padded_len. exists ((Z.of_nat (length (dir_bytes es)) / BSIZE + 1) * 64). unfold DIRENT. change BSIZE with 1024. lia.
  - intros name. rewrite (fcontent_building V _ _ G1 G2).
    + apply root_lookup, root_entries_ok; [done | lia].
    + rewrite padded_len, length_dir_bytes, Ee. unfold NINODES, DIRENT in *. sizes. dlia.
Qed.

Lemma image_walk name o n : entry_of 0 es name = Some (o, n) → 0 ∉ name → walk mk_sb V ROOTINO [name] = Some n.
Proof. intros E Hn. destruct image_root as (Ht & _ & Hl). cbn [walk]. rewrite Ht, Z.eqb_refl, Hl, cname_id, E by done. done. Qed.

Lemma image_tree : tree_ok mk_sb V (λ n, 1 <= n <= Z.of_nat (length chs) + 1).
Proof.
  assert (∀ n, 1 <= n <= Z.of_nat (length chs) + 1 → itype (dnode mk_sb V n) = T_DIR → n = ROOTINO) as Hdir.
  { intros n Hn. destruct (image_nodes n Hn) as (nd & [_ _ -> _] & _ & Hd). exact Hd. }
  destruct image_root as (_ & Hsz & Hl). constructor.
  - intros n Hn. change (sb_ninodes mk_sb) with NINODES. lia.
  - intros n Hn. destruct (image_nodes n Hn) as (nd & [_ _ -> _] & Hk & _). destruct (Z.to_nat (n - 1)) as [| m]; unfold nodes in Hk; cbn in Hk.
    + by injection Hk as <-.
    + by apply list_lookup_fmap_Some in Hk as (c & -> & _).
  - intros n Hn. by destruct (image_nodes n Hn) as (nd & [_ _ _ ->] & _).
  - intros n Hn Ht. pose proof (Hdir n Hn Ht) as ->. apply (file_ok_dir mk_sb); [| done]. destruct (image_nodes _ Hn) as (nd & [G _ _ _] & _). apply G.
  - intros n name off n' Hn Ht. rewrite (Hdir n Hn Ht), Hl. intros (e & He & _ & <-)%entry_of_range. unfold es, root_entries, ROOTINO in He.
    apply elem_of_cons in He as [-> | He]; [cbn; lia |]. apply elem_of_cons in He as [-> | He]; [cbn; lia |]. apply numbered_in in He. lia.
Qed.

Lemma image_apart n n' j j' :
  1 <= n <= Z.of_nat (length chs) + 1 → 1 <= n' <= Z.of_nat (length chs) + 1 → n ≠ n' →
  in_slots j → in_slots j' → slot V (dnode mk_sb V n) j ≠ 0 → slot V (dnode mk_sb V n) j ≠ slot V (dnode mk_sb V n') j'.
Proof.
  intros Hn Hn' Hne Hj Hj'. pose proof (proj1 (proj2 (fsrep_ext s W V nodes Hrep HV Hblk))) as Hap.
  specialize (Hap (Z.to_nat (n - 1)) (Z.to_nat (n' - 1)) j j'). replace (Z.of_nat (Z.to_nat (n - 1)) + 1) with n in Hap by lia.
  replace (Z.of_nat (Z.to_nat (n' - 1)) + 1) with n' in Hap by lia. assert (length nodes = S (length chs)) as E by (unfold nodes; cbn; by rewrite length_map).
  apply Hap; [lia | lia | lia | done | done].
Qed.

Lemma image_names k name chunks :
  names !! k = Some name → chs !! k = Some chunks →
  let n := Z.of_nat k + 2 in
  walk mk_sb V ROOTINO [name] = Some n ∧ itype (dnode mk_sb V n) = T_FILE ∧ nlink (dnode mk_sb V n) = 1 ∧
  fcontent V (dnode mk_sb V n) = concat chunks.
Proof.
  intros Hk Hc n. pose proof (lookup_lt_Some _ _ _ Hc). apply NoDup_cons in Hnd as [N1 Hnd']. apply NoDup_cons in Hnd' as [N2 Hnd'].
  pose proof (list_elem_of_lookup_2 _ _ _ Hk) as Hname. destruct (proj1 (Forall_forall _ _) Hnames name Hname) as [H0 _]. split.
  - destruct (entry_of_numbered 2 names k name (0 + DIRENT + DIRENT) Hnd' Hk) as [o Ho]. apply (image_walk name o); [| done].
    unfold es, root_entries. cbn [entry_of fst snd]. rewrite !bool_decide_false; [rewrite Ho; do 2 f_equal; lia | |].
    + intros E. apply N2. by rewrite E.
    + intros E. apply N1. right. by rewrite E.
  - destruct (image_nodes n) as (nd & [G1 G2 G3 G4] & E & _); [lia |]. replace (Z.to_nat (n - 1)) with (S k) in E by lia. unfold nodes in E. cbn in E.
    apply list_lookup_fmap_Some in E as (c & -> & Hc'). rewrite Hc in Hc'. injection Hc' as <-. split; [done |]. split; [done |]. apply fcontent_building; [done | done |].
    exact (proj1 (Forall_forall _ _) Hmax chunks (list_elem_of_lookup_2 _ _ _ Hc)).
Qed.

Lemma fsrep_image : is_image V names chs (freeblock s).
Proof.
  destruct (fsrep_ext s W V nodes Hrep HV Hblk) as (_ & _ & Hu). constructor.
  - done.
  - rewrite HV, (fr_front _ _ _ Hrep) by done. apply sb_block_super.
  - intros c Hc. change nlog with 30 in Hc. rewrite HV by (change FSSIZE with 1000; lia). rewrite (fr_front _ _ _ Hrep) by lia. by destruct (Z.eqb_spec c 1); [lia |].
  - done.
  - rewrite (fr_blocks _ _ _ Hrep), nmeta_eq. unfold nodes. cbn [total foldr]. fold (total (map file_node chs)). unfold nd_len. cbn [nd_data].
    rewrite padded_len, length_dir_bytes. replace (length es) with (length chs + 2)%nat by (unfold es; cbn [root_entries length]; rewrite length_numbered; lia).
    replace (Z.of_nat (length chs + 2)) with (Z.of_nat (length chs) + 2) by lia. unfold need.
    destruct (blocks_padded (DIRENT * (Z.of_nat (length chs) + 2))) as [-> ->]; [unfold DIRENT; lia | done |]. lia.
  - intros b Hb Hd. rewrite mk_size in Hb. rewrite mk_data in Hd. rewrite Hu by done. pose proof (gh_free _ _ (fr_ghost _ _ _ Hrep)). apply Z.ltb_lt. lia.
  - apply image_tree.
  - split; eapply image_walk; try reflexivity; by repeat (apply not_elem_of_cons; split; [done |]); apply not_elem_of_nil.
  - intros n Hn. destruct (image_nodes _ Hn) as (nd & [G _ _ _] & _). apply G.
  - intros n n' j j'. apply image_apart.
  - intros k name chunks. apply image_names.
Qed.
End image.

(** [main] runs to its end, no assertion failing, and makes an image of the
    files. *)
Lemma mkfs_image files chs :
  can_make files chs → Forall good_name (names_of files) → NoDup (NAME_DOT :: NAME_DOTDOT :: names_of files) →
  runs [] (mkfs_main files) mkst0 (λ _ s', is_image (dread (image_disk s')) (names_of files) chs (freeblock s')).
Proof.
  intros Hm Hg Hnd. pose proof Hm as [C1 C2 C3 _]. pose proof (Forall2_length _ _ _ C1) as El. eapply runs_conseq; [by apply (mkfs_f files chs) |].
  cbv beta zeta. intros _ s' (W & Hrep & E).
  assert (∀ c, dread (image_disk s') c = if bool_decide (0 <= c < FSSIZE) then W c else zero_block) as EV.
  { intros c. unfold dread, image_disk. cbn [blocks]. rewrite E. by case_bool_decide. }
  rewrite El in C2, C3. eapply (fsrep_image s' W); try done.
  - intros c Hc. rewrite EV. by rewrite bool_decide_true.
  - intros c. rewrite EV. case_bool_decide; [apply Hrep | apply is_block_zero].
  - by rewrite length_map.
  - clear - C1. induction C1 as [| f c files chs [] _ IH]; by constructor.
Qed.
