(* ===== verification/MkfsBoot.v ===== *)
(** * From mkfs to a file that is read

    The kernel boots from an image of mkfs, finds the files under their names and
    reads their contents: mkfs.c, bio.c, log.c and fs.c agree on what is on the
    disk. *)

From S2P Require Import Prelude Abi Monad Riscv Mem Block Sleeplock Bio BioInv Log LogDisk LogCrash LogTxn Kalloc Proc ProcMem Wp Store LogStore.
From S2P Require Import Fs FsAlloc FsFile FsRw FsInode FsIo FsTrunc FsTable FsDir FsPath FsBoot Mkfs MkfsSpec MkfsImage MkfsRun MkfsProps.

Section boot.
Context {M : Type} `{HM : MemoryLaws M}.
Context (mypid de : Z) (Hde : 0 <= de ∧ de + DIRENT <= 2 ^ 64).
#[local] Instance log_blocks : BlockStore lstate := log_store mypid.
Implicit Types (s : fstate lstate M) (V : contents).

(** What the kernel does with the file system when it boots: [main], [userinit]'s
    [namei("/")], [forkret]'s [fsinit], and [exec]'s [begin_op]. *)
Definition boot : K (fstate lstate M) (option Z) :=
  lift blkL (lift bcL binit) ;;
  iinit ;;
  cwd <- namei mypid de 0 [SLASH] ;;
  fsinit ROOTDEV ;;
  lift blkL begin_op ;;
  ret cwd.

(** ... and with the first file: [namei], [ilock] and [readi] as in [exec]. *)
Definition boot_read (path : list Z) (dst n : Z) : K (fstate lstate M) (option Z) :=
  cwd <- boot ;;
  ip <- namei mypid de (default 0 cwd) path ;;
  match ip with
  | None => ret None
  | Some ip =>
      ilock mypid ip ;;
      r <- readi ip false dst 0 n ;;
      ret (Some r)
  end.

(** Memory as it is at power on; [sb] and [m] are arbitrary. *)
Definition power_on (sb : superblock) (d : disk) (m : M) : fstate lstate M :=
  FState sb (replicate (Z.to_nat NINODE) inode0) (LState log0 (bcache0 d)) m.

Lemma geti_empty s k : itable s = replicate (Z.to_nat NINODE) inode0 → geti s k = inode0.
Proof.
  intros H. unfold geti, zget. rewrite H. destruct (k <? 0); [done |]. destruct (_ !! _) as [x |] eqn:E; [| done]. by apply lookup_replicate in E as [-> _].
Qed.

Lemma itable_empty s : itable s = replicate (Z.to_nat NINODE) inode0 → itable_ok s.
Proof. intros H. constructor; intros k; [by rewrite geti_empty |]. intros k' _ _. rewrite geti_empty by done. cbn. lia. Qed.

Lemma iinit_f s : itable s = replicate (Z.to_nat NINODE) inode0 → runs [] iinit s (λ _ s', s' = s).
Proof.
  intros Hs. apply (runs_for_each _ _ _ (λ _ s', s' = s)); [done | | done]. intros i l s' ->. apply runs_modify.
  rewrite geti_empty by done. change (set_ilk initsleeplock inode0) with inode0. destruct s as [sb it b m]. unfold seti. cbn [fsb itable blk kmem] in *. f_equal. subst it.
  unfold zset. destruct (i <? 0); [done |]. apply list_eq. intros j. destruct (decide (Z.to_nat i = j)) as [<- | Hne]; [| by rewrite list_lookup_insert_ne].
  destruct (decide (Z.to_nat i < length (replicate (Z.to_nat NINODE) inode0))%nat) as [Hlt | Hge].
  - rewrite list_lookup_insert_eq by done. symmetry. apply lookup_replicate. rewrite length_replicate in Hlt. done.
  - rewrite !lookup_ge_None_2; [done | lia | rewrite length_insert; lia].
Qed.

(** The walk of [/] is [iget] of the root. *)
Lemma namei_root s (Q : option Z → fstate lstate M → Prop) :
  runs [] (iget ROOTDEV ROOTINO) s (λ ip s', Q (Some ip) s') → runs [] (namei mypid de 0 [SLASH]) s Q.
Proof.
  intros H. unfold namei, namex. rewrite Z.eqb_refl. apply runs_flat. eapply runs_bind; [exact H |]. cbv beta. intros ip s' HQ.
  cbn [length namex_loop]. change (skipelem [SLASH]) with (@None (list Z * list Z)). cbv iota. apply runs_ret_bind, runs_ret. exact HQ.
Qed.

(** The empty log of an image needs no recovery. *)
Lemma image_log V names chs free : is_image V names chs free → log_valid 2 V ∧ ∀ x, recovered 2 V x = V x.
Proof.
  intros H. assert (V 2 = zero_block) as E2 by (by apply (im_log _ _ _ _ H)).
  assert (hdr_n (V 2) = 0) as E0 by (rewrite E2; with_strategy transparent [zero_block] vm_compute; reflexivity).
  assert (recover_writes 2 V = []) as Er by (unfold recover_writes; by rewrite E0).
  split; [split; rewrite E0; [done | lia] |]. intros x. unfold recovered. rewrite Er. cbn [overlay app fst snd].
  destruct (Z.eqb_spec x 2) as [-> |]; [| done]. rewrite E2. with_strategy transparent [zero_block] vm_compute. reflexivity.
Qed.

(** The state before the first path is walked: [cwd] is the root. *)
Record at_root V (P : Z → Prop) (D : disk) s (cwd : Z) : Prop := {
  ar_rep : @bs_rep _ _ (log_store_laws mypid 2 30 D 1) (blk s) V ∅ ∅;
  ar_sb : fsb s = mk_sb;
  ar_tbl : tbl V P s;
  ar_un : unlocked s;
  ar_in : in_table s cwd;
  ar_ref : 0 < iref (geti s cwd);
  ar_total : tsum iref s = 1;
  ar_spare : 2 <= tsum spare s }.

Lemma log_bufs D : (base.size (∅ : gset Z) < @bs_bufs _ _ (log_store_laws mypid 2 30 D 1))%nat.
Proof. rewrite size_empty. apply Nat.ltb_lt. reflexivity. Qed.

(** An empty table with the root added *)
Lemma root_added V P D sb (b0 : lstate) (m0 : M) (b : lstate) (m : M) ip i :
  let it := replicate (Z.to_nat NINODE) inode0 in
  got (FState sb it b0 m0) ROOTDEV ROOTINO ip i → P ROOTINO → tree_ok mk_sb V P →
  @bs_rep _ _ (log_store_laws mypid 2 30 D 1) b V ∅ ∅ → at_root V P D (seti ip i (FState mk_sb it b m)) ip.
Proof.
  intros it Hg HP Ht Hb. set (s := FState mk_sb it b m).
  assert (got s ROOTDEV ROOTINO ip i) as Hg' by (destruct Hg; by constructor).
  assert (∀ k, geti s k = inode0) as H0 by (intros k; by apply geti_empty).
  assert (tbl V P s) as Htbl.
  { constructor; [by apply itable_empty |]. intros k _. rewrite H0. cbn. lia. }
  assert (unlocked s) as Hun by (intros k _; by rewrite H0).
  destruct (got_started (HB := log_store_laws mypid 2 30 D 1) V ∅ (log_bufs D) P s Hb Ht Htbl Hun ltac:(done) ROOTINO ip i Hg' HP) as [[A1 A2 A3 A4 A5] B2 _ _ B5 B6 _].
  constructor; try done. unfold spares in B6. change (tsum spare s) with 50 in B6. unfold one in B6. destruct (_ =? 1); lia.
Qed.

(** The kernel is up. *)
Lemma boot_f sb0 d m names chs free :
  let V := dread d in is_image V names chs free →
  runs [] boot (power_on sb0 d m) (λ r s', ∃ D cwd, r = Some cwd ∧ at_root V (λ n, 1 <= n <= Z.of_nat (length chs) + 1) D s' cwd).
Proof.
  intros V Him. pose proof (im_super _ _ _ _ Him) as Hsb. destruct (image_log _ _ _ _ Him) as [Hlv Hrec]. unfold boot.
  eapply runs_bind; [apply (binit_f (power_on sb0 d m) d); [apply Him | done] |]. cbv beta. intros _ s1 (c1 & -> & H1).
  eapply runs_bind; [by apply iinit_f |]. cbv beta. intros _ s2 ->. set (s2 := with_blk _ _).
  eapply (runs_bind _ _ _ _ (λ r s', ∃ ip i, r = Some ip ∧ s' = seti ip i s2 ∧ got s2 ROOTDEV ROOTINO ip i)).
  { apply namei_root. eapply runs_conseq; [apply iget_f; [by apply itable_empty | left; by exists 0] |]. intros ip s' (i & -> & Hg). by exists ip, i. }
  intros r s3 (ip & i & -> & -> & Hg).
  eapply runs_bind; [apply (fsinit_f mypid (seti ip i s2) V); cbn [seti blk s2 with_blk bc]; [done | done | by rewrite Hsb | by rewrite Hsb] |].
  cbv beta. rewrite Hsb. intros _ s4 (bl & c & -> & Hbl & Hc). 
  eapply (runs_bind _ _ _ _ (λ _ s', ∃ b, s' = FState mk_sb (itable (seti ip i s2)) b (kmem s2) ∧ @bs_rep _ _ (log_store_laws mypid 2 30 (dsk c) 1) b V ∅ ∅)).
  - apply runs_lift. eapply runs_conseq; [apply (begin_f mypid _ c V); try done |].
    + constructor; [apply Hc | apply Hc |]. intros x. rewrite <- Hrec. apply Hc.
    + cbv beta. intros _ b Hb. exists b. split; [done | exact Hb].
  - intros _ s4 (b & -> & Hb). apply runs_ret. exists (dsk c), ip. split; [done |].
    apply (root_added V _ _ sb0 (blk s2) (kmem s2)); [done | unfold ROOTINO; lia | apply Him | exact Hb].
Qed.

(** The names of files are paths of one element. *)
Lemma path_elems_name name : name ≠ [] → SLASH ∉ name → Z.of_nat (length name) <= DIRSIZ → path_elems (SLASH :: name) = [name].
Proof.
  intros Hne Hs Hl. assert (∀ l, SLASH ∉ l → pieces l = [l]) as Hp.
  { induction l as [| c l IH]; intros H; [done |]. apply not_elem_of_cons in H as [H1 H2]. cbn [pieces].
    destruct (Z.eqb_spec c SLASH); [congruence |]. by rewrite IH. }
  unfold path_elems. cbn [pieces]. rewrite Z.eqb_refl, Hp by done. destruct name as [| c name]; [done |]. cbn [List.filter is_nil negb map].
  by rewrite take_ge by lia.
Qed.

(** A file is read that the kernel has found. *)
Lemma read_node V D P s ip n data dst :
  let laws := log_store_laws mypid 2 30 D 1 in
  at_node (HB := laws) V ∅ P s ip → unlocked s → inum (geti s ip) = n →
  file_ok (fsb s) V (dnode (fsb s) V n) → fcontent V (dnode (fsb s) V n) = data →
  0 <= dst < 2 ^ 64 → dst + Z.of_nat (length data) <= 2 ^ 64 →
  runs [] (ilock mypid ip ;; r <- readi ip false dst 0 (Z.of_nat (length data)) ;; ret (Some r)) s
    (λ r s', r = Some (Z.of_nat (length data)) ∧ at_mem dst data (kmem s')).
Proof.
  intros laws Ha Hun En Hok Hd Hdst Hfit. eapply runs_bind; [by apply (ilock_node (HB := laws) mypid V ∅ (log_bufs D) P s ip Ha Hun) |].
  cbv beta. intros _ s1 (Ha1 & Hh & Hsame & _).
  pose proof (sr_sb _ _ Hsame) as Hsb. destruct (sr_id _ _ Hsame ip) as (_ & En1 & _). rewrite En in En1.
  pose proof (nh_copy _ _ _ _ Hh) as Hcopy. rewrite En1, Hsb in Hcopy.
  destruct (tb_ent _ _ _ (an_tbl _ _ _ _ _ Ha1) ip (an_in _ _ _ _ _ Ha1) (an_ref _ _ _ _ _ Ha1)) as [Hdev _ _].
  assert (file_ok (fsb s) V (geti s1 ip)) as Hok1 by (by apply (file_ok_on_disk _ _ (dnode (fsb s) V n))).
  assert (fcontent V (geti s1 ip) = data) as Hd1 by (by rewrite (fcontent_on_disk V _ _ Hcopy)).
  pose proof (fo_size _ _ _ Hok1) as Hsz. assert (isize (geti s1 ip) = Z.of_nat (length data)) as Esz by (rewrite <- Hd1, length_fcontent; lia).
  eapply runs_bind; [apply (readi_f (HB := laws) s1 V ∅ ip false dst (at_mem dst) 0 (Z.of_nat (length data)) (an_rep _ _ _ _ _ Ha1) (log_bufs D)) |].
  - done.
  - done.
  - apply Hok1.
  - done.
  - lia.
  - lia.
  - rewrite <- Esz. sizes. lia.
  - apply sink_mem. rewrite Esz. lia.
  - intros k x Hx. by rewrite lookup_nil in Hx.
  - cbv beta. rewrite Esz, Z.sub_0_r, Z.min_id, Nat2Z.id. intros r s2 (-> & b & m' & -> & _ & HJ). apply runs_ret. split; [done |].
    cbn [kmem with_mem]. rewrite fslice_content in HJ by lia. rewrite Hd1, drop_0, take_ge in HJ by lia. exact HJ.
Qed.

Lemma boot_read_f sb0 d m names chs free k name chunks dst :
  is_image (dread d) names chs free → names !! k = Some name → chs !! k = Some chunks →
  name ≠ [] → SLASH ∉ name → bytes name → Z.of_nat (length name) <= DIRSIZ →
  0 <= dst < 2 ^ 64 → dst + Z.of_nat (length (concat chunks)) <= 2 ^ 64 →
  runs [] (boot_read (SLASH :: name) dst (Z.of_nat (length (concat chunks)))) (power_on sb0 d m)
    (λ r s', r = Some (Z.of_nat (length (concat chunks))) ∧ at_mem dst (concat chunks) (kmem s')).
Proof.
  intros Him Hk Hc Hne Hs Hb Hl Hdst Hfit. set (V := dread d). set (P := λ n, 1 <= n <= Z.of_nat (length chs) + 1).
  pose proof (lookup_lt_Some _ _ _ Hc) as Hlt. destruct (im_names _ _ _ _ Him k name chunks Hk Hc) as (Hw & _ & _ & Hd). fold V in Hw, Hd.
  unfold boot_read. eapply runs_bind; [by apply (boot_f sb0 d m names chs free) |]. cbv beta. intros r s (D & cwd & -> & [A1 A2 A3 A4 A5 A6 A7 A8]). cbn [default from_option id].
  assert (tree_ok (fsb s) V P) as Ht by (rewrite A2; apply Him).
  eapply runs_bind; [apply (namei_f (HB := log_store_laws mypid 2 30 D 1) mypid de Hde V ∅ (log_bufs D) P s A1 Ht A3 A4 ltac:(rewrite A7; done) cwd (SLASH :: name)) |]; try done.
  - unfold P, ROOTINO. lia.
  - by constructor.
  - cbv beta. unfold walk_start. rewrite Z.eqb_refl, path_elems_name, A2, Hw by done. intros r s1 (Hsb & Hr & Htb & Hu & ip & -> & Hin & Hp & Hn & _). cbv iota.
    apply (read_node V D P s1 ip (Z.of_nat k + 2)); try done; rewrite ?Hsb, ?A2; try done.
    + constructor; try done. rewrite Hsb. apply Him.
    + apply (im_files _ _ _ _ Him). lia.
Qed.

(** C2: what mkfs writes is what the kernel reads.  If the files given to mkfs can
    be opened, have different names of at most 14 characters once a leading user/
    and an underscore are taken off, and fit, and if the entries of the root
    directory do not fill its last block exactly (its size would be rounded up
    into a block that it does not have), then [main] of mkfs runs to its end,
    no assertion failing, and leaves the image of a file system: a superblock,
    an empty log, a bitmap that marks exactly the metadata and the blocks of the
    files, no block in two files, and a tree of the root and the files.  A kernel
    that boots from that disk finds each file under its name in the root
    directory, and [readi] of it gives the bytes of the file. *)
Theorem mkfs_boots files chs :
  can_make files chs → Forall good_name (names_of files) → NoDup (NAME_DOT :: NAME_DOTDOT :: names_of files) →
  runs [] (mkfs_main files) mkst0 (λ _ img,
    is_image (dread (image_disk img)) (names_of files) chs (freeblock img) ∧
    ∀ sb0 m k f chunks dst, files !! k = Some f → chs !! k = Some chunks → shortname f.1 ≠ [] →
      let data := concat chunks in 0 <= dst < 2 ^ 64 → dst + Z.of_nat (length data) <= 2 ^ 64 →
      runs [] (boot_read (SLASH :: shortname f.1) dst (Z.of_nat (length data))) (power_on sb0 (image_disk img) m)
        (λ r s, r = Some (Z.of_nat (length data)) ∧ at_mem dst data (kmem s))).
Proof.
  intros Hm Hg Hnd. eapply runs_conseq; [by apply (mkfs_image files chs) |]. cbv beta. intros _ img Him. split; [done |].
  intros sb0 m k f chunks dst Hf Hc Hne data Hdst Hfit. destruct Hm as [C1 _ _ _]. destruct (Forall2_lookup_lr _ _ _ _ _ _ C1 Hf Hc) as [F1 F2 F3 F4 F5].
  assert (names_of files !! k = Some (shortname f.1)) as Hk by (apply list_lookup_fmap_Some; by exists f).
  apply (boot_read_f sb0 _ m (names_of files) chs (freeblock img) k); try done.
  - intros Hin. apply F2. unfold shortname, strip_underscore in Hin. destruct (strip_user f.1) as [| c l]; [done |]. destruct (c =? UNDERSCORE); [by right | done].
  - apply (proj1 (Forall_forall _ _) Hg), list_elem_of_lookup_2 with k. done.
Qed.
End boot.

(** *** Witness: an image with two files *)

(** user/_cat and README *)
Definition two_files : list (list Z * option (list (list Z))) :=
  [([117; 115; 101; 114; 47; 95; 99; 97; 116], Some [[1; 2; 3]; [4]]); ([82; 69; 65; 68; 77; 69], Some [[104; 105]])].

Definition two_contents : list (list (list Z)) := [[[1; 2; 3]; [4]]; [[104; 105]]].

Lemma two_files_ok : can_make two_files two_contents.
Proof.
  constructor; [| done | done | done]. unfold two_files, two_contents.
  repeat (apply Forall2_cons; split; [constructor; [done |..]; unfold bytes; apply (bool_decide_unpack _); vm_compute; exact I |]). apply Forall2_nil_2.
Qed.

(** The kernel reads /cat. *)
Lemma mkfs_boots_witness :
  runs [] (mkfs_main two_files) mkst0 (λ _ img,
    runs [] (@boot_read _ (proc_memory 0) 4 8192 [SLASH; 99; 97; 116] 16384 4) (power_on mk_sb (image_disk img) (procs0 (PMem ∅ 0)))
      (λ r s, r = Some 4 ∧ @at_mem _ (proc_memory 0) (proc_memory_laws 0) 16384 [1; 2; 3; 4] (kmem s))).
Proof.
  eapply runs_conseq; [apply (@mkfs_boots _ (proc_memory 0) (proc_memory_laws 0) 4 8192 ltac:(done) two_files two_contents) |].
  - apply two_files_ok.
  - repeat constructor; cbn; try done; apply (bool_decide_unpack _); vm_compute; done.
  - apply (bool_decide_unpack _). vm_compute. done.
  - intros _ img [_ H]. exact (H mk_sb (procs0 (PMem ∅ 0)) 0%nat _ _ 16384 eq_refl eq_refl ltac:(done) ltac:(done) ltac:(done)).
Defined.
