(* ===== verification/Printf.v ===== *)
(** * Formatted output (kernel/printf.c and user/printf.c)

    Both print functions hand their characters one after the other to a
    function that outputs one character; here they are the list of these
    characters. *)

From S2P Require Import Prelude.

(** [digits[d]], in lower case in the kernel and upper case in user programs *)
Definition lower : bool := false.
Definition upper : bool := true.

Definition digit (up : bool) (d : Z) : Z :=
  if d <? 10 then 48 + d else (if up : bool then 65 else 97) + (d - 10).

(** [do { buf[i++] = digits[x % base]; } while((x /= base) != 0)]: the digits of
    [x], least significant first.  32 turns are enough for 32 bits. *)
Fixpoint digits_loop (fuel : nat) (up : bool) (x base : Z) : list Z :=
  match fuel with
  | O => []
  | S f =>
      let x' := x / base in
      digit up (x mod base) :: (if negb (x' =? 0) then digits_loop f up x' base else [])
  end.

Definition DIGITS : nat := 32.

Definition MINUS : Z := 45.

(** The kernel's [printint]: [xx] is an [int], its magnitude a [uint]. *)
Definition printint (xx base : Z) (sign : bool) : list Z :=
  let sign := (sign : bool) && (xx <? 0) in
  let x := if sign then u32 (- xx) else u32 xx in
  let buf := digits_loop DIGITS lower x base in
  let buf := if sign then buf ++ [MINUS] else buf in
  rev buf.

(** [for (i = 0; i < 16; i++, x <<= 4) consputc(digits[x >> 60])] *)
Fixpoint hex_loop (k : nat) (up : bool) (x : Z) : list Z :=
  match k with
  | O => []
  | S k => digit up (Z.shiftr x 60) :: hex_loop k up (u64 (Z.shiftl x 4))
  end.

Definition printptr (x : Z) : list Z := [48; 120] ++ hex_loop 16 lower x.

(** Arguments: numbers, and strings ([None] for the null pointer). *)
Inductive varg :=
  | VNum (v : Z)
  | VStr (s : option (list Z)).

Definition arg_num (l : list varg) : Z * list varg :=
  match l with VNum v :: l => (v, l) | _ :: l => (0, l) | [] => (0, []) end.

Definition null_text : list Z := [40; 110; 117; 108; 108; 41].

Definition arg_str (l : list varg) : list Z * list varg :=
  match l with VStr (Some s) :: l => (s, l) | VStr None :: l => (null_text, l) | _ :: l => ([], l) | [] => ([], []) end.

Definition PERCENT : Z := 37.

(** The loop of the kernel's [printf] over the format. *)
Fixpoint printf_chars (fmt : list Z) (args : list varg) : list Z :=
  match fmt with
  | [] => []
  | c :: fmt =>
      if negb (c =? PERCENT) then c :: printf_chars fmt args
      else
        match fmt with
        | [] => []
        | c :: fmt =>
            if c =? 100 (* d *) then let '(v, args) := arg_num args in printint (i32 v) 10 true ++ printf_chars fmt args
            else if c =? 120 (* x *) then let '(v, args) := arg_num args in printint (i32 v) 16 true ++ printf_chars fmt args
            else if c =? 112 (* p *) then let '(v, args) := arg_num args in printptr (u64 v) ++ printf_chars fmt args
            else if c =? 115 (* s *) then let '(s, args) := arg_str args in s ++ printf_chars fmt args
            else if c =? PERCENT then PERCENT :: printf_chars fmt args
            else (* Print unknown % sequence to draw attention. *) PERCENT :: c :: printf_chars fmt args
        end
  end.

(** A C string constant. *)
Fixpoint chars (s : string) : list Z :=
  match s with
  | EmptyString => []
  | String a s => Z.of_N (Ascii.N_of_ascii a) :: chars s
  end.

(** What [panic] prints before it hangs. *)
Definition panic_chars (s : list Z) : list Z :=
  printf_chars (chars "panic: ") [] ++ printf_chars s [] ++ printf_chars [10] [].

(** ** user/printf.c *)

Definition uprintint (xx base : Z) (sgn : bool) : list Z :=
  let neg := sgn && (xx <? 0) in
  let x := if neg then u32 (- xx) else u32 xx in
  let buf := digits_loop DIGITS upper x base in
  let buf := if neg then buf ++ [MINUS] else buf in
  rev buf.

Definition uprintptr (x : Z) : list Z := [48; 120] ++ hex_loop 16 upper x.

(** [vprintf]: [state] is whether the last character was an unquoted percent
    sign. *)
Fixpoint vprintf (state : bool) (fmt : list Z) (args : list varg) : list Z :=
  match fmt with
  | [] => []
  | c :: fmt =>
      if negb state then
        if c =? PERCENT then vprintf true fmt args else c :: vprintf false fmt args
      else
        if c =? 100 (* d *) then let '(v, args) := arg_num args in uprintint (i32 v) 10 true ++ vprintf false fmt args
        else if c =? 108 (* l *) then let '(v, args) := arg_num args in uprintint (i32 v) 10 false ++ vprintf false fmt args
        else if c =? 120 (* x *) then let '(v, args) := arg_num args in uprintint (i32 v) 16 false ++ vprintf false fmt args
        else if c =? 112 (* p *) then let '(v, args) := arg_num args in uprintptr (u64 v) ++ vprintf false fmt args
        else if c =? 115 (* s *) then let '(s, args) := arg_str args in s ++ vprintf false fmt args
        else if c =? 99 (* c *) then let '(v, args) := arg_num args in u8 v :: vprintf false fmt args
        else if c =? PERCENT then c :: vprintf false fmt args
        else (* Unknown % sequence. *) PERCENT :: c :: vprintf false fmt args
  end.

(** [printf] and [fprintf] are [vprintf] from the initial state. *)
Definition uprintf (fmt : list Z) (args : list varg) : list Z := vprintf false fmt args.

(** ** Reading numbers back *)

(** The value of a character as a digit. *)
Definition digit_val (c : Z) : option Z :=
  if (48 <=? c) && (c <=? 57) then Some (c - 48)
  else if (97 <=? c) && (c <=? 102) then Some (c - 97 + 10)
  else if (65 <=? c) && (c <=? 70) then Some (c - 65 + 10)
  else None.

(** The number that the characters are, most significant digit first. *)
Fixpoint read_digits (acc base : Z) (l : list Z) : option Z :=
  match l with
  | [] => Some acc
  | c :: l =>
      match digit_val c with
      | Some d => if d <? base then read_digits (acc * base + d) base l else None
      | None => None
      end
  end.

Definition read_number (base : Z) (l : list Z) : option Z :=
  match l with
  | [] => None
  | c :: l' => if c =? MINUS then (match l' with [] => None | _ => Z.opp <$> read_digits 0 base l' end) else read_digits 0 base l
  end.

Lemma digit_val_digit up d : 0 <= d < 16 → digit_val (digit up d) = Some d.
Proof.
  intros H. unfold digit_val, digit. destruct (Z.ltb_spec d 10); destruct up;
    repeat match goal with |- context [?a <=? ?b] => destruct (Z.leb_spec a b); cbn [andb]; try lia end; f_equal; lia.
Qed.

Lemma digit_not_minus up d : 0 <= d < 16 → digit up d ≠ MINUS.
Proof. intros H. unfold digit, MINUS. destruct (Z.ltb_spec d 10); destruct up; lia. Qed.

Lemma read_digits_app acc base l1 l2 :
  read_digits acc base (l1 ++ l2) = match read_digits acc base l1 with Some a => read_digits a base l2 | None => None end.
Proof.
  revert acc. induction l1 as [| c l1 IH]; intros acc; [done |]. cbn [app read_digits].
  destruct (digit_val c) as [d |]; [| done]. by destruct (d <? base).
Qed.

(** The digits read back. *)
Lemma read_digits_loop fuel up x base :
  2 <= base <= 16 → 0 <= x < 2 ^ Z.of_nat fuel → (0 < fuel)%nat →
  ∃ c l, rev (digits_loop fuel up x base) = c :: l ∧ c ≠ MINUS ∧ read_digits 0 base (c :: l) = Some x.
Proof.
  intros Hb. revert x. induction fuel as [| f IH]; intros x Hx Hf; [lia |]. cbn [digits_loop]. cbn zeta.
  assert (0 <= x mod base < base) as Hm by (apply Z.mod_pos_bound; lia).
  assert (x = base * (x / base) + x mod base) as Hx' by (apply Z.div_mod; lia).
  destruct (Z.eqb_spec (x / base) 0) as [E | E]; cbn [negb].
  - exists (digit up (x mod base)), []. split; [done |]. split; [apply digit_not_minus; lia |]. cbn [read_digits].
    rewrite digit_val_digit by lia. destruct (Z.ltb_spec (x mod base) base); [| lia]. f_equal. lia.
  - assert (0 <= x / base) by (apply Z.div_pos; lia).
    assert (x / base < 2 ^ Z.of_nat f) as Hlt.
    { apply Z.div_lt_upper_bound; [lia |]. rewrite Nat2Z.inj_succ, Z.pow_succ_r in Hx by lia.
      pose proof (Z.pow_pos_nonneg 2 (Z.of_nat f)). nia. }
    destruct f as [| f'].
    { change (2 ^ Z.of_nat 0) with 1 in Hlt. lia. }
    destruct (IH (x / base)) as (c & l & El & Hc & Hr); [lia | lia |]. cbn [rev]. rewrite El.
    exists c, (l ++ [digit up (x mod base)]). split; [done |]. split; [done |].
    change (c :: l ++ [digit up (x mod base)]) with ((c :: l) ++ [digit up (x mod base)]).
    rewrite read_digits_app, Hr. cbn [read_digits]. rewrite digit_val_digit by lia.
    destruct (Z.ltb_spec (x mod base) base); [| lia]. f_equal. lia.
Qed.

Lemma read_number_digits up x base (neg : bool) :
  2 <= base <= 16 → 0 <= x < 2 ^ 32 →
  let buf := digits_loop DIGITS up x base in
  read_number base (rev (if neg then buf ++ [MINUS] else buf)) = Some (if neg then - x else x).
Proof.
  intros Hb Hx buf. destruct (read_digits_loop DIGITS up x base Hb) as (c & l & E & Hc & Hr); [done | unfold DIGITS; lia |].
  destruct neg.
  - rewrite rev_app_distr. unfold buf. rewrite E. cbn [rev app read_number]. rewrite Z.eqb_refl. cbn [read_number].
    by rewrite Hr.
  - unfold buf. rewrite E. unfold read_number. destruct (Z.eqb_spec c MINUS); done.
Qed.

(** What [printf] prints of an [int], signed in base 10, in the kernel and
    in user programs, and of its 32 bits in base 16 in user programs, reads back
    as that number; [INT_MIN] included. *)
Theorem printint_reads_back xx :
  - 2 ^ 31 <= xx < 2 ^ 31 →
  read_number 10 (printint xx 10 true) = Some xx ∧
  read_number 16 (printint xx 16 true) = Some xx ∧
  read_number 10 (uprintint xx 10 true) = Some xx ∧
  read_number 16 (uprintint xx 16 false) = Some (u32 xx).
Proof.
  intros Hx. assert (∀ up base, 2 <= base <= 16 →
    read_number base (rev (if true && (xx <? 0) then digits_loop DIGITS up (if true && (xx <? 0) then u32 (- xx) else u32 xx) base ++ [MINUS]
      else digits_loop DIGITS up (if true && (xx <? 0) then u32 (- xx) else u32 xx) base)) = Some xx) as H.
  { intros up base Hb. cbn [andb]. rewrite read_number_digits; [| done |].
    - destruct (Z.ltb_spec xx 0); rewrite u32_small by lia; f_equal; lia.
    - destruct (Z.ltb_spec xx 0); rewrite u32_small by lia; lia. }
  repeat split.
  - apply H. lia.
  - apply H. lia.
  - apply H. lia.
  - unfold uprintint. cbn [andb]. apply (read_number_digits upper (u32 xx) 16 false); [lia | apply u32_range].
Qed.

Lemma printint_reads_back_witness :
  printint (- 2 ^ 31) 10 true = chars "-2147483648" ∧ read_number 10 (printint (- 2 ^ 31) 10 true) = Some (- 2 ^ 31).
Proof. split; [vm_compute; reflexivity |]. apply (printint_reads_back (- 2 ^ 31)). lia. Defined.
