(* ===== verification/Console.v ===== *)
(** * The console and the UART (kernel/console.c, kernel/uart.c, procdump of
    kernel/proc.c)

    The UART is a device: what reads of its registers will return is part of the
    state, and its register writes are recorded in order. *)

From S2P Require Import Prelude Abi Monad Riscv Mem Kalloc Vm Proc Printf.

(** ** The device *)

Definition RHR : Z := 0.
Definition THR : Z := 0.
Definition IER : Z := 1.
Definition IER_RX_ENABLE : Z := Z.shiftl 1 0.
Definition IER_TX_ENABLE : Z := Z.shiftl 1 1.
Definition FCR : Z := 2.
Definition FCR_FIFO_ENABLE : Z := Z.shiftl 1 0.
Definition FCR_FIFO_CLEAR : Z := Z.shiftl 3 1.
Definition LCR : Z := 3.
Definition LCR_EIGHT_BITS : Z := Z.shiftl 3 0.
Definition LCR_BAUD_LATCH : Z := Z.shiftl 1 7.
Definition LSR : Z := 5.
Definition LSR_RX_READY : Z := Z.shiftl 1 0.
Definition LSR_TX_IDLE : Z := Z.shiftl 1 5.

Definition UART_TX_BUF_SIZE : Z := 32.

(** [lsr] and [rhr] are the values that the next reads of LSR and RHR return;
    [port] the writes so far. *)
Record uart := Uart {
  tx_buf : list Z;
  tx_w : Z;
  tx_r : Z;
  panicked : bool;
  lsr : list Z;
  rhr : list Z;
  port : list (Z * Z) }.

Definition INPUT_BUF : Z := 128.

Record cons := Cons {
  cbuf : list Z;
  cr : Z;
  cw : Z;
  ce : Z }.

(** The UART, the console, and the processes. *)
Record cstate := CState {
  uart_ : uart;
  cons_ : cons;
  cprocs : procs }.

Definition upduart (f : uart → uart) : K cstate unit :=
  modify (λ s, CState (f (uart_ s)) (cons_ s) (cprocs s)).

Definition updcons (f : cons → cons) : K cstate unit :=
  modify (λ s, CState (uart_ s) (f (cons_ s)) (cprocs s)).

Definition cprocsL : lens cstate procs := Lens cprocs (λ p s, CState (uart_ s) (cons_ s) p).

(** [for(;;) ;] *)
Definition hang {A} : K cstate A := λ _ _, NoFuel.

Definition ReadLSR : K cstate Z :=
  u <- gets uart_ ;;
  match lsr u with
  | [] => hang
  | v :: l => upduart (λ u, Uart (tx_buf u) (tx_w u) (tx_r u) (panicked u) l (rhr u) (port u)) ;; ret v
  end.

Definition ReadRHR : K cstate Z :=
  u <- gets uart_ ;;
  match rhr u with
  | [] => hang
  | v :: l => upduart (λ u, Uart (tx_buf u) (tx_w u) (tx_r u) (panicked u) (lsr u) l (port u)) ;; ret v
  end.

Definition WriteReg (reg v : Z) : K cstate unit :=
  upduart (λ u, Uart (tx_buf u) (tx_w u) (tx_r u) (panicked u) (lsr u) (rhr u) (port u ++ [(reg, u8 v)])).

Definition uartinit : K cstate unit :=
  (* disable interrupts. *)
  WriteReg IER 0 ;;
  (* special mode to set baud rate. *)
  WriteReg LCR LCR_BAUD_LATCH ;;
  (* baud rate of 38.4K. *)
  WriteReg 0 0x03 ;;
  WriteReg 1 0x00 ;;
  (* leave set-baud mode, and set word length to 8 bits, no parity. *)
  WriteReg LCR LCR_EIGHT_BITS ;;
  (* reset and enable FIFOs. *)
  WriteReg FCR (Z.lor FCR_FIFO_ENABLE FCR_FIFO_CLEAR) ;;
  (* enable transmit and receive interrupts. *)
  WriteReg IER (Z.lor IER_TX_ENABLE IER_RX_ENABLE).

Definition tx_idle (v : Z) : bool := negb (Z.land v LSR_TX_IDLE =? 0).

(** The loop of [uartstart]; each turn that goes on sends a character. *)
Fixpoint uartstart_loop (fuel : nat) : K cstate unit :=
  u <- gets uart_ ;;
  if tx_w u =? tx_r u then ret tt (* transmit buffer is empty. *)
  else
    match fuel with
    | O => λ _ _, NoFuel
    | S fuel =>
        v <- ReadLSR ;;
        if negb (tx_idle v) then ret tt
        else
          u <- gets uart_ ;;
          let c := default 0 (zget (tx_buf u) (tx_r u mod UART_TX_BUF_SIZE)) in
          upduart (λ u, Uart (tx_buf u) (tx_w u) (u64 (tx_r u + 1)) (panicked u) (lsr u) (rhr u) (port u)) ;;
          (* maybe uartputc() is waiting for space in the buffer. *)
          wakeup C_uart ;;
          WriteReg THR c ;;
          uartstart_loop fuel
    end.

(** As many turns as characters are buffered. *)
Definition uartstart : K cstate unit := λ s x,
  uartstart_loop (Z.to_nat (u64 (tx_w (uart_ s) - tx_r (uart_ s)))) s x.

(** [uart_tx_buf[uart_tx_w % UART_TX_BUF_SIZE] = c; uart_tx_w += 1;] *)
Definition tx_push (c : Z) (u : uart) : uart :=
  Uart (zset (tx_buf u) (tx_w u mod UART_TX_BUF_SIZE) (u8 c)) (u64 (tx_w u + 1)) (tx_r u) (panicked u) (lsr u) (rhr u) (port u).

Fixpoint uartputc_loop (fuel : nat) (c : Z) : K cstate unit :=
  u <- gets uart_ ;;
  if tx_w u =? u64 (tx_r u + UART_TX_BUF_SIZE) then
    (* buffer is full. *)
    sleep C_uart L_uart ;;
    match fuel with
    | O => λ _ _, NoFuel
    | S fuel => uartputc_loop fuel c
    end
  else
    upduart (tx_push c) ;;
    uartstart ;;
    release L_uart.

Definition uartputc (c : Z) : K cstate unit :=
  acquire L_uart ;;
  p <- gets (λ s, panicked (uart_ s)) ;;
  if (p : bool) then hang
  else λ s x, uartputc_loop (naps x) c s x.

(** Waiting for the transmitter: a turn a read of LSR. *)
Fixpoint wait_idle (fuel : nat) : K cstate unit :=
  match fuel with
  | O => hang
  | S fuel => v <- ReadLSR ;; if tx_idle v then ret tt else wait_idle fuel
  end.

(** Interrupts are off between [push_off] and [pop_off] (Spinlock.v). *)
Definition uartputc_sync (c : Z) : K cstate unit :=
  p <- gets (λ s, panicked (uart_ s)) ;;
  if (p : bool) then hang
  else
    (λ s x, wait_idle (S (length (lsr (uart_ s)))) s x) ;;
    WriteReg THR c.

(** read one input character from the UART, or -1 if none is waiting. *)
Definition uartgetc : K cstate Z :=
  v <- ReadLSR ;;
  if negb (Z.land v 0x01 =? 0) then ReadRHR else ret (-1).

(** ** The console *)

Definition BACKSPACE : Z := 0x100.

(** [C(x)]: Control-x *)
Definition CTRL (x : Z) : Z := x - 64.

Definition consputc (c : Z) : K cstate unit :=
  if c =? BACKSPACE then
    (* if the user typed backspace, overwrite with a space. *)
    uartputc_sync 8 ;; uartputc_sync 32 ;; uartputc_sync 8
  else uartputc_sync c.

(** The kernel's [printf], when [pr.locking] is set. *)
Definition cprintf (fmt : list Z) (args : list varg) : K cstate unit :=
  acquire L_pr ;;
  for_each (printf_chars fmt args) consputc ;;
  release L_pr.

Definition state_text (st : procstate) : list Z :=
  match st with
  | UNUSED => chars "unused"
  | SLEEPING => chars "sleep "
  | RUNNABLE => chars "runble"
  | RUNNING => chars "run   "
  | ZOMBIE => chars "zombie"
  | USED => chars "???"
  end.

(** The characters of an array up to the NUL. *)
Fixpoint upto_nul (l : list Z) : list Z :=
  match l with
  | c :: l => if c =? 0 then [] else c :: upto_nul l
  | [] => []
  end.

(** No lock to avoid wedging a stuck machine further. *)
Definition procdump : K cstate unit :=
  cprintf [10] [] ;;
  for_each (seqZ 0 NPROC) (λ i,
    p <- gets (λ s, getp (cprocs s) i) ;;
    if decide (state p = UNUSED) then ret tt
    else
      cprintf (chars "%d %s %s") [VNum (pid p); VStr (Some (state_text (state p))); VStr (Some (upto_nul (name p)))] ;;
      cprintf [10] []).

Section console.
(** The calling process. *)
Context (me : Z).

(** [for(i = 0; i < n; i++)], with [k] turns left: the value of [i]. *)
Fixpoint consolewrite_loop (k : nat) (user_src : bool) (src i : Z) : K cstate Z :=
  match k with
  | O => ret i
  | S k =>
      r <- lift cprocsL (either_copyin me user_src (u64 (src + i)) 1) ;;
      if r.1 =? -1 then ret i
      else
        uartputc (default 0 (head r.2)) ;;
        consolewrite_loop k user_src src (i + 1)
  end.

Definition consolewrite (user_src : bool) (src n : Z) : K cstate Z :=
  consolewrite_loop (Z.to_nat n) user_src src 0.

(** [while(cons.r == cons.w)]: [false] when the process has been killed. *)
Fixpoint cons_wait (fuel : nat) : K cstate bool :=
  match fuel with
  | O => λ _ _, NoFuel
  | S fuel =>
      c <- gets cons_ ;;
      if cr c =? cw c then
        p <- gets (λ s, getp (cprocs s) me) ;;
        if killed p then
          release L_cons ;;
          ret false
        else
          sleep C_cons L_cons ;;
          cons_wait fuel
      else ret true
  end.

(** The next byte of the input buffer. *)
Definition cons_front (c : cons) : Z := default 0 (zget (cbuf c) (cr c mod INPUT_BUF)).

(** The loop of [consoleread], [k] bytes wanted: the bytes still wanted when it
    ends, or [None] when it has returned -1. *)
Fixpoint consoleread_loop (k : nat) (user_dst : bool) (dst : Z) (target : nat) : K cstate (option nat) :=
  match k with
  | O => ret (Some O)
  | S k' =>
      ok <- (λ s x, cons_wait (S (naps x)) s x) ;;
      if negb ok then ret None
      else
        c <- gets cons_ ;;
        let b := cons_front c in
        updcons (λ c, Cons (cbuf c) (u32 (cr c + 1)) (cw c) (ce c)) ;;
        if b =? CTRL 68 then (* end-of-file *)
          (* Save ^D for next time, to make sure caller gets a 0-byte result. *)
          when (k <? target)%nat (updcons (λ c, Cons (cbuf c) (u32 (cr c - 1)) (cw c) (ce c))) ;;
          ret (Some k)
        else
          r <- lift cprocsL (either_copyout me user_dst dst [b]) ;;
          if r =? -1 then ret (Some k)
          else if b =? 10 then ret (Some k') (* a whole line has arrived *)
          else consoleread_loop k' user_dst (u64 (dst + 1)) target
  end.

Definition consoleread (user_dst : bool) (dst n : Z) : K cstate Z :=
  acquire L_cons ;;
  r <- consoleread_loop (Z.to_nat n) user_dst dst (Z.to_nat n) ;;
  match r with
  | None => ret (-1)
  | Some k =>
      release L_cons ;;
      ret (if 0 <? n then n - Z.of_nat k else 0)
  end.
End console.

(** [cons.buf[(cons.e-1) % INPUT_BUF]] *)
Definition cons_last (c : cons) : Z := default 0 (zget (cbuf c) (u32 (ce c - 1) mod INPUT_BUF)).

Definition cons_erase : K cstate unit :=
  updcons (λ c, Cons (cbuf c) (cr c) (cw c) (u32 (ce c - 1))) ;;
  consputc BACKSPACE.

(** Kill line: a turn a character that is being edited. *)
Fixpoint kill_line (fuel : nat) : K cstate unit :=
  c <- gets cons_ ;;
  if negb (ce c =? cw c) && negb (cons_last c =? 10) then
    match fuel with
    | O => λ _ _, NoFuel
    | S fuel => cons_erase ;; kill_line fuel
    end
  else ret tt.

(** [cons.buf[cons.e++ % INPUT_BUF] = c] *)
Definition cons_store (v : Z) (c : cons) : cons :=
  Cons (zset (cbuf c) (ce c mod INPUT_BUF) v) (cr c) (cw c) (u32 (ce c + 1)).

Definition consoleintr (c : Z) : K cstate unit :=
  acquire L_cons ;;
  (if c =? CTRL 80 then procdump (* Print process list. *)
   else if c =? CTRL 85 then λ s x, kill_line (Z.to_nat (u32 (ce (cons_ s) - cw (cons_ s)))) s x (* Kill line. *)
   else if (c =? CTRL 72) || (c =? 0x7f) then (* Backspace *)
     b <- gets cons_ ;;
     when (negb (ce b =? cw b)) cons_erase
   else
     b <- gets cons_ ;;
     when (negb (c =? 0) && (u32 (ce b - cr b) <? INPUT_BUF))
       (let c := if c =? 13 then 10 else c in
        (* echo back to the user. *)
        consputc c ;;
        (* store for consumption by consoleread(). *)
        updcons (cons_store (u8 c)) ;;
        b <- gets cons_ ;;
        when ((c =? 10) || (c =? CTRL 68) || (ce b =? u32 (cr b + INPUT_BUF)))
          (* wake up consoleread() if a whole line (or end-of-file) has arrived. *)
          (updcons (λ b, Cons (cbuf b) (cr b) (ce b) (ce b)) ;;
           wakeup C_cons))) ;;
  release L_cons.

(** The loop of [uartintr] over the waiting characters. *)
Fixpoint uartintr_loop (fuel : nat) : K cstate unit :=
  match fuel with
  | O => λ _ _, NoFuel
  | S fuel =>
      c <- uartgetc ;;
      if c =? -1 then ret tt
      else consoleintr c ;; uartintr_loop fuel
  end.

Definition uartintr : K cstate unit :=
  (* read and process incoming characters. *)
  (λ s x, uartintr_loop (S (length (rhr (uart_ s)))) s x) ;;
  (* send buffered characters. *)
  acquire L_uart ;;
  uartstart ;;
  release L_uart.

(** [devsw] after [consoleinit] *)
Definition consoleinit : K cstate (Z → option ((bool → Z → Z → Z → K cstate Z) * (bool → Z → Z → Z → K cstate Z))) :=
  uartinit ;;
  (* connect read and write system calls to consoleread and consolewrite. *)
  ret (λ major, if major =? CONSOLE then
                  Some (λ u a n me, consoleread me u a n, λ u a n me, consolewrite me u a n)
                else None).
