(* ===== verification/ConsoleSpec.v ===== *)
(** * The console's line discipline

    The ring buffer of the console holds the lines that can be read and the line
    that is being edited; [consoleintr] edits them. *)

From S2P Require Import Prelude Monad Riscv Mem Kalloc Vm Proc Printf Console.

(** ** Output to the UART *)

(** What is left of the values of LSR when the transmitter has been found idle [n]
    times; the reads before each of these are the turns that wait. *)
Fixpoint drain (n : nat) (l : list Z) {struct l} : option (list Z) :=
  match n, l with
  | O, _ => Some l
  | S _, [] => None
  | S n', v :: l => drain (if tx_idle v then n' else n) l
  end.

(** The transmitter will be idle [n] times. *)
Definition idles (n : nat) (u : uart) : Prop := panicked u = false ∧ is_Some (drain n (lsr u)).

(** The UART after [cs] have been sent. *)
Definition sent (cs : list Z) (u : uart) : uart :=
  Uart (tx_buf u) (tx_w u) (tx_r u) (panicked u) (default [] (drain (length cs) (lsr u))) (rhr u)
       (port u ++ map (λ c, (THR, u8 c)) cs).

Lemma drain_0 l : drain 0 l = Some l.
Proof. by destruct l. Qed.

Lemma drain_add n m l : drain (n + m) l = drain n l ≫= drain m.
Proof.
  revert n. induction l as [| v l IH]; intros [| n]; cbn [drain plus]; try done.
  destruct (tx_idle v); [apply IH | apply (IH (S n))].
Qed.

Lemma sent_nil u : sent [] u = u.
Proof. unfold sent. cbn [length]. rewrite drain_0, app_nil_r. by destruct u. Qed.

Lemma sent_app c1 c2 u : sent c2 (sent c1 u) = sent (c1 ++ c2) u.
Proof.
  unfold sent. cbn [tx_buf tx_w tx_r panicked lsr rhr port]. rewrite length_app, drain_add, map_app, app_assoc. f_equal.
  destruct (drain (length c1) (lsr u)); cbn; [done |]. by destruct (length c2).
Qed.

Lemma idles_sent cs n u : idles (length cs + n) u → idles n (sent cs u).
Proof.
  intros (Hp & Hd). split; [done |]. cbn [lsr sent]. rewrite drain_add in Hd. by destruct (drain (length cs) (lsr u)); [| destruct Hd].
Qed.

Lemma idles_le n m u : idles m u → (n <= m)%nat → idles n u.
Proof.
  intros (Hp & Hd) Hn. split; [done |]. replace m with (n + (m - n))%nat in Hd by lia. rewrite drain_add in Hd.
  by destruct (drain n (lsr u)); [| destruct Hd].
Qed.

Definition with_uart (u : uart) (s : cstate) : cstate := CState u (cons_ s) (cprocs s).

Definition with_cons (c : cons) (s : cstate) : cstate := CState (uart_ s) c (cprocs s).

Definition with_lsr (l : list Z) (u : uart) : uart :=
  Uart (tx_buf u) (tx_w u) (tx_r u) (panicked u) l (rhr u) (port u).

Lemma wait_idle_ok fuel l l' u c p x :
  drain 1 l = Some l' → (length l < fuel)%nat →
  wait_idle fuel (CState (with_lsr l u) c p) x = Ok tt (CState (with_lsr l' u) c p) x.
Proof.
  revert l. induction fuel as [| fuel IH]; intros [| v l] Hd Hf; [done | cbn in Hf; lia | done |].
  cbn [drain] in Hd. cbn [length] in Hf. cbn [wait_idle].
  erewrite bind_ok by (unfold ReadLSR; erewrite bind_ok by reflexivity; cbn [lsr with_lsr uart_]; erewrite bind_ok by reflexivity; reflexivity).
  destruct (tx_idle v); [rewrite drain_0 in Hd; by injection Hd as <- |]. apply (IH l); [done | lia].
Qed.

Lemma uartputc_sync_ok c s x : idles 1 (uart_ s) → uartputc_sync c s x = Ok tt (with_uart (sent [c] (uart_ s)) s) x.
Proof.
  intros (Hp & l' & Hd). unfold uartputc_sync. erewrite bind_ok by reflexivity. rewrite Hp.
  destruct s as [u co pr]. cbn [uart_] in *.
  assert (u = with_lsr (lsr u) u) as Eu by by destruct u.
  erewrite bind_ok; cycle 1.
  - rewrite Eu at 2. apply (wait_idle_ok _ (lsr u) l'); [done | rewrite Eu; cbn; lia].
  - unfold with_uart, sent. cbn [uart_ cons_ cprocs length]. by rewrite Hd.
Qed.

(** The characters [consputc] sends. *)
Definition echo (c : Z) : list Z := if c =? BACKSPACE then [8; 32; 8] else [c].

Lemma consputc_ok c s x :
  idles (length (echo c)) (uart_ s) → consputc c s x = Ok tt (with_uart (sent (echo c) (uart_ s)) s) x.
Proof.
  unfold consputc, echo. intros H. destruct (c =? BACKSPACE); [| by apply uartputc_sync_ok].
  erewrite bind_ok by (apply uartputc_sync_ok; apply (idles_le 1 3); [done | lia]).
  erewrite bind_ok by (apply uartputc_sync_ok; cbn [uart_ with_uart]; apply (idles_sent [8] 1); apply (idles_le 2 3); [done | lia]).
  rewrite uartputc_sync_ok.
  - unfold with_uart. cbn [uart_ cons_ cprocs]. by rewrite !sent_app.
  - cbn [uart_ with_uart]. rewrite sent_app. by apply (idles_sent [8; 32] 1).
Qed.

(** Output of a list of characters, none of them a backspace *)
Lemma consputcs_ok cs s x :
  Forall (λ c, 0 <= c < 2 ^ 8) cs → idles (length cs) (uart_ s) →
  for_each cs consputc s x = Ok tt (with_uart (sent cs (uart_ s)) s) x.
Proof.
  revert s. induction cs as [| c cs IH]; intros s Hcs Hi; cbn [for_each].
  { rewrite sent_nil. by destruct s. }
  apply Forall_cons in Hcs as [Hc Hcs].
  assert (echo c = [c]) as Ee by (unfold echo, BACKSPACE; destruct (Z.eqb_spec c 256); [lia | done]).
  erewrite bind_ok by (apply consputc_ok; rewrite Ee; apply (idles_le 1 (length (c :: cs))); [done | cbn; lia]).
  rewrite Ee, IH; [| done | by apply (idles_sent [c])].
  unfold with_uart. cbn [uart_ cons_ cprocs]. by rewrite sent_app.
Qed.

(** ** The process listing *)

(** The line of a process: its number in decimal, its state and its name *)
Definition proc_line (p : proc) : list Z :=
  printint (i32 (pid p)) 10 true ++ [32] ++ state_text (state p) ++ [32] ++ upto_nul (name p) ++ [10].

Definition listing (P : procs) : list Z :=
  [10] ++ concat (map (λ i, if decide (state (getp P i) = UNUSED) then [] else proc_line (getp P i)) (seqZ 0 NPROC)).

Definition are_chars (l : list Z) : Prop := Forall (λ c, 0 <= c < 2 ^ 8) l.

(** The names in the table are arrays of characters. *)
Definition names_ok (P : procs) : Prop := ∀ i, are_chars (name (getp P i)).

Lemma printint_chars x : are_chars (printint x 10 true).
Proof.
  assert (∀ fuel y, are_chars (digits_loop fuel lower y 10)) as Hd.
  { intros fuel. induction fuel as [| fuel IH]; intros y; cbn [digits_loop]; [constructor |]. constructor.
    - pose proof (Z.mod_pos_bound y 10 ltac:(lia)). unfold digit. destruct (Z.ltb_spec (y mod 10) 10); lia.
    - destruct (negb _); [apply IH | constructor]. }
  unfold printint, are_chars. cbv zeta. apply Forall_rev. destruct (true && _); [| apply Hd].
  apply Forall_app. split; [apply Hd |]. by repeat constructor.
Qed.

Lemma upto_nul_chars l : are_chars l → are_chars (upto_nul l).
Proof. induction 1; cbn [upto_nul]; [constructor |]. destruct (_ =? 0); by constructor. Qed.

Lemma proc_line_chars p : are_chars (name p) → are_chars (proc_line p).
Proof.
  intros Hn. unfold proc_line, are_chars. repeat (apply Forall_app; split); [apply printint_chars | | | | by apply upto_nul_chars |].
  - by repeat constructor.
  - destruct (state p); by repeat constructor.
  - by repeat constructor.
  - by repeat constructor.
Qed.

Lemma cprintf_ok fmt args s h w n :
  are_chars (printf_chars fmt args) → idles (length (printf_chars fmt args)) (uart_ s) → L_pr ∉ h →
  cprintf fmt args s (Ctx h w n) = Ok tt (with_uart (sent (printf_chars fmt args) (uart_ s)) s) (Ctx h w n).
Proof. intros Hc Hi Hh. unfold cprintf. kacq. kstep (consputcs_ok _ s (Ctx (L_pr :: h) w n) Hc Hi). krel. done. Qed.

Lemma dump_one p s h w n :
  are_chars (name p) → idles (length (proc_line p)) (uart_ s) → L_pr ∉ h →
  (cprintf (chars "%d %s %s") [VNum (pid p); VStr (Some (state_text (state p))); VStr (Some (upto_nul (name p)))] ;;
   cprintf [10] []) s (Ctx h w n) = Ok tt (with_uart (sent (proc_line p) (uart_ s)) s) (Ctx h w n).
Proof.
  intros Hn Hi Hh. pose proof (proc_line_chars p Hn) as Hc.
  set (f := printf_chars (chars "%d %s %s") [VNum (pid p); VStr (Some (state_text (state p))); VStr (Some (upto_nul (name p)))]).
  assert (proc_line p = f ++ [10]) as Ef.
  { unfold f, proc_line. change (chars "%d %s %s") with [37; 100; 32; 37; 115; 32; 37; 115].
    cbn [printf_chars negb Z.eqb Pos.eqb PERCENT arg_num arg_str]. rewrite app_nil_r, <- app_assoc. cbn [app].
    by rewrite <- app_assoc. }
  rewrite Ef in *. unfold are_chars in Hc. rewrite Forall_app in Hc. rewrite length_app in Hi.
  erewrite bind_ok; [| apply cprintf_ok; [apply Hc | fold f; apply (idles_le _ _ _ Hi); lia | done]]. fold f.
  rewrite (cprintf_ok [10] []); [| apply Hc | cbn; by apply idles_sent | done].
  unfold with_uart. cbn [uart_ cons_ cprocs]. by rewrite sent_app.
Qed.

Lemma procdump_ok s h w n :
  names_ok (cprocs s) → idles (length (listing (cprocs s))) (uart_ s) → L_pr ∉ h →
  procdump s (Ctx h w n) = Ok tt (with_uart (sent (listing (cprocs s)) (uart_ s)) s) (Ctx h w n).
Proof.
  intros Hn Hi Hh. unfold procdump, listing in *. set (g := λ i, if decide _ then [] else _) in *. rewrite length_app in Hi.
  erewrite bind_ok; [| apply cprintf_ok; [by repeat constructor | apply (idles_le _ _ _ Hi); cbn; lia | done]].
  rewrite <- sent_app. change (printf_chars [10] []) with [10].
  apply (idles_sent [10]) in Hi. set (s1 := with_uart (sent [10] (uart_ s)) s).
  change (idles (length (concat (map g (seqZ 0 NPROC)))) (uart_ s1)) in Hi. change (sent [10] (uart_ s)) with (uart_ s1).
  assert (cprocs s1 = cprocs s) as Ep by done. replace (with_uart _ s) with (with_uart (sent (concat (map g (seqZ 0 NPROC))) (uart_ s1)) s1) by done.
  clearbody s1. revert s1 Hi Ep. generalize (seqZ 0 NPROC) as l. induction l as [| i l IH]; intros s1 Hi Ep; cbn [for_each map concat].
  { cbn. rewrite sent_nil. by destruct s1. }
  cbn [map concat] in Hi. rewrite length_app in Hi.
  assert ((p <- gets (λ s, getp (cprocs s) i) ;;
    if decide (state p = UNUSED) then ret tt
    else cprintf (chars "%d %s %s") [VNum (pid p); VStr (Some (state_text (state p))); VStr (Some (upto_nul (name p)))] ;; cprintf [10] []) s1 (Ctx h w n)
    = Ok tt (with_uart (sent (g i) (uart_ s1)) s1) (Ctx h w n)) as E.
  { kstep. rewrite Ep. unfold g in *. destruct (decide (state (getp (cprocs s) i) = UNUSED)).
    - rewrite sent_nil. by destruct s1.
    - apply dump_one; [apply Hn | apply (idles_le _ _ _ Hi); lia | done]. }
  kstep E. rewrite IH; [| by apply idles_sent | done]. unfold with_uart. cbn [uart_ cons_ cprocs]. by rewrite sent_app.
Qed.

(** ** The input buffer as two lists *)

Definition ring (b : list Z) (from : Z) (len : nat) : list Z :=
  map (λ k, default 0 (zget b ((from + Z.of_nat k) mod INPUT_BUF))) (seq 0 len).

(** What can be read, and the line being edited. *)
Definition nready (c : cons) : nat := Z.to_nat (u32 (cw c - cr c)).
Definition nedit (c : cons) : nat := Z.to_nat (u32 (ce c - cw c)).
Definition ready (c : cons) : list Z := ring (cbuf c) (cr c) (nready c).
Definition edit (c : cons) : list Z := ring (cbuf c) (cw c) (nedit c).

Record cons_ok (c : cons) : Prop := {
  co_len : length (cbuf c) = Z.to_nat INPUT_BUF;
  co_range : 0 <= cr c < 2 ^ 32 ∧ 0 <= cw c < 2 ^ 32 ∧ 0 <= ce c < 2 ^ 32;
  co_fits : Z.of_nat (nready c) + Z.of_nat (nedit c) <= INPUT_BUF;
  co_line : 10 ∉ edit c }.

Lemma length_ring b f n : length (ring b f n) = n.
Proof. unfold ring. by rewrite length_map, length_seq. Qed.

Lemma ring_S b f n : ring b f (S n) = ring b f n ++ [default 0 (zget b ((f + Z.of_nat n) mod INPUT_BUF))].
Proof. unfold ring. by rewrite seq_S, map_app. Qed.

Lemma ring_app b f n m f' : f' mod INPUT_BUF = (f + Z.of_nat n) mod INPUT_BUF → ring b f (n + m) = ring b f n ++ ring b f' m.
Proof.
  intros E. unfold ring. rewrite seq_app, map_app. f_equal. cbn [plus].
  apply list_eq. intros k. destruct (decide (k < m)%nat) as [Hk | Hk].
  - assert (∀ g : nat → Z, ∀ a, (map g (seq a m)) !! k = Some (g (a + k)%nat)) as Hm.
    { intros g a. apply list_lookup_fmap_Some. exists (a + k)%nat. split; [done |]. apply lookup_seq. lia. }
    rewrite !Hm. do 3 f_equal. assert (INPUT_BUF = 128) as EI by done. rewrite EI in *. dlia.
  - rewrite !lookup_ge_None_2; [done | rewrite length_map, length_seq; lia | rewrite length_map, length_seq; lia].
Qed.

(** A store outside of a part of the ring does not change it. *)
Lemma ring_store b f n i v :
  0 <= i < INPUT_BUF → length b = Z.to_nat INPUT_BUF →
  (∀ k, 0 <= k < Z.of_nat n → (f + k) mod INPUT_BUF ≠ i) → ring (zset b i v) f n = ring b f n.
Proof.
  intros Hi Hl Hn. unfold ring. apply list_fmap_ext. intros k x Hx. apply lookup_seq in Hx as [-> Hk].
  rewrite zget_zset_ne; [done |]. intros E. apply (Hn (Z.of_nat (0 + k))); [lia | by symmetry].
Qed.

Lemma u32_mod x : u32 x mod INPUT_BUF = x mod INPUT_BUF.
Proof. unfold u32. change INPUT_BUF with (2 ^ 7). rewrite <- Znumtheory.Zmod_div_mod; [done | lia | lia |]. exists (2 ^ 25). lia. Qed.

Lemma u32_diff a b : 0 <= a < 2 ^ 32 → 0 <= b < 2 ^ 32 → u32 (a - b) = if b <=? a then a - b else a - b + 2 ^ 32.
Proof. intros Ha Hb. unfold u32. destruct (Z.leb_spec b a); dlia. Qed.

(** ** Edits of the buffer *)

Definition erased (c : cons) : cons := Cons (cbuf c) (cr c) (cw c) (u32 (ce c - 1)).
Definition committed (c : cons) : cons := Cons (cbuf c) (cr c) (ce c) (ce c).

Lemma nedit_zero c : cons_ok c → (ce c =? cw c) = (nedit c =? 0)%nat.
Proof.
  intros [_ (_ & Hw & He) _ _]. unfold nedit. rewrite u32_diff by done.
  destruct (Z.eqb_spec (ce c) (cw c)), (Z.leb_spec (cw c) (ce c)), (Nat.eqb_spec (Z.to_nat (ce c - cw c)) 0),
    (Nat.eqb_spec (Z.to_nat (ce c - cw c + 2 ^ 32)) 0); done || lia.
Qed.

Lemma cons_last_edit c l v : cons_ok c → edit c = l ++ [v] → cons_last c = v.
Proof.
  intros [_ (_ & Hw & He) _ _] E. unfold edit in E. destruct (nedit c) as [| n] eqn:En.
  { by destruct l. }
  rewrite ring_S in E. apply app_inj_tail in E as [_ E]. unfold cons_last. rewrite <- E, u32_mod. do 2 f_equal.
  unfold nedit in En. rewrite u32_diff in En by done. assert (INPUT_BUF = 128) as -> by done.
  destruct (Z.leb_spec (cw c) (ce c)); dlia.
Qed.

Lemma erased_ok c l v :
  cons_ok c → edit c = l ++ [v] → cons_ok (erased c) ∧ ready (erased c) = ready c ∧ edit (erased c) = l.
Proof.
  intros Hok E. pose proof Hok as [Hl (Hr & Hw & He) Hf Hn]. destruct (nedit c) as [| n] eqn:En.
  { unfold edit in E. rewrite En in E. by destruct l. }
  assert (nedit (erased c) = n) as En'.
  { unfold nedit in *. cbn [erased ce cw]. pose proof (u32_range (ce c - 1)). rewrite u32_diff in * by done.
    revert En. destruct (Z.leb_spec (cw c) (ce c)), (Z.leb_spec (cw c) (u32 (ce c - 1)));
      unfold u32 in *; intros En; dlia. }
  assert (edit (erased c) = l) as El.
  { unfold edit in *. rewrite En'. rewrite En, ring_S in E. by apply app_inj_tail in E as [E _]. }
  split; [| split; [done | done]]. constructor; try done.
  - split; [done |]. split; [done |]. apply u32_range.
  - rewrite En'. change (nready (erased c)) with (nready c). lia.
  - rewrite El. intros H. apply Hn. rewrite E. apply elem_of_app. by left.
Qed.

Lemma stored_ok c v :
  cons_ok c → Z.of_nat (nready c) + Z.of_nat (nedit c) < INPUT_BUF →
  nready (cons_store v c) = nready c ∧ nedit (cons_store v c) = S (nedit c) ∧
  ready (cons_store v c) = ready c ∧ edit (cons_store v c) = edit c ++ [v].
Proof.
  intros [Hl (Hr & Hw & He) Hf Hn] Hlt. assert (INPUT_BUF = 128) as EI by done.
  assert (nedit (cons_store v c) = S (nedit c)) as En.
  { unfold nedit in *. cbn [cons_store ce cw]. pose proof (u32_range (ce c + 1)). rewrite u32_diff in * by done.
    destruct (Z.leb_spec (cw c) (ce c)), (Z.leb_spec (cw c) (u32 (ce c + 1))); unfold u32 in *; dlia. }
  pose proof (Z.mod_pos_bound (ce c) INPUT_BUF ltac:(lia)) as Hm.
  assert (∀ k, 0 <= k < Z.of_nat (nready c) + Z.of_nat (nedit c) → (cr c + k) mod INPUT_BUF ≠ ce c mod INPUT_BUF) as Hne.
  { intros k Hk. unfold nready, nedit in *. rewrite !u32_diff in * by done. rewrite EI in *.
    destruct (Z.leb_spec (cr c) (cw c)), (Z.leb_spec (cw c) (ce c)); dlia. }
  split; [done |]. split; [done |]. split.
  - unfold ready. change (nready (cons_store v c)) with (nready c). apply ring_store; [lia | done |].
    intros k Hk. apply Hne. lia.
  - unfold edit. rewrite En, ring_S. cbn [cons_store cbuf cw]. f_equal.
    + apply ring_store; [lia | done |]. intros k Hk. specialize (Hne (Z.of_nat (nready c) + k) ltac:(lia)).
      intros E. apply Hne. rewrite <- E. unfold nready. rewrite u32_diff by done. rewrite EI.
      destruct (Z.leb_spec (cr c) (cw c)); dlia.
    + replace ((cw c + Z.of_nat (nedit c)) mod INPUT_BUF) with (ce c mod INPUT_BUF).
      * rewrite zget_zset_eq; [done |]. rewrite Hl, EI in *. lia.
      * unfold nedit. rewrite u32_diff by done. rewrite EI. destruct (Z.leb_spec (cw c) (ce c)); dlia.
Qed.

Lemma committed_ok c :
  length (cbuf c) = Z.to_nat INPUT_BUF → 0 <= cr c < 2 ^ 32 ∧ 0 <= cw c < 2 ^ 32 ∧ 0 <= ce c < 2 ^ 32 →
  Z.of_nat (nready c) + Z.of_nat (nedit c) <= INPUT_BUF →
  cons_ok (committed c) ∧ ready (committed c) = ready c ++ edit c ∧ edit (committed c) = [].
Proof.
  intros Hl (Hr & Hw & He) Hf. assert (INPUT_BUF = 128) as EI by done.
  assert (nedit (committed c) = 0%nat) as E0 by (unfold nedit; cbn; rewrite Z.sub_diag; done).
  assert (edit (committed c) = []) as Ee by (unfold edit; by rewrite E0).
  assert (nready (committed c) = (nready c + nedit c)%nat) as En.
  { unfold nready, nedit in *. cbn [committed cr cw ce]. rewrite !u32_diff in * by done.
    destruct (Z.leb_spec (cr c) (cw c)), (Z.leb_spec (cw c) (ce c)), (Z.leb_spec (cr c) (ce c)); lia. }
  split; [constructor; try done |].
  - rewrite E0, En. lia.
  - rewrite Ee. apply not_elem_of_nil.
  - split; [| done]. unfold ready, edit. rewrite En. cbn [committed cbuf cr]. apply ring_app.
    unfold nready. rewrite u32_diff by done. rewrite EI. destruct (Z.leb_spec (cr c) (cw c)); dlia.
Qed.

(** ** The line discipline *)

(** The effect of character [c] on what can be read and the line being edited,
    what is sent, and whether readers are woken; [dump] is the listing of the
    processes, for control-P. *)
Definition line_input (dump : list Z) (c : Z) (rd ed : list Z) : list Z * list Z * list Z * bool :=
  if c =? CTRL 80 then (rd, ed, dump, false)
  else if c =? CTRL 85 then (rd, [], concat (replicate (length ed) [8; 32; 8]), false)
  else if (c =? CTRL 72) || (c =? 0x7f) then
    match ed with [] => (rd, ed, [], false) | _ => (rd, removelast ed, [8; 32; 8], false) end
  else if negb (c =? 0) && (Z.of_nat (length rd + length ed) <? INPUT_BUF) then
    let c := if c =? 13 then 10 else c in
    if (c =? 10) || (c =? CTRL 68) || (Z.of_nat (length rd + S (length ed)) =? INPUT_BUF)
    then (rd ++ ed ++ [c], [], [c], true)
    else (rd, ed ++ [c], [c], false)
  else (rd, ed, [], false).

Lemma cons_erase_ok s x :
  idles 3 (uart_ s) → cons_erase s x = Ok tt (CState (sent [8; 32; 8] (uart_ s)) (erased (cons_ s)) (cprocs s)) x.
Proof. intros H. unfold cons_erase. erewrite bind_ok by reflexivity. by rewrite consputc_ok. Qed.

Lemma kill_line_ok n s x :
  cons_ok (cons_ s) → nedit (cons_ s) = n → idles (3 * n) (uart_ s) →
  ∃ c', kill_line n s x = Ok tt (CState (sent (concat (replicate n [8; 32; 8])) (uart_ s)) c' (cprocs s)) x ∧
    cons_ok c' ∧ ready c' = ready (cons_ s) ∧ edit c' = [].
Proof.
  revert s. induction n as [| n IH]; intros s Hok Hn Hi; unfold kill_line; fold kill_line;
    (erewrite bind_ok by reflexivity); rewrite nedit_zero, Hn by done; cbn [Nat.eqb negb andb].
  - exists (cons_ s). cbn [replicate concat]. rewrite sent_nil. split; [by destruct s |]. split; [done |]. split; [done |].
    unfold edit. by rewrite Hn.
  - assert (∃ l v, edit (cons_ s) = l ++ [v]) as (l & v & El).
    { unfold edit. rewrite Hn, ring_S. eauto. }
    rewrite (cons_last_edit _ l v) by done.
    assert (v ≠ 10) as Hv by (intros ->; apply (co_line _ Hok); rewrite El; apply elem_of_app; right; left).
    apply Z.eqb_neq in Hv as ->. cbn [negb].
    erewrite bind_ok by (apply cons_erase_ok; apply (idles_le 3 (3 * S n)); [done | lia]).
    destruct (erased_ok _ l v Hok El) as (Hok' & Hr' & He').
    destruct (IH (CState (sent [8; 32; 8] (uart_ s)) (erased (cons_ s)) (cprocs s))) as (c' & E & H1 & H2 & H3); [done | | |].
    + cbn [cons_]. assert (length (edit (erased (cons_ s))) = length l) as Hx by (by rewrite He').
      assert (length (edit (cons_ s)) = S (length l)) as Hy by (rewrite El, length_app; simpl; lia).
      unfold edit in Hx, Hy. rewrite length_ring in *. lia.
    + cbn [uart_]. apply (idles_sent [8; 32; 8]). apply (idles_le _ (3 * S n)); [done | simpl; lia].
    + exists c'. rewrite E. cbn [uart_ cprocs cons_] in *. rewrite sent_app. cbn [replicate concat]. rewrite H2. done.
Qed.

Lemma total_used c : cons_ok c → u32 (ce c - cr c) = Z.of_nat (nready c) + Z.of_nat (nedit c).
Proof.
  intros [_ (Hr & Hw & He) Hf _]. assert (INPUT_BUF = 128) as EI by done. unfold nready, nedit in *.
  rewrite !u32_diff in * by done. destruct (Z.leb_spec (cr c) (ce c)), (Z.leb_spec (cr c) (cw c)), (Z.leb_spec (cw c) (ce c)); lia.
Qed.

Lemma stored_full c v :
  cons_ok c → Z.of_nat (nready c) + Z.of_nat (nedit c) < INPUT_BUF →
  (ce (cons_store v c) =? u32 (cr (cons_store v c) + INPUT_BUF)) = (Z.of_nat (nready c + S (nedit c)) =? INPUT_BUF).
Proof.
  intros Hok Hlt. pose proof (total_used c Hok) as Ht. destruct Hok as [_ (Hr & Hw & He) _ _].
  assert (INPUT_BUF = 128) as EI by done. rewrite EI in *. cbn [cons_store ce cr]. rewrite u32_diff in Ht by done.
  apply Bool.eq_iff_eq_true. rewrite !Z.eqb_eq. unfold u32. revert Ht. destruct (Z.leb_spec (cr c) (ce c)); intros; dlia.
Qed.

Lemma length_erasures n : length (concat (replicate n [8; 32; 8])) = (3 * n)%nat.
Proof. induction n as [| n IH]; [done |]. cbn [replicate concat]. rewrite length_app, IH. cbn. lia. Qed.

(** The editing characters. *)
Lemma line_kill s x :
  cons_ok (cons_ s) → idles (length (concat (replicate (length (edit (cons_ s))) [8; 32; 8]))) (uart_ s) →
  ∃ s', kill_line (Z.to_nat (u32 (ce (cons_ s) - cw (cons_ s)))) s x = Ok tt s' x ∧
    cons_ok (cons_ s') ∧ ready (cons_ s') = ready (cons_ s) ∧ edit (cons_ s') = [] ∧
    uart_ s' = sent (concat (replicate (length (edit (cons_ s))) [8; 32; 8])) (uart_ s) ∧ cprocs s' = cprocs s.
Proof.
  intros Hok Hi. pose proof (co_fits _ Hok) as Hf. assert (INPUT_BUF = 128) as EI by done.
  destruct (kill_line_ok (nedit (cons_ s)) s x Hok eq_refl) as (c' & E & H1 & H2 & H3).
  { apply (idles_le _ _ _ Hi). unfold edit. by rewrite length_ring, length_erasures. }
  eexists. split; [exact E |]. cbn [cons_ uart_ cprocs]. unfold edit at 2. rewrite length_ring. done.
Qed.

Lemma line_erase s x :
  cons_ok (cons_ s) → idles (length (match edit (cons_ s) with [] => [] | _ => [8; 32; 8] end)) (uart_ s) →
  ∃ s', (b <- gets cons_ ;; when (negb (ce b =? cw b)) cons_erase) s x = Ok tt s' x ∧
    cons_ok (cons_ s') ∧ ready (cons_ s') = ready (cons_ s) ∧ edit (cons_ s') = removelast (edit (cons_ s)) ∧
    uart_ s' = sent (match edit (cons_ s) with [] => [] | _ => [8; 32; 8] end) (uart_ s) ∧ cprocs s' = cprocs s.
Proof.
  intros Hok Hi. erewrite bind_ok by reflexivity. rewrite nedit_zero by done.
  assert (length (edit (cons_ s)) = nedit (cons_ s)) as Hl by (unfold edit; apply length_ring).
  destruct (edit (cons_ s)) as [| a l0] eqn:E0.
  - simpl in Hl. rewrite <- Hl. exists s. rewrite sent_nil. by split.
  - destruct (exists_last (l := a :: l0)) as (l & v & El); [done |]. rewrite El in E0. destruct (nedit (cons_ s)); [done |].
    cbn [Nat.eqb negb when]. destruct (erased_ok _ l v Hok E0) as (H1 & H2 & H3).
    eexists. rewrite cons_erase_ok by done. split; [reflexivity |]. cbn [cons_ uart_ cprocs].
    rewrite El, removelast_last. done.
Qed.

(** The other characters. *)
Lemma line_store s c h w n :
  cons_ok (cons_ s) → 0 <= c < 2 ^ 8 →
  let rd := ready (cons_ s) in let ed := edit (cons_ s) in
  let '(rd', ed', out, wk) :=
    if negb (c =? 0) && (Z.of_nat (length rd + length ed) <? INPUT_BUF) then
      let c := if c =? 13 then 10 else c in
      if (c =? 10) || (c =? CTRL 68) || (Z.of_nat (length rd + S (length ed)) =? INPUT_BUF)
      then (rd ++ ed ++ [c], [], [c], true)
      else (rd, ed ++ [c], [c], false)
    else (rd, ed, [], false) in
  idles (length out) (uart_ s) →
  ∃ s', (b <- gets cons_ ;;
     when (negb (c =? 0) && (u32 (ce b - cr b) <? INPUT_BUF))
       (let c := if c =? 13 then 10 else c in
        consputc c ;;
        updcons (cons_store (u8 c)) ;;
        b <- gets cons_ ;;
        when ((c =? 10) || (c =? CTRL 68) || (ce b =? u32 (cr b + INPUT_BUF)))
          (updcons (λ b, Cons (cbuf b) (cr b) (ce b) (ce b)) ;; wakeup C_cons))) s (Ctx h w n) =
    Ok tt s' (Ctx h (w ++ (if wk then [C_cons] else [])) n) ∧
    cons_ok (cons_ s') ∧ ready (cons_ s') = rd' ∧ edit (cons_ s') = ed' ∧
    uart_ s' = sent out (uart_ s) ∧ cprocs s' = cprocs s.
Proof.
  intros Hok Hc. cbv zeta. assert (INPUT_BUF = 128) as EI by done.
  assert (length (ready (cons_ s)) = nready (cons_ s) ∧ length (edit (cons_ s)) = nedit (cons_ s)) as [L1 L2]
    by (unfold ready, edit; by rewrite !length_ring).
  rewrite L1, L2. unfold bind at 1. cbn [gets obind]. rewrite total_used, <- Nat2Z.inj_add by done.
  destruct (negb (c =? 0) && (Z.of_nat (nready (cons_ s) + nedit (cons_ s)) <? INPUT_BUF)) eqn:Eb; cbn [when]; cycle 1.
  { intros _. exists s. cbn [ret obind]. by rewrite app_nil_r, sent_nil. }
  apply andb_true_iff in Eb as [_ Hlt]. apply Z.ltb_lt in Hlt.
  set (c' := if c =? 13 then 10 else c). assert (0 <= c' < 2 ^ 8) as Hc' by (unfold c'; destruct (c =? 13); lia).
  assert (echo c' = [c']) as Ee by (unfold echo, BACKSPACE; destruct (Z.eqb_spec c' 256); [lia | done]).
  pose proof (consputc_ok c' s (Ctx h w n)) as Ep. rewrite Ee in Ep.
  destruct (stored_ok (cons_ s) (u8 c') Hok) as (N1 & N2 & S1 & S2); [lia |]. rewrite u8_small in * by done.
  set (st := cons_store c' (cons_ s)) in *.
  assert (length (cbuf st) = Z.to_nat INPUT_BUF) as Hl by (unfold st; cbn; rewrite length_zset; apply Hok).
  assert (0 <= cr st < 2 ^ 32 ∧ 0 <= cw st < 2 ^ 32 ∧ 0 <= ce st < 2 ^ 32) as Hr.
  { destruct (co_range _ Hok) as (? & ? & _). split; [done |]. split; [done |]. apply u32_range. }
  destruct ((c' =? 10) || (c' =? CTRL 68) || (Z.of_nat (nready (cons_ s) + S (nedit (cons_ s))) =? INPUT_BUF)) eqn:Ew;
    intros Hi; rewrite (bind_ok _ _ _ _ _ _ _ (Ep Hi));
    kstep; kstep; cbn [updcons modify obind with_uart cons_ uart_ cprocs]; rewrite stored_full by (done || lia); fold st;
    rewrite Ew; cbn [when].
  - destruct (committed_ok st Hl Hr) as (H1 & H2 & H3); [lia |].
    eexists. unfold bind at 1. cbn [modify updcons wakeup obind]. ksimpl. split; [reflexivity |].
    cbn [cons_ uart_ cprocs]. fold (committed st). rewrite H2, S1, S2. done.
  - apply orb_false_iff in Ew as [Ew _]. apply orb_false_iff in Ew as [Ew _]. apply Z.eqb_neq in Ew.
    eexists. cbn [ret obind]. split; [by rewrite app_nil_r |]. cbn [cons_ uart_ cprocs].
    split; [| done]. constructor; [done | done | lia |]. rewrite S2. intros H. apply elem_of_app in H as [H | H].
    * by apply (co_line _ Hok).
    * apply list_elem_of_singleton in H. done.
Qed.

(** C37: [consoleintr] implements the line discipline: on a well-formed buffer,
    for every character, and with a transmitter that becomes idle for each character sent,
    it changes what can be read and the line being edited as the specification says
    (erase, kill, carriage return to newline, a line is readable when it ends
    or the buffer is full; control-P changes neither), sends the echo, or for control-P
    the listing of the processes, wakes the reader exactly when a line has become readable,
    and keeps the buffer well-formed. *)
Theorem consoleintr_edits s c w n :
  cons_ok (cons_ s) → names_ok (cprocs s) → 0 <= c < 2 ^ 8 →
  let '(rd, ed, out, wk) := line_input (listing (cprocs s)) c (ready (cons_ s)) (edit (cons_ s)) in
  idles (length out) (uart_ s) →
  ∃ s', consoleintr c s (Ctx [] w n) = Ok tt s' (Ctx [] (w ++ (if wk then [C_cons] else [])) n) ∧
    cons_ok (cons_ s') ∧ ready (cons_ s') = rd ∧ edit (cons_ s') = ed ∧
    uart_ s' = sent out (uart_ s) ∧ cprocs s' = cprocs s.
Proof.
  intros Hok Hnm Hc. unfold line_input, consoleintr.
  destruct (c =? CTRL 80); [| destruct (c =? CTRL 85); [| destruct ((c =? CTRL 72) || (c =? 127)) eqn:Eh]].
  - intros Hi. eexists. kacq. kstep (procdump_ok s [L_cons] w n Hnm Hi ltac:(set_solver)). krel. by rewrite app_nil_r.
  - intros Hi. destruct (line_kill s (Ctx [L_cons] w n) Hok Hi) as (s' & E & Hrest). exists s'.
    kacq. erewrite bind_ok by exact E. krel. by rewrite app_nil_r.
  - pose proof (line_erase s (Ctx [L_cons] w n) Hok) as He.
    destruct (edit (cons_ s)) as [| a l] eqn:El; intros Hi; (destruct (He Hi) as (s' & E & H1 & H2 & H3 & H4 & H5));
      exists s'; (kacq; kstep E; krel; by rewrite app_nil_r).
  - pose proof (line_store s c [L_cons] w n Hok Hc) as Hst. cbv zeta in Hst |- *. revert Hst.
    destruct (if negb (c =? 0) && _ then _ else _) as [[[rd ed] out] wk]. intros Hst Hi.
    destruct (Hst Hi) as (s' & E & Hrest). exists s'. kacq. kstep E. krel. done.
Qed.

(** *** Witness: an [a] is typed at a console whose transmitter is busy at first *)

Definition demo_console : cstate :=
  CState (Uart (replicate 32 0) 0 0 false [0; 32] [] []) (Cons (replicate 128 0) 0 0 0) (procs0 (PMem ∅ 0)).

Lemma demo_names : names_ok (cprocs demo_console).
Proof.
  intros i. unfold getp, zget. destruct (i <? 0); [by repeat constructor |]. cbn [demo_console cprocs procs0 tbl].
  destruct (replicate _ _ !! _) as [p |] eqn:E; [apply lookup_replicate in E as [-> _] |]; by repeat constructor.
Qed.

Lemma consoleintr_edits_witness :
  ∃ s', consoleintr 97 demo_console (Ctx [] [] 0) = Ok tt s' (Ctx [] [] 0) ∧
    edit (cons_ s') = [97] ∧ ready (cons_ s') = [] ∧ port (uart_ s') = [(THR, 97)].
Proof.
  destruct (consoleintr_edits demo_console 97 [] 0) as (s' & E & _ & H1 & H2 & H3 & _).
  - constructor; [done | done | done | apply not_elem_of_nil].
  - apply demo_names.
  - done.
  - split; [done |]. by exists [].
  - exists s'. split; [exact E |]. split; [exact H2 |]. split; [exact H1 |]. rewrite H3. reflexivity.
Defined.
