(* ===== verification/File.v ===== *)
(** * Open files (kernel/file.c, pipealloc of kernel/pipe.c)

    The file table, over the file system, the pipes and the process table. *)

From S2P Require Import Prelude Abi Monad Riscv Mem Block Kalloc Vm Proc Pipe Log Store LogStore ProcMem Printf Console Fs.

Inductive fdtype := FD_NONE | FD_PIPE | FD_INODE | FD_DEVICE.

#[export] Instance fdtype_eq_dec : EqDecision fdtype.
Proof. solve_decision. Defined.

(** [fpipe] is the page of the pipe, [fip] an index of the inode table. *)
Record file := File {
  ftype : fdtype;
  fref : Z;
  readable : bool;
  writable : bool;
  fpipe : Z;
  fip : Z;
  foff : Z;
  fmajor : Z }.

Definition file0 : file := File FD_NONE 0 false false 0 0 0 0.

Definition set_fref (v : Z) (f : file) : file :=
  File (ftype f) v (readable f) (writable f) (fpipe f) (fip f) (foff f) (fmajor f).
Definition set_ftype (v : fdtype) (f : file) : file :=
  File v (fref f) (readable f) (writable f) (fpipe f) (fip f) (foff f) (fmajor f).
Definition set_foff (v : Z) (f : file) : file :=
  File (ftype f) (fref f) (readable f) (writable f) (fpipe f) (fip f) v (fmajor f).

(** The kernel's state above the process table: open files, the pipes by their
    page, the file system, whose memory is that of the process table, the clock,
    and the console. *)
Record kstate := KState {
  ftable : list file;
  pipes : gmap Z pipe;
  fsys : fstate lstate procs;
  ticks : Z;
  kuart : uart;
  kcons : Console.cons }.

Definition set_ftable (v : list file) (s : kstate) : kstate := KState v (pipes s) (fsys s) (ticks s) (kuart s) (kcons s).
Definition set_pipes (v : gmap Z pipe) (s : kstate) : kstate := KState (ftable s) v (fsys s) (ticks s) (kuart s) (kcons s).
Definition set_fsys (v : fstate lstate procs) (s : kstate) : kstate := KState (ftable s) (pipes s) v (ticks s) (kuart s) (kcons s).
Definition set_ticks (v : Z) (s : kstate) : kstate := KState (ftable s) (pipes s) (fsys s) v (kuart s) (kcons s).
Definition set_console (u : uart) (c : Console.cons) (s : kstate) : kstate := KState (ftable s) (pipes s) (fsys s) (ticks s) u c.

Definition fsL : lens kstate (fstate lstate procs) := Lens fsys set_fsys.

Definition procsL : lens kstate procs :=
  Lens (λ s, kmem (fsys s))
       (λ p s, set_fsys (FState (fsb (fsys s)) (itable (fsys s)) (blk (fsys s)) p) s).

Definition logL : lens kstate lstate :=
  Lens (λ s, blk (fsys s))
       (λ b s, set_fsys (FState (fsb (fsys s)) (itable (fsys s)) b (kmem (fsys s))) s).

Definition getf (s : kstate) (i : Z) : file := default file0 (zget (ftable s) i).

Definition setf (i : Z) (f : file) (s : kstate) : kstate := set_ftable (zset (ftable s) i f) s.

Definition updf (i : Z) (f : file → file) : K kstate unit := modify (λ s, setf i (f (getf s i)) s).

(** The console, with the processes it lists and copies for. *)
Definition consL : lens kstate cstate :=
  Lens (λ s, CState (kuart s) (kcons s) (kmem (fsys s)))
       (λ c s, lput procsL (cprocs c) (set_console (uart_ c) (cons_ c) s)).

Definition in_console {A} (m : K cstate A) : K kstate A := lift consL m.

(** The kernel's [printf] *)
Definition printf (fmt : string) (args : list varg) : K kstate unit := in_console (cprintf (chars fmt) args).

Section file.
(** The end of the kernel; the calling process, its index and its pid. *)
Context (kend me mypid : Z).

#[local] Instance kstore : BlockStore lstate := log_store mypid.
#[local] Instance kmemory : Memory procs := proc_memory me.

(** Code of other components, in the kernel's state. *)
Definition in_fs {A} (m : K (fstate lstate procs) A) : K kstate A := lift fsL m.
Definition in_procs {A} (m : K procs A) : K kstate A := lift procsL m.
Definition in_mem {A} (m : K pmem A) : K kstate A := lift procsL (lift Proc.memL m).
Definition kbegin_op : K kstate unit := lift logL begin_op.
Definition kend_op : K kstate unit := lift logL (end_op mypid).

(** [myproc()] *)
Definition myproc : K kstate proc := gets (λ s, getp (kmem (fsys s)) me).

(** Pipe [pi] as the calling process uses it. *)
Definition pipeL (pi : Z) : lens kstate pstate :=
  Lens (λ s, PState (default pipe0 (pipes s !! pi)) (mem_ (kmem (fsys s))) (killed (getp (kmem (fsys s)) me)))
       (λ t s, lput procsL (lput Proc.memL (pm t) (kmem (fsys s))) (set_pipes (<[pi := pp t]> (pipes s)) s)).

Definition filealloc : K kstate (option Z) :=
  acquire L_ftable ;;
  r <- for_find (seqZ 0 NFILE) (λ i,
    f <- gets (λ s, getf s i) ;;
    if fref f =? 0 then
      updf i (set_fref 1) ;;
      release L_ftable ;;
      ret (Some i)
    else ret None) ;;
  match r with
  | Some i => ret (Some i)
  | None => release L_ftable ;; ret None
  end.

Definition filedup (f : Z) : K kstate Z :=
  acquire L_ftable ;;
  x <- gets (λ s, getf s f) ;;
  if fref x <? 1 then panic "filedup"
  else
    updf f (λ f, set_fref (i32 (fref f + 1)) f) ;;
    release L_ftable ;;
    ret f.

Definition fileclose (f : Z) : K kstate unit :=
  acquire L_ftable ;;
  x <- gets (λ s, getf s f) ;;
  if fref x <? 1 then panic "fileclose"
  else
    updf f (λ f, set_fref (i32 (fref f - 1)) f) ;;
    ff <- gets (λ s, getf s f) ;;
    if 0 <? fref ff then release L_ftable
    else
      updf f (λ f, set_ftype FD_NONE (set_fref 0 f)) ;;
      release L_ftable ;;
      match ftype ff with
      | FD_PIPE => lift (pipeL (fpipe ff)) (pipeclose kend (fpipe ff) (writable ff))
      | FD_INODE | FD_DEVICE =>
          kbegin_op ;;
          in_fs (iput mypid (fip ff)) ;;
          kend_op
      | FD_NONE => ret tt
      end.

(** [struct stat] as bytes: [dev], [ino], [type], [nlink], padding, [size].  The
    padding, which the C code leaves as the stack had it, is [pad]. *)
Definition stat_bytes (pad : list Z) (st : stat) : list Z :=
  Z_to_little_endian 4 8 (st_dev st) ++ Z_to_little_endian 4 8 (st_ino st) ++
  Z_to_little_endian 2 8 (st_type st) ++ Z_to_little_endian 2 8 (st_nlink st) ++ pad ++
  Z_to_little_endian 8 8 (st_size st).

(** [addr] is a user virtual address, pointing to a struct stat. *)
Definition filestat (pad : list Z) (f addr : Z) : K kstate Z :=
  x <- gets (λ s, getf s f) ;;
  if decide (ftype x = FD_INODE ∨ ftype x = FD_DEVICE) then
    in_fs (ilock mypid (fip x)) ;;
    st <- in_fs (stati (fip x)) ;;
    in_fs (iunlock mypid (fip x)) ;;
    p <- myproc ;;
    r <- in_mem (copyout (pagetable p) addr (stat_bytes pad st)) ;;
    if r <? 0 then ret (-1) else ret 0
  else ret (-1).

(** [devsw]: the read and write functions of a device, where it has them. *)
Context (devread devwrite : Z → option (bool → Z → Z → K kstate Z)).

Definition fileread (f addr n : Z) : K kstate Z :=
  x <- gets (λ s, getf s f) ;;
  if negb (readable x) then ret (-1)
  else
    match ftype x with
    | FD_PIPE => p <- myproc ;; lift (pipeL (fpipe x)) (piperead (fpipe x) (pagetable p) addr n)
    | FD_DEVICE =>
        if (fmajor x <? 0) || (NDEV <=? fmajor x) then ret (-1)
        else match devread (fmajor x) with
             | None => ret (-1)
             | Some rd => rd true addr n
             end
    | FD_INODE =>
        in_fs (ilock mypid (fip x)) ;;
        x <- gets (λ s, getf s f) ;;
        r <- in_fs (readi (fip x) true addr (foff x) (u32 n)) ;;
        when (0 <? r) (updf f (λ f, set_foff (u32 (foff f + r)) f)) ;;
        in_fs (iunlock mypid (fip x)) ;;
        ret r
    | FD_NONE => panic "fileread"
    end.

(** [((MAXOPBLOCKS-1-1-2) / 2) * BSIZE] *)
Definition write_max : Z := ((MAXOPBLOCKS - 1 - 1 - 2) / 2) * BSIZE.

(** The loop of [filewrite]: the value of [i] when it ends.  Each turn that does
    not end it writes at least one byte. *)
Fixpoint filewrite_loop (fuel : nat) (f addr n i : Z) : K kstate Z :=
  if i <? n then
    match fuel with
    | O => λ _ _, NoFuel
    | S fuel =>
        let n1 := Z.min (n - i) write_max in
        kbegin_op ;;
        x <- gets (λ s, getf s f) ;;
        in_fs (ilock mypid (fip x)) ;;
        x <- gets (λ s, getf s f) ;;
        r <- in_fs (writei (fip x) true (u64 (addr + i)) (foff x) n1) ;;
        when (0 <? r) (updf f (λ f, set_foff (u32 (foff f + r)) f)) ;;
        in_fs (iunlock mypid (fip x)) ;;
        kend_op ;;
        if negb (r =? n1) then ret i (* error from writei *)
        else filewrite_loop fuel f addr n (i + r)
    end
  else ret i.

Definition filewrite (f addr n : Z) : K kstate Z :=
  x <- gets (λ s, getf s f) ;;
  if negb (writable x) then ret (-1)
  else
    match ftype x with
    | FD_PIPE => p <- myproc ;; lift (pipeL (fpipe x)) (pipewrite (fpipe x) (pagetable p) addr n)
    | FD_DEVICE =>
        if (fmajor x <? 0) || (NDEV <=? fmajor x) then ret (-1)
        else match devwrite (fmajor x) with
             | None => ret (-1)
             | Some wr => wr true addr n
             end
    | FD_INODE =>
        i <- filewrite_loop (Z.to_nat n) f addr n 0 ;;
        ret (if i =? n then n else -1)
    | FD_NONE => panic "filewrite"
    end.

(** The fields that [pipealloc] sets in its two files. *)
Definition pipe_end (pi : Z) (rd wr : bool) (f : file) : file :=
  File FD_PIPE (fref f) rd wr pi (fip f) (foff f) (fmajor f).

Definition pipealloc_bad (pi : Z) (f0 f1 : option Z) : K kstate (option (Z * Z)) :=
  when (negb (pi =? 0)) (in_mem (kfree kend pi)) ;;
  match f0 with Some f => fileclose f | None => ret tt end ;;
  match f1 with Some f => fileclose f | None => ret tt end ;;
  ret None.

(** The offset of [data] in [struct pipe]: after the lock. *)
Definition PIPE_DATA : Z := 24.

(** The two files, or [None] for -1. *)
Definition pipealloc : K kstate (option (Z * Z)) :=
  f0 <- filealloc ;;
  match f0 with
  | None => pipealloc_bad 0 None None
  | Some f0 =>
      f1 <- filealloc ;;
      match f1 with
      | None => pipealloc_bad 0 (Some f0) None
      | Some f1 =>
          pi <- in_mem kalloc ;;
          if pi =? 0 then pipealloc_bad 0 (Some f0) (Some f1)
          else
            modify (λ s, set_pipes
              (<[pi := Pipe (read_bytes (ram (mem_ (kmem (fsys s)))) (pi + PIPE_DATA) (Z.to_nat PIPESIZE)) 0 0 true true]> (pipes s)) s) ;;
            updf f0 (pipe_end pi true false) ;;
            updf f1 (pipe_end pi false true) ;;
            ret (Some (f0, f1))
      end
  end.
End file.
