(* ===== verification/Kernel.v ===== *)
(** * Processes and files (kernel/proc.c: userinit, fork, exit; kernel/syscall.c:
    arguments)

    The operations of proc.c that use files and inodes, and the access of system
    calls to the registers and the memory of their process. *)

From S2P Require Import Prelude Abi Monad Riscv Mem Block Kalloc Vm Proc Pipe Log Store LogStore ProcMem Printf Fs File.

(** Offsets in [struct trapframe]. *)
Definition TF_epc : Z := 24.
Definition TF_sp : Z := 48.
Definition TF_a0 : Z := 112.
Definition TF_a1 : Z := 120.
Definition TF_a7 : Z := 168.
Definition TF_SIZE : Z := 288.

(** [initcode]: a user program that calls exec("/init") *)
Definition initcode : list Z :=
  [0x17; 0x05; 0x00; 0x00; 0x13; 0x05; 0x45; 0x02;
   0x97; 0x05; 0x00; 0x00; 0x93; 0x85; 0x35; 0x02;
   0x93; 0x08; 0x70; 0x00; 0x73; 0x00; 0x00; 0x00;
   0x93; 0x08; 0x20; 0x00; 0x73; 0x00; 0x00; 0x00;
   0xef; 0xf0; 0x9f; 0xff; 0x2f; 0x69; 0x6e; 0x69;
   0x74; 0x00; 0x00; 0x24; 0x00; 0x00; 0x00; 0x00;
   0x00; 0x00; 0x00; 0x00].

(** The string before the first NUL. *)
Fixpoint c_str (l : list Z) : list Z :=
  match l with
  | c :: l => if c =? 0 then [] else c :: c_str l
  | [] => []
  end.

(** [safestrcpy(p->name, s, sizeof(p->name))] on the array of 16 characters: a NUL
    that was copied is followed by the one it writes. *)
Definition copy_name (old s : list Z) : list Z := splice old 0 (take 15 (s ++ [0]) ++ [0]).

Section kernel.
(** Linker symbols, the address of the local [de] of fs.c, and the calling
    process. *)
Context (kend trampoline forkret_addr de : Z).

(** A word of the trapframe of process [i]. *)
Definition tf_get (i off : Z) : K kstate Z :=
  gets (λ s, let p := kmem (fsys s) in load64 (ram (mem_ p)) (trapframe (getp p i) + off)).

Definition tf_set (i off v : Z) : K kstate unit :=
  in_procs (λ s x, lift Proc.memL (modify (λ m, set_ram (store64 (ram m) (trapframe (getp s i) + off) v) m)) s x).

Definition updk (i : Z) (f : proc → proc) : K kstate unit := in_procs (updproc i f).

(** [userinit] runs before there is a process: [myproc()] is not used, and
    [namei("/")] does not use [cwd]. *)
Definition userinit : K kstate unit :=
  r <- in_procs (allocproc kend trampoline forkret_addr) ;;
  match r with
  | None => panic "null pointer" (* the code does not check *)
  | Some p =>
      in_procs (modify (λ s, Procs (tbl s) p (nextpid s) (mem_ s))) ;;
      (* allocate one user page and copy init's instructions and data into it. *)
      pt <- gets (λ s, pagetable (getp (kmem (fsys s)) p)) ;;
      in_mem (uvminit pt initcode) ;;
      updk p (set_sz PGSIZE) ;;
      (* prepare for the very first "return" from kernel to user. *)
      tf_set p TF_epc 0 ;;
      tf_set p TF_sp PGSIZE ;;
      updk p (λ q, set_name (copy_name (name q) (chars "initcode")) q) ;;
      ip <- in_fs (@namei _ _ (log_store 0) (proc_memory 0) 0 de 0 (chars "/")) ;;
      updk p (set_cwd ip) ;;
      updk p (set_state RUNNABLE) ;;
      release (L_proc p)
  end.

Context (me mypid : Z).

#[local] Instance kstore : BlockStore lstate := log_store mypid.
#[local] Instance kmemory : Memory procs := proc_memory me.

(** [for(i = 0; i < NOFILE; i++) if(p->ofile[i]) np->ofile[i] = filedup(p->ofile[i])] *)
Definition dup_files (np : Z) : K kstate unit :=
  for_each (seqZ 0 NOFILE) (λ fd,
    p <- myproc me ;;
    match zget (ofile p) fd with
    | Some (Some f) => f' <- filedup f ;; updk np (λ q, set_ofile (zset (ofile q) fd (Some f')) q)
    | _ => ret tt
    end).

Definition fork : K kstate Z :=
  (* Allocate process. *)
  r <- in_procs (allocproc kend trampoline forkret_addr) ;;
  match r with
  | None => ret (-1)
  | Some np =>
      (* Copy user memory from parent to child. *)
      p <- myproc me ;;
      q <- gets (λ s, getp (kmem (fsys s)) np) ;;
      r <- in_mem (uvmcopy kend (pagetable p) (pagetable q) (sz p)) ;;
      if r <? 0 then
        in_procs (freeproc kend np) ;;
        release (L_proc np) ;;
        ret (-1)
      else
        updk np (set_sz (sz p)) ;;
        (* copy saved user registers. *)
        in_mem (modify (λ m, set_ram (write_bytes (ram m) (trapframe q) (read_bytes (ram m) (trapframe p) (Z.to_nat TF_SIZE))) m)) ;;
        (* Cause fork to return 0 in the child. *)
        tf_set np TF_a0 0 ;;
        (* increment reference counts on open file descriptors. *)
        dup_files np ;;
        c <- in_fs (idup (default NULL (cwd p))) ;;
        updk np (set_cwd (Some c)) ;;
        updk np (λ q, set_name (copy_name (name q) (c_str (name p))) q) ;;
        pid <- gets (λ s, pid (getp (kmem (fsys s)) np)) ;;
        release (L_proc np) ;;
        acquire L_wait ;;
        updk np (set_parent (Some me)) ;;
        release L_wait ;;
        acquire (L_proc np) ;;
        updk np (set_state RUNNABLE) ;;
        release (L_proc np) ;;
        ret pid
  end.

(** Switch to scheduler: the checks, and the switch. *)
Definition sched : K kstate unit := in_procs (sched_checks me) ;; swtch (L_proc me).

(** Give up the CPU for one scheduling round. *)
Definition yield : K kstate unit :=
  acquire (L_proc me) ;;
  updk me (set_state RUNNABLE) ;;
  sched ;;
  release (L_proc me).

(** Does not return: the scheduler does not run a zombie. *)
Definition exit {A} (status : Z) : K kstate A :=
  ip <- gets (λ s, initproc (kmem (fsys s))) ;;
  if me =? ip then panic "init exiting"
  else
    (* Close all open files. *)
    for_each (seqZ 0 NOFILE) (λ fd,
      p <- myproc me ;;
      match zget (ofile p) fd with
      | Some (Some f) =>
          fileclose kend me mypid f ;;
          updk me (λ q, set_ofile (zset (ofile q) fd None) q)
      | _ => ret tt
      end) ;;
    kbegin_op ;;
    p <- myproc me ;;
    in_fs (iput mypid (default NULL (cwd p))) ;;
    kend_op mypid ;;
    updk me (set_cwd None) ;;
    acquire L_wait ;;
    (* Give any children to init. *)
    in_procs (reparent me) ;;
    (* Parent might be sleeping in wait(). *)
    p <- myproc me ;;
    match parent p with Some q => wakeup (C_proc q) | None => ret tt end ;;
    acquire (L_proc me) ;;
    updk me (set_xstate status) ;;
    updk me (set_state ZOMBIE) ;;
    release L_wait ;;
    (* Jump into the scheduler, never to return. *)
    sched ;;
    panic "zombie exit".

(** ** The arguments of system calls *)

(** Fetch the uint64 at addr from the current process: [None] for -1. *)
Definition fetchaddr (addr : Z) : K kstate (option Z) :=
  p <- myproc me ;;
  if (sz p <=? addr) || (sz p <? u64 (addr + 8)) then ret None
  else
    r <- in_mem (copyin (pagetable p) addr 8) ;;
    if negb (r.1 =? 0) then ret None else ret (Some (little_endian_to_Z 8 r.2)).

(** Fetch the nul-terminated string at addr from the current process, with its
    length, or -1 for error. *)
Definition fetchstr (addr max : Z) : K kstate (Z * list Z) :=
  p <- myproc me ;;
  r <- in_mem (copyinstr (pagetable p) addr (Z.to_nat max)) ;;
  if r.1 <? 0 then ret (r.1, [])
  else ret (Z.of_nat (length (c_str r.2)), c_str r.2).

Definition argraw (n : Z) : K kstate Z :=
  if (0 <=? n) && (n <=? 5) then tf_get me (TF_a0 + 8 * n) else panic "argraw".

(** The nth 32-bit system call argument. *)
Definition argint (n : Z) : K kstate Z := v <- argraw n ;; ret (i32 v).

Definition argaddr (n : Z) : K kstate Z := argraw n.

Definition argstr (n max : Z) : K kstate (Z * list Z) := addr <- argaddr n ;; fetchstr addr max.
End kernel.
