(* ===== verification/ProcFork.v ===== *)
(** * What [fork] gives the child

    [fork] composes [allocproc], [uvmcopy], the copy of the trap frame, [filedup] and
    [idup]; when it fails it undoes what it did. *)

From S2P Require Import Prelude Abi Monad Riscv Mem Block Kalloc Vm VmMap VmCopy VmSpace VmFree Proc ProcSpec ProcSpace ProcLife ProcAlloc.
From S2P Require Import Pipe Bio Log Store LogStore ProcMem Printf Fs File Kernel.

(** The kernel's state with other open files, inodes and processes *)
Definition kst (s : kstate) (ft : list file) (it : list inode) (P : procs) : kstate :=
  KState ft (pipes s) (FState (fsb (fsys s)) it (blk (fsys s)) P) (ticks s) (kuart s) (kcons s).

Lemma kst_self s : kst s (ftable s) (itable (fsys s)) (kmem (fsys s)) = s.
Proof. by destruct s as [a b [c d e f] g h i]. Qed.

Lemma in_procs_ok {A} (m : K procs A) s ft it P x a P' x' :
  m P x = Ok a P' x' → in_procs m (kst s ft it P) x = Ok a (kst s ft it P') x'.
Proof. intros E. exact (lift_ok procsL m (kst s ft it P) x a P' x' E). Qed.

Lemma in_mem_ok {A} (m : K pmem A) s ft it i q S M x a M' x' :
  m M x = Ok a M' x' → in_mem m (kst s ft it (put i q S M)) x = Ok a (kst s ft it (put i q S M')) x'.
Proof. intros E. apply in_procs_ok, lift_put, E. Qed.

(** ** Open files *)

(** How many of the descriptors [fds] of [p] are the file [f] *)
Definition refs (p : proc) (fds : list Z) (f : Z) : Z :=
  Z.of_nat (length (filter (λ fd, zget (ofile p) fd = Some (Some f)) fds)).

Definition fget (ft : list file) (f : Z) : file := default file0 (zget ft f).

(** The file table after the descriptors [fds] of [p] have been duplicated *)
Record dupped (p : proc) (fds : list Z) (ft ft' : list file) : Prop := {
  dp_len : length ft' = length ft;
  dp_ref : ∀ f, 0 <= f < Z.of_nat (length ft) → fget ft' f = set_fref (fref (fget ft f) + refs p fds f) (fget ft f) }.

(** The open files of [p] are in the table and referred to. *)
Definition files_ok (ft : list file) (p : proc) (fds : list Z) : Prop :=
  ∀ fd f, fd ∈ fds → zget (ofile p) fd = Some (Some f) →
    0 <= f < Z.of_nat (length ft) ∧ 1 <= fref (fget ft f) ∧ fref (fget ft f) + Z.of_nat (length fds) < 2 ^ 31.

Lemma refs_cons p fd fds f :
  refs p (fd :: fds) f = refs p fds f + (if decide (zget (ofile p) fd = Some (Some f)) then 1 else 0).
Proof. unfold refs. rewrite filter_cons. destruct (decide _); simpl; lia. Qed.

Lemma filedup_ok s ft it P f h w k :
  L_ftable ∉ h → 0 <= f < Z.of_nat (length ft) → 1 <= fref (fget ft f) < 2 ^ 31 - 1 →
  filedup f (kst s ft it P) (Ctx h w k) =
  Ok f (kst s (zset ft f (set_fref (fref (fget ft f) + 1) (fget ft f))) it P) (Ctx h w k).
Proof.
  intros Hh Hf Hr. unfold filedup. kacq. kstep. change (getf (kst s ft it P) f) with (fget ft f).
  destruct (Z.ltb_spec (fref (fget ft f)) 1); [lia |].
  assert (updf f (λ f, set_fref (i32 (fref f + 1)) f) (kst s ft it P) (Ctx (L_ftable :: h) w k) =
    Ok tt (kst s (zset ft f (set_fref (fref (fget ft f) + 1) (fget ft f))) it P) (Ctx (L_ftable :: h) w k)) as E.
  { unfold updf, modify. change (getf (kst s ft it P) f) with (fget ft f). unfold i32. by rewrite signed_small by lia. }
  kstep E. krel. done.
Qed.

(** The child's descriptors *)
Definition dup_fd (p : proc) (o : list (option Z)) (fd : Z) : list (option Z) :=
  match zget (ofile p) fd with Some (Some f) => zset o fd (Some f) | _ => o end.

Definition dup_ofile (p : proc) (fds : list Z) (o : list (option Z)) : list (option Z) := foldl (dup_fd p) o fds.

Lemma dup_ofile_get p fds o fd :
  Forall (λ fd, 0 <= fd < Z.of_nat (length o)) fds →
  length (dup_ofile p fds o) = length o ∧
  zget (dup_ofile p fds o) fd = match zget (ofile p) fd with Some (Some f) => if decide (fd ∈ fds) then Some (Some f) else zget o fd | _ => zget o fd end.
Proof.
  revert o. induction fds as [| d fds IH]; intros o Hf; [split; [done |]; destruct (zget (ofile p) fd) as [[f |] |]; done |].
  apply Forall_cons in Hf as [Hd Hf]. change (dup_ofile p (d :: fds) o) with (dup_ofile p fds (dup_fd p o d)).
  assert (length (dup_fd p o d) = length o) as Hlen by (unfold dup_fd; destruct (zget (ofile p) d) as [[f |] |]; [apply length_zset | done..]).
  destruct (IH (dup_fd p o d)) as [IH1 IH2]; [by rewrite Hlen |]. split; [congruence |]. rewrite IH2. unfold dup_fd.
  destruct (decide (d = fd)) as [-> | Hne].
  - destruct (zget (ofile p) fd) as [[f |] |]; [| done..]. rewrite zget_zset_eq, (decide_True (P := fd ∈ fd :: fds)) by (done || left). by destruct (decide (fd ∈ fds)).
  - assert (zget (match zget (ofile p) d with Some (Some f) => zset o d (Some f) | _ => o end) fd = zget o fd) as ->
      by (destruct (zget (ofile p) d) as [[f |] |]; [by apply zget_zset_ne | done..]).
    destruct (zget (ofile p) fd) as [[f |] |]; [| done..]. apply decide_ext. rewrite elem_of_cons. naive_solver.
Qed.

Lemma fget_zset ft f v g : 0 <= f < Z.of_nat (length ft) → fget (zset ft f v) g = if f =? g then v else fget ft g.
Proof. intros Hf. unfold fget. rewrite zget_zset by done. by destruct (f =? g). Qed.

Lemma dupped_cons p fd fds f ft ft' :
  zget (ofile p) fd = Some (Some f) → 0 <= f < Z.of_nat (length ft) →
  dupped p fds (zset ft f (set_fref (fref (fget ft f) + 1) (fget ft f))) ft' → dupped p (fd :: fds) ft ft'.
Proof.
  intros E Hf [D1 D2]. rewrite length_zset in D1, D2. constructor; [done |]. intros g Hg. rewrite D2, fget_zset by done. rewrite refs_cons, E.
  destruct (Z.eqb_spec f g) as [-> | Hne].
  - rewrite decide_True by done. destruct (fget ft g). unfold set_fref. cbn. f_equal. lia.
  - rewrite decide_False by congruence. by rewrite Z.add_0_r.
Qed.

Lemma set_ofile_twice o o' q : set_ofile o' (set_ofile o q) = set_ofile o' q.
Proof. done. Qed.

Section fork.
Context (kend trampoline forkret_addr : Z) (Hkern : KERNBASE <= kend) (Htramp : 0 <= trampoline < 2 ^ 55).
Context (me : Z).
Notation mem_inv := (mem_inv kend trampoline).
Notation own_step := (own_step kend trampoline).
Notation space_ok := (space_ok kend trampoline).

Lemma dup_files_loop np fds s ft it q S M h w k :
  tbl_ok S → inproc np → me ≠ np → L_ftable ∉ h → files_ok ft (getp S me) fds →
  ∃ ft', for_each fds (λ fd,
      p <- myproc me ;;
      match zget (ofile p) fd with
      | Some (Some f) => f' <- filedup f ;; updk np (λ q, set_ofile (zset (ofile q) fd (Some f')) q)
      | _ => ret tt
      end) (kst s ft it (put np q S M)) (Ctx h w k) =
    Ok tt (kst s ft' it (put np (set_ofile (dup_ofile (getp S me) fds (ofile q)) q) S M)) (Ctx h w k) ∧ dupped (getp S me) fds ft ft'.
Proof.
  intros Ht Hnp Hne Hh. revert ft q. induction fds as [| fd fds IH]; intros ft q Hok.
  { exists ft. split; [| constructor; [done |]; intros f Hf; unfold refs; cbn; destruct (fget ft f); unfold set_fref; cbn; f_equal; lia].
    cbn [for_each dup_ofile foldl]. assert (set_ofile (ofile q) q = q) as -> by (by destruct q). done. }
  cbn [for_each]. set (p := getp S me) in *.
  assert (myproc me (kst s ft it (put np q S M)) (Ctx h w k) = Ok p (kst s ft it (put np q S M)) (Ctx h w k)) as Em.
  { unfold myproc, gets. cbn [fsys kst kmem]. rewrite getp_put by done. destruct (Z.eqb_spec np me); [congruence | done]. }
  change (dup_ofile p (fd :: fds) (ofile q)) with (dup_ofile p fds (dup_fd p (ofile q) fd)).
  assert (files_ok ft p fds) as Htail.
  { intros fd' g Hin Eg. destruct (Hok fd' g (list_elem_of_further _ _ _ Hin) Eg) as (Hg & G1 & G2). cbn [length] in G2. split_and!; lia. }
  destruct (zget (ofile p) fd) as [[f |] |] eqn:E.
  2, 3: (assert (dup_fd p (ofile q) fd = ofile q) as -> by (unfold dup_fd; by rewrite E); destruct (IH ft q Htail) as (ft' & E' & [D1 D2]); exists ft';
    split; [erewrite bind_ok; [exact E' |]; kstep Em; by rewrite E |]; constructor; [done |]; intros g Hg; rewrite D2, refs_cons, E by done; by rewrite decide_False, Z.add_0_r).
  destruct (Hok fd f (list_elem_of_here _ _) E) as (Hf & Hr1 & Hr2). cbn [length] in Hr2.
  set (ft1 := zset ft f (set_fref (fref (fget ft f) + 1) (fget ft f))). set (q1 := set_ofile (zset (ofile q) fd (Some f)) q).
  destruct (IH ft1 q1) as (ft' & E' & Hd).
  { intros fd' g Hin Eg. destruct (Hok fd' g (list_elem_of_further _ _ _ Hin) Eg) as (Hg & G1 & G2). cbn [length] in G2. unfold ft1. rewrite length_zset, fget_zset by done.
    split; [done |]. destruct (Z.eqb_spec f g) as [-> |]; [cbn [fref set_fref] |]; lia. }
  exists ft'. split; [| by apply (dupped_cons p fd fds f)].
  erewrite bind_ok; [rewrite E'; unfold q1; rewrite set_ofile_twice; unfold dup_fd; rewrite E; reflexivity |].
  kstep Em. rewrite E. kstep (filedup_ok s ft it (put np q S M) f h w k Hh Hf ltac:(lia)). fold ft1. apply in_procs_ok. by rewrite updproc_put.
Qed.

(** ** Memory *)

Lemma space_ok_eq m l q q' : space_ok m l q → pagetable q' = pagetable q → trapframe q' = trapframe q → sz q' = sz q → space_ok m l q'.
Proof. intros [H1 H2 H3 H4 H5 H6 H7] E1 E2 E3. constructor; by rewrite ?E1, ?E2, ?E3. Qed.

(** Only the trap frame of the process is changed. *)
Lemma space_tf m l q m' :
  space_ok m l q → same_outside (trapframe q) (ram m) (ram m') → freelist m' = freelist m →
  space_ok m' l q ∧ touches kend m l (holds (ram m) q) m' l (holds (ram m') q) ∧
  ∀ va, 0 <= va < TRAPFRAME → shows (ram m') (pagetable q) va = shows (ram m) (pagetable q) va.
Proof.
  intros [H1 [U1 U2 U3] H3 H4 H5 H6 H7] Hout Hfl.
  assert (free_pages kend m' l) as Hf.
  { destruct (ok_free _ _ _ _ (as_vm _ _ _ _ H1)) as (Hc & Hnd & Hp). split; [| done]. rewrite Hfl. by apply (chain_outside kend (ram m) _ (trapframe q)). }
  destruct (as_page_changed kend (pagetable q) m l m' l (trapframe q) H1 H5 H7 Hout Hf) as (A1 & A2 & A3 & A4); [by left |].
  split; [constructor; try done | split; [constructor |]]; try done.
  - constructor; [by rewrite A3 | by rewrite A3 | intros va Hva; rewrite A3; by apply U3].
  - intros x Hx. rewrite A4 by done. by apply H3.
  - by rewrite A2.
  - intros x. unfold holds. by rewrite A2.
  - intros x Hx. apply Hout, Hx. right. by left.
Qed.

(** [*(np->trapframe) = *(p->trapframe); np->trapframe->a0 = 0] *)
Definition copy_tf (m : mem) (tfq tfp : Z) : mem :=
  store64 (write_bytes m tfq (read_bytes m tfp (Z.to_nat TF_SIZE))) (tfq + TF_a0) 0.

Lemma copy_tf_ok m tfq tfp :
  same_outside tfq m (copy_tf m tfq tfp) ∧
  ∀ off, 0 <= off < TF_SIZE → mget (copy_tf m tfq tfp) (tfq + off) = if (TF_a0 <=? off) && (off <? TF_a0 + 8) then 0 else mget m (tfp + off).
Proof.
  unfold copy_tf, TF_a0, TF_SIZE. assert (bytes (read_bytes m tfp (Z.to_nat 288))) as Hb.
  { rewrite read_bytes_map. apply Forall_forall. intros b (j & <- & _)%list_elem_of_In%in_map_iff. apply mget_range. }
  assert (∀ j, zget (read_bytes m tfp (Z.to_nat 288)) j = if (0 <=? j) && (j <? 288) then Some (mget m (tfp + j)) else None) as Hz.
  { intros j. rewrite read_bytes_map. change (Z.of_nat (Z.to_nat 288)) with 288. unfold zget. destruct (Z.ltb_spec j 0), (Z.leb_spec 0 j); cbn [andb]; try lia; [done |].
    rewrite list_lookup_fmap. destruct (Z.ltb_spec j 288).
    - rewrite lookup_seqZ_lt by lia. cbn. do 2 f_equal. lia.
    - rewrite lookup_seqZ_ge by lia. done. }
  split.
  - intros x Hx. rewrite mget_store64_out by (unfold PGSIZE in *; lia). rewrite mget_write_bytes, Hz by done.
    destruct (Z.leb_spec 0 (x - tfq)), (Z.ltb_spec (x - tfq) 288); cbn [andb]; try done. unfold PGSIZE in *. lia.
  - intros off Hoff. destruct (decide (112 <= off < 120)) as [Hin | Hno].
    + replace (tfq + off) with (tfq + 112 + (off - 112)) by lia. rewrite mget_store64_zero by lia. destruct (Z.leb_spec 112 off), (Z.ltb_spec off (112 + 8)); try lia. done.
    + rewrite mget_store64_out by lia. rewrite mget_write_bytes, Hz by done. replace (tfq + off - tfq) with off by lia.
      destruct (Z.leb_spec 0 off), (Z.ltb_spec off 288); try lia. destruct (Z.leb_spec 112 off), (Z.ltb_spec off (112 + 8)); try lia; done.
Qed.

(** [uvmcopy] from the process in slot [i] to the new one in slot [np] *)
Lemma fork_memory i np s l h w k :
  mem_inv s l → inproc i → inproc np → i ≠ np → live (getp s i) → live (getp s np) → sz (getp s np) = 0 → L_kmem ∉ h →
  let p := getp s i in let q := getp s np in
  ∃ r m' l', uvmcopy kend (pagetable p) (pagetable q) (sz p) (mem_ s) (Ctx h w k) = Ok r m' (Ctx h w k) ∧ as_step kend (pagetable q) (mem_ s) l m' l' ∧
    ((r = 0 ∧ ∀ x, 0 <= x < TRAPFRAME → shows (ram m') (pagetable q) x = shows (ram (mem_ s)) (pagetable p) x) ∨
     (r = -1 ∧ Z.of_nat (length l) <= 3 * (PGROUNDUP (sz p) / PGSIZE) ∧ resized_to (ram (mem_ s)) (ram m') (pagetable q) 0 0)).
Proof.
  intros H Hi Hnp Hne Hlp Hlq Hsz Hh p q. pose proof (mi_live _ _ _ _ H i Hi Hlp) as Hp. pose proof (mi_live _ _ _ _ H np Hnp Hlq) as Hq. fold p in Hp. fold q in Hq, Hsz.
  pose proof (sp_fills _ _ _ _ _ Hp) as Fp. pose proof (sp_fills _ _ _ _ _ Hq) as Fq. rewrite Hsz in Fq. pose proof (sp_sz _ _ _ _ _ Hp) as Hs.
  assert (TRAPFRAME = 2 ^ 38 - 8192 ∧ TRAPFRAME mod PGSIZE = 0) as [ET Hal] by done. destruct (PGROUNDUP_bounds (sz p)) as [B1 B2]; [unfold PGSIZE in *; lia |].
  assert (PGROUNDUP (sz p) <= TRAPFRAME) as B3 by (unfold PGSIZE in *; dlia). change (PGROUNDUP 0) with 0 in *.
  assert (∀ x, 0 <= x < TRAPFRAME → shows (ram (mem_ s)) (pagetable q) x = None) as Hq0 by (intros x Hx; apply (fills_None _ _ 0); [done | done | change (PGROUNDUP 0) with 0; lia]).
  destruct (uvmcopy_ok kend (Z.lt_le_trans 0 KERNBASE kend eq_refl Hkern) (pagetable p) (pagetable q) (sz p) (mem_ s) l h w k) as (r & m' & l' & E & S & _ & _ & Hso & Hr);
    [apply Hp | apply Hq | | done | | done |].
  { intros x H1 H2. apply Hne. apply (mi_apart _ _ _ _ H i np x); try done; by right. }
  { intros x Hx. split; [apply Fp; lia | apply Hq0; lia]. }
  exists r, m', l'. split; [done |]. split; [done |]. destruct Hr as [[-> Hr] | (-> & Hlen & Hr)]; [left | right]; (split; [done |]).
  - intros x Hx. rewrite Hr, Hso, Hq0 by done. destruct (Z.ltb_spec x (PGROUNDUP (sz p))); [done |]. symmetry. by apply (fills_None _ _ (sz p)).
  - split; [done |]. intros x Hx. rewrite Hr, Hq0 by done. change (PGROUNDUP 0) with 0. destruct (Z.ltb_spec x 0); [lia | done].
Qed.

Lemma idup_kst c s ft it P h w k :
  L_itable ∉ h → 0 <= iref (default inode0 (zget it c)) < 2 ^ 31 - 1 →
  in_fs (idup c) (kst s ft it P) (Ctx h w k) =
  Ok c (kst s ft (zset it c (set_ref (iref (default inode0 (zget it c)) + 1) (default inode0 (zget it c)))) P) (Ctx h w k).
Proof.
  intros Hh Hr. unfold in_fs. apply (lift_ok fsL (idup c) (kst s ft it P)). unfold idup. kacq.
  unfold updi. kstep. krel. change (geti (lget fsL (kst s ft it P)) c) with (default inode0 (zget it c)). unfold i32. by rewrite signed_small by lia.
Qed.

Lemma tf_set_put s ft it np q S M off v x : tbl_ok S → inproc np →
  tf_set np off v (kst s ft it (put np q S M)) x = Ok tt (kst s ft it (put np q S (set_ram (store64 (ram M) (trapframe q + off) v) M))) x.
Proof. intros Ht Hnp. unfold tf_set. apply in_procs_ok. rewrite getp_put_eq by done. by apply lift_put. Qed.

Lemma updk_put s ft it np f q S M x : tbl_ok S → inproc np → updk np f (kst s ft it (put np q S M)) x = Ok tt (kst s ft it (put np (f q) S M)) x.
Proof. intros Ht Hnp. unfold updk. apply in_procs_ok. by apply updproc_put. Qed.

(** The child: a copy of [p], whose address space and registers are those of [p] in
    memory [m], but for the result 0 of [fork]. *)
Record child (p : proc) (m : mem) (n : Z) (old q : proc) (m' : mem) : Prop := {
  ch_state : state q = RUNNABLE;
  ch_pid : pid q = n;
  ch_parent : parent q = Some me;
  ch_sz : sz q = sz p;
  ch_memory : ∀ va, 0 <= va < TRAPFRAME → shows m' (pagetable q) va = shows m (pagetable p) va;
  ch_regs : ∀ off, 0 <= off < TF_SIZE →
    mget m' (trapframe q + off) = if (TF_a0 <=? off) && (off <? TF_a0 + 8) then 0 else mget m (trapframe p + off);
  ch_ofile : ofile q = dup_ofile p (seqZ 0 NOFILE) (ofile old);
  ch_cwd : cwd q = cwd p;
  ch_name : name q = copy_name (name old) (c_str (name p)) }.

(** The entry of the child at the end *)
Definition child_entry (p q : proc) (c : Z) : proc :=
  set_state RUNNABLE (set_parent (Some me) (set_name (copy_name (name q) (c_str (name p)))
    (set_cwd (Some c) (set_ofile (dup_ofile p (seqZ 0 NOFILE) (ofile q)) (set_sz (sz p) q))))).

(** [fork] from the copied memory on, with the lock of the child held *)
Lemma fork_rest np s ft it S m2 w k c :
  let p := getp S me in let q := getp S np in
  tbl_ok S → inproc np → me ≠ np → files_ok ft p (seqZ 0 NOFILE) → cwd p = Some c → 0 <= iref (default inode0 (zget it c)) < 2 ^ 31 - 1 →
  ∃ ft', dupped p (seqZ 0 NOFILE) ft ft' ∧
  (updk np (set_sz (sz p)) ;;
   in_mem (modify (λ m, set_ram (write_bytes (ram m) (trapframe q) (read_bytes (ram m) (trapframe p) (Z.to_nat TF_SIZE))) m)) ;;
   tf_set np TF_a0 0 ;;
   dup_files me np ;;
   c <- in_fs (idup (default NULL (cwd p))) ;;
   updk np (set_cwd (Some c)) ;;
   updk np (λ q, set_name (copy_name (name q) (c_str (name p))) q) ;;
   pid <- gets (λ s, pid (getp (kmem (fsys s)) np)) ;;
   release (L_proc np) ;;
   acquire L_wait ;;
   updk np (set_parent (Some me)) ;;
   release L_wait ;;
   acquire (L_proc np) ;;
   updk np (set_state RUNNABLE) ;;
   release (L_proc np) ;;
   ret pid) (kst s ft it (put np q S m2)) (Ctx [L_proc np] w k) =
  Ok (pid q) (kst s ft' (zset it c (set_ref (iref (default inode0 (zget it c)) + 1) (default inode0 (zget it c))))
    (put np (child_entry p q c) S (set_ram (copy_tf (ram m2) (trapframe q) (trapframe p)) m2))) (Ctx [] w k).
Proof.
  intros p q Ht Hnp Hne Hfiles Hc Hi. set (x := Ctx [L_proc np] w k). set (m3 := set_ram (write_bytes (ram m2) (trapframe q) (read_bytes (ram m2) (trapframe p) (Z.to_nat TF_SIZE))) m2).
  destruct (dup_files_loop np (seqZ 0 NOFILE) s ft it (set_sz (sz p) q) S (set_ram (copy_tf (ram m2) (trapframe q) (trapframe p)) m2) [L_proc np] w k Ht Hnp Hne) as (ft' & Ed & Hd);
    [not_held | exact Hfiles |]. exists ft'. split; [exact Hd |].
  kstep (updk_put s ft it np (set_sz (sz p)) q S m2 x Ht Hnp).
  assert (in_mem (modify (λ m, set_ram (write_bytes (ram m) (trapframe q) (read_bytes (ram m) (trapframe p) (Z.to_nat TF_SIZE))) m))
    (kst s ft it (put np (set_sz (sz p) q) S m2)) x = Ok tt (kst s ft it (put np (set_sz (sz p) q) S m3)) x) as E1 by (by apply in_mem_ok).
  kstep E1. kstep (tf_set_put s ft it np (set_sz (sz p) q) S m3 TF_a0 0 x Ht Hnp). unfold dup_files. kstep Ed. fold x. rewrite Hc.
  set (m4 := set_ram (copy_tf (ram m2) (trapframe q) (trapframe p)) m2). set (q1 := set_ofile _ _).
  kstep (idup_kst c s ft' it (put np q1 S m4) [L_proc np] w k ltac:(not_held) Hi). set (it' := zset it c _).
  kstep (updk_put s ft' it' np (set_cwd (Some c)) q1 S m4 x Ht Hnp). kstep (updk_put s ft' it' np (λ q, set_name (copy_name (name q) (c_str (name p))) q) (set_cwd (Some c) q1) S m4 x Ht Hnp).
  set (q2 := set_name _ _). kstep. change (kmem (fsys (kst s ft' it' (put np q2 S m4)))) with (put np q2 S m4). rewrite getp_put_eq by done. unfold x. krel. kacq. kstep (updk_put s ft' it' np (set_parent (Some me)) q2 S m4 (Ctx [L_wait] w k) Ht Hnp). krel. kacq.
  kstep (updk_put s ft' it' np (set_state RUNNABLE) (set_parent (Some me) q2) S m4 (Ctx [L_proc np] w k) Ht Hnp). krel. done.
Qed.

(** The copy of the memory and of the trap frame, in the table *)
Lemma fork_child np s l m2 l2 c :
  let p := getp s me in let q := getp s np in let m4 := set_ram (copy_tf (ram m2) (trapframe q) (trapframe p)) m2 in
  mem_inv s l → inproc me → inproc np → me ≠ np → live p → live q → as_step kend (pagetable q) (mem_ s) l m2 l2 →
  (∀ x, 0 <= x < TRAPFRAME → shows (ram m2) (pagetable q) x = shows (ram (mem_ s)) (pagetable p) x) →
  own_step np s l (put np (child_entry p q c) s m4) l2 ∧
  (∀ x, 0 <= x < TRAPFRAME → shows (ram m4) (pagetable q) x = shows (ram (mem_ s)) (pagetable p) x) ∧
  ∀ off, 0 <= off < TF_SIZE → mget (ram m4) (trapframe q + off) = if (TF_a0 <=? off) && (off <? TF_a0 + 8) then 0 else mget (ram (mem_ s)) (trapframe p + off).
Proof.
  intros p q m4 H Hme Hnp Hne Hlp Hlq S Hcp. pose proof (mi_live _ _ _ _ H me Hme Hlp) as Hp. pose proof (mi_live _ _ _ _ H np Hnp Hlq) as Hq. fold p in Hp. fold q in Hq.
  destruct (as_step_tf kend trampoline Htramp (mem_ s) l q m2 l2 Hq S) as (_ & _ & _ & T & _).
  assert (space_ok m2 l2 (set_sz (sz p) q)) as Hq2.
  { apply (space_resized kend trampoline Htramp (mem_ s) l); [done | done | | apply Hp]. intros x Hx. rewrite Hcp by done. by apply (sp_fills _ _ _ _ _ Hp). }
  destruct (copy_tf_ok (ram m2) (trapframe q) (trapframe p)) as [Hout Hregs].
  destruct (space_tf m2 l2 (set_sz (sz p) q) m4 Hq2 Hout eq_refl) as (Hq4 & T4 & Hs4).
  destruct (touches_other kend trampoline (mem_ s) l (holds (ram (mem_ s)) q) m2 l2 (holds (ram m2) q) p T (mi_free _ _ _ _ H)) as [_ [_ _ Htf]]; [| done | |].
  { intros x Hx. by apply (holds_page kend trampoline (mem_ s) l q). }
  { intros x H1 H2. apply Hne. by apply (mi_apart _ _ _ _ H me np x). }
  split; [| split].
  - apply (slot_changed kend trampoline Htramp); [exact H | exact Hnp | exact Hlq | exact Hlq | discriminate | by apply (space_ok_eq _ _ (set_sz (sz p) q)) |]. exact (touches_trans kend _ _ _ _ _ _ _ _ _ T T4).
  - intros x Hx. transitivity (shows (ram m2) (pagetable q) x); [by apply Hs4 | by apply Hcp].
  - intros off Hoff. cbn [ram set_ram m4]. rewrite Hregs by done. destruct (_ && _); [done |]. apply Htf. unfold TF_SIZE, PGSIZE in *. lia.
Qed.

(** The way out when the memory could not be copied *)
Lemma fork_undo np s l m2 l2 h w k :
  let q := getp s np in
  mem_inv s l → inproc np → live q → sz q = 0 → as_step kend (pagetable q) (mem_ s) l m2 l2 → resized_to (ram (mem_ s)) (ram m2) (pagetable q) 0 0 → L_kmem ∉ h →
  ∃ s' l', freeproc kend np (put np q s m2) (Ctx h w k) = Ok tt s' (Ctx h w k) ∧ own_step np s l s' l' ∧ getp s' np = freed q.
Proof.
  intros q H Hnp Hl Hsz S Hr Hh. assert (0 <= 0 <= TRAPFRAME) as H0 by done. rewrite <- Hsz in Hr at 1.
  pose proof (proc_resized kend trampoline Htramp np s l m2 l2 0 H Hnp Hl S Hr H0) as Ho. fold q in Ho.
  assert (set_sz 0 q = q) as Eq by (rewrite <- Hsz; apply set_sz_same). rewrite Eq in Ho.
  pose proof (getp_put_eq np q s m2 (mi_tbl _ _ _ _ H) Hnp) as Hg.
  destruct (freeproc_ok kend trampoline Hkern Htramp np (put np q s m2) l2 h w k (os_inv _ _ _ _ _ _ _ Ho) Hnp ltac:(by rewrite Hg) Hh) as (s' & l' & E & Hst & Hg' & _).
  exists s', l'. split; [done |]. rewrite Hg in Hg'. split; [| done]. by apply (own_step_trans kend trampoline np s l (put np q s m2) l2).
Qed.

(** C4: [fork] returns.  The parent gets the number of a new process: the child,
    in a slot that was free, is runnable, sees byte for byte the memory the parent
    sees, with the same permissions, has the parent's registers except for the
    result 0, its open files, whose reference counts grow by one for every
    descriptor, and its directory.  Or the parent gets -1: there was no free slot, or
    not enough memory, and then every page is free again that was, and no file or
    inode was touched.  No other process notices, the parent included, and no page
    has two owners. *)
Theorem fork_copies s l w k c :
  let P := kmem (fsys s) in let p := getp P me in let i := default inode0 (zget (itable (fsys s)) c) in
  mem_inv P l → inproc me → live p → files_ok (ftable s) p (seqZ 0 NOFILE) → cwd p = Some c → 0 <= iref i < 2 ^ 31 - 1 →
  ∃ r s' l', fork kend trampoline forkret_addr me s (Ctx [] w k) = Ok r s' (Ctx [] w k) ∧
  let P' := kmem (fsys s') in
  (r = nextpid P ∧ ∃ np ft', inproc np ∧ np ≠ me ∧ state (getp P np) = UNUSED ∧ own_step np P l P' l' ∧
     child p (ram (mem_ P)) (nextpid P) (getp P np) (getp P' np) (ram (mem_ P')) ∧
     dupped p (seqZ 0 NOFILE) (ftable s) ft' ∧ s' = kst s ft' (zset (itable (fsys s)) c (set_ref (iref i + 1) i)) P') ∨
  (r = -1 ∧ s' = kst s (ftable s) (itable (fsys s)) P' ∧
     ((P' = P ∧ ∀ j, inproc j → state (getp P j) ≠ UNUSED) ∨
      (∃ np, inproc np ∧ np ≠ me ∧ state (getp P' np) = UNUSED ∧ own_step np P l P' l' ∧ (∀ x, x ∈ l' ↔ x ∈ l) ∧
         Z.of_nat (length l) <= 6 + 3 * (PGROUNDUP (sz p) / PGSIZE)))).
Proof.
  intros P p i H Hme Hl Hfiles Hc Hi. pose proof (live_used kend trampoline P l me H Hme Hl) as Hused. assert (fork kend trampoline forkret_addr me s (Ctx [] w k) = fork kend trampoline forkret_addr me (kst s (ftable s) (itable (fsys s)) P) (Ctx [] w k)) as -> by (unfold P; by rewrite kst_self). unfold fork.
  assert (0 <= PGROUNDUP (sz p) / PGSIZE) as Hnp0.
  { pose proof (sp_sz _ _ _ _ _ (mi_live _ _ _ _ H me Hme Hl)) as Hsz. fold p in Hsz. assert (TRAPFRAME < 2 ^ 39) by done. destruct (PGROUNDUP_bounds (sz p)); [unfold PGSIZE; lia |]. apply Z.div_pos; [lia | done]. }
  destruct (allocproc_ok kend trampoline forkret_addr Hkern Htramp P l [] w k H) as (r & P1 & l1 & E1 & Hr); [intros j; apply not_elem_of_nil | apply not_elem_of_nil | apply not_elem_of_nil |].
  kstep (in_procs_ok _ s (ftable s) (itable (fsys s)) P (Ctx [] w k) _ _ _ E1). destruct r as [np |].
  2: { exists (-1), (kst s (ftable s) (itable (fsys s)) P1), l1. split; [done |]. right. split; [done |]. split; [done |]. cbn [fsys kmem kst].
       destruct Hr as [(-> & -> & Hn) | (np & Hnp & Hu & Hu' & Hst & Hlen & Hl1)]; [by left | right]. exists np. split_and!; try done; [by intros -> |].
       lia. }
  destruct Hr as (Hnp & Hu & _ & Hst & Hlen & tf & pt & Hpt & Hg). assert (np ≠ me) as Hne by (by intros ->).
  pose proof (os_inv _ _ _ _ _ _ _ Hst) as H1. assert (getp P1 me = p) as Hp1 by (by apply (os_table _ _ _ _ _ _ _ Hst)). assert (tbl_ok P1) as Ht1 by apply H1.
  destruct (mi_unused _ _ _ _ H np Hnp Hu) as (Hpt0 & _ & Hsz0). set (old := getp P np) in *. set (q := getp P1 np) in *.
  assert (live q ∧ sz q = 0 ∧ pid q = nextpid P ∧ ofile q = ofile old ∧ name q = name old) as (Hlq & Hszq & Hpid & Hof & Hnm) by (rewrite Hg; done).
  assert (∀ x, myproc me (kst s (ftable s) (itable (fsys s)) P1) x = Ok p (kst s (ftable s) (itable (fsys s)) P1) x) as Em by (intros x; rewrite <- Hp1; reflexivity).
  kstep (Em (Ctx [L_proc np] w k)). kstep. change (getp (kmem (fsys (kst s (ftable s) (itable (fsys s)) P1))) np) with q.
  destruct (fork_memory me np P1 l1 [L_proc np] w k H1 Hme Hnp ltac:(congruence) ltac:(by rewrite Hp1) Hlq Hszq ltac:(not_held)) as (r & m2 & l2 & E2 & S & Hr). rewrite Hp1 in E2, Hr. fold q in E2, S, Hr.
  rewrite <- (put_self np P1 Ht1 Hnp). fold q.
  kstep (in_mem_ok _ s (ftable s) (itable (fsys s)) np q P1 (mem_ P1) (Ctx [L_proc np] w k) _ _ _ E2).
  destruct Hr as [[-> Hcp] | (-> & Hlen2 & Hcp)]; cbn [Z.ltb Z.compare].
  - destruct (fork_rest np s (ftable s) (itable (fsys s)) P1 m2 w k c Ht1 Hnp ltac:(congruence) ltac:(by rewrite Hp1) ltac:(by rewrite Hp1) Hi) as (ft' & Hd & E3).
    rewrite Hp1 in Hd, E3. fold q in E3. rewrite E3, Hpid. eexists (nextpid P), _, l2. split; [reflexivity |]. left. split; [done |]. exists np, ft'.
    destruct (fork_child np P1 l1 m2 l2 c H1 Hme Hnp ltac:(congruence) ltac:(by rewrite Hp1) Hlq S ltac:(by rewrite Hp1)) as (Ho & Hmem & Hregs). rewrite Hp1 in Ho, Hmem, Hregs. fold q in Ho, Hmem, Hregs.
    set (m4 := set_ram (copy_tf (ram m2) (trapframe q) (trapframe p)) m2) in *. cbn [fsys kmem kst].
    destruct (os_others _ _ _ _ _ _ _ Hst me Hme ltac:(congruence) Hl) as [_ Hsh Htf].
    split; [done |]. split; [done |]. split; [done |]. split; [by apply (own_step_trans kend trampoline np P l P1 l1) |]. split; [| by split].
    rewrite getp_put_eq by done. constructor; try done.
    + intros va Hva. rewrite <- Hsh by done. by apply Hmem.
    + intros off Hoff. rewrite <- Htf by (unfold TF_SIZE, PGSIZE in *; lia). by apply Hregs.
    + cbn. by rewrite Hof.
    + cbn. by rewrite Hnm.
  - destruct (fork_undo np P1 l1 m2 l2 [L_proc np] w k H1 Hnp Hlq Hszq S Hcp ltac:(not_held)) as (P' & l' & E3 & Ho & Hg').
    kstep (in_procs_ok _ s (ftable s) (itable (fsys s)) _ (Ctx [L_proc np] w k) _ _ _ E3). krel. eexists (-1), _, l'. split; [reflexivity |]. right. split; [done |]. split; [done |].
    cbn [fsys kmem kst]. right. exists np. pose proof (own_step_trans kend trampoline np P l P1 l1 P' l' Hst Ho) as Ho'.
    split_and!; try done; [by rewrite Hg' | | lia]. intros x. pose proof (os_conserve _ _ _ _ _ _ _ Ho' x) as Hcs. unfold held_by in Hcs. rewrite Hg' in Hcs. fold old in Hcs.
    assert (¬ live old) by (intros Hold; by apply Hold). assert (¬ live (freed q)) by (intros Hold; by apply Hold). tauto.
Qed.
End fork.

(** *** Witness: a process of 5000 bytes with one open file forks *)

Definition grown : procs := left_by one_proc (growproc kend20 0 5000 one_proc (Ctx [] [] 0)).

(** Its descriptor 0 is file 0; its directory is the inode in entry 0. *)
Definition parent_entry (p : proc) : proc := set_cwd (Some 0) (set_ofile (zset (ofile p) 0 (Some 0)) p).

Definition forker : kstate :=
  KState (zset (replicate (Z.to_nat NFILE) file0) 0 (set_fref 1 file0)) ∅
    (FState (Superblock FSMAGIC 1000 954 200 30 2 32 45) (zset (replicate 50 inode0) 0 (set_ref 1 inode0))
       (LState (Log 2 30 0 false 1 0 []) (BCache [] (Disk ∅ []))) (put 0 (parent_entry (getp grown 0)) grown (mem_ grown)))
    0 (Console.Uart [] 0 0 false [] [] []) (Console.Cons [] 0 0 0).

Lemma grown_inv : ∃ l, mem_inv kend20 0x80007000 grown l ∧ live (getp grown 0).
Proof.
  destruct one_proc_ok as (l & H & Hlen & Hl & Hsz & _).
  destruct (growproc_ok kend20 0x80007000 ltac:(vm_compute; discriminate) ltac:(lia) 0 5000 one_proc l [] [] 0 H ltac:(split; [lia | reflexivity]) Hl ltac:(lia) (not_elem_of_nil _))
    as (r & s' & l' & E & Hst & Hr). assert (grown = s') as -> by (unfold grown; rewrite E; reflexivity). clear E.
  exists l'. split; [exact (os_inv _ _ _ _ _ _ _ Hst) |]. unfold live in *. destruct Hr as [(_ & Hg & _) | (_ & _ & _ & Hg & _)]; rewrite Hg, ?pagetable_set_sz; exact Hl.
Qed.

Lemma parent_inv kend trampoline s l i :
  0 <= trampoline < 2 ^ 55 → mem_inv kend trampoline s l → inproc i → live (getp s i) → mem_inv kend trampoline (put i (parent_entry (getp s i)) s (mem_ s)) l.
Proof.
  intros Ht H Hi Hl. pose proof (mi_live _ _ _ _ H i Hi Hl) as Hsp. apply (os_inv kend trampoline i s l), slot_changed; try done.
  - exact (live_used _ _ _ _ _ H Hi Hl).
  - by apply (space_ok_eq _ _ _ _ (getp s i)).
  - apply touches_refl, H.
Qed.

Lemma forker_ok : ∃ l, mem_inv kend20 0x80007000 (kmem (fsys forker)) l.
Proof.
  destruct grown_inv as (l & H & Hl). exists l. exact (parent_inv kend20 0x80007000 grown l 0 ltac:(lia) H ltac:(split; [lia | reflexivity]) Hl).
Qed.

Lemma pagetable_parent p : pagetable (parent_entry p) = pagetable p.
Proof. done. Qed.

Lemma ofile_parent p : ofile (parent_entry p) = zset (ofile p) 0 (Some 0).
Proof. done. Qed.

Lemma forker_entry : let p := getp (kmem (fsys forker)) 0 in live p ∧ cwd p = Some 0 ∧ files_ok (ftable forker) p (seqZ 0 NOFILE).
Proof.
  destruct grown_inv as (l & H & Hl).
  assert (getp (kmem (fsys forker)) 0 = parent_entry (getp grown 0)) as -> by (apply getp_put_eq; [apply H | split; [lia | reflexivity]]).
  assert (ofile (getp grown 0) = replicate 16 None) as Eo by (vm_compute; reflexivity).
  cbv zeta. unfold live in *. rewrite pagetable_parent. split; [exact Hl |]. split; [reflexivity |].
  intros fd f Hfd. rewrite ofile_parent, Eo. intros Ef. assert (f = 0) as ->.
  { destruct (decide (fd = 0)) as [-> | Hne]; [by injection Ef |]. rewrite zget_zset_ne in Ef by congruence. unfold zget in Ef.
    destruct (fd <? 0); [discriminate Ef |]. apply lookup_replicate in Ef as [Ef _]. discriminate Ef. }
  clear. vm_compute. repeat split; discriminate.
Qed.

Definition result {S} (o : outcome S Z) : Z := match o with Ok r _ _ => r | _ => 0 end.

Lemma fork_copies_witness :
  ∃ s' l' np, fork kend20 0x80007000 0x80001000 0 forker (Ctx [] [] 0) = Ok 2 s' (Ctx [] [] 0) ∧ mem_inv kend20 0x80007000 (kmem (fsys s')) l' ∧
    state (getp (kmem (fsys s')) np) = RUNNABLE ∧ parent (getp (kmem (fsys s')) np) = Some 0.
Proof.
  destruct forker_ok as (l & H), forker_entry as (Hl & Hc & Hfiles).
  assert (result (fork kend20 0x80007000 0x80001000 0 forker (Ctx [] [] 0)) = 2) as E2 by (vm_compute; reflexivity).
  destruct (fork_copies kend20 0x80007000 0x80001000 ltac:(vm_compute; discriminate) ltac:(lia) 0 forker l [] 0 0 H) as (r & s' & l' & E & Hr).
  - split; [lia | reflexivity].
  - exact Hl.
  - exact Hfiles.
  - exact Hc.
  - vm_compute. split; [discriminate | reflexivity].
  - rewrite E in E2. cbn [result] in E2. subst r. destruct Hr as [(_ & np & ft' & _ & _ & _ & Ho & Hch & _) | [Hr _]]; [| discriminate Hr].
    exists s', l', np. split; [exact E |]. split; [exact (os_inv _ _ _ _ _ _ _ Ho) |]. split; [exact (ch_state _ _ _ _ _ _ _ Hch) | exact (ch_parent _ _ _ _ _ _ _ Hch)].
Defined.
