(* ===== verification/Exec.v ===== *)
(** * exec (kernel/exec.c, kernel/elf.h) *)

From S2P Require Import Prelude Abi Monad Riscv Mem Block Kalloc Vm Proc Pipe Log Store LogStore ProcMem Printf Fs File Kernel.

Definition ELF_MAGIC : Z := 0x464C457F.
Definition ELF_PROG_LOAD : Z := 1.

(** [sizeof(struct elfhdr)] and [sizeof(struct proghdr)] *)
Definition ELFHDR : Z := 64.
Definition PROGHDR : Z := 56.

(** The fields that [exec] uses. *)
Record elfhdr := Elfhdr { e_magic : Z; e_entry : Z; e_phoff : Z; e_phnum : Z }.

Definition elf_of (v : list Z) : elfhdr :=
  Elfhdr (get32 v 0) (get_le 8 v 24) (get_le 8 v 32) (get16 v 56).

Record proghdr := Proghdr { ph_type : Z; ph_off : Z; ph_vaddr : Z; ph_filesz : Z; ph_memsz : Z }.

Definition ph_of (v : list Z) : proghdr :=
  Proghdr (get32 v 0) (get_le 8 v 8) (get_le 8 v 16) (get_le 8 v 32) (get_le 8 v 40).

(** [for(last=s=path; *s; s++) if( *s == '/') last = s+1;] *)
Fixpoint last_elem (last path : list Z) : list Z :=
  match path with
  | [] => last
  | c :: path => last_elem (if c =? SLASH then path else last) path
  end.

Section exec.
Context (kend trampoline de : Z).
Context (me mypid : Z).
(** The addresses of the locals [elf] and [ph]. *)
Context (elf_at ph_at : Z).

#[local] Instance kstore : BlockStore lstate := log_store mypid.
#[local] Instance kmemory : Memory procs := proc_memory me.

(** Reads [size] bytes at [off] of the inode to the kernel's variable at [a]. *)
Definition read_struct (ip a off size : Z) : K kstate (option (list Z)) :=
  r <- in_fs (readi ip false a off size) ;;
  if negb (r =? size) then ret None
  else bs <- in_mem (gets (λ m, read_bytes (ram m) a (Z.to_nat size))) ;; ret (Some bs).

(** One turn reads a page, so that [sz/PGSIZE + 1] turns are enough. *)
Fixpoint loadseg_loop (fuel : nat) (pt va ip offset size i : Z) : K kstate Z :=
  if i <? size then
    match fuel with
    | O => λ _ _, NoFuel
    | S fuel =>
        pa <- in_mem (walkaddr pt (u64 (va + i))) ;;
        if pa =? 0 then panic "loadseg: address should exist"
        else
          let n := if size - i <? PGSIZE then size - i else PGSIZE in
          r <- in_fs (readi ip false pa (u32 (offset + i)) n) ;;
          if negb (u32 r =? n) then ret (-1)
          else loadseg_loop fuel pt va ip offset size (u32 (i + PGSIZE))
    end
  else ret 0.

(** Load a program segment into pagetable at virtual address va. *)
Definition loadseg (pt va ip offset size : Z) : K kstate Z :=
  loadseg_loop (S (Z.to_nat (size / PGSIZE))) pt va ip offset size 0.

(** The loop that loads the program: the size reached, and whether it ended. *)
Fixpoint load_loop (k : nat) (pt ip off size : Z) : K kstate (bool * Z) :=
  match k with
  | O => ret (true, size)
  | S k =>
      r <- read_struct ip ph_at (u32 off) PROGHDR ;;
      match r with
      | None => ret (false, size)
      | Some v =>
          let ph := ph_of v in
          if negb (ph_type ph =? ELF_PROG_LOAD) then load_loop k pt ip (i32 (off + PROGHDR)) size
          else if ph_memsz ph <? ph_filesz ph then ret (false, size)
          else if u64 (ph_vaddr ph + ph_memsz ph) <? ph_vaddr ph then ret (false, size)
          else
            sz1 <- in_mem (uvmalloc kend pt size (u64 (ph_vaddr ph + ph_memsz ph))) ;;
            if sz1 =? 0 then ret (false, size)
            else if negb (ph_vaddr ph mod PGSIZE =? 0) then ret (false, sz1)
            else
              r <- loadseg pt (ph_vaddr ph) ip (u32 (ph_off ph)) (u32 (ph_filesz ph)) ;;
              if r <? 0 then ret (false, sz1)
              else load_loop k pt ip (i32 (off + PROGHDR)) sz1
      end
  end.

(** Pushes the argument strings: [sp] and the pointers to them, or [None]. *)
Fixpoint push_args (argv : list (list Z)) (pt sp stackbase argc : Z) : K kstate (option (Z * list Z)) :=
  match argv with
  | [] => ret (Some (sp, []))
  | a :: argv =>
      if MAXARG <=? argc then ret None
      else
        let sp := u64 (sp - (Z.of_nat (length a) + 1)) in
        let sp := u64 (sp - sp mod 16) in (* riscv sp must be 16-byte aligned *)
        if sp <? stackbase then ret None
        else
          r <- in_mem (copyout pt sp (a ++ [0])) ;;
          if r <? 0 then ret None
          else
            r <- push_args argv pt sp stackbase (argc + 1) ;;
            ret (match r with Some (sp', l) => Some (sp', sp :: l) | None => None end)
  end.

(** The label [bad]: [pt] is 0 before there is a page table, and [ip] is [None]
    once the inode has been put. *)
Definition exec_bad (pt size : Z) (ip : option Z) : K kstate Z :=
  when (negb (pt =? 0)) (in_mem (proc_freepagetable kend pt size)) ;;
  match ip with
  | Some ip => in_fs (iunlockput mypid ip) ;; kend_op mypid
  | None => ret tt
  end ;;
  ret (-1).

(** What [exec] does once the program is in memory. *)
Definition exec_image (path : list Z) (argv : list (list Z)) (elf : elfhdr) (pt size : Z) : K kstate Z :=
  p <- myproc me ;;
  let oldsz := sz p in
  (* Allocate two pages at the next page boundary.  Use the second as the user stack. *)
  let size := PGROUNDUP size in
  sz1 <- in_mem (uvmalloc kend pt size (u64 (size + 2 * PGSIZE))) ;;
  if sz1 =? 0 then exec_bad pt size None
  else
    let size := sz1 in
    in_mem (uvmclear pt (u64 (size - 2 * PGSIZE))) ;;
    let stackbase := u64 (size - PGSIZE) in
    r <- push_args argv pt size stackbase 0 ;;
    match r with
    | None => exec_bad pt size None
    | Some (sp, ustack) =>
        let argc := Z.of_nat (length argv) in
        (* push the array of argv[] pointers. *)
        let sp := u64 (sp - (argc + 1) * 8) in
        let sp := u64 (sp - sp mod 16) in
        if sp <? stackbase then exec_bad pt size None
        else
          r <- in_mem (copyout pt sp (concat (map (Z_to_little_endian 8 8) (ustack ++ [0])))) ;;
          if r <? 0 then exec_bad pt size None
          else
            (* arguments to user main(argc, argv) *)
            tf_set me TF_a1 sp ;;
            (* Save program name for debugging. *)
            updk me (λ q, set_name (copy_name (name q) (last_elem path path)) q) ;;
            (* Commit to the user image. *)
            updk me (set_pagetable pt) ;;
            updk me (set_sz size) ;;
            tf_set me TF_epc (e_entry elf) ;; (* initial program counter = main *)
            tf_set me TF_sp sp ;; (* initial stack pointer *)
            in_mem (proc_freepagetable kend (pagetable p) oldsz) ;;
            ret (i32 argc)
    end.

Definition exec (path : list Z) (argv : list (list Z)) : K kstate Z :=
  kbegin_op ;;
  p <- myproc me ;;
  r <- in_fs (namei mypid de (default NULL (cwd p)) path) ;;
  match r with
  | None => kend_op mypid ;; ret (-1)
  | Some ip =>
      in_fs (ilock mypid ip) ;;
      (* Check ELF header *)
      r <- read_struct ip elf_at 0 ELFHDR ;;
      match r with
      | None => exec_bad 0 0 (Some ip)
      | Some v =>
          let elf := elf_of v in
          if negb (e_magic elf =? ELF_MAGIC) then exec_bad 0 0 (Some ip)
          else
            pt <- in_mem (proc_pagetable kend trampoline (trapframe p)) ;;
            if pt =? 0 then exec_bad 0 0 (Some ip)
            else
              (* Load program into memory. *)
              r <- load_loop (Z.to_nat (e_phnum elf)) pt ip (i32 (e_phoff elf)) 0 ;;
              if negb r.1 then exec_bad pt r.2 (Some ip)
              else
                in_fs (iunlockput mypid ip) ;;
                kend_op mypid ;;
                exec_image path argv elf pt r.2
      end
  end.
End exec.
