(* ===== verification/Sysfile.v ===== *)
(** * File system calls (kernel/sysfile.c) *)

From S2P Require Import Prelude Abi Monad Riscv Mem Block Kalloc Vm Proc Pipe Log Store LogStore ProcMem Printf Fs File Kernel Exec.

(** [omode & flag] *)
Definition has (omode flag : Z) : bool := negb (Z.land omode flag =? 0).

Section sysfile.
Context (kend trampoline de : Z).
Context (me mypid : Z).

#[local] Instance kstore : BlockStore lstate := log_store mypid.
#[local] Instance kmemory : Memory procs := proc_memory me.

Definition inode_at (ip : Z) : K kstate inode := gets (λ s, geti (fsys s) ip).

Definition updinode (ip : Z) (f : inode → inode) : K kstate unit := in_fs (updi ip f).

(** The nth argument as a file descriptor: the descriptor and the file. *)
Definition argfd (n : Z) : K kstate (option (Z * Z)) :=
  fd <- argint me n ;;
  p <- myproc me ;;
  if (fd <? 0) || (NOFILE <=? fd) then ret None
  else ret (match zget (ofile p) fd with Some (Some f) => Some (fd, f) | _ => None end).

Definition set_fd (fd : Z) (f : option Z) : K kstate unit := updk me (λ q, set_ofile (zset (ofile q) fd f) q).

(** Allocate a file descriptor for the given file, or -1. *)
Definition fdalloc (f : Z) : K kstate Z :=
  r <- for_find (seqZ 0 NOFILE) (λ fd,
    p <- myproc me ;;
    match zget (ofile p) fd with
    | Some None => set_fd fd (Some f) ;; ret (Some fd)
    | _ => ret None
    end) ;;
  ret (default (-1) r).

Definition sys_dup : K kstate Z :=
  r <- argfd 0 ;;
  match r with
  | None => ret (-1)
  | Some (_, f) =>
      fd <- fdalloc f ;;
      if fd <? 0 then ret (-1)
      else filedup f ;; ret fd
  end.

Section devices.
(** [devsw] *)
Context (devread devwrite : Z → option (bool → Z → Z → K kstate Z)).

Definition sys_read : K kstate Z :=
  r <- argfd 0 ;;
  match r with
  | None => ret (-1)
  | Some (_, f) => n <- argint me 2 ;; p <- argaddr me 1 ;; fileread me mypid devread f p n
  end.

Definition sys_write : K kstate Z :=
  r <- argfd 0 ;;
  match r with
  | None => ret (-1)
  | Some (_, f) => n <- argint me 2 ;; p <- argaddr me 1 ;; filewrite me mypid devwrite f p n
  end.
End devices.

Definition sys_close : K kstate Z :=
  r <- argfd 0 ;;
  match r with
  | None => ret (-1)
  | Some (fd, f) =>
      set_fd fd None ;;
      fileclose kend me mypid f ;;
      ret 0
  end.

Definition sys_fstat (pad : list Z) : K kstate Z :=
  r <- argfd 0 ;;
  match r with
  | None => ret (-1)
  | Some (_, f) => st <- argaddr me 1 ;; filestat me mypid pad f st
  end.

Definition my_cwd : K kstate Z := p <- myproc me ;; ret (default NULL (cwd p)).

Definition namei_path (path : list Z) : K kstate (option Z) :=
  c <- my_cwd ;; in_fs (namei mypid de c path).

Definition parent_path (path : list Z) : K kstate (option (Z * list Z)) :=
  c <- my_cwd ;; in_fs (nameiparent mypid de c path).

(** The label [bad] of [sys_link]. *)
Definition link_bad (ip : Z) : K kstate Z :=
  in_fs (ilock mypid ip) ;;
  updinode ip (λ i, set_nlink (i16 (nlink i - 1)) i) ;;
  in_fs (iupdate ip) ;;
  in_fs (iunlockput mypid ip) ;;
  kend_op mypid ;;
  ret (-1).

(** Create the path new as a link to the same inode as old. *)
Definition sys_link : K kstate Z :=
  old <- argstr me 0 MAXPATH ;;
  if old.1 <? 0 then ret (-1)
  else
    new <- argstr me 1 MAXPATH ;;
    if new.1 <? 0 then ret (-1)
    else
      kbegin_op ;;
      r <- namei_path old.2 ;;
      match r with
      | None => kend_op mypid ;; ret (-1)
      | Some ip =>
          in_fs (ilock mypid ip) ;;
          i <- inode_at ip ;;
          if itype i =? T_DIR then
            in_fs (iunlockput mypid ip) ;;
            kend_op mypid ;;
            ret (-1)
          else
            updinode ip (λ i, set_nlink (i16 (nlink i + 1)) i) ;;
            in_fs (iupdate ip) ;;
            in_fs (iunlock mypid ip) ;;
            r <- parent_path new.2 ;;
            match r with
            | None => link_bad ip
            | Some (dp, name) =>
                in_fs (ilock mypid dp) ;;
                d <- inode_at dp ;;
                i <- inode_at ip ;;
                r <- (if negb (idev d =? idev i) then ret (-1)
                      else in_fs (dirlink mypid de dp name (inum i))) ;;
                if r <? 0 then
                  in_fs (iunlockput mypid dp) ;;
                  link_bad ip
                else
                  in_fs (iunlockput mypid dp) ;;
                  in_fs (iput mypid ip) ;;
                  kend_op mypid ;;
                  ret 0
            end
      end.

(** Is the directory dp empty except for "." and ".." ?  One entry a turn. *)
Fixpoint isdirempty_loop (fuel : nat) (dp off : Z) : K kstate bool :=
  d <- inode_at dp ;;
  if off <? isize d then
    match fuel with
    | O => λ _ _, NoFuel
    | S fuel =>
        e <- in_fs (read_dirent de "isdirempty: readi" dp off) ;;
        if negb (get16 e 0 =? 0) then ret false
        else isdirempty_loop fuel dp (off + DIRENT)
    end
  else ret true.

Definition isdirempty (dp : Z) : K kstate bool :=
  d <- inode_at dp ;;
  isdirempty_loop (dir_fuel (isize d)) dp (2 * DIRENT).

(** The label [bad] of [sys_unlink]. *)
Definition unlink_bad (dp : Z) : K kstate Z :=
  in_fs (iunlockput mypid dp) ;;
  kend_op mypid ;;
  ret (-1).

Definition sys_unlink : K kstate Z :=
  path <- argstr me 0 MAXPATH ;;
  if path.1 <? 0 then ret (-1)
  else
    kbegin_op ;;
    r <- parent_path path.2 ;;
    match r with
    | None => kend_op mypid ;; ret (-1)
    | Some (dp, name) =>
        in_fs (ilock mypid dp) ;;
        (* Cannot unlink "." or "..". *)
        if (namecmp name (chars ".") =? 0) || (namecmp name (chars "..") =? 0) then unlink_bad dp
        else
          r <- in_fs (dirlookup de dp name) ;;
          match r with
          | None => unlink_bad dp
          | Some (ip, off) =>
              in_fs (ilock mypid ip) ;;
              i <- inode_at ip ;;
              if nlink i <? 1 then panic "unlink: nlink < 1"
              else
                empty <- (if itype i =? T_DIR then isdirempty ip else ret true) ;;
                if negb empty then
                  in_fs (iunlockput mypid ip) ;;
                  unlink_bad dp
                else
                  in_mem (modify (λ m, set_ram (write_bytes (ram m) de (replicate (Z.to_nat DIRENT) 0)) m)) ;;
                  r <- in_fs (writei dp false de off DIRENT) ;;
                  if negb (r =? DIRENT) then panic "unlink: writei"
                  else
                    i <- inode_at ip ;;
                    when (itype i =? T_DIR)
                      (updinode dp (λ d, set_nlink (i16 (nlink d - 1)) d) ;;
                       in_fs (iupdate dp)) ;;
                    in_fs (iunlockput mypid dp) ;;
                    updinode ip (λ i, set_nlink (i16 (nlink i - 1)) i) ;;
                    in_fs (iupdate ip) ;;
                    in_fs (iunlockput mypid ip) ;;
                    kend_op mypid ;;
                    ret 0
          end
    end.

(** The path's new inode, locked; [None] for 0. *)
Definition create (path : list Z) (type major minor : Z) : K kstate (option Z) :=
  r <- parent_path path ;;
  match r with
  | None => ret None
  | Some (dp, name) =>
      in_fs (ilock mypid dp) ;;
      r <- in_fs (dirlookup de dp name) ;;
      match r with
      | Some (ip, _) =>
          in_fs (iunlockput mypid dp) ;;
          in_fs (ilock mypid ip) ;;
          i <- inode_at ip ;;
          if (type =? T_FILE) && ((itype i =? T_FILE) || (itype i =? T_DEVICE)) then ret (Some ip)
          else in_fs (iunlockput mypid ip) ;; ret None
      | None =>
          d <- inode_at dp ;;
          ip <- in_fs (ialloc (idev d) type) ;;
          (* ialloc does not return 0 *)
          in_fs (ilock mypid ip) ;;
          updinode ip (λ i, set_nlink 1 (set_dev_nums major minor i)) ;;
          in_fs (iupdate ip) ;;
          i <- inode_at ip ;;
          d <- inode_at dp ;;
          when (type =? T_DIR)  (* Create . and .. entries. *)
            (updinode dp (λ d, set_nlink (i16 (nlink d + 1)) d) ;; (* for ".." *)
             in_fs (iupdate dp) ;;
             (* No ip->nlink++ for ".": avoid cyclic ref count. *)
             r1 <- in_fs (dirlink mypid de ip (chars ".") (inum i)) ;;
             if r1 <? 0 then panic "create dots"
             else
               r2 <- in_fs (dirlink mypid de ip (chars "..") (inum d)) ;;
               if r2 <? 0 then panic "create dots" else ret tt) ;;
          r <- in_fs (dirlink mypid de dp name (inum i)) ;;
          if r <? 0 then panic "create: dirlink"
          else
            in_fs (iunlockput mypid dp) ;;
            ret (Some ip)
      end
  end.

(** Failing with the inode locked in a transaction. *)
Definition drop_inode (ip : Z) : K kstate Z :=
  in_fs (iunlockput mypid ip) ;;
  kend_op mypid ;;
  ret (-1).

(** [sys_open] once it has the inode, locked. *)
Definition open_inode (ip omode : Z) : K kstate Z :=
  i <- inode_at ip ;;
  if (itype i =? T_DEVICE) && ((major i <? 0) || (NDEV <=? major i)) then drop_inode ip
  else
    f <- filealloc ;;
    match f with
    | None => drop_inode ip
    | Some f =>
        fd <- fdalloc f ;;
        if fd <? 0 then
          fileclose kend me mypid f ;;
          drop_inode ip
        else
          (if itype i =? T_DEVICE then
             updf f (λ x, File FD_DEVICE (fref x) (readable x) (writable x) (fpipe x) (fip x) (foff x) (major i))
           else
             updf f (λ x, File FD_INODE (fref x) (readable x) (writable x) (fpipe x) (fip x) 0 (fmajor x))) ;;
          updf f (λ x, File (ftype x) (fref x) (negb (has omode O_WRONLY)) (has omode O_WRONLY || has omode O_RDWR)
                            (fpipe x) ip (foff x) (fmajor x)) ;;
          when (has omode O_TRUNC && (itype i =? T_FILE)) (in_fs (itrunc ip)) ;;
          in_fs (iunlock mypid ip) ;;
          kend_op mypid ;;
          ret fd
    end.

Definition sys_open : K kstate Z :=
  path <- argstr me 0 MAXPATH ;;
  if path.1 <? 0 then ret (-1)
  else
    omode <- argint me 1 ;;
    kbegin_op ;;
    if has omode O_CREATE then
      r <- create path.2 T_FILE 0 0 ;;
      match r with
      | None => kend_op mypid ;; ret (-1)
      | Some ip => open_inode ip omode
      end
    else
      r <- namei_path path.2 ;;
      match r with
      | None => kend_op mypid ;; ret (-1)
      | Some ip =>
          in_fs (ilock mypid ip) ;;
          i <- inode_at ip ;;
          if (itype i =? T_DIR) && negb (omode =? O_RDONLY) then drop_inode ip
          else open_inode ip omode
      end.

(** [create] and then nothing else, for [sys_mkdir] and [sys_mknod]. *)
Definition create_only (path : list Z) (type major minor : Z) : K kstate Z :=
  r <- create path type major minor ;;
  match r with
  | None => kend_op mypid ;; ret (-1)
  | Some ip =>
      in_fs (iunlockput mypid ip) ;;
      kend_op mypid ;;
      ret 0
  end.

Definition sys_mkdir : K kstate Z :=
  kbegin_op ;;
  path <- argstr me 0 MAXPATH ;;
  if path.1 <? 0 then kend_op mypid ;; ret (-1)
  else create_only path.2 T_DIR 0 0.

Definition sys_mknod : K kstate Z :=
  kbegin_op ;;
  path <- argstr me 0 MAXPATH ;;
  if path.1 <? 0 then kend_op mypid ;; ret (-1)
  else
    major <- argint me 1 ;;
    minor <- argint me 2 ;;
    create_only path.2 T_DEVICE (i16 major) (i16 minor).

Definition sys_chdir : K kstate Z :=
  kbegin_op ;;
  path <- argstr me 0 MAXPATH ;;
  if path.1 <? 0 then kend_op mypid ;; ret (-1)
  else
    r <- namei_path path.2 ;;
    match r with
    | None => kend_op mypid ;; ret (-1)
    | Some ip =>
        in_fs (ilock mypid ip) ;;
        i <- inode_at ip ;;
        if negb (itype i =? T_DIR) then drop_inode ip
        else
          in_fs (iunlock mypid ip) ;;
          c <- my_cwd ;;
          in_fs (iput mypid c) ;;
          kend_op mypid ;;
          updk me (set_cwd (Some ip)) ;;
          ret 0
    end.

(** The loop of [sys_exec] over the user's [argv]: the pages allocated for the
    strings, the strings, and whether it ended well. *)
Fixpoint fetch_args (k : nat) (uargv i : Z) : K kstate (bool * list Z * list (list Z)) :=
  match k with
  | O => ret (false, [], []) (* i >= NELEM(argv) *)
  | S k =>
      u <- fetchaddr me (u64 (uargv + 8 * i)) ;;
      match u with
      | None => ret (false, [], [])
      | Some uarg =>
          if uarg =? 0 then ret (true, [], [])
          else
            pa <- in_mem kalloc ;;
            if pa =? 0 then ret (false, [], [])
            else
              s <- fetchstr me uarg PGSIZE ;;
              if s.1 <? 0 then ret (false, [pa], [])
              else
                r <- fetch_args k uargv (i + 1) ;;
                ret (r.1.1, pa :: r.1.2, s.2 :: r.2)
      end
  end.

Definition free_args (pages : list Z) : K kstate unit := for_each pages (λ pa, in_mem (kfree kend pa)).

Definition sys_exec (elf_at ph_at : Z) : K kstate Z :=
  path <- argstr me 0 MAXPATH ;;
  if path.1 <? 0 then ret (-1)
  else
    uargv <- argaddr me 1 ;;
    r <- fetch_args (Z.to_nat MAXARG) uargv 0 ;;
    if r.1.1 then
      v <- exec kend trampoline de me mypid elf_at ph_at path.2 r.2 ;;
      free_args r.1.2 ;;
      ret v
    else
      free_args r.1.2 ;;
      ret (-1).

Definition sys_pipe : K kstate Z :=
  fdarray <- argaddr me 0 ;;
  r <- pipealloc kend me mypid ;;
  match r with
  | None => ret (-1)
  | Some (rf, wf) =>
      fd0 <- fdalloc rf ;;
      fd1 <- (if fd0 <? 0 then ret (-1) else fdalloc wf) ;;
      if (fd0 <? 0) || (fd1 <? 0) then
        when (0 <=? fd0) (set_fd fd0 None) ;;
        fileclose kend me mypid rf ;;
        fileclose kend me mypid wf ;;
        ret (-1)
      else
        p <- myproc me ;;
        r1 <- in_mem (copyout (pagetable p) fdarray (Z_to_little_endian 4 8 fd0)) ;;
        r2 <- (if r1 <? 0 then ret (-1) else in_mem (copyout (pagetable p) (u64 (fdarray + 4)) (Z_to_little_endian 4 8 fd1))) ;;
        if (r1 <? 0) || (r2 <? 0) then
          set_fd fd0 None ;;
          set_fd fd1 None ;;
          fileclose kend me mypid rf ;;
          fileclose kend me mypid wf ;;
          ret (-1)
        else ret 0
  end.
End sysfile.
