(* ===== verification/Syscall.v ===== *)
(** * System calls (kernel/sysproc.c, and syscall of kernel/syscall.c) *)

From S2P Require Import Prelude Abi Monad Riscv Mem Block Kalloc Vm Proc Pipe Log Store LogStore ProcMem Printf Fs File Kernel Exec Sysfile.

Section sysproc.
Context (kend trampoline forkret_addr de me mypid : Z).

Definition sys_exit : K kstate Z := n <- argint me 0 ;; exit kend me mypid n.

Definition sys_getpid : K kstate Z := p <- myproc me ;; ret (pid p).

Definition sys_fork : K kstate Z := fork kend trampoline forkret_addr me.

Definition sys_wait : K kstate Z := p <- argaddr me 0 ;; in_procs (Proc.wait kend me p).

(** [addr] is an [int]. *)
Definition sys_sbrk : K kstate Z :=
  n <- argint me 0 ;;
  p <- myproc me ;;
  let addr := i32 (sz p) in
  r <- in_procs (growproc kend me n) ;;
  if r <? 0 then ret (-1) else ret addr.

(** The loop of [sys_sleep]; [ticks - ticks0 < n] is a comparison of [uint]s.
    [false] if the process has been killed. *)
Fixpoint sleep_loop (fuel : nat) (ticks0 n : Z) : K kstate bool :=
  match fuel with
  | O => λ _ _, NoFuel
  | S fuel =>
      t <- gets ticks ;;
      if u32 (t - ticks0) <? u32 n then
        p <- myproc me ;;
        if killed p then
          release L_ticks ;;
          ret false
        else
          sleep C_ticks L_ticks ;;
          sleep_loop fuel ticks0 n
      else ret true
  end.

Definition sys_sleep : K kstate Z :=
  n <- argint me 0 ;;
  acquire L_ticks ;;
  ticks0 <- gets ticks ;;
  ok <- (λ s x, sleep_loop (S (naps x)) ticks0 n s x) ;;
  if (ok : bool) then
    release L_ticks ;;
    ret 0
  else ret (-1).

Definition sys_kill : K kstate Z := pid <- argint me 0 ;; in_procs (kill pid).

(** how many clock tick interrupts have occurred since start. *)
Definition sys_uptime : K kstate Z :=
  acquire L_ticks ;;
  xticks <- gets ticks ;;
  release L_ticks ;;
  ret xticks.

(** [devsw], the padding of [struct stat], and the locals of exec. *)
Context (devread devwrite : Z → option (bool → Z → Z → K kstate Z)) (pad : list Z) (elf_at ph_at : Z).

(** The table [syscalls], by the numbers of syscall.h. *)
Definition syscalls (num : Z) : option (K kstate Z) :=
  match num with
  | 1 => Some sys_fork
  | 2 => Some sys_exit
  | 3 => Some sys_wait
  | 4 => Some (sys_pipe kend me mypid)
  | 5 => Some (sys_read me mypid devread)
  | 6 => Some sys_kill
  | 7 => Some (sys_exec kend trampoline de me mypid elf_at ph_at)
  | 8 => Some (sys_fstat me mypid pad)
  | 9 => Some (sys_chdir de me mypid)
  | 10 => Some (sys_dup me)
  | 11 => Some sys_getpid
  | 12 => Some sys_sbrk
  | 13 => Some sys_sleep
  | 14 => Some sys_uptime
  | 15 => Some (sys_open kend de me mypid)
  | 16 => Some (sys_write me mypid devwrite)
  | 17 => Some (sys_mknod de me mypid)
  | 18 => Some (sys_unlink de me mypid)
  | 19 => Some (sys_link de me mypid)
  | 20 => Some (sys_mkdir de me mypid)
  | 21 => Some (sys_close kend me mypid)
  | _ => None
  end.

(** A system call's result, a [uint64], goes to [a0]. *)
Definition syscall : K kstate unit :=
  v <- tf_get me TF_a7 ;;
  let num := i32 v in
  match (if 0 <? num then syscalls num else None) with
  | Some f => r <- f ;; tf_set me TF_a0 (u64 r)
  | None =>
      p <- myproc me ;;
      printf "%d %s: unknown sys call %d
" [VNum (pid p); VStr (Some (c_str (name p))); VNum num] ;;
      tf_set me TF_a0 (u64 (-1))
  end.
End sysproc.
