(* ===== verification/Virtio.v ===== *)
(** * The disk driver (kernel/virtio_disk.c, kernel/virtio.h)

    The structures that the driver shares with the device, and the driver's own
    book-keeping.  [virtio_disk_rw] suspends in [sleep] until the interrupt
    handler has seen the device finish; what the device does meanwhile is the
    states that a run goes on from. *)

From S2P Require Import Prelude Monad Riscv Block.

(** ** Registers *)

Definition VIRTIO_MMIO_MAGIC_VALUE : Z := 0x000.
Definition VIRTIO_MMIO_VERSION : Z := 0x004.
Definition VIRTIO_MMIO_DEVICE_ID : Z := 0x008.
Definition VIRTIO_MMIO_VENDOR_ID : Z := 0x00c.
Definition VIRTIO_MMIO_DEVICE_FEATURES : Z := 0x010.
Definition VIRTIO_MMIO_DRIVER_FEATURES : Z := 0x020.
Definition VIRTIO_MMIO_GUEST_PAGE_SIZE : Z := 0x028.
Definition VIRTIO_MMIO_QUEUE_SEL : Z := 0x030.
Definition VIRTIO_MMIO_QUEUE_NUM_MAX : Z := 0x034.
Definition VIRTIO_MMIO_QUEUE_NUM : Z := 0x038.
Definition VIRTIO_MMIO_QUEUE_PFN : Z := 0x040.
Definition VIRTIO_MMIO_QUEUE_NOTIFY : Z := 0x050.
Definition VIRTIO_MMIO_INTERRUPT_STATUS : Z := 0x060.
Definition VIRTIO_MMIO_INTERRUPT_ACK : Z := 0x064.
Definition VIRTIO_MMIO_STATUS : Z := 0x070.

Definition VIRTIO_CONFIG_S_ACKNOWLEDGE : Z := 1.
Definition VIRTIO_CONFIG_S_DRIVER : Z := 2.
Definition VIRTIO_CONFIG_S_DRIVER_OK : Z := 4.
Definition VIRTIO_CONFIG_S_FEATURES_OK : Z := 8.

Definition VIRTIO_BLK_F_RO : Z := 5.
Definition VIRTIO_BLK_F_SCSI : Z := 7.
Definition VIRTIO_BLK_F_CONFIG_WCE : Z := 11.
Definition VIRTIO_BLK_F_MQ : Z := 12.
Definition VIRTIO_F_ANY_LAYOUT : Z := 27.
Definition VIRTIO_RING_F_INDIRECT_DESC : Z := 28.
Definition VIRTIO_RING_F_EVENT_IDX : Z := 29.

Definition NUM : Z := 8.

Definition VRING_DESC_F_NEXT : Z := 1.
Definition VRING_DESC_F_WRITE : Z := 2.

Definition VIRTIO_BLK_T_IN : Z := 0.
Definition VIRTIO_BLK_T_OUT : Z := 1.

(** ** Data *)

(** The addresses the driver puts in descriptors: [&disk.ops[i]], [b->data] of a
    buffer, and [&disk.info[i].status]. *)
Inductive daddr := A_null | A_op (i : Z) | A_data (b : Z) | A_status (i : Z).

Record virtq_desc := Desc {
  d_addr : daddr;
  d_len : Z;
  d_flags : Z;
  d_next : Z }.

Definition desc0 : virtq_desc := Desc A_null 0 0 0.

Record virtio_blk_req := Req {
  q_type : Z;
  q_reserved : Z;
  q_sector : Z }.

Record vinfo := Info {
  i_buf : option Z;
  i_status : Z }.

(** [bdisk] is [b->disk] of the buffers; [mmio] the register writes in order. *)
Record vdisk := VDisk {
  desc : list virtq_desc;
  avail_idx : Z;
  avail_ring : list Z;
  dev_idx : Z; (* disk.used->idx *)
  used_ring : list Z; (* the ids in disk.used->ring *)
  vfree : list bool;
  used_idx : Z;
  info : list vinfo;
  ops : list virtio_blk_req;
  bdisk : gmap Z bool;
  mmio : list (Z * Z) }.

Definition set_desc (v : list virtq_desc) (s : vdisk) : vdisk :=
  VDisk v (avail_idx s) (avail_ring s) (dev_idx s) (used_ring s) (vfree s) (used_idx s) (info s) (ops s) (bdisk s) (mmio s).
Definition set_avail (idx : Z) (ring : list Z) (s : vdisk) : vdisk :=
  VDisk (desc s) idx ring (dev_idx s) (used_ring s) (vfree s) (used_idx s) (info s) (ops s) (bdisk s) (mmio s).
Definition set_vfree (v : list bool) (s : vdisk) : vdisk :=
  VDisk (desc s) (avail_idx s) (avail_ring s) (dev_idx s) (used_ring s) v (used_idx s) (info s) (ops s) (bdisk s) (mmio s).
Definition set_used_idx (v : Z) (s : vdisk) : vdisk :=
  VDisk (desc s) (avail_idx s) (avail_ring s) (dev_idx s) (used_ring s) (vfree s) v (info s) (ops s) (bdisk s) (mmio s).
Definition set_info (v : list vinfo) (s : vdisk) : vdisk :=
  VDisk (desc s) (avail_idx s) (avail_ring s) (dev_idx s) (used_ring s) (vfree s) (used_idx s) v (ops s) (bdisk s) (mmio s).
Definition set_ops (v : list virtio_blk_req) (s : vdisk) : vdisk :=
  VDisk (desc s) (avail_idx s) (avail_ring s) (dev_idx s) (used_ring s) (vfree s) (used_idx s) (info s) v (bdisk s) (mmio s).
Definition set_bdisk (v : gmap Z bool) (s : vdisk) : vdisk :=
  VDisk (desc s) (avail_idx s) (avail_ring s) (dev_idx s) (used_ring s) (vfree s) (used_idx s) (info s) (ops s) v (mmio s).
Definition set_mmio (v : list (Z * Z)) (s : vdisk) : vdisk :=
  VDisk (desc s) (avail_idx s) (avail_ring s) (dev_idx s) (used_ring s) (vfree s) (used_idx s) (info s) (ops s) (bdisk s) v.

Definition getd (s : vdisk) (i : Z) : virtq_desc := default desc0 (zget (desc s) i).
Definition setd (i : Z) (d : virtq_desc) (s : vdisk) : vdisk := set_desc (zset (desc s) i d) s.
Definition is_free (s : vdisk) (i : Z) : bool := default false (zget (vfree s) i).
Definition geti_info (s : vdisk) (i : Z) : vinfo := default (Info None 0) (zget (info s) i).
Definition busy (s : vdisk) (b : Z) : bool := default false (bdisk s !! b).

(** A write to register [r]. *)
Definition W (r v : Z) : K vdisk unit := modify (λ s, set_mmio (mmio s ++ [(r, v)]) s).

(** [~(1 << bit)] of a 64-bit feature set *)
Definition without (features bit : Z) : Z := Z.land features (Z.lxor (Z.ones 64) (Z.shiftl 1 bit)).

(** The memory [pages] is at address [pages_at]; [R] is what the device's
    registers read. *)
Definition virtio_disk_init (pages_at : Z) (R : Z → Z) : K vdisk unit :=
  if negb (R VIRTIO_MMIO_MAGIC_VALUE =? 0x74726976) || negb (R VIRTIO_MMIO_VERSION =? 1) ||
     negb (R VIRTIO_MMIO_DEVICE_ID =? 2) || negb (R VIRTIO_MMIO_VENDOR_ID =? 0x554d4551) then
    panic "could not find virtio disk"
  else
    let status := Z.lor 0 VIRTIO_CONFIG_S_ACKNOWLEDGE in
    W VIRTIO_MMIO_STATUS status ;;
    let status := Z.lor status VIRTIO_CONFIG_S_DRIVER in
    W VIRTIO_MMIO_STATUS status ;;
    (* negotiate features *)
    let features := R VIRTIO_MMIO_DEVICE_FEATURES in
    let features := without features VIRTIO_BLK_F_RO in
    let features := without features VIRTIO_BLK_F_SCSI in
    let features := without features VIRTIO_BLK_F_CONFIG_WCE in
    let features := without features VIRTIO_BLK_F_MQ in
    let features := without features VIRTIO_F_ANY_LAYOUT in
    let features := without features VIRTIO_RING_F_EVENT_IDX in
    let features := without features VIRTIO_RING_F_INDIRECT_DESC in
    W VIRTIO_MMIO_DRIVER_FEATURES (u32 features) ;;
    (* tell device that feature negotiation is complete. *)
    let status := Z.lor status VIRTIO_CONFIG_S_FEATURES_OK in
    W VIRTIO_MMIO_STATUS status ;;
    (* tell device we're completely ready. *)
    let status := Z.lor status VIRTIO_CONFIG_S_DRIVER_OK in
    W VIRTIO_MMIO_STATUS status ;;
    W VIRTIO_MMIO_GUEST_PAGE_SIZE PGSIZE ;;
    (* initialize queue 0. *)
    W VIRTIO_MMIO_QUEUE_SEL 0 ;;
    let max := R VIRTIO_MMIO_QUEUE_NUM_MAX in
    if max =? 0 then panic "virtio disk has no queue 0"
    else if max <? NUM then panic "virtio disk max queue too short"
    else
      W VIRTIO_MMIO_QUEUE_NUM NUM ;;
      (* memset(disk.pages, 0, sizeof(disk.pages)) clears descriptors and rings *)
      modify (λ s, VDisk (replicate (Z.to_nat NUM) desc0) 0 (replicate (Z.to_nat NUM) 0) 0 (replicate (Z.to_nat NUM) 0)
                     (vfree s) (used_idx s) (info s) (ops s) (bdisk s) (mmio s)) ;;
      W VIRTIO_MMIO_QUEUE_PFN (u32 (Z.shiftr pages_at PGSHIFT)) ;;
      (* all NUM descriptors start out unused. *)
      for_each (seqZ 0 NUM) (λ i, modify (λ s, set_vfree (zset (vfree s) i true) s)).

(** find a free descriptor, mark it non-free, return its index, or -1. *)
Definition alloc_desc : K vdisk Z :=
  r <- for_find (seqZ 0 NUM) (λ i,
    s <- gets id ;;
    if is_free s i then modify (λ s, set_vfree (zset (vfree s) i false) s) ;; ret (Some i)
    else ret None) ;;
  ret (default (-1) r).

(** mark a descriptor as free. *)
Definition free_desc (i : Z) : K vdisk unit :=
  if NUM <=? i then panic "free_desc 1"
  else
    s <- gets id ;;
    if is_free s i then panic "free_desc 2"
    else
      modify (setd i desc0) ;;
      modify (λ s, set_vfree (zset (vfree s) i true) s) ;;
      wakeup C_vdisk.

(** free a chain of descriptors; a chain has at most NUM. *)
Fixpoint free_chain_loop (fuel : nat) (i : Z) : K vdisk unit :=
  match fuel with
  | O => λ _ _, NoFuel
  | S fuel =>
      d <- gets (λ s, getd s i) ;;
      free_desc i ;;
      if negb (Z.land (d_flags d) VRING_DESC_F_NEXT =? 0) then free_chain_loop fuel (d_next d)
      else ret tt
  end.

Definition free_chain (i : Z) : K vdisk unit := free_chain_loop (Z.to_nat NUM) i.

(** allocate three descriptors (they need not be contiguous), or [None]. *)
Definition alloc3_desc : K vdisk (option (Z * Z * Z)) :=
  i0 <- alloc_desc ;;
  if i0 <? 0 then ret None
  else
    i1 <- alloc_desc ;;
    if i1 <? 0 then free_desc i0 ;; ret None
    else
      i2 <- alloc_desc ;;
      if i2 <? 0 then free_desc i0 ;; free_desc i1 ;; ret None
      else ret (Some (i0, i1, i2)).

(** [while(1){ if(alloc3_desc(idx) == 0) break; sleep(&disk.free[0], ...); }] *)
Fixpoint alloc3_wait (fuel : nat) : K vdisk (Z * Z * Z) :=
  match fuel with
  | O => λ _ _, NoFuel
  | S fuel =>
      r <- alloc3_desc ;;
      match r with
      | Some idx => ret idx
      | None => sleep C_vdisk L_vdisk ;; alloc3_wait fuel
      end
  end.

Definition REQ : Z := 16. (* sizeof(struct virtio_blk_req) *)

(** format the three descriptors, and tell the device. *)
Definition submit (b sector : Z) (write : bool) (idx : Z * Z * Z) (s : vdisk) : vdisk :=
  let '(i0, i1, i2) := idx in
  let s := set_ops (zset (ops s) i0 (Req (if write then VIRTIO_BLK_T_OUT else VIRTIO_BLK_T_IN) 0 sector)) s in
  let s := setd i0 (Desc (A_op i0) REQ VRING_DESC_F_NEXT i1) s in
  let s := setd i1 (Desc (A_data b) BSIZE (Z.lor (if write then 0 else VRING_DESC_F_WRITE) VRING_DESC_F_NEXT) i2) s in
  let s := setd i2 (Desc (A_status i0) 1 VRING_DESC_F_WRITE 0) s in
  (* record struct buf for virtio_disk_intr(). *)
  let s := set_bdisk (<[b := true]> (bdisk s)) s in
  let s := set_info (zset (info s) i0 (Info (Some b) 0xff)) s in
  (* tell the device the first index in our chain, and another entry is available. *)
  let s := set_avail (u16 (avail_idx s + 1)) (zset (avail_ring s) (avail_idx s mod NUM) i0) s in
  set_mmio (mmio s ++ [(VIRTIO_MMIO_QUEUE_NOTIFY, 0)]) s.

(** [b] is a buffer of block [blockno]. *)
Definition virtio_disk_rw (b blockno : Z) (write : bool) : K vdisk unit :=
  let sector := u32 (blockno * (BSIZE / 512)) in
  acquire L_vdisk ;;
  idx <- (λ s x, alloc3_wait (S (naps x)) s x) ;;
  modify (submit b sector write idx) ;;
  (* Wait for virtio_disk_intr() to say request has finished. *)
  wait_while (λ s, busy s b) (C_buf b) L_vdisk ;;
  modify (λ s, set_info (zset (info s) idx.1.1 (Info None (i_status (geti_info s idx.1.1)))) s) ;;
  free_chain idx.1.1 ;;
  release L_vdisk.

(** One finished request. *)
Definition intr_one : K vdisk unit :=
  s <- gets id ;;
  let id := default 0 (zget (used_ring s) (used_idx s mod NUM)) in
  if negb (i_status (geti_info s id) =? 0) then panic "virtio_disk_intr status"
  else
    match i_buf (geti_info s id) with
    | None => panic "kerneltrap" (* a page fault: b is not checked *)
    | Some b =>
        modify (λ s, set_bdisk (<[b := false]> (bdisk s)) s) ;; (* disk is done with buf *)
        wakeup (C_buf b) ;;
        modify (λ s, set_used_idx (u16 (used_idx s + 1)) s)
    end.

Fixpoint intr_loop (fuel : nat) : K vdisk unit :=
  s <- gets id ;;
  if negb (used_idx s =? dev_idx s) then
    match fuel with
    | O => λ _ _, NoFuel
    | S fuel => intr_one ;; intr_loop fuel
    end
  else ret tt.

(** [R] is what the device's registers read; as many turns as there are new
    entries in the used ring. *)
Definition virtio_disk_intr (R : Z → Z) : K vdisk unit :=
  acquire L_vdisk ;;
  W VIRTIO_MMIO_INTERRUPT_ACK (Z.land (R VIRTIO_MMIO_INTERRUPT_STATUS) 0x3) ;;
  (λ s x, intr_loop (Z.to_nat (u16 (dev_idx s - used_idx s))) s x) ;;
  release L_vdisk.
