(* ===== verification/VirtioSpec.v ===== *)
(** * The disk driver's requests

    Requests in flight own disjoint chains of three descriptors that describe
    them to the device; [virtio_disk_rw] adds its request to them, waits, and
    gives its descriptors back; [virtio_disk_intr] completes requests. *)

From S2P Require Import Prelude Monad Riscv Block Virtio.

(** ** Waiting *)

Lemma sleep_one {S} c l (s : S) w n :
  sleep c l s (Ctx [l] w (Datatypes.S n)) = Sleeping c s (Ctx [] w n) (λ s' x', acquire l s' x').
Proof.
  unfold sleep. cbn [held naps woken]. rewrite decide_True by set_solver. rewrite decide_True; [done |].
  rewrite filter_cons, decide_False by (intros Hn; by apply Hn). done.
Qed.

Lemma wait_loop_false {S} n (cond : S → bool) c l s x : cond s = false → wait_loop n cond c l s x = Ok tt s x.
Proof. intros H. destruct n; cbn [wait_loop]; unfold bind, gets; cbn [obind]; by rewrite H. Qed.

Lemma wait_while_sleeps {S} (cond : S → bool) c l s w n :
  cond s = true →
  wait_while cond c l s (Ctx [l] w (Datatypes.S n)) =
    Sleeping c s (Ctx [] w n) (λ s' x', (acquire l ;; wait_loop n cond c l) s' x').
Proof.
  intros H. unfold wait_while. cbn [naps wait_loop]. unfold bind at 1, gets. cbn [obind]. rewrite H.
  unfold bind at 1. by rewrite sleep_one.
Qed.

Lemma bind_sleeping {S A B} (m : K S A) (f : A → K S B) s x c s1 x1 k :
  m s x = Sleeping c s1 x1 k → bind m f s x = Sleeping c s1 x1 (λ s' x', bind k f s' x').
Proof. intros H. unfold bind. by rewrite H. Qed.

(** ** The descriptors in use *)

Record owned (s : vdisk) (D : list Z) : Prop := Owned {
  ow_len : length (vfree s) = Z.to_nat NUM;
  ow_nodup : NoDup D;
  ow_range : ∀ i, i ∈ D → 0 <= i < NUM;
  ow_free : ∀ i, 0 <= i < NUM → is_free s i = negb (bool_decide (i ∈ D)) }.

Definition take_desc (i : Z) (s : vdisk) : vdisk := set_vfree (zset (vfree s) i false) s.

Definition give_desc (i : Z) (s : vdisk) : vdisk := set_vfree (zset (vfree s) i true) (setd i desc0 s).

Lemma is_free_zset i j v s s' :
  vfree s' = zset (vfree s) i v → length (vfree s) = Z.to_nat NUM → 0 <= i < NUM →
  is_free s' j = if i =? j then v else is_free s j.
Proof.
  intros E Hl Hi. unfold is_free. rewrite E, zget_zset by (rewrite Hl; unfold NUM in *; lia). by destruct (i =? j).
Qed.

Lemma owned_take s D i : owned s D → 0 <= i < NUM → i ∉ D → owned (take_desc i s) (i :: D).
Proof.
  intros [Hl Hn Hr Hf] Hi Hni. split; [by cbn; rewrite length_zset | by constructor | set_solver |].
  intros j Hj. rewrite (is_free_zset i j false s) by done.
  destruct (Z.eqb_spec i j) as [<- | Hne]; [by rewrite bool_decide_true by set_solver |].
  rewrite Hf by done. f_equal. apply bool_decide_ext. set_solver.
Qed.

Lemma owned_give s D1 D2 i : owned s (D1 ++ i :: D2) → owned (give_desc i s) (D1 ++ D2).
Proof.
  intros [Hl Hn Hr Hf]. assert (0 <= i < NUM) as Hi by (apply Hr; set_solver).
  assert (NoDup (i :: D1 ++ D2)) as Hn' by (rewrite Permutation_middle; done). apply NoDup_cons in Hn' as [Hni Hn'].
  split; [by cbn; rewrite length_zset | done | set_solver |].
  intros j Hj. rewrite (is_free_zset i j true s) by done.
  destruct (Z.eqb_spec i j) as [<- | Hne]; [by rewrite bool_decide_false by done |].
  rewrite Hf by done. f_equal. apply bool_decide_ext. set_solver.
Qed.

(** With no descriptor free, all [NUM] are owned. *)
Lemma owned_full s D : owned s D → (∀ i, 0 <= i < NUM → is_free s i = false) → length D = Z.to_nat NUM.
Proof.
  intros [Hl Hn Hr Hf] Ha. rewrite <- (length_seqZ 0 NUM). apply Permutation_length, NoDup_Permutation; [done | apply NoDup_seqZ |].
  intros i. rewrite elem_of_seqZ. split; [intros; apply Hr in H; lia |]. intros Hi.
  specialize (Ha i ltac:(lia)). rewrite Hf in Ha by lia. apply negb_false_iff in Ha. by apply bool_decide_eq_true in Ha.
Qed.

Lemma owned_bound s D : owned s D → (length D <= Z.to_nat NUM)%nat.
Proof.
  intros [_ Hn Hr _]. rewrite <- (length_seqZ 0 NUM). apply submseteq_length, NoDup_submseteq; [done |].
  intros i Hi. apply elem_of_seqZ. apply Hr in Hi. lia.
Qed.

Lemma alloc_desc_f s x D :
  owned s D →
  (∃ i, alloc_desc s x = Ok i (take_desc i s) x ∧ 0 <= i < NUM ∧ i ∉ D) ∨
  (alloc_desc s x = Ok (-1) s x ∧ length D = Z.to_nat NUM).
Proof.
  intros Ho. unfold alloc_desc.
  assert (∀ l, (∃ i, i ∈ l ∧ is_free s i = true ∧ for_find l (λ i,
      s <- gets id ;;
      if is_free s i then modify (λ s, set_vfree (zset (vfree s) i false) s) ;; ret (Some i) else ret None) s x = Ok (Some i) (take_desc i s) x) ∨
    ((∀ i, i ∈ l → is_free s i = false) ∧ for_find l (λ i,
      s <- gets id ;;
      if is_free s i then modify (λ s, set_vfree (zset (vfree s) i false) s) ;; ret (Some i) else ret None) s x = Ok None s x)) as H.
  { induction l as [| a l IH]; [right; split; [set_solver | done] |]. cbn [for_find].
    destruct (is_free s a) eqn:Ea.
    - left. exists a. split; [set_solver |]. split; [done |].
      erewrite bind_ok by (erewrite bind_ok by reflexivity; unfold id; rewrite Ea; reflexivity). done.
    - destruct IH as [(i & Hi & Hf & E) | [Hn E]]; [left; exists i | right].
      + split; [set_solver |]. split; [done |].
        erewrite bind_ok by (erewrite bind_ok by reflexivity; unfold id; rewrite Ea; reflexivity). done.
      + split; [intros i [-> | Hi]%elem_of_cons; auto |].
        erewrite bind_ok by (erewrite bind_ok by reflexivity; unfold id; rewrite Ea; reflexivity). done. }
  destruct (H (seqZ 0 NUM)) as [(i & Hi & Hf & E) | [Hn E]]; [left; exists i | right].
  - apply elem_of_seqZ in Hi. rewrite (ow_free _ _ Ho) in Hf by lia. split; [by erewrite bind_ok by exact E |].
    split; [lia |]. apply negb_true_iff in Hf. by apply bool_decide_eq_false in Hf.
  - split; [by erewrite bind_ok by exact E |]. apply (owned_full s); [done |]. intros i Hi. apply Hn. apply elem_of_seqZ. lia.
Qed.

Lemma free_desc_f s h w n D1 D2 i :
  owned s (D1 ++ i :: D2) →
  free_desc i s (Ctx h w n) = Ok tt (give_desc i s) (Ctx h (w ++ [C_vdisk]) n).
Proof.
  intros Ho. assert (0 <= i < NUM) as Hi by (apply (ow_range _ _ Ho); set_solver). unfold free_desc.
  destruct (Z.leb_spec NUM i); [lia |]. erewrite bind_ok by reflexivity. cbn [id].
  rewrite (ow_free _ _ Ho) by done. rewrite bool_decide_true by set_solver. done.
Qed.

(** Allocating three, with the descriptors [D] in use: all three, or the first
    ones are given back. *)
Lemma alloc3_desc_f s h w n D :
  owned s D →
  (∃ i0 i1 i2, alloc3_desc s (Ctx h w n) = Ok (Some (i0, i1, i2)) (take_desc i2 (take_desc i1 (take_desc i0 s))) (Ctx h w n) ∧
     owned (take_desc i2 (take_desc i1 (take_desc i0 s))) (i2 :: i1 :: i0 :: D)) ∨
  (∃ l, let s' := foldl (λ s i, give_desc i s) (foldl (λ s i, take_desc i s) s l) l in
     alloc3_desc s (Ctx h w n) = Ok None s' (Ctx h (w ++ replicate (length l) C_vdisk) n) ∧
     owned s' D ∧ (length l + length D)%nat = Z.to_nat NUM ∧ (length l < 3)%nat ∧ ∀ i, i ∈ l → i ∉ D).
Proof.
  intros Ho. unfold alloc3_desc.
  destruct (alloc_desc_f s (Ctx h w n) D Ho) as [(i0 & E0 & Hi0 & Hn0) | [E0 Hl]].
  2: { right. exists []. cbn. erewrite bind_ok by exact E0. cbn. rewrite app_nil_r. split_and!; [done | done | done | lia | set_solver]. }
  erewrite bind_ok by exact E0. destruct (Z.ltb_spec i0 0); [lia |].
  assert (owned (take_desc i0 s) (i0 :: D)) as Ho0 by (by apply owned_take).
  destruct (alloc_desc_f _ (Ctx h w n) _ Ho0) as [(i1 & E1 & Hi1 & Hn1) | [E1 Hl]].
  2: { right. exists [i0]. cbn. erewrite bind_ok by exact E1. cbn. erewrite bind_ok by (eapply (free_desc_f _ _ _ _ [] D); done).
       split_and!; [done | by apply (owned_give _ [] D) | done | lia | set_solver]. }
  erewrite bind_ok by exact E1. destruct (Z.ltb_spec i1 0); [lia |].
  assert (owned (take_desc i1 (take_desc i0 s)) (i1 :: i0 :: D)) as Ho1 by (by apply owned_take).
  destruct (alloc_desc_f _ (Ctx h w n) _ Ho1) as [(i2 & E2 & Hi2 & Hn2) | [E2 Hl]].
  - erewrite bind_ok by exact E2. destruct (Z.ltb_spec i2 0); [lia |]. left. exists i0, i1, i2.
    split; [done |]. by apply owned_take.
  - right. exists [i0; i1]. cbn. erewrite bind_ok by exact E2. cbn.
    erewrite bind_ok by (eapply (free_desc_f _ _ _ _ [i1] D); done).
    assert (owned (give_desc i0 (take_desc i1 (take_desc i0 s))) (i1 :: D)) as Ho2 by (by apply (owned_give _ [i1] D)).
    erewrite bind_ok by (eapply (free_desc_f _ _ _ _ [] D); done). rewrite <- app_assoc.
    split_and!; [done | by apply (owned_give _ [] D) | done | lia | set_solver].
Qed.

(** ** Requests in flight *)

(** A request: its descriptors, the buffer, the sector, and the direction. *)
Record chain := Chain {
  c0 : Z; c1 : Z; c2 : Z;
  cbuf : Z; csector : Z; cwrite : bool }.

Definition descs (fl : list chain) : list Z := flat_map (λ c, [c2 c; c1 c; c0 c]) fl.

(** The descriptors of the chain. *)
Definition linked (s : vdisk) (c : chain) : Prop :=
  getd s (c0 c) = Desc (A_op (c0 c)) REQ VRING_DESC_F_NEXT (c1 c) ∧
  getd s (c1 c) = Desc (A_data (cbuf c)) BSIZE (Z.lor (if cwrite c then 0 else VRING_DESC_F_WRITE) VRING_DESC_F_NEXT) (c2 c) ∧
  getd s (c2 c) = Desc (A_status (c0 c)) 1 VRING_DESC_F_WRITE 0.

(** What the device finds when it follows the chain, and what the driver has
    noted of it. *)
Definition described (s : vdisk) (c : chain) : Prop :=
  linked s c ∧
  zget (ops s) (c0 c) = Some (Req (if cwrite c then VIRTIO_BLK_T_OUT else VIRTIO_BLK_T_IN) 0 (csector c)) ∧
  i_buf (geti_info s (c0 c)) = Some (cbuf c).

Record driver_ok (s : vdisk) (fl : list chain) : Prop := DriverOk {
  dr_desc : length (desc s) = Z.to_nat NUM;
  dr_info : length (info s) = Z.to_nat NUM;
  dr_ops : length (ops s) = Z.to_nat NUM;
  dr_ring : length (avail_ring s) = Z.to_nat NUM;
  dr_owned : owned s (descs fl);
  dr_chains : ∀ c, c ∈ fl → described s c;
  dr_bufs : NoDup (cbuf <$> fl) }.

Lemma in_descs c fl i : c ∈ fl → i ∈ [c0 c; c1 c; c2 c] → i ∈ descs fl.
Proof.
  intros H Hi. unfold descs. rewrite !list_elem_of_In, in_flat_map in *. exists c. split; [done |]. simpl in *. tauto.
Qed.

Lemma described_ext s s' c :
  (∀ i, i ∈ [c0 c; c1 c; c2 c] → getd s' i = getd s i) → zget (ops s') (c0 c) = zget (ops s) (c0 c) →
  zget (info s') (c0 c) = zget (info s) (c0 c) → described s c → described s' c.
Proof.
  unfold described, linked, geti_info. intros Hd -> -> ((H0 & H1 & H2) & H3). rewrite !Hd by set_solver. done.
Qed.

Lemma getd_setd s i j d :
  length (desc s) = Z.to_nat NUM → 0 <= i < NUM → getd (setd i d s) j = if i =? j then d else getd s j.
Proof. intros Hl Hi. unfold getd, setd. cbn. rewrite zget_zset by (rewrite Hl; unfold NUM in *; lia). by destruct (i =? j). Qed.

Lemma descs_app f1 f2 : descs (f1 ++ f2) = descs f1 ++ descs f2.
Proof. apply flat_map_app. Qed.

Lemma length_descs fl : length (descs fl) = (3 * length fl)%nat.
Proof. induction fl as [| c fl IH]; [done |]. cbn. unfold descs in IH. rewrite IH. lia. Qed.

(** Taking and giving back descriptors leaves the fields alone. *)
Lemma give_all_fields l s :
  let s' := foldl (λ s i, give_desc i s) s l in
  ops s' = ops s ∧ info s' = info s ∧ avail_ring s' = avail_ring s ∧ length (desc s') = length (desc s) ∧
  (∀ j, j ∉ l → getd s' j = getd s j).
Proof.
  revert s. induction l as [| i l IH]; intros s; [done |]. cbn. destruct (IH (give_desc i s)) as (H1 & H2 & H3 & H4 & H5).
  split_and!; [done.. | |].
  - rewrite H4. cbn. by rewrite length_zset.
  - intros j Hj. rewrite H5 by set_solver. unfold getd. cbn. by rewrite zget_zset_ne by set_solver.
Qed.

Lemma take_all_fields l s :
  let s' := foldl (λ s i, take_desc i s) s l in
  desc s' = desc s ∧ ops s' = ops s ∧ info s' = info s ∧ avail_ring s' = avail_ring s.
Proof. revert s. induction l as [| i l IH]; intros s; [done |]. apply (IH (take_desc i s)). Qed.

Lemma driver_ok_rollback s fl l :
  driver_ok s fl → (∀ i, i ∈ l → i ∉ descs fl) →
  let s' := foldl (λ s i, give_desc i s) (foldl (λ s i, take_desc i s) s l) l in
  owned s' (descs fl) → driver_ok s' fl.
Proof.
  intros [] Hd s' Ho. destruct (give_all_fields l (foldl (λ s i, take_desc i s) s l)) as (H1 & H2 & H3 & H4 & H5).
  destruct (take_all_fields l s) as (T0 & T1 & T2 & T3). fold s' in H1, H2, H3, H4, H5. rewrite T1 in H1. rewrite T2 in H2.
  rewrite T3 in H3. rewrite T0 in H4.
  split; [by rewrite H4 | by rewrite H2 | by rewrite H1 | by rewrite H3 | done | | done].
  intros c Hc. apply (described_ext s); [| by rewrite H1 | by rewrite H2 | auto].
  intros i Hi. rewrite H5; [unfold getd; by rewrite T0 |]. intros Hl. apply (Hd i Hl). by apply (in_descs c).
Qed.

(** ** Submitting *)

Lemma submit_getd s b sector write i0 i1 i2 j :
  length (desc s) = Z.to_nat NUM → 0 <= i0 < NUM → 0 <= i1 < NUM → 0 <= i2 < NUM →
  getd (submit b sector write (i0, i1, i2) s) j =
    if i2 =? j then Desc (A_status i0) 1 VRING_DESC_F_WRITE 0
    else if i1 =? j then Desc (A_data b) BSIZE (Z.lor (if write then 0 else VRING_DESC_F_WRITE) VRING_DESC_F_NEXT) i2
    else if i0 =? j then Desc (A_op i0) REQ VRING_DESC_F_NEXT i1 else getd s j.
Proof.
  intros Hl R0 R1 R2. unfold getd at 1. unfold submit. cbn. rewrite !zget_zset by (rewrite ?length_zset, ?Hl; unfold NUM in *; lia).
  destruct (i2 =? j); [done |]. destruct (i1 =? j); [done |]. by destruct (i0 =? j).
Qed.

Lemma owned_three s i0 i1 i2 D :
  owned s (i2 :: i1 :: i0 :: D) →
  (0 <= i0 < NUM ∧ 0 <= i1 < NUM ∧ 0 <= i2 < NUM) ∧ i2 ≠ i1 ∧ i2 ≠ i0 ∧ i1 ≠ i0 ∧
  (∀ j, j ∈ D → i0 ≠ j ∧ i1 ≠ j ∧ i2 ≠ j).
Proof.
  intros [_ Hnd Hr _]. split; [split_and!; apply Hr; set_solver |].
  rewrite !NoDup_cons in Hnd. destruct Hnd as (N2 & N1 & N0 & _). clear Hr. set_solver.
Qed.

Lemma submit_ok t fl b sector write i0 i1 i2 :
  length (desc t) = Z.to_nat NUM → length (info t) = Z.to_nat NUM → length (ops t) = Z.to_nat NUM →
  length (avail_ring t) = Z.to_nat NUM → (∀ c, c ∈ fl → described t c) → NoDup (cbuf <$> fl) → b ∉ cbuf <$> fl →
  owned t (i2 :: i1 :: i0 :: descs fl) →
  driver_ok (submit b sector write (i0, i1, i2) t) (Chain i0 i1 i2 b sector write :: fl).
Proof.
  intros Ld Li Lo Lr Hc Hnd Hb Ho. destruct (owned_three _ _ _ _ _ Ho) as ((R0 & R1 & R2) & N21 & N20 & N10 & Hne).
  split; [by cbn; rewrite !length_zset | by cbn; rewrite length_zset | by cbn; rewrite length_zset | by cbn; rewrite length_zset | | |].
  - split; [apply Ho.. | intros i Hi; by apply (ow_free _ _ Ho i Hi)].
  - intros c [-> | Hcf]%elem_of_cons.
    + unfold described, linked. rewrite !submit_getd by done. cbn [c0 c1 c2 cbuf csector cwrite].
      rewrite !Z.eqb_refl, (proj2 (Z.eqb_neq i2 i0)), (proj2 (Z.eqb_neq i1 i0)), (proj2 (Z.eqb_neq i2 i1)) by done.
      unfold geti_info. cbn. rewrite !zget_zset_eq by (rewrite ?Lo, ?Li; unfold NUM in *; lia). done.
    + destruct (Hne (c0 c)) as (Hn & _); [apply (in_descs c); [done | left] |].
      apply (described_ext t); [| cbn; by rewrite zget_zset_ne.. | by apply Hc].
      intros j Hj. pose proof (in_descs c fl j Hcf Hj) as Hjd. rewrite submit_getd by done.
      destruct (Hne j Hjd) as (E0 & E1 & E2). by rewrite !(proj2 (Z.eqb_neq _ j)) by done.
  - cbn. by constructor.
Qed.

(** ** Completing *)

Lemma getd_give s i j : i ≠ j → getd (give_desc i s) j = getd s j.
Proof. intros H. unfold getd. cbn. by rewrite zget_zset_ne. Qed.

Lemma free_chain_f s h w n D1 D2 c :
  linked s c → owned s (D1 ++ [c2 c; c1 c; c0 c] ++ D2) →
  let s' := give_desc (c2 c) (give_desc (c1 c) (give_desc (c0 c) s)) in
  free_chain (c0 c) s (Ctx h w n) = Ok tt s' (Ctx h (w ++ replicate 3 C_vdisk) n) ∧ owned s' (D1 ++ D2).
Proof.
  intros (H0 & H1 & H2) Ho s'.
  assert (NoDup [c2 c; c1 c; c0 c]) as Hnd by (apply ow_nodup, NoDup_app in Ho as (_ & _ & Ho); by apply NoDup_app in Ho as (Ho & _)).
  rewrite !NoDup_cons in Hnd. destruct Hnd as (N2 & N1 & _).
  assert (owned (give_desc (c0 c) s) (D1 ++ [c2 c; c1 c] ++ D2)) as O0.
  { rewrite !app_assoc. apply owned_give. by rewrite <- !app_assoc. }
  assert (owned (give_desc (c1 c) (give_desc (c0 c) s)) (D1 ++ c2 c :: D2)) as O1.
  { change (c2 c :: D2) with ([c2 c] ++ D2). rewrite app_assoc. apply owned_give. by rewrite <- app_assoc. }
  split; [| by apply owned_give].
  unfold free_chain. change (Z.to_nat NUM) with (S (S (S 5))). cbn [free_chain_loop].
  erewrite bind_ok by reflexivity. rewrite H0.
  erewrite bind_ok by (apply (free_desc_f _ _ _ _ (D1 ++ [c2 c; c1 c]) D2); by rewrite <- app_assoc).
  cbn [d_flags d_next]. change (negb (Z.land VRING_DESC_F_NEXT VRING_DESC_F_NEXT =? 0)) with true. cbn iota.
  erewrite bind_ok by reflexivity. rewrite getd_give, H1 by set_solver.
  erewrite bind_ok by (apply (free_desc_f _ _ _ _ (D1 ++ [c2 c]) D2); by rewrite <- app_assoc).
  cbn [d_flags d_next].
  replace (negb (Z.land (Z.lor (if cwrite c then 0 else VRING_DESC_F_WRITE) VRING_DESC_F_NEXT) VRING_DESC_F_NEXT =? 0)) with true
    by (by destruct (cwrite c)).
  erewrite bind_ok by reflexivity. rewrite !getd_give, H2 by set_solver.
  erewrite bind_ok by (by apply (free_desc_f _ _ _ _ D1 D2)).
  cbn. by rewrite <- !app_assoc.
Qed.

(** The three descriptors go back, and the other requests stay. *)
Lemma driver_ok_finish s f1 f2 c h w n :
  driver_ok s (f1 ++ c :: f2) →
  let t := set_info (zset (info s) (c0 c) (Info None (i_status (geti_info s (c0 c))))) s in
  ∃ s', free_chain (c0 c) t (Ctx h w n) = Ok tt s' (Ctx h (w ++ replicate 3 C_vdisk) n) ∧ driver_ok s' (f1 ++ f2).
Proof.
  intros [Ld Li Lo Lr Ho Hc Hb] t. rewrite descs_app in Ho.
  change (descs (c :: f2)) with ([c2 c; c1 c; c0 c] ++ descs f2) in Ho.
  assert (owned t (descs f1 ++ [c2 c; c1 c; c0 c] ++ descs f2)) as Ht by (split; apply Ho).
  destruct (Hc c) as [Hlk _]; [set_solver |].
  destruct (free_chain_f t h w n (descs f1) (descs f2) c Hlk Ht) as [E O]. eexists. split; [exact E |].
  assert (∀ c', c' ∈ f1 ++ f2 → ∀ i, i ∈ [c0 c'; c1 c'; c2 c'] → i ∉ [c2 c; c1 c; c0 c]) as Hdj.
  { intros c' Hc' i Hi Hi'. pose proof (ow_nodup _ _ Ho) as Hnd.
    rewrite (Permutation_app_swap_app (descs f1)) in Hnd. apply NoDup_app in Hnd as (_ & Hd & _).
    rewrite <- descs_app in Hd. apply (Hd i Hi'). by apply (in_descs c'). }
  split; try (cbn; by rewrite ?length_zset).
  - by rewrite descs_app.
  - intros c' Hc'. apply (described_ext s); [| done | | apply Hc; set_solver].
    + intros i Hi. pose proof (Hdj c' Hc' i Hi). rewrite !getd_give by set_solver. done.
    + cbn. rewrite zget_zset_ne; [done |]. specialize (Hdj c' Hc' (c0 c')). set_solver.
  - rewrite fmap_app in Hb |- *. cbn in Hb. rewrite <- Permutation_middle in Hb. by apply NoDup_cons in Hb as [_ Hb].
Qed.

(** Once the request is done. *)
Lemma rw_finishes s2 f1 f2 c w m n :
  driver_ok s2 (f1 ++ c :: f2) → busy s2 (cbuf c) = false →
  ∃ s3, (acquire L_vdisk ;; wait_loop n (λ s, busy s (cbuf c)) (C_buf (cbuf c)) L_vdisk ;;
         modify (λ s, set_info (zset (info s) (c0 c) (Info None (i_status (geti_info s (c0 c))))) s) ;;
         free_chain (c0 c) ;; release L_vdisk) s2 (Ctx [] w m) =
        Ok tt s3 (Ctx [] (w ++ replicate 3 C_vdisk) m) ∧ driver_ok s3 (f1 ++ f2).
Proof.
  intros Hok Hb. destruct (driver_ok_finish s2 f1 f2 c [L_vdisk] w m Hok) as (s3 & E & Hok3). exists s3. split; [| done].
  kacq. erewrite bind_ok by (by apply wait_loop_false). erewrite bind_ok by reflexivity. erewrite bind_ok by exact E. by krel.
Qed.

Lemma take_three i0 i1 i2 s fl :
  driver_ok s fl →
  let t := take_desc i2 (take_desc i1 (take_desc i0 s)) in
  ∀ b sector write, owned t (i2 :: i1 :: i0 :: descs fl) → b ∉ cbuf <$> fl →
  driver_ok (submit b sector write (i0, i1, i2) t) (Chain i0 i1 i2 b sector write :: fl).
Proof. intros [] t b sector write Ho Hb. by apply submit_ok. Qed.

Lemma alloc3_wait_S s x :
  alloc3_wait (S (naps x)) s x =
    (r <- alloc3_desc ;;
     match r with Some idx => ret idx | None => sleep C_vdisk L_vdisk ;; alloc3_wait (naps x) end) s x.
Proof. done. Qed.

(** C32: a disk request.  While fewer than two requests are in flight,
    [virtio_disk_rw] adds one: three descriptors that no other request uses, which
    describe exactly this transfer, offered to the device; then it sleeps until
    [b->disk] is cleared.  Whenever it is woken with that done, whatever other
    requests came and went, it frees its three descriptors and returns, and the
    requests then in flight keep theirs.  With two in flight it takes nothing and
    sleeps; woken up, it starts over. *)
Theorem virtio_disk_rw_serves s fl b blockno write wk n :
  driver_ok s fl → b ∉ cbuf <$> fl →
  let run s := virtio_disk_rw b blockno write s in
  if decide (length fl < 2)%nat then
    ∃ c s1 k, run s (Ctx [] wk (S n)) = Sleeping (C_buf b) s1 (Ctx [] wk n) k ∧
      (cbuf c, csector c, cwrite c) = (b, u32 (blockno * (BSIZE / 512)), write) ∧
      driver_ok s1 (c :: fl) ∧ busy s1 b = true ∧
      zget (avail_ring s1) (avail_idx s mod NUM) = Some (c0 c) ∧ avail_idx s1 = u16 (avail_idx s + 1) ∧
      mmio s1 = mmio s ++ [(VIRTIO_MMIO_QUEUE_NOTIFY, 0)] ∧
      (∀ s2 f1 f2 w2 m, driver_ok s2 (f1 ++ c :: f2) → busy s2 b = false →
        ∃ s3, k s2 (Ctx [] w2 m) = Ok tt s3 (Ctx [] (w2 ++ replicate 3 C_vdisk) m) ∧ driver_ok s3 (f1 ++ f2))
  else
    ∃ s1 k w1, run s (Ctx [] wk (S n)) = Sleeping C_vdisk s1 (Ctx [] w1 n) k ∧ driver_ok s1 fl ∧
      (∀ s2 w2, k s2 (Ctx [] w2 n) = run s2 (Ctx [] w2 n)).
Proof.
  intros Hok Hb run. pose proof (length_descs fl) as Hlen. set (sector := u32 (blockno * (BSIZE / 512))).
  destruct (alloc3_desc_f s [L_vdisk] wk (S n) (descs fl) (dr_owned _ _ Hok)) as [(i0 & i1 & i2 & E & O) | (l & E & O & Hl & Hl3 & Hd)].
  - pose proof (owned_bound _ _ O) as Hbd. change (Z.to_nat NUM) with 8%nat in Hbd. cbn [length] in Hbd. rewrite decide_True by lia.
    exists (Chain i0 i1 i2 b sector write), (submit b sector write (i0, i1, i2) (take_desc i2 (take_desc i1 (take_desc i0 s)))).
    eexists. split.
    { unfold run, virtio_disk_rw. kacq. erewrite bind_ok by (rewrite alloc3_wait_S; erewrite bind_ok by exact E; reflexivity).
      erewrite bind_ok by reflexivity. apply bind_sleeping, wait_while_sleeps. unfold busy. cbn. by rewrite lookup_insert_eq. }
    split; [done |]. split; [by apply take_three |]. split; [unfold busy; cbn; by rewrite lookup_insert_eq |].
    split. { cbn. rewrite zget_zset_eq; [done |]. rewrite (dr_ring _ _ Hok). apply Z.mod_pos_bound. done. }
    split; [done |]. split; [done |]. intros s2 f1 f2 w2 m Hok2 Hb2.
    destruct (rw_finishes s2 f1 f2 (Chain i0 i1 i2 b sector write) w2 m n Hok2 Hb2) as (s3 & E3 & Hok3).
    exists s3. split; [| done]. rewrite <- E3. unfold bind. reflexivity.
  - change (Z.to_nat NUM) with 8%nat in Hl. rewrite decide_False by lia.
    eexists _, _, _. split_and!.
    + unfold run, virtio_disk_rw. kacq. apply bind_sleeping. rewrite alloc3_wait_S. erewrite bind_ok by exact E.
      apply bind_sleeping. apply sleep_one.
    + by apply driver_ok_rollback.
    + intros s2 w2. unfold run, virtio_disk_rw. reflexivity.
Qed.

(** The driver after [virtio_disk_init]. *)
Definition vd0 : vdisk :=
  VDisk (replicate 8 desc0) 0 (replicate 8 0) 0 (replicate 8 0) (replicate 8 true) 0 (replicate 8 (Info None 0))
        (replicate 8 (Req 0 0 0)) ∅ [].

Lemma vd0_ok : driver_ok vd0 [].
Proof.
  split; [done.. | | set_solver | constructor].
  split; [done | constructor | set_solver |]. intros i Hi. rewrite bool_decide_false by set_solver. unfold is_free, vd0. cbn [vfree].
  unfold zget. destruct (Z.ltb_spec i 0); [lia |]. rewrite lookup_replicate_2 by (unfold NUM in Hi; lia). done.
Qed.

Lemma virtio_disk_rw_serves_witness :
  ∃ c s1 k, virtio_disk_rw 3 70 true vd0 (Ctx [] [] 1) = Sleeping (C_buf 3) s1 (Ctx [] [] 0) k ∧
    csector c = 140 ∧ driver_ok s1 [c].
Proof.
  destruct (virtio_disk_rw_serves vd0 [] 3 70 true [] 0 vd0_ok ltac:(set_solver)) as (c & s1 & k & E & Hc & Hok & _).
  exists c, s1, k. split; [exact E |]. split; [by injection Hc as _ -> _ |]. exact Hok.
Defined.

(** ** The interrupt handler *)

(** The requests [fin] are completed. *)
Definition completed (fin : list chain) (s : vdisk) : vdisk :=
  set_used_idx (u16 (used_idx s + Z.of_nat (length fin)))
    (set_bdisk (foldl (λ m c, <[cbuf c := false]> m) (bdisk s) fin) s).

(** The entries of the used ring that the driver has not seen yet are the heads
    of the chains of [fin], with status 0. *)
Definition reported (s : vdisk) (fin : list chain) : Prop :=
  0 <= used_idx s < 2 ^ 16 ∧ (length fin <= Z.to_nat NUM)%nat ∧
  dev_idx s = u16 (used_idx s + Z.of_nat (length fin)) ∧
  ∀ j c, fin !! j = Some c →
    described s c ∧ zget (used_ring s) ((used_idx s + Z.of_nat j) mod NUM) = Some (c0 c) ∧ i_status (geti_info s (c0 c)) = 0.

Lemma u16_ring a j : (u16 (a + 1) + j) mod NUM = (a + (1 + j)) mod NUM.
Proof.
  unfold u16, NUM. rewrite (Z.mod_eq (a + 1) (2 ^ 16)) by lia.
  replace (a + 1 - 2 ^ 16 * ((a + 1) / 2 ^ 16) + j) with (a + (1 + j) + (- 2 ^ 13 * ((a + 1) / 2 ^ 16)) * 8) by lia.
  by rewrite Z.mod_add by lia.
Qed.

Lemma u16_next a k : u16 (u16 (a + 1) + k) = u16 (a + (1 + k)).
Proof. unfold u16. rewrite Z.add_mod_idemp_l by lia. f_equal. lia. Qed.

Lemma reported_next s c fin :
  reported s (c :: fin) → reported (completed [c] s) fin.
Proof.
  intros (Hr & Hl & Hd & Hf). cbn [length] in *. split; [apply Z.mod_pos_bound; lia |]. split; [lia |]. split.
  - cbn. rewrite Hd, u16_next. f_equal. lia.
  - intros j c' Hj. destruct (Hf (S j) c' Hj) as (H1 & H2 & H3). split; [done |]. split; [| done].
    cbn. rewrite u16_ring. rewrite <- H2. f_equal. f_equal. lia.
Qed.

Lemma reported_more s c fin : reported s (c :: fin) → used_idx s ≠ dev_idx s.
Proof.
  intros (Hr & Hl & Hd & _) E. rewrite Hd in E. unfold u16 in E. change (Z.to_nat NUM) with 8%nat in Hl. cbn [length] in *.
  destruct (Z.lt_ge_cases (used_idx s + Z.of_nat (S (length fin))) (2 ^ 16)).
  - rewrite Z.mod_small in E; lia.
  - rewrite <- (Z_mod_plus_full _ (-1)), Z.mod_small in E; lia.
Qed.

Lemma intr_loop_f fin s h w n :
  reported s fin →
  intr_loop (length fin) s (Ctx h w n) = Ok tt (completed fin s) (Ctx h (w ++ ((λ c, C_buf (cbuf c)) <$> fin)) n).
Proof.
  revert s w. induction fin as [| c fin IH]; intros s w Hrep.
  - destruct Hrep as (Hr & _ & Hd & _). cbn [length Z.of_nat] in Hd. rewrite Z.add_0_r in Hd. unfold u16 in Hd. rewrite Z.mod_small in Hd by lia.
    cbn [length intr_loop]. kstep. unfold id. rewrite Hd, Z.eqb_refl. cbn. rewrite app_nil_r. unfold ret, completed. cbn.
    rewrite Z.add_0_r. unfold u16. rewrite Z.mod_small by lia. by destruct s.
  - cbn [length intr_loop]. kstep. unfold id. rewrite (proj2 (Z.eqb_neq _ _)) by (by apply (reported_more _ c fin)). cbn [negb].
    destruct (Hrep) as (_ & _ & _ & Hf). destruct (Hf 0%nat c eq_refl) as (Hdc & Hu & Hst).
    rewrite Z.add_0_r in Hu. destruct Hdc as (_ & _ & Hbuf).
    erewrite bind_ok; cycle 1.
    { unfold intr_one. erewrite bind_ok by reflexivity. unfold id. rewrite Hu. cbn [default]. rewrite Hst, Hbuf. reflexivity. }
    ksimpl. change (set_used_idx _ _) with (completed [c] s). rewrite IH by (by apply reported_next).
    f_equal.
    + unfold completed, set_used_idx, set_bdisk. cbn. rewrite u16_next. do 3 f_equal. lia.
    + cbn. by rewrite <- app_assoc.
Qed.

(** C33: the disk interrupt.  When the device has reported the requests [fin] of
    those in flight as done, [virtio_disk_intr] acknowledges the interrupt,
    clears [disk] of exactly their buffers, wakes up exactly their threads in the
    order of the reports, and has seen all of the used ring; the requests keep
    their descriptors until their threads free them. *)
Theorem virtio_disk_intr_completes s fl fin R wk n :
  driver_ok s fl → reported s fin → (∀ c, c ∈ fin → c ∈ fl) →
  ∃ s', virtio_disk_intr R s (Ctx [] wk n) = Ok tt s' (Ctx [] (wk ++ ((λ c, C_buf (cbuf c)) <$> fin)) n) ∧
    driver_ok s' fl ∧ used_idx s' = dev_idx s ∧
    (∀ b, busy s' b = if decide (b ∈ cbuf <$> fin) then false else busy s b) ∧
    mmio s' = mmio s ++ [(VIRTIO_MMIO_INTERRUPT_ACK, Z.land (R VIRTIO_MMIO_INTERRUPT_STATUS) 3)].
Proof.
  intros [Ld Li Lo Lr Ho Hc Hb] Hrep Hin.
  set (t := set_mmio (mmio s ++ [(VIRTIO_MMIO_INTERRUPT_ACK, Z.land (R VIRTIO_MMIO_INTERRUPT_STATUS) 3)]) s).
  assert (reported t fin) as Ht by exact Hrep.
  exists (completed fin t). destruct Hrep as (Hr & Hl & Hd & _). split; [| split; [| split; [| split; [| done]]]].
  - unfold virtio_disk_intr. kacq. erewrite bind_ok by reflexivity. fold t. erewrite bind_ok; cycle 1.
    { replace (Z.to_nat _) with (length fin); [by apply intr_loop_f |]. cbn. rewrite Hd. unfold u16.
      rewrite Zminus_mod_idemp_l. change (Z.to_nat NUM) with 8%nat in Hl. rewrite Z.mod_small by lia. lia. }
    by krel.
  - split; try done. split; apply Ho.
  - cbn. by rewrite Hd.
  - intros b. unfold busy. cbn. clear. generalize (bdisk s). induction fin as [| c fin IH]; intros m; [done |]. cbn.
    rewrite IH. destruct (decide (b ∈ cbuf <$> fin)) as [Hi | Hn].
    + rewrite decide_True by set_solver. done.
    + destruct (decide (b = cbuf c)) as [-> | Hne].
      * rewrite lookup_insert_eq, decide_True by set_solver. done.
      * rewrite lookup_insert_ne by done. rewrite decide_False by set_solver. done.
Qed.

(** The device writes the used ring and status bytes; that keeps the requests. *)
Definition device_writes (di : Z) (ring : list Z) (inf : list vinfo) (s : vdisk) : vdisk :=
  VDisk (desc s) (avail_idx s) (avail_ring s) di ring (vfree s) (used_idx s) inf (ops s) (bdisk s) (mmio s).

Lemma device_writes_ok s fl di ring inf :
  driver_ok s fl → i_buf <$> inf = i_buf <$> info s → driver_ok (device_writes di ring inf s) fl.
Proof.
  intros [Ld Li Lo Lr Ho Hc Hb] E.
  assert (∀ i, i_buf (default (Info None 0) (zget inf i)) = i_buf (geti_info s i)) as Hi.
  { intros i. unfold geti_info, zget. destruct (i <? 0); [done |].
    assert (i_buf <$> (inf !! Z.to_nat i) = i_buf <$> (info s !! Z.to_nat i)) as E' by (by rewrite <- !list_lookup_fmap, E).
    destruct (inf !! Z.to_nat i), (info s !! Z.to_nat i); cbn in *; congruence. }
  split; [done | | done | done | split; apply Ho | | done].
  - cbn. apply (f_equal length) in E. rewrite !length_fmap in E. by rewrite E.
  - intros c Hcf. destruct (Hc c Hcf) as (H1 & H2 & H3). split; [done |]. split; [done |]. unfold geti_info. cbn. by rewrite Hi.
Qed.

(** One request in flight that the device has served. *)
Definition ch1 : chain := Chain 0 1 2 3 140 true.

Definition vd1 : vdisk :=
  device_writes 1 (replicate 8 0) (Info (Some 3) 0 :: replicate 7 (Info None 0))
    (submit 3 140 true (0, 1, 2) (take_desc 2 (take_desc 1 (take_desc 0 vd0)))).

Lemma vd1_ok : driver_ok vd1 [ch1].
Proof.
  apply device_writes_ok; [| reflexivity]. apply (take_three 0 1 2 vd0 [] vd0_ok 3 140 true); [| set_solver].
  repeat (apply owned_take; [| unfold NUM; lia | set_solver]). apply vd0_ok.
Qed.

Lemma virtio_disk_intr_completes_witness :
  ∃ s', virtio_disk_intr (λ _, 1) vd1 (Ctx [] [] 0) = Ok tt s' (Ctx [] [C_buf 3] 0) ∧ busy vd1 3 = true ∧ busy s' 3 = false.
Proof.
  destruct (virtio_disk_intr_completes vd1 [ch1] [ch1] (λ _, 1) [] 0 vd1_ok) as (s' & E & _ & _ & Hb & _).
  - split; [by vm_compute |]. split; [vm_compute; lia |]. split; [by vm_compute |]. intros [| j] c; [| done].
    intros [= <-]. split; [apply vd1_ok; set_solver | by vm_compute].
  - done.
  - exists s'. split; [exact E |]. split; [vm_compute; reflexivity |]. by rewrite Hb.
Defined.
