(* ===== verification/Trap.v ===== *)
(** * Traps and boot (kernel/trap.c, kernel/plic.c, kernel/start.c, kernel/main.c,
    forkret of kernel/proc.c)

    One hart with its control registers, the kernel's state, the disk driver, and
    the interrupt controller: what its claim register reads next is part of the
    state, and what is written to it is recorded. *)

From S2P Require Import Prelude Abi Monad Riscv Mem Block Kalloc Vm Bio Log Proc Pipe Store LogStore ProcMem Printf Console Fs.
From S2P Require Import File Kernel Exec Sysfile Syscall Virtio.

Record tstate := TState {
  cpu : hart;
  curproc : option Z; (* c->proc of this CPU *)
  ks : kstate;
  vd : vdisk;
  claims : list Z;
  plic : list (Z * Z);
  kernel_pagetable : Z;
  first : bool; (* forkret's static *)
  started : bool }.

Definition set_cpu (v : hart) (s : tstate) : tstate :=
  TState v (curproc s) (ks s) (vd s) (claims s) (plic s) (kernel_pagetable s) (first s) (started s).
Definition set_ks (v : kstate) (s : tstate) : tstate :=
  TState (cpu s) (curproc s) v (vd s) (claims s) (plic s) (kernel_pagetable s) (first s) (started s).
Definition set_vd (v : vdisk) (s : tstate) : tstate :=
  TState (cpu s) (curproc s) (ks s) v (claims s) (plic s) (kernel_pagetable s) (first s) (started s).
Definition set_claims (v : list Z) (s : tstate) : tstate :=
  TState (cpu s) (curproc s) (ks s) (vd s) v (plic s) (kernel_pagetable s) (first s) (started s).
Definition set_plic (v : list (Z * Z)) (s : tstate) : tstate :=
  TState (cpu s) (curproc s) (ks s) (vd s) (claims s) v (kernel_pagetable s) (first s) (started s).
Definition set_kpt (v : Z) (s : tstate) : tstate :=
  TState (cpu s) (curproc s) (ks s) (vd s) (claims s) (plic s) v (first s) (started s).
Definition set_first (v : bool) (s : tstate) : tstate :=
  TState (cpu s) (curproc s) (ks s) (vd s) (claims s) (plic s) (kernel_pagetable s) v (started s).
Definition set_started (v : bool) (s : tstate) : tstate :=
  TState (cpu s) (curproc s) (ks s) (vd s) (claims s) (plic s) (kernel_pagetable s) (first s) v.

Definition ksL : lens tstate kstate := Lens ks set_ks.
Definition vdL : lens tstate vdisk := Lens vd set_vd.

Definition in_k {A} (m : K kstate A) : K tstate A := lift ksL m.

(** A write to a control register. *)
Definition updh (f : hart → hart) : K tstate unit := modify (λ s, set_cpu (f (cpu s)) s).

Definition cpuid : K tstate Z := gets (λ s, i32 (r_tp (cpu s))).

(** ** The interrupt controller *)

Definition plic_write (a v : Z) : K tstate unit := modify (λ s, set_plic (plic s ++ [(a, v)]) s).

(** set desired IRQ priorities non-zero (otherwise disabled). *)
Definition plicinit : K tstate unit :=
  plic_write (PLIC + UART0_IRQ * 4) 1 ;;
  plic_write (PLIC + VIRTIO0_IRQ * 4) 1.

Definition plicinithart : K tstate unit :=
  hart <- cpuid ;;
  (* set uart's enable bit for this hart's S-mode. *)
  plic_write (PLIC_SENABLE hart) (Z.lor (Z.shiftl 1 UART0_IRQ) (Z.shiftl 1 VIRTIO0_IRQ)) ;;
  (* set this hart's S-mode priority threshold to 0. *)
  plic_write (PLIC_SPRIORITY hart) 0.

(** ask the PLIC what interrupt we should serve; it reads 0 when there is none. *)
Definition plic_claim : K tstate Z :=
  l <- gets claims ;;
  modify (set_claims (tail l)) ;;
  ret (i32 (default 0 (head l))).

(** tell the PLIC we've served this IRQ. *)
Definition plic_complete (irq : Z) : K tstate unit :=
  hart <- cpuid ;;
  plic_write (PLIC_SCLAIM hart) irq.

(** ** Interrupts *)

Definition clockintr : K kstate unit :=
  acquire L_ticks ;;
  modify (λ s, set_ticks (u32 (ticks s + 1)) s) ;;
  wakeup C_ticks ;;
  release L_ticks.

Definition kprintf (fmt : string) (args : list varg) : K tstate unit := in_k (printf fmt args).

Section trap.
(** What the disk's registers read. *)
Context (vR : Z → Z).

(** check if it's an external interrupt or software interrupt, and handle it:
    2 if timer interrupt, 1 if other device, 0 if not recognized. *)
Definition devintr : K tstate Z :=
  scause <- gets (λ s, r_scause (cpu s)) ;;
  if negb (Z.land scause 0x8000000000000000 =? 0) && (Z.land scause 0xff =? 9) then
    (* this is a supervisor external interrupt, via PLIC. *)
    irq <- plic_claim ;;
    (if irq =? UART0_IRQ then in_k (in_console uartintr)
     else if irq =? VIRTIO0_IRQ then lift vdL (virtio_disk_intr vR)
     else when (negb (irq =? 0)) (kprintf "unexpected interrupt irq=%d
" [VNum irq])) ;;
    (* tell the PLIC the device is now allowed to interrupt again. *)
    when (negb (irq =? 0)) (plic_complete irq) ;;
    ret 1
  else if scause =? 0x8000000000000001 then
    (* software interrupt from a machine-mode timer interrupt *)
    id <- cpuid ;;
    when (id =? 0) (in_k clockintr) ;;
    (* acknowledge the software interrupt by clearing the SSIP bit in sip. *)
    updh (λ h, w_sip (Z.land (r_sip h) (Z.lnot 2)) h) ;;
    ret 2
  else ret 0.

(** Linker symbols and code addresses. *)
Context (kend trampoline uservec userret kernelvec usertrap_at forkret_addr de : Z).

(** set up to take exceptions and traps while in the kernel. *)
Definition trapinithart : K tstate unit := updh (w_stvec kernelvec).

(** interrupts and exceptions from kernel code go here via kernelvec. *)
Definition kerneltrap : K tstate unit :=
  sepc <- gets (λ s, r_sepc (cpu s)) ;;
  sstatus <- gets (λ s, r_sstatus (cpu s)) ;;
  scause <- gets (λ s, r_scause (cpu s)) ;;
  if Z.land sstatus SSTATUS_SPP =? 0 then panic "kerneltrap: not from supervisor mode"
  else
    on <- gets (λ s, intr_get (cpu s)) ;;
    if (on : bool) then panic "kerneltrap: interrupts enabled"
    else
      which_dev <- devintr ;;
      if which_dev =? 0 then
        kprintf "scause %p
" [VNum scause] ;;
        epc <- gets (λ s, r_sepc (cpu s)) ;;
        tval <- gets (λ s, r_stval (cpu s)) ;;
        kprintf "sepc=%p stval=%p
" [VNum epc; VNum tval] ;;
        panic "kerneltrap"
      else
        (* give up the CPU if this is a timer interrupt. *)
        (if which_dev =? 2 then
           p <- gets curproc ;;
           match p with
           | Some me =>
               st <- gets (λ s, state (getp (kmem (fsys (ks s))) me)) ;;
               if decide (st = RUNNING) then in_k (yield me) else ret tt
           | None => ret tt
           end
         else ret tt) ;;
        (* the yield() may have caused some traps to occur, so restore trap registers. *)
        updh (w_sepc sepc) ;;
        updh (w_sstatus sstatus).

(** The calling process, its index and its pid; the padding of [struct stat], and
    the locals of exec. *)
Context (me mypid : Z) (pad : list Z) (elf_at ph_at : Z).

(** [devsw] after [consoleinit]. *)
Definition devsw_read (major : Z) : option (bool → Z → Z → K kstate Z) :=
  if major =? CONSOLE then Some (λ user dst n, in_console (consoleread me user dst n)) else None.

Definition devsw_write (major : Z) : option (bool → Z → Z → K kstate Z) :=
  if major =? CONSOLE then Some (λ user src n, in_console (consolewrite me user src n)) else None.

Definition TF_kernel_satp : Z := 0.
Definition TF_kernel_sp : Z := 8.
Definition TF_kernel_trap : Z := 16.
Definition TF_kernel_hartid : Z := 32.

(** return to user space: the address of userret it jumps to, and its arguments. *)
Definition usertrapret : K tstate (Z * Z * Z) :=
  (* turn off interrupts until we're back in user space *)
  updh intr_off ;;
  (* send syscalls, interrupts, and exceptions to trampoline.S *)
  updh (w_stvec (TRAMPOLINE + (uservec - trampoline))) ;;
  (* set up trapframe values that uservec will need *)
  h <- gets cpu ;;
  in_k (tf_set me TF_kernel_satp (r_satp h)) ;;
  p <- in_k (myproc me) ;;
  in_k (tf_set me TF_kernel_sp (kstack p + PGSIZE)) ;;
  in_k (tf_set me TF_kernel_trap usertrap_at) ;;
  in_k (tf_set me TF_kernel_hartid (r_tp h)) ;;
  (* set S Previous Privilege mode to User. *)
  updh (λ h, w_sstatus (Z.lor (Z.land (r_sstatus h) (Z.lnot SSTATUS_SPP)) SSTATUS_SPIE) h) ;;
  (* set S Exception Program Counter to the saved user pc. *)
  epc <- in_k (tf_get me TF_epc) ;;
  updh (w_sepc epc) ;;
  (* tell trampoline.S the user page table to switch to. *)
  ret (TRAMPOLINE + (userret - trampoline), TRAPFRAME, MAKE_SATP (pagetable p)).

Definition usertrap : K tstate (Z * Z * Z) :=
  sstatus <- gets (λ s, r_sstatus (cpu s)) ;;
  if negb (Z.land sstatus SSTATUS_SPP =? 0) then panic "usertrap: not from user mode"
  else
    (* send interrupts and exceptions to kerneltrap(), since we're now in the kernel. *)
    updh (w_stvec kernelvec) ;;
    (* save user program counter. *)
    epc <- gets (λ s, r_sepc (cpu s)) ;;
    in_k (tf_set me TF_epc epc) ;;
    scause <- gets (λ s, r_scause (cpu s)) ;;
    which_dev <-
      (if scause =? 8 then
         (* system call *)
         p <- in_k (myproc me) ;;
         (if killed p then in_k (exit kend me mypid (-1)) else ret tt) ;;
         (* we want to return to the instruction after the ecall. *)
         epc <- in_k (tf_get me TF_epc) ;;
         in_k (tf_set me TF_epc (u64 (epc + 4))) ;;
         updh intr_on ;;
         in_k (syscall kend trampoline forkret_addr de me mypid devsw_read devsw_write pad elf_at ph_at) ;;
         ret 0
       else
         d <- devintr ;;
         if negb (d =? 0) then ret d
         else
           p <- in_k (myproc me) ;;
           kprintf "usertrap(): unexpected scause %p pid=%d
" [VNum scause; VNum (pid p)] ;;
           epc <- gets (λ s, r_sepc (cpu s)) ;;
           tval <- gets (λ s, r_stval (cpu s)) ;;
           kprintf "            sepc=%p stval=%p
" [VNum epc; VNum tval] ;;
           in_k (updk me (set_killed true)) ;;
           ret 0) ;;
    p <- in_k (myproc me) ;;
    (if killed p then in_k (exit kend me mypid (-1)) else ret tt) ;;
    (* give up the CPU if this is a timer interrupt. *)
    when (which_dev =? 2) (in_k (yield me)) ;;
    usertrapret.

(** A fork child's very first scheduling by scheduler() will swtch to forkret. *)
Definition forkret : K tstate (Z * Z * Z) :=
  (* Still holding p->lock from scheduler. *)
  release (L_proc me) ;;
  f <- gets first ;;
  when f
    (modify (set_first false) ;;
     in_k (in_fs (@fsinit _ _ (log_store mypid) ROOTDEV))) ;;
  usertrapret.
End trap.

(** ** Boot *)

(** Machine mode: the hart, memory-mapped words of the CLINT and [timer_scratch]. *)
Record mstate := MState {
  mcpu : hart;
  mword : gmap Z Z }.

Definition updm (f : hart → hart) (s : mstate) : mstate := MState (f (mcpu s)) (mword s).

Definition put_word (a v : Z) (s : mstate) : mstate := MState (mcpu s) (<[a := v]> (mword s)).

Definition INTERVAL : Z := 1000000.

Section boot.
(** The addresses of timervec, main and timer_scratch. *)
Context (timervec main_at timer_scratch : Z).

Definition timerinit (s : mstate) : mstate :=
  (* each CPU has a separate source of timer interrupts. *)
  let id := i32 (r_mhartid (mcpu s)) in
  (* ask the CLINT for a timer interrupt. *)
  let s := put_word (CLINT_MTIMECMP id) (u64 (default 0 (mword s !! CLINT_MTIME) + INTERVAL)) s in
  (* prepare information in scratch[] for timervec. *)
  let scratch := timer_scratch + id * 40 in
  let s := put_word (scratch + 24) (CLINT_MTIMECMP id) s in
  let s := put_word (scratch + 32) INTERVAL s in
  let s := updm (w_mscratch scratch) s in
  (* set the machine-mode trap handler. *)
  let s := updm (w_mtvec timervec) s in
  (* enable machine-mode interrupts. *)
  let s := updm (λ h, w_mstatus (Z.lor (r_mstatus h) MSTATUS_MIE) h) s in
  (* enable machine-mode timer interrupts. *)
  updm (λ h, w_mie (Z.lor (r_mie h) MIE_MTIE) h) s.

(** up to the [mret], which enters supervisor mode at [mepc]. *)
Definition start (s : mstate) : mstate :=
  (* set M Previous Privilege mode to Supervisor, for mret. *)
  let s := updm (λ h, w_mstatus (Z.lor (Z.land (r_mstatus h) (Z.lnot MSTATUS_MPP_MASK)) MSTATUS_MPP_S) h) s in
  (* set M Exception Program Counter to main, for mret. *)
  let s := updm (w_mepc main_at) s in
  (* disable paging for now. *)
  let s := updm (w_satp 0) s in
  (* delegate all interrupts and exceptions to supervisor mode. *)
  let s := updm (w_medeleg 0xffff) s in
  let s := updm (w_mideleg 0xffff) s in
  let s := updm (λ h, w_sie (Z.lor (Z.lor (Z.lor (r_sie h) SIE_SEIE) SIE_STIE) SIE_SSIE) h) s in
  (* give supervisor mode access to all of physical memory. *)
  let s := updm (w_pmpaddr0 0x3fffffffffffff) s in
  let s := updm (w_pmpcfg0 0xf) s in
  (* ask for clock interrupts. *)
  let s := timerinit s in
  (* keep each CPU's hartid in its tp register, for cpuid(). *)
  updm (λ h, w_tp (i32 (r_mhartid h)) h) s.
End boot.

Section main.
Context (vR : Z → Z) (kend etext trampoline kernelvec forkret_addr de disk_pages : Z).

(** [main] up to [scheduler()].  The [initlock]s of printfinit, trapinit and
    fileinit set nothing, since a lock is free when no thread holds it. *)
Definition main : K tstate unit :=
  id <- cpuid ;;
  if id =? 0 then
    in_k (in_console (consoleinit ;; ret tt)) ;;
    kprintf "
" [] ;;
    kprintf "xv6 kernel is booting
" [] ;;
    kprintf "
" [] ;;
    in_k (in_mem (kinit kend)) ;; (* physical page allocator *)
    kpt <- in_k (in_mem (kvminit etext trampoline)) ;; (* create kernel page table *)
    modify (set_kpt kpt) ;;
    updh (kvminithart kpt) ;; (* turn on paging *)
    in_k (in_procs procinit) ;; (* process table *)
    trapinithart kernelvec ;; (* install kernel trap vector *)
    plicinit ;; (* set up interrupt controller *)
    plicinithart ;; (* ask PLIC for device interrupts *)
    in_k (lift logL (lift bcL binit)) ;; (* buffer cache *)
    in_k (in_fs iinit) ;; (* inode table *)
    lift vdL (virtio_disk_init disk_pages vR) ;; (* emulated hard disk *)
    in_k (userinit kend trampoline forkret_addr de) ;; (* first user process *)
    modify (set_started true)
  else
    go <- gets started ;;
    if negb go then λ _ _, NoFuel (* while(started == 0) ; *)
    else
      kprintf "hart %d starting
" [VNum id] ;;
      kpt <- gets kernel_pagetable ;;
      updh (kvminithart kpt) ;; (* turn on paging *)
      trapinithart kernelvec ;; (* install kernel trap vector *)
      plicinithart. (* ask PLIC for device interrupts *)
End main.
