(* ===== verification/Asm.v ===== *)
(** * The assembly code (kernel/trampoline.S, kernel/swtch.S, kernel/kernelvec.S)

    The instructions these files use, as steps of a machine with its general
    registers, some control registers, and byte memory seen through the current
    page table; the code as lists of instructions. *)

From S2P Require Import Prelude Mem.

Inductive reg :=
  | Ra | Sp | Gp | Tp | T0 | T1 | T2 | S0 | S1
  | A0 | A1 | A2 | A3 | A4 | A5 | A6 | A7
  | S2 | S3 | S4 | S5 | S6 | S7 | S8 | S9 | S10 | S11
  | T3 | T4 | T5 | T6.

#[export] Instance reg_eq_dec : EqDecision reg.
Proof. solve_decision. Defined.

Inductive csrid := Sscratch | Satp | Mscratch | Sip.

#[export] Instance csrid_eq_dec : EqDecision csrid.
Proof. solve_decision. Defined.

Inductive instr :=
  | Sd (r : reg) (off : Z) (b : reg)
  | Ld (r : reg) (off : Z) (b : reg)
  | Addi (r b : reg) (imm : Z)
  | Add (r a b : reg)
  | Li (r : reg) (v : Z)
  | Csrrw (r : reg) (c : csrid) (r' : reg)
  | Csrr (r : reg) (c : csrid)
  | Csrw (c : csrid) (r : reg)
  | Sfence.

Record mach := Mach {
  xr : reg → Z;
  csr : csrid → Z;
  mm : mem }.

Definition setr (r : reg) (v : Z) (m : mach) : mach :=
  Mach (λ r', if decide (r' = r) then v else xr m r') (csr m) (mm m).

Definition setc (c : csrid) (v : Z) (m : mach) : mach :=
  Mach (xr m) (λ c', if decide (c' = c) then v else csr m c') (mm m).

(** ** The code *)

Definition uservec : list instr := [
  (* swap a0 and sscratch so that a0 is TRAPFRAME *)
  Csrrw A0 Sscratch A0;
  (* save the user registers in TRAPFRAME *)
  Sd Ra 40 A0; Sd Sp 48 A0; Sd Gp 56 A0; Sd Tp 64 A0; Sd T0 72 A0; Sd T1 80 A0; Sd T2 88 A0;
  Sd S0 96 A0; Sd S1 104 A0; Sd A1 120 A0; Sd A2 128 A0; Sd A3 136 A0; Sd A4 144 A0; Sd A5 152 A0;
  Sd A6 160 A0; Sd A7 168 A0; Sd S2 176 A0; Sd S3 184 A0; Sd S4 192 A0; Sd S5 200 A0; Sd S6 208 A0;
  Sd S7 216 A0; Sd S8 224 A0; Sd S9 232 A0; Sd S10 240 A0; Sd S11 248 A0; Sd T3 256 A0; Sd T4 264 A0;
  Sd T5 272 A0; Sd T6 280 A0;
  (* save the user a0 in p->trapframe->a0 *)
  Csrr T0 Sscratch; Sd T0 112 A0;
  (* restore kernel stack pointer from p->trapframe->kernel_sp *)
  Ld Sp 8 A0;
  (* make tp hold the current hartid, from p->trapframe->kernel_hartid *)
  Ld Tp 32 A0;
  (* load the address of usertrap(), p->trapframe->kernel_trap *)
  Ld T0 16 A0;
  (* restore kernel page table from p->trapframe->kernel_satp *)
  Ld T1 0 A0; Csrw Satp T1; Sfence ].
  (* jr t0 *)

Definition userret : list instr := [
  (* switch to the user page table. *)
  Csrw Satp A1; Sfence;
  (* put the saved user a0 in sscratch *)
  Ld T0 112 A0; Csrw Sscratch T0;
  (* restore all but a0 from TRAPFRAME *)
  Ld Ra 40 A0; Ld Sp 48 A0; Ld Gp 56 A0; Ld Tp 64 A0; Ld T0 72 A0; Ld T1 80 A0; Ld T2 88 A0;
  Ld S0 96 A0; Ld S1 104 A0; Ld A1 120 A0; Ld A2 128 A0; Ld A3 136 A0; Ld A4 144 A0; Ld A5 152 A0;
  Ld A6 160 A0; Ld A7 168 A0; Ld S2 176 A0; Ld S3 184 A0; Ld S4 192 A0; Ld S5 200 A0; Ld S6 208 A0;
  Ld S7 216 A0; Ld S8 224 A0; Ld S9 232 A0; Ld S10 240 A0; Ld S11 248 A0; Ld T3 256 A0; Ld T4 264 A0;
  Ld T5 272 A0; Ld T6 280 A0;
  (* restore user a0, and save TRAPFRAME in sscratch *)
  Csrrw A0 Sscratch A0 ].
  (* sret *)

(** [swtch(old, new)] *)
Definition swtch : list instr := [
  Sd Ra 0 A0; Sd Sp 8 A0; Sd S0 16 A0; Sd S1 24 A0; Sd S2 32 A0; Sd S3 40 A0; Sd S4 48 A0; Sd S5 56 A0;
  Sd S6 64 A0; Sd S7 72 A0; Sd S8 80 A0; Sd S9 88 A0; Sd S10 96 A0; Sd S11 104 A0;
  Ld Ra 0 A1; Ld Sp 8 A1; Ld S0 16 A1; Ld S1 24 A1; Ld S2 32 A1; Ld S3 40 A1; Ld S4 48 A1; Ld S5 56 A1;
  Ld S6 64 A1; Ld S7 72 A1; Ld S8 80 A1; Ld S9 88 A1; Ld S10 96 A1; Ld S11 104 A1 ].
  (* ret *)

(** kernelvec before and after the call of kerneltrap *)
Definition kernelvec_save : list instr := [
  Addi Sp Sp (-256);
  Sd Ra 0 Sp; Sd Sp 8 Sp; Sd Gp 16 Sp; Sd Tp 24 Sp; Sd T0 32 Sp; Sd T1 40 Sp; Sd T2 48 Sp;
  Sd S0 56 Sp; Sd S1 64 Sp; Sd A0 72 Sp; Sd A1 80 Sp; Sd A2 88 Sp; Sd A3 96 Sp; Sd A4 104 Sp; Sd A5 112 Sp;
  Sd A6 120 Sp; Sd A7 128 Sp; Sd S2 136 Sp; Sd S3 144 Sp; Sd S4 152 Sp; Sd S5 160 Sp; Sd S6 168 Sp;
  Sd S7 176 Sp; Sd S8 184 Sp; Sd S9 192 Sp; Sd S10 200 Sp; Sd S11 208 Sp; Sd T3 216 Sp; Sd T4 224 Sp;
  Sd T5 232 Sp; Sd T6 240 Sp ].

Definition kernelvec_restore : list instr := [
  Ld Ra 0 Sp; Ld Sp 8 Sp; Ld Gp 16 Sp;
  (* not this, in case we moved CPUs: ld tp, 24(sp) *)
  Ld T0 32 Sp; Ld T1 40 Sp; Ld T2 48 Sp;
  Ld S0 56 Sp; Ld S1 64 Sp; Ld A0 72 Sp; Ld A1 80 Sp; Ld A2 88 Sp; Ld A3 96 Sp; Ld A4 104 Sp; Ld A5 112 Sp;
  Ld A6 120 Sp; Ld A7 128 Sp; Ld S2 136 Sp; Ld S3 144 Sp; Ld S4 152 Sp; Ld S5 160 Sp; Ld S6 168 Sp;
  Ld S7 176 Sp; Ld S8 184 Sp; Ld S9 192 Sp; Ld S10 200 Sp; Ld S11 208 Sp; Ld T3 216 Sp; Ld T4 224 Sp;
  Ld T5 232 Sp; Ld T6 240 Sp;
  Addi Sp Sp 256 ].
  (* sret *)

Definition timervec : list instr := [
  Csrrw A0 Mscratch A0;
  Sd A1 0 A0; Sd A2 8 A0; Sd A3 16 A0;
  (* schedule the next timer interrupt by adding interval to mtimecmp. *)
  Ld A1 24 A0; Ld A2 32 A0; Ld A3 0 A1; Add A3 A3 A2; Sd A3 0 A1;
  (* raise a supervisor software interrupt. *)
  Li A1 2; Csrw Sip A1;
  Ld A3 16 A0; Ld A2 8 A0; Ld A1 0 A0;
  Csrrw A0 Mscratch A0 ].
  (* mret *)

(** ** The machine *)

Section asm.
(** Address translation, by the contents of satp. *)
Context (xlate : Z → Z → Z).

Definition at_ (m : mach) (b : reg) (off : Z) : Z := xlate (csr m Satp) (u64 (xr m b + off)).

Definition step (i : instr) (m : mach) : mach :=
  match i with
  | Sd r off b => Mach (xr m) (csr m) (store64 (mm m) (at_ m b off) (xr m r))
  | Ld r off b => setr r (load64 (mm m) (at_ m b off)) m
  | Addi r b imm => setr r (u64 (xr m b + imm)) m
  | Add r a b => setr r (u64 (xr m a + xr m b)) m
  | Li r v => setr r v m
  | Csrrw r c r' => setr r (csr m c) (setc c (xr m r') m)
  | Csrr r c => setr r (csr m c) m
  | Csrw c r => setc c (xr m r) m
  | Sfence => m
  end.

Definition run (l : list instr) (m : mach) : mach := foldl (λ m i, step i m) m l.

Lemma run_app l1 l2 m : run (l1 ++ l2) m = run l2 (run l1 m).
Proof. apply foldl_app. Qed.

(** ** Saving and restoring registers *)

Definition save (b : reg) (tbl : list (reg * Z)) : list instr := (λ p, Sd p.1 p.2 b) <$> tbl.
Definition restore (b : reg) (tbl : list (reg * Z)) : list instr := (λ p, Ld p.1 p.2 b) <$> tbl.

(** The words of a table are at different aligned offsets. *)
Definition spaced (tbl : list (reg * Z)) : Prop :=
  NoDup (tbl.*2) ∧ Forall (λ p, p.2 mod 8 = 0) tbl.

(** The table's words, by way of register [b], are at [base]. *)
Definition placed (m : mach) (b : reg) (base : Z) (tbl : list (reg * Z)) : Prop :=
  Forall (λ p, at_ m b p.2 = base + p.2) tbl.

Lemma spaced_cons p tbl : spaced (p :: tbl) → spaced tbl ∧ ∀ q, q ∈ tbl → q.2 + 8 <= p.2 ∨ p.2 + 8 <= q.2.
Proof.
  intros [Hn Hf]. cbn in Hn. apply NoDup_cons in Hn as [Hni Hn]. apply Forall_cons in Hf as [Hp Hf]. split; [done |].
  intros q Hq. assert (q.2 ≠ p.2) by (intros E; apply Hni; rewrite <- E; by apply list_elem_of_fmap_2).
  rewrite Forall_forall in Hf. specialize (Hf q Hq). cbn in Hf.
  pose proof (Z.div_mod q.2 8). pose proof (Z.div_mod p.2 8). lia.
Qed.

Lemma run_save b base tbl m :
  placed m b base tbl → spaced tbl →
  ∃ mem', run (save b tbl) m = Mach (xr m) (csr m) mem' ∧
    (∀ p, p ∈ tbl → load64 mem' (base + p.2) = u64 (xr m p.1)) ∧
    (∀ a, (∀ p, p ∈ tbl → a + 8 <= base + p.2 ∨ base + p.2 + 8 <= a) → load64 mem' a = load64 (mm m) a).
Proof.
  revert m. induction tbl as [| p tbl IH]; intros m Hpl Hsp; 
    [exists (mm m); split_and!; [by destruct m | set_solver | done] |].
  apply Forall_cons in Hpl as [Hp Hpl]. apply spaced_cons in Hsp as [Hsp Hfar].
  destruct (IH (step (Sd p.1 p.2 b) m)) as (mem' & E & Hin & Hout); [exact Hpl | done |].
  exists mem'. split; [exact E |]. cbn [step xr mm] in *. rewrite Hp in *. split.
  - intros q [-> | Hq]%elem_of_cons; [| by apply Hin].
    rewrite Hout by (intros q Hq; specialize (Hfar q Hq); lia). apply load64_store64_eq.
  - intros a Ha. rewrite Hout by (intros q Hq; apply Ha; by right).
    apply load64_store64_ne. apply Ha. left.
Qed.

Lemma run_restore b base tbl m :
  placed m b base tbl → NoDup (tbl.*1) → (∀ o, (b, o) ∈ tbl → load64 (mm m) (base + o) = xr m b) →
  mm (run (restore b tbl) m) = mm m ∧ csr (run (restore b tbl) m) = csr m ∧
  (∀ p, p ∈ tbl → xr (run (restore b tbl) m) p.1 = load64 (mm m) (base + p.2)) ∧
  (∀ r, r ∉ tbl.*1 → xr (run (restore b tbl) m) r = xr m r).
Proof.
  revert m. induction tbl as [| p tbl IH]; intros m Hpl Hnd Hb; [split_and!; set_solver |].
  apply Forall_cons in Hpl as [Hp Hpl]. cbn in Hnd. apply NoDup_cons in Hnd as [Hni Hnd].
  set (m1 := step (Ld p.1 p.2 b) m). assert (xr m1 b = xr m b) as Eb.
  { unfold m1. cbn. destruct (decide (b = p.1)) as [-> | Hne]; [| done]. rewrite Hp. apply Hb. destruct p. left. }
  destruct (IH m1) as (E1 & E2 & Hin & Hout).
  - unfold placed, at_ in *. by rewrite Eb.
  - done.
  - intros o Ho. rewrite Eb. apply Hb. by right.
  - split; [exact E1 |]. split; [exact E2 |]. change (run (restore b (p :: tbl)) m) with (run (restore b tbl) m1). split.
    + intros q [-> | Hq]%elem_of_cons; [| by apply Hin].
      rewrite Hout by done. unfold m1. cbn. rewrite decide_True by done. by rewrite Hp.
    + intros r Hr. rewrite Hout by set_solver. unfold m1. cbn. rewrite decide_False by set_solver. done.
Qed.
End asm.

(** ** Theorems *)

(** Where the trapframe keeps the user registers. *)
Definition user_regs : list (reg * Z) := [
  (Ra, 40); (Sp, 48); (Gp, 56); (Tp, 64); (T0, 72); (T1, 80); (T2, 88); (S0, 96); (S1, 104); (A1, 120); (A2, 128);
  (A3, 136); (A4, 144); (A5, 152); (A6, 160); (A7, 168); (S2, 176); (S3, 184); (S4, 192); (S5, 200); (S6, 208);
  (S7, 216); (S8, 224); (S9, 232); (S10, 240); (S11, 248); (T3, 256); (T4, 264); (T5, 272); (T6, 280) ].

(** The offsets of the user registers in [struct trapframe]. *)
Definition tf_off (r : reg) : Z :=
  match r with
  | Ra => 40 | Sp => 48 | Gp => 56 | Tp => 64 | T0 => 72 | T1 => 80 | T2 => 88 | S0 => 96 | S1 => 104
  | A0 => 112 | A1 => 120 | A2 => 128 | A3 => 136 | A4 => 144 | A5 => 152 | A6 => 160 | A7 => 168
  | S2 => 176 | S3 => 184 | S4 => 192 | S5 => 200 | S6 => 208 | S7 => 216 | S8 => 224 | S9 => 232
  | S10 => 240 | S11 => 248 | T3 => 256 | T4 => 264 | T5 => 272 | T6 => 280
  end.

Lemma user_regs_spec r : r ≠ A0 → (r, tf_off r) ∈ user_regs.
Proof. intros H. destruct r; try done; cbn; repeat (first [left; done | right]). Qed.

Lemma user_regs_inv p : p ∈ user_regs → p.2 = tf_off p.1 ∧ p.1 ≠ A0 ∧ 40 <= p.2 < 288 ∧ p.2 ≠ 112.
Proof.
  apply (Forall_forall (λ p, p.2 = tf_off p.1 ∧ p.1 ≠ A0 ∧ 40 <= p.2 < 288 ∧ p.2 ≠ 112)).
  unfold user_regs. repeat (apply Forall_cons; split; [cbn; lia || (split_and!; [done | done | lia..]) |]). constructor.
Qed.

Lemma user_regs_spaced : spaced user_regs ∧ NoDup (user_regs.*1).
Proof. split; [split |]; [| repeat constructor |]; apply (bool_decide_unpack _); vm_compute; exact I. Qed.

Section trampoline.
Context (xlate : Z → Z → Z) (TRAPFRAME usatp tf : Z).
(** The user page table maps the trapframe page. *)
Context (Hmap : ∀ off, 0 <= off < 4096 → xlate usatp (u64 (TRAPFRAME + off)) = tf + off).

Lemma run_uservec m :
  csr m Satp = usatp → csr m Sscratch = TRAPFRAME → (∀ r, 0 <= xr m r < 2 ^ 64) →
  let m1 := run xlate uservec m in
  (∀ r, load64 (mm m1) (tf + tf_off r) = xr m r) ∧
  (∀ off, off + 8 <= 40 → load64 (mm m1) (tf + off) = load64 (mm m) (tf + off)) ∧
  xr m1 Sp = load64 (mm m) (tf + 8) ∧ xr m1 Tp = load64 (mm m) (tf + 32) ∧ xr m1 T0 = load64 (mm m) (tf + 16) ∧
  csr m1 Satp = load64 (mm m) (tf + 0).
Proof.
  intros Hs Hc Hr m1. set (m0 := step xlate (Csrrw A0 Sscratch A0) m).
  destruct (run_save xlate A0 tf user_regs m0) as (mem1 & E & Hin & Hout).
  { apply Forall_forall. intros p Hp. apply user_regs_inv in Hp as (_ & _ & Hp & _). unfold at_, m0. cbn.
    rewrite Hs, Hc. apply Hmap. lia. }
  { apply user_regs_spaced. }
  set (mem2 := store64 mem1 (tf + 112) (xr m A0)).
  assert (∀ off, 0 <= off < 4096 → xlate usatp (u64 (csr m Sscratch + off)) = tf + off) as Hat by (by rewrite Hc).
  assert (mm m1 = mem2 ∧ xr m1 Sp = load64 mem2 (tf + 8) ∧ xr m1 Tp = load64 mem2 (tf + 32) ∧
    xr m1 T0 = load64 mem2 (tf + 16) ∧ csr m1 Satp = load64 mem2 (tf + 0)) as (E1 & E2 & E3 & E4 & E5).
  { assert (uservec = [Csrrw A0 Sscratch A0] ++ save A0 user_regs ++ drop 31 uservec) as Eu by reflexivity.
    unfold m1. rewrite Eu, run_app. change (run xlate [Csrrw A0 Sscratch A0] m) with m0. rewrite run_app, E.
    unfold uservec. cbn [drop run foldl].
    unfold step, at_, setr, setc. cbn [xr csr mm]. unfold m0, mem2. cbn. rewrite Hs, !Hat by lia. done. }
  assert (∀ off, off + 8 <= 40 → load64 mem2 (tf + off) = load64 (mm m) (tf + off)) as Hlow.
  { intros off Ho. unfold mem2. rewrite load64_store64_ne by lia. rewrite Hout; [done |].
    intros p Hp. apply user_regs_inv in Hp. lia. }
  rewrite E1, E2, E3, E4, E5, !Hlow by lia. split; [| done].
  intros r. destruct (decide (r = A0)) as [-> | Hne].
  - cbn [tf_off]. unfold mem2. rewrite load64_store64_eq. by rewrite u64_small by done.
  - pose proof (user_regs_spec r Hne) as Hp. unfold mem2. rewrite load64_store64_ne.
    + pose proof (Hin _ Hp) as H'. cbn [fst snd] in H'. rewrite H'. cbn. rewrite decide_False by done. by rewrite u64_small by done.
    + apply user_regs_inv in Hp as H. cbn in H. pose proof (proj2 (proj1 user_regs_spaced)) as Hf.
      rewrite Forall_forall in Hf. specialize (Hf _ Hp). cbn in Hf. pose proof (Z.div_mod (tf_off r) 8). lia.
Qed.

Lemma run_userret m :
  xr m A0 = TRAPFRAME → xr m A1 = usatp →
  let m1 := run xlate userret m in
  (∀ r, xr m1 r = load64 (mm m) (tf + tf_off r)) ∧ mm m1 = mm m ∧ csr m1 Satp = usatp ∧ csr m1 Sscratch = TRAPFRAME.
Proof.
  intros H0 H1 m1. set (m0 := run xlate (take 4 userret) m).
  assert (xr m0 A0 = TRAPFRAME ∧ csr m0 Satp = usatp ∧ mm m0 = mm m ∧ csr m0 Sscratch = load64 (mm m) (tf + 112)) as (E0 & E1 & E2 & E3).
  { unfold m0, userret. cbn [take run foldl]. unfold step, at_, setr, setc. cbn. rewrite H0, H1, Hmap by lia. done. }
  destruct (run_restore xlate A0 tf user_regs m0) as (F1 & F2 & Hin & Hout).
  { apply Forall_forall. intros p Hp. apply user_regs_inv in Hp as (_ & _ & Hp & _). unfold at_. rewrite E0, E1. apply Hmap. lia. }
  { apply user_regs_spaced. }
  { intros o Ho. apply user_regs_inv in Ho. naive_solver. }
  assert (m1 = step xlate (Csrrw A0 Sscratch A0) (run xlate (restore A0 user_regs) m0)) as ->.
  { assert (userret = take 4 userret ++ (restore A0 user_regs ++ [Csrrw A0 Sscratch A0])) as E by reflexivity.
    unfold m1. rewrite E, run_app. fold m0. rewrite run_app. reflexivity. }
  set (m2 := run xlate (restore A0 user_regs) m0) in *. clearbody m2. cbn. rewrite F1, F2, E1, E2.
  split_and!; [| done | done |].
  - intros r. destruct (decide (r = A0)) as [-> | Hne]; [done |].
    rewrite <- E2. apply (Hin (r, tf_off r)). by apply user_regs_spec.
  - rewrite Hout; [done |]. intros (p & E & Hp)%list_elem_of_fmap. apply user_regs_inv in Hp. naive_solver.
Qed.

(** C34: a trap and the return from it.  uservec saves all 31 user registers where
    [struct trapframe] has them and enters the kernel with its stack, hart id,
    page table and trap handler as usertrapret left them in the trapframe.  If the
    kernel changes no saved register but a0 (a system call's result), userret
    gives the user every register back, with the new a0, under the user page
    table and with sscratch ready for the next trap. *)
Theorem trap_roundtrip m :
  csr m Satp = usatp → csr m Sscratch = TRAPFRAME → (∀ r, 0 <= xr m r < 2 ^ 64) →
  let m1 := run xlate uservec m in
  (xr m1 Sp = load64 (mm m) (tf + 8) ∧ xr m1 Tp = load64 (mm m) (tf + 32) ∧ xr m1 T0 = load64 (mm m) (tf + 16) ∧
   csr m1 Satp = load64 (mm m) (tf + 0) ∧ ∀ r, load64 (mm m1) (tf + tf_off r) = xr m r) ∧
  ∀ m2 v, xr m2 A0 = TRAPFRAME → xr m2 A1 = usatp →
    (∀ r, load64 (mm m2) (tf + tf_off r) = if decide (r = A0) then v else load64 (mm m1) (tf + tf_off r)) →
    let m3 := run xlate userret m2 in
    (∀ r, xr m3 r = if decide (r = A0) then v else xr m r) ∧
    mm m3 = mm m2 ∧ csr m3 Satp = usatp ∧ csr m3 Sscratch = TRAPFRAME.
Proof.
  intros Hs Hc Hr m1. destruct (run_uservec m Hs Hc Hr) as (Hall & _ & H1 & H2 & H3 & H4). fold m1 in Hall, H1, H2, H3, H4.
  split; [done |]. intros m2 v A B Hk m3. destruct (run_userret m2 A B) as (Hu & F1 & F2 & F3). split; [| done].
  intros r. unfold m3. rewrite Hu, Hk. destruct (decide (r = A0)); [done | apply Hall].
Qed.
End trampoline.

(** The registers in [struct context]. *)
Definition callee_regs : list (reg * Z) := [
  (Ra, 0); (Sp, 8); (S0, 16); (S1, 24); (S2, 32); (S3, 40); (S4, 48); (S5, 56); (S6, 64); (S7, 72); (S8, 80);
  (S9, 88); (S10, 96); (S11, 104) ].

Lemma callee_regs_inv p : p ∈ callee_regs → p.1 ≠ A0 ∧ p.1 ≠ A1 ∧ 0 <= p.2 ∧ p.2 + 8 <= 112.
Proof.
  apply (Forall_forall (λ p, p.1 ≠ A0 ∧ p.1 ≠ A1 ∧ 0 <= p.2 ∧ p.2 + 8 <= 112)).
  unfold callee_regs. repeat (apply Forall_cons; split; [split_and!; [done | done | cbn; lia..] |]). constructor.
Qed.

Lemma callee_regs_spaced : spaced callee_regs ∧ NoDup (callee_regs.*1).
Proof. split; [split |]; [| repeat constructor |]; apply (bool_decide_unpack _); vm_compute; exact I. Qed.

Section swtch.
Context (xlate : Z → Z → Z) (ksatp : Z).

(** The kernel's page table maps the context at [c] to itself. *)
Definition direct (c : Z) : Prop := ∀ off, 0 <= off < 112 → xlate ksatp (u64 (c + off)) = c + off.

(** Contexts that do not overlap. *)
Definition apart (c d : Z) : Prop := c + 112 <= d ∨ d + 112 <= c.

Lemma run_swtch m old new :
  csr m Satp = ksatp → xr m A0 = old → xr m A1 = new → direct old → direct new → apart old new →
  (∀ r, 0 <= xr m r < 2 ^ 64) →
  let m1 := run xlate swtch m in
  (∀ p, p ∈ callee_regs → xr m1 p.1 = load64 (mm m) (new + p.2) ∧ load64 (mm m1) (old + p.2) = xr m p.1) ∧
  (∀ r, r ∉ callee_regs.*1 → xr m1 r = xr m r) ∧ csr m1 = csr m ∧
  (∀ a, a + 8 <= old ∨ old + 112 <= a → load64 (mm m1) a = load64 (mm m) a).
Proof.
  intros Hs H0 H1 D0 D1 Hap Hr m1.
  destruct (run_save xlate A0 old callee_regs m) as (mem1 & E & Hin & Hout).
  { apply Forall_forall. intros p Hp. apply callee_regs_inv in Hp. unfold at_. rewrite Hs, H0. apply D0. lia. }
  { apply callee_regs_spaced. }
  assert (∀ a, a + 8 <= old ∨ old + 112 <= a → load64 mem1 a = load64 (mm m) a) as Hfar.
  { intros a Ha. apply Hout. intros p Hp. apply callee_regs_inv in Hp. lia. }
  assert (m1 = run xlate (restore A1 callee_regs) (Mach (xr m) (csr m) mem1)) as ->.
  { assert (swtch = save A0 callee_regs ++ restore A1 callee_regs) as Es by reflexivity.
    unfold m1. by rewrite Es, run_app, E. }
  destruct (run_restore xlate A1 new callee_regs (Mach (xr m) (csr m) mem1)) as (F1 & F2 & Gin & Gout).
  { apply Forall_forall. intros p Hp. apply callee_regs_inv in Hp. unfold at_. cbn. rewrite Hs, H1. apply D1. lia. }
  { apply callee_regs_spaced. }
  { intros o Ho. apply callee_regs_inv in Ho as (_ & Hn & _). by destruct (Hn eq_refl). }
  set (m2 := run xlate (restore A1 callee_regs) _) in *. clearbody m2. cbn in F1, F2, Gin, Gout. rewrite F1. split_and!; [| done | done | done].
  intros p Hp. split.
  - rewrite (Gin p Hp). apply Hfar. apply callee_regs_inv in Hp. unfold apart in Hap. lia.
  - rewrite (Hin p Hp). by rewrite u64_small.
Qed.

(** a context switch and the switch back.  swtch saves the caller's stack
    pointer, return address and callee-saved registers in the old context, takes
    those of the new context, and changes no other register and no other memory.
    A later swtch back to that context, from any third one and with the saved
    words as they were left, gives the first caller all of them back. *)
Theorem swtch_roundtrip m old new :
  csr m Satp = ksatp → xr m A0 = old → xr m A1 = new → direct old → direct new → apart old new →
  (∀ r, 0 <= xr m r < 2 ^ 64) →
  let m1 := run xlate swtch m in
  (∀ p, p ∈ callee_regs → xr m1 p.1 = load64 (mm m) (new + p.2)) ∧
  (∀ r, r ∉ callee_regs.*1 → xr m1 r = xr m r) ∧
  (∀ a, a + 8 <= old ∨ old + 112 <= a → load64 (mm m1) a = load64 (mm m) a) ∧
  ∀ m2 third, csr m2 Satp = ksatp → xr m2 A0 = third → xr m2 A1 = old → direct third → apart third old →
    (∀ r, 0 <= xr m2 r < 2 ^ 64) →
    (∀ p, p ∈ callee_regs → load64 (mm m2) (old + p.2) = load64 (mm m1) (old + p.2)) →
    ∀ p, p ∈ callee_regs → xr (run xlate swtch m2) p.1 = xr m p.1.
Proof.
  intros Hs H0 H1 D0 D1 Hap Hr m1. destruct (run_swtch m old new Hs H0 H1 D0 D1 Hap Hr) as (Hc & Ho & _ & Hf).
  fold m1 in Hc, Ho, Hf. split_and!; [intros p Hp; by apply Hc | done | done |].
  intros m2 third Hs2 G0 G1 D2 Hap2 Hr2 Hk p Hp.
  destruct (run_swtch m2 third old Hs2 G0 G1 D2 D0 Hap2 Hr2) as (Hc2 & _).
  destruct (Hc2 p Hp) as [-> _]. rewrite (Hk p Hp). by apply Hc.
Qed.
End swtch.

(** ** Interrupts in the kernel *)

(** What kernelvec saves below the stack pointer; it restores all but tp. *)
Definition frame_regs : list (reg * Z) := [
  (Ra, 0); (Sp, 8); (Gp, 16); (T0, 32); (T1, 40); (T2, 48); (S0, 56); (S1, 64); (A0, 72); (A1, 80); (A2, 88); (A3, 96);
  (A4, 104); (A5, 112); (A6, 120); (A7, 128); (S2, 136); (S3, 144); (S4, 152); (S5, 160); (S6, 168); (S7, 176);
  (S8, 184); (S9, 192); (S10, 200); (S11, 208); (T3, 216); (T4, 224); (T5, 232); (T6, 240) ].

Definition frame_saved : list (reg * Z) := take 3 frame_regs ++ (Tp, 24) :: drop 3 frame_regs.

Lemma frame_regs_inv p : p ∈ frame_saved → 0 <= p.2 < 256.
Proof.
  apply (Forall_forall (λ p, 0 <= p.2 < 256)). unfold frame_saved, frame_regs. cbn [take drop app].
  repeat (apply Forall_cons; split; [cbn; lia |]). constructor.
Qed.

Lemma frame_regs_spaced : spaced frame_saved ∧ NoDup (frame_regs.*1) ∧ (∀ p, p ∈ frame_regs → p ∈ frame_saved) ∧
  (∀ r, r ≠ Tp → ∃ o, (r, o) ∈ frame_regs).
Proof.
  split; [split; [| repeat constructor]; apply (bool_decide_unpack _); vm_compute; exact I |].
  split; [apply (bool_decide_unpack _); vm_compute; exact I |]. split.
  - intros p Hp. unfold frame_saved. rewrite <- (take_drop 3 frame_regs) in Hp. rewrite elem_of_app, elem_of_cons in *. tauto.
  - intros r Hr. destruct r; try done; eexists; unfold frame_regs; repeat (first [left; reflexivity | right]).
Qed.

Section kernelvec.
Context (xlate : Z → Z → Z).

(** The frame is in memory that maps to itself. *)
Definition frame_at (m : mach) (base : Z) : Prop :=
  ∀ off, 0 <= off < 256 → xlate (csr m Satp) (u64 (base + off)) = base + off.

Lemma run_kernelvec_save m base :
  xr m Sp = base + 256 → 0 <= base → base + 256 < 2 ^ 64 → (∀ r, 0 <= xr m r < 2 ^ 64) → frame_at m base →
  let m1 := run xlate kernelvec_save m in
  xr m1 Sp = base ∧ (∀ r, r ≠ Sp → xr m1 r = xr m r) ∧
  (∀ a, a + 8 <= base ∨ base + 256 <= a → load64 (mm m1) a = load64 (mm m) a) ∧
  (∀ p, p ∈ frame_regs → load64 (mm m1) (base + p.2) = xr m1 p.1).
Proof.
  intros Hsp Hb Hb' Hr Hx m1. destruct frame_regs_spaced as (Hspc & _ & Hsub & _).
  set (m0 := step xlate (Addi Sp Sp (-256)) m).
  assert (xr m0 Sp = base) as E0.
  { unfold m0. cbn [step setr xr]. rewrite decide_True, Hsp by done. rewrite u64_small; lia. }
  assert (∀ r, r ≠ Sp → xr m0 r = xr m r) as E1 by (intros r Hne; cbn; by rewrite decide_False).
  destruct (run_save xlate Sp base frame_saved m0) as (mem1 & E & Hin & Hout); [| done |].
  { apply Forall_forall. intros p Hp. apply frame_regs_inv in Hp. unfold at_. rewrite E0. by apply Hx. }
  assert (m1 = Mach (xr m0) (csr m0) mem1) as ->.
  { assert (kernelvec_save = [Addi Sp Sp (-256)] ++ save Sp frame_saved) as Ek by reflexivity.
    unfold m1. rewrite Ek, run_app. exact E. }
  assert (mm m0 = mm m) as E2 by done. clearbody m0. cbn [xr mm]. split_and!; [done | done | |].
  - intros a Ha. rewrite Hout, E2; [done |]. intros p Hp. apply frame_regs_inv in Hp as Hp'.
    pose proof (proj2 Hspc) as Hf. rewrite Forall_forall in Hf. specialize (Hf p Hp). cbn in Hf.
    pose proof (Z.div_mod p.2 8). lia.
  - intros p Hp. rewrite (Hin p) by auto. apply u64_small.
    destruct (decide (p.1 = Sp)) as [-> | Hne]; [lia | by rewrite E1].
Qed.

Lemma run_kernelvec_restore m base :
  xr m Sp = base → 0 <= base → base + 256 < 2 ^ 64 → frame_at m base → load64 (mm m) (base + 8) = base →
  let m1 := run xlate kernelvec_restore m in
  (∀ p, p ∈ frame_regs → xr m1 p.1 = if decide (p.1 = Sp) then base + 256 else load64 (mm m) (base + p.2)) ∧
  xr m1 Tp = xr m Tp ∧ mm m1 = mm m.
Proof.
  intros Hsp Hb Hb' Hx H8 m1. destruct frame_regs_spaced as (_ & Hnd & Hsub & _).
  assert (∀ o, (Sp, o) ∈ frame_regs → o = 8) as Ho.
  { assert (Forall (λ p, p.1 = Sp → p.2 = 8) frame_regs) as Hf.
    { unfold frame_regs. repeat (apply Forall_cons; split; [done |]). constructor. }
    rewrite Forall_forall in Hf. intros o Ho. by apply (Hf _ Ho). }
  set (m4 := run xlate (restore Sp frame_regs) m).
  destruct (run_restore xlate Sp base frame_regs m) as (F1 & F2 & Gin & Gout); [| done | |].
  { apply Forall_forall. intros p Hp. apply Hsub, frame_regs_inv in Hp. unfold at_. rewrite Hsp. by apply Hx. }
  { intros o ->%Ho. by rewrite H8. }
  assert (m1 = step xlate (Addi Sp Sp 256) m4) as ->.
  { assert (kernelvec_restore = restore Sp frame_regs ++ [Addi Sp Sp 256]) as Ek by reflexivity.
    unfold m1. by rewrite Ek, run_app. }
  fold m4 in F1, F2, Gin, Gout. clearbody m4. cbn [step setr xr mm]. split_and!; [| | done].
  - intros p Hp. rewrite (Gin p Hp). destruct (decide (p.1 = Sp)) as [E | Hne]; [| done].
    destruct p as [r o]. cbn in E. subst r. pose proof (Gin _ Hp) as H'. cbn in H'. rewrite (Ho o Hp), H8 in H'.
    rewrite H'. apply u64_small. lia.
  - rewrite decide_False by done. apply Gout. apply (bool_decide_unpack _); vm_compute; exact I.
Qed.

(** An interrupt of kernel code.  kernelvec saves the registers in a frame of
    256 bytes below the stack pointer; if kerneltrap returns with the stack
    pointer as it was and the frame as it was saved, every register but tp is
    restored, so that the interrupted code goes on as if nothing had happened,
    on this or, with its own tp, on another hart. *)
Theorem kernelvec_roundtrip m sp :
  xr m Sp = sp → 256 <= sp → (∀ r, 0 <= xr m r < 2 ^ 64) → frame_at m (sp - 256) →
  let m1 := run xlate kernelvec_save m in
  xr m1 Sp = sp - 256 ∧ (∀ r, r ≠ Sp → xr m1 r = xr m r) ∧
  (∀ a, a + 8 <= sp - 256 ∨ sp <= a → load64 (mm m1) a = load64 (mm m) a) ∧
  ∀ m2, csr m2 Satp = csr m Satp → xr m2 Sp = sp - 256 →
    (∀ off, 0 <= off < 256 → load64 (mm m2) (sp - 256 + off) = load64 (mm m1) (sp - 256 + off)) →
    let m3 := run xlate kernelvec_restore m2 in
    (∀ r, r ≠ Tp → xr m3 r = xr m r) ∧ xr m3 Tp = xr m2 Tp ∧ mm m3 = mm m2.
Proof.
  intros Hsp Hlo Hr Hx m1. assert (sp < 2 ^ 64) by (rewrite <- Hsp; apply Hr).
  destruct (run_kernelvec_save m (sp - 256)) as (E0 & E1 & Ho & Hin); [lia.. | done | done |]. fold m1 in E0, E1, Ho, Hin.
  split; [done |]. split; [done |]. split; [intros a Ha; apply Ho; lia |].
  intros m2 Hs2 Hsp2 Hk m3. destruct frame_regs_spaced as (_ & _ & Hsub & Hcov).
  assert ((Sp, 8) ∈ frame_regs) as H8 by (unfold frame_regs; right; left).
  destruct (run_kernelvec_restore m2 (sp - 256)) as (Hall & Htp & Hmm); [done | lia | lia | | |].
  { unfold frame_at. by rewrite Hs2. }
  { pose proof (Hin _ H8) as H'. cbn [fst snd] in H'. by rewrite Hk, H' by lia. }
  split; [| done]. intros r Hne. destruct (Hcov r Hne) as [o Hp]. pose proof (Hall _ Hp) as H'. cbn [fst snd] in H'. unfold m3.
  rewrite H'. destruct (decide (r = Sp)) as [-> | Hns]; [lia |].
  rewrite Hk by (apply Hsub, frame_regs_inv in Hp; exact Hp). pose proof (Hin _ Hp) as H2. cbn [fst snd] in H2.
  rewrite H2. by apply E1.
Qed.
End kernelvec.

(** ** Instances *)

Section instances.
Definition demo_mach : mach :=
  Mach (λ r, 3 * tf_off r) (λ c, match c with Satp => 5 | Sscratch => 0x3fffffe000 | _ => 0 end) ∅.

Lemma demo_regs (r : reg) : 0 <= xr demo_mach r < 2 ^ 64.
Proof. destruct r; cbn; lia. Qed.

Lemma trap_roundtrip_witness :
  let xlate := λ _ a, a - 0x3fffffe000 + 0x87f00000 in
  ∃ m1, m1 = run xlate uservec demo_mach ∧ load64 (mm m1) (0x87f00000 + tf_off A0) = xr demo_mach A0 ∧
    ∃ m3, m3 = run xlate userret (setr A0 0x3fffffe000 (setr A1 5 m1)) ∧ xr m3 T6 = xr demo_mach T6.
Proof.
  intros xlate.
  destruct (trap_roundtrip xlate 0x3fffffe000 5 0x87f00000) with (m := demo_mach) as [(_ & _ & _ & _ & H1) H2].
  - intros off Ho. unfold xlate. rewrite u64_small; lia.
  - done.
  - done.
  - apply demo_regs.
  - eexists. split; [reflexivity |]. revert H1 H2. generalize (run xlate uservec demo_mach). intros m1 H1 H2. split; [exact (H1 A0) |].
    eexists. split; [reflexivity |].
    destruct (H2 (setr A0 0x3fffffe000 (setr A1 5 m1)) (xr demo_mach A0)) as (H3 & _); [done | done | |].
    + intros r. destruct (decide (r = A0)) as [-> |]; [exact (H1 A0) | reflexivity].
    + rewrite (H3 T6). reflexivity.
Defined.

Lemma swtch_roundtrip_witness :
  let xlate := λ _ a, a in
  let m := setr A0 0x1000 (setr A1 0x2000 demo_mach) in
  let m1 := run xlate swtch m in
  xr (run xlate swtch (Mach (λ r, if decide (r = A0) then 0x3000 else if decide (r = A1) then 0x1000 else 7) (csr m1) (mm m1))) Sp = 144.
Proof.
  intros xlate m m1. assert (∀ c, 0 <= c < 0x4000 → direct xlate 5 c) as Hd.
  { intros c Hc off Ho. unfold xlate. rewrite u64_small; lia. }
  destruct (swtch_roundtrip xlate 5 m 0x1000 0x2000) as (_ & _ & _ & H); [done | done | done | apply Hd; lia.. | unfold apart; lia | |].
  - intros r. unfold m. destruct r; vm_compute; split; congruence.
  - fold m1 in H. assert (csr m1 Satp = 5) as Hc by (vm_compute; reflexivity). clearbody m1. apply (H _ 0x3000) with (p := (Sp, 8)); [done | done | done | apply Hd; lia | unfold apart; lia | | done | by right; left].
    intros r. cbn. destruct (decide (r = A0)), (decide (r = A1)); lia.
Defined.

Lemma kernelvec_roundtrip_witness :
  let xlate := λ _ a, a in
  let m := setr Sp 0x3000 demo_mach in
  let m1 := run xlate kernelvec_save m in
  xr (run xlate kernelvec_restore m1) Sp = 0x3000 ∧ xr (run xlate kernelvec_restore m1) A5 = 456.
Proof.
  intros xlate m m1. destruct (kernelvec_roundtrip xlate m 0x3000) as (_ & _ & _ & H); [done | lia | | |].
  - intros r. unfold m. destruct r; vm_compute; split; congruence.
  - intros off Ho. unfold xlate. rewrite u64_small; lia.
  - fold m1 in H. assert (csr m1 Satp = 5 ∧ xr m1 Sp = 0x3000 - 256) as [Hc Hs] by (split; vm_compute; reflexivity).
    clearbody m1. destruct (H m1) as (H' & _); [done | done | done |]. split; [by rewrite H' | by rewrite H'].
Defined.
End instances.
