(* ===== verification/User.v ===== *)
(** * User programs as the system calls they make (user/user.h, user/ulib.c)

    A program is the tree of its system calls, each with what the program does
    for every answer.  Strings are lists of characters without the NUL. *)

From S2P Require Import Prelude Abi Printf.

(** [struct stat], as [fstat] fills it in *)
Record ustat := UStat { st_dev : Z; st_ino : Z; st_type : Z; st_nlink : Z; st_size : Z }.

(** The system calls, with the type of what they give back: [read] the bytes it
    stored, unless it failed, [pipe] the two descriptors, [fstat] the record. *)
Inductive sysE : Type → Type :=
  | s_fork : sysE Z
  | s_exit (status : Z) : sysE Empty_set
  | s_wait : sysE Z (* wait(0) *)
  | s_wait_status : sysE (Z * option Z) (* wait(&st): with what is stored, if anything *)
  | s_pipe : sysE (option (Z * Z))
  | s_write (fd : Z) (buf : list Z) : sysE Z
  | s_read (fd n : Z) : sysE (option (list Z))
  | s_close (fd : Z) : sysE Z
  | s_kill (pid : Z) : sysE Z
  | s_exec (path : list Z) (argv : list (list Z)) : sysE Z
  | s_open (path : list Z) (omode : Z) : sysE Z
  | s_mknod (path : list Z) (major minor : Z) : sysE Z
  | s_unlink (path : list Z) : sysE Z
  | s_fstat (fd : Z) : sysE (option ustat)
  | s_link (old new : list Z) : sysE Z
  | s_mkdir (path : list Z) : sysE Z
  | s_chdir (path : list Z) : sysE Z
  | s_dup (fd : Z) : sysE Z
  | s_getpid : sysE Z
  | s_sbrk (n : Z) : sysE Z (* an address; -1 is 2^64-1 *)
  | s_sleep (n : Z) : sysE Z
  | s_uptime : sysE Z.

Inductive prog (A : Type) : Type :=
  | Ret (a : A)
  | Vis {X : Type} (e : sysE X) (k : X → prog A)
  | OutOfFuel.
Arguments Ret {A} _.
Arguments Vis {A X} _ _.
Arguments OutOfFuel {A}.

Fixpoint ubind {A B} (m : prog A) (f : A → prog B) : prog B :=
  match m with
  | Ret a => f a
  | Vis e k => Vis e (λ x, ubind (k x) f)
  | OutOfFuel => OutOfFuel
  end.

Definition sys {X} (e : sysE X) : prog X := Vis e Ret.

Declare Scope prog_scope.
Delimit Scope prog_scope with prog.
Notation "x <-- m ;;; k" := (ubind m (λ x, k))
  (at level 100, m at next level, right associativity) : prog_scope.
Notation "m ;;; k" := (ubind m (λ _, k))
  (at level 100, right associativity) : prog_scope.
#[global] Open Scope prog_scope.

(** [exit], which does not return, where a value of any type is expected *)
Definition exit {A} (status : Z) : prog A := Vis (s_exit status) (λ x, match x with end).

(** ** Output *)

Definition NL : Z := 10.
Definition CR : Z := 13.

(** An argument for [printf]'s %s *)
Definition S_ (s : list Z) : varg := VStr (Some s).

(** A string literal that ends in a newline *)
Definition line (s : string) : list Z := chars s ++ [NL].

Fixpoint putcs (fd : Z) (l : list Z) : prog () :=
  match l with
  | [] => Ret tt
  | c :: l => sys (s_write fd [c]) ;;; putcs fd l
  end.

Definition fprintf (fd : Z) (fmt : list Z) (args : list varg) : prog () := putcs fd (uprintf fmt args).

Definition printf (fmt : list Z) (args : list varg) : prog () := fprintf 1 fmt args.

(** ** user/ulib.c *)

(** The loop of [gets], with [k] the characters that still fit before the NUL. *)
Fixpoint gets_loop (k : nat) : prog (list Z) :=
  match k with
  | O => Ret []
  | S k =>
      r <-- sys (s_read 0 1) ;;;
      match r with
      | Some [c] =>
          if (c =? NL) || (c =? CR) then Ret [c]
          else l <-- gets_loop k ;;; Ret (c :: l)
      | _ => Ret []
      end
  end.

(** What [gets] leaves in the buffer before the NUL. *)
Definition gets (max : Z) : prog (list Z) := gets_loop (Z.to_nat (max - 1)).

Definition stat (n : list Z) : prog (option ustat) :=
  fd <-- sys (s_open n O_RDONLY) ;;;
  if fd <? 0 then Ret None
  else
    r <-- sys (s_fstat fd) ;;;
    sys (s_close fd) ;;;
    Ret r.

(** ** Executions

    The system calls a program makes, with their answers. *)

Inductive event : Type :=
  | Ev {X : Type} (e : sysE X) (x : X).

(** The program makes the calls of [t], gets their answers, and returns [a]. *)
Fixpoint runs {A} (p : prog A) (t : list event) (a : A) : Prop :=
  match p with
  | Ret b => t = [] ∧ b = a
  | Vis e k => ∃ x t', t = Ev e x :: t' ∧ runs (k x) t' a
  | OutOfFuel => False
  end.

(** What was read from [fd]. *)
Fixpoint bytes_read (fd : Z) (t : list event) : list Z :=
  match t with
  | [] => []
  | Ev e x :: t =>
      match e in sysE X return X → list Z with
      | s_read fd' _ => λ x, if fd' =? fd then default [] x else []
      | _ => λ _, []
      end x ++ bytes_read fd t
  end.

(** What was written to [fd], by the calls that wrote all they were given. *)
Fixpoint bytes_written (fd : Z) (t : list event) : list Z :=
  match t with
  | [] => []
  | Ev e x :: t =>
      match e in sysE X return X → list Z with
      | s_write fd' buf => λ n, if (fd' =? fd) && (n =? Z.of_nat (length buf)) then buf else []
      | _ => λ _, []
      end x ++ bytes_written fd t
  end.

Lemma uruns_bind {A B} (m : prog A) (f : A → prog B) t b :
  runs (ubind m f) t b ↔ ∃ t1 t2 a, t = t1 ++ t2 ∧ runs m t1 a ∧ runs (f a) t2 b.
Proof.
  revert t. induction m as [a | X e k IH |]; intros t; cbn [ubind runs].
  - split; [intros H; by exists [], t, a | intros (t1 & t2 & a' & -> & [-> ->] & H); done].
  - split.
    + intros (x & t' & -> & H). apply IH in H as (t1 & t2 & a & -> & H1 & H2). exists (Ev e x :: t1), t2, a. naive_solver.
    + intros (t1 & t2 & a & -> & (x & t' & -> & H1) & H2). exists x, (t' ++ t2). split; [done |]. apply IH. naive_solver.
  - naive_solver.
Qed.

Lemma bytes_read_app fd t1 t2 : bytes_read fd (t1 ++ t2) = bytes_read fd t1 ++ bytes_read fd t2.
Proof. induction t1 as [| [X e x] t1 IH]; [done |]. cbn. by rewrite IH, app_assoc. Qed.

Lemma bytes_written_app fd t1 t2 : bytes_written fd (t1 ++ t2) = bytes_written fd t1 ++ bytes_written fd t2.
Proof. induction t1 as [| [X e x] t1 IH]; [done |]. cbn. by rewrite IH, app_assoc. Qed.

(** A call and what follows it. *)
Lemma uruns_sys {A X} (e : sysE X) (f : X → prog A) t a :
  runs (ubind (sys e) f) t a ↔ ∃ x t', t = Ev e x :: t' ∧ runs (f x) t' a.
Proof. done. Qed.

(** [exit] does not return. *)
Lemma uruns_exit {A} st t (a : A) : ¬ runs (exit st) t a.
Proof. by intros ([] & _). Qed.

(** A message and [exit] do not return either. *)
Lemma uruns_fail {A B} (m : prog B) st t (a : A) : ¬ runs (ubind m (λ _, exit st)) t a.
Proof. intros (? & ? & ? & _ & _ & []%uruns_exit)%uruns_bind. Qed.

(** ** A program with an input

    What a program writes to its output when reading [fd] gives it the input in
    pieces, and what it returns: [read input n] is the next piece. *)

Section serve.
Context (read : list Z → nat → list Z) (fd : Z).

Fixpoint serve {A} (p : prog A) (input : list Z) : list Z * option A :=
  match p with
  | Ret a => ([], Some a)
  | OutOfFuel => ([], None)
  | Vis e k =>
      match e in sysE X return (X → list Z → list Z * option A) → list Z * option A with
      | s_read fd' n => λ run,
          if fd' =? fd then let got := read input (Z.to_nat n) in run (Some got) (drop (length got) input)
          else run None input
      | s_write fd' buf => λ run,
          let '(out, r) := run (Z.of_nat (length buf)) input in
          ((if fd' =? 1 then buf else []) ++ out, r)
      | _ => λ _, ([], None)
      end (λ x input, serve (k x) input)
  end.

Lemma serve_read {A} n (f : option (list Z) → prog A) input :
  serve (ubind (sys (s_read fd n)) f) input =
    serve (f (Some (read input (Z.to_nat n)))) (drop (length (read input (Z.to_nat n))) input).
Proof. cbn. by rewrite Z.eqb_refl. Qed.

Lemma serve_write {A} buf (f : Z → prog A) input :
  serve (ubind (sys (s_write 1 buf)) f) input =
    (buf ++ (serve (f (Z.of_nat (length buf))) input).1, (serve (f (Z.of_nat (length buf))) input).2).
Proof. cbn. by destruct (serve _ _). Qed.
End serve.

(** A read gives first bytes of what is left of the input, no more than asked
    for, and none only at its end. *)
Class Reader (read : list Z → nat → list Z) : Prop := {
  read_take : ∀ input n, ∃ k, read input n = take k input ∧ (k <= n)%nat;
  read_some : ∀ input n, input ≠ [] → (0 < n)%nat → read input n ≠ [] }.

Lemma read_split read `{!Reader read} input n : input = read input n ++ drop (length (read input n)) input.
Proof.
  destruct (read_take input n) as (k & -> & _). rewrite length_take. rewrite <- (take_drop k input) at 1. f_equal.
  destruct (Nat.le_ge_cases k (length input)); [by rewrite Nat.min_l | rewrite Nat.min_r by done]. by rewrite !drop_ge.
Qed.

(** Reading at most [m] bytes at a time *)
#[export] Instance reader_chunks m : (0 < m)%nat → Reader (λ i n, take (Nat.min n m) i).
Proof.
  intros Hm. split.
  - intros input n. exists (Nat.min n m). split; [done | lia].
  - intros [| b input] n Hi Hn; [done |]. by destruct (Nat.min n m) eqn:E; [lia |].
Qed.
