(* ===== verification/Grep.v ===== *)
(** * grep (user/grep.c)

    The pattern matcher, against the language a pattern stands for, and the loop
    that reads a file in pieces. *)

From S2P Require Import Prelude Abi Printf User.

Definition HAT : Z := 94.
Definition DOT : Z := 46.
Definition STAR : Z := 42.
Definition DOLLAR : Z := 36.

(** ** The matcher

    Strings are the characters before the NUL. *)

(** search for c*re at beginning of text, given the search for re *)
Definition matchstar (matchhere_re : list Z → bool) (c : Z) : list Z → bool :=
  fix go (text : list Z) : bool :=
    (* a * matches zero or more instances *)
    if matchhere_re text then true
    else
      match text with
      | t :: text => if (t =? c) || (c =? DOT) then go text else false
      | [] => false
      end.

(** search for re at beginning of text *)
Fixpoint matchhere (re text : list Z) : bool :=
  match re with
  | [] => true
  | c :: re1 =>
      match re1 with
      | d :: re2 =>
          if d =? STAR then matchstar (matchhere re2) c text
          else
            match text with
            | t :: text => if (c =? DOT) || (c =? t) then matchhere re1 text else false
            | [] => false
            end
      | [] =>
          if c =? DOLLAR then (match text with [] => true | _ => false end)
          else
            match text with
            | t :: text => if (c =? DOT) || (c =? t) then matchhere re1 text else false
            | [] => false
            end
      end
  end.

(** The loop of [match] over the suffixes of [text]. *)
Fixpoint match_loop (re text : list Z) : bool :=
  (* must look at empty string *)
  if matchhere re text then true
  else match text with [] => false | _ :: text => match_loop re text end.

Definition match_ (re text : list Z) : bool :=
  match re with
  | c :: re' => if c =? HAT then matchhere re' text else match_loop re text
  | [] => match_loop re text
  end.

(** ** The language of a pattern *)

Inductive node := One (c : Z) | Star (c : Z).

(** [c] in a pattern stands for [t]. *)
Definition stands (c t : Z) : Prop := c = DOT ∨ c = t.

Inductive lang : list node → list Z → Prop :=
  | lang_nil : lang [] []
  | lang_one c t l w : stands c t → lang l w → lang (One c :: l) (t :: w)
  | lang_stop c l w : lang l w → lang (Star c :: l) w
  | lang_more c t l w : stands c t → lang (Star c :: l) w → lang (Star c :: l) (t :: w).

(** The nodes of a pattern, and whether it ends in a dollar sign. *)
Fixpoint parse (re : list Z) : list node * bool :=
  match re with
  | [] => ([], false)
  | c :: re1 =>
      match re1 with
      | d :: re2 =>
          if d =? STAR then let '(l, e) := parse re2 in (Star c :: l, e)
          else let '(l, e) := parse re1 in (One c :: l, e)
      | [] => if c =? DOLLAR then ([], true) else ([One c], false)
      end
  end.

(** A prefix of [text] is in the language, all of it if the pattern ends in $. *)
Definition prefix_in (re text : list Z) : Prop :=
  ∃ w rest, text = w ++ rest ∧ lang (parse re).1 w ∧ ((parse re).2 = true → rest = []).

(** [text] contains a match of the pattern. *)
Definition accepts (re text : list Z) : Prop :=
  match re with
  | c :: re' => if c =? HAT then prefix_in re' text else ∃ skip text', text = skip ++ text' ∧ prefix_in re text'
  | [] => ∃ skip text', text = skip ++ text' ∧ prefix_in re text'
  end.

Lemma matchstar_iff mh c text :
  matchstar mh c text = true ↔ ∃ w rest, text = w ++ rest ∧ Forall (stands c) w ∧ mh rest = true.
Proof.
  induction text as [| t text IH]; cbn [matchstar].
  - destruct (mh []) eqn:E; (split; [intros H | intros (w & rest & Ew & _ & Hr)]); [| done | done |].
    + by exists [], [].
    + destruct w, rest; simplify_eq/=; congruence.
  - destruct (mh (t :: text)) eqn:E; [split; [intros; by exists [], (t :: text) | done] |].
    split.
    + destruct (_ || _) eqn:Et; [| done]. intros (w & rest & -> & Hw & Hr)%IH. exists (t :: w), rest.
      split_and!; [done | constructor; [| done] | done]. unfold stands. lia.
    + intros ([| t' w] & rest & Ew & Hw & Hr); [cbn in Ew; subst rest; congruence |]. injection Ew as <- ->.
      apply Forall_cons in Hw as [Ht Hw]. replace ((t =? c) || (c =? DOT)) with true by (unfold stands in Ht; lia).
      apply IH. by exists w, rest.
Qed.

Lemma lang_star c l w : lang (Star c :: l) w ↔ ∃ w1 w2, w = w1 ++ w2 ∧ Forall (stands c) w1 ∧ lang l w2.
Proof.
  split.
  - intros H. remember (Star c :: l) as k eqn:Ek. induction H; simplify_eq; [by exists [], w |].
    destruct (IHlang eq_refl) as (w1 & w2 & -> & Hf & Hl). exists (t :: w1), w2. split_and!; [done | by constructor | done].
  - intros (w1 & w2 & -> & Hf & Hl). induction Hf; [by constructor |]. cbn. by constructor.
Qed.

Lemma prefix_nil text : prefix_in [] text.
Proof. exists [], text. split_and!; [done | constructor | done]. Qed.

Lemma prefix_star c re text :
  prefix_in (c :: STAR :: re) text ↔ ∃ w rest, text = w ++ rest ∧ Forall (stands c) w ∧ prefix_in re rest.
Proof.
  unfold prefix_in. cbn [parse]. rewrite Z.eqb_refl. destruct (parse re) as [l e]. cbn [fst snd]. split.
  - intros (w & rest & -> & (w1 & w2 & -> & Hf & Hl)%lang_star & He). exists w1, (w2 ++ rest). rewrite app_assoc.
    split_and!; [done | done |]. by exists w2, rest.
  - intros (w & rest & -> & Hf & w2 & rest' & -> & Hl & He). exists (w ++ w2), rest'. rewrite app_assoc.
    split_and!; [done | | done]. apply lang_star. by exists w, w2.
Qed.

Lemma prefix_end text : prefix_in [DOLLAR] text ↔ text = [].
Proof.
  unfold prefix_in. cbn [parse]. rewrite Z.eqb_refl. cbn [fst snd]. split.
  - intros (w & rest & -> & Hl & He). inversion Hl. by rewrite He.
  - intros ->. exists [], []. split_and!; [done | constructor | done].
Qed.

(** A character that is no operator here. *)
Lemma prefix_one c re text :
  (parse (c :: re)).1 = One c :: (parse re).1 → (parse (c :: re)).2 = (parse re).2 →
  prefix_in (c :: re) text ↔ ∃ t text', text = t :: text' ∧ stands c t ∧ prefix_in re text'.
Proof.
  unfold prefix_in. intros -> ->. destruct (parse re) as [l e]. cbn [fst snd]. split.
  - intros (w & rest & -> & Hl & He). inversion Hl; subst. eexists t, (_ ++ rest). split_and!; [done | done |]. by eexists _, rest.
  - intros (t & text' & -> & Ht & w & rest & -> & Hl & He). exists (t :: w), rest. split_and!; [done | by constructor | done].
Qed.

Lemma parse_plain c d re :
  d ≠ STAR → parse (c :: d :: re) = (One c :: (parse (d :: re)).1, (parse (d :: re)).2).
Proof.
  intros H. transitivity (let '(l, e) := parse (d :: re) in (One c :: l, e)); [| by destruct (parse (d :: re))].
  change (parse (c :: d :: re)) with
    (if d =? STAR then let '(l, e) := parse re in (Star c :: l, e) else let '(l, e) := parse (d :: re) in (One c :: l, e)).
  by rewrite (proj2 (Z.eqb_neq d STAR)).
Qed.

Lemma matchhere_iff re text : matchhere re text = true ↔ prefix_in re text.
Proof.
  revert text. induction re as [re IH] using (well_founded_induction (well_founded_ltof _ length)). intros text.
  assert (∀ c re1, re = c :: re1 →
    (match text with t :: text => if (c =? DOT) || (c =? t) then matchhere re1 text else false | [] => false end) = true ↔
    ∃ t text', text = t :: text' ∧ stands c t ∧ prefix_in re1 text') as Hone.
  { intros c re1 ->. split.
    - destruct text as [| t text]; [done |]. destruct (_ || _) eqn:Et; [| done]. intros H. exists t, text.
      split_and!; [done | unfold stands; lia |]. apply IH; [unfold ltof; cbn; lia | done].
    - intros (t & text' & -> & Ht & H). replace ((c =? DOT) || (c =? t)) with true by (unfold stands in Ht; lia).
      apply IH; [unfold ltof; cbn; lia | done]. }
  destruct re as [| c [| d re2]].
  - split; [intros; apply prefix_nil | done].
  - cbn [matchhere]. destruct (Z.eqb_spec c DOLLAR) as [-> | Hc].
    + rewrite prefix_end. by destruct text.
    + rewrite (prefix_one c []); [exact (Hone c [] eq_refl) | |]; cbn; by rewrite (proj2 (Z.eqb_neq c DOLLAR)).
  - cbn [matchhere]. destruct (Z.eqb_spec d STAR) as [-> | Hd].
    + rewrite prefix_star, matchstar_iff. setoid_rewrite IH; [done | unfold ltof; cbn; lia].
    + rewrite (prefix_one c (d :: re2)); [exact (Hone c (d :: re2) eq_refl) | |]; by rewrite parse_plain.
Qed.

Lemma match_loop_iff re text : match_loop re text = true ↔ ∃ skip text', text = skip ++ text' ∧ prefix_in re text'.
Proof.
  induction text as [| t text IH]; cbn [match_loop].
  - destruct (matchhere re []) eqn:E.
    + split; [intros _; exists [], []; split; [done |]; by apply matchhere_iff | done].
    + split; [done |]. intros (skip & text' & Et & H%matchhere_iff). destruct skip, text'; simplify_eq/=. congruence.
  - destruct (matchhere re (t :: text)) eqn:E.
    + split; [intros _; exists [], (t :: text); split; [done |]; by apply matchhere_iff | done].
    + rewrite IH. split.
      * intros (skip & text' & -> & H). by exists (t :: skip), text'.
      * intros ([| t' skip] & text' & Et & H); [cbn in Et; subst text'; apply matchhere_iff in H; congruence |].
        injection Et as <- ->. by exists skip, text'.
Qed.

(** C35: the matcher is correct and complete: [match] accepts a line exactly when
    the line contains a word of the pattern's language, at its beginning if the
    pattern starts with ^ and up to its end if it ends with $; a * that follows
    nothing, and ^ and $ elsewhere, stand for themselves. *)
Theorem match_iff_accepts re text : match_ re text = true ↔ accepts re text.
Proof.
  unfold match_, accepts. destruct re as [| c re]; [apply match_loop_iff |].
  destruct (c =? HAT); [apply matchhere_iff | apply match_loop_iff].
Qed.

(** ** The loop over a file *)

Definition BUFSZ : nat := 1024.

(** [strchr(p, NL)]: the characters before the newline and after it. *)
Fixpoint split_nl (l : list Z) : option (list Z * list Z) :=
  match l with
  | [] => None
  | c :: l =>
      if c =? 0 then None
      else if c =? NL then Some ([], l)
      else match split_nl l with Some (a, b) => Some (c :: a, b) | None => None end
  end.

(** The loop over the complete lines of the buffer: the rest of the buffer. *)
Fixpoint grep_lines (fuel : nat) (pattern p : list Z) : prog (list Z) :=
  match fuel with
  | O => Ret p
  | S fuel =>
      match split_nl p with
      | Some (l, p) =>
          (if match_ pattern l then sys (s_write 1 (l ++ [NL])) ;;; Ret tt else Ret tt) ;;;
          grep_lines fuel pattern p
      | None => Ret p
      end
  end.

(** The loop over the file, with the first [m] bytes of the buffer. *)
Fixpoint grep_loop (fuel : nat) (pattern : list Z) (fd : Z) (buf : list Z) : prog () :=
  match fuel with
  | O => OutOfFuel
  | S fuel =>
      r <-- sys (s_read fd (Z.of_nat (BUFSZ - length buf - 1))) ;;;
      match r with
      | None | Some [] => Ret tt
      | Some got =>
          rest <-- grep_lines (length (buf ++ got)) pattern (buf ++ got) ;;;
          grep_loop fuel pattern fd rest
      end
  end.

Definition grep (fuel : nat) (pattern : list Z) (fd : Z) : prog () := grep_loop fuel pattern fd [].

Fixpoint grep_files (fuel : nat) (pattern : list Z) (args : list (list Z)) : prog Empty_set :=
  match args with
  | [] => exit 0
  | a :: args =>
      fd <-- sys (s_open a 0) ;;;
      if fd <? 0 then printf (line "grep: cannot open %s") [S_ a] ;;; exit 1
      else grep fuel pattern fd ;;; sys (s_close fd) ;;; grep_files fuel pattern args
  end.

Definition grep_main (fuel : nat) (argv : list (list Z)) : prog Empty_set :=
  match argv with
  | _ :: pattern :: args =>
      match args with
      | [] => grep fuel pattern 0 ;;; exit 0
      | _ => grep_files fuel pattern args
      end
  | _ => fprintf 2 (line "usage: grep pattern [file ...]") [] ;;; exit 1
  end.

(** ** What grep prints *)

(** Lines with their newlines. *)
Definition text_of (ls : list (list Z)) : list Z := concat ((λ l, l ++ [NL]) <$> ls).

(** A line: no newline, no NUL, and short enough for the buffer. *)
Definition line_ok (l : list Z) : Prop := NL ∉ l ∧ 0 ∉ l ∧ (length l <= BUFSZ - 2)%nat.

Lemma text_of_cons l ls : text_of (l :: ls) = l ++ NL :: text_of ls.
Proof. unfold text_of. cbn. by rewrite <- app_assoc. Qed.

Lemma text_of_app l1 l2 : text_of (l1 ++ l2) = text_of l1 ++ text_of l2.
Proof. unfold text_of. by rewrite fmap_app, concat_app. Qed.

Lemma length_text_of ls : (length ls <= length (text_of ls))%nat.
Proof. induction ls as [| l ls IH]; [done |]. rewrite text_of_cons, length_app. cbn. lia. Qed.

Lemma split_nl_line l rest : NL ∉ l → 0 ∉ l → split_nl (l ++ NL :: rest) = Some (l, rest).
Proof.
  induction l as [| c l IH]; intros Hn H0; cbn [app split_nl].
  - done.
  - rewrite (proj2 (Z.eqb_neq c 0)), (proj2 (Z.eqb_neq c NL)) by set_solver. by rewrite IH by set_solver.
Qed.

Lemma split_nl_none l : NL ∉ l → split_nl l = None.
Proof.
  induction l as [| c l IH]; intros Hn; [done |]. cbn [split_nl].
  destruct (c =? 0); [done |]. rewrite (proj2 (Z.eqb_neq c NL)) by set_solver. by rewrite IH by set_solver.
Qed.

Lemma grep_lines_f {A} read fd pattern ls part fuel input (k : list Z → prog A) :
  Forall line_ok ls → NL ∉ part → (length ls <= fuel)%nat →
  serve read fd (ubind (grep_lines fuel pattern (text_of ls ++ part)) k) input =
    (text_of (filter (λ l, match_ pattern l = true) ls) ++ (serve read fd (k part) input).1, (serve read fd (k part) input).2).
Proof.
  intros Hls Hp. revert fuel. induction Hls as [| l ls Hl Hls IH]; intros fuel Hf.
  - destruct fuel; cbn [text_of fmap list_fmap concat app grep_lines ubind filter]; rewrite ?split_nl_none by done; by destruct (serve _ _ _ _).
  - destruct fuel as [| fuel]; [cbn in Hf; lia |]. destruct Hl as (Hn & H0 & _). cbn [length] in Hf.
    rewrite text_of_cons, <- app_assoc, <- app_comm_cons. cbn [grep_lines]. rewrite split_nl_line by done.
    rewrite filter_cons. destruct (match_ pattern l) eqn:E.
    + rewrite decide_True by done. change (ubind (ubind (ubind (sys (s_write 1 (l ++ [NL]))) (λ _, Ret tt)) (λ _, grep_lines fuel pattern (text_of ls ++ part))) k)
        with (ubind (sys (s_write 1 (l ++ [NL]))) (λ _, ubind (grep_lines fuel pattern (text_of ls ++ part)) k)).
      rewrite serve_write, IH by lia. cbn [fst snd]. by rewrite text_of_cons, <- !app_assoc.
    + rewrite decide_False by done. cbn [ubind]. apply IH. lia.
Qed.

(** Any first part of the text consists of whole lines and the start of one. *)
Lemma prefix_lines ls last q rem :
  q ++ rem = text_of ls ++ last → NL ∉ last → Forall (λ l, NL ∉ l) ls →
  ∃ ls1 ls2 part, ls = ls1 ++ ls2 ∧ q = text_of ls1 ++ part ∧ NL ∉ part ∧ part ++ rem = text_of ls2 ++ last.
Proof.
  intros E Hlast Hls. revert q E. induction Hls as [| l ls Hl Hls IH]; intros q E.
  - exists [], [], q. split_and!; [done | done | | done]. cbn in E. intros Hq. apply Hlast. rewrite <- E. apply elem_of_app. by left.
  - pose proof E as E'. rewrite text_of_cons, <- app_assoc, <- app_comm_cons in E.
    apply app_eq_app in E as [k [[-> Ek] | [-> Ek]]].
    + destruct k as [| c k].
      * cbn in Ek. exists [], (l :: ls), l. split_and!; [done | by rewrite app_nil_r | done |].
        rewrite app_nil_r in E'. by rewrite E'.
      * injection Ek as <- Ek. destruct (IH k) as (ls1 & ls2 & part & -> & -> & Hp & Er); [done |].
        exists (l :: ls1), ls2, part. split_and!; [done | by rewrite text_of_cons, <- app_assoc | done | done].
    + exists [], ((q ++ k) :: ls), q. split_and!; [done | done | set_solver | done].
Qed.

Lemma part_short part rem ls last :
  part ++ rem = text_of ls ++ last → NL ∉ part → (length last <= BUFSZ - 2)%nat → Forall line_ok ls → (length part <= BUFSZ - 2)%nat.
Proof.
  intros E Hn Hl Hls. destruct Hls as [| l ls (_ & _ & Hl') _].
  - cbn in E. apply (f_equal length) in E. rewrite length_app in E. lia.
  - rewrite text_of_cons, <- app_assoc, <- app_comm_cons in E. apply app_eq_app in E as [k [[-> Ek] | [-> Ek]]].
    + destruct k as [| c k]; [rewrite app_nil_r; lia |]. injection Ek as <- _. set_solver.
    + rewrite length_app in Hl'. lia.
Qed.

Section grep_spec.
Context (read : list Z → nat → list Z) `{!Reader read} (fd : Z).

Lemma grep_loop_f pattern ls last fuel input buf :
  buf ++ input = text_of ls ++ last → NL ∉ buf → (length buf <= BUFSZ - 2)%nat → (length input < fuel)%nat →
  Forall line_ok ls → NL ∉ last → (length last <= BUFSZ - 2)%nat →
  serve read fd (grep_loop fuel pattern fd buf) input = (text_of (filter (λ l, match_ pattern l = true) ls), Some tt).
Proof.
  intros E Hb Hlb Hf Hls Hn Hll. revert ls input buf E Hb Hlb Hf Hls. induction fuel as [| fuel IH]; intros ls input buf E Hb Hlb Hf Hls; [lia |].
  cbn [grep_loop]. rewrite serve_read, Nat2Z.id. set (n := (BUFSZ - length buf - 1)%nat). pose proof (read_split read input n) as Ei.
  destruct (read input n) as [| c got'] eqn:Eg.
  - destruct input as [| a input]; [| exfalso; apply (read_some (a :: input) n); [done | unfold n, BUFSZ in *; lia | done]].
    rewrite app_nil_r in E. subst buf. destruct ls as [| l ls]; [done |]. rewrite text_of_cons in Hb. set_solver.
  - set (got := c :: got') in *.
    set (rem := drop (length got) input) in *. rewrite Ei, app_assoc in E.
    destruct (prefix_lines ls last (buf ++ got) rem E Hn) as (ls1 & ls2 & part & -> & Eq & Hp & Er).
    { eapply Forall_impl; [exact Hls |]. by intros l (H & _). }
    apply Forall_app in Hls as [H1 H2]. pose proof (length_text_of ls1).
    rewrite Eq, (grep_lines_f read fd pattern ls1 part) by (try done; rewrite length_app; lia).
    rewrite (IH ls2 rem part Er Hp); [| by eapply part_short | | done].
    2: { apply (f_equal length) in Ei. rewrite length_app in Ei. assert (length got = S (length got')) by done. lia. }
    cbn [fst snd]. by rewrite filter_app, text_of_app.
Qed.

(** C36: grep returns, having printed, in order, exactly those lines ended by a
    newline that contain a match, and nothing of the text after the last newline,
    even if that text contains a match; however the reads cut the input into
    pieces, provided that no line has more than 1022 characters and none ended by
    a newline contains a NUL. A last line without its newline is therefore never
    printed. *)
Theorem grep_prints_matching pattern ls last :
  Forall line_ok ls → NL ∉ last → (length last <= BUFSZ - 2)%nat →
  let input := text_of ls ++ last in
  serve read fd (grep (S (length input)) pattern fd) input = (text_of (filter (λ l, match_ pattern l = true) ls), Some tt).
Proof.
  intros Hls Hn Hl input. unfold grep. apply (grep_loop_f pattern ls last); [done | set_solver | cbn; lia | lia | done..].
Qed.
End grep_spec.

(** ** Instances *)

(** The text after the last newline matches as well, and is not printed. *)
Lemma grep_prints_matching_witness :
  let input := text_of [chars "one"; chars "two"; chars "three"] ++ chars "tie" in
  match_ (chars "^t.*e$") (chars "tie") = true ∧
  serve (λ i n, take (Nat.min n 5) i) 0 (grep (S (length input)) (chars "^t.*e$") 0) input = (text_of [chars "three"], Some tt).
Proof.
  cbn zeta. split; [vm_compute; reflexivity |]. rewrite (grep_prints_matching _ (Reader0 := reader_chunks 5 ltac:(lia))).
  - vm_compute. reflexivity.
  - unfold line_ok. repeat constructor; try (apply (bool_decide_unpack _); vm_compute; exact I).
  - apply (bool_decide_unpack _); vm_compute; exact I.
  - vm_compute. lia.
Defined.
