(* ===== verification/Ulib.v ===== *)
(** * The C library's string functions (user/ulib.c)

    On the memory of the process; a loop that runs to a NUL takes [fuel]. *)

From S2P Require Import Prelude Mem.

(** [while(( *s++ = *t++ ) != 0)] *)
Fixpoint strcpy (fuel : nat) (m : mem) (s t : Z) : option mem :=
  match fuel with
  | O => None
  | S f =>
      let m' := mset m s (mget m t) in
      if mget m t =? 0 then Some m' else strcpy f m' (s + 1) (t + 1)
  end.

Fixpoint strcmp (fuel : nat) (m : mem) (p q : Z) : option Z :=
  match fuel with
  | O => None
  | S f =>
      if negb (mget m p =? 0) && (mget m p =? mget m q) then strcmp f m (p + 1) (q + 1)
      else Some (mget m p - mget m q)
  end.

(** The address of the first [c], or 0. *)
Fixpoint strchr (fuel : nat) (m : mem) (s c : Z) : option Z :=
  match fuel with
  | O => None
  | S f =>
      if mget m s =? 0 then Some 0
      else if mget m s =? u8 c then Some s
      else strchr f m (s + 1) c
  end.

(** [while('0' <= *s && *s <= '9') n = n*10 + *s++ - '0'], where [int] wraps. *)
Fixpoint atoi_loop (fuel : nat) (m : mem) (s n : Z) : option Z :=
  match fuel with
  | O => None
  | S f =>
      if (48 <=? mget m s) && (mget m s <=? 57) then atoi_loop f m (s + 1) (i32 (n * 10 + mget m s - 48))
      else Some n
  end.

Definition atoi (fuel : nat) (m : mem) (s : Z) : option Z := atoi_loop fuel m s 0.

(** Forward when the source is above, else backward, for a positive [n]. *)
Definition umemmove (m : mem) (dst src n : Z) : mem :=
  if dst <? src then move_forward m dst src (Z.to_nat n)
  else move_backward m (dst + n) (src + n) (Z.to_nat n).

(** ** Facts *)

(** Whatever the overlap, [umemmove] copies the source as it was. *)
Lemma umemmove_bytes m d s n x :
  0 <= n →
  mget (umemmove m d s n) x = if (d <=? x) && (x <? d + n) then mget m (s + (x - d)) else mget m x.
Proof.
  intros Hn. unfold umemmove. destruct (Z_of_nat_complete n Hn) as [k ->]. rewrite Nat2Z.id. destruct (Z.ltb_spec d s).
  - apply move_forward_spec. lia.
  - apply move_backward_spec. lia.
Qed.

(** It does what the kernel's [memmove] does. *)
Lemma umemmove_memmove m d s n x : 0 <= n → mget (umemmove m d s n) x = mget (memmove m d s (Z.to_nat n)) x.
Proof. intros Hn. rewrite umemmove_bytes, memmove_bytes by done. by rewrite Z2Nat.id. Qed.

Lemma strcmp_cstr fuel m p q l1 l2 :
  (length l1 < fuel)%nat → cstr_at m p l1 → cstr_at m q l2 →
  ∃ r, strcmp fuel m p q = Some r ∧ (r = 0 ↔ l1 = l2).
Proof.
  revert fuel p q l2. induction l1 as [| b l1 IH]; intros fuel p q l2 Hf H1 H2; (destruct fuel as [| fuel]; [cbn in Hf; lia |]); cbn [strcmp].
  - apply cstr_at_nil in H1. rewrite H1. cbn [Z.eqb negb andb]. eexists. split; [done |]. destruct l2 as [| c l2].
    + apply cstr_at_nil in H2. rewrite H2. naive_solver.
    + apply cstr_at_cons in H2 as (H2 & Hc & _). split; [lia | done].
  - apply cstr_at_cons in H1 as (H1 & Hb & H1'). rewrite H1, (proj2 (Z.eqb_neq b 0)) by done. cbn [negb andb]. destruct l2 as [| c l2].
    + apply cstr_at_nil in H2. rewrite H2, (proj2 (Z.eqb_neq b 0)) by done. eexists. split; [done |]. split; [lia | done].
    + apply cstr_at_cons in H2 as (H2 & Hc & H2'). rewrite H2. destruct (Z.eqb_spec b c) as [-> |].
      * destruct (IH fuel (p + 1) (q + 1) l2) as (r & Er & Hr); [cbn in Hf; lia | done | done |]. exists r. split; [done |]. rewrite Hr. naive_solver.
      * eexists. split; [done |]. split; [lia | naive_solver].
Qed.

(** [strchr] finds the first occurrence of a character that is not NUL. *)
Lemma strchr_first fuel m s l c :
  (length l < fuel)%nat → cstr_at m s l → 0 < c < 256 →
  strchr fuel m s c = Some (match list_find (λ b, b = c) l with Some (i, _) => s + Z.of_nat i | None => 0 end).
Proof.
  intros Hf Hs Hc. revert fuel s Hf Hs. induction l as [| b l IH]; intros fuel s Hf Hs; (destruct fuel as [| fuel]; [cbn in Hf; lia |]); cbn [strchr].
  - apply cstr_at_nil in Hs. by rewrite Hs.
  - apply cstr_at_cons in Hs as (Hs & Hb & Hs'). rewrite Hs, (proj2 (Z.eqb_neq b 0)) by done. unfold u8. rewrite Z.mod_small by lia. cbn [list_find].
    destruct (Z.eqb_spec b c) as [-> |].
    + rewrite decide_True by done. f_equal. lia.
    + rewrite decide_False by done. rewrite IH by (try done; cbn in Hf; lia). destruct (list_find _ l) as [[i y] |]; cbn; [f_equal; lia | done].
Qed.

(** [strcpy] to a place where it does not overlap copies the string. *)
Lemma strcpy_copies fuel m s t l :
  (length l < fuel)%nat → cstr_at m t l → (s + Z.of_nat (length l) < t ∨ t + Z.of_nat (length l) < s) →
  ∃ m', strcpy fuel m s t = Some m' ∧ cstr_at m' s l ∧
    ∀ x, ¬ (s <= x <= s + Z.of_nat (length l)) → mget m' x = mget m x.
Proof.
  revert fuel m s t. induction l as [| b l IH]; intros fuel m s t Hf Ht Hd; (destruct fuel as [| fuel]; [cbn in Hf; lia |]); cbn [strcpy].
  - apply cstr_at_nil in Ht. rewrite Ht. eexists. split; [done |]. split; [apply cstr_at_nil | intros x Hx]; rewrite mget_mset; [by rewrite Z.eqb_refl |].
    cbn in Hx. by rewrite (proj2 (Z.eqb_neq s x)) by lia.
  - apply cstr_at_cons in Ht as (Ht & Hb & Ht'). rewrite Ht, (proj2 (Z.eqb_neq b 0)) by done. cbn [length] in *.
    destruct (IH fuel (mset m s b) (s + 1) (t + 1)) as (m' & E & H1 & H2); [lia | | lia |].
    { eapply cstr_at_ext; [| exact Ht']. intros x Hx. rewrite mget_mset. by rewrite (proj2 (Z.eqb_neq s x)) by lia. }
    exists m'. split; [done |]. split.
    + apply cstr_at_cons. split; [| done]. rewrite H2 by lia. rewrite mget_mset, Z.eqb_refl. rewrite <- Ht. unfold mget, u8. by rewrite Z.mod_mod.
    + intros x Hx. rewrite H2 by lia. rewrite mget_mset. by rewrite (proj2 (Z.eqb_neq s x)) by lia.
Qed.
