(* ===== verification/Progs.v ===== *)
(** * The small user programs

    user/cat.c, echo.c, wc.c, ls.c, init.c, rm.c, mkdir.c, ln.c, kill.c,
    zombie.c and uptime.c.  [argv] holds the [argc] arguments, the program's
    name first; a loop that runs until the kernel answers otherwise takes
    [fuel]. *)

From S2P Require Import Prelude Abi Mem Printf User Ulib.

(** ** cat.c *)

Fixpoint cat (fuel : nat) (fd : Z) : prog () :=
  match fuel with
  | O => OutOfFuel
  | S fuel =>
      r <-- sys (s_read fd 512) ;;;
      match r with
      | None => fprintf 2 (line "cat: read error") [] ;;; exit 1
      | Some [] => Ret tt
      | Some buf =>
          n <-- sys (s_write 1 buf) ;;;
          if negb (n =? Z.of_nat (length buf)) then
            fprintf 2 (line "cat: write error") [] ;;; exit 1
          else cat fuel fd
      end
  end.

Fixpoint cat_files (fuel : nat) (args : list (list Z)) : prog Empty_set :=
  match args with
  | [] => exit 0
  | a :: args =>
      fd <-- sys (s_open a 0) ;;;
      if fd <? 0 then fprintf 2 (line "cat: cannot open %s") [S_ a] ;;; exit 1
      else cat fuel fd ;;; sys (s_close fd) ;;; cat_files fuel args
  end.

Definition cat_main (fuel : nat) (argv : list (list Z)) : prog Empty_set :=
  if (length argv <=? 1)%nat then cat fuel 0 ;;; exit 0
  else cat_files fuel (drop 1 argv).

(** ** echo.c *)

Fixpoint echo_loop (args : list (list Z)) : prog Empty_set :=
  match args with
  | [] => exit 0
  | a :: args =>
      sys (s_write 1 a) ;;;
      sys (s_write 1 (if (0 <? length args)%nat then chars " " else [NL])) ;;;
      echo_loop args
  end.

Definition echo_main (argv : list (list Z)) : prog Empty_set := echo_loop (drop 1 argv).

(** ** wc.c *)

Record counts := Counts { wl : Z; ww : Z; wch : Z; inword : bool }.

Definition wc_space : list Z := [32; CR; 9; NL; 11].

(** A turn of the loop over the buffer; the counters are [int]s. *)
Definition wc_char (s : counts) (b : Z) : counts :=
  let c := i32 (wch s + 1) in
  let l := if b =? NL then i32 (wl s + 1) else wl s in
  if bool_decide (b ∈ wc_space) then Counts l (ww s) c false
  else if negb (inword s) then Counts l (i32 (ww s + 1)) c true
  else Counts l (ww s) c (inword s).

Fixpoint wc_loop (fuel : nat) (fd : Z) (s : counts) : prog counts :=
  match fuel with
  | O => OutOfFuel
  | S fuel =>
      r <-- sys (s_read fd 512) ;;;
      match r with
      | None => printf (line "wc: read error") [] ;;; exit 1
      | Some [] => Ret s
      | Some buf => wc_loop fuel fd (foldl wc_char s buf)
      end
  end.

Definition wc (fuel : nat) (fd : Z) (name : list Z) : prog () :=
  s <-- wc_loop fuel fd (Counts 0 0 0 false) ;;;
  printf (line "%d %d %d %s") [VNum (wl s); VNum (ww s); VNum (wch s); S_ name].

Fixpoint wc_files (fuel : nat) (args : list (list Z)) : prog Empty_set :=
  match args with
  | [] => exit 0
  | a :: args =>
      fd <-- sys (s_open a 0) ;;;
      if fd <? 0 then printf (line "wc: cannot open %s") [S_ a] ;;; exit 1
      else wc fuel fd a ;;; sys (s_close fd) ;;; wc_files fuel args
  end.

Definition wc_main (fuel : nat) (argv : list (list Z)) : prog Empty_set :=
  if (length argv <=? 1)%nat then wc fuel 0 [] ;;; exit 0
  else wc_files fuel (drop 1 argv).

(** ** ls.c *)

(** The characters after the last slash. *)
Fixpoint after_slash (path : list Z) : list Z :=
  match path with
  | [] => []
  | c :: rest => if bool_decide (SLASH ∈ path) then after_slash rest else path
  end.

(** The name, blank-padded unless it is long. *)
Definition fmtname (path : list Z) : list Z :=
  let p := after_slash path in
  let n := Z.of_nat (length p) in
  if DIRSIZ <=? n then p else p ++ replicate (Z.to_nat (DIRSIZ - n)) 32.

(** The characters of [de.name] up to a NUL. *)
Fixpoint de_name (l : list Z) : list Z :=
  match l with
  | [] => []
  | c :: l => if c =? 0 then [] else c :: de_name l
  end.

(** [while(read(fd, &de, sizeof(de)) == sizeof(de))]; [buf] is the path and the
    slash. *)
Fixpoint ls_entries (fuel : nat) (fd : Z) (buf : list Z) : prog () :=
  match fuel with
  | O => OutOfFuel
  | S fuel =>
      r <-- sys (s_read fd DIRENT) ;;;
      match r with
      | Some (b0 :: b1 :: name) =>
          if negb (Z.of_nat (length name) =? DIRSIZ) then Ret tt
          else if b0 + 256 * b1 =? 0 (* de.inum *) then ls_entries fuel fd buf
          else
            let path := buf ++ de_name name in
            st <-- stat path ;;;
            match st with
            | None => printf (line "ls: cannot stat %s") [S_ path]
            | Some st => printf (line "%s %d %d %d") [S_ (fmtname path); VNum (st_type st); VNum (st_ino st); VNum (st_size st)]
            end ;;;
            ls_entries fuel fd buf
      | _ => Ret tt
      end
  end.

Definition ls (fuel : nat) (path : list Z) : prog () :=
  fd <-- sys (s_open path 0) ;;;
  if fd <? 0 then fprintf 2 (line "ls: cannot open %s") [S_ path]
  else
    r <-- sys (s_fstat fd) ;;;
    match r with
    | None =>
        fprintf 2 (line "ls: cannot stat %s") [S_ path] ;;;
        sys (s_close fd) ;;; Ret tt
    | Some st =>
        (if st_type st =? T_FILE then
           printf (line "%s %d %d %l") [S_ (fmtname path); VNum (st_type st); VNum (st_ino st); VNum (st_size st)]
         else if st_type st =? T_DIR then
           if 512 <? Z.of_nat (length path) + 1 + DIRSIZ + 1 then printf (line "ls: path too long") []
           else ls_entries fuel fd (path ++ [SLASH])
         else Ret tt) ;;;
        sys (s_close fd) ;;; Ret tt
    end.

Fixpoint ls_args (fuel : nat) (args : list (list Z)) : prog Empty_set :=
  match args with
  | [] => exit 0
  | a :: args => ls fuel a ;;; ls_args fuel args
  end.

Definition ls_main (fuel : nat) (argv : list (list Z)) : prog Empty_set :=
  if (length argv <? 2)%nat then ls fuel (chars ".") ;;; exit 0
  else ls_args fuel (drop 1 argv).

(** ** init.c *)

(** The inner loop: until the shell [pid] exits. *)
Fixpoint init_wait (fuel : nat) (pid : Z) : prog () :=
  match fuel with
  | O => OutOfFuel
  | S fuel =>
      wpid <-- sys s_wait ;;;
      if wpid =? pid then Ret tt (* the shell exited; restart it. *)
      else if wpid <? 0 then printf (line "init: wait returned an error") [] ;;; exit 1
      else init_wait fuel pid
  end.

Fixpoint init_loop (fuel : nat) : prog Empty_set :=
  match fuel with
  | O => OutOfFuel
  | S fuel =>
      printf (line "init: starting sh") [] ;;;
      pid <-- sys s_fork ;;;
      if pid <? 0 then printf (line "init: fork failed") [] ;;; exit 1
      else if pid =? 0 then
        sys (s_exec (chars "sh") [chars "sh"]) ;;;
        printf (line "init: exec sh failed") [] ;;; exit 1
      else init_wait fuel pid ;;; init_loop fuel
  end.

Definition init_main (fuel : nat) : prog Empty_set :=
  fd <-- sys (s_open (chars "console") O_RDWR) ;;;
  (if fd <? 0 then
     sys (s_mknod (chars "console") CONSOLE 0) ;;;
     sys (s_open (chars "console") O_RDWR) ;;; Ret tt
   else Ret tt) ;;;
  sys (s_dup 0) ;;; (* stdout *)
  sys (s_dup 0) ;;; (* stderr *)
  init_loop fuel.

(** ** rm.c, mkdir.c *)

Fixpoint rm_loop (args : list (list Z)) : prog Empty_set :=
  match args with
  | [] => exit 0
  | a :: args =>
      r <-- sys (s_unlink a) ;;;
      if r <? 0 then fprintf 2 (line "rm: %s failed to delete") [S_ a] ;;; exit 0
      else rm_loop args
  end.

Definition rm_main (argv : list (list Z)) : prog Empty_set :=
  if (length argv <? 2)%nat then fprintf 2 (line "Usage: rm files...") [] ;;; exit 1
  else rm_loop (drop 1 argv).

Fixpoint mkdir_loop (args : list (list Z)) : prog Empty_set :=
  match args with
  | [] => exit 0
  | a :: args =>
      r <-- sys (s_mkdir a) ;;;
      if r <? 0 then fprintf 2 (line "mkdir: %s failed to create") [S_ a] ;;; exit 0
      else mkdir_loop args
  end.

Definition mkdir_main (argv : list (list Z)) : prog Empty_set :=
  if (length argv <? 2)%nat then fprintf 2 (line "Usage: mkdir files...") [] ;;; exit 1
  else mkdir_loop (drop 1 argv).

(** ** ln.c *)

Definition ln_main (argv : list (list Z)) : prog Empty_set :=
  match argv with
  | [_; old; new] =>
      r <-- sys (s_link old new) ;;;
      (if r <? 0 then fprintf 2 (line "link %s %s: failed") [S_ old; S_ new] else Ret tt) ;;;
      exit 0
  | _ => fprintf 2 (line "Usage: ln old new") [] ;;; exit 1
  end.

(** ** kill.c *)

(** [atoi] of an argument in memory *)
Definition atoi_arg (s : list Z) : Z :=
  default 0 (atoi (S (length s)) (write_bytes ∅ 0 (s ++ [0])) 0).

Fixpoint kill_loop (args : list (list Z)) : prog Empty_set :=
  match args with
  | [] => exit 0
  | a :: args => sys (s_kill (atoi_arg a)) ;;; kill_loop args
  end.

Definition kill_main (argv : list (list Z)) : prog Empty_set :=
  if (length argv <? 2)%nat then fprintf 2 (line "usage: kill pid...") [] ;;; exit 1
  else kill_loop (drop 1 argv).

(** ** zombie.c, uptime.c *)

Definition zombie_main : prog Empty_set :=
  pid <-- sys s_fork ;;;
  (if 0 <? pid then sys (s_sleep 5) ;;; Ret tt else Ret tt) ;;;
  exit 0.

Definition uptime_main : prog Empty_set :=
  ticks <-- sys s_uptime ;;;
  printf (line "up %d clock ticks") [VNum ticks] ;;;
  exit 0.

(** ** What they write *)

(** [cat] has written to its output what it has read. *)
Lemma cat_copies fuel fd t : runs (cat fuel fd) t tt → bytes_written 1 t = bytes_read fd t.
Proof.
  revert t. induction fuel as [| fuel IH]; intros t; cbn [cat]; [done |]. rewrite uruns_sys. intros ([[| b buf] |] & t' & -> & H).
  - destruct H as [-> _]. cbn. by rewrite Z.eqb_refl.
  - rewrite uruns_sys in H. destruct H as (n & t2 & -> & H). revert H. destruct (Z.eqb_spec n (Z.of_nat (length (b :: buf)))) as [-> |]; cbn [negb]; intros H.
    + apply IH in H. cbn [bytes_read bytes_written]. rewrite !Z.eqb_refl. cbn [andb default app]. by rewrite H.
    + by apply uruns_fail in H.
  - by apply uruns_fail in H.
Qed.

Section serve.
Context (read : list Z → nat → list Z) `{!Reader read} (fd : Z).

(** [cat] writes its whole input, and returns. *)
Lemma cat_all fuel input : (length input < fuel)%nat → serve read fd (cat fuel fd) input = (input, Some tt).
Proof.
  revert input. induction fuel as [| fuel IH]; intros input Hf; [lia |]. cbn [cat]. rewrite serve_read.
  change (Z.to_nat 512) with 512%nat. pose proof (read_split read input 512) as Ei. pose proof (read_some input 512) as Hs.
  destruct (read input 512) as [| b buf].
  - destruct input; [done |]. exfalso. apply Hs; [done | lia | done].
  - rewrite serve_write, Z.eqb_refl. cbn [negb]. rewrite IH; [cbn [fst snd]; by rewrite <- Ei |].
    apply (f_equal length) in Ei. rewrite length_app in Ei. cbn [length] in *. lia.
Qed.

Lemma wc_loop_all {A} fuel s input (k : counts → prog A) :
  (length input < fuel)%nat → serve read fd (ubind (wc_loop fuel fd s) k) input = serve read fd (k (foldl wc_char s input)) [].
Proof.
  revert s input. induction fuel as [| fuel IH]; intros s input Hf; [lia |]. cbn [wc_loop].
  change (ubind (ubind (sys (s_read fd 512)) ?f) k) with (ubind (sys (s_read fd 512)) (λ r, ubind (f r) k)). rewrite serve_read.
  change (Z.to_nat 512) with 512%nat. pose proof (read_split read input 512) as Ei. pose proof (read_some input 512) as Hs.
  destruct (read input 512) as [| b buf].
  - destruct input; [done |]. exfalso. apply Hs; [done | lia | done].
  - rewrite IH; [rewrite <- foldl_app; by rewrite <- Ei |].
    apply (f_equal length) in Ei. rewrite length_app in Ei. cbn [length] in *. lia.
Qed.

Lemma serve_putcs l input : serve read fd (putcs 1 l) input = (l, Some tt).
Proof. induction l as [| c l IH]; [done |]. cbn [putcs]. by rewrite serve_write, IH. Qed.
End serve.

(** The words of a text, by the places where they begin: a character that is no
    space, first or after a space. *)
Definition space_at (l : list Z) (i : nat) : bool :=
  match l !! i with Some b => bool_decide (b ∈ wc_space) | None => true end.

Definition begins (l : list Z) (i : nat) : bool :=
  negb (space_at l i) && match i with O => true | S j => space_at l j end.

Definition word_starts (l : list Z) : list nat := filter (λ i, begins l i = true) (seq 0 (length l)).

Lemma filter_same {A} (P Q : A → Prop) `{!∀ x, Decision (P x), !∀ x, Decision (Q x)} (l : list A) :
  (∀ x, x ∈ l → P x ↔ Q x) → filter P l = filter Q l.
Proof.
  induction l as [| a l IH]; intros Hpq; [done |]. rewrite !filter_cons, IH by (intros x Hx; apply Hpq; by right).
  destruct (decide (P a)) as [Hp | Hp], (decide (Q a)) as [Hq | Hq]; try done; exfalso; pose proof (Hpq a ltac:(left)); tauto.
Qed.

Lemma word_starts_snoc l b :
  word_starts (l ++ [b]) = word_starts l ++ if begins (l ++ [b]) (length l) then [length l] else [].
Proof.
  unfold word_starts. rewrite length_app, Nat.add_1_r, seq_S, filter_app, Nat.add_0_l. f_equal.
  - apply filter_same. intros i Hi%elem_of_seq. unfold begins, space_at. rewrite lookup_app_l by lia. destruct i as [| i]; [done |].
    by rewrite lookup_app_l by lia.
  - rewrite filter_cons. by destruct (begins _ _).
Qed.

Lemma begins_snoc l b :
  begins (l ++ [b]) (length l) = negb (bool_decide (b ∈ wc_space)) && match last l with Some a => bool_decide (a ∈ wc_space) | None => true end.
Proof.
  unfold begins, space_at. rewrite list_lookup_middle by done. f_equal. destruct (length l) as [| n] eqn:E.
  - by apply nil_length_inv in E as ->.
  - rewrite lookup_app_l, last_lookup, E by lia. done.
Qed.

Lemma wc_fold l :
  Z.of_nat (length l) < 2 ^ 31 →
  foldl wc_char (Counts 0 0 0 false) l =
    Counts (Z.of_nat (length (filter (λ b, b = NL) l))) (Z.of_nat (length (word_starts l))) (Z.of_nat (length l))
           (match last l with Some b => negb (bool_decide (b ∈ wc_space)) | None => false end).
Proof.
  induction l as [| b l IH] using rev_ind; intros Hl; [done |]. rewrite length_app in Hl. cbn [length] in Hl.
  assert (∀ z, 0 <= z < 2 ^ 31 → i32 z = z) as Hi by (intros z Hz; unfold i32; apply signed_small; lia).
  rewrite foldl_app, IH by lia. cbn [foldl]. rewrite last_snoc, word_starts_snoc, begins_snoc, filter_app, !length_app, filter_cons, filter_nil.
  pose proof (length_filter (λ b, b = NL) l) as H1. pose proof (length_filter (λ i, begins l i = true) (seq 0 (length l))) as H2. rewrite length_seq in H2.
  fold (word_starts l) in H2. unfold wc_char. cbn [wl ww wch inword length].
  rewrite (Hi (Z.of_nat (length l) + 1)) by lia. rewrite (Hi (Z.of_nat (length (filter _ l)) + 1)) by lia. rewrite (Hi (Z.of_nat (length (word_starts l)) + 1)) by lia.
  replace (if b =? NL then Z.of_nat (length (filter (λ b, b = NL) l)) + 1 else Z.of_nat (length (filter (λ b, b = NL) l)))
    with (Z.of_nat (length (filter (λ b, b = NL) l) + length (if decide (b = NL) then [b] else []))) by (destruct (Z.eqb_spec b NL), (decide (b = NL)); cbn; lia || done).
  destruct (bool_decide (b ∈ wc_space)); cbn [negb andb length]; [f_equal; lia |].
  destruct (last l) as [a |]; [destruct (bool_decide (a ∈ wc_space)) |]; cbn [negb length]; f_equal; lia.
Qed.

(** Wc prints the numbers of newlines, of words (characters that are not
    spaces, first or after a space) and of characters of its input, however the
    reads cut it into pieces; provided that they fit an int. *)
Theorem wc_prints read fd input name :
  Reader read → Z.of_nat (length input) < 2 ^ 31 →
  serve read fd (wc (S (length input)) fd name) input =
    (uprintf (line "%d %d %d %s")
       [VNum (Z.of_nat (length (filter (λ b, b = NL) input))); VNum (Z.of_nat (length (word_starts input)));
        VNum (Z.of_nat (length input)); S_ name], Some tt).
Proof.
  intros Hr Hl. unfold wc. rewrite wc_loop_all, wc_fold by (done || lia). cbn [wl ww wch].
  apply serve_putcs.
Qed.

Lemma wc_prints_witness :
  serve (λ i n, take (Nat.min n 3) i) 0 (wc 16 0 (chars "f")) (chars "two words" ++ [NL] ++ chars " more") =
    (chars "1 3 15 f" ++ [NL], Some tt).
Proof.
  change 16%nat with (S (length (chars "two words" ++ [NL] ++ chars " more"))).
  rewrite (wc_prints _ 0 _ (chars "f") (reader_chunks 3 ltac:(lia))) by (vm_compute; reflexivity). vm_compute. reflexivity.
Defined.
