(* ===== verification/Tests.v ===== *)
(** * The test programs (user/forktest.c, user/stressfs.c, user/grind.c)

    As the system calls they make.  [grind] is driven by a pseudo-random
    generator, which is modelled with its arithmetic. *)

From S2P Require Import Prelude Abi Printf User.

(** ** forktest.c *)

Definition FORKS : Z := 1000. (* N *)

(** [for(n=0; n<N; n++)]: the number of children; [k] turns are left. *)
Fixpoint fork_loop (k : nat) (n : Z) : prog Z :=
  match k with
  | O => Ret n
  | S k =>
      pid <-- sys s_fork ;;;
      if pid <? 0 then Ret n
      else if pid =? 0 then exit 0
      else fork_loop k (n + 1)
  end.

(** [for(; n > 0; n--)] *)
Fixpoint reap_loop (n : nat) : prog () :=
  match n with
  | O => Ret tt
  | S n =>
      r <-- sys s_wait ;;;
      if r <? 0 then sys (s_write 1 (line "wait stopped early")) ;;; exit 1
      else reap_loop n
  end.

Definition forktest : prog () :=
  sys (s_write 1 (line "fork test")) ;;;
  n <-- fork_loop (Z.to_nat FORKS) 0 ;;;
  if n =? FORKS then sys (s_write 1 (line "fork claimed to work N times!")) ;;; exit 1
  else
    reap_loop (Z.to_nat n) ;;;
    r <-- sys s_wait ;;;
    if negb (r =? -1) then sys (s_write 1 (line "wait got too many")) ;;; exit 1
    else sys (s_write 1 (line "fork test OK")) ;;; Ret tt.

Definition forktest_main : prog Empty_set := forktest ;;; exit 0.

(** ** stressfs.c *)

(** [for(i = 0; i < 4; i++) if(fork() > 0) break] *)
Fixpoint stress_fork (k : nat) (i : Z) : prog Z :=
  match k with
  | O => Ret i
  | S k =>
      pid <-- sys s_fork ;;;
      if 0 <? pid then Ret i else stress_fork k (i + 1)
  end.

Fixpoint repeat_sys {X} (k : nat) (e : sysE X) : prog () :=
  match k with
  | O => Ret tt
  | S k => sys e ;;; repeat_sys k e
  end.

(** [path] after [path[8] += i] *)
Definition stress_path (i : Z) : list Z := chars "stressfs" ++ [48 + i].

Definition stressfs : prog () :=
  printf (line "stressfs starting") [] ;;;
  i <-- stress_fork 4 0 ;;;
  printf (line "write %d") [VNum i] ;;;
  let path := stress_path i in
  fd <-- sys (s_open path (Z.lor O_CREATE O_RDWR)) ;;;
  repeat_sys 20 (s_write fd (replicate 512 97)) ;;;
  sys (s_close fd) ;;;
  printf (line "read") [] ;;;
  fd <-- sys (s_open path O_RDONLY) ;;;
  repeat_sys 20 (s_read fd 512) ;;;
  sys (s_close fd) ;;;
  sys s_wait ;;;
  Ret tt.

Definition stressfs_main : prog Empty_set := stressfs ;;; exit 0.

(** ** grind.c *)

(** [do_rand]: what it stores and returns.  [long] is 64 bits wide, and nothing
    here overflows it. *)
Definition do_rand (ctx : Z) : Z :=
  (* Transform to [1, 0x7ffffffe] range. *)
  let x := ctx mod 0x7ffffffe + 1 in
  let hi := Z.quot x 127773 in
  let lo := Z.rem x 127773 in
  let x := 16807 * lo - 2836 * hi in
  let x := if x <? 0 then x + 0x7fffffff else x in
  (* Transform to [0, 0x7ffffffd] range. *)
  x - 1.

(** The variables of [go], and [rand_next] *)
Record gvars := GVars { g_fd : Z; g_rand : Z; g_iters : Z; g_buf : list Z }.

Definition set_gfd (fd : Z) (g : gvars) : gvars := GVars fd (g_rand g) (g_iters g) (g_buf g).

Definition CREATE_RDWR : Z := Z.lor O_CREATE O_RDWR.

Definition close_open (path : string) : prog () :=
  fd <-- sys (s_open (chars path) CREATE_RDWR) ;;; sys (s_close fd) ;;; Ret tt.

Definition unlink_ (path : string) : prog () := sys (s_unlink (chars path)) ;;; Ret tt.

Definition fail {A} (msg : string) : prog A := printf (line msg) [] ;;; exit 1.
Definition fail2 {A} (msg : string) (status : Z) : prog A := fprintf 2 (line msg) [] ;;; exit status.

(** [pid = fork(); if(pid == 0){ child } else if(pid < 0){ failed }] *)
Definition fork_child (child : prog Empty_set) (failed : prog Z) : prog Z :=
  pid <-- sys s_fork ;;;
  if pid =? 0 then x <-- child ;;; match x with end
  else if pid <? 0 then failed
  else Ret pid.

Definition fork_failed : prog Z := fail "grind: fork failed".

(** what == 19, in the child *)
Definition pipe_child (fds : Z * Z) : prog Empty_set :=
  sys s_fork ;;;
  sys s_fork ;;;
  w <-- sys (s_write fds.2 (chars "x")) ;;;
  (if negb (w =? 1) then printf (line "grind: pipe write failed") [] else Ret tt) ;;;
  r <-- sys (s_read fds.1 1) ;;;
  (match r with Some [_] => Ret tt | _ => printf (line "grind: pipe read failed") [] end) ;;;
  exit 0.

(** what == 21 *)
Definition create_c : prog () :=
  unlink_ "c" ;;;
  fd1 <-- sys (s_open (chars "c") CREATE_RDWR) ;;;
  if fd1 <? 0 then fail "grind: create c failed"
  else
    w <-- sys (s_write fd1 (chars "x")) ;;;
    if negb (w =? 1) then fail "grind: write c failed"
    else
      st <-- sys (s_fstat fd1) ;;;
      match st with
      | None => fail "grind: fstat failed"
      | Some st =>
          if negb (st_size st =? 1) then printf (line "grind: fstat reports wrong size %d") [VNum (st_size st)] ;;; exit 1
          else if 200 <? st_ino st then printf (line "grind: fstat reports crazy i-number %d") [VNum (st_ino st)] ;;; exit 1
          else sys (s_close fd1) ;;; unlink_ "c"
      end.

(** what == 22: echo hi | cat *)
Definition echo_child (aa bb : Z * Z) : prog Empty_set :=
  sys (s_close bb.1) ;;;
  sys (s_close bb.2) ;;;
  sys (s_close aa.1) ;;;
  sys (s_close 1) ;;;
  d <-- sys (s_dup aa.2) ;;;
  if negb (d =? 1) then fail2 "grind: dup failed" 1
  else
    sys (s_close aa.2) ;;;
    sys (s_exec (chars "grindir/../echo") [chars "echo"; chars "hi"]) ;;;
    fail2 "grind: echo: not found" 2.

Definition cat_child (aa bb : Z * Z) : prog Empty_set :=
  sys (s_close aa.2) ;;;
  sys (s_close bb.1) ;;;
  sys (s_close 0) ;;;
  d <-- sys (s_dup aa.1) ;;;
  if negb (d =? 0) then fail2 "grind: dup failed" 4
  else
    sys (s_close aa.1) ;;;
    sys (s_close 1) ;;;
    d <-- sys (s_dup bb.2) ;;;
    if negb (d =? 1) then fail2 "grind: dup failed" 5
    else
      sys (s_close bb.2) ;;;
      sys (s_exec (chars "/cat") [chars "cat"]) ;;;
      fail2 "grind: cat: not found" 6.

(** [read(bb[0], buf+k, 1)] of a zeroed buffer *)
Definition read_char (fd : Z) : prog Z :=
  r <-- sys (s_read fd 1) ;;;
  Ret (match r with Some [c] => c | _ => 0 end).

(** The characters before the NUL *)
Fixpoint before_nul (l : list Z) : list Z :=
  match l with c :: l => if c =? 0 then [] else c :: before_nul l | [] => [] end.

Section grind.
(** What the uninitialised [st1] and [st2] hold if [wait] fails. *)
Context (junk1 junk2 : Z).

Definition pipeline : prog () :=
  aa <-- sys s_pipe ;;;
  match aa with
  | None => fail2 "grind: pipe failed" 1
  | Some aa =>
      bb <-- sys s_pipe ;;;
      match bb with
      | None => fail2 "grind: pipe failed" 1
      | Some bb =>
          fork_child (echo_child aa bb) (fail2 "grind: fork failed" 3) ;;;
          fork_child (cat_child aa bb) (fail2 "grind: fork failed" 7) ;;;
          sys (s_close aa.1) ;;;
          sys (s_close aa.2) ;;;
          sys (s_close bb.2) ;;;
          c0 <-- read_char bb.1 ;;;
          c1 <-- read_char bb.1 ;;;
          c2 <-- read_char bb.1 ;;;
          sys (s_close bb.1) ;;;
          w1 <-- sys s_wait_status ;;;
          w2 <-- sys s_wait_status ;;;
          let st1 := default junk1 w1.2 in
          let st2 := default junk2 w2.2 in
          let buf := before_nul [c0; c1; c2] in
          if negb (st1 =? 0) || negb (st2 =? 0) || negb (bool_decide (buf = line "hi")) then
            printf (chars "grind: exec pipeline failed %d %d " ++ [34] ++ chars "%s" ++ [34; NL]) [VNum st1; VNum st2; S_ buf] ;;;
            exit 1
          else Ret tt
      end
  end.

(** A turn of the loop: the case [what] *)
Definition go_what (break0 what : Z) (g : gvars) : prog gvars :=
  if what =? 1 then close_open "grindir/../a" ;;; Ret g
  else if what =? 2 then close_open "grindir/../grindir/../b" ;;; Ret g
  else if what =? 3 then unlink_ "grindir/../a" ;;; Ret g
  else if what =? 4 then
    r <-- sys (s_chdir (chars "grindir")) ;;;
    if negb (r =? 0) then fail "grind: chdir grindir failed"
    else unlink_ "../b" ;;; sys (s_chdir (chars "/")) ;;; Ret g
  else if what =? 5 then
    sys (s_close (g_fd g)) ;;;
    fd <-- sys (s_open (chars "/grindir/../a") CREATE_RDWR) ;;;
    Ret (set_gfd fd g)
  else if what =? 6 then
    sys (s_close (g_fd g)) ;;;
    fd <-- sys (s_open (chars "/./grindir/./../b") CREATE_RDWR) ;;;
    Ret (set_gfd fd g)
  else if what =? 7 then sys (s_write (g_fd g) (g_buf g)) ;;; Ret g
  else if what =? 8 then
    r <-- sys (s_read (g_fd g) 999) ;;;
    let got := default [] r in
    Ret (GVars (g_fd g) (g_rand g) (g_iters g) (got ++ drop (length got) (g_buf g)))
  else if what =? 9 then
    sys (s_mkdir (chars "grindir/../a")) ;;; close_open "a/../a/./a" ;;; unlink_ "a/a" ;;; Ret g
  else if what =? 10 then
    sys (s_mkdir (chars "/../b")) ;;; close_open "grindir/../b/b" ;;; unlink_ "b/b" ;;; Ret g
  else if what =? 11 then
    unlink_ "b" ;;; sys (s_link (chars "../grindir/./../a") (chars "../b")) ;;; Ret g
  else if what =? 12 then
    unlink_ "../grindir/../a" ;;; sys (s_link (chars ".././b") (chars "/grindir/../a")) ;;; Ret g
  else if what =? 13 then
    fork_child (exit 0) fork_failed ;;; sys s_wait ;;; Ret g
  else if what =? 14 then
    fork_child (sys s_fork ;;; sys s_fork ;;; exit 0) fork_failed ;;; sys s_wait ;;; Ret g
  else if what =? 15 then sys (s_sbrk 6011) ;;; Ret g
  else if what =? 16 then
    b <-- sys (s_sbrk 0) ;;;
    if break0 <? b then b <-- sys (s_sbrk 0) ;;; sys (s_sbrk (i32 (- (b - break0)))) ;;; Ret g
    else Ret g
  else if what =? 17 then
    pid <-- fork_child (close_open "a" ;;; exit 0) fork_failed ;;;
    r <-- sys (s_chdir (chars "../grindir/..")) ;;;
    if negb (r =? 0) then fail "grind: chdir failed"
    else sys (s_kill pid) ;;; sys s_wait ;;; Ret g
  else if what =? 18 then
    fork_child (pid <-- sys s_getpid ;;; sys (s_kill pid) ;;; exit 0) fork_failed ;;; sys s_wait ;;; Ret g
  else if what =? 19 then
    fds <-- sys s_pipe ;;;
    match fds with
    | None => fail "grind: pipe failed"
    | Some fds =>
        fork_child (pipe_child fds) fork_failed ;;;
        sys (s_close fds.1) ;;; sys (s_close fds.2) ;;; sys s_wait ;;; Ret g
    end
  else if what =? 20 then
    fork_child (unlink_ "a" ;;; sys (s_mkdir (chars "a")) ;;; sys (s_chdir (chars "a")) ;;; unlink_ "../a" ;;;
                sys (s_open (chars "x") CREATE_RDWR) ;;; unlink_ "x" ;;; exit 0) fork_failed ;;;
    sys s_wait ;;; Ret g
  else if what =? 21 then create_c ;;; Ret g
  else if what =? 22 then pipeline ;;; Ret g
  else Ret g.

(** [while(1)]: [fuel] turns *)
Fixpoint go_loop (fuel : nat) (which_child break0 : Z) (g : gvars) : prog Empty_set :=
  match fuel with
  | O => OutOfFuel
  | S fuel =>
      let iters := u64 (g_iters g + 1) in
      (if iters mod 500 =? 0 then sys (s_write 1 (chars (if which_child =? 0 then "A" else "B"))) ;;; Ret tt else Ret tt) ;;;
      let r := do_rand (g_rand g) in
      g <-- go_what break0 (Z.rem r 23) (GVars (g_fd g) r iters (g_buf g)) ;;;
      go_loop fuel which_child break0 g
  end.

(** [go] with [rand_next] *)
Definition go (fuel : nat) (which_child rand_next : Z) : prog Empty_set :=
  break0 <-- sys (s_sbrk 0) ;;;
  sys (s_mkdir (chars "grindir")) ;;;
  r <-- sys (s_chdir (chars "grindir")) ;;;
  if negb (r =? 0) then fail "grind: chdir grindir failed"
  else
    sys (s_chdir (chars "/")) ;;;
    go_loop fuel which_child break0 (GVars (-1) rand_next 0 (replicate 999 0)).

Definition iter (fuel : nat) : prog Empty_set :=
  unlink_ "a" ;;;
  unlink_ "b" ;;;
  pid1 <-- sys s_fork ;;;
  if pid1 <? 0 then fail "grind: fork failed"
  else if pid1 =? 0 then go fuel 0 31
  else
    pid2 <-- sys s_fork ;;;
    if pid2 <? 0 then fail "grind: fork failed"
    else if pid2 =? 0 then go fuel 1 7177
    else
      w1 <-- sys s_wait_status ;;;
      (if negb (default (-1) w1.2 =? 0) then sys (s_kill pid1) ;;; sys (s_kill pid2) ;;; Ret tt else Ret tt) ;;;
      sys s_wait_status ;;;
      exit 0.

Fixpoint grind_main (fuel : nat) : prog Empty_set :=
  match fuel with
  | O => OutOfFuel
  | S fuel' =>
      pid <-- sys s_fork ;;;
      if pid =? 0 then iter fuel
      else
        (if 0 <? pid then sys s_wait ;;; Ret tt else Ret tt) ;;;
        sys (s_sleep 20) ;;;
        grind_main fuel'
  end.
End grind.

(** ** The generator

    Schrage's method computes [7^5 * x mod (2^31 - 1)] without leaving 32 bits. *)

Lemma lehmer_nonzero x : 0 < x < 0x7fffffff → (16807 * x) mod 0x7fffffff ≠ 0.
Proof.
  intros Hx H. assert (0x7fffffff | 16807 * x) as Hd by (apply Z.mod_divide; [done | exact H]).
  apply Z.gauss in Hd; [| reflexivity]. destruct Hd as [q Hq]. nia.
Qed.

Theorem do_rand_lehmer ctx :
  0 <= ctx → let x := ctx mod 0x7ffffffe + 1 in
  do_rand ctx + 1 = (16807 * x) mod 0x7fffffff ∧ 0 <= do_rand ctx <= 0x7ffffffd ∧
  - 2 ^ 31 <= 16807 * Z.rem x 127773 - 2836 * Z.quot x 127773 < 2 ^ 31.
Proof.
  intros Hc x. assert (1 <= x <= 0x7ffffffe) as Hx by (unfold x; pose proof (Z.mod_pos_bound ctx 0x7ffffffe); lia).
  pose proof (lehmer_nonzero x ltac:(lia)) as Hnz. pose proof (Z.mod_pos_bound (16807 * x) 0x7fffffff ltac:(lia)) as Hmb.
  unfold do_rand. fold x. rewrite Z.rem_mod_nonneg, Z.quot_div_nonneg by lia.
  set (q := x / 127773) in *. set (r := x mod 127773) in *.
  assert (x = 127773 * q + r ∧ 0 <= r < 127773) as [Ex Hr] by (unfold q, r; split; [apply Z.div_mod; lia | apply Z.mod_pos_bound; lia]).
  assert (0 <= q < 16808) as Hq by (split; [apply Z.div_pos; lia | apply Z.div_lt_upper_bound; lia]).
  assert ((16807 * x) mod 0x7fffffff = (16807 * r - 2836 * q) mod 0x7fffffff) as Em.
  { replace (16807 * x) with (16807 * r - 2836 * q + q * 0x7fffffff) by lia. by apply Z.mod_add. }
  rewrite Em in *. set (y := 16807 * r - 2836 * q) in *.
  assert (- 2 ^ 31 < y < 2 ^ 31 - 1) as Hy by (unfold y; lia).
  destruct (Z.ltb_spec y 0).
  - assert (y mod 0x7fffffff = y + 0x7fffffff) as E by (symmetry; apply Z.mod_unique with (-1); lia). rewrite E in *. lia.
  - rewrite Z.mod_small in * by lia. lia.
Qed.

(** ** What forktest checks *)

(** The children made and the children waited for *)
Fixpoint forked (t : list event) : Z :=
  match t with
  | [] => 0
  | Ev e x :: t => match e in sysE X return X → Z with s_fork => λ pid, b2z (0 <? pid) | _ => λ _, 0 end x + forked t
  end.

Fixpoint reaped (t : list event) : Z :=
  match t with
  | [] => 0
  | Ev e x :: t => match e in sysE X return X → Z with s_wait => λ pid, b2z (0 <=? pid) | _ => λ _, 0 end x + reaped t
  end.

Lemma forked_app t1 t2 : forked (t1 ++ t2) = forked t1 + forked t2.
Proof. induction t1 as [| [X e x] t1 IH]; cbn; [done |]. lia. Qed.

Lemma reaped_app t1 t2 : reaped (t1 ++ t2) = reaped t1 + reaped t2.
Proof. induction t1 as [| [X e x] t1 IH]; cbn; [done |]. lia. Qed.

Lemma fork_loop_counts k n t m : runs (fork_loop k n) t m → m = n + forked t ∧ reaped t = 0 ∧ n <= m <= n + Z.of_nat k.
Proof.
  revert n t. induction k as [| k IH]; intros n t; cbn [fork_loop].
  - intros [-> ->]. cbn. lia.
  - rewrite uruns_sys. intros (pid & t' & -> & H). cbn [forked reaped]. destruct (Z.ltb_spec pid 0); [destruct H as [-> ->]; cbn; destruct (Z.ltb_spec 0 pid); cbn; lia |].
    destruct (Z.eqb_spec pid 0); [by apply uruns_exit in H |]. apply IH in H as (-> & -> & Hr). destruct (Z.ltb_spec 0 pid); cbn; lia.
Qed.

Lemma reap_loop_counts n t : runs (reap_loop n) t tt → reaped t = Z.of_nat n ∧ forked t = 0.
Proof.
  revert t. induction n as [| n IH]; intros t; cbn [reap_loop].
  - by intros [-> _].
  - rewrite uruns_sys. intros (r & t' & -> & H). cbn [forked reaped]. destruct (Z.ltb_spec r 0); [by apply uruns_fail in H |].
    apply IH in H as [-> ->]. destruct (Z.leb_spec 0 r); cbn; lia.
Qed.

(** When the test passes, fork has failed in the end, every child was waited for,
    and then there were none. *)
Theorem forktest_reaps t : runs forktest t tt → forked t < FORKS ∧ reaped t = forked t ∧ Ev s_wait (-1) ∈ t.
Proof.
  unfold forktest. rewrite uruns_sys. intros (w & t1 & -> & H). apply uruns_bind in H as (t2 & t3 & n & -> & H2 & H3).
  apply fork_loop_counts in H2 as (En & Er & Hn). rewrite Z2Nat.id in Hn by done.
  destruct (Z.eqb_spec n FORKS); [by apply uruns_fail in H3 |]. apply uruns_bind in H3 as (t4 & t5 & [] & -> & H4 & H5).
  apply reap_loop_counts in H4 as [E4 F4]. rewrite Z2Nat.id in E4 by lia. rewrite uruns_sys in H5. destruct H5 as (r & t6 & -> & H6).
  destruct (Z.eqb_spec r (-1)) as [-> |]; cbn [negb] in H6; [| by apply uruns_fail in H6].
  rewrite uruns_sys in H6. destruct H6 as (w' & t7 & -> & [-> _]). cbn [forked reaped app]. rewrite !forked_app, !reaped_app. cbn [forked reaped].
  change (b2z (0 <=? -1)) with 0. split; [lia |]. split; [lia |]. right. apply elem_of_app. right. apply elem_of_app. right. left.
Qed.
