(* ===== verification/Umalloc.v ===== *)
(** * The user-level memory allocator (user/umalloc.c)

    A circular list of free blocks, ordered by address, of which each begins with
    a header; block sizes are in units of headers. *)

From S2P Require Import Prelude.

Definition HDR : Z := 16. (* sizeof(Header) *)

Record header := Hdr {
  h_ptr : Z;
  h_size : Z }.

(** The headers in memory, by address; [freep]; and the end of the memory of the
    process. *)
Record ustate := UState {
  hdrs : gmap Z header;
  freep : Z;
  ubrk : Z }.

Definition geth (st : ustate) (a : Z) : header := default (Hdr 0 0) (hdrs st !! a).

Definition seth (a : Z) (h : header) (st : ustate) : ustate := UState (<[a := h]> (hdrs st)) (freep st) (ubrk st).

Definition ptr (st : ustate) (a : Z) : Z := h_ptr (geth st a).
Definition size (st : ustate) (a : Z) : Z := h_size (geth st a).
Definition set_ptr (a v : Z) (st : ustate) : ustate := seth a (Hdr v (size st a)) st.
Definition set_size (a v : Z) (st : ustate) : ustate := seth a (Hdr (ptr st a) v) st.
Definition set_freep (v : Z) (st : ustate) : ustate := UState (hdrs st) v (ubrk st).

(** The [for] loop of [free]: the block after which [bp] belongs.  It goes round
    the list at most once; there are no more blocks than headers. *)
Fixpoint free_loop (fuel : nat) (st : ustate) (bp p : Z) : option Z :=
  match fuel with
  | O => None
  | S fuel =>
      if (p <? bp) && (bp <? ptr st p) then Some p
      else if (ptr st p <=? p) && ((p <? bp) || (bp <? ptr st p)) then Some p
      else free_loop fuel st bp (ptr st p)
  end.

Definition rounds (st : ustate) : nat := S (base.size (hdrs st)).

(** Linking [bp] in after [p]. *)
Definition free_link (bp p : Z) (st : ustate) : ustate :=
  let st :=
    if bp + HDR * size st bp =? ptr st p then
      let next := ptr st p in
      let st := set_size bp (u32 (size st bp + size st next)) st in
      set_ptr bp (ptr st next) st
    else set_ptr bp (ptr st p) st in
  let st :=
    if p + HDR * size st p =? bp then
      let st := set_size p (u32 (size st p + size st bp)) st in
      set_ptr p (ptr st bp) st
    else set_ptr p bp st in
  set_freep p st.

Definition free (ap : Z) (st : ustate) : option ustate :=
  let bp := ap - HDR in
  p ← free_loop (rounds st) st bp (freep st);
  Some (free_link bp p st).

Section umalloc.
(** The address of the static [base], and whether the kernel lets memory that
    ends at [brk] grow by [n] bytes. *)
Context (base_at : Z) (grows : Z → Z → bool).

(** [sbrk(n)], whose argument is an [int]: -1, or the old end of memory. *)
Definition sbrk (n : Z) (st : ustate) : Z * ustate :=
  let n := i32 n in
  if grows (ubrk st) n then (ubrk st, UState (hdrs st) (freep st) (ubrk st + n)) else (-1, st).

(** 0 when there is no memory. *)
Definition morecore (nu : Z) (st : ustate) : option (Z * ustate) :=
  let nu := if nu <? 4096 then 4096 else nu in
  let '(p, st) := sbrk (nu * HDR) st in
  if p =? -1 then Some (0, st)
  else
    let st := set_size p nu st in
    st ← free (p + HDR) st;
    Some (freep st, st).

(** Taking [nunits] of block [p], whose predecessor is [prevp]. *)
Definition take_block (nunits prevp p : Z) (st : ustate) : Z * ustate :=
  if size st p =? nunits then
    let st := set_ptr prevp (ptr st p) st in
    (p + HDR, set_freep prevp st)
  else
    let st := set_size p (u32 (size st p - nunits)) st in
    let p := p + HDR * size st p in
    let st := set_size p nunits st in
    (p + HDR, set_freep prevp st).

(** The [for] loop of [malloc]. *)
Fixpoint malloc_loop (fuel : nat) (nunits prevp p : Z) (st : ustate) : option (Z * ustate) :=
  match fuel with
  | O => None
  | S fuel =>
      if nunits <=? size st p then Some (take_block nunits prevp p st)
      else if p =? freep st then
        r ← morecore nunits st;
        if r.1 =? 0 then Some (0, r.2)
        else malloc_loop fuel nunits r.1 (ptr r.2 r.1) r.2
      else malloc_loop fuel nunits p (ptr st p) st
  end.

Definition units (nbytes : Z) : Z := u32 ((nbytes + HDR - 1) / HDR + 1).

(** Once round the list, more memory, and once more round the longer list. *)
Definition malloc (nbytes : Z) (st : ustate) : option (Z * ustate) :=
  let nunits := units nbytes in
  let st := if freep st =? 0 then set_freep base_at (seth base_at (Hdr base_at 0) st) else st in
  malloc_loop (2 * rounds st + 2) nunits (freep st) (ptr st (freep st)) st.
End umalloc.

(** ** A request that is too big *)

(** [malloc(0xffffffff)] asks sbrk for 0x100000010 bytes, which as an [int]
    is 16: it returns a block of 16 bytes of memory. *)
Lemma malloc_too_big :
  malloc 0x1000 (λ _ n, n <? 2 ^ 27) 0xffffffff (UState ∅ 0 0x5000) =
    Some (0x5010, UState {[ 0x1000 := Hdr 0x1000 0; 0x5000 := Hdr 0x1000 0x10000001 ]} 0x1000 0x5010).
Proof. vm_compute. reflexivity. Qed.
