(* ===== verification/UmallocSpec.v ===== *)
(** * The allocator keeps its blocks apart

    The free blocks are a circular list in the order of their addresses; free and
    allocated blocks do not overlap and together are all the memory obtained from
    the kernel. *)

From S2P Require Import Prelude Umalloc.

(** A block: its address and its size in units. *)
Abbreviation blk := (Z * Z)%type.

Definition bend (x : blk) : Z := x.1 + HDR * x.2.

Definition nxt (last : Z) (l : list blk) : Z := match l with [] => last | x :: _ => x.1 end.

(** The headers of the blocks of [l] link them in this order, and the last one to
    [last]. *)
Fixpoint linked (h : gmap Z header) (last : Z) (l : list blk) : Prop :=
  match l with
  | [] => True
  | x :: r => h !! x.1 = Some (Hdr (nxt last r) x.2) ∧ linked h last r
  end.

(** Blocks of at least one unit in ascending order without overlap, from [lo]. *)
Fixpoint asc (lo : Z) (l : list blk) : Prop :=
  match l with
  | [] => True
  | x :: r => lo <= x.1 ∧ 0 < x.2 ∧ asc (bend x) r
  end.

Definition top (lo : Z) (l : list blk) : Z := match last l with Some x => bend x | None => lo end.

Lemma linked_app h e l1 l2 : linked h e (l1 ++ l2) ↔ linked h (nxt e l2) l1 ∧ linked h e l2.
Proof.
  induction l1 as [| x l1 IH]; [cbn; tauto |]. cbn [app linked]. rewrite IH.
  replace (nxt e (l1 ++ l2)) with (nxt (nxt e l2) l1) by (by destruct l1). tauto.
Qed.

Lemma linked_insert h e l a v : a ∉ l.*1 → linked (<[a := v]> h) e l ↔ linked h e l.
Proof.
  induction l as [| x l IH]; intros Ha; [done |]. cbn in *. rewrite IH by set_solver. rewrite lookup_insert_ne by set_solver. done.
Qed.

Lemma linked_lookup h e l x : linked h e l → x ∈ l → ∃ n, h !! x.1 = Some (Hdr n x.2).
Proof. induction l as [| y l IH]; intros Hl Hx; [set_solver |]. destruct Hl as [Hy Hl]. apply elem_of_cons in Hx as [-> | Hx]; eauto. Qed.

Lemma top_cons lo x l : top lo (x :: l) = top (bend x) l.
Proof. unfold top. rewrite last_cons. by destruct (last l). Qed.

Lemma asc_app lo l1 l2 : asc lo (l1 ++ l2) ↔ asc lo l1 ∧ asc (top lo l1) l2.
Proof.
  revert lo. induction l1 as [| x l1 IH]; intros lo; [cbn; tauto |]. cbn [app asc]. rewrite IH, top_cons. tauto.
Qed.

Lemma asc_top lo l : asc lo l → lo <= top lo l.
Proof.
  revert lo. induction l as [| x l IH]; intros lo H; [unfold top; cbn; lia |]. destruct H as (H1 & H2 & H3).
  rewrite top_cons. apply IH in H3. unfold bend, HDR in *. lia.
Qed.

Lemma asc_elem lo l x : asc lo l → x ∈ l → lo <= x.1 ∧ 0 < x.2 ∧ bend x <= top lo l.
Proof.
  revert lo. induction l as [| y l IH]; intros lo H Hx; [set_solver |]. destruct H as (H1 & H2 & H3).
  rewrite top_cons. apply elem_of_cons in Hx as [-> | Hx].
  - split_and!; [done | done | by apply asc_top].
  - apply (IH _ H3) in Hx. unfold bend, HDR in *. lia.
Qed.

Lemma asc_lower lo lo' l : asc lo l → (∀ x, head l = Some x → lo' <= x.1) → asc lo' l.
Proof. destruct l as [| x l]; [done |]. intros (H1 & H2 & H3) Hh. split_and!; [by apply Hh | done | done]. Qed.

Lemma asc_nodup lo l : asc lo l → NoDup (l.*1).
Proof.
  revert lo. induction l as [| x l IH]; intros lo H; [constructor |]. destruct H as (H1 & H2 & H3). cbn. constructor; [| by eapply IH].
  intros (y & E & Hy)%list_elem_of_fmap. apply (asc_elem _ _ _ H3) in Hy. unfold bend, HDR in *. lia.
Qed.

(** Blocks that do not overlap. *)
Definition disj (x y : blk) : Prop := bend x <= y.1 ∨ bend y <= x.1.

(** A block apart from all those of an ascending list has its place in it. *)
Lemma asc_split lo l b :
  asc lo l → lo <= b.1 → 0 < b.2 → Forall (disj b) l →
  ∃ l1 l2, l = l1 ++ l2 ∧ top lo l1 <= b.1 ∧ (∀ x, x ∈ l2 → bend b <= x.1).
Proof.
  revert lo. induction l as [| x l IH]; intros lo H Hlo Hb Hd; [by exists [], []; split_and!; [done | done | set_solver] |].
  destruct H as (H1 & H2 & H3). apply Forall_cons in Hd as [Hx Hd]. destruct (Z.le_gt_cases (bend x) b.1) as [Hle | Hgt].
  - destruct (IH (bend x) H3 Hle Hb Hd) as (l1 & l2 & -> & Ht & H). exists (x :: l1), l2. by rewrite top_cons.
  - exists [], (x :: l). split_and!; [done | done |].
    destruct Hx as [Hx | Hx]; [| lia]. intros y [-> | Hy]%elem_of_cons; [done |].
    apply (asc_elem _ _ _ H3) in Hy. unfold bend, HDR in *. lia.
Qed.

Section umalloc.
Context (base_at start : Z) (grows : Z → Z → bool).

Abbreviation nodes bs := ((base_at, 0) :: bs).

Definition ring (st : ustate) (bs : list blk) : Prop :=
  linked (hdrs st) base_at (nodes bs) ∧ asc (base_at + HDR) bs.

(** ** Finding the place of a block *)

Lemma ring_ptr st bs u x v :
  ring st bs → nodes bs = u ++ x :: v → ptr st x.1 = nxt base_at v ∧ size st x.1 = x.2.
Proof.
  intros [Hl _] E. rewrite E in Hl. apply linked_app in Hl as [_ [Hx _]]. unfold ptr, size, geth. by rewrite Hx.
Qed.

Lemma ring_before bs u x y v :
  asc (base_at + HDR) bs → nodes bs = u ++ x :: y :: v → x.1 < y.1.
Proof.
  intros H E. destruct u as [| z u]; cbn in E; injection E as <- E.
  - rewrite E in H. destruct H as (H & _). unfold HDR in H. cbn. lia.
  - rewrite E in H. apply asc_app in H as [_ (H1 & H2 & H3 & _)]. unfold bend, HDR in *. lia.
Qed.

Section place.
Context (st : ustate) (l1 l2 : list blk) (bp : Z).
Context (Hring : ring st (l1 ++ l2)) (Hlo : top (base_at + HDR) l1 <= bp) (Hhi : ∀ x, x ∈ l2 → bp < x.1).

(** The node before the place. *)
Definition pred_of (l : list blk) : blk := default (base_at, 0) (last l).

Lemma front_lt x : x ∈ nodes l1 → x.1 < bp.
Proof.
  destruct Hring as [_ Ha]. apply asc_app in Ha as [Ha _]. pose proof (asc_top _ _ Ha). intros [-> | Hx]%elem_of_cons; [unfold HDR in *; cbn; lia |].
  apply (asc_elem _ _ _ Ha) in Hx. unfold bend, HDR in *. lia.
Qed.

Lemma free_loop_front u q v fuel :
  nodes l1 = u ++ q :: v → (length v < fuel)%nat → free_loop fuel st bp q.1 = Some (pred_of l1).1.
Proof.
  revert u q fuel. induction v as [| y v IH]; intros u q fuel E Hf; (destruct fuel as [| fuel]; [cbn in Hf; lia |]); cbn [free_loop].
  - assert (q = pred_of l1) as Eq.
    { unfold pred_of. apply (f_equal last) in E. rewrite last_snoc, last_cons in E. by destruct (last l1); cbn; injection E. }
    destruct (ring_ptr st (l1 ++ l2) u q l2 Hring) as [-> _]; [by rewrite app_comm_cons, E, <- app_assoc |].
    assert (q.1 < bp) as Hq by (apply front_lt; rewrite E; set_solver).
    assert (base_at <= q.1) as Hb.
    { assert (q ∈ nodes l1) as Hin by (rewrite E; set_solver). apply elem_of_cons in Hin as [-> | Hin]; [done |].
      destruct Hring as [_ Ha]. apply asc_app in Ha as [Ha _]. apply (asc_elem _ _ _ Ha) in Hin. unfold HDR in *. lia. }
    rewrite Eq in *. destruct l2 as [| z l2']; cbn [nxt].
    + replace (bp <? base_at) with false by lia. replace (base_at <=? (pred_of l1).1) with true by lia.
      replace ((pred_of l1).1 <? bp) with true by lia. done.
    + assert (bp < z.1) by (apply Hhi; set_solver). replace (bp <? z.1) with true by lia. by replace ((pred_of l1).1 <? bp) with true by lia.
  - destruct (ring_ptr st (l1 ++ l2) u q ((y :: v) ++ l2) Hring) as [-> _]; [by rewrite app_comm_cons, E, <- app_assoc |].
    cbn [nxt app]. assert (y.1 < bp) by (apply front_lt; rewrite E; set_solver).
    assert (q.1 < y.1).
    { destruct Hring as [_ Ha]. apply asc_app in Ha as [Ha _]. eapply ring_before; [exact Ha | exact E]. }
    replace (bp <? y.1) with false by lia. replace (y.1 <=? q.1) with false by lia. rewrite andb_false_r. cbn [andb].
    apply (IH (u ++ [q])); [by rewrite E, <- app_assoc | cbn in Hf; lia].
Qed.

Lemma free_loop_back u q v fuel :
  l2 = u ++ q :: v → (length v + length l1 + 1 < fuel)%nat → free_loop fuel st bp q.1 = Some (pred_of l1).1.
Proof.
  revert u q fuel. induction v as [| y v IH]; intros u q fuel E Hf; (destruct fuel as [| fuel]; [cbn in Hf; lia |]); cbn [free_loop].
  - destruct (ring_ptr st (l1 ++ l2) (nodes l1 ++ u) q [] Hring) as [-> _]; [by rewrite E, <- app_assoc |]. cbn [nxt].
    assert (bp < q.1) by (apply Hhi; rewrite E; set_solver). assert (base_at < bp) by (apply (front_lt (base_at, 0)); set_solver).
    replace (q.1 <? bp) with false by lia. replace (bp <? base_at) with false by lia. cbn [andb orb]. rewrite andb_false_r.
    apply (free_loop_front [] (base_at, 0) l1); [done | cbn in Hf; lia].
  - destruct (ring_ptr st (l1 ++ l2) (nodes l1 ++ u) q (y :: v) Hring) as [-> _]; [by rewrite E, <- app_assoc |]. cbn [nxt].
    assert (bp < q.1) by (apply Hhi; rewrite E; set_solver).
    assert (q.1 < y.1).
    { destruct Hring as [_ Ha]. eapply (ring_before _ (nodes l1 ++ u)); [exact Ha |]. by rewrite E, <- app_assoc. }
    replace (q.1 <? bp) with false by lia. replace (y.1 <=? q.1) with false by lia. cbn [andb].
    apply (IH (u ++ [q])); [by rewrite E, <- app_assoc | cbn in Hf; lia].
Qed.

Lemma free_loop_f p fuel :
  p ∈ (nodes (l1 ++ l2)).*1 → (length (l1 ++ l2) + 1 < fuel)%nat → free_loop fuel st bp p = Some (pred_of l1).1.
Proof.
  intros (q & -> & Hq)%list_elem_of_fmap Hf. rewrite length_app in Hf. rewrite app_comm_cons in Hq.
  apply elem_of_app in Hq as [Hq | Hq]; apply list_elem_of_split in Hq as (u & v & E).
  - apply (free_loop_front u q v); [done |]. apply (f_equal length) in E. rewrite length_app in E. cbn in E. lia.
  - apply (free_loop_back u q v); [done |]. apply (f_equal length) in E. rewrite length_app in E. cbn in E. lia.
Qed.
End place.

(** ** Linking a block in *)

Definition total (l : list blk) : Z := foldr (λ x n, x.2 + n) 0 l.

Lemma total_app l1 l2 : total (l1 ++ l2) = total l1 + total l2.
Proof. induction l1 as [| x l1 IH]; [done |]. cbn. unfold total in IH. rewrite IH. unfold total. lia. Qed.

Lemma nodes_snoc l1 : ∃ u, nodes l1 = u ++ [pred_of l1] ∧ (l1 = [] ∨ ∃ l, l1 = l ++ [pred_of l1] ∧ u = nodes l).
Proof.
  destruct l1 as [| x l _] using rev_ind.
  - exists []. split; [done | by left].
  - exists (nodes l). unfold pred_of. rewrite last_snoc. split; [done |]. right. by exists l.
Qed.

(** Joining [b] with the block that follows it, if they touch. *)
Lemma join_right st l1 l2 b w :
  ring st (l1 ++ l2) → hdrs st !! b.1 = Some (Hdr w b.2) → base_at + HDR <= b.1 → top (base_at + HDR) l1 <= b.1 → 0 <= base_at →
  0 < b.2 → (∀ x, x ∈ l2 → bend b <= x.1) → (∀ x, x ∈ l2 → bend x < 2 ^ 32) →
  let st1 :=
    if bend b =? nxt base_at l2 then
      set_ptr b.1 (ptr (set_size b.1 (u32 (b.2 + size st (nxt base_at l2))) st) (nxt base_at l2))
        (set_size b.1 (u32 (b.2 + size st (nxt base_at l2))) st)
    else set_ptr b.1 (nxt base_at l2) st in
  ∃ k l2', linked (hdrs st1) base_at ((b.1, k) :: l2') ∧ linked (hdrs st1) (nxt base_at l2) (nodes l1) ∧
    asc b.1 ((b.1, k) :: l2') ∧ k + total l2' = b.2 + total l2 ∧ b.2 <= k ∧ (length l2' <= length l2)%nat ∧
    (∀ a, a ≠ b.1 → hdrs st1 !! a = hdrs st !! a) ∧ freep st1 = freep st ∧ ubrk st1 = ubrk st ∧
    (∀ y, disj b y → Forall (disj y) l2 → 0 < y.2 → Forall (disj y) ((b.1, k) :: l2')) ∧
    (∀ e, bend b <= e → (∀ x, x ∈ l2 → bend x <= e) → ∀ x, x ∈ (b.1, k) :: l2' → bend x <= e).
Proof.
  intros [Hl Ha] Hb Hlo Htop Hbase Hk Hhi Hbd. rewrite app_comm_cons in Hl. apply linked_app in Hl as [Hl1 Hl2].
  apply asc_app in Ha as [Ha1 Ha2].
  assert (b.1 ∉ (nodes l1).*1) as Hn1.
  { intros (x & E & Hx)%list_elem_of_fmap. apply elem_of_cons in Hx as [-> | Hx]; [unfold HDR in *; cbn in E; lia |].
    apply (asc_elem _ _ _ Ha1) in Hx. unfold bend, HDR in *. lia. }
  assert (b.1 ∉ l2.*1) as Hn2.
  { intros (x & E & Hx)%list_elem_of_fmap. apply Hhi in Hx. unfold bend, HDR in *. lia. }
  destruct (Z.eqb_spec (bend b) (nxt base_at l2)) as [E | Hne].
  - destruct l2 as [| y l2']; [unfold bend, HDR in *; cbn in E; lia |]. cbn [nxt] in *. destruct Hl2 as [Hy Hl2].
    destruct Ha2 as (Ha2 & Hy2 & Ha3). assert (size st y.1 = y.2) as Ey by (unfold size, geth; by rewrite Hy). rewrite Ey.
    assert (bend y < 2 ^ 32) by (apply Hbd; set_solver). assert (b.1 ≠ y.1) by (cbn in Hn2; set_solver).
    rewrite u32_small by (unfold bend, HDR in *; lia). exists (b.2 + y.2), l2'. unfold set_ptr, set_size, size, ptr, geth, seth. cbn [hdrs freep ubrk].
    rewrite lookup_insert_eq, lookup_insert_ne, Hy by done. cbn [default h_ptr h_size]. rewrite insert_insert_eq.
    split; [split; [cbn; by rewrite lookup_insert_eq | apply linked_insert; [cbn in Hn2; set_solver | done]] |].
    split_and!; [by apply linked_insert | | | | cbn; lia | | done | done | |].
    + cbn. unfold bend in *. cbn. split_and!; [lia | lia |]. by replace (b.1 + HDR * (b.2 + y.2)) with (y.1 + HDR * y.2) by lia.
    + cbn. unfold total. lia.
    + lia.
    + intros a Hne. by rewrite lookup_insert_ne.
    + intros z Hz Hd Hz2. apply Forall_cons in Hd as [Hdy Hd]. constructor; [| done]. unfold disj, bend, HDR in *. cbn. lia.
    + intros e He Hx x [-> | Hin]%elem_of_cons; [| apply Hx; set_solver]. specialize (Hx y ltac:(set_solver)). unfold bend in *. cbn. lia.
  - exists b.2, l2. unfold set_ptr, size, geth, seth. cbn [hdrs freep ubrk]. rewrite Hb. cbn [default h_size].
    split; [split; [cbn; by rewrite lookup_insert_eq | by apply linked_insert] |].
    split_and!; [by apply linked_insert | | done | lia | lia | | done | done | |].
    + cbn. split_and!; [lia | lia |]. eapply asc_lower; [exact Ha2 |]. intros x Hx. unfold bend. cbn. apply (Hhi x). destruct l2; [done |]. injection Hx as ->. set_solver.
    + intros a Hne'. by rewrite lookup_insert_ne.
    + intros z Hz Hd Hz2. constructor; [| done]. unfold disj, bend in *. cbn. lia.
    + intros e He Hx x [-> | Hin]%elem_of_cons; [exact He | by apply Hx].
Qed.

(** Joining the block before the place with the new one, if they touch. *)
Lemma join_left st l1 l2 b e :
  linked (hdrs st) base_at (b :: l2) → linked (hdrs st) e (nodes l1) → asc (base_at + HDR) l1 → top (base_at + HDR) l1 <= b.1 →
  asc b.1 (b :: l2) → 0 <= base_at → bend b < 2 ^ 32 →
  let p := (pred_of l1).1 in
  let st1 :=
    if p + HDR * size st p =? b.1 then
      set_ptr p (ptr (set_size p (u32 (size st p + size st b.1)) st) b.1) (set_size p (u32 (size st p + size st b.1)) st)
    else set_ptr p b.1 st in
  ∃ bs, ring st1 bs ∧ total bs = total (l1 ++ b :: l2) ∧ p ∈ (nodes bs).*1 ∧
    (length bs <= length (l1 ++ b :: l2))%nat ∧ (∃ x, x ∈ bs ∧ b.2 <= x.2) ∧
    (∀ a, a ≠ p → hdrs st1 !! a = hdrs st !! a) ∧ freep st1 = freep st ∧ ubrk st1 = ubrk st ∧
    (∀ y, Forall (disj y) (l1 ++ b :: l2) → 0 < y.2 → Forall (disj y) bs) ∧
    (∀ e, (∀ x, x ∈ l1 ++ b :: l2 → bend x <= e) → ∀ x, x ∈ bs → bend x <= e).
Proof.
  intros [Hb Hl2] Hl1 Ha1 Htop Hab Hbase Hbd p. destruct (nodes_snoc l1) as (u & Eu & Hu). rewrite Eu in Hl1.
  apply linked_app in Hl1 as [Hlu [HP _]]. set (P := pred_of l1) in *. fold p in HP.
  assert (size st p = P.2 ∧ size st b.1 = b.2) as [-> ->] by (unfold size, geth; by rewrite HP, Hb).
  assert (p ≠ b.1 ∧ 0 <= p) as [Hpb Hp0].
  { assert (P ∈ nodes l1) as Hin by (rewrite Eu; set_solver). pose proof (asc_top _ _ Ha1).
    apply elem_of_cons in Hin as [E | Hin]; [unfold p; rewrite E; cbn; unfold HDR in *; lia |].
    apply (asc_elem _ _ _ Ha1) in Hin. unfold bend, HDR in *. fold p in Hin. lia. }
  assert (p ∉ u.*1 ∧ p ∉ (b :: l2).*1) as [Hpu Hpl].
  { assert (asc (base_at + HDR) (l1 ++ b :: l2)) as Hall by (apply asc_app; split; [done |]; eapply asc_lower; [exact Hab |]; intros x [= <-]; done).
    assert (NoDup ((nodes (l1 ++ b :: l2)).*1)) as Hnd.
    { cbn. constructor; [| by eapply asc_nodup]. intros (x & E & Hx)%list_elem_of_fmap. apply (asc_elem _ _ _ Hall) in Hx. unfold HDR in *. lia. }
    rewrite app_comm_cons, Eu, <- app_assoc, fmap_app in Hnd. cbn in Hnd. apply NoDup_app in Hnd as (_ & Hd & Hn).
    fold p in Hd, Hn. apply NoDup_cons in Hn as [Hn _]. split; [intros Hin; apply (Hd p Hin); left | exact Hn]. }
  destruct (Z.eqb_spec (p + HDR * P.2) b.1) as [E | Hne].
  - destruct Hu as [-> | (l & El & ->)]; [unfold p, P, HDR in *; cbn in *; lia |].
    rewrite El in Ha1. apply asc_app in Ha1 as [Hal (Hp1 & Hp2 & _)]. destruct Hab as (_ & Hb2 & Hab).
    rewrite u32_small by (unfold bend, HDR in *; lia). exists (l ++ (p, P.2 + b.2) :: l2).
    unfold set_ptr, set_size, size, ptr, geth, seth. cbn [hdrs freep ubrk].
    rewrite lookup_insert_eq, lookup_insert_ne, Hb by done. cbn [default h_ptr h_size]. rewrite insert_insert_eq.
    split; [split | split_and!].
    + rewrite app_comm_cons. apply linked_app. split; [by apply linked_insert |]. split; [cbn; by rewrite lookup_insert_eq |].
      apply linked_insert; [cbn in Hpl; set_solver | done].
    + apply asc_app. split; [done |]. cbn. split_and!; [done | lia |]. unfold bend in *. cbn. replace (p + HDR * (P.2 + b.2)) with (b.1 + HDR * b.2) by lia. done.
    + rewrite El, !total_app. cbn. unfold total. lia.
    + cbn. rewrite fmap_app. set_solver.
    + rewrite El, !length_app. cbn. lia.
    + exists (p, P.2 + b.2). split; [set_solver | cbn; lia].
    + intros a Ha. by rewrite lookup_insert_ne.
    + done.
    + done.
    + intros y Hy Hy2. rewrite El in Hy. apply Forall_app in Hy as [Hy1 Hy]. apply Forall_app in Hy1 as [Hyl Hyp].
      apply Forall_cons in Hyp as [Hyp _]. apply Forall_cons in Hy as [Hyb Hyl2]. apply Forall_app. split; [done |]. constructor; [| done].
      unfold disj, bend, HDR in *. cbn. fold p in Hyp. lia.
    + intros e' He x Hx. apply elem_of_app in Hx as [Hx | [-> | Hx]%elem_of_cons]; [apply He; rewrite El; set_solver | | apply He; set_solver].
      specialize (He b ltac:(set_solver)). unfold bend in *. cbn. lia.
  - exists (l1 ++ b :: l2). unfold set_ptr, size, geth, seth. cbn [hdrs freep ubrk]. rewrite HP. cbn [default h_size].
    split; [split | split_and!; try done].
    + rewrite app_comm_cons, Eu, <- app_assoc. apply linked_app. split; [by apply linked_insert |].
      cbn [app hdrs]. split; [cbn; change P.1 with p; by rewrite lookup_insert_eq |]. apply linked_insert; [done |]. by split.
    + apply asc_app. split; [done |]. eapply asc_lower; [exact Hab |]. by intros x [= <-].
    + rewrite app_comm_cons, Eu. rewrite !fmap_app. cbn. fold p. set_solver.
    + exists b. split; [set_solver | done].
    + intros a Ha. by rewrite lookup_insert_ne.
Qed.

(** ** The heap *)

Fixpoint pairwise (l : list blk) : Prop :=
  match l with [] => True | x :: r => Forall (disj x) r ∧ pairwise r end.

(** [bs] are the free blocks, [A] the allocated ones: each allocated block has its
    header with its size, no two blocks overlap, and all of them together are the
    memory from [start] to the end. *)
Record heap_ok (st : ustate) (bs A : list blk) : Prop := HeapOk {
  hk_ring : ring st bs;
  hk_freep : freep st ∈ (nodes bs).*1;
  hk_alloc : ∀ x, x ∈ A → base_at + HDR <= x.1 ∧ 0 < x.2 ∧ ∃ w, hdrs st !! x.1 = Some (Hdr w x.2);
  hk_sep : ∀ y, y ∈ A → Forall (disj y) bs;
  hk_pair : pairwise A;
  hk_top : ∀ x, x ∈ bs ++ A → bend x <= ubrk st;
  hk_brk : 0 <= base_at ∧ base_at + HDR <= start ∧ start <= ubrk st < 2 ^ 31;
  hk_sum : HDR * (total bs + total A) = ubrk st - start }.

Lemma ring_nodup st bs : ring st bs → NoDup ((nodes bs).*1).
Proof.
  intros [_ Ha]. cbn. constructor; [| by eapply asc_nodup].
  intros (x & E & Hx)%list_elem_of_fmap. apply (asc_elem _ _ _ Ha) in Hx. unfold HDR in *. lia.
Qed.

Lemma ring_rounds st bs : ring st bs → (length bs + 1 < rounds st)%nat.
Proof.
  intros Hr. pose proof (ring_nodup _ _ Hr) as Hnd. unfold rounds.
  assert (length (nodes bs) <= base.size (hdrs st))%nat as H; [| cbn in H; lia].
  rewrite <- size_dom, <- (length_fmap fst (nodes bs)), <- (size_list_to_set (C := gset Z) _ Hnd). apply subseteq_size.
  intros a. rewrite elem_of_list_to_set, elem_of_dom. intros (x & -> & Hx)%list_elem_of_fmap.
  destruct Hr as [Hl _]. destruct (linked_lookup _ _ _ _ Hl Hx) as [n ->]. by eexists.
Qed.

Lemma disj_ne x y : disj x y → 0 < x.2 → 0 < y.2 → x.1 ≠ y.1.
Proof. unfold disj, bend, HDR. lia. Qed.

Lemma disj_sym x y : disj x y → disj y x.
Proof. unfold disj. lia. Qed.

Lemma alloc_not_node bs y :
  asc (base_at + HDR) bs → base_at + HDR <= y.1 → 0 < y.2 → Forall (disj y) bs → y.1 ∉ (nodes bs).*1.
Proof.
  intros Ha Hy1 Hy2 Hd (x & E & Hx)%list_elem_of_fmap. apply elem_of_cons in Hx as [-> | Hx]; [cbn in E; unfold HDR in *; lia |].
  rewrite Forall_forall in Hd. apply (disj_ne y x (Hd x Hx)); [done | by apply (asc_elem _ _ _ Ha) | done].
Qed.

Lemma free_f st bs A b :
  heap_ok st bs (b :: A) → ∃ st' bs', free (b.1 + HDR) st = Some st' ∧ heap_ok st' bs' A ∧ ubrk st' = ubrk st ∧
    (length bs' <= S (length bs))%nat ∧ ∃ x, x ∈ bs' ∧ b.2 <= x.2.
Proof.
  intros [Hr Hf Hal Hsep [Hpb Hpair] Htop Hbrk Hsum].
  destruct (Hal b) as (Hb1 & Hb2 & w & Hbw); [set_solver |]. assert (Forall (disj b) bs) as Hdb by (apply Hsep; set_solver).
  destruct (asc_split (base_at + HDR) bs b) as (l1 & l2 & -> & Hl1 & Hl2); [apply Hr | done.. |].
  assert (∀ x, x ∈ l2 → b.1 < x.1) as Hlt by (intros x Hx; apply Hl2 in Hx; unfold bend, HDR in *; lia).
  pose proof (free_loop_f st l1 l2 b.1 Hr Hl1 Hlt (freep st) (rounds st) Hf (ring_rounds _ _ Hr)) as Eloop.
  destruct (nodes_snoc l1) as (u & Eu & _).
  destruct (ring_ptr st (l1 ++ l2) u (pred_of l1) l2 Hr) as [Eptr _]; [by rewrite app_comm_cons, Eu, <- app_assoc |].
  assert (size st b.1 = b.2) as Esz by (unfold size, geth; by rewrite Hbw).
  assert (∀ x, x ∈ l2 → bend x < 2 ^ 32) as Hbd by (intros x Hx; specialize (Htop x ltac:(set_solver)); lia).
  pose proof (join_right st l1 l2 b w Hr Hbw Hb1 Hl1 (proj1 Hbrk) Hb2 Hl2 Hbd) as J. cbn zeta in J.
  destruct J as (k & l2' & Hlk & Hlk1 & Hasc & Htot & Hk & Hlen & Hoth & Hfr & Hub & Hdj & Hbe). set (st1 := if bend b =? _ then _ else _) in *.
  assert (bend (b.1, k) <= ubrk st) as Hbk.
  { apply Hbe; [apply Htop; set_solver | intros x Hx; apply Htop; set_solver | set_solver]. }
  pose proof (join_left st1 l1 l2' (b.1, k) _ Hlk Hlk1 (proj1 (proj1 (asc_app _ _ _) (proj2 Hr))) Hl1 Hasc (proj1 Hbrk) ltac:(lia)) as J.
  cbn zeta in J. cbn [fst] in J. destruct J as (bs' & Hr' & Htot' & Hin' & Hlen' & (z & Hz & Hz2) & Hoth' & Hfr' & Hub' & Hdj' & Hbe').
  set (st2 := if _ =? b.1 then _ else _) in *.
  exists (set_freep (pred_of l1).1 st2), bs'. split; [| split; [| split; [by rewrite <- Hub, <- Hub' |]]].
  3: { split; [rewrite length_app in *; cbn in Hlen'; lia |]. exists z. split; [done |]. cbn in Hz2. lia. }
  { unfold free. replace (b.1 + HDR - HDR) with b.1 by lia. rewrite Eloop. cbn [mbind option_bind]. f_equal.
    unfold free_link. rewrite Esz, Eptr. reflexivity. }
  assert ((pred_of l1).1 ∈ (nodes (l1 ++ l2)).*1) as Hpin by (rewrite app_comm_cons, Eu, !fmap_app; set_solver).
  split.
  - exact Hr'.
  - exact Hin'.
  - intros y Hy. destruct (Hal y) as (Hy1 & Hy2 & v & Hv); [set_solver |]. split_and!; [done | done |]. exists v.
    cbn [hdrs set_freep]. rewrite Hoth', Hoth; [done | |].
    + intros E. rewrite Forall_forall in Hpb. apply (disj_ne b y (Hpb y Hy)); done.
    + intros E. rewrite E in Hy1. apply (alloc_not_node (l1 ++ l2) y); [apply Hr | by rewrite E | done | apply Hsep; set_solver | by rewrite E].
  - intros y Hy. destruct (Hal y) as (_ & Hy2 & _); [set_solver |].
    assert (Forall (disj y) (l1 ++ l2)) as Hyl by (apply Hsep; set_solver). apply Forall_app in Hyl as [Hyl1 Hyl2].
    apply Hdj'; [| done]. apply Forall_app. split; [done |]. apply Hdj; [| done | done]. rewrite Forall_forall in Hpb. by apply Hpb.
  - done.
  - cbn. rewrite Hub', Hub. intros x [Hx | Hx]%elem_of_app; [| apply Htop; set_solver]. apply (Hbe' (ubrk st)); [| done].
    intros x2 [Hx2 | Hx2]%elem_of_app; [apply Htop; set_solver |].
    apply Hbe; [apply Htop; set_solver | intros x' Hx'; apply Htop; set_solver | done].
  - cbn. rewrite Hub', Hub. exact Hbrk.
  - cbn. rewrite Hub', Hub, Htot'. rewrite total_app in Hsum |- *. cbn in Hsum |- *. unfold total in *. lia.
Qed.

(** ** Taking a block *)

(** [b] follows [a] in the circle. *)
Definition adjacent (st : ustate) (bs : list blk) (a b : blk) : Prop :=
  a ∈ nodes bs ∧ b ∈ nodes bs ∧ hdrs st !! a.1 = Some (Hdr b.1 a.2).

Lemma split_unique (x y : list blk) p q s1 s2 :
  x ++ p :: s1 = y ++ q :: s2 → p.1 = q.1 → NoDup ((x ++ p :: s1).*1) → x = y.
Proof.
  revert y. induction x as [| x0 x IHx]; intros y E Epq Hn; destruct y as [| y0 y]; [done | | |]; injection E as -> E; [subst s1 | subst s2 |];
    cbn in Hn; apply NoDup_cons in Hn as [Hn Hn'].
  - exfalso. apply Hn. rewrite Epq, fmap_app. set_solver.
  - exfalso. apply Hn. rewrite <- Epq, fmap_app. set_solver.
  - f_equal. by eapply IHx.
Qed.

Lemma adjacent_split st bs a b :
  ring st bs → adjacent st bs a b → 0 < b.2 → ∃ l1 l2, bs = l1 ++ b :: l2 ∧ a = pred_of l1.
Proof.
  intros Hr (Ha & Hb & Hab) Hb2. pose proof (ring_nodup _ _ Hr) as Hnd.
  apply elem_of_cons in Hb as [-> | Hb]; [cbn in Hb2; lia |]. apply list_elem_of_split in Hb as (l1 & l2 & ->).
  exists l1, l2. split; [done |]. destruct (nodes_snoc l1) as (u & Eu & _).
  destruct (ring_ptr st (l1 ++ b :: l2) u (pred_of l1) (b :: l2) Hr) as [Ep _]; [by rewrite app_comm_cons, Eu, <- app_assoc |].
  apply list_elem_of_split in Ha as (v1 & v2 & Ea).
  destruct (ring_ptr st (l1 ++ b :: l2) v1 a v2 Hr Ea) as [Ep2 _]. unfold ptr, geth in Ep2. rewrite Hab in Ep2. cbn in Ep2.
  destruct v2 as [| c v2].
  { cbn in Ep2. destruct Hr as [_ Hasc]. apply (asc_elem _ _ b) in Hasc; [| set_solver]. unfold HDR in *. lia. }
  cbn in Ep2. (* both lists have [b.1] at the same place *)
  rewrite app_comm_cons, Eu, <- app_assoc in Ea. cbn in Ea.
  assert (NoDup ((u ++ pred_of l1 :: b :: l2).*1)) as Hnd'.
  { rewrite app_comm_cons, Eu, <- app_assoc in Hnd. exact Hnd. }
  assert ((u ++ [pred_of l1]) = (v1 ++ [a])) as E; [| apply app_inj_tail in E; symmetry; apply E].
  apply (split_unique _ _ b c l2 v2); rewrite <- ?app_assoc; [exact Ea | by rewrite Ep2 | exact Hnd'].
Qed.

Lemma asc_disj lo l1 b l2 y :
  asc lo (l1 ++ b :: l2) → bend y <= bend b → b.1 <= y.1 → Forall (disj y) (l1 ++ l2).
Proof.
  intros H Hy1 Hy2. apply asc_app in H as [H1 (H2 & H3 & H4)]. apply Forall_app. split; apply Forall_forall; intros x Hx.
  - apply (asc_elem _ _ _ H1) in Hx. unfold disj. lia.
  - apply (asc_elem _ _ _ H4) in Hx. unfold disj. lia.
Qed.

Lemma disj_inside x b y : disj x b → bend y <= bend b → b.1 <= y.1 → disj y x.
Proof. unfold disj. lia. Qed.

Lemma pairwise_cons_inside A b y :
  pairwise A → (∀ x, x ∈ A → disj x b) → bend y <= bend b → b.1 <= y.1 → pairwise (y :: A).
Proof. intros HA Hd H1 H2. split; [| done]. apply Forall_forall. intros x Hx. by eapply disj_inside; [apply Hd | |]. Qed.

(** All of a free block. *)
Lemma take_all st l1 l2 b A :
  heap_ok st (l1 ++ b :: l2) A → let a := (pred_of l1).1 in
  heap_ok (set_freep a (set_ptr a (ptr st b.1) st)) (l1 ++ l2) (b :: A).
Proof.
  intros [Hr Hf Hal Hsep Hpair Htop Hbrk Hsum] a. destruct (nodes_snoc l1) as (u & Eu & _).
  pose proof (ring_nodup _ _ Hr) as Hnd. destruct Hr as [Hl Ha]. pose proof Hl as Hl'.
  rewrite app_comm_cons in Hl'. apply linked_app in Hl' as [Hl1 [Hb Hl2]]. rewrite Eu in Hl1. apply linked_app in Hl1 as [Hlu [HP _]]. cbn in HP. fold a in HP.
  rewrite app_comm_cons, Eu, <- app_assoc, fmap_app in Hnd. cbn in Hnd. fold a in Hnd. apply NoDup_app in Hnd as (_ & Hd & Hn).
  apply NoDup_cons in Hn as [Hn Hn2]. assert (a ∉ u.*1) as Hau by (intros Hi; apply (Hd a Hi); left).
  assert (b ∈ l1 ++ b :: l2) as Hbin by set_solver. apply (asc_elem _ _ _ Ha) in Hbin as (Hb1 & Hb2 & _).
  assert (hdrs (set_ptr a (ptr st b.1) st) = <[a := Hdr (nxt base_at l2) (pred_of l1).2]> (hdrs st)) as Eh.
  { unfold set_ptr, seth, ptr, size, geth. cbn. by rewrite Hb, HP. }
  split.
  - split; cbn [hdrs set_freep].
    + rewrite Eh, app_comm_cons, Eu, <- app_assoc. apply linked_app. split; [by apply linked_insert |].
      cbn. fold a. rewrite lookup_insert_eq. split; [done |]. apply linked_insert; [set_solver | done].
    + apply asc_app in Ha as [H1 (H2 & H3 & H4)]. apply asc_app. split; [done |].
      eapply asc_lower; [exact H4 |]. intros x Hx. destruct l2; [done |]. injection Hx as <-. destruct H4 as (H4 & _). unfold bend, HDR in *. lia.
  - cbn. rewrite fmap_app. unfold a. destruct (last l1) as [x |] eqn:E; unfold pred_of; rewrite E; cbn; [| left].
    right. apply elem_of_app. left. apply list_elem_of_fmap. exists x. split; [done |]. by apply last_Some_elem_of.
  - intros x Hx. cbn [hdrs set_freep]. rewrite Eh. apply elem_of_cons in Hx as [-> | Hx].
    + split_and!; [done | done |]. eexists. rewrite lookup_insert_ne by set_solver. exact Hb.
    + destruct (Hal x Hx) as (Hx1 & Hx2 & w & Hw). split_and!; [done | done |]. exists w. rewrite lookup_insert_ne; [done |].
      intros E. apply (alloc_not_node (l1 ++ b :: l2) x Ha Hx1 Hx2 (Hsep x Hx)). rewrite <- E, app_comm_cons, Eu, !fmap_app. cbn. fold a. set_solver.
  - intros y [-> | Hy]%elem_of_cons; [by eapply asc_disj |]. specialize (Hsep y Hy). apply Forall_app in Hsep as [H1 H2]. apply Forall_app.
    apply Forall_cons in H2 as [_ H2]. done.
  - eapply (pairwise_cons_inside A b b); [done | | done | done]. intros x Hx. specialize (Hsep x Hx). rewrite Forall_forall in Hsep. apply Hsep. set_solver.
  - cbn. intros x Hx. apply Htop. set_solver.
  - exact Hbrk.
  - cbn. rewrite total_app in *. cbn in *. unfold total in *. lia.
Qed.

(** The last units of a free block. *)
Lemma take_tail st l1 l2 b A n :
  heap_ok st (l1 ++ b :: l2) A → 0 < n < b.2 →
  let q := b.1 + HDR * (b.2 - n) in
  heap_ok (set_freep (pred_of l1).1 (set_size q n (set_size b.1 (b.2 - n) st))) (l1 ++ (b.1, b.2 - n) :: l2) ((q, n) :: A).
Proof.
  intros [Hr Hf Hal Hsep Hpair Htop Hbrk Hsum] Hn q. pose proof (ring_nodup _ _ Hr) as Hnd. destruct Hr as [Hl Ha].
  assert (b ∈ l1 ++ b :: l2) as Hbin by set_solver. pose proof (asc_elem _ _ _ Ha Hbin) as (Hb1 & Hb2 & _).
  assert (bend (q, n) = bend b ∧ b.1 < q) as [Eq Hq] by (unfold bend, q, HDR; cbn; lia).
  assert (q ∉ (nodes (l1 ++ b :: l2)).*1) as Hqn.
  { intros (x & E & Hx)%list_elem_of_fmap. apply elem_of_cons in Hx as [-> | Hx]; [unfold HDR in *; cbn in E; lia |].
    pose proof (asc_disj _ l1 b l2 (q, n) Ha ltac:(lia) ltac:(cbn; lia)) as Hdj. rewrite Forall_forall in Hdj.
    destruct (decide (x = b)) as [-> | Hne]; [lia |]. assert (x ∈ l1 ++ l2) as Hx' by set_solver.
    apply (disj_ne (q, n) x (Hdj x Hx')); [cbn; lia | by apply (asc_elem _ _ _ Ha) | done]. }
  rewrite app_comm_cons in Hl. apply linked_app in Hl as [Hl1 [Hb Hl2]].
  rewrite app_comm_cons, fmap_app in Hnd. cbn in Hnd. rewrite app_comm_cons in Hnd. apply NoDup_app in Hnd as (_ & Hd & Hnd).
  apply NoDup_cons in Hnd as [Hnb _]. rewrite app_comm_cons, fmap_app in Hqn. cbn [fmap list_fmap] in Hqn.
  assert (b.1 ∉ (nodes l1).*1) as Hb1n by (intros Hi; by apply (Hd b.1 Hi); left).
  set (h' := <[b.1 := Hdr (nxt base_at l2) (b.2 - n)]> (hdrs st)).
  assert (∃ w, hdrs (set_size q n (set_size b.1 (b.2 - n) st)) = <[q := Hdr w n]> h') as [w Eh].
  { unfold set_size, seth, ptr, geth. cbn. rewrite Hb. cbn. eexists. reflexivity. }
  split.
  - split; cbn [hdrs set_freep].
    + rewrite Eh. apply linked_insert; [cbn; rewrite fmap_app; cbn; set_solver |]. unfold h'. rewrite app_comm_cons. apply linked_app.
      split; [by apply linked_insert |]. cbn. rewrite lookup_insert_eq. split; [done |]. by apply linked_insert.
    + apply asc_app in Ha as [H1 (H2 & H3 & H4)]. apply asc_app. split; [done |]. cbn. split_and!; [done | lia |].
      eapply asc_lower; [exact H4 |]. intros x Hx. destruct l2; [done |]. injection Hx as <-. destruct H4 as (H4 & _). unfold bend, HDR in *. cbn. lia.
  - cbn. rewrite fmap_app. destruct (last l1) as [x |] eqn:E; unfold pred_of; rewrite E; cbn; [| left].
    right. apply elem_of_app. left. apply list_elem_of_fmap. exists x. split; [done |]. by apply last_Some_elem_of.
  - intros x Hx. cbn [hdrs set_freep]. rewrite Eh. apply elem_of_cons in Hx as [-> | Hx].
    + cbn. rewrite lookup_insert_eq. split_and!; [lia | lia |]. by eexists.
    + destruct (Hal x Hx) as (Hx1 & Hx2 & v & Hv). split_and!; [done | done |]. exists v.
      assert (disj x b) as Hxb by (specialize (Hsep x Hx); rewrite Forall_forall in Hsep; by apply Hsep).
      unfold h'. rewrite !lookup_insert_ne; [done | |].
      * pose proof (disj_ne x b Hxb Hx2 Hb2). lia.
      * intros E. unfold disj, bend, HDR in Hxb. cbn in Eq. unfold bend, HDR in Eq. cbn in Eq. lia.
  - assert (∀ y, bend y <= bend b → q <= y.1 → Forall (disj y) (l1 ++ l2) → Forall (disj y) (l1 ++ (b.1, b.2 - n) :: l2)) as Hown.
    { intros y _ Hy [H1 H2]%Forall_app. apply Forall_app. split; [done |]. constructor; [| done]. unfold disj, bend, q in *. cbn. lia. }
    intros y [-> | Hy]%elem_of_cons.
    + apply Hown; [lia | cbn; lia |]. eapply asc_disj; [exact Ha | lia | cbn; lia].
    + specialize (Hsep y Hy). apply Forall_app in Hsep as [H1 H2]. apply Forall_cons in H2 as [H2 H3]. apply Forall_app. split; [done |].
      constructor; [| done]. unfold disj, bend, HDR in *. cbn. lia.
  - eapply (pairwise_cons_inside A b); [done | | lia | cbn; lia]. intros x Hx. specialize (Hsep x Hx). rewrite Forall_forall in Hsep. by apply Hsep.
  - cbn. intros x Hx. pose proof (Htop b ltac:(set_solver)). apply elem_of_app in Hx as [Hx | [-> | Hx]%elem_of_cons]; [| lia | apply Htop; set_solver].
    apply elem_of_app in Hx as [Hx | [-> | Hx]%elem_of_cons]; [apply Htop; set_solver | unfold bend, HDR in *; cbn; lia | apply Htop; set_solver].
  - exact Hbrk.
  - cbn. rewrite total_app in *. cbn in *. unfold total in *. lia.
Qed.

Lemma take_block_f st bs A a b n :
  heap_ok st bs A → adjacent st bs a b → 0 < n <= b.2 →
  ∃ q st' bs', take_block n a.1 b.1 st = (q, st') ∧ heap_ok st' bs' ((q - HDR, n) :: A) ∧ ubrk st' = ubrk st.
Proof.
  intros Hok Hadj Hn. destruct (adjacent_split st bs a b (hk_ring _ _ _ Hok) Hadj ltac:(lia)) as (l1 & l2 & -> & ->).
  assert (size st b.1 = b.2) as Esz.
  { destruct (hk_ring _ _ _ Hok) as [Hl _]. destruct (linked_lookup _ _ _ b Hl) as [w Hw]; [set_solver |]. unfold size, geth. by rewrite Hw. }
  assert (bend b <= ubrk st) as Htop by (apply (hk_top _ _ _ Hok); set_solver). pose proof (hk_brk _ _ _ Hok) as Hbrk.
  assert (base_at + HDR <= b.1) as Hlo.
  { destruct (hk_ring _ _ _ Hok) as [_ Ha]. apply (asc_elem _ _ b) in Ha; [lia | set_solver]. }
  unfold take_block. rewrite Esz. destruct (Z.eqb_spec b.2 n) as [E | Hne].
  - eexists _, _, (l1 ++ l2). split; [reflexivity |]. split; [| done].
    replace (b.1 + HDR - HDR, n) with b by (destruct b; cbn in *; f_equal; lia). by apply take_all.
  - rewrite u32_small by (unfold bend, HDR in *; lia).
    assert (size (set_size b.1 (b.2 - n) st) b.1 = b.2 - n) as -> by (unfold size, geth; cbn; by rewrite lookup_insert_eq).
    eexists _, _, (l1 ++ (b.1, b.2 - n) :: l2). split; [reflexivity |]. split; [| done].
    replace (b.1 + HDR * (b.2 - n) + HDR - HDR) with (b.1 + HDR * (b.2 - n)) by lia. apply take_tail; [done | lia].
Qed.

(** ** More memory *)

(** The kernel keeps the memory of the process below 2^31. *)
Context (Hgrows : ∀ b n, grows b n = true → b + n < 2 ^ 31).

Lemma hdrs_top st bs A b : heap_ok st bs A → b ∈ nodes bs ∨ b ∈ A → b.1 < ubrk st.
Proof.
  intros [Hr _ Hal _ _ Htop Hbrk _] [Hb | Hb].
  - apply elem_of_cons in Hb as [-> | Hb]; [unfold HDR in *; cbn; lia |]. specialize (Htop b ltac:(set_solver)).
    destruct Hr as [_ Ha]. apply (asc_elem _ _ _ Ha) in Hb. unfold bend, HDR in *. lia.
  - specialize (Htop b ltac:(set_solver)). destruct (Hal b Hb) as (_ & H & _). unfold bend, HDR in *. lia.
Qed.

Lemma disj_above e x y : bend x <= e → e <= y.1 → disj y x.
Proof. unfold disj. lia. Qed.

(** The new memory, before it is given to [free]. *)
Lemma grown_ok st bs A n :
  heap_ok st bs A → 0 < n → ubrk st + HDR * n < 2 ^ 31 →
  heap_ok (set_size (ubrk st) n (UState (hdrs st) (freep st) (ubrk st + HDR * n))) bs ((ubrk st, n) :: A).
Proof.
  intros Hok Hn Hb. pose proof (λ b, hdrs_top st bs A b Hok) as Ht. destruct Hok as [Hr Hf Hal Hsep Hpair Htop Hbrk Hsum].
  split; try (cbn; done).
  - destruct Hr as [Hl Ha]. split; [| done]. unfold set_size, seth. cbn [hdrs]. apply linked_insert; [| done].
    intros (x & E & Hx)%list_elem_of_fmap. specialize (Ht x (or_introl Hx)). lia.
  - intros x [-> | Hx]%elem_of_cons.
    + cbn. rewrite lookup_insert_eq. split_and!; [lia | done |]. by eexists.
    + destruct (Hal x Hx) as (H1 & H2 & w & Hw). split_and!; [done | done |]. exists w. cbn. rewrite lookup_insert_ne; [done |].
      specialize (Ht x (or_intror Hx)). lia.
  - intros y [-> | Hy]%elem_of_cons; [| by apply Hsep]. apply Forall_forall. intros x Hx. apply (disj_above (ubrk st)); [apply Htop; set_solver | done].
  - split; [| done]. apply Forall_forall. intros x Hx. apply (disj_above (ubrk st)); [apply Htop; set_solver | done].
  - cbn. intros x Hx. unfold HDR in *. apply elem_of_app in Hx as [Hx | [-> | Hx]%elem_of_cons]; [| unfold bend, HDR; cbn; lia |];
      specialize (Htop x ltac:(set_solver)); lia.
  - cbn. unfold HDR in *. lia.
  - cbn. unfold total in *. lia.
Qed.

Lemma morecore_f st bs A nu :
  heap_ok st bs A → 0 < nu → HDR * nu < 2 ^ 31 →
  (morecore grows nu st = Some (0, st) ∧ grows (ubrk st) (HDR * Z.max 4096 nu) = false) ∨
  ∃ st' bs', morecore grows nu st = Some (freep st', st') ∧ heap_ok st' bs' A ∧ (length bs' <= S (length bs))%nat ∧
    ∃ x, x ∈ bs' ∧ nu <= x.2.
Proof.
  intros Hok Hnu Hsm. unfold morecore. set (n := if nu <? 4096 then 4096 else nu).
  assert (nu <= n ∧ HDR * n < 2 ^ 31 ∧ Z.max 4096 nu = n) as (Hn & Hn2 & ->) by (unfold n, HDR in *; destruct (Z.ltb_spec nu 4096); lia).
  unfold sbrk. replace (i32 (n * HDR)) with (HDR * n) by (unfold i32; rewrite signed_small; unfold HDR in *; lia).
  destruct (grows (ubrk st) (HDR * n)) eqn:Eg; [| by left]. right. pose proof (hk_brk _ _ _ Hok) as Hbrk.
  replace (ubrk st =? -1) with false by (unfold HDR in *; lia).
  pose proof (grown_ok st bs A n Hok ltac:(lia) (Hgrows _ _ Eg)) as Hok1.
  destruct (free_f _ _ _ _ Hok1) as (st' & bs' & E & Hok' & _ & Hlen & x & Hx & Hx2). cbn [fst] in E. rewrite E. cbn [mbind option_bind].
  exists st', bs'. split_and!; [done | done | done |]. exists x. split; [done |]. cbn in Hx2. lia.
Qed.

(** ** Searching the circle *)

Lemma rotate st bs f u v :
  ring st bs → nodes bs = u ++ f :: v → linked (hdrs st) f.1 (f :: v ++ u).
Proof.
  intros [Hl _] E. rewrite E in Hl. apply linked_app in Hl as [Hu Hv]. rewrite app_comm_cons. apply linked_app.
  destruct u as [| x u]; [injection E as <- _; done |]. injection E as <- _. done.
Qed.

(** The loop with [prevp] at [x], and the blocks [W] before it is back at [f],
    where the search began. *)
Lemma malloc_search st bs f n W x fuel :
  ring st bs → f ∈ nodes bs → freep st = f.1 → (∀ y, y ∈ x :: W → y ∈ nodes bs) → linked (hdrs st) f.1 (x :: W) →
  f.1 ∉ W.*1 → (length W < fuel)%nat →
  (∃ a b, adjacent st bs a b ∧ n <= b.2 ∧ malloc_loop grows fuel n x.1 (nxt f.1 W) st = Some (take_block n a.1 b.1 st)) ∨
  (Forall (λ y, y.2 < n) (f :: W) ∧
   malloc_loop grows fuel n x.1 (nxt f.1 W) st =
     (r ← morecore grows n st;
      if r.1 =? 0 then Some (0, r.2) else malloc_loop grows (fuel - length W - 1) n r.1 (ptr r.2 r.1) r.2)).
Proof.
  intros Hr Hf Hfr. revert x fuel. induction W as [| y W IH]; intros x fuel Hin Hl Hn Hfuel; (destruct fuel as [| fuel]; [cbn in Hfuel; lia |]);
    destruct Hl as [Hx Hl]; cbn [malloc_loop nxt].
  - destruct Hr as [Hlr _]. destruct (linked_lookup _ _ _ f Hlr Hf) as [w Hw].
    assert (size st f.1 = f.2) as -> by (unfold size, geth; by rewrite Hw). destruct (Z.leb_spec n f.2) as [Hle | Hgt].
    + left. exists x, f. split; [| done]. split_and!; [apply Hin; set_solver | done | exact Hx].
    + right. split; [by repeat constructor |]. rewrite Hfr, Z.eqb_refl. cbn [length]. by rewrite Nat.sub_0_r, Nat.sub_succ, Nat.sub_0_r.
  - destruct Hl as [Hy Hl]. assert (size st y.1 = y.2 ∧ ptr st y.1 = nxt f.1 W) as [-> ->] by (unfold size, ptr, geth; by rewrite Hy).
    destruct (Z.leb_spec n y.2) as [Hle | Hgt].
    + left. exists x, y. split; [| done]. split_and!; [apply Hin; set_solver | apply Hin; set_solver | exact Hx].
    + rewrite Hfr, (proj2 (Z.eqb_neq y.1 f.1)) by (cbn in Hn; set_solver).
      destruct (IH y fuel) as [H | [Hall H]]; [set_solver | by split | cbn in Hn; set_solver | cbn in Hfuel; lia | by left |].
      right. apply Forall_cons in Hall as [Hf2 Hall]. split; [by repeat constructor |]. exact H.
Qed.

(** Once round the circle. *)
Lemma malloc_round st bs A n fuel :
  heap_ok st bs A → 0 < n → (length bs < fuel)%nat →
  (∃ q st' bs', malloc_loop grows fuel n (freep st) (ptr st (freep st)) st = Some (q, st') ∧ heap_ok st' bs' ((q - HDR, n) :: A)) ∨
  (Forall (λ y, y.2 < n) bs ∧
   malloc_loop grows fuel n (freep st) (ptr st (freep st)) st =
     (r ← morecore grows n st;
      if r.1 =? 0 then Some (0, r.2) else malloc_loop grows (fuel - length bs - 1) n r.1 (ptr r.2 r.1) r.2)).
Proof.
  intros Hok Hn Hfuel. pose proof (hk_ring _ _ _ Hok) as Hr. pose proof (ring_nodup _ _ Hr) as Hnd.
  pose proof (hk_freep _ _ _ Hok) as Hfp. apply list_elem_of_fmap in Hfp as (f & Ef & Hf). pose proof Hf as Hf'.
  apply list_elem_of_split in Hf' as (u & v & Eu). pose proof (rotate st bs f u v Hr Eu) as Hl.
  assert (nodes bs ≡ₚ f :: v ++ u) as Hperm by (rewrite Eu; rewrite Permutation_app_comm; done).
  assert (length (v ++ u) = length bs) as Hlen by (apply Permutation_length in Hperm; cbn in Hperm; lia).
  destruct (ring_ptr st bs u f v Hr Eu) as [_ _].
  assert (ptr st (freep st) = nxt f.1 (v ++ u)) as -> by (rewrite Ef; unfold ptr, geth; by rewrite (proj1 Hl)).
  rewrite Ef. destruct (malloc_search st bs f n (v ++ u) f fuel) as [(a & b & Hadj & Hb & E) | [Hall E]]; [done | done | done | | done | | lia | |].
  - intros y Hy. by rewrite Hperm.
  - rewrite Hperm in Hnd. cbn in Hnd. by apply NoDup_cons in Hnd as [H _].
  - left. destruct (take_block_f st bs A a b n Hok Hadj ltac:(lia)) as (q & st' & bs' & Et & Hok' & _). exists q, st', bs'. by rewrite E, Et.
  - right. rewrite Hlen in E. split; [| exact E]. rewrite <- Hperm in Hall. by apply Forall_cons in Hall as [_ H].
Qed.

Lemma freep_not_null st bs A : heap_ok st bs A → 0 < base_at → freep st ≠ 0.
Proof.
  intros [[_ Ha] Hf] Hbase. apply list_elem_of_fmap in Hf as (f & -> & Hf).
  apply elem_of_cons in Hf as [-> | Hf]; [cbn; lia |]. apply (asc_elem _ _ _ Ha) in Hf. unfold HDR in *. lia.
Qed.

Lemma malloc_f st bs A nbytes :
  heap_ok st bs A → 0 < base_at → 0 <= nbytes < 2 ^ 31 - 2 * HDR →
  ∃ q st', malloc base_at grows nbytes st = Some (q, st') ∧
    (q = 0 ∧ grows (ubrk st) (HDR * Z.max 4096 (units nbytes)) = false ∧ heap_ok st' bs A ∨ ∃ bs', heap_ok st' bs' ((q - HDR, units nbytes) :: A)).
Proof.
  intros Hok Hbase Hnb. unfold malloc. set (n := units nbytes).
  assert (0 < n ∧ HDR * n < 2 ^ 31) as [Hn Hn2].
  { unfold n, units, HDR in *. pose proof (Z.div_pos (nbytes + 16 - 1) 16). pose proof (Z.mul_div_le (nbytes + 16 - 1) 16). rewrite u32_small; lia. }
  rewrite (proj2 (Z.eqb_neq _ _)) by (by eapply freep_not_null). pose proof (ring_rounds _ _ (hk_ring _ _ _ Hok)) as Hrd.
  destruct (malloc_round st bs A n (2 * rounds st + 2) Hok Hn ltac:(lia)) as [(q & st' & bs' & E & H) | [_ E]]; [by eauto 10 |].
  rewrite E. destruct (morecore_f st bs A n Hok Hn Hn2) as [[-> Hg] | (st1 & bs1 & -> & Hok1 & Hlen & x & Hx & Hx2)]; cbn [mbind option_bind fst snd].
  { exists 0, st. split; [done |]. by left. }
  rewrite (proj2 (Z.eqb_neq (freep st1) 0)) by (by eapply freep_not_null).
  destruct (malloc_round st1 bs1 A n (2 * rounds st + 2 - length bs - 1) Hok1 Hn ltac:(lia)) as [(q & st' & bs' & E' & H) | [Hall _]]; [by eauto 10 |].
  rewrite Forall_forall in Hall. specialize (Hall x Hx). cbn in Hall. lia.
Qed.

(** ** Any use of the allocator *)

Lemma pairwise_perm l1 l2 : l1 ≡ₚ l2 → pairwise l1 → pairwise l2.
Proof.
  induction 1 as [| x l l' Hp IH | x y l | l l' l'' _ IH1 _ IH2]; cbn; [done | | | auto].
  - intros [Hx Hl]. split; [by rewrite <- Hp | auto].
  - rewrite !Forall_cons. intros ((Hxy & Hx) & Hy & Hl). split_and!; [by apply disj_sym | done..].
Qed.

Lemma heap_ok_perm st bs A A' : A ≡ₚ A' → heap_ok st bs A → heap_ok st bs A'.
Proof.
  intros Hp [Hr Hf Hal Hsep Hpair Htop Hbrk Hsum]. split; [done | done | | | by eapply pairwise_perm | | done |].
  - intros x. rewrite <- Hp. apply Hal.
  - intros x. rewrite <- Hp. apply Hsep.
  - intros x. rewrite <- Hp. apply Htop.
  - rewrite <- Hsum. do 2 f_equal. clear -Hp. induction Hp; cbn; unfold total in *; lia.
Qed.

(** The states of a process that has used the allocator as it should, with the
    blocks it holds. *)
Inductive reach : ustate → list blk → Prop :=
  | reach_start h : reach (UState h 0 start) []
  | reach_malloc st A nbytes q st' :
      reach st A → 0 <= nbytes < 2 ^ 31 - 2 * HDR → malloc base_at grows nbytes st = Some (q, st') → q ≠ 0 →
      reach st' ((q - HDR, units nbytes) :: A)
  | reach_full st A nbytes st' :
      reach st A → 0 <= nbytes < 2 ^ 31 - 2 * HDR → malloc base_at grows nbytes st = Some (0, st') → reach st' A
  | reach_free st A1 b A2 st' :
      reach st (A1 ++ b :: A2) → free (b.1 + HDR) st = Some st' → reach st' (A1 ++ A2).

Definition heap_inv (st : ustate) (A : list blk) : Prop :=
  (freep st = 0 ∧ A = [] ∧ ubrk st = start) ∨ ∃ bs, heap_ok st bs A.

(** The state [malloc] works on. *)
Definition opened (st : ustate) : ustate :=
  if freep st =? 0 then set_freep base_at (seth base_at (Hdr base_at 0) st) else st.

Lemma malloc_opened st nbytes : 0 < base_at → malloc base_at grows nbytes st = malloc base_at grows nbytes (opened st).
Proof.
  intros Hb. unfold malloc, opened. destruct (Z.eqb_spec (freep st) 0) as [E | Hne].
  - cbn [freep set_freep]. by rewrite (proj2 (Z.eqb_neq base_at 0)) by lia.
  - by rewrite (proj2 (Z.eqb_neq _ _)).
Qed.

Lemma opened_brk st : ubrk (opened st) = ubrk st.
Proof. unfold opened. by destruct (_ =? _). Qed.

Lemma opened_ok st A :
  0 < base_at → base_at + HDR <= start < 2 ^ 31 → heap_inv st A → ∃ bs, heap_ok (opened st) bs A.
Proof.
  intros Hb Hs [(Hf & -> & Hu) | [bs Hok]].
  - exists []. unfold opened. rewrite Hf. cbn. split; cbn; rewrite ?Hu; try done; try set_solver; try lia.
    split; [| done]. cbn. rewrite lookup_insert_eq. done.
  - exists bs. unfold opened. by rewrite (proj2 (Z.eqb_neq _ _)) by (by eapply freep_not_null).
Qed.

Lemma malloc_inv st A nbytes :
  0 < base_at → base_at + HDR <= start < 2 ^ 31 → heap_inv st A → 0 <= nbytes < 2 ^ 31 - 2 * HDR →
  ∃ q st', malloc base_at grows nbytes st = Some (q, st') ∧
    (q = 0 ∧ grows (ubrk st) (HDR * Z.max 4096 (units nbytes)) = false ∧ heap_inv st' A ∨ q ≠ 0 ∧ heap_inv st' ((q - HDR, units nbytes) :: A)).
Proof.
  intros Hb Hs Hinv Hn. destruct (opened_ok st A Hb Hs Hinv) as [bs Hok].
  destruct (malloc_f _ bs A nbytes Hok Hb Hn) as (q & st' & E & H). exists q, st'. rewrite malloc_opened by done. split; [done |].
  destruct H as [(-> & Hg & H) | [bs' H]]; [left; rewrite opened_brk in Hg; split_and!; [done | done | right; by eexists] | right]. split; [| right; by eexists].
  destruct (hk_alloc _ _ _ H (q - HDR, units nbytes)) as (H1 & _); [set_solver |]. unfold HDR in *. cbn in H1. lia.
Qed.

Lemma free_inv st A1 b A2 :
  heap_inv st (A1 ++ b :: A2) → ∃ st', free (b.1 + HDR) st = Some st' ∧ heap_inv st' (A1 ++ A2).
Proof.
  intros [(_ & Hnil & _) | [bs Hok]]; [by destruct A1 |]. apply (heap_ok_perm _ _ _ (b :: A1 ++ A2)) in Hok; [| by rewrite Permutation_middle].
  destruct (free_f _ _ _ _ Hok) as (st' & bs' & E & Hok' & _). exists st'. split; [done |]. right. by eexists.
Qed.

Lemma reach_inv st A : 0 < base_at → base_at + HDR <= start < 2 ^ 31 → reach st A → heap_inv st A.
Proof.
  intros Hb Hs. induction 1 as [h | st A nbytes q st' _ IH Hn E Hq | st A nbytes st' _ IH Hn E | st A1 b A2 st' _ IH E]; [by left | | |].
  - destruct (malloc_inv st A nbytes Hb Hs IH Hn) as (q' & st2 & E' & H). rewrite E in E'. injection E' as <- <-. naive_solver.
  - destruct (malloc_inv st A nbytes Hb Hs IH Hn) as (q' & st2 & E' & H). rewrite E in E'. injection E' as <- <-. naive_solver.
  - destruct (free_inv st A1 b A2 IH) as (st2 & E' & H). rewrite E in E'. by injection E' as <-.
Qed.

Lemma units_enough nbytes : 0 <= nbytes < 2 ^ 31 - 2 * HDR → HDR + nbytes <= HDR * units nbytes.
Proof.
  intros Hn. unfold units, HDR in *.
  pose proof (Z.div_pos (nbytes + 16 - 1) 16). pose proof (Z.div_mod (nbytes + 16 - 1) 16). pose proof (Z.mod_pos_bound (nbytes + 16 - 1) 16).
  rewrite u32_small; lia.
Qed.

(** A new block: it has the size asked for, inside the memory of the process and
    clear of the blocks already held. *)
Lemma new_block st A q nbytes :
  0 <= nbytes < 2 ^ 31 - 2 * HDR → heap_inv st ((q - HDR, units nbytes) :: A) →
  size st (q - HDR) = units nbytes ∧ q + nbytes <= ubrk st ∧ ∀ b, b ∈ A → bend b <= q - HDR ∨ q + nbytes <= b.1.
Proof.
  intros Hn [(_ & ? & _) | [bs Hok]]; [done |]. pose proof (units_enough nbytes Hn) as Hu.
  destruct (hk_alloc _ _ _ Hok (q - HDR, units nbytes)) as (_ & _ & w & Hw); [set_solver |]. cbn in Hw.
  pose proof (hk_top _ _ _ Hok (q - HDR, units nbytes) ltac:(set_solver)) as Ht. unfold bend in Ht. cbn in Ht. split_and!.
  - unfold size, geth. by rewrite Hw.
  - lia.
  - intros b Hb. destruct (hk_pair _ _ _ Hok) as [Hd _]. rewrite Forall_forall in Hd. specialize (Hd b Hb). unfold disj, bend in *. cbn in Hd. lia.
Qed.

End umalloc.

(** ** An instance

    A process that has asked for 100 and 50 bytes and returned the first block:
    the next [malloc] does not fail, and the block it still holds can be freed. *)

Definition grows_to_128M (b n : Z) : bool := b + n <? 2 ^ 27.

Definition used : option (Z * Z * ustate) :=
  '(p, s1) ← malloc 0x1000 grows_to_128M 100 (UState ∅ 0 0x5000);
  '(q, s2) ← malloc 0x1000 grows_to_128M 50 s1;
  s3 ← free p s2;
  Some (p, q, s3).

Lemma used_ok :
  ∃ p q st, used = Some (p, q, st) ∧ p ≠ 0 ∧ q ≠ 0 ∧ grows_to_128M (ubrk st) (HDR * Z.max 4096 (units 200)) = true.
Proof.
  assert (match used with
          | Some (p, q, st) => negb (p =? 0) && negb (q =? 0) && grows_to_128M (ubrk st) (HDR * Z.max 4096 (units 200))
          | None => false
          end = true) as H by (vm_compute; reflexivity).
  destruct used as [[[p q] st] |]; [| done]. apply andb_true_iff in H as [[Hp Hq]%andb_true_iff H]. exists p, q, st. split_and!; [done | lia..| done].
Qed.

Lemma used_reach st p q :
  used = Some (p, q, st) → p ≠ 0 → q ≠ 0 → reach 0x1000 0x5000 grows_to_128M st [(q - HDR, units 50)].
Proof.
  unfold used. intros H Hp Hq. apply bind_Some in H as ([p' s1] & E1 & H). apply bind_Some in H as ([q' s2] & E2 & H).
  apply bind_Some in H as (s3 & E3 & H). injection H as -> -> ->.
  apply (reach_free _ _ _ s2 [(q - HDR, units 50)] (p - HDR, units 100) []).
  - eapply reach_malloc; [eapply reach_malloc; [apply reach_start | | exact E1 | done] | | exact E2 | done]; unfold HDR; lia.
  - cbn [fst]. by replace (p - HDR + HDR) with p by lia.
Qed.

