(* ===== verification/Sh.v ===== *)
(** * The shell (user/sh.c)

    The parser, on the line without its NUL; a [char *] into the line is the
    string it points to.  And [runcmd], as the system calls it makes. *)

From S2P Require Import Prelude Abi Printf User.

(** ** Commands *)

Definition MAXARGS : nat := 10.

(** The arguments of [EXEC] are [argv[i]] and [eargv[i]]. *)
Inductive cmd :=
  | EXEC (argv : list (list Z * list Z))
  | REDIR (c : cmd) (file efile : list Z) (mode fd : Z)
  | PIPE (left right : cmd)
  | LIST (left right : cmd)
  | BACK (c : cmd).

(** ** Tokens *)

Definition whitespace : list Z := [32; 9; 13; 10; 11].
Definition symbols : list Z := chars "<|>&;()".

Definition is_space (c : Z) : bool := bool_decide (c ∈ whitespace).
Definition is_symbol (c : Z) : bool := bool_decide (c ∈ symbols).

(** [while(s < es && strchr(whitespace, *s)) s++] *)
Fixpoint skip_space (s : list Z) : list Z :=
  match s with
  | c :: s' => if is_space c then skip_space s' else s
  | [] => []
  end.

(** [while(s < es && !strchr(whitespace, *s) && !strchr(symbols, *s)) s++] *)
Fixpoint skip_word (s : list Z) : list Z :=
  match s with
  | c :: s' => if negb (is_space c) && negb (is_symbol c) then skip_word s' else s
  | [] => []
  end.

Definition TOK_WORD : Z := 97.   (* 'a' *)
Definition TOK_APPEND : Z := 43. (* '+' *)

(** The token, [q], [eq], and the new [*ps]. *)
Definition gettoken (ps : list Z) : Z * list Z * list Z * list Z :=
  let q := skip_space ps in
  let '(ret, eq) :=
    match q with
    | [] => (0, q)
    | c :: s =>
        if c =? 62 (* > *) then
          match s with
          | d :: s' => if d =? 62 then (TOK_APPEND, s') else (c, s)
          | [] => (c, s)
          end
        else if is_symbol c then (c, s)
        else (TOK_WORD, skip_word q)
    end in
  (ret, q, eq, skip_space eq).

(** Whether one of [toks] comes next, and the new [*ps]. *)
Definition peek (toks : list Z) (ps : list Z) : bool * list Z :=
  let s := skip_space ps in
  (match s with c :: _ => bool_decide (c ∈ toks) | [] => false end, s).

(** ** Parsing *)

(** A result and the new [*ps]; or [panic], after writing [pre]. *)
Inductive pres (A : Type) :=
  | POk (a : A) (ps : list Z)
  | PPanic (pre : list Z) (msg : string)
  | PFuel.
Arguments POk {A} _ _.
Arguments PPanic {A} _ _.
Arguments PFuel {A}.

Definition pbind {A B} (r : pres A) (k : A → list Z → pres B) : pres B :=
  match r with POk a ps => k a ps | PPanic p m => PPanic p m | PFuel => PFuel end.

(** A redirection: its file and the end of it, mode and file descriptor. *)
Abbreviation redir := (list Z * list Z * Z * Z)%type.

Definition redircmd (c : cmd) (r : redir) : cmd := let '(f, e, m, fd) := r in REDIR c f e m fd.

(** [parseredirs] wraps the command it is given; it is written as the list of
    redirections it wraps around it, the first one innermost.  Each takes at
    least a character. *)
Fixpoint parseredirs (fuel : nat) (rs : list redir) (ps : list Z) : pres (list redir) :=
  let '(b, ps) := peek (chars "<>") ps in
  if negb b then POk rs ps
  else
    match fuel with
    | O => PFuel
    | S fuel =>
        let '(tok, _, _, ps) := gettoken ps in
        let '(tok2, q, eq, ps) := gettoken ps in
        if negb (tok2 =? TOK_WORD) then PPanic [] "missing file for redirection"
        else
          parseredirs fuel
            (rs ++ if tok =? 60 (* < *) then [(q, eq, O_RDONLY, 0)]
                   else if tok =? 62 (* > *) then [(q, eq, Z.lor (Z.lor O_WRONLY O_CREATE) O_TRUNC, 1)]
                   else if tok =? TOK_APPEND then [(q, eq, Z.lor O_WRONLY O_CREATE, 1)]
                   else []) ps
    end.

(** The loop of [parseexec]: the arguments and the redirections so far. *)
Fixpoint parseargs (fuel : nat) (argv : list (list Z * list Z)) (rs : list redir) (ps : list Z)
  : pres (list (list Z * list Z) * list redir) :=
  let '(b, ps) := peek (chars "|)&;") ps in
  if b then POk (argv, rs) ps
  else
    let '(tok, q, eq, ps) := gettoken ps in
    if tok =? 0 then POk (argv, rs) ps
    else
      match fuel with
      | O => PFuel
      | S fuel =>
          if negb (tok =? TOK_WORD) then PPanic [] "syntax"
          else
            let argv := argv ++ [(q, eq)] in
            if (MAXARGS <=? length argv)%nat then PPanic [] "too many args"
            else pbind (parseredirs (length ps) rs ps) (λ rs ps, parseargs fuel argv rs ps)
      end.

(** [while(peek(ps, es, "&"))] of [parseline] *)
Fixpoint parsebacks (fuel : nat) (c : cmd) (ps : list Z) : pres cmd :=
  let '(b, ps) := peek (chars "&") ps in
  if negb b then POk c ps
  else
    match fuel with
    | O => PFuel
    | S fuel => let '(_, _, _, ps) := gettoken ps in parsebacks fuel (BACK c) ps
    end.

Fixpoint parseline (fuel : nat) (ps : list Z) : pres cmd :=
  match fuel with
  | O => PFuel
  | S fuel =>
      pbind (parsepipe fuel ps) (λ c ps,
      pbind (parsebacks (length ps) c ps) (λ c ps,
      let '(b, ps) := peek (chars ";") ps in
      if b then
        let '(_, _, _, ps) := gettoken ps in
        pbind (parseline fuel ps) (λ r ps, POk (LIST c r) ps)
      else POk c ps))
  end
with parsepipe (fuel : nat) (ps : list Z) : pres cmd :=
  match fuel with
  | O => PFuel
  | S fuel =>
      pbind (parseexec fuel ps) (λ c ps,
      let '(b, ps) := peek (chars "|") ps in
      if b then
        let '(_, _, _, ps) := gettoken ps in
        pbind (parsepipe fuel ps) (λ r ps, POk (PIPE c r) ps)
      else POk c ps)
  end
with parseexec (fuel : nat) (ps : list Z) : pres cmd :=
  match fuel with
  | O => PFuel
  | S fuel =>
      let '(b, ps) := peek (chars "(") ps in
      if b then parseblock fuel ps
      else
        pbind (parseredirs (length ps) [] ps) (λ rs ps,
        pbind (parseargs (length ps) [] rs ps) (λ ar ps,
        POk (foldl redircmd (EXEC ar.1) ar.2) ps))
  end
with parseblock (fuel : nat) (ps : list Z) : pres cmd :=
  match fuel with
  | O => PFuel
  | S fuel =>
      let '(b, ps) := peek (chars "(") ps in
      if negb b then PPanic [] "parseblock"
      else
        let '(_, _, _, ps) := gettoken ps in
        pbind (parseline fuel ps) (λ c ps,
        let '(b, ps) := peek (chars ")") ps in
        if negb b then PPanic [] "syntax - missing )"
        else
          let '(_, _, _, ps) := gettoken ps in
          pbind (parseredirs (length ps) [] ps) (λ rs ps, POk (foldl redircmd c rs) ps))
  end.

(** ** Ending the strings *)

(** [*e = 0], where [e] points into the line of length [n]. *)
Definition nul_at (n : nat) (e : list Z) (buf : list Z) : list Z := <[(n - length e)%nat := 0]> buf.

(** NUL-terminate all the counted strings of a line of length [n]; [buf] has the
    line and its NUL. *)
Fixpoint nulterminate (n : nat) (c : cmd) (buf : list Z) : list Z :=
  match c with
  | EXEC argv => foldl (λ b a, nul_at n a.2 b) buf argv
  | REDIR c _ efile _ _ => nul_at n efile (nulterminate n c buf)
  | PIPE l r | LIST l r => nulterminate n r (nulterminate n l buf)
  | BACK c => nulterminate n c buf
  end.

(** A turn of the mutual recursion for each of the four functions and each
    character. *)
Definition parse_fuel (ps : list Z) : nat := 4 * length ps + 4.

(** The command, and the line with the NULs. *)
Definition parsecmd (s : list Z) : pres (cmd * list Z) :=
  pbind (parseline (parse_fuel s) s) (λ c ps,
  let '(_, ps) := peek [] ps in
  match ps with
  | [] => POk (c, nulterminate (length s) c (s ++ [0])) ps
  | _ => PPanic (uprintf (line "leftovers: %s") [S_ ps]) "syntax"
  end).

(** ** Running *)

(** The C string at a place of memory. *)
Fixpoint cstr (m : list Z) : list Z :=
  match m with
  | c :: m' => if c =? 0 then [] else c :: cstr m'
  | [] => []
  end.

(** The C string at [q], which points into the line of length [n], now [buf]. *)
Definition at_ptr (n : nat) (buf q : list Z) : list Z := cstr (drop (n - length q) buf).

Definition panic {A} (s : string) : prog A := fprintf 2 (line "%s") [S_ (chars s)] ;;; exit 1.

(** Fork but panics on failure. *)
Definition fork1 : prog Z :=
  pid <-- sys s_fork ;;;
  if pid =? -1 then panic "fork" else Ret pid.

(** Execute cmd.  Never returns.  [str q] is the string at [q]. *)
Fixpoint runcmd (str : list Z → list Z) (c : cmd) : prog Empty_set :=
  match c with
  | EXEC [] => exit 1
  | EXEC (((a, _) :: _) as argv) =>
      sys (s_exec (str a) ((λ p, str p.1) <$> argv)) ;;;
      fprintf 2 (line "exec %s failed") [S_ (str a)] ;;;
      exit 0
  | REDIR c file _ mode fd =>
      sys (s_close fd) ;;;
      r <-- sys (s_open (str file) mode) ;;;
      if r <? 0 then
        fprintf 2 (line "open %s failed") [S_ (str file)] ;;;
        exit 1
      else runcmd str c
  | LIST lc rc =>
      pid <-- fork1 ;;;
      if pid =? 0 then runcmd str lc
      else
        sys s_wait ;;;
        runcmd str rc
  | PIPE lc rc =>
      p <-- sys s_pipe ;;;
      match p with
      | None => panic "pipe"
      | Some (p0, p1) =>
          pid <-- fork1 ;;;
          if pid =? 0 then
            sys (s_close 1) ;;;
            sys (s_dup p1) ;;;
            sys (s_close p0) ;;;
            sys (s_close p1) ;;;
            runcmd str lc
          else
            pid <-- fork1 ;;;
            if pid =? 0 then
              sys (s_close 0) ;;;
              sys (s_dup p0) ;;;
              sys (s_close p0) ;;;
              sys (s_close p1) ;;;
              runcmd str rc
            else
              sys (s_close p0) ;;;
              sys (s_close p1) ;;;
              sys s_wait ;;;
              sys s_wait ;;;
              exit 0
      end
  | BACK c =>
      pid <-- fork1 ;;;
      if pid =? 0 then runcmd str c else exit 0
  end.

(** [runcmd(parsecmd(buf))] *)
Definition run_line (s : list Z) : prog Empty_set :=
  match parsecmd s with
  | POk (c, buf) _ => runcmd (at_ptr (length s) buf) c
  | PPanic pre msg => putcs 2 pre ;;; panic msg
  | PFuel => OutOfFuel
  end.

(** The line, or [None] at the end of the input. *)
Definition getcmd (nbuf : Z) : prog (option (list Z)) :=
  fprintf 2 (chars "$ ") [] ;;;
  buf <-- gets nbuf ;;;
  match cstr buf with
  | [] => Ret None
  | s => Ret (Some s)
  end.

(** [while((fd = open("console", O_RDWR)) >= 0)]: there are [NOFILE]
    descriptors. *)
Fixpoint open_console (fuel : nat) : prog () :=
  match fuel with
  | O => OutOfFuel
  | S fuel =>
      fd <-- sys (s_open (chars "console") O_RDWR) ;;;
      if fd <? 0 then Ret tt
      else if 3 <=? fd then sys (s_close fd) ;;; Ret tt
      else open_console fuel
  end.

(** Whether the line begins with "cd ", and what follows it without the last
    character of the line. *)
Definition cd_arg (buf : list Z) : option (list Z) :=
  if bool_decide (take 3 buf = chars "cd ") then Some (drop 3 (take (length buf - 1) buf)) else None.

(** Read and run input commands. *)
Fixpoint sh_loop (fuel : nat) : prog Empty_set :=
  match fuel with
  | O => OutOfFuel
  | S fuel =>
      buf <-- getcmd 100 ;;;
      match buf with
      | None => exit 0
      | Some buf =>
          match cd_arg buf with
          | Some dir =>
              r <-- sys (s_chdir dir) ;;;
              (if r <? 0 then fprintf 2 (line "cannot cd %s") [S_ dir] else Ret tt) ;;;
              sh_loop fuel
          | None =>
              pid <-- fork1 ;;;
              if pid =? 0 then run_line buf
              else
                sys s_wait ;;;
                sh_loop fuel
          end
      end
  end.

Definition sh_main (fuel : nat) : prog Empty_set :=
  open_console fuel ;;;
  sh_loop fuel.
