(* ===== verification/ShSpec.v ===== *)
(** * The shell's parser returns, and reads what it should

    The parser ends on every line; and it is the inverse of printing commands
    with the operators' precedences. *)

From S2P Require Import Prelude Abi Printf User Sh.

(** ** Every line is parsed or refused *)

(** The parse ended, with no more than [n] characters left. *)
Definition ended {A} (n : nat) (r : pres A) : Prop :=
  match r with POk _ ps => (length ps <= n)%nat | PPanic _ _ => True | PFuel => False end.

Lemma ended_bind {A B} n m (r : pres A) (k : A → list Z → pres B) :
  ended n r → (∀ a ps, (length ps <= n)%nat → ended m (k a ps)) → ended m (pbind r k).
Proof. destruct r; cbn; auto. Qed.

Lemma ended_le {A} n m (r : pres A) : ended n r → (n <= m)%nat → ended m r.
Proof. destruct r; cbn; auto. lia. Qed.

Lemma skip_space_len s : (length (skip_space s) <= length s)%nat.
Proof. induction s as [| c s IH]; [done |]. cbn. destruct (is_space c); cbn; lia. Qed.

Lemma skip_word_len s : (length (skip_word s) <= length s)%nat.
Proof. induction s as [| c s IH]; [done |]. cbn. destruct (_ && _); cbn; lia. Qed.

Lemma skip_space_idem s : skip_space (skip_space s) = skip_space s.
Proof. induction s as [| c s IH]; [done |]. cbn. destruct (is_space c) eqn:E; [done |]. cbn. by rewrite E. Qed.

Lemma skip_space_head s c s' : skip_space s = c :: s' → is_space c = false.
Proof. induction s as [| d s IH]; [done |]. cbn. destruct (is_space d) eqn:E; [auto |]. by intros [= <- <-]. Qed.

Lemma gettoken_len s tok q eq ps :
  gettoken s = (tok, q, eq, ps) →
  (length ps <= length s)%nat ∧ (tok = 0 ∨ (length ps < length s)%nat).
Proof.
  unfold gettoken. pose proof (skip_space_len s) as Hs. destruct (skip_space s) as [| c r] eqn:E.
  - intros [= <- <- <- <-]. cbn in *. split; [lia | by left].
  - pose proof (skip_space_head _ _ _ E) as Hc. cbn in Hs.
    assert (∀ e, (length e <= length r)%nat → (length (skip_space e) < length s)%nat) as Hlt by (intros e He; pose proof (skip_space_len e); lia).
    destruct (c =? 62).
    + destruct r as [| d r']; [intros [= <- <- <- <-]; pose proof (Hlt []); cbn in *; split; [lia | right; lia] |].
      destruct (d =? 62); intros [= <- <- <- <-]; [pose proof (Hlt r') as H | pose proof (Hlt (d :: r')) as H];
        cbn [length skip_space] in *; specialize (H ltac:(lia)); split; [lia | right; lia | lia | right; lia].
    + destruct (is_symbol c) eqn:Ey; intros [= <- <- <- <-]; [pose proof (Hlt r); split; [lia | right; lia] |].
      rewrite Hc, Ey. cbn [negb andb].
      pose proof (Hlt (skip_word r) (skip_word_len r)). split; [lia | right; lia].
Qed.

Lemma peek_len toks s b ps : peek toks s = (b, ps) → (length ps <= length s)%nat ∧ (b = true → ∃ c ps', ps = c :: ps' ∧ c ∈ toks ∧ skip_space ps = ps).
Proof.
  unfold peek. intros [= <- <-]. split; [apply skip_space_len |]. intros Hb. destruct (skip_space s) as [| c r] eqn:E; [done |].
  exists c, r. split_and!; [done | by apply bool_decide_eq_true in Hb |]. rewrite <- E. apply skip_space_idem.
Qed.

(** A symbol that has been seen is a token. *)
Lemma gettoken_symbol c r tok q eq ps :
  is_symbol c = true → is_space c = false → gettoken (c :: r) = (tok, q, eq, ps) → (length ps < length (c :: r))%nat.
Proof.
  intros Hy Hs E. apply gettoken_len in E as E'. destruct E' as [_ [-> | H]]; [| done].
  unfold gettoken in E. cbn in E. rewrite Hs in E. destruct (Z.eqb_spec c 62) as [-> | _].
  - destruct r as [| d r]; [by injection E |]. by destruct (d =? 62); injection E.
  - rewrite Hy in E. injection E as -> _ _ _. done.
Qed.

Lemma peeked_token toks s ps tok q eq ps' :
  peek toks s = (true, ps) → gettoken ps = (tok, q, eq, ps') → (∀ c, c ∈ toks → is_symbol c = true) → (length ps' < length ps)%nat.
Proof.
  intros Hp Hg Hall. apply peek_len in Hp as [_ H]. destruct (H eq_refl) as (c & r & -> & Hc & Hsk).
  apply (gettoken_symbol c r tok q eq); [by apply Hall | | done]. cbn in Hsk. destruct (is_space c) eqn:E; [| done].
  pose proof (skip_space_len r) as Hl. rewrite Hsk in Hl. cbn in Hl. lia.
Qed.

Ltac is_sym := let c := fresh in let Hc := fresh in intros c Hc; apply bool_decide_eq_true; revert c Hc; apply (proj1 (Forall_forall _ _)); apply (bool_decide_unpack _); vm_compute; exact I.

Lemma parseredirs_ended fuel rs ps : (length ps <= fuel)%nat → ended (length ps) (parseredirs fuel rs ps).
Proof.
  revert rs ps. induction fuel as [| fuel IH]; intros rs ps Hf; cbn [parseredirs]; destruct (peek (chars "<>") ps) as [b p1] eqn:Ep;
    pose proof (peek_len _ _ _ _ Ep) as [Hl Hb]; (destruct b; cbn [negb]; [| done]).
  - destruct (Hb eq_refl) as (c & r & -> & _). cbn in *. lia.
  - destruct (gettoken p1) as [[[tok q] eq] p2] eqn:E1. pose proof (peeked_token _ _ _ _ _ _ _ Ep E1 ltac:(is_sym)) as H1.
    destruct (gettoken p2) as [[[tok2 q2] eq2] p3] eqn:E2. apply gettoken_len in E2 as [H2 _].
    destruct (negb (tok2 =? TOK_WORD)); [done |]. eapply ended_le; [apply IH; lia | lia].
Qed.

Lemma parseargs_ended fuel argv rs ps : (length ps <= fuel)%nat → ended (length ps) (parseargs fuel argv rs ps).
Proof.
  revert argv rs ps. induction fuel as [| fuel IH]; intros argv rs ps Hf; cbn [parseargs]; destruct (peek (chars "|)&;") ps) as [b p1] eqn:Ep;
    pose proof (peek_len _ _ _ _ Ep) as [Hl Hb]; (destruct b; [done |]); destruct (gettoken p1) as [[[tok q] eq] p2] eqn:E1;
    pose proof (gettoken_len _ _ _ _ _ E1) as [H1 H2]; (destruct (Z.eqb_spec tok 0); [cbn; lia |]); (destruct H2 as [H2 | H2]; [done |]).
  - lia.
  - destruct (negb (tok =? TOK_WORD)); [done |]. destruct (MAXARGS <=? _)%nat; [done |].
    eapply ended_bind; [by apply parseredirs_ended |]. intros rs' p3 H3. eapply ended_le; [apply IH; lia | lia].
Qed.

Lemma parsebacks_ended fuel c ps : (length ps <= fuel)%nat → ended (length ps) (parsebacks fuel c ps).
Proof.
  revert c ps. induction fuel as [| fuel IH]; intros c ps Hf; cbn [parsebacks]; destruct (peek (chars "&") ps) as [b p1] eqn:Ep;
    pose proof (peek_len _ _ _ _ Ep) as [Hl Hb]; (destruct b; cbn [negb]; [| done]).
  - destruct (Hb eq_refl) as (d & r & -> & _). cbn in *. lia.
  - destruct (gettoken p1) as [[[tok q] eq] p2] eqn:E1. pose proof (peeked_token _ _ _ _ _ _ _ Ep E1 ltac:(is_sym)) as H1.
    eapply ended_le; [apply IH; lia | lia].
Qed.

Lemma parse_ended fuel :
  (∀ ps, (4 * length ps + 4 <= fuel)%nat → ended (length ps) (parseline fuel ps)) ∧
  (∀ ps, (4 * length ps + 3 <= fuel)%nat → ended (length ps) (parsepipe fuel ps)) ∧
  (∀ ps, (4 * length ps + 2 <= fuel)%nat → ended (length ps) (parseexec fuel ps)) ∧
  (∀ ps, (4 * length ps + 1 <= fuel)%nat → ended (length ps) (parseblock fuel ps)).
Proof.
  induction fuel as [| fuel (IHl & IHp & IHe & IHb)]; [split_and!; intros; lia |].
  split_and!; intros ps Hf; cbn [parseline parsepipe parseexec parseblock].
  - eapply ended_bind; [apply IHp; lia |]. intros c p1 H1. eapply ended_bind; [by apply parsebacks_ended |]. intros c2 p2 H2.
    destruct (peek (chars ";") p2) as [b p3] eqn:Ep. pose proof (peek_len _ _ _ _ Ep) as [Hl _]. destruct b; [| cbn; lia].
    destruct (gettoken p3) as [[[tok q] eq] p4] eqn:E. pose proof (peeked_token _ _ _ _ _ _ _ Ep E ltac:(is_sym)) as H4.
    eapply ended_bind; [apply IHl; lia |]. intros r p5 H5. cbn. lia.
  - eapply ended_bind; [apply IHe; lia |]. intros c p1 H1.
    destruct (peek (chars "|") p1) as [b p3] eqn:Ep. pose proof (peek_len _ _ _ _ Ep) as [Hl _]. destruct b; [| cbn; lia].
    destruct (gettoken p3) as [[[tok q] eq] p4] eqn:E. pose proof (peeked_token _ _ _ _ _ _ _ Ep E ltac:(is_sym)) as H4.
    eapply ended_bind; [apply IHp; lia |]. intros r p5 H5. cbn. lia.
  - destruct (peek (chars "(") ps) as [b p1] eqn:Ep. pose proof (peek_len _ _ _ _ Ep) as [Hl _]. destruct b.
    + eapply ended_le; [apply IHb; lia | lia].
    + eapply ended_bind; [by apply parseredirs_ended |]. intros rs p2 H2. eapply ended_bind; [by apply parseargs_ended |]. intros ar p3 H3. cbn. lia.
  - destruct (peek (chars "(") ps) as [b p1] eqn:Ep. pose proof (peek_len _ _ _ _ Ep) as [Hl _]. destruct b; cbn [negb]; [| done].
    destruct (gettoken p1) as [[[tok q] eq] p2] eqn:E. pose proof (peeked_token _ _ _ _ _ _ _ Ep E ltac:(is_sym)) as H2.
    eapply ended_bind; [apply IHl; lia |]. intros c p3 H3. destruct (peek (chars ")") p3) as [b2 p4] eqn:Ep2. pose proof (peek_len _ _ _ _ Ep2) as [Hl2 _].
    destruct b2; cbn [negb]; [| done]. destruct (gettoken p4) as [[[tok2 q2] eq2] p5] eqn:E2. apply gettoken_len in E2 as [H5 _].
    eapply ended_bind; [by apply parseredirs_ended |]. intros rs p6 H6. cbn. lia.
Qed.

(** the shell's parser ends on every line, with a command or with one of its
    error messages. *)
Theorem parsecmd_ends s : (∃ c buf, parsecmd s = POk (c, buf) []) ∨ (∃ pre msg, parsecmd s = PPanic pre msg).
Proof.
  unfold parsecmd. destruct (parse_ended (parse_fuel s)) as (H & _). specialize (H s ltac:(unfold parse_fuel; lia)).
  destruct (parseline (parse_fuel s) s) as [c ps | pre msg |]; cbn [pbind]; [unfold peek | right; by eexists _, _ | done].
  destruct (skip_space ps); [left; by eexists _, _ | right; by eexists _, _].
Qed.

(** ** Printing commands *)

Inductive rkind := RIn | ROut | RApp.

(** Commands with their strings. *)
Inductive scmd :=
  | SExec (argv : list (list Z))
  | SRedir (c : scmd) (k : rkind) (file : list Z)
  | SPipe (left right : scmd)
  | SList (left right : scmd)
  | SBack (c : scmd).

Definition SP : Z := 32.

Definition p_word (w : list Z) : list Z := w ++ [SP].

Definition p_redir (r : rkind * list Z) : list Z :=
  (match r.1 with RIn => [60; SP] | ROut => [62; SP] | RApp => [62; 62; SP] end) ++ p_word r.2.

Definition paren (b : bool) (t : list Z) : list Z := if b then [40; SP] ++ t ++ [41; SP] else t.

(** A command where the grammar expects an operand of | (0), a pipeline (1), a
    pipeline with & (2), or a line (3); parentheses where they are needed. *)
Fixpoint print (lv : nat) (c : scmd) : list Z :=
  match c with
  | SExec argv => concat (p_word <$> argv)
  | SRedir c k f => print 0 c ++ p_redir (k, f)
  | SPipe a b => paren (lv <? 1)%nat (print 0 a ++ [124; SP] ++ print 1 b)
  | SBack a => paren (lv <? 2)%nat (print 2 a ++ [38; SP])
  | SList a b => paren (lv <? 3)%nat (print 2 a ++ [59; SP] ++ print 3 b)
  end.

Definition word_char (c : Z) : bool := negb (is_space c) && negb (is_symbol c) && negb (c =? 0).

Definition word_ok (w : list Z) : Prop := w ≠ [] ∧ Forall (λ c, word_char c = true) w.

(** Words of word characters, and fewer arguments than [MAXARGS]. *)
Fixpoint scmd_ok (c : scmd) : Prop :=
  match c with
  | SExec argv => Forall word_ok argv ∧ (length argv < MAXARGS)%nat
  | SRedir c _ f => scmd_ok c ∧ word_ok f
  | SPipe a b | SList a b => scmd_ok a ∧ scmd_ok b
  | SBack a => scmd_ok a
  end.

(** ** What the parser finds *)

(** [q] and [e] point into [s] to the word [w] and the space after it. *)
Definition points (s w q e : list Z) : Prop := q = w ++ e ∧ q `suffix_of` s ∧ head e = Some SP.

Definition mode_of (k : rkind) : Z * Z :=
  match k with
  | RIn => (O_RDONLY, 0)
  | ROut => (Z.lor (Z.lor O_WRONLY O_CREATE) O_TRUNC, 1)
  | RApp => (Z.lor O_WRONLY O_CREATE, 1)
  end.

Definition rep_redir (s : list Z) (r : redir) (p : rkind * list Z) : Prop :=
  points s p.2 r.1.1.1 r.1.1.2 ∧ (r.1.2, r.2) = mode_of p.1.

(** The parsed command [c'] is [c]. *)
Fixpoint rep (s : list Z) (c' : cmd) (c : scmd) : Prop :=
  match c', c with
  | EXEC av, SExec ws => Forall2 (λ a w, points s w a.1 a.2) av ws
  | REDIR c' f e m fd, SRedir c k w => rep s c' c ∧ rep_redir s (f, e, m, fd) (k, w)
  | PIPE a' b', SPipe a b | LIST a' b', SList a b => rep s a' a ∧ rep s b' b
  | BACK a', SBack a => rep s a' a
  | _, _ => False
  end.

(** The string does not begin with a space. *)
Definition nows (s : list Z) : Prop := skip_space s = s.

(** The string is empty or begins with one of [toks]. *)
Definition ends_with (toks s : list Z) : Prop := match s with [] => True | c :: _ => c ∈ toks end.

Lemma symbol_not_space c : is_symbol c = true → is_space c = false.
Proof.
  intros H. apply bool_decide_eq_true in H. revert c H. apply (proj1 (Forall_forall _ _)). apply (bool_decide_unpack _). vm_compute. exact I.
Qed.

Lemma word_char_spec c : word_char c = true → is_space c = false ∧ is_symbol c = false ∧ c ≠ 0.
Proof. unfold word_char. destruct (is_space c), (is_symbol c), (Z.eqb_spec c 0); cbn; intros H; try done. Qed.

Lemma nows_cons c s : is_space c = false → nows (c :: s).
Proof. intros H. unfold nows. cbn. by rewrite H. Qed.

Lemma nows_ends toks s : (∀ c, c ∈ toks → is_symbol c = true) → ends_with toks s → nows s.
Proof. destruct s as [| c s]; intros Ht He; [done |]. apply nows_cons, symbol_not_space, Ht, He. Qed.

Lemma skip_sp s : nows s → skip_space (SP :: s) = s.
Proof. done. Qed.

Lemma skip_word_app w s : Forall (λ c, word_char c = true) w → skip_word (w ++ SP :: s) = SP :: s.
Proof.
  induction 1 as [| c w Hc _ IH]; [done |]. apply word_char_spec in Hc as (H1 & H2 & _). cbn. by rewrite H1, H2.
Qed.

Lemma word_head w s : word_ok w → ∃ c s', w ++ s = c :: s' ∧ word_char c = true.
Proof. intros [Hne Hf]. destruct Hf as [| c w' Hc Hw]; [done |]. exists c, (w' ++ s). split; [reflexivity | exact Hc]. Qed.

Lemma gettoken_word w s :
  word_ok w → nows s → gettoken (w ++ SP :: s) = (TOK_WORD, w ++ SP :: s, SP :: s, s).
Proof.
  intros Hw Hs. pose proof (proj2 Hw) as Hf. destruct (word_head w (SP :: s) Hw) as (c & s' & E & Hc).
  apply word_char_spec in Hc as (H1 & H2 & _). pose proof (skip_word_app w s Hf) as Hsk. unfold gettoken. rewrite E in *.
  cbn [skip_space]. rewrite H1, H2. destruct (Z.eqb_spec c 62) as [-> |]; [done |]. rewrite Hsk. by rewrite skip_sp.
Qed.

Lemma gettoken_sym c s : is_symbol c = true → c ≠ 62 → nows s → gettoken (c :: SP :: s) = (c, c :: SP :: s, SP :: s, s).
Proof.
  intros Hy Hc Hs. unfold gettoken. cbn [skip_space]. rewrite (symbol_not_space c Hy), Hy.
  rewrite (proj2 (Z.eqb_neq c 62)) by done. by rewrite skip_sp.
Qed.

Lemma peek_nows toks s : nows s → peek toks s = (match s with c :: _ => bool_decide (c ∈ toks) | [] => false end, s).
Proof. unfold peek, nows. by intros ->. Qed.

Lemma peek_word toks w s :
  word_ok w → (∀ c, c ∈ toks → is_symbol c = true) → peek toks (w ++ s) = (false, w ++ s).
Proof.
  intros Hw Ht. destruct (word_head w s Hw) as (c & s' & -> & Hc). apply word_char_spec in Hc as (H1 & H2 & _).
  rewrite peek_nows by (by apply nows_cons). f_equal. apply bool_decide_eq_false. intros H%Ht. congruence.
Qed.

Lemma nows_word w s : word_ok w → nows (w ++ s).
Proof. intros Hw. destruct (word_head w s Hw) as (c & s' & -> & Hc). apply nows_cons. by destruct (word_char_spec _ Hc). Qed.

(** ** Redirections and arguments *)

Definition redirs (rs : list (rkind * list Z)) : list Z := concat (p_redir <$> rs).

Definition words (ws : list (list Z)) : list Z := concat (p_word <$> ws).

Lemma redirs_cons p rs : redirs (p :: rs) = p_redir p ++ redirs rs.
Proof. done. Qed.

Lemma words_cons w ws s : words (w :: ws) ++ s = w ++ SP :: words ws ++ s.
Proof. unfold words. cbn. unfold p_word. by rewrite <- !app_assoc. Qed.

Lemma length_redirs rs : (length rs <= length (redirs rs))%nat.
Proof. induction rs as [| [k f] rs IH]; [done |]. rewrite redirs_cons, length_app. unfold p_redir. rewrite length_app. destruct k; cbn; lia. Qed.

Lemma length_words ws s : (length ws <= length (words ws ++ s))%nat.
Proof. induction ws as [| w ws IH]; [cbn; lia |]. rewrite words_cons, length_app. cbn. lia. Qed.

(** No redirection comes next. *)
Definition no_redir (s : list Z) : Prop := nows s ∧ match s with [] => True | c :: _ => c ∉ chars "<>" end.

Lemma nows_redirs rs s : nows s → nows (redirs rs ++ s).
Proof. destruct rs as [| [[] f] rs]; intros H; [done | by apply nows_cons..]. Qed.

Lemma nows_words ws s : Forall word_ok ws → nows s → nows (words ws ++ s).
Proof. destruct 1 as [| w ws Hw _]; intros Hs; [done |]. rewrite words_cons. by apply nows_word. Qed.

Lemma parseredirs_stop fuel rs s : no_redir s → parseredirs fuel rs s = POk rs s.
Proof.
  intros [Hn Hs]. assert (peek (chars "<>") s = (false, s)) as E.
  { rewrite peek_nows by done. destruct s; [done |]. f_equal. by apply bool_decide_eq_false. }
  destruct fuel; cbn [parseredirs]; by rewrite E.
Qed.

Lemma suffix_drop {A} (l1 l2 s : list A) : (l1 ++ l2) `suffix_of` s → l2 `suffix_of` s.
Proof. intros H. eapply suffix_app_l. exact H. Qed.

Lemma suffix_tail {A} (a : A) (l s : list A) : (a :: l) `suffix_of` s → l `suffix_of` s.
Proof. intros [k ->]. exists (k ++ [a]). by rewrite <- app_assoc. Qed.

(** The token of a redirection sign. *)
Definition redir_tok (k : rkind) : Z := match k with RIn => 60 | ROut => 62 | RApp => TOK_APPEND end.

Lemma gettoken_redir k s :
  nows s → ∃ q e, gettoken (match k with RIn => [60; SP] | ROut => [62; SP] | RApp => [62; 62; SP] end ++ s) = (redir_tok k, q, e, s).
Proof.
  intros H. assert (is_space 62 = false ∧ is_space SP = true) as [E1 E2] by (split; reflexivity).
  destruct k; cbn [app]; [eexists _, _; by apply gettoken_sym | |]; eexists _, _; unfold gettoken; cbn [skip_space]; rewrite E1;
    cbn [Z.eqb Pos.eqb SP]; cbn [skip_space]; rewrite ?E2; by rewrite H.
Qed.

Lemma parseredirs_f s rs rs0 r fuel :
  Forall (λ p, word_ok p.2) rs → no_redir r → (length rs <= fuel)%nat → (redirs rs ++ r) `suffix_of` s →
  ∃ rs', parseredirs fuel rs0 (redirs rs ++ r) = POk (rs0 ++ rs') r ∧ Forall2 (rep_redir s) rs' rs.
Proof.
  intros Hw Hr. revert rs0 fuel. induction Hw as [| [k f] rs Hf Hw IH]; intros rs0 fuel Hfuel Hs.
  - exists []. rewrite app_nil_r. split; [by apply parseredirs_stop | constructor].
  - destruct fuel as [| fuel]; [cbn in Hfuel; lia |]. rewrite redirs_cons, <- app_assoc in *.
    unfold p_redir, p_word in *. cbn [fst snd] in *. rewrite <- !app_assoc in *. cbn [app] in *.
    assert (nows (redirs rs ++ r)) as Hn by (apply nows_redirs; apply Hr).
    destruct (gettoken_redir k (f ++ SP :: redirs rs ++ r)) as (q & e & E1); [by apply nows_word |].
    pose proof (gettoken_word f (redirs rs ++ r) Hf Hn) as E2.
    assert (peek (chars "<>") (match k with RIn => [60; SP] | ROut => [62; SP] | RApp => [62; 62; SP] end ++ f ++ SP :: redirs rs ++ r) =
      (true, match k with RIn => [60; SP] | ROut => [62; SP] | RApp => [62; 62; SP] end ++ f ++ SP :: redirs rs ++ r)) as Ep.
    { rewrite peek_nows by (destruct k; by apply nows_cons). by destruct k. }
    cbn [parseredirs]. rewrite Ep. cbn [negb]. rewrite E1, E2. cbn [negb Z.eqb].
    destruct (IH (rs0 ++ [(f ++ SP :: redirs rs ++ r, SP :: redirs rs ++ r, (mode_of k).1, (mode_of k).2)]) fuel) as (rs' & E & Hrep).
    { cbn in Hfuel. lia. }
    { apply (suffix_drop _ _ _) in Hs. apply (suffix_drop _ _ _) in Hs. by apply suffix_tail in Hs. }
    exists ((f ++ SP :: redirs rs ++ r, SP :: redirs rs ++ r, (mode_of k).1, (mode_of k).2) :: rs'). split.
    + rewrite <- app_assoc in E. rewrite Z.eqb_refl. cbn [negb]. by destruct k.
    + constructor; [| done]. split; [| by destruct k]. split_and!; [done | | done]. cbn. by apply suffix_drop in Hs.
Qed.

Lemma parseargs_end fuel av rs s : ends_with (chars "|)&;") s → parseargs fuel av rs s = POk (av, rs) s.
Proof.
  intros He. assert (nows s) as Hn by (eapply nows_ends; [| exact He]; is_sym).
  destruct fuel; cbn [parseargs]; rewrite peek_nows by done; (destruct s as [| c s]; [done |]); by rewrite bool_decide_true.
Qed.

Lemma no_redir_end s : ends_with (chars "|)&;") s → no_redir s.
Proof.
  intros He. split; [eapply nows_ends; [| exact He]; is_sym |]. destruct s as [| c s]; [done |]. cbn in He |- *. set_solver.
Qed.

Lemma no_redir_word w s : word_ok w → no_redir (w ++ s).
Proof.
  intros Hw. split; [by apply nows_word |]. destruct (word_head w s Hw) as (c & s' & -> & Hc). apply word_char_spec in Hc as (_ & Hy & _).
  assert (∀ d, d ∈ chars "<>" → is_symbol d = true) as Hall by is_sym. intros H%Hall. congruence.
Qed.

Lemma parseargs_f s ws rs r av0 rs0 fuel :
  ws ≠ [] → Forall word_ok ws → Forall (λ p, word_ok p.2) rs → ends_with (chars "|)&;") r →
  (length av0 + length ws < MAXARGS)%nat → (length ws <= fuel)%nat → (words ws ++ redirs rs ++ r) `suffix_of` s →
  ∃ av rs', parseargs fuel av0 rs0 (words ws ++ redirs rs ++ r) = POk (av0 ++ av, rs0 ++ rs') r ∧
    Forall2 (λ a w, points s w a.1 a.2) av ws ∧ Forall2 (rep_redir s) rs' rs.
Proof.
  intros Hne Hws Hrs Hr. assert (no_redir r) as Hnr by (by apply no_redir_end).
  revert av0 rs0 fuel. induction Hws as [| w ws Hw Hws IH]; [done |]. intros av0 rs0 fuel Hlen Hfuel Hs.
  destruct fuel as [| fuel]; [cbn in Hfuel; lia |]. rewrite words_cons in *. set (rest := words ws ++ redirs rs ++ r) in *.
  assert (nows rest) as Hn by (apply nows_words; [done |]; apply nows_redirs; apply Hnr).
  cbn [parseargs]. rewrite (peek_word _ w (SP :: rest) Hw) by is_sym. rewrite (gettoken_word w rest Hw Hn). cbn [negb Z.eqb]. rewrite Z.eqb_refl. cbn [negb].
  replace (MAXARGS <=? length (av0 ++ [(w ++ SP :: rest, SP :: rest)]))%nat with false
    by (symmetry; apply Nat.leb_gt; rewrite length_app; cbn in *; lia).
  assert (rest `suffix_of` s) as Hrest by (apply suffix_drop in Hs; by apply suffix_tail in Hs).
  assert (points s w (w ++ SP :: rest) (SP :: rest)) as Hpt by done.
  destruct ws as [| w2 ws].
  - unfold rest, words in *. cbn [fmap list_fmap concat app] in *.
    destruct (parseredirs_f s rs rs0 r (length (redirs rs ++ r)) Hrs Hnr) as (rs' & E & Hrep).
    { rewrite length_app. pose proof (length_redirs rs). lia. }
    { done. }
    rewrite E. cbn [pbind]. rewrite parseargs_end by done. eexists _, rs'. split; [reflexivity |]. split; [by constructor | done].
  - rewrite parseredirs_stop by (unfold rest; rewrite words_cons; apply no_redir_word; by apply Forall_cons in Hws as [? _]).
    cbn [pbind].
    destruct (IH ltac:(done) (av0 ++ [(w ++ SP :: rest, SP :: rest)]) rs0 fuel) as (av & rs' & E & H1 & H2).
    { rewrite length_app. cbn in *. lia. }
    { cbn in *. lia. }
    { done. }
    rewrite E, <- app_assoc. eexists _, rs'. split; [reflexivity |]. split; [by constructor | done].
Qed.

(** ** The grammar's levels *)

Definition amps (k : nat) : list Z := concat (replicate k [38; SP]).

Definition backs (k : nat) (c : cmd) : cmd := Nat.iter k BACK c.

Lemma ends_sub t1 t2 s : ends_with t1 s → (∀ c, c ∈ t1 → c ∈ t2) → ends_with t2 s.
Proof. destruct s; [done |]. cbn. auto. Qed.

Lemma nows_print lv c s : scmd_ok c → nows s → nows (print lv c ++ s).
Proof.
  revert lv s. induction c as [ws | c IH k f | a IHa b IHb | a IHa b IHb | a IH]; intros lv s Hok Hs; cbn [print].
  - apply nows_words; [apply Hok | done].
  - rewrite <- app_assoc. apply IH; [apply Hok |]. destruct k; by apply nows_cons.
  - unfold paren. destruct (_ <? _)%nat; [by apply nows_cons |]. rewrite <- app_assoc. apply IHa; [apply Hok |]. by apply nows_cons.
  - unfold paren. destruct (_ <? _)%nat; [by apply nows_cons |]. rewrite <- app_assoc. apply IHa; [apply Hok |]. by apply nows_cons.
  - unfold paren. destruct (_ <? _)%nat; [by apply nows_cons |]. rewrite <- app_assoc. apply IH; [done |]. by apply nows_cons.
Qed.

Section levels.
Context (s : list Z).

Definition level0 (c : scmd) : Prop := ∀ rs fuel r,
  Forall (λ p, word_ok p.2) rs → ends_with (chars "|)&;") r →
  let ps := print 0 c ++ redirs rs ++ r in
  (4 * length ps + 2 <= fuel)%nat → ps `suffix_of` s →
  ∃ c' rs', parseexec fuel ps = POk (foldl redircmd c' rs') r ∧ rep s c' c ∧ Forall2 (rep_redir s) rs' rs.

Definition level1 (c : scmd) : Prop := ∀ fuel r,
  ends_with (chars ")&;") r →
  let ps := print 1 c ++ r in
  (4 * length ps + 3 <= fuel)%nat → ps `suffix_of` s →
  ∃ c', parsepipe fuel ps = POk c' r ∧ rep s c' c.

Definition level2 (c : scmd) : Prop := ∀ k fuel r,
  ends_with (chars ");") r →
  let ps := print 2 c ++ amps k ++ r in
  (4 * length ps + 3 <= fuel)%nat → ps `suffix_of` s →
  ∃ c', pbind (parsepipe fuel ps) (λ c ps, parsebacks (length ps) c ps) = POk (backs k c') r ∧ rep s c' c.

Definition level3 (c : scmd) : Prop := ∀ fuel r,
  ends_with (chars ")") r →
  let ps := print 3 c ++ r in
  (4 * length ps + 4 <= fuel)%nat → ps `suffix_of` s →
  ∃ c', parseline fuel ps = POk c' r ∧ rep s c' c.

(** The next character is not one of [toks]. *)
Lemma peek_no toks toks' r :
  ends_with toks' r → (∀ c, c ∈ toks' → is_symbol c = true ∧ c ∉ toks) → peek toks r = (false, r).
Proof.
  intros He Ht. rewrite peek_nows by (eapply nows_ends; [| exact He]; intros c Hc; by apply Ht).
  destruct r as [| c r]; [done |]. f_equal. apply bool_decide_eq_false. by apply Ht.
Qed.

Lemma peek_yes toks c r : is_symbol c = true → c ∈ toks → peek toks (c :: r) = (true, c :: r).
Proof. intros Hy Hc. rewrite peek_nows by (by apply nows_cons, symbol_not_space). by rewrite bool_decide_true. Qed.

Ltac toks := let c := fresh in let Hc := fresh in intros c Hc; cbn in Hc; rewrite ?elem_of_cons in Hc;
  repeat (destruct Hc as [-> | Hc]; [apply (bool_decide_unpack _); vm_compute; exact I |]); by apply not_elem_of_nil in Hc.

Lemma level01 c : print 1 c = print 0 c → level0 c → level1 c.
Proof.
  intros E H fuel r Hr ps Hf Hs. unfold ps in *. rewrite E in *. destruct fuel as [| fuel]; [lia |]. cbn [parsepipe].
  destruct (H [] fuel r) as (c' & rs' & Ep & Hrep & Hrs); [constructor | eapply ends_sub; [exact Hr | toks] | cbn; lia | done |].
  cbn [app redirs fmap list_fmap concat] in Ep. rewrite Ep. inversion Hrs. subst. cbn [pbind foldl].
  rewrite (peek_no _ (chars ")&;")) by (try done; toks). by exists c'.
Qed.

Lemma parsebacks_f k c r fuel :
  ends_with (chars ");") r → (k <= fuel)%nat → parsebacks fuel c (amps k ++ r) = POk (backs k c) r.
Proof.
  intros Hr. revert c fuel. induction k as [| k IH]; intros c fuel Hf.
  - cbn [amps replicate concat app backs Nat.iter]. destruct fuel; cbn [parsebacks]; by rewrite (peek_no _ (chars ");")) by (try done; toks).
  - destruct fuel as [| fuel]; [lia |]. change (amps (S k) ++ r) with (38 :: SP :: amps k ++ r). cbn [parsebacks].
    rewrite peek_yes by (try done; set_solver). cbn [negb].
    rewrite gettoken_sym; [| done | done |]. 2: { destruct k; [eapply nows_ends; [| exact Hr]; is_sym | by apply nows_cons]. }
    rewrite IH by lia. unfold backs. by rewrite <- Nat.iter_succ_r.
Qed.

Lemma length_amps k : length (amps k) = (2 * k)%nat.
Proof. induction k as [| k IH]; [done |]. unfold amps in *. cbn. rewrite IH. lia. Qed.

Lemma level12 c : print 2 c = print 1 c → level1 c → level2 c.
Proof.
  intros E H k fuel r Hr ps Hf Hs. unfold ps in *. rewrite E in *. destruct (H fuel (amps k ++ r)) as (c' & Ep & Hrep); [| done | done |].
  { destruct k; [eapply ends_sub; [exact Hr | toks] | cbn; set_solver]. }
  exists c'. rewrite Ep. cbn [pbind]. split; [| done]. apply parsebacks_f; [done |]. rewrite length_app, length_amps. lia.
Qed.

Lemma pbind_assoc {A B C} (m : pres A) (f : A → list Z → pres B) (g : B → list Z → pres C) :
  pbind (pbind m f) g = pbind m (λ a ps, pbind (f a ps) g).
Proof. by destruct m. Qed.

Lemma parseline_S fuel ps :
  parseline (S fuel) ps =
    pbind (pbind (parsepipe fuel ps) (λ c ps, parsebacks (length ps) c ps)) (λ c ps,
      let '(b, ps) := peek (chars ";") ps in
      if b then
        let '(_, _, _, ps) := gettoken ps in
        pbind (parseline fuel ps) (λ r ps, POk (LIST c r) ps)
      else POk c ps).
Proof. by rewrite pbind_assoc. Qed.

Lemma level23 c : print 3 c = print 2 c → level2 c → level3 c.
Proof.
  intros E H fuel r Hr ps Hf Hs. unfold ps in *. rewrite E in *. destruct fuel as [| fuel]; [lia |]. rewrite parseline_S.
  destruct (H 0%nat fuel r) as (c' & Ep & Hrep); [eapply ends_sub; [exact Hr | toks] | cbn; lia | done |].
  change (amps 0 ++ r) with r in Ep. rewrite Ep. cbn [pbind].
  rewrite (peek_no _ (chars ")")) by (try done; toks). by exists c'.
Qed.

Lemma level30 c : scmd_ok c → print 0 c = paren true (print 3 c) → level3 c → level0 c.
Proof.
  intros Hok E H rs fuel r Hrs Hr ps Hf Hs. unfold ps in *. rewrite E in *. unfold paren in *. rewrite <- !app_assoc in *. cbn [app] in *.
  destruct fuel as [| [| fuel]]; [lia.. |]. cbn [parseexec]. rewrite peek_yes by (try done; set_solver). cbn [parseblock].
  rewrite peek_yes by (try done; set_solver). cbn [negb].
  assert (nows (redirs rs ++ r)) as Hn by (apply nows_redirs; eapply nows_ends; [| exact Hr]; is_sym).
  rewrite gettoken_sym; [| done | done | apply nows_print; [done | by apply nows_cons]].
  assert ((print 3 c ++ 41 :: SP :: redirs rs ++ r) `suffix_of` s) as Hs' by (by apply suffix_tail, suffix_tail in Hs).
  destruct (H fuel (41 :: SP :: redirs rs ++ r)) as (c' & Ep & Hrep); [cbn; set_solver | cbn in Hf; lia | done |].
  rewrite Ep. cbn [pbind]. rewrite peek_yes by (try done; set_solver). cbn [negb]. rewrite gettoken_sym by done.
  destruct (parseredirs_f s rs [] r (length (redirs rs ++ r))) as (rs' & Er & Hrep'); [done | by apply no_redir_end | | |].
  { rewrite length_app. pose proof (length_redirs rs). lia. }
  { apply suffix_drop in Hs'. by apply suffix_tail, suffix_tail in Hs'. }
  rewrite Er. cbn [pbind app]. by exists c', rs'.
Qed.

Lemma level0_exec ws : scmd_ok (SExec ws) → level0 (SExec ws).
Proof.
  intros [Hws Hlen] rs fuel r Hrs Hr ps Hf Hs. change (print 0 (SExec ws)) with (words ws) in ps. unfold ps in *. clear ps.
  destruct fuel as [| fuel]; [lia |]. cbn [parseexec].
  assert (no_redir r) as Hn by (by apply no_redir_end).
  destruct Hws as [| w ws Hw Hws].
  - change (words [] ++ redirs rs ++ r) with (redirs rs ++ r) in *.
    assert (peek (chars "(") (redirs rs ++ r) = (false, redirs rs ++ r)) as ->.
    { destruct rs as [| [[] f] rs]; [apply (peek_no _ (chars "|)&;")); [done | toks] | by (rewrite peek_nows by (by apply nows_cons))..]. }
    destruct (parseredirs_f s rs [] r (length (redirs rs ++ r))) as (rs' & Er & Hrep); [done | done | | done |].
    { rewrite length_app. pose proof (length_redirs rs). lia. }
    rewrite Er. cbn [pbind app]. rewrite parseargs_end by done. cbn [pbind fst snd]. exists (EXEC []), rs'. split_and!; [done | by constructor | done].
  - rewrite words_cons in *. rewrite peek_word by (try done; is_sym). rewrite parseredirs_stop by (by apply no_redir_word). cbn [pbind].
    rewrite <- words_cons in *. set (n := length (words (w :: ws) ++ redirs rs ++ r)).
    destruct (parseargs_f s (w :: ws) rs r [] [] n) as (av & rs' & E & H1 & H2); [done | by constructor | done | done | done | apply length_words | done |].
    rewrite E. cbn [pbind fst snd app]. by exists (EXEC av), rs'.
Qed.

Lemma level0_redir c k f : word_ok f → level0 c → level0 (SRedir c k f).
Proof.
  intros Hf H rs fuel r Hrs Hr ps Hfu Hs.
  assert (ps = print 0 c ++ redirs ((k, f) :: rs) ++ r) as E by (unfold ps; cbn [print]; by rewrite redirs_cons, <- !app_assoc).
  rewrite E in *. destruct (H ((k, f) :: rs) fuel r) as (c' & rs' & Ep & Hrep & Hrs'); [by constructor | done | done | done |].
  inversion Hrs' as [| [[[q e] m] fd] ? rs2 ? Hr1 Hr2]. subst. rewrite Ep. by exists (REDIR c' q e m fd), rs2.
Qed.

Lemma level1_pipe a b : scmd_ok b → level0 a → level1 b → level1 (SPipe a b).
Proof.
  intros Hok Ha Hb fuel r Hr ps Hf Hs. unfold ps in *. clear ps. change (print 1 (SPipe a b)) with (print 0 a ++ [124; SP] ++ print 1 b) in *.
  rewrite <- !app_assoc in *. cbn [app] in *. destruct fuel as [| fuel]; [lia |]. cbn [parsepipe].
  destruct (Ha [] fuel (124 :: SP :: print 1 b ++ r)) as (a' & rs' & Ea & Hrep & Hrs); [constructor | cbn; set_solver | cbn; lia | done |].
  inversion Hrs. subst. change (redirs [] ++ ?x) with x in Ea. rewrite Ea. cbn [pbind foldl]. rewrite peek_yes by (try done; set_solver).
  rewrite gettoken_sym; [| done | done | apply nows_print; [done | eapply nows_ends; [| exact Hr]; is_sym]].
  destruct (Hb fuel r) as (b' & Eb & Hrepb); [done | rewrite length_app in Hf; cbn in Hf; lia | by apply suffix_drop, suffix_tail, suffix_tail in Hs |].
  rewrite Eb. by exists (PIPE a' b').
Qed.

Lemma level2_back a : level2 a → level2 (SBack a).
Proof.
  intros Ha k fuel r Hr ps Hf Hs.
  assert (ps = print 2 a ++ amps (S k) ++ r) as E by (unfold ps; change (print 2 (SBack a)) with (print 2 a ++ [38; SP]); by rewrite <- app_assoc).
  rewrite E in *. destruct (Ha (S k) fuel r) as (a' & Ea & Hrep); [done | done | done |].
  rewrite Ea. exists (BACK a'). unfold backs. by rewrite Nat.iter_succ_r.
Qed.

Lemma level3_list a b : scmd_ok b → level2 a → level3 b → level3 (SList a b).
Proof.
  intros Hok Ha Hb fuel r Hr ps Hf Hs. unfold ps in *. clear ps. change (print 3 (SList a b)) with (print 2 a ++ [59; SP] ++ print 3 b) in *.
  rewrite <- !app_assoc in *. cbn [app] in *. destruct fuel as [| fuel]; [lia |]. rewrite parseline_S.
  destruct (Ha 0%nat fuel (59 :: SP :: print 3 b ++ r)) as (a' & Ea & Hrep); [cbn; set_solver | cbn; lia | done |].
  change (amps 0 ++ ?x) with x in Ea. rewrite Ea. cbn [pbind backs Nat.iter]. rewrite peek_yes by (try done; set_solver).
  rewrite gettoken_sym; [| done | done | apply nows_print; [done | eapply nows_ends; [| exact Hr]; is_sym]].
  destruct (Hb fuel r) as (b' & Eb & Hrepb); [done | rewrite length_app in Hf; cbn in Hf; lia | by apply suffix_drop, suffix_tail, suffix_tail in Hs |].
  rewrite Eb. by exists (LIST a' b').
Qed.

Lemma levels c : scmd_ok c → level0 c ∧ level1 c ∧ level2 c ∧ level3 c.
Proof.
  induction c as [ws | c IH k f | a IHa b IHb | a IHa b IHb | a IH]; intros Hok.
  - pose proof (level0_exec ws Hok) as H0. assert (level1 (SExec ws)) as H1 by (by apply level01).
    assert (level2 (SExec ws)) as H2 by (by apply level12). split_and!; try done. by apply level23.
  - destruct Hok as [Hc Hf]. pose proof (level0_redir c k f Hf (proj1 (IH Hc))) as H0.
    assert (level1 (SRedir c k f)) as H1 by (by apply level01). assert (level2 (SRedir c k f)) as H2 by (by apply level12). split_and!; try done. by apply level23.
  - destruct Hok as [Ha Hb]. destruct (IHa Ha) as (A0 & _), (IHb Hb) as (_ & B1 & _). pose proof (level1_pipe a b Hb A0 B1) as H1.
    assert (level2 (SPipe a b)) as H2 by (by apply level12). assert (level3 (SPipe a b)) as H3 by (by apply level23). split_and!; try done. by apply level30.
  - destruct Hok as [Ha Hb]. destruct (IHa Ha) as (_ & _ & A2 & _), (IHb Hb) as (_ & _ & _ & B3). pose proof (level3_list a b Hb A2 B3) as H3.
    assert (level0 (SList a b)) as H0 by (by apply level30). assert (level1 (SList a b)) as H1 by (by apply level01). split_and!; try done. by apply level12.
  - destruct (IH Hok) as (_ & _ & A2 & _). pose proof (level2_back a A2) as H2. assert (level3 (SBack a)) as H3 by (by apply level23).
    assert (level0 (SBack a)) as H0 by (by apply level30). split_and!; try done. by apply level01.
Qed.
End levels.

(** ** The strings the commands point to *)

Definition kind_of (m : Z * Z) : option rkind := list_find (λ k, mode_of k = m) [RIn; ROut; RApp] ≫= λ p, Some p.2.

(** The command as [runcmd] finds it, where [str q] is the string at [q]. *)
Fixpoint strings_with (str : list Z → list Z) (c : cmd) : option scmd :=
  match c with
  | EXEC av => Some (SExec ((λ a, str a.1) <$> av))
  | REDIR c f _ m fd => c ← strings_with str c; k ← kind_of (m, fd); Some (SRedir c k (str f))
  | PIPE a b => a ← strings_with str a; b ← strings_with str b; Some (SPipe a b)
  | LIST a b => a ← strings_with str a; b ← strings_with str b; Some (SList a b)
  | BACK a => a ← strings_with str a; Some (SBack a)
  end.

Definition strings (n : nat) (buf : list Z) (c : cmd) : option scmd := strings_with (at_ptr n buf) c.

(** The ends of the strings of a command. *)
Fixpoint ends (c : cmd) : list (list Z) :=
  match c with
  | EXEC av => snd <$> av
  | REDIR c _ e _ _ => ends c ++ [e]
  | PIPE a b | LIST a b => ends a ++ ends b
  | BACK a => ends a
  end.

Lemma nulterminate_ends n c buf : nulterminate n c buf = foldl (λ b e, nul_at n e b) buf (ends c).
Proof.
  revert buf. induction c as [av | c IH f e m fd | a IHa b IHb | a IHa b IHb | a IH]; intros buf; cbn [nulterminate ends].
  - revert buf. induction av as [| a av IH]; intros buf; [done |]. cbn. apply IH.
  - rewrite foldl_app, IH. done.
  - by rewrite foldl_app, IHa, IHb.
  - by rewrite foldl_app, IHa, IHb.
  - apply IH.
Qed.

Lemma foldl_nul n es buf i :
  (i < length buf)%nat →
  foldl (λ b e, nul_at n e b) buf es !! i = if bool_decide (i ∈ (λ e, n - length e)%nat <$> es) then Some 0 else buf !! i.
Proof.
  revert buf. induction es as [| e es IH]; intros buf Hi; [by rewrite bool_decide_false by set_solver |]. cbn [foldl].
  rewrite IH by (unfold nul_at; by rewrite length_insert). unfold nul_at. destruct (decide (i = n - length e)%nat) as [-> | Hne].
  - rewrite list_lookup_insert_eq by done. rewrite (bool_decide_true (_ ∈ _ <$> e :: es)) by (rewrite fmap_cons; left). by destruct (bool_decide _).
  - rewrite list_lookup_insert_ne by done.
    rewrite (bool_decide_ext (i ∈ _ <$> e :: es) (i ∈ (λ e, n - length e)%nat <$> es)); [done |]. rewrite fmap_cons, elem_of_cons. naive_solver.
Qed.

Lemma suffix_at (s e : list Z) x : e `suffix_of` s → head e = Some x → s !! (length s - length e)%nat = Some x.
Proof.
  intros [k ->] H. destruct e as [| y e]; [done |]. injection H as ->. rewrite length_app.
  replace (length k + length (x :: e) - length (x :: e))%nat with (length k) by lia. by rewrite list_lookup_middle.
Qed.

Lemma rep_ends s c' c e : rep s c' c → e ∈ ends c' → s !! (length s - length e)%nat = Some SP.
Proof.
  assert (∀ w q, points s w q e → s !! (length s - length e)%nat = Some SP) as Hpt.
  { intros w q (-> & Hs & He). apply suffix_at; [by eapply suffix_drop | done]. }
  revert c. induction c' as [av | c' IH f e' m fd | a IHa b IHb | a IHa b IHb | a IH]; intros [ws | c k w | a2 b2 | a2 b2 | a2] Hr He; try done; cbn in *.
  - apply list_elem_of_fmap in He as (a & -> & Ha). apply list_elem_of_lookup in Ha as (i & Hi).
    destruct (Forall2_lookup_l _ _ _ _ _ Hr Hi) as (w & _ & Hw). by eapply Hpt.
  - destruct Hr as [Hr [Hw _]]. apply elem_of_app in He as [He | He]; [by eapply IH |].
    apply list_elem_of_singleton in He as ->. by eapply Hpt.
  - apply elem_of_app in He as [He | He]; [eapply IHa | eapply IHb]; naive_solver.
  - apply elem_of_app in He as [He | He]; [eapply IHa | eapply IHb]; naive_solver.
  - by eapply IH.
Qed.

Section strings.
Context (s buf : list Z).
Context (Hsame : ∀ i x, s !! i = Some x → x ≠ SP → buf !! i = Some x).

Lemma cstr_points w q e :
  Forall (λ c, word_char c = true) w → points s w q e → buf !! (length s - length e)%nat = Some 0 →
  at_ptr (length s) buf q = w.
Proof.
  intros Hw (-> & Hs & He) H0. unfold at_ptr. induction Hw as [| c w Hc Hw IH]; cbn [app] in *.
  - by rewrite (drop_S _ _ _ H0).
  - destruct (word_char_spec c Hc) as (Hsp & _ & Hnz).
    pose proof (suffix_at s (c :: w ++ e) c Hs eq_refl) as Hat. apply Hsame in Hat; [| by intros ->].
    rewrite (drop_S _ _ _ Hat). cbn [cstr]. rewrite (proj2 (Z.eqb_neq c 0)) by done. f_equal.
    etransitivity; [| apply IH; by apply suffix_tail in Hs]. do 2 f_equal. apply suffix_length in Hs. cbn in Hs |- *. lia.
Qed.

Lemma strings_rep c' c :
  scmd_ok c → rep s c' c → (∀ e, e ∈ ends c' → buf !! (length s - length e)%nat = Some 0) → strings (length s) buf c' = Some c.
Proof.
  unfold strings.
  revert c. induction c' as [av | c' IH f e' m fd | a IHa b IHb | a IHa b IHb | a IH];
    intros [ws | c k w | a2 b2 | a2 b2 | a2] Hok Hr He; try done; cbn [ends] in He; cbn [rep] in Hr; cbn [scmd_ok] in Hok; cbn [strings_with].
  - f_equal. f_equal. destruct Hok as [Hok _]. induction Hr as [| a w av ws Ha Hr IH]; [done |]. apply Forall_cons in Hok as [Hw Hok].
    cbn. f_equal; [| apply IH; try done; intros e H; apply He; by right].
    eapply cstr_points; [apply Hw | exact Ha |]. apply He. left.
  - destruct Hr as [Hr [Hw Hm]]. destruct Hok as [Hok Hwk]. rewrite (IH c) by (try done; intros e H; apply He; apply elem_of_app; by left).
    cbn in Hm. rewrite Hm. assert (at_ptr (length s) buf f = w) as ->.
    { eapply cstr_points; [apply Hwk | exact Hw |]. apply He, elem_of_app. right. by apply list_elem_of_singleton. }
    by destruct k.
  - rewrite (IHa a2), (IHb b2); try done; try naive_solver; intros e H; apply He, elem_of_app; auto.
  - rewrite (IHa a2), (IHb b2); try done; try naive_solver; intros e H; apply He, elem_of_app; auto.
  - by rewrite (IH a2).
Qed.
End strings.

(** What is printed is parsed, and its strings are found. *)
Lemma parse_print_ok c :
  scmd_ok c →
  ∃ c' buf, parsecmd (print 3 c) = POk (c', buf) [] ∧ strings (length (print 3 c)) buf c' = Some c.
Proof.
  intros Hok. set (s := print 3 c). destruct (levels s c Hok) as (_ & _ & _ & H3).
  destruct (H3 (parse_fuel s) []) as (c' & Ep & Hr); [done | rewrite app_nil_r; unfold parse_fuel, s; lia | by rewrite app_nil_r |].
  rewrite app_nil_r in Ep. fold s in Ep. set (buf := nulterminate (length s) c' (s ++ [0])). exists c', buf. split.
  - unfold parsecmd. rewrite Ep. done.
  - assert (∀ i, (i < length s)%nat → buf !! i = if bool_decide (i ∈ (λ e, length s - length e)%nat <$> ends c') then Some 0 else s !! i) as Hbuf.
    { intros i Hi. unfold buf. rewrite nulterminate_ends, foldl_nul by (rewrite length_app; cbn; lia). by rewrite lookup_app_l. }
    apply strings_rep; [| done | done |].
    + intros i x Hx Hsp. rewrite Hbuf by (by eapply lookup_lt_Some). rewrite bool_decide_false; [done |].
      intros (e & -> & He)%list_elem_of_fmap. rewrite (rep_ends s c' c e Hr He) in Hx. congruence.
    + intros e He. rewrite Hbuf by (eapply lookup_lt_Some; by eapply rep_ends). rewrite bool_decide_true; [done |]. apply list_elem_of_fmap. by exists e.
Qed.

(** C39: the shell reads back every command that is printed with the precedences
    of |, & and ; (redirections and parenthesised commands included): the
    parser returns the command's tree, and in the line, after the NULs have
    been put in, every argument and file name is the C string that was printed. *)
Theorem parse_print c :
  scmd_ok c →
  ∃ c' buf, parsecmd (print 3 c) = POk (c', buf) [] ∧ strings (length (print 3 c)) buf c' = Some c.
Proof. apply parse_print_ok. Qed.

Lemma parse_print_witness :
  let c := SList (SRedir (SPipe (SExec [chars "ls"; chars "-l"]) (SRedir (SExec [chars "wc"]) RIn (chars "x"))) ROut (chars "out"))
                 (SBack (SExec [chars "echo"; chars "hi"])) in
  scmd_ok c ∧ ∃ c' buf, parsecmd (print 3 c) = POk (c', buf) [] ∧ strings (length (print 3 c)) buf c' = Some c.
Proof.
  cbn zeta. match goal with |- scmd_ok ?c ∧ _ => assert (scmd_ok c) as Hok end.
  { cbn. unfold word_ok, MAXARGS. repeat split; try done; try lia; repeat constructor; try done. }
  split; [exact Hok | exact (parse_print _ Hok)].
Defined.
