(* ===== verification/ShRun.v ===== *)
(** * What the shell runs

    The system calls of [runcmd] are given to a model of a process's descriptor
    table; the programs that come out are the ones the command stands for,
    connected as it says, and with no other descriptor open. *)

From S2P Require Import Prelude Riscv Abi Printf User Sh ShSpec.

(** ** Processes and their descriptors *)

(** What a descriptor refers to: a file that was opened, an end of a pipe, or
    something the process was started with. *)
Inductive obj :=
  | OFile (path : list Z) (mode : Z)
  | OPipeR (n : nat)
  | OPipeW (n : nat)
  | OGiven (n : nat).

Definition table := gmap Z obj.

(** What a process does.  A child's doings are its own sequence. *)
Inductive act :=
  | AExec (path : list Z) (argv : list (list Z)) (fds : table)
  | AFork (child : list act)
  | AWait
  | AWrite (fd : Z) (buf : list Z)
  | AExit (status : Z).

(** [fdalloc] of kernel/sysfile.c: the first free descriptor of [NOFILE] *)
Definition new_fd (o : obj) (t : table) : option (Z * table) :=
  match list_find (λ fd, t !! fd = None) (Z.of_nat <$> seq 0 (Z.to_nat NOFILE)) with
  | Some (_, fd) => Some (fd, <[fd := o]> t)
  | None => None
  end.

Section run.
(** Whether a file can be opened in a mode, and whether it can be executed. *)
Context (opens : list Z → Z → bool) (execs : list Z → bool).

(** What the process with the table [t] does, where [n] pipes and processes
    have been made; [fork] succeeds. *)
Fixpoint perform {A} (p : prog A) (t : table) (n : nat) : list act * nat :=
  match p with
  | Ret _ | OutOfFuel => ([], n)
  | Vis e k =>
      match e in sysE X return (X → table → nat → list act * nat) → list act * nat with
      | s_fork => λ run,
          let '(child, n) := run 0 t n in
          let '(rest, n) := run (Z.of_nat (S n)) t n in
          (AFork child :: rest, n)
      | s_exit st => λ _, ([AExit st], n)
      | s_wait => λ run, let '(rest, n) := run 1 t n in (AWait :: rest, n)
      | s_pipe => λ run,
          match new_fd (OPipeR n) t with
          | Some (p0, t') =>
              match new_fd (OPipeW n) t' with
              | Some (p1, t'') => run (Some (p0, p1)) t'' (S n)
              | None => run None t n
              end
          | None => run None t n
          end
      | s_write fd buf => λ run, let '(rest, n) := run (Z.of_nat (length buf)) t n in (AWrite fd buf :: rest, n)
      | s_close fd => λ run,
          match t !! fd with Some _ => run 0 (delete fd t) n | None => run (-1) t n end
      | s_exec path argv => λ run,
          if execs path then ([AExec path argv t], n) else run (-1) t n
      | s_open path mode => λ run,
          if opens path mode then
            match new_fd (OFile path mode) t with
            | Some (fd, t') => run fd t' n
            | None => run (-1) t n
            end
          else run (-1) t n
      | s_dup fd => λ run,
          match t !! fd with
          | Some o => match new_fd o t with Some (fd', t') => run fd' t' n | None => run (-1) t n end
          | None => run (-1) t n
          end
      | _ => λ _, ([], n) (* [runcmd] makes no other call *)
      end (λ x t n, perform (k x) t n)
  end.

(** ** What a command stands for *)

Definition stdio (i o e : obj) : table := <[0 := i]> (<[1 := o]> (<[2 := e]> ∅)).

Definition says (fd : Z) (l : list Z) : list act := (λ c, AWrite fd [c]) <$> l.

(** The command's programs, with input [i], output [o] and errors to [e]. *)
Fixpoint plumb (c : scmd) (i o e : obj) (n : nat) : list act * nat :=
  match c with
  | SExec [] => ([AExit 1], n)
  | SExec ((a :: _) as argv) =>
      (if execs a then [AExec a argv (stdio i o e)]
       else says 2 (uprintf (line "exec %s failed") [S_ a]) ++ [AExit 0], n)
  | SRedir c k f =>
      let '(mode, fd) := mode_of k in
      if opens f mode then
        if fd =? 0 then plumb c (OFile f mode) o e n else plumb c i (OFile f mode) e n
      else (says 2 (uprintf (line "open %s failed") [S_ f]) ++ [AExit 1], n)
  | SPipe a b =>
      let '(ta, n1) := plumb a i (OPipeW n) e (S n) in
      let '(tb, n2) := plumb b (OPipeR n) o e n1 in
      ([AFork ta; AFork tb; AWait; AWait; AExit 0], n2)
  | SList a b =>
      let '(ta, n1) := plumb a i o e n in
      let '(tb, n2) := plumb b i o e n1 in
      (AFork ta :: AWait :: tb, n2)
  | SBack a =>
      let '(ta, n1) := plumb a i o e n in
      ([AFork ta; AExit 0], n1)
  end.

(** ** Facts *)

Lemma perform_says {A} fd l (k : () → prog A) t n :
  perform (ubind (putcs fd l) k) t n = (says fd l ++ (perform (k tt) t n).1, (perform (k tt) t n).2).
Proof.
  induction l as [| c l IH]; cbn; [by destruct (perform _ _ _) |]. rewrite IH. done.
Qed.

Lemma perform_fail {A} l st t n : perform (putcs 2 l ;;; @exit A st) t n = (says 2 l ++ [AExit st], n).
Proof. by rewrite perform_says. Qed.

Lemma perform_fork {A} (k : Z → prog A) t n :
  perform (ubind fork1 k) t n =
    let '(child, n) := perform (k 0) t n in
    let '(rest, n) := perform (k (Z.of_nat (S n))) t n in
    (AFork child :: rest, n).
Proof.
  unfold fork1. cbn [ubind sys perform]. change (0 =? -1) with false. cbn [ubind]. destruct (perform (k 0) t n) as [child n1].
  rewrite (proj2 (Z.eqb_neq (Z.of_nat (S n1)) (-1))) by lia. done.
Qed.

Lemma kind_of_mode m fd k : kind_of (m, fd) = Some k → mode_of k = (m, fd).
Proof.
  unfold kind_of. destruct (list_find _ _) as [[j k'] |] eqn:E; [| done]. cbn. intros [= ->]. by apply list_find_Some in E as (_ & E & _).
Qed.

(** A step of a process, for each system call of [runcmd] *)
Section steps.
Context {A : Type} (t : table) (n : nat).

Lemma perform_close fd o (k : Z → prog A) :
  t !! fd = Some o → perform (ubind (sys (s_close fd)) k) t n = perform (k 0) (delete fd t) n.
Proof. intros H. cbn. by rewrite H. Qed.

Lemma perform_open path mode fd t' (k : Z → prog A) :
  opens path mode = true → new_fd (OFile path mode) t = Some (fd, t') →
  perform (ubind (sys (s_open path mode)) k) t n = perform (k fd) t' n.
Proof. intros H E. cbn. by rewrite H, E. Qed.

Lemma perform_open_fail path mode (k : Z → prog A) :
  opens path mode = false → perform (ubind (sys (s_open path mode)) k) t n = perform (k (-1)) t n.
Proof. intros H. cbn. by rewrite H. Qed.

Lemma perform_dup fd o fd' t' (k : Z → prog A) :
  t !! fd = Some o → new_fd o t = Some (fd', t') → perform (ubind (sys (s_dup fd)) k) t n = perform (k fd') t' n.
Proof. intros H E. cbn. by rewrite H, E. Qed.

Lemma perform_pipe p0 p1 t1 t2 (k : option (Z * Z) → prog A) :
  new_fd (OPipeR n) t = Some (p0, t1) → new_fd (OPipeW n) t1 = Some (p1, t2) →
  perform (ubind (sys s_pipe) k) t n = perform (k (Some (p0, p1))) t2 (S n).
Proof. intros E1 E2. cbn. by rewrite E1, E2. Qed.

Lemma perform_wait (k : Z → prog A) :
  perform (ubind (sys s_wait) k) t n = (AWait :: (perform (k 1) t n).1, (perform (k 1) t n).2).
Proof. cbn. by destruct (perform _ _ _). Qed.

Lemma perform_exec path argv (k : Z → prog A) :
  perform (ubind (sys (s_exec path argv)) k) t n = if execs path then ([AExec path argv t], n) else perform (k (-1)) t n.
Proof. done. Qed.
End steps.

(** The tables [runcmd] goes through *)
Definition piped (i o e r w : obj) : table := <[4 := w]> (<[3 := r]> (stdio i o e)).

Lemma close_in i o e x : new_fd x (delete 0 (stdio i o e)) = Some (0, stdio x o e).
Proof. reflexivity. Qed.

Lemma close_out i o e x : new_fd x (delete 1 (stdio i o e)) = Some (1, stdio i x e).
Proof. reflexivity. Qed.

Lemma unpiped i o e r w : delete 4 (delete 3 (piped i o e r w)) = stdio i o e.
Proof. reflexivity. Qed.

(** The ends of the pipe are closed before what follows. *)
Lemma perform_unpipe {A} i o e r w n (k : prog A) :
  perform (sys (s_close 3) ;;; sys (s_close 4) ;;; k) (piped i o e r w) n = perform k (stdio i o e) n.
Proof. rewrite (perform_close _ _ _ r), (perform_close _ _ _ w) by reflexivity. by rewrite unpiped. Qed.

(** [runcmd] does what the command stands for. *)
Lemma runcmd_plumb str c' c i o e n :
  strings_with str c' = Some c → perform (runcmd str c') (stdio i o e) n = plumb c i o e n.
Proof.
  revert c i o e n. induction c' as [av | c' IH f e' m fd | a IHa b IHb | a IHa b IHb | a IH]; intros c i o e n H; cbn [strings_with] in H.
  - injection H as <-. destruct av as [| [a ea] av]; [done |]. cbn [runcmd fmap list_fmap plumb fst]. rewrite perform_exec.
    destruct (execs (str a)); [done |]. apply perform_fail.
  - apply bind_Some in H as (c1 & H1 & H). apply bind_Some in H as (k & Hk & [= <-]). apply kind_of_mode in Hk.
    cbn [runcmd plumb]. rewrite Hk. assert (fd = 0 ∨ fd = 1) as Hfd by (destruct k; injection Hk as _ <-; auto).
    destruct (opens (str f) m) eqn:Eo.
    + destruct Hfd as [-> | ->]; [rewrite (perform_close _ _ _ i), (perform_open _ _ _ _ _ _ _ Eo (close_in _ _ _ _)) by done
        | rewrite (perform_close _ _ _ o), (perform_open _ _ _ _ _ _ _ Eo (close_out _ _ _ _)) by done]; cbn [Z.ltb Z.eqb Z.compare]; by apply IH.
    + assert (∃ x, stdio i o e !! fd = Some x) as [x Hx] by (destruct Hfd as [-> | ->]; by eexists).
      rewrite (perform_close _ _ _ x), perform_open_fail by done. apply perform_fail.
  - apply bind_Some in H as (ca & Ha & H). apply bind_Some in H as (cb & Hb & [= <-]). cbn [runcmd plumb].
    rewrite (perform_pipe _ _ 3 4 _ (piped i o e (OPipeR n) (OPipeW n))) by done. rewrite perform_fork. cbn [Z.eqb].
    rewrite (perform_close _ _ _ o) by done. rewrite (perform_dup _ _ _ (OPipeW n) 1 (piped i (OPipeW n) e (OPipeR n) (OPipeW n))), perform_unpipe, (IHa ca) by done.
    destruct (plumb ca i (OPipeW n) e (S n)) as [ta n1]. cbn beta iota zeta. rewrite (proj2 (Z.eqb_neq (Z.of_nat (S n1)) 0)) by lia.
    rewrite perform_fork. cbn [Z.eqb].
    rewrite (perform_close _ _ _ i) by done. rewrite (perform_dup _ _ _ (OPipeR n) 0 (piped (OPipeR n) o e (OPipeR n) (OPipeW n))), perform_unpipe, (IHb cb) by done.
    destruct (plumb cb (OPipeR n) o e n1) as [tb n2]. cbn beta iota zeta. rewrite (proj2 (Z.eqb_neq (Z.of_nat (S n2)) 0)) by lia.
    by rewrite perform_unpipe, !perform_wait.
  - apply bind_Some in H as (ca & Ha & H). apply bind_Some in H as (cb & Hb & [= <-]). cbn [runcmd plumb].
    rewrite perform_fork. cbn [Z.eqb]. rewrite (IHa ca) by done. destruct (plumb ca i o e n) as [ta n1].
    rewrite (proj2 (Z.eqb_neq (Z.of_nat (S n1)) 0)) by lia. rewrite perform_wait, (IHb cb) by done. by destruct (plumb cb i o e n1).
  - apply bind_Some in H as (ca & Ha & [= <-]). cbn [runcmd plumb].
    rewrite perform_fork. cbn [Z.eqb]. rewrite (IH ca) by done. destruct (plumb ca i o e n) as [ta n1].
    by rewrite (proj2 (Z.eqb_neq (Z.of_nat (S n1)) 0)) by lia.
Qed.
End run.

(** C38: the shell, given a printed command line, runs it as the command says:
    each program that is executed has exactly the descriptors 0, 1 and 2, its
    input and output are the files and the pipe ends of the command (so that no
    end of a pipe stays open in a process that does not use it), both sides of a
    pipe run at once, the second command of a list only after a wait, and the
    shell does not wait for a command in the background.  A file that cannot be
    opened or executed gives the error message and the exit status. *)
Theorem shell_runs opens execs c i o e n :
  scmd_ok c → perform opens execs (run_line (print 3 c)) (stdio i o e) n = plumb opens execs c i o e n.
Proof.
  intros Hok. destruct (parse_print_ok c Hok) as (c' & buf & Ep & Hs). unfold run_line. rewrite Ep. by apply runcmd_plumb.
Qed.

Lemma shell_runs_witness :
  let c := SPipe (SRedir (SExec [chars "grep"; chars "x"]) RIn (chars "in")) (SRedir (SExec [chars "wc"]) ROut (chars "out")) in
  let i := OGiven 0 in let o := OGiven 1 in let e := OGiven 2 in
  scmd_ok c ∧
  perform (λ _ _, true) (λ _, true) (run_line (print 3 c)) (stdio i o e) 0 =
    ([AFork [AExec (chars "grep") [chars "grep"; chars "x"] (stdio (OFile (chars "in") O_RDONLY) (OPipeW 0) e)];
      AFork [AExec (chars "wc") [chars "wc"] (stdio (OPipeR 0) (OFile (chars "out") (Z.lor (Z.lor O_WRONLY O_CREATE) O_TRUNC)) e)];
      AWait; AWait; AExit 0], 1%nat).
Proof.
  cbn zeta. match goal with |- scmd_ok ?c ∧ _ => assert (scmd_ok c) as Hok end.
  { cbn. unfold word_ok, MAXARGS. repeat split; try done; try lia; repeat constructor; try done. }
  split; [exact Hok |]. rewrite (shell_runs _ _ _ _ _ _ _ Hok). vm_compute. reflexivity.
Defined.
